(* ===== verification/_CoqProject ===== *)
-Q . S2P
Prelude.v
PyStr.v
Json.v
Digest.v
Sha256.v
Contracts.v
CapabilityBroker.v
EpochBroker.v
Escalation.v
BrokerInterface.v
Mediation.v
RuntimeConfig.v
EffectCommit.v
ProcessLineage.v
ProcessTree.v
Containment.v
ObjectiveIntegrity.v
ObjectiveEffectCommit.v
CausalEffectCommit.v
MultiAgent.v
IsolatedExecution.v
CapabilityUse.v
FileMutation.v
Credential.v
PackageInstall.v
Trcp.v
TrcpReplay.v
