(* ===== verification/Prelude.v ===== *)
(** * LiminalOSAI: the post-sandbox governance SDK

    A verification of the Python packages under [src/sdk] that decide whether an agent
    may act after it left its sandbox. A host holds the brokers below. An agent asks; a
    broker answers with a receipt, a document bound by the digest of its canonical JSON;
    host code (executors, backends, adapters, clocks) runs only where a broker calls it.

    ** How the parts interact

    A capability broker decides from admitted contracts; the epoch-bound broker wraps it
    and drops authority bound to an old runtime epoch. The runtime mediator asks a broker
    of either kind before it runs an executor, and records a trajectory that the
    escalation analysis scores. The runtime configuration broker changes the runtime
    through the mediator and starts a new epoch. Three brokers commit an effect, each
    over the one before: the epoch-bound one leases a capability decision, the
    objective-bound one adds the verdict of the objective integrity guard, the
    causal-bound one adds the head of the verified trajectory. The containment
    coordinator revokes the capabilities when the analysis says CONTAIN; the process
    session supervisor and the lineage broker stop what still runs. The isolated
    execution broker runs a container plan through the mediator, and the package install
    broker goes through its own capability and then through that broker. The file
    mutation and the credential broker lease a use of a capability to a trusted adapter.
    The multi-agent module keeps the delegation of grants between agents. Apart from these
    stands the TRCP reference: a simulator of research under a changing provider, the
    evidence bundle built from its report, and a verifier of such bundles.

    ** Files

    Every file names its source module in its first comment. A definition has the name of
    the Python function or class it translates ([Class_method] where the class matters,
    [Class_init] for a constructor); a class with state is a [Record] whose fields carry
    the attribute names behind a short prefix; a frozen dataclass is a [Record] with its
    [body] and [as_document]. The code under [src/sdk] is:

    - [PyStr], [Json], [Digest], [Sha256]: strings, dictionaries, documents, canonical
      JSON and digests, as all the modules use them;
    - [Contracts]: [liminal_post_sandbox_contracts];
    - [CapabilityBroker]: [liminal_capability_broker/broker.py];
    - [EpochBroker]: [liminal_epoch_bound_capability];
    - [Escalation]: [liminal_causal_escalation];
    - [BrokerInterface]: the classes [BrokerOps] and [BrokerLaws], what the clients of a
      capability broker call and may rely on, with an instance for each broker;
    - [Mediation]: [liminal_runtime_mediation]; [RuntimeConfig]: [liminal_runtime_config];
    - [EffectCommit]: [liminal_effect_commit]; [ObjectiveEffectCommit]:
      [liminal_objective_effect_commit]; [CausalEffectCommit]:
      [liminal_causal_effect_commit];
    - [ObjectiveIntegrity]: [liminal_objective_integrity];
    - [Containment]: [liminal_containment]; [ProcessLineage]: [liminal_process_lineage];
      [ProcessTree]: [liminal_process_tree];
    - [MultiAgent]: [liminal_multi_agent];
    - [IsolatedExecution]: [liminal_isolated_execution]; [PackageInstall]:
      [liminal_package_install_broker];
    - [CapabilityUse]: what the lease brokers share, with the class [LeaseTheory] of a
      book of one-time leases; [FileMutation]: [liminal_file_mutation_broker];
      [Credential]: [liminal_credential_broker];
    - [Trcp]: [liminal_trcp/__init__.py]; [TrcpReplay]: [liminal_trcp/evidence.py] and
      [liminal_trcp/replay.py].

    This file has the exceptions, the result type, the state monad with exceptions, the
    lenses, Hoare triples, and the list lemmas and tactics the other files share.

    ** How the code is modelled

    - A method is a function of type [M S A]: it returns or raises, and keeps the
      mutations made before a raise. A pure function returns a [result].
    - Host code (executor, backend, callback, verifier, proposal factory) is an argument
      of type [... -> M S ...] over the whole host state [S]: it may change anything in
      it, and call the brokers again. A component is reached from [S] through a [Lens]. The
      theorems about such calls hold for every host function, or name what they need of it.
    - What a provider or a clock answers is an argument of the call that asks. The host of
      an epoch-bound broker ([EpochHost]) answers the same throughout one call.
    - [threading.RLock] and the commit fences are re-entrant: calls are sequences of steps,
      each running as without the lock, and the locks have no term. Reachability
      ([star]) over the public methods gives all the orders of calls.
    - A string is the list of its UTF-8 bytes; integers are unbounded as in Python, with
      the bounds the code checks. The regular expressions are boolean functions. Arguments
      have their annotated types where the code does not look at the type itself; documents
      and everything of type [Any] are [json] values, and the type checks on them are
      modelled with their errors. A dictionary keeps its insertion order; an indexed
      collection is a [gmap]. Floats occur in no modelled document.
    - SHA-256 is the class [Digest], of which the code relies on the form of the result.
      A theorem that needs two digests to differ names the values that must not collide.
      [Sha256] is the standard's function; the examples run with a cheap instance.
    - An exception is an [exn_class] with its message. Only [Exception] is modelled: no
      [KeyboardInterrupt] or [SystemExit].

    ** What the theorems show

    - Data: canonical JSON is injective, so equal digests mean equal documents up to the
      collisions of the digest; documents are parsed exactly when they are the documents of
      their records; scopes have a normal form. ([Json], [Contracts], [ObjectiveIntegrity])
    - Authority: which capability answers a request and with which reasons, no capability
      is used more often than its bound, a revoked or expired one never allows again,
      nothing is allowed under a stale epoch or a tainted runtime, and delegation only
      narrows and is revoked with its root. ([CapabilityBroker], [EpochBroker], [MultiAgent])
    - Mediation: an executor runs only for an admitted operation, with the trajectory it
      leaves verified; the isolated backend runs only the plan the operation is bound to.
      Where a theorem says that the host code does not run, it says that the call is the
      same for all host functions. ([Mediation], [IsolatedExecution], [RuntimeConfig])
    - Commits: everything is observed again and the lease burned before the effect runs,
      at every level of the chain, and a lease is used at most once. A success means that
      every gate was passed, in order. ([EffectCommit], [ObjectiveEffectCommit],
      [CausalEffectCommit])
    - Leases to adapters: what is released was admitted, is still backed by an active
      capability, and is refused ever after; a package is installed only through both
      gates. ([FileMutation], [Credential], [PackageInstall])
    - Reaction: containment reaches REVIEW whatever the callbacks do, with the failures
      recorded; a receipt with zero survivors means that every open session was reported
      gone, after it was terminated unless it was gone already; a lineage is accepted
      exactly when it is a tree; a critical observation is never undone. ([Containment],
      [ProcessLineage], [ProcessTree], [ObjectiveIntegrity])
    - Evidence of continuity: a change of provider keeps the scope and the task it started
      with; the bundle of a simulator passes the replay exactly when the simulator came to
      an end with no decided failover left undone and the workload check does not fail; and
      a PASS on any document at all stands for a chained trace, a legal path, scopes that
      only narrowed and, behind a confirmed finding, a reproduction. What a theorem says of
      a document is read off it by plain lookups, not with the readers of the code.
      ([Trcp], [TrcpReplay])

    The invariants are proved for all reachable states by induction on the steps; a
    property with hypotheses is followed by a lemma that applies it to a concrete run.

    ** Fuel

    Two loops of the code are not structural. [ProcessLineage.climb] follows parents with
    the number of nodes plus two as fuel: a path without repetition is shorter, and the
    code stops at a repetition. [MultiAgent.descend] walks the delegation graph with the
    number of known identifiers plus two: a node met twice ends the loop with an error. For
    both it is proved that the fuel is never exhausted.

    ** Not modelled

    - The network entry points of the objective guard apply [str.upper] to arbitrary
      Unicode; the egress gateway parses with [urllib.parse], [ipaddress] and the
      resolver of the host. The mediator uses the gateway through an interface.
    - The durable fence ([sqlite3], file locks), the LiminalDB checkpoint and the session
      recorder keep their state in files and external stores.
    - Identity attestation, governance capsules and portable receipts rest on the
      signatures of a third-party package.
    - The GitHub layers, the host adapter, the TRCP facade and the benchmarks are
      applications of the SDK; adapters, tools and scripts are input and output.
    - The kernel under [src/core] is C. *)
From stdpp Require Export base tactics list strings pretty sorting.
From Stdlib Require Export ZArith Lia.

Declare Scope py_scope.
Delimit Scope py_scope with py.

(** ** Python exceptions

    [exn_class] enumerates the exception classes the modelled modules raise or
    can observe; [HostException] is any class raised by host code. *)
Inductive exn_class :=
  | ContractError | BrokerError | EpochBindingError | MediationError
  | EscalationError | EffectCommitError | RuntimeConfigError
  | ContainmentError | ContainmentBlocked | ProcessLineageError | ProcessTreeError
  | EgressError | EgressBlocked | ObjectiveIntegrityError | ObjectiveEffectCommitError
  | CausalEffectCommitError | IsolationError | MultiAgentError | CredentialError
  | FileMutationError | PackageInstallError | TRCPError
  | KeyError | TypeError | ValueError | AttributeError
  | HostException (name : string).

#[export] Instance exn_class_eq_dec : EqDecision exn_class.
Proof. solve_decision. Defined.

Record exn := Exn { exn_cls : exn_class; exn_msg : string }.

(** [type(exc).__name__]. *)
Definition exn_name (c : exn_class) : string :=
  match c with
  | ContractError => "ContractError"
  | BrokerError => "BrokerError"
  | EpochBindingError => "EpochBindingError"
  | MediationError => "MediationError"
  | EscalationError => "EscalationError"
  | EffectCommitError => "EffectCommitError"
  | RuntimeConfigError => "RuntimeConfigError"
  | ContainmentError => "ContainmentError"
  | ContainmentBlocked => "ContainmentBlocked"
  | ProcessLineageError => "ProcessLineageError"
  | ProcessTreeError => "ProcessTreeError"
  | EgressError => "EgressError"
  | EgressBlocked => "EgressBlocked"
  | ObjectiveIntegrityError => "ObjectiveIntegrityError"
  | ObjectiveEffectCommitError => "ObjectiveEffectCommitError"
  | CausalEffectCommitError => "CausalEffectCommitError"
  | IsolationError => "IsolationError"
  | MultiAgentError => "MultiAgentError"
  | CredentialError => "CredentialError"
  | FileMutationError => "FileMutationError"
  | PackageInstallError => "PackageInstallError"
  | TRCPError => "TRCPError"
  | KeyError => "KeyError"
  | TypeError => "TypeError"
  | ValueError => "ValueError"
  | AttributeError => "AttributeError"
  | HostException n => n
  end.

(** ** The result of a pure Python computation *)
Inductive result (A : Type) :=
  | Ok (a : A)
  | Err (e : exn).
Arguments Ok {A} _.
Arguments Err {A} _.

#[export] Instance result_ret : MRet result := fun A a => Ok a.
#[export] Instance result_bind : MBind result := fun A B f m =>
  match m with Ok a => f a | Err e => Err e end.
#[export] Instance result_fmap : FMap result := fun A B f m =>
  match m with Ok a => Ok (f a) | Err e => Err e end.

Definition fail {A} (c : exn_class) (msg : string) : result A := Err (Exn c msg).

(** [if b: raise c(msg)] *)
Definition raise_if (b : bool) (c : exn_class) (msg : string) : result unit :=
  if b then fail c msg else Ok tt.

(** The value of a result known to be one. *)
Definition from_ok {A} (default : A) (r : result A) : A :=
  match r with Ok a => a | Err _ => default end.

Definition is_Some_b {A} (o : option A) : bool := match o with Some _ => true | None => false end.

Definition is_ok {A} (r : result A) : bool :=
  match r with Ok _ => true | Err _ => false end.

(** ** Methods: state passing with exceptions

    A Python method that raises keeps the mutations made before the [raise]:
    the final state is returned on both outcomes. *)
Definition M (S A : Type) : Type := S -> result A * S.

#[export] Instance M_ret {S} : MRet (M S) := fun A a s => (Ok a, s).
#[export] Instance M_bind {S} : MBind (M S) := fun A B f m s =>
  match m s with (Ok a, s') => f a s' | (Err e, s') => (Err e, s') end.
#[export] Instance M_fmap {S} : FMap (M S) := fun A B f m s =>
  match m s with (Ok a, s') => (Ok (f a), s') | (Err e, s') => (Err e, s') end.

Definition get_state {S} : M S S := fun s => (Ok s, s).
Definition modify {S} (f : S -> S) : M S unit := fun s => (Ok tt, f s).
Definition lift {S A} (r : result A) : M S A := fun s => (r, s).
Definition raise {S A} (c : exn_class) (msg : string) : M S A := lift (fail c msg).

(** [try: m  except Exception as exc: h(exc)]. *)
Definition try_except {S A} (m : M S A) (h : exn -> M S A) : M S A := fun s =>
  match m s with (Ok a, s') => (Ok a, s') | (Err e, s') => h e s' end.

(** Run a method of the object stored in field [(get, put)] of a larger state. *)
Definition zoom {S T A} (get : S -> T) (put : T -> S -> S) (m : M T A) : M S A :=
  fun s => let '(r, t) := m (get s) in (r, put t s).

(** A component of type [T] inside the state [S] of its clients and of the host. *)
Class Lens (S T : Type) := {
  lget : S -> T;
  lput : T -> S -> S;
  lget_lput t s : lget (lput t s) = t;
  lput_lget s : lput (lget s) s = s;
  lput_lput t t' s : lput t (lput t' s) = lput t s
}.

(** A method of the component, called in the state of the host. *)
Definition on {S T A} `{Lens S T} (m : M T A) : M S A := zoom lget lput m.

(** The component itself, and an assignment to its fields, in the state of the host. *)
Definition this {S T} `{Lens S T} : M S T := fun s => (Ok (lget s), s).
Definition set_this {S T} `{Lens S T} (f : T -> T) : M S unit := modify (fun s => lput (f (lget s)) s).

(** [try: m  except Exception as exc: ...] where the handler continues the method. *)
Definition attempt {S A} (m : M S A) : M S (exn + A) := fun s =>
  match m s with (Ok a, s') => (Ok (inr a), s') | (Err e, s') => (Ok (inl e), s') end.

(** Run [m] with a local variable, initially [w], that its closures may assign; the
    final value of the variable is returned with the result. *)
Definition with_local {S W A} (w : W) (m : M (S * W) A) : M S (result A * W) :=
  fun s => let '(r, (s', w')) := m (s, w) in (Ok (r, w'), s').

(** A call from inside such a closure that does not touch the variable. *)
Definition outside {S W A} (m : M S A) : M (S * W) A :=
  fun p => let '(r, s') := m (fst p) in (r, (s', snd p)).

Definition assign {S W} (w : W) : M (S * W) unit := fun p => (Ok tt, (fst p, w)).

(** An update of the local variables [w] of a loop whose body may raise halfway. *)
Definition update_local {S W} (f : W -> W) : M (S * W) unit := fun p => (Ok tt, (fst p, f (snd p))).

(** [for x in l: acc = body(acc, x)]. *)
Fixpoint fold_m {S A B} (body : B -> A -> M S B) (acc : B) (l : list A) : M S B :=
  match l with
  | [] => mret acc
  | x :: l' => acc' ← body acc x; fold_m body acc' l'
  end.

(** [for x in l: body(x)]. *)
Fixpoint for_each {S A} (body : A -> M S unit) (l : list A) : M S unit :=
  match l with
  | [] => mret tt
  | x :: l' => _ ← body x; for_each body l'
  end.

(** [for x in l: acc = body(acc, x)] in a pure function that may raise. *)
Fixpoint fold_r {A B} (body : B -> A -> result B) (acc : B) (l : list A) : result B :=
  match l with
  | [] => Ok acc
  | x :: l' => acc' ← body acc x; fold_r body acc' l'
  end.

(** [tuple(f(x) for x in l)]. *)
Fixpoint map_r {A B} (f : A -> result B) (l : list A) : result (list B) :=
  match l with
  | [] => Ok []
  | x :: l' => y ← f x; ys ← map_r f l'; Ok (y :: ys)
  end.

(** ** Hoare triples with a normal and an exceptional postcondition *)
Definition hoare {S A} (P : S -> Prop) (m : M S A)
    (Q : A -> S -> Prop) (E : exn -> S -> Prop) : Prop :=
  forall s, P s -> match m s with (Ok a, s') => Q a s' | (Err e, s') => E e s' end.

(** [R] relates the states before and after [m], whatever its outcome. *)
Definition evolves {S A} (R : S -> S -> Prop) (m : M S A) : Prop :=
  forall s, R s (snd (m s)).

(** [I] is an invariant of [m], whatever its outcome. *)
Definition preserves {S A} (I : S -> Prop) (m : M S A) : Prop :=
  evolves (fun s s' => I s -> I s') m.

(** Reflexive-transitive closure: the states reachable by a set of methods. *)
Inductive star {S} (step : S -> S -> Prop) : S -> S -> Prop :=
  | star_refl s : star step s s
  | star_step s1 s2 s3 : star step s1 s2 -> step s2 s3 -> star step s1 s3.

(** ** Lemmas *)
Create HintDb py discriminated.

Lemma bind_ok {A B} (m : result A) (f : A -> result B) b :
  (m ≫= f) = Ok b <-> exists a, m = Ok a /\ f a = Ok b.
Proof.
  destruct m as [a|e]; unfold mbind, result_bind.
  - split; [by eauto|]. by intros (a' & [= ->] & Hf).
  - split; [done|]. by intros (a' & ? & Hf).
Qed.

Lemma bind_Ok {A B} (a : A) (f : A -> result B) : (Ok a ≫= f) = f a.
Proof. done. Qed.

Lemma raise_if_ok b c msg u : raise_if b c msg = Ok u <-> b = false.
Proof. by destruct b, u. Qed.

Lemma raise_if_bind {A} b c msg (f : unit -> result A) v :
  (raise_if b c msg ≫= f) = Ok v <-> b = false /\ f tt = Ok v.
Proof. destruct b; cbn; [split; [done|]; by intros []|]. split; [done|]. by intros []. Qed.

Lemma elem_of_rev {A} (x : A) l : x ∈ rev l <-> x ∈ l.
Proof. by rewrite !list_elem_of_In, <- in_rev. Qed.

(** Invert a successful monadic computation into the steps that made it. *)
Ltac py_inv :=
  repeat match goal with
  | H : (_ ≫= _) = Ok _ |- _ =>
      apply bind_ok in H; let x := fresh "x" in let Hx := fresh "Hx" in
      destruct H as (x & Hx & H)
  | H : raise_if _ _ _ = Ok _ |- _ => apply raise_if_ok in H
  | H : Ok _ = Ok _ |- _ => injection H as H
  | H : mret _ = Ok _ |- _ => injection H as H
  | H : Err _ = Ok _ |- _ => discriminate H
  | H : fail _ _ = Ok _ |- _ => discriminate H
  end; try subst.

Lemma map_r_ok {A B} (g : A -> result B) l l' :
  map_r g l = Ok l' <-> Forall2 (fun x y => g x = Ok y) l l'.
Proof.
  revert l'. induction l as [|x l IH]; intros l'; cbn.
  - split; [by intros [= <-]|]. by inversion 1.
  - split.
    + intros H. py_inv. constructor; [done|]. by apply IH.
    + inversion 1 as [|? y ? ys Hy Hys]; subst.
      rewrite Hy. apply IH in Hys. cbn. by rewrite Hys.
Qed.

(** [for x in l: check(x)]. *)
Lemma map_r_unit {A} (check : A -> result unit) l us :
  map_r check l = Ok us -> forall x, x ∈ l -> check x = Ok tt.
Proof.
  intros H%map_r_ok x Hx. induction H as [|y [] l us Hy _ IH]; [by apply elem_of_nil in Hx|].
  apply elem_of_cons in Hx as [->|Hx]; auto.
Qed.

Lemma map_r_err {A B} (g : A -> result B) l e : map_r g l = Err e -> exists x, x ∈ l /\ g x = Err e.
Proof.
  induction l as [|x l IH]; cbn; [done|]. destruct (g x) as [y|e'] eqn:Hx; cbn.
  - destruct (map_r g l) as [ys|e']; cbn; [done|]. intros [= ->]. destruct IH as (z & Hz & ?); [done|].
    exists z. split; [by right|done].
  - intros [= ->]. exists x. split; [by left|done].
Qed.

Lemma fold_r_invariant {A B} (body : B -> A -> result B) (I : B -> list A -> Prop) acc l acc' :
  (forall b x done b', I b done -> body b x = Ok b' -> I b' (done ++ [x])) ->
  I acc [] -> fold_r body acc l = Ok acc' -> I acc' l.
Proof.
  intros Hstep. change l with ([] ++ l) at 2. generalize (@nil A) as pre. revert acc.
  induction l as [|x l IH]; intros acc pre HI H; cbn in H.
  - py_inv. by rewrite app_nil_r.
  - py_inv. rewrite (cons_middle x pre l), app_assoc. eauto.
Qed.

Lemma M_bind_eq {S A B} (m : M S A) (f : A -> M S B) s :
  (m ≫= f) s = match m s with (Ok a, s') => f a s' | (Err e, s') => (Err e, s') end.
Proof. done. Qed.

(** *** Running a method step by step *)
Lemma M_lift {S A B} (r : result A) (f : A -> M S B) s :
  (lift r ≫= f) s = match r with Ok a => f a s | Err e => (Err e, s) end.
Proof. by destruct r. Qed.

Lemma M_get {S B} (f : S -> M S B) s : (get_state ≫= f) s = f s s.
Proof. done. Qed.

Lemma M_modify {S B} g (f : unit -> M S B) s : (modify g ≫= f) s = f tt (g s).
Proof. done. Qed.

Lemma M_this {S T B} `{Lens S T} (f : T -> M S B) s : (this ≫= f) s = f (lget s) s.
Proof. done. Qed.

Lemma M_set_this {S T B} `{Lens S T} g (f : unit -> M S B) s :
  (set_this g ≫= f) s = f tt (lput (g (lget s)) s).
Proof. done. Qed.

Lemma M_attempt {S A B} (m : M S A) (f : exn + A -> M S B) s :
  (attempt m ≫= f) s = match m s with (Ok a, s') => f (inr a) s' | (Err e, s') => f (inl e) s' end.
Proof. rewrite M_bind_eq. unfold attempt. by destruct (m s) as [[a|e] s']. Qed.

Lemma M_assoc {S A B C} (m : M S A) (f : A -> M S B) (g : B -> M S C) s :
  ((m ≫= f) ≫= g) s = (m ≫= (fun a => f a ≫= g)) s.
Proof. rewrite !M_bind_eq. by destruct (m s) as [[a|e] s']. Qed.

(** Run the leading primitive steps of the method call in hypothesis [H]. *)
Ltac M_run H := rewrite ?M_get, ?M_modify, ?M_lift, ?M_this, ?M_set_this in H; cbv beta iota zeta delta [fail] in H.

Tactic Notation "M_go" := rewrite ?M_get, ?M_modify, ?M_lift, ?M_this, ?M_set_this; cbv beta iota zeta.

Tactic Notation "M_go" uconstr(E) := M_go; rewrite E; cbv beta iota zeta.

(** *** Hoare rules *)
Section hoare_rules.
Context {S : Type}.
Implicit Types (P : S -> Prop).

Lemma hoare_ret {A} (a : A) Q E : hoare (Q a) (mret a : M S A) Q E.
Proof. intros s Hs. exact Hs. Qed.

Lemma hoare_bind {A B} P (m : M S A) (f : A -> M S B) R Q E :
  hoare P m R E -> (forall a, hoare (R a) (f a) Q E) -> hoare P (m ≫= f) Q E.
Proof.
  intros Hm Hf s Hs. specialize (Hm s Hs). rewrite M_bind_eq.
  destruct (m s) as [[a|e] s']; [by apply Hf|done].
Qed.

Lemma hoare_lift {A} P (r : result A) Q E :
  (forall s, P s -> match r with Ok a => Q a s | Err e => E e s end) ->
  hoare P (lift r) Q E.
Proof. intros H s Hs. specialize (H s Hs). by destruct r. Qed.

Lemma hoare_get P Q E : (forall s, P s -> Q s s) -> hoare P (get_state : M S S) Q E.
Proof. intros H s Hs. by apply H. Qed.

Lemma hoare_modify P (f : S -> S) Q E :
  (forall s, P s -> Q tt (f s)) -> hoare P (modify f) Q E.
Proof. intros H s Hs. by apply H. Qed.

Lemma hoare_consequence {A} P P' (m : M S A) (Q Q' : A -> S -> Prop) (E E' : exn -> S -> Prop) :
  hoare P' m Q' E' -> (forall s, P s -> P' s) -> (forall a s, Q' a s -> Q a s) ->
  (forall e s, E' e s -> E e s) -> hoare P m Q E.
Proof.
  intros Hm HP HQ HE s Hs. specialize (Hm s (HP s Hs)).
  destruct (m s) as [[a|e] s']; auto.
Qed.

Lemma hoare_try {A} P (m : M S A) h Q E E' :
  hoare P m Q E' -> (forall e, hoare (E' e) (h e) Q E) -> hoare P (try_except m h) Q E.
Proof.
  intros Hm Hh s Hs. specialize (Hm s Hs). unfold try_except.
  destruct (m s) as [[a|e] s']; [done|]. by apply Hh.
Qed.
(** [P] survives a pure step. *)
Lemma hoare_lift_bind {A B} P (r : result A) (f : A -> M S B) Q E :
  (forall a, r = Ok a -> hoare P (f a) Q E) -> (forall e s, P s -> E e s) ->
  hoare P (lift r ≫= f) Q E.
Proof. intros Hf HE s Hs. rewrite M_lift. destruct r as [a|e]; [by apply Hf|by apply HE]. Qed.

Lemma hoare_pure {A} P (φ : Prop) (m : M S A) Q E :
  (φ -> hoare P m Q E) -> hoare (fun s => P s /\ φ) m Q E.
Proof. intros Hm s [Hs Hφ]. by apply Hm. Qed.

Lemma hoare_returns {A} P (m : M S A) Φ Q E :
  hoare P m Q E -> (forall s a s', m s = (Ok a, s') -> Φ a) ->
  hoare P m (fun a s => Q a s /\ Φ a) E.
Proof.
  intros Hm HΦ s Hs. specialize (Hm s Hs). specialize (HΦ s). destruct (m s) as [[a|e] s']; eauto.
Qed.
End hoare_rules.

Lemma hoare_attempt {S A} (P : S -> Prop) (m : M S A) Q E :
  hoare P m Q E ->
  hoare P (attempt m) (fun r s => match r with inl e => E e s | inr a => Q a s end) (fun _ _ => False).
Proof. intros Hm s Hs. specialize (Hm s Hs). unfold attempt. by destruct (m s) as [[a|e] s']. Qed.

(** Loop invariants name the elements already visited. *)
Lemma hoare_for_each {S A} (body : A -> M S unit) (I : list A -> S -> Prop) (E : exn -> S -> Prop) l :
  (forall seen x, hoare (I seen) (body x) (fun _ => I (seen ++ [x])) E) ->
  hoare (I []) (for_each body l) (fun _ => I l) E.
Proof.
  intros Hb. change l with ([] ++ l) at 2. generalize (@nil A) as seen.
  induction l as [|x l IH]; intros seen; cbn [for_each].
  - rewrite app_nil_r. intros s Hs. exact Hs.
  - eapply hoare_bind; [apply Hb|]. intros []. rewrite (cons_middle x seen l), app_assoc. apply IH.
Qed.

(** [P] is stable under what [m] does to the state. *)
Lemma hoare_stable {S A} (R : S -> S -> Prop) (P : S -> Prop) (m : M S A) :
  evolves R m -> (forall s s', R s s' -> P s -> P s') -> hoare P m (fun _ => P) (fun _ => P).
Proof.
  intros Hm HP s Hs. specialize (Hm s). destruct (m s) as [[a|e] s']; by apply (HP s).
Qed.

(** A step that keeps [P] and whose result satisfies [Φ]. *)
Lemma hoare_bind_pure {S A B} (P : S -> Prop) (m : M S A) (f : A -> M S B) (Φ : A -> Prop) Q E :
  hoare P m (fun a s => P s /\ Φ a) E -> (forall a, Φ a -> hoare P (f a) Q E) ->
  hoare P (m ≫= f) Q E.
Proof.
  intros Hm Hf. eapply hoare_bind; [exact Hm|]. intros a s [Hs Ha]. by apply (Hf a Ha).
Qed.

Lemma hoare_this {S T B} `{Lens S T} (t : T) (f : T -> M S B) Q E :
  hoare (fun s => lget s = t) (f t) Q E -> hoare (fun s => lget s = t) (this ≫= f) Q E.
Proof. intros Hf s Hs. rewrite M_this, Hs. by apply Hf. Qed.

Lemma hoare_returned {S A} (P : S -> Prop) (m : M S A) (Φ : A -> Prop) :
  (forall s, P s -> P (snd (m s))) -> (forall s a s', m s = (Ok a, s') -> Φ a) ->
  hoare P m (fun a s => P s /\ Φ a) (fun _ => P).
Proof.
  intros Hm HΦ s Hs. specialize (Hm s Hs). specialize (HΦ s).
  destruct (m s) as [[a|e] s']; [|done]. eauto.
Qed.

(** *** Two-state invariants *)
Section evolves_rules.
Context {S : Type} (R : S -> S -> Prop) `{!PreOrder R}.

Lemma evolves_ret {A} (a : A) : evolves R (mret a : M S A).
Proof. intros s. reflexivity. Qed.

Lemma evolves_lift {A} (r : result A) : evolves R (lift r).
Proof. intros s. reflexivity. Qed.

Lemma evolves_raise {A} c msg : evolves R (raise c msg : M S A).
Proof. intros s. reflexivity. Qed.

Lemma evolves_get : evolves R get_state.
Proof. intros s. reflexivity. Qed.

Lemma evolves_modify f : (forall s, R s (f s)) -> evolves R (modify f).
Proof. intros H s. apply H. Qed.

Lemma evolves_bind {A B} (m : M S A) (f : A -> M S B) :
  evolves R m -> (forall a, evolves R (f a)) -> evolves R (m ≫= f).
Proof.
  intros Hm Hf s. specialize (Hm s). rewrite M_bind_eq.
  destruct (m s) as [[a|e] s']; [|done]. etrans; [exact Hm|]. apply Hf.
Qed.

Lemma evolves_try {A} (m : M S A) h :
  evolves R m -> (forall e, evolves R (h e)) -> evolves R (try_except m h).
Proof.
  intros Hm Hh s. specialize (Hm s). unfold try_except.
  destruct (m s) as [[a|e] s']; [done|]. etrans; [exact Hm|]. apply Hh.
Qed.

Lemma evolves_fold {A B} (body : B -> A -> M S B) acc l :
  (forall b x, evolves R (body b x)) -> evolves R (fold_m body acc l).
Proof.
  intros Hb. revert acc. induction l as [|x l IH]; intros acc; cbn [fold_m].
  - apply evolves_ret.
  - apply evolves_bind; [apply Hb|]. intros b. apply IH.
Qed.
End evolves_rules.

Lemma evolves_this {S T} `{Lens S T} (R : S -> S -> Prop) `{!Reflexive R} :
  evolves R (this : M S T).
Proof. intros s. cbn. reflexivity. Qed.

Lemma evolves_set_this {S T} `{Lens S T} (R : T -> T -> Prop) (f : T -> T) :
  (forall t, R t (f t)) -> evolves (fun s s' => R (lget s) (lget s')) (set_this f).
Proof. intros Hf s. cbn. rewrite lget_lput. apply Hf. Qed.

Lemma evolves_attempt {S A} (R : S -> S -> Prop) (m : M S A) : evolves R m -> evolves R (attempt m).
Proof. intros Hm s. specialize (Hm s). unfold attempt. by destruct (m s) as [[a|e] s']. Qed.

Lemma evolves_weaken {S A} (R R' : S -> S -> Prop) (m : M S A) :
  evolves R m -> (forall s s', R s s' -> R' s s') -> evolves R' m.
Proof. intros Hm H s. apply H, Hm. Qed.

Lemma evolves_zoom {S T A} (R : S -> S -> Prop) (RT : T -> T -> Prop) get put (m : M T A) :
  evolves RT m -> (forall s t, RT (get s) t -> R s (put t s)) -> evolves R (zoom get put m).
Proof.
  intros Hm H s. unfold zoom. specialize (Hm (get s)).
  destruct (m (get s)) as [r t]. by apply H.
Qed.

Lemma on_run {S T A} `{Lens S T} (m : M T A) s :
  on m s = let '(r, t) := m (lget s) in (r, lput t s).
Proof. done. Qed.

Lemma evolves_on {S T A} `{Lens S T} (R : T -> T -> Prop) (m : M T A) :
  evolves R m -> evolves (fun s s' => R (lget s) (lget s')) (on m).
Proof.
  intros Hm s. specialize (Hm (lget s)). rewrite on_run. destruct (m (lget s)) as [r t].
  cbn. by rewrite lget_lput.
Qed.

Lemma evolves_with_local {S W A} (R : S -> S -> Prop) (w : W) (m : M (S * W) A) :
  evolves (fun p p' => R (fst p) (fst p')) m -> evolves R (with_local w m).
Proof.
  intros Hm s. specialize (Hm (s, w)). unfold with_local. by destruct (m (s, w)) as [r [s' w']].
Qed.

Lemma evolves_outside {S W A} (R : S -> S -> Prop) (m : M S A) :
  evolves R m -> evolves (fun p p' : S * W => R (fst p) (fst p')) (outside m).
Proof. intros Hm [s w]. specialize (Hm s). unfold outside. cbn. by destruct (m s) as [r s']. Qed.

Lemma evolves_assign {S W} (R : S -> S -> Prop) `{!Reflexive R} (w : W) :
  evolves (fun p p' : S * W => R (fst p) (fst p')) (assign w).
Proof. intros [s w']. cbn. reflexivity. Qed.

#[export] Instance fst_preorder {S W} (R : S -> S -> Prop) `{!PreOrder R} :
  PreOrder (fun p p' : S * W => R (fst p) (fst p')).
Proof. split; [by intros p|]. intros p1 p2 p3 H1 H2. by etrans. Qed.

(** *** Properties of what a method returns *)

(** Every value [m] returns satisfies [P]. *)
Definition returns {S A} (P : A -> Prop) (m : M S A) : Prop :=
  forall s a s', m s = (Ok a, s') -> P a.

Lemma returns_bind {S A B} (P : B -> Prop) (m : M S A) (f : A -> M S B) :
  (forall a, returns P (f a)) -> returns P (m ≫= f).
Proof.
  intros Hf s b s'. rewrite M_bind_eq. destruct (m s) as [[a|e] s1]; [apply Hf|done].
Qed.

Lemma returns_lift {S A} (P : A -> Prop) (r : result A) :
  (forall a, r = Ok a -> P a) -> returns (S:=S) P (lift r).
Proof. intros Hr s a s' [= Ha _]. by apply Hr. Qed.

Lemma returns_ret {S A} (P : A -> Prop) (a : A) : P a -> returns (S:=S) P (mret a).
Proof. by intros Ha s a' s' [= <- _]. Qed.

Lemma returns_on {S T A} `{Lens S T} (P : A -> Prop) (m : M T A) : returns P m -> returns P (on m).
Proof.
  intros Hm s a s'. rewrite on_run. destruct (m (lget s)) as [r t] eqn:E.
  intros [= -> _]. by eapply Hm.
Qed.

#[export] Instance lens_id {S} : Lens S S := {
  lget s := s; lput t _ := t; lget_lput t s := eq_refl; lput_lget s := eq_refl;
  lput_lput t t' s := eq_refl }.

(** The first component of a pair; the second one is the rest of the host. *)
#[export] Program Instance lens_fst {S T W} `{Lens S T} : Lens (S * W) T := {
  lget p := lget (fst p); lput t p := (lput t (fst p), snd p) }.
Next Obligation. intros. apply lget_lput. Qed.
Next Obligation. intros S T W L [s w]. cbn. by rewrite lput_lget. Qed.
Next Obligation. intros. cbn. by rewrite lput_lput. Qed.

(** A component of a component. *)
Definition lens_comp {S T U} (outer : Lens S T) (inner : Lens T U) : Lens S U.
Proof.
  refine {| lget s := lget (T := U) (lget (T := T) s);
            lput u s := lput (T := T) (lput (T := U) u (lget s)) s |}; intros.
  - by rewrite (lget_lput (Lens := outer)), (lget_lput (Lens := inner)).
  - by rewrite (lput_lget (Lens := inner)), (lput_lget (Lens := outer)).
  - by rewrite (lget_lput (Lens := outer)), (lput_lput (Lens := inner)), (lput_lput (Lens := outer)).
Defined.

#[export] Instance preserves_preorder {S} (I : S -> Prop) :
  PreOrder (fun s s' : S => I s -> I s').
Proof. split; [by intros s|]. intros s1 s2 s3 H1 H2 H. auto. Qed.

#[export] Hint Resolve evolves_ret evolves_lift evolves_raise evolves_get
  evolves_modify evolves_bind evolves_try evolves_fold : py.

(** Reduce an invariance goal to the basic methods it is made of. *)
Ltac evolve_step :=
  first
    [ apply evolves_ret; [typeclasses eauto]
    | apply evolves_lift; [typeclasses eauto]
    | apply evolves_raise; [typeclasses eauto]
    | apply evolves_get; [typeclasses eauto]
    | apply evolves_bind; [typeclasses eauto| |intros ?]
    | apply evolves_try; [typeclasses eauto| |intros ?]
    | apply evolves_this; typeclasses eauto
    | apply evolves_attempt
    | apply evolves_fold; [typeclasses eauto|intros ? ?] ].

Lemma star_invariant {S} (step : S -> S -> Prop) (I : S -> Prop) s s' :
  (forall s1 s2, I s1 -> step s1 s2 -> I s2) -> I s -> star step s s' -> I s'.
Proof. intros Hstep HI H. induction H; eauto. Qed.
