(* ===== verification/PyStr.v ===== *)
(** * Python strings

    A Python [str] is the Rocq [string] of its UTF-8 bytes.  [py_len] counts
    code points, [py_strip] removes the code points for which [str.isspace]
    holds, [py_lower] maps ASCII letters and the one other code point whose
    lower-case form is ASCII (U+212A).  Byte order on UTF-8 is code point order,
    so [String.le] is Python's [<=].  The regular expressions of
    sdk/liminal_post_sandbox_contracts are boolean functions. *)
From S2P Require Import Prelude.
From Stdlib Require Import Ascii.

(** ** Characters *)
Definition dquote : ascii := "034".
Definition backslash : ascii := "092".

Definition code (c : ascii) : N := N_of_ascii c.

Definition in_range (c lo hi : ascii) : bool :=
  (code lo <=? code c)%N && (code c <=? code hi)%N.

Definition is_digit (c : ascii) : bool := in_range c "0" "9".
Definition is_lower (c : ascii) : bool := in_range c "a" "z".
Definition is_upper (c : ascii) : bool := in_range c "A" "Z".
Definition is_alpha (c : ascii) : bool := is_lower c || is_upper c.
Definition is_alnum (c : ascii) : bool := is_alpha c || is_digit c.

(** [ch in "0123456789abcdef"] *)
Definition is_hex (c : ascii) : bool := is_digit c || in_range c "a" "f".

Fixpoint str_all (p : ascii -> bool) (s : string) : bool :=
  match s with
  | EmptyString => true
  | String c s' => p c && str_all p s'
  end.

Definition contains_char (x : ascii) (s : string) : bool :=
  negb (str_all (fun c => negb (Ascii.eqb x c)) s).

(** ** [len(s)]: UTF-8 continuation bytes are not counted *)
Definition is_continuation (c : ascii) : bool := (128 <=? code c)%N && (code c <? 192)%N.

Fixpoint py_len (s : string) : Z :=
  match s with
  | EmptyString => 0
  | String c s' => (if is_continuation c then 0 else 1) + py_len s'
  end%Z.

(** The characters of a string: a leading byte and its continuation bytes. *)
Fixpoint py_chars (s : string) : list string :=
  match s with
  | EmptyString => []
  | String c rest =>
      match py_chars rest with
      | (String d t as x) :: l =>
          if is_continuation d then String c x :: l else String c "" :: x :: l
      | l => String c "" :: l
      end
  end.

(** ** [str.strip()] *)
Definition ascii_space (c : ascii) : bool :=
  ((9 <=? code c) && (code c <=? 13) || (28 <=? code c) && (code c <=? 32))%N.

(** U+0085, U+00A0 *)
Definition space2 (a b : ascii) : bool :=
  ((code a =? 194) && ((code b =? 133) || (code b =? 160)))%N.

(** U+1680, U+2000..U+200A, U+2028, U+2029, U+202F, U+205F, U+3000 *)
Definition space3 (a b c : ascii) : bool :=
  ((code a =? 225) && (code b =? 154) && (code c =? 128)
   || (code a =? 226) && (code b =? 128)
      && ((128 <=? code c) && (code c <=? 138) || (code c =? 168) || (code c =? 169)
          || (code c =? 175))
   || (code a =? 226) && (code b =? 129) && (code c =? 159)
   || (code a =? 227) && (code b =? 128) && (code c =? 128))%N.

(** Drop one whitespace code point from the front, if there is one. *)
Definition drop_space (s : string) : option string :=
  match s with
  | String a s1 =>
      if ascii_space a then Some s1 else
      match s1 with
      | String b s2 =>
          if space2 a b then Some s2 else
          match s2 with
          | String c s3 => if space3 a b c then Some s3 else None
          | EmptyString => None
          end
      | EmptyString => None
      end
  | EmptyString => None
  end.

Fixpoint lstrip_fuel (fuel : nat) (s : string) : string :=
  match fuel with
  | O => s
  | S n => match drop_space s with Some s' => lstrip_fuel n s' | None => s end
  end.

Definition py_lstrip (s : string) : string := lstrip_fuel (String.length s) s.

Fixpoint py_rstrip (s : string) : string :=
  if String.eqb (py_lstrip s) "" then "" else
  match s with
  | EmptyString => ""
  | String c s' => String c (py_rstrip s')
  end.

Definition py_strip (s : string) : string := py_rstrip (py_lstrip s).

(** ** [str.lower()] *)
Definition lower_char (c : ascii) : ascii :=
  if is_upper c then ascii_of_N (code c + 32) else c.

Definition kelvin_sign (a b c : ascii) : bool :=
  ((code a =? 226) && (code b =? 132) && (code c =? 170))%N.

Fixpoint py_lower (s : string) : string :=
  match s with
  | EmptyString => EmptyString
  | String a s1 =>
      match s1 with
      | String b (String c s3) =>
          if kelvin_sign a b c then String "k" (py_lower s3)
          else String (lower_char a) (py_lower s1)
      | _ => String (lower_char a) (py_lower s1)
      end
  end.

(** ** The regular expressions of the contracts module *)

(** [_IDENT = ^[A-Za-z0-9][A-Za-z0-9_.:@/-]{0,191}$] *)
Definition ident_char (c : ascii) : bool :=
  is_alnum c || existsb (Ascii.eqb c) ["_"; "."; ":"; "@"; "/"; "-"]%char.

Definition re_ident (s : string) : bool :=
  match s with
  | EmptyString => false
  | String c s' => is_alnum c && str_all ident_char s' && (String.length s' <=? 191)%nat
  end.

(** [_SHA = ^[0-9a-f]{64}$] *)
Definition re_sha (s : string) : bool := (String.length s =? 64)%nat && str_all is_hex s.

(** [s.split(sep)] for a one-character separator. *)
Fixpoint split_on (sep : ascii) (s : string) : list string :=
  match s with
  | EmptyString => [""]
  | String c s' =>
      if Ascii.eqb c sep then "" :: split_on sep s' else
      match split_on sep s' with
      | [] => [String c ""]
      | w :: ws => String c w :: ws
      end
  end.

(** [_REPO = ^[A-Za-z0-9_.-]+/[A-Za-z0-9_.-]+$] *)
Definition repo_char (c : ascii) : bool :=
  is_alnum c || existsb (Ascii.eqb c) ["_"; "."; "-"]%char.

Definition re_repo (s : string) : bool :=
  match split_on "/" s with
  | [owner; name] =>
      negb (String.eqb owner "") && str_all repo_char owner
      && negb (String.eqb name "") && str_all repo_char name
  | _ => false
  end.

(** [_DOMAIN]: labels of 1..63 letters, digits and inner hyphens, then a
    top-level label of 2..63 letters. *)
Fixpoint last_char (s : string) : option ascii :=
  match s with
  | EmptyString => None
  | String c EmptyString => Some c
  | String _ s' => last_char s'
  end.

Definition dns_label (s : string) : bool :=
  match s, last_char s with
  | String c _, Some z =>
      is_alnum c && is_alnum z && str_all (fun x => is_alnum x || Ascii.eqb x "-") s
      && (String.length s <=? 63)%nat
  | _, _ => false
  end.

Definition dns_top (s : string) : bool :=
  str_all is_alpha s && (2 <=? String.length s)%nat && (String.length s <=? 63)%nat.

Fixpoint dns_labels (ws : list string) : bool :=
  match ws with
  | [] => false
  | [top] => dns_top top
  | w :: ws' => dns_label w && dns_labels ws'
  end.

Definition re_domain (s : string) : bool :=
  match split_on "." s with
  | [] | [_] => false
  | ws => dns_labels ws
  end.

(** ** Ordering *)

(** [sorted(l)] on strings. *)
Definition sorted_str (l : list string) : list string := merge_sort String.le l.

(** [sorted(l, key=f)]: a stable sort. *)
Fixpoint insert_on {A} (f : A -> string) (x : A) (l : list A) : list A :=
  match l with
  | [] => [x]
  | y :: l' => if String.leb (f x) (f y) then x :: l else y :: insert_on f x l'
  end.

Fixpoint sorted_on {A} (f : A -> string) (l : list A) : list A :=
  match l with
  | [] => []
  | x :: l' => insert_on f x (sorted_on f l')
  end.

(** [sorted(set(l))] *)
Definition sorted_set (l : list string) : list string := sorted_str (remove_dups l).

(** [len(l) != len(set(l))] *)
Definition has_dups (l : list string) : bool := negb (bool_decide (NoDup l)).

(** [x in l] *)
Definition mem (x : string) (l : list string) : bool := existsb (String.eqb x) l.

(** [sep.join(l)] *)
Fixpoint join (sep : string) (l : list string) : string :=
  match l with
  | [] => ""
  | [x] => x
  | x :: l' => x +:+ sep +:+ join sep l'
  end.

(** [sub in s] *)
Fixpoint str_contains (sub s : string) : bool :=
  String.prefix sub s || match s with EmptyString => false | String _ s' => str_contains sub s' end.

(** [s[:n]] of a string of ASCII characters. *)
Fixpoint str_take (n : nat) (s : string) : string :=
  match n, s with
  | S n', String c s' => String c (str_take n' s')
  | _, _ => ""
  end.

(** ** Lemmas *)
Lemma mem_true x l : mem x l = true <-> x ∈ l.
Proof.
  unfold mem. rewrite existsb_exists, list_elem_of_In. split.
  - by intros (y & Hy & ->%String.eqb_eq).
  - intros H. exists x. by rewrite String.eqb_refl.
Qed.

Lemma mem_false x l : mem x l = false <-> x ∉ l.
Proof. rewrite <- mem_true. by destruct (mem x l). Qed.

Lemma has_dups_false l : has_dups l = false <-> NoDup l.
Proof. unfold has_dups. by case_bool_decide. Qed.

Lemma str_nil_app b : "" +:+ b = b.
Proof. done. Qed.

Lemma str_cons_app x a b : String x a +:+ b = String x (a +:+ b).
Proof. done. Qed.

Lemma str_app_assoc (a b c : string) : (a +:+ b) +:+ c = a +:+ (b +:+ c).
Proof. induction a as [|x a IH]; [done|]. by rewrite !str_cons_app, IH. Qed.

Lemma str_app_nil_r s : s +:+ "" = s.
Proof. induction s as [|c s IH]; [done|]. by rewrite str_cons_app, IH. Qed.

Lemma str_all_app p a b : str_all p (a +:+ b) = str_all p a && str_all p b.
Proof.
  induction a as [|c a IH]; [done|]. rewrite str_cons_app. cbn. by rewrite IH, andb_assoc.
Qed.

Lemma str_all_impl (p q : ascii -> bool) s :
  (forall c, p c = true -> q c = true) -> str_all p s = true -> str_all q s = true.
Proof.
  intros Hpq. induction s as [|c s IH]; cbn; [done|].
  intros [Hc Hs]%andb_true_iff. by rewrite Hpq, IH.
Qed.

Lemma sorted_str_perm l : sorted_str l ≡ₚ l.
Proof. apply merge_sort_Permutation. Qed.

Lemma sorted_str_sorted l : StronglySorted String.le (sorted_str l).
Proof. apply StronglySorted_merge_sort; apply _. Qed.

Lemma sorted_str_unique l l' : l ≡ₚ l' -> sorted_str l = sorted_str l'.
Proof.
  intros Hl. apply (StronglySorted_unique String.le); [apply sorted_str_sorted..|].
  by rewrite !sorted_str_perm.
Qed.

Lemma sorted_str_id l : StronglySorted String.le l -> sorted_str l = l.
Proof.
  intros Hl. apply (StronglySorted_unique String.le); [apply sorted_str_sorted|done|].
  apply sorted_str_perm.
Qed.

Lemma sorted_str_idemp l : sorted_str (sorted_str l) = sorted_str l.
Proof. apply sorted_str_id, sorted_str_sorted. Qed.

Lemma elem_of_sorted_str x l : x ∈ sorted_str l <-> x ∈ l.
Proof. by rewrite sorted_str_perm. Qed.

Lemma elem_of_sorted_set x l : x ∈ sorted_set l <-> x ∈ l.
Proof. unfold sorted_set. by rewrite elem_of_sorted_str, elem_of_remove_dups. Qed.

Lemma sorted_set_nil l : sorted_set l = [] -> l = [].
Proof.
  intros H. destruct l as [|x l]; [done|].
  assert (x ∈ sorted_set (x :: l)) as Hx by (apply elem_of_sorted_set; left).
  rewrite H in Hx. inversion Hx.
Qed.

Lemma NoDup_sorted_set l : NoDup (sorted_set l).
Proof. unfold sorted_set. rewrite sorted_str_perm. apply NoDup_remove_dups. Qed.

Lemma NoDup_sorted_str l : NoDup (sorted_str l) <-> NoDup l.
Proof. by rewrite sorted_str_perm. Qed.

Lemma Forall_sorted_str (P : string -> Prop) l : Forall P (sorted_str l) <-> Forall P l.
Proof. by rewrite sorted_str_perm. Qed.

Section sorted_on.
Context {A : Type} (f : A -> string).

Definition key_le (a b : A) : Prop := String.le (f a) (f b).

Lemma insert_on_perm x l : insert_on f x l ≡ₚ x :: l.
Proof.
  induction l as [|y l IH]; cbn; [done|]. case_match; [done|].
  rewrite IH. constructor.
Qed.

Lemma sorted_on_perm l : sorted_on f l ≡ₚ l.
Proof. induction l as [|x l IH]; cbn; [done|]. by rewrite insert_on_perm, IH. Qed.

Lemma elem_of_sorted_on x l : x ∈ sorted_on f l <-> x ∈ l.
Proof. by rewrite sorted_on_perm. Qed.

Lemma insert_on_sorted x l :
  StronglySorted key_le l -> StronglySorted key_le (insert_on f x l).
Proof.
  induction 1 as [|y l Hl IH Hy]; cbn; [repeat constructor|].
  destruct (String.leb (f x) (f y)) eqn:Hxy.
  - constructor; [by constructor|]. constructor; [unfold key_le, String.le; by rewrite Hxy|].
    eapply Forall_impl; [exact Hy|]. intros z Hz. unfold key_le in *.
    etrans; [|exact Hz]. unfold String.le. by rewrite Hxy.
  - constructor; [done|]. rewrite insert_on_perm. constructor; [|done].
    destruct (total String.le (f x) (f y)) as [H|H]; [|done].
    unfold String.le in H. by rewrite Hxy in H.
Qed.

Lemma sorted_on_sorted l : StronglySorted key_le (sorted_on f l).
Proof. induction l as [|x l IH]; cbn; [constructor|]. by apply insert_on_sorted. Qed.

(** Sorting by a key that is unique does not depend on the input order. *)
Lemma key_sorted_unique l l' :
  StronglySorted key_le l -> StronglySorted key_le l' -> l ≡ₚ l' -> NoDup (map f l) ->
  l = l'.
Proof.
  intros Hl. revert l'. induction Hl as [|x l Hl IH Hx]; intros l' Hl' Hp Hnd.
  { by apply Permutation_nil in Hp. }
  destruct Hl' as [|x' l' Hl' Hx']; [by apply symmetry, Permutation_nil in Hp|].
  apply NoDup_cons in Hnd as [Hni Hnd].
  assert (x = x') as <-.
  { assert (x' ∈ x :: l) as [<-|Hin]%elem_of_cons by (rewrite Hp; left); [done|].
    assert (x ∈ x' :: l') as [<-|Hin']%elem_of_cons by (rewrite <- Hp; left); [done|].
    rewrite Forall_forall in Hx, Hx'. destruct Hni.
    assert (f x = f x') as -> by (apply (anti_symm String.le); [by apply Hx|by apply Hx']).
    by apply list_elem_of_fmap_2. }
  f_equal. apply IH; [done| |done]. by apply Permutation_cons_inv in Hp.
Qed.

Lemma sorted_on_unique l l' : l ≡ₚ l' -> NoDup (map f l) -> sorted_on f l = sorted_on f l'.
Proof.
  intros Hp Hnd. apply key_sorted_unique; [apply sorted_on_sorted..| |].
  - by rewrite !sorted_on_perm.
  - by rewrite sorted_on_perm.
Qed.
End sorted_on.

(** Sorting commutes with a map that keeps the key. *)
Lemma sorted_on_map {A B} (f : A -> string) (g : B -> string) (h : A -> B) l :
  (forall x, g (h x) = f x) -> sorted_on g (map h l) = map h (sorted_on f l).
Proof.
  intros Hgh. induction l as [|x l IH]; cbn; [done|]. rewrite IH.
  generalize (sorted_on f l). intros k. induction k as [|y k IHk]; cbn; [done|].
  rewrite !Hgh. case_match; cbn; [done|]. by rewrite IHk.
Qed.

Lemma re_sha_char s : re_sha s = true -> str_all is_hex s = true /\ String.length s = 64%nat.
Proof. intros [H1%Nat.eqb_eq H2]%andb_true_iff. done. Qed.

(** *** Strings without upper-case letters or spaces *)
Definition plain_char (c : ascii) : bool :=
  negb (is_upper c) && (32 <? code c)%N && (code c <? 128)%N.

Lemma is_hex_plain c : is_hex c = true -> plain_char c = true.
Proof. by destruct c as [[][][][][][][][]]. Qed.

Lemma py_lower_plain s : str_all plain_char s = true -> py_lower s = s.
Proof.
  induction s as [|a s IH]; [done|]. cbn [str_all]. intros [Ha Hs]%andb_true_iff.
  assert (lower_char a = a) as Hl.
  { unfold lower_char, plain_char in *. by destruct (is_upper a). }
  specialize (IH Hs). cbn [py_lower]. rewrite Hl.
  assert (forall b c, kelvin_sign a b c = false) as Hk.
  { intros b c. unfold kelvin_sign, plain_char in *.
    destruct (N.eqb_spec (code a) 226) as [E|]; [|done].
    rewrite E in Ha. by rewrite andb_false_r in Ha. }
  destruct s as [|b [|c s]]; [by rewrite IH..|]. by rewrite Hk, IH.
Qed.

Lemma py_lower_sha s : re_sha s = true -> py_lower s = s.
Proof.
  intros [H _]%re_sha_char. apply py_lower_plain. eapply str_all_impl; [|exact H].
  apply is_hex_plain.
Qed.

(** *** Printable ASCII without spaces *)
Definition solid_char (c : ascii) : bool := (32 <? code c)%N && (code c <? 128)%N.

Lemma plain_solid c : plain_char c = true -> solid_char c = true.
Proof. unfold plain_char, solid_char. by destruct (is_upper c). Qed.

Lemma alnum_solid c : is_alnum c = true -> solid_char c = true.
Proof. by destruct c as [[][][][][][][][]]. Qed.

Lemma ident_char_solid c : ident_char c = true -> solid_char c = true.
Proof. by destruct c as [[][][][][][][][]]. Qed.

Lemma solid_not_space c : solid_char c = true -> ascii_space c = false /\ (code c <? 128)%N = true.
Proof. by destruct c as [[][][][][][][][]]. Qed.

Lemma py_lstrip_solid c s : solid_char c = true -> py_lstrip (String c s) = String c s.
Proof.
  intros Hc. apply solid_not_space in Hc as [Hs Hlt%N.ltb_lt].
  assert (drop_space (String c s) = None) as Hd.
  { cbn. rewrite Hs. destruct s as [|b [|d s]]; [done| |]; unfold space2, space3.
    - destruct (N.eqb_spec (code c) 194); [lia|done].
    - destruct (N.eqb_spec (code c) 194), (N.eqb_spec (code c) 225),
        (N.eqb_spec (code c) 226), (N.eqb_spec (code c) 227); try lia; done. }
  unfold py_lstrip. cbn [String.length lstrip_fuel]. by rewrite Hd.
Qed.

Lemma py_rstrip_solid s : str_all solid_char s = true -> py_rstrip s = s.
Proof.
  induction s as [|c s IH]; [done|]. cbn [str_all]. intros [Hc Hs]%andb_true_iff.
  cbn [py_rstrip]. rewrite py_lstrip_solid by done. cbn. by rewrite IH.
Qed.

Lemma py_strip_solid s : str_all solid_char s = true -> py_strip s = s.
Proof.
  intros Hs. unfold py_strip. destruct s as [|c s]; [done|].
  rewrite py_lstrip_solid; [by apply py_rstrip_solid|]. by apply andb_true_iff in Hs as [? _].
Qed.

Lemma no_nul_solid s : str_all solid_char s = true -> contains_char "000" s = false.
Proof.
  intros Hs. unfold contains_char. apply negb_false_iff. eapply str_all_impl; [|exact Hs].
  by intros [[][][][][][][][]].
Qed.

Lemma re_ident_solid s : re_ident s = true -> str_all solid_char s = true /\ s <> "".
Proof.
  destruct s as [|c s]; [done|]. cbn. intros [[Hc Hs]%andb_true_iff _]%andb_true_iff.
  rewrite alnum_solid by done. split; [|done]. eapply str_all_impl; [|exact Hs].
  apply ident_char_solid.
Qed.

Lemma re_sha_solid s : re_sha s = true -> str_all solid_char s = true /\ s <> "".
Proof.
  intros [H Hl]%re_sha_char. split; [|by intros ->]. eapply str_all_impl; [|exact H].
  intros c Hc. by apply plain_solid, is_hex_plain.
Qed.

Lemma str_all_split p sep s :
  p sep = true -> Forall (fun w => str_all p w = true) (split_on sep s) -> str_all p s = true.
Proof.
  intros Hsep. induction s as [|c s IH]; [done|]. cbn.
  destruct (Ascii.eqb_spec c sep) as [->|Hne].
  - intros [_ H]%Forall_cons. by rewrite Hsep, IH.
  - destruct (split_on sep s) as [|w ws] eqn:E; intros [Hw Hws]%Forall_cons.
    + cbn in Hw. apply andb_true_iff in Hw as [-> _]. by apply IH.
    + cbn in Hw. apply andb_true_iff in Hw as [-> Hw]. by apply IH; constructor.
Qed.

Lemma dns_labels_solid ws :
  dns_labels ws = true -> Forall (fun w => str_all solid_char w = true) ws.
Proof.
  assert (forall x, is_alpha x = true -> solid_char x = true) as Ha.
  { intros x Hx. apply alnum_solid. unfold is_alnum. by rewrite Hx. }
  assert (forall x, is_alnum x || Ascii.eqb x "-" = true -> solid_char x = true) as Hl.
  { by intros [[][][][][][][][]]. }
  induction ws as [|w ws IH]; [done|]. destruct ws as [|w' ws]; cbn [dns_labels].
  - unfold dns_top. intros [[H _]%andb_true_iff _]%andb_true_iff.
    constructor; [|done]. eapply str_all_impl; [|exact H]. exact Ha.
  - intros [H1 H2]%andb_true_iff. constructor; [|by apply IH].
    unfold dns_label in H1. destruct w as [|c w]; [done|].
    destruct (last_char (String c w)); [|done].
    apply andb_true_iff in H1 as [[_ H1]%andb_true_iff _].
    eapply str_all_impl; [|exact H1]. exact Hl.
Qed.

Lemma re_domain_solid s : re_domain s = true -> str_all solid_char s = true /\ s <> "".
Proof.
  intros H. split; [|by intros ->]. apply (str_all_split _ "."); [done|].
  apply dns_labels_solid. unfold re_domain in H. by repeat case_match.
Qed.

Lemma lower_char_not_upper c : is_upper (lower_char c) = false.
Proof. by destruct c as [[][][][][][][][]]. Qed.

Lemma py_lower_not_upper s : str_all (fun c => negb (is_upper c)) (py_lower s) = true.
Proof.
  remember (String.length s) as n eqn:Hn. revert s Hn.
  induction (lt_wf n) as [n _ IH]. intros s ->. destruct s as [|a s1]; [done|].
  assert (str_all (fun c => negb (is_upper c)) (String (lower_char a) (py_lower s1)) = true) as H.
  { cbn. rewrite lower_char_not_upper. cbn. eapply IH; [|done]. cbn. lia. }
  destruct s1 as [|b [|c s3]]; [exact H..|]. cbn [py_lower].
  destruct (kelvin_sign a b c); [|exact H]. cbn. eapply IH; [|done]. cbn. lia.
Qed.

Lemma str_all_and p q s : str_all (fun c => p c && q c) s = str_all p s && str_all q s.
Proof.
  induction s as [|c s IH]; [done|]. cbn. rewrite IH.
  destruct (p c), (q c), (str_all p s), (str_all q s); done.
Qed.

(** A lower-cased string that is solid is a fixed point of [lower]. *)
Lemma py_lower_idemp s :
  str_all solid_char (py_lower s) = true -> py_lower (py_lower s) = py_lower s.
Proof.
  intros Hs. apply py_lower_plain. unfold plain_char.
  erewrite <- (str_all_impl _ _ _ _ _). reflexivity.
  Unshelve.
  - exact (fun c => negb (is_upper c) && solid_char c).
  - intros c [Hu Hc]%andb_true_iff. unfold solid_char in Hc. by rewrite Hu, <- andb_assoc, Hc.
  - by rewrite str_all_and, py_lower_not_upper, Hs.
Qed.

Lemma sorted_on_id {A} (f : A -> string) l : StronglySorted (key_le f) l -> sorted_on f l = l.
Proof.
  induction 1 as [|x l Hl IH Hx]; cbn; [done|]. rewrite IH.
  destruct Hx as [|y l Hy _]; cbn; [done|]. unfold key_le, String.le in Hy.
  by destruct (String.leb (f x) (f y)).
Qed.

Lemma re_ident_app a b :
  re_ident a = true -> str_all ident_char b = true ->
  (String.length a + String.length b <= 192)%nat -> re_ident (a +:+ b) = true.
Proof.
  destruct a as [|c a]; [done|]. intros Ha Hb Hl. apply andb_true_iff in Ha as [Ha _].
  apply andb_true_iff in Ha as [Hc Ha]. rewrite str_cons_app. cbn.
  rewrite Hc, str_all_app, Ha, Hb. cbn. apply Nat.leb_le.
  enough (String.length (a +:+ b) = String.length a + String.length b)%nat by (cbn in Hl; lia).
  clear. induction a as [|c a IH]; [done|]. rewrite str_cons_app. cbn. by rewrite IH.
Qed.

Lemma re_sha_len s : re_sha s = true -> py_len s = 64%Z.
Proof.
  intros [Hh Hl]%re_sha_char. assert (forall s, str_all is_hex s = true -> py_len s = Z.of_nat (String.length s)) as H.
  { clear. induction s as [|c s IH]; [done|]. cbn [str_all]. intros [Hc Hs]%andb_true_iff.
    cbn [py_len String.length]. rewrite (IH Hs).
    assert (is_continuation c = false) as ->; [|lia].
    destruct c as [[] [] [] [] [] [] [] []]; done. }
  rewrite (H s Hh), Hl. done.
Qed.

(** *** Path components *)
Definition no_slash (comp : string) : Prop := contains_char "/" comp = false.

Lemma no_slash_cons c s : no_slash (String c s) <-> c <> "/"%char /\ no_slash s.
Proof.
  unfold no_slash, contains_char. cbn [str_all]. rewrite !negb_false_iff, andb_true_iff, negb_true_iff.
  split; intros [H1 H2]; (split; [|done]).
  - intros ->. by rewrite Ascii.eqb_refl in H1.
  - apply Ascii.eqb_neq. congruence.
Qed.

Lemma split_no_slash s : Forall no_slash (split_on "/" s).
Proof.
  induction s as [|c s IH]; cbn; [by repeat constructor|].
  destruct (Ascii.eqb_spec c "/") as [->|Hne]; [by constructor|].
  destruct (split_on "/" s) as [|w ws]; [by repeat constructor; apply no_slash_cons|].
  apply Forall_cons in IH as [Hw Hws]. constructor; [by apply no_slash_cons|done].
Qed.

Lemma split_alone w : no_slash w -> split_on "/" w = [w].
Proof.
  induction w as [|c w IH]; [done|]. intros [Hc Hw]%no_slash_cons. cbn.
  destruct (Ascii.eqb_spec c "/") as [->|_]; [done|]. by rewrite IH.
Qed.

Lemma split_first w s : no_slash w -> split_on "/" (w +:+ "/" +:+ s) = w :: split_on "/" s.
Proof.
  induction w as [|c w IH]; [done|]. intros [Hc Hw]%no_slash_cons. rewrite str_cons_app. cbn [split_on].
  destruct (Ascii.eqb_spec c "/") as [->|_]; [done|]. by rewrite IH.
Qed.

Lemma split_join comps : Forall no_slash comps -> comps <> [] -> split_on "/" (join "/" comps) = comps.
Proof.
  induction comps as [|w comps IH]; [done|]. intros [Hw Hc]%Forall_cons _.
  destruct comps as [|w' comps]; [by apply split_alone|].
  change (join "/" (w :: w' :: comps)) with (w +:+ "/" +:+ join "/" (w' :: comps)).
  rewrite split_first by done. by rewrite IH.
Qed.

Lemma join_split_on s : join "/" (split_on "/" s) = s.
Proof.
  induction s as [|c s IH]; [done|]. cbn [split_on]. pose proof (split_no_slash s) as Hs.
  destruct (Ascii.eqb_spec c "/") as [->|Hne].
  - destruct (split_on "/" s) as [|w ws] eqn:E; [by destruct s; cbn in E; [|destruct (Ascii.eqb _ _), (split_on _ _)]|].
    change (join "/" ("" :: w :: ws)) with ("" +:+ "/" +:+ join "/" (w :: ws)). by rewrite IH.
  - destruct (split_on "/" s) as [|w ws] eqn:E; [by destruct s; cbn in E; [|destruct (Ascii.eqb _ _), (split_on _ _)]|].
    destruct ws as [|w' ws]; cbn in *; by rewrite <- IH.
Qed.
