(* ===== verification/Json.v ===== *)
(** * JSON values, Python dictionaries and [canonical_json]

    The values the SDK passes around as [Any] and as documents; Python
    dictionaries in insertion order; [==] on them; the canonical serialisation of
    sdk/liminal_post_sandbox_contracts and its injectivity.  Floats are not
    modelled: no document of the modelled modules contains one. *)
From S2P Require Import Prelude PyStr.
From Stdlib Require Import Ascii.

(** ** Values *)
#[local] Unset Elimination Schemes.
Inductive json :=
  | JNull
  | JBool (b : bool)
  | JInt (z : Z)
  | JStr (s : string)
  | JList (l : list json)
  | JObj (kvs : list (string * json)).
#[local] Set Elimination Schemes.

Abbreviation dict := (list (string * json)).

(** [d.get(k)] *)
Fixpoint dict_get (d : dict) (k : string) : option json :=
  match d with
  | [] => None
  | (k', v) :: d' => if String.eqb k' k then Some v else dict_get d' k
  end.

(** [d.get(k, default)] *)
Definition dict_get_or (d : dict) (k : string) (default : json) : json :=
  match dict_get d k with Some v => v | None => default end.

(** [d.get(k)] where the absent key reads as [None]. *)
Definition dict_get_none (d : dict) (k : string) : json := dict_get_or d k JNull.

(** [d[k]] *)
Definition dict_item (d : dict) (k : string) : result json :=
  match dict_get d k with Some v => Ok v | None => fail KeyError k end.

(** [d[k]] of a document whose field is a string. *)
Definition str_item (d : dict) (key : string) : result string :=
  v ← dict_item d key;
  match v with JStr s => Ok s | _ => fail TypeError key end.

(** [d[k] = v]; also [{**d, k: v}] *)
Fixpoint dict_set (d : dict) (k : string) (v : json) : dict :=
  match d with
  | [] => [(k, v)]
  | (k', v') :: d' => if String.eqb k' k then (k', v) :: d' else (k', v') :: dict_set d' k v
  end.

(** [d.pop(k, None)] *)
Fixpoint dict_del (d : dict) (k : string) : dict :=
  match d with
  | [] => []
  | (k', v) :: d' => if String.eqb k' k then d' else (k', v) :: dict_del d' k
  end.

Definition dict_keys (d : dict) : list string := map fst d.

(** [set(d) == expected] *)
Definition keys_are (d : dict) (expected : list string) : bool :=
  forallb (fun k => mem k expected) (dict_keys d)
  && forallb (fun k => mem k (dict_keys d)) expected.

Definition jstrs (l : list string) : json := JList (map JStr l).

Definition jopt (o : option string) : json :=
  match o with Some s => JStr s | None => JNull end.

(** ** [a == b]: [bool] is a subclass of [int], dictionaries compare unordered *)
Fixpoint py_eq (a b : json) : bool :=
  match a, b with
  | JNull, JNull => true
  | JBool x, JBool y => Bool.eqb x y
  | JBool x, JInt y => (Z.b2z x =? y)%Z
  | JInt x, JBool y => (x =? Z.b2z y)%Z
  | JInt x, JInt y => (x =? y)%Z
  | JStr x, JStr y => String.eqb x y
  | JList l, JList l' =>
      (fix go l l' :=
         match l, l' with
         | [], [] => true
         | x :: l, y :: l' => py_eq x y && go l l'
         | _, _ => false
         end) l l'
  | JObj d, JObj d' =>
      (length d =? length d')%nat
      && forallb (fun kv => match kv with (k, v) =>
           match dict_get d' k with Some v' => py_eq v v' | None => false end end) d
  | _, _ => false
  end.

(** [v == s] for a string constant *)
Definition is_str (v : json) (s : string) : bool :=
  match v with JStr x => String.eqb x s | _ => false end.

(** ** [canonical_json]: [json.dumps(value, sort_keys=True,
    separators=(",", ":"), ensure_ascii=False)] *)
Definition hex_digit (n : N) : ascii :=
  if (n <? 10)%N then ascii_of_N (48 + n) else ascii_of_N (87 + n).

(** One character of a JSON string literal. *)
Definition json_escape (c : ascii) : string :=
  if Ascii.eqb c dquote then String backslash (String dquote "")
  else if Ascii.eqb c backslash then String backslash (String backslash "")
  else if (code c =? 10)%N then String backslash "n"
  else if (code c =? 13)%N then String backslash "r"
  else if (code c =? 9)%N then String backslash "t"
  else if (code c =? 12)%N then String backslash "f"
  else if (code c =? 8)%N then String backslash "b"
  else if (code c <? 32)%N then
    String backslash (String "u" (String "0" (String "0"
      (String (hex_digit (code c / 16)) (String (hex_digit (code c mod 16)) "")))))
  else String c "".

Fixpoint json_chars (s : string) : string :=
  match s with
  | EmptyString => ""
  | String c s' => json_escape c +:+ json_chars s'
  end.

Definition json_str (s : string) : string :=
  String dquote (json_chars s +:+ String dquote "").

Definition json_member (kv : string * string) : string :=
  json_str kv.1 +:+ ":" +:+ kv.2.

Fixpoint canonical_json (v : json) : string :=
  match v with
  | JNull => "null"
  | JBool b => if b then "true" else "false"
  | JInt z => pretty z
  | JStr s => json_str s
  | JList l => "[" +:+ join "," (map canonical_json l) +:+ "]"
  | JObj d =>
      "{" +:+ join "," (map json_member (sorted_on fst
        (map (fun kv => (kv.1, canonical_json kv.2)) d))) +:+ "}"
  end.

(** Two documents carry the same data when they differ only in the order in
    which dictionary keys were inserted. *)
Fixpoint normalize (v : json) : json :=
  match v with
  | JList l => JList (map normalize l)
  | JObj d => JObj (sorted_on fst (map (fun kv => (kv.1, normalize kv.2)) d))
  | _ => v
  end.

Definition json_equiv (a b : json) : Prop := normalize a = normalize b.

(** Serialisation without key sorting. *)
Fixpoint raw_dumps (v : json) : string :=
  match v with
  | JNull => "null"
  | JBool b => if b then "true" else "false"
  | JInt z => pretty z
  | JStr s => json_str s
  | JList l => "[" +:+ join "," (map raw_dumps l) +:+ "]"
  | JObj d => "{" +:+ join "," (map (fun kv => json_member (kv.1, raw_dumps kv.2)) d) +:+ "}"
  end.

(** ** Induction on nested values *)
Section json_induction.
Context (P : json -> Prop).
Context (Pnull : P JNull) (Pbool : forall b, P (JBool b)) (Pint : forall z, P (JInt z))
  (Pstr : forall s, P (JStr s)) (Plist : forall l, Forall P l -> P (JList l))
  (Pobj : forall d, Forall (fun kv => P kv.2) d -> P (JObj d)).

Fixpoint json_nested_ind (v : json) : P v :=
  match v with
  | JNull => Pnull
  | JBool b => Pbool b
  | JInt z => Pint z
  | JStr s => Pstr s
  | JList l => Plist l
      ((fix go l : Forall P l := match l with
        | [] => Forall_nil_2 _
        | x :: l' => Forall_cons_2 _ x l' (json_nested_ind x) (go l') end) l)
  | JObj d => Pobj d
      ((fix go d : Forall (fun kv => P kv.2) d := match d with
        | [] => Forall_nil_2 _
        | kv :: d' => Forall_cons_2 _ kv d' (json_nested_ind kv.2) (go d') end) d)
  end.
End json_induction.

(** ** Dictionary lemmas *)
Lemma dict_get_set d k v : dict_get (dict_set d k v) k = Some v.
Proof.
  induction d as [|[k' v'] d IH]; cbn; [by rewrite String.eqb_refl|].
  destruct (String.eqb k' k) eqn:E; cbn; by rewrite E.
Qed.

Lemma dict_get_set_ne d k k' v : k <> k' -> dict_get (dict_set d k v) k' = dict_get d k'.
Proof.
  intros Hne. induction d as [|[k0 v0] d IH]; cbn.
  - destruct (String.eqb_spec k k'); [done|]. done.
  - destruct (String.eqb_spec k0 k) as [->|]; cbn.
    + by destruct (String.eqb_spec k k').
    + by rewrite IH.
Qed.

Lemma dict_item_ok d k v : dict_item d k = Ok v <-> dict_get d k = Some v.
Proof. unfold dict_item. destruct (dict_get d k); naive_solver. Qed.

#[export] Instance json_equiv_equivalence : Equivalence json_equiv.
Proof.
  unfold json_equiv. split; [by intros a|by intros a b|]. intros a b c. apply transitivity.
Qed.

(** A dictionary is equivalent to every reordering of its items. *)
Lemma json_equiv_perm d d' :
  d ≡ₚ d' -> NoDup (dict_keys d) -> json_equiv (JObj d) (JObj d').
Proof.
  intros Hp Hnd. unfold json_equiv. cbn. f_equal. apply sorted_on_unique.
  - by rewrite Hp.
  - by rewrite map_map.
Qed.

(** ** Injectivity of the serialisation *)

Lemma canonical_json_raw v : canonical_json v = raw_dumps (normalize v).
Proof.
  induction v as [| | | |l IH|d IH] using json_nested_ind; cbn; [done..| |].
  - rewrite map_map. do 3 f_equal. by apply map_ext_Forall.
  - do 3 f_equal. rewrite (sorted_on_map fst fst (fun kv => (kv.1, canonical_json kv.2)) d) by done.
    rewrite (sorted_on_map fst fst (fun kv => (kv.1, normalize kv.2)) d) by done.
    rewrite !map_map. apply map_ext_Forall. rewrite sorted_on_perm.
    eapply Forall_impl; [exact IH|]. intros [k v] Hv. cbn in *. by rewrite Hv.
Qed.

#[export] Instance canonical_json_proper : Proper (json_equiv ==> (=)) canonical_json.
Proof. intros a b H. by rewrite !canonical_json_raw, H. Qed.

(** Read one character of a string literal back. *)
Definition hex_value (c : ascii) : N :=
  if is_digit c then code c - 48 else code c - 87.

Definition json_unescape (s : string) : option (ascii * string) :=
  match s with
  | EmptyString => None
  | String c s1 =>
      if Ascii.eqb c dquote then None
      else if Ascii.eqb c backslash then
        match s1 with
        | String "n" s2 => Some (ascii_of_N 10, s2)
        | String "r" s2 => Some (ascii_of_N 13, s2)
        | String "t" s2 => Some (ascii_of_N 9, s2)
        | String "f" s2 => Some (ascii_of_N 12, s2)
        | String "b" s2 => Some (ascii_of_N 8, s2)
        | String "u" (String _ (String _ (String h (String l s2)))) =>
            Some (ascii_of_N (16 * hex_value h + hex_value l), s2)
        | String x s2 => Some (x, s2)
        | EmptyString => None
        end
      else Some (c, s1)
  end.

Lemma json_unescape_escape c r : json_unescape (json_escape c +:+ r) = Some (c, r).
Proof. by destruct c as [[][][][][][][][]]. Qed.

Lemma json_chars_inj s s' r r' :
  json_chars s +:+ String dquote r = json_chars s' +:+ String dquote r' -> s = s' /\ r = r'.
Proof.
  revert s'. induction s as [|c s IH]; intros [|c' s'] H; cbn in H.
  - by injection H.
  - rewrite str_app_assoc in H. apply (f_equal json_unescape) in H.
    by rewrite json_unescape_escape in H.
  - rewrite str_app_assoc in H. apply (f_equal json_unescape) in H.
    by rewrite json_unescape_escape in H.
  - rewrite !str_app_assoc in H. apply (f_equal json_unescape) in H.
    rewrite !json_unescape_escape in H. injection H as -> H.
    by apply IH in H as [-> ->].
Qed.

Lemma json_str_app s r : json_str s +:+ r = String dquote (json_chars s +:+ String dquote r).
Proof. unfold json_str. rewrite str_cons_app, str_app_assoc. done. Qed.

Lemma json_str_inj s s' r r' :
  json_str s +:+ r = json_str s' +:+ r' -> s = s' /\ r = r'.
Proof. rewrite !json_str_app. intros [= H]. by apply json_chars_inj. Qed.

(** Characters of a number, and what may follow a value. *)
Definition num_char (c : ascii) : bool := is_digit c || Ascii.eqb c "-".

Definition ends_value (r : string) : Prop :=
  match r with EmptyString => True | String c _ => num_char c = false end.

Lemma span_inj p a b r r' :
  str_all p a = true -> str_all p b = true ->
  match r with String c _ => p c = false | _ => True end ->
  match r' with String c _ => p c = false | _ => True end ->
  a +:+ r = b +:+ r' -> a = b /\ r = r'.
Proof.
  revert b. induction a as [|c a IH]; intros [|c' b] Ha Hb Hr Hr' H; cbn in Ha, Hb.
  - done.
  - rewrite str_nil_app, str_cons_app in H. subst r. by rewrite Hr in Hb.
  - rewrite str_nil_app, str_cons_app in H. subst r'. by rewrite Hr' in Ha.
  - rewrite !str_cons_app in H. injection H as -> H.
    apply andb_true_iff in Ha as [_ Ha]. apply andb_true_iff in Hb as [_ Hb].
    by destruct (IH _ Ha Hb Hr Hr' H) as [-> ->].
Qed.

Lemma pretty_N_go_digits x s :
  str_all num_char s = true -> str_all num_char (pretty_N_go x s) = true.
Proof.
  revert s. induction (N.lt_wf_0 x) as [x _ IH]; intros s Hs.
  destruct (decide (0 < x)%N) as [Hx|Hx].
  - rewrite pretty_N_go_step by done. apply IH; [by apply N.div_lt|].
    cbn. rewrite Hs, andb_true_r. unfold pretty_N_char.
    by repeat case_match.
  - assert (x = 0%N) as -> by lia. by rewrite pretty_N_go_0.
Qed.

Lemma pretty_N_digits (x : N) : str_all num_char (pretty x) = true.
Proof. unfold pretty, pretty_N. case_decide; [done|]. by apply pretty_N_go_digits. Qed.

Lemma pretty_N_nonempty (x : N) : pretty x <> "".
Proof.
  intros H. destruct (decide (x = 0%N)) as [->|Hx]; [done|].
  unfold pretty, pretty_N in H. rewrite decide_False in H by done.
  assert (forall y s, s <> "" -> pretty_N_go y s <> "") as Hne.
  { intros y. induction (N.lt_wf_0 y) as [y _ IH]; intros s Hs.
    destruct (decide (0 < y)%N) as [Hy|Hy].
    - rewrite pretty_N_go_step by done. apply IH; [by apply N.div_lt|done].
    - assert (y = 0%N) as -> by lia. by rewrite pretty_N_go_0. }
  rewrite pretty_N_go_step in H by lia. by apply Hne in H.
Qed.

Lemma pretty_Z_chars (z : Z) : str_all num_char (pretty z) = true.
Proof.
  destruct z as [|p|p]; [done|apply pretty_N_digits|].
  unfold pretty, pretty_Z. rewrite str_cons_app. cbn. apply pretty_N_digits.
Qed.

Lemma pretty_Z_head (z : Z) : exists c s, pretty z = String c s /\ num_char c = true.
Proof.
  pose proof (pretty_Z_chars z) as H. destruct (pretty z) as [|c s] eqn:E.
  - destruct z as [|p|p]; [done| |]; unfold pretty, pretty_Z in E.
    + by apply pretty_N_nonempty in E.
    + done.
  - exists c, s. cbn in H. by apply andb_true_iff in H as [H _].
Qed.

Lemma pretty_N_go_length (k : nat) x s :
  (x < 10 ^ N.of_nat k)%N -> (String.length (pretty_N_go x s) <= k + String.length s)%nat.
Proof.
  revert x s. induction k as [|k IH]; intros x s Hx.
  - assert (x = 0%N) as -> by (cbn in Hx; lia). by rewrite pretty_N_go_0.
  - destruct (decide (0 < x)%N) as [H0|H0].
    + rewrite pretty_N_go_step by done. etrans; [apply IH|cbn; lia].
      apply N.Div0.div_lt_upper_bound. rewrite Nat2N.inj_succ, N.pow_succ_r' in Hx. lia.
    + assert (x = 0%N) as -> by lia. rewrite pretty_N_go_0. lia.
Qed.

(** The decimal notation of a number below [10^k] has at most [k] digits. *)
Lemma pretty_Z_length (k : nat) (z : Z) : (0 < k)%nat ->
  (0 <= z < 10 ^ Z.of_nat k)%Z -> (String.length (pretty z) <= k)%nat.
Proof.
  intros Hk Hz. destruct z as [|p|p]; [cbn; lia| |lia].
  change (pretty (Z.pos p)) with (pretty (N.pos p)). unfold pretty, pretty_N. case_decide; [done|].
  etrans; [apply (pretty_N_go_length k)|cbn; lia].
  apply N2Z.inj_lt. rewrite N2Z.inj_pow, nat_N_Z. apply Hz.
Qed.

(** The first character of a value tells its kind and never ends one. *)
Definition value_head (c : ascii) : Prop :=
  num_char c = true \/ c = "n"%char \/ c = "t"%char \/ c = "f"%char \/ c = dquote
  \/ c = "["%char \/ c = "{"%char.

Lemma raw_dumps_head v : exists c s, raw_dumps v = String c s /\ value_head c.
Proof.
  unfold value_head. destruct v as [|[]|z|s|l|d]; cbn.
  all: try (eexists _, _; split; [reflexivity|tauto]).
  destruct (pretty_Z_head z) as (c & s & Hz & Hc). exists c, s. tauto.
Qed.

Lemma ends_value_sep c r :
  c = ","%char \/ c = "]"%char \/ c = "}"%char -> ends_value (String c r).
Proof. by intros [->|[->| ->]]. Qed.

Lemma join_cons sep x l :
  join sep (x :: l) = x +:+ match l with [] => "" | _ => sep +:+ join sep l end.
Proof. destruct l; cbn; [by rewrite str_app_nil_r|done]. Qed.

(** A comma-separated, bracketed sequence of self-delimiting items. *)
Lemma join_inj {A} (g : A -> string) (close : ascii) l l' r r' :
  (close = "]"%char \/ close = "}"%char) ->
  (forall x, exists c s, g x = String c s /\ c <> close) ->
  Forall (fun x => forall y r r', ends_value r -> ends_value r' ->
            g x +:+ r = g y +:+ r' -> x = y /\ r = r') l ->
  join "," (map g l) +:+ String close r = join "," (map g l') +:+ String close r' ->
  l = l' /\ r = r'.
Proof.
  intros Hclose Hhead Hl. revert l'.
  induction Hl as [|x l Hx Hl IH]; intros [|y l'] H; cbn [map] in H; rewrite ?join_cons in H.
  - by injection H.
  - destruct (Hhead y) as (c & s & E & Hc). rewrite E in H. by injection H as ->.
  - destruct (Hhead x) as (c & s & E & Hc). rewrite E in H. by injection H as ->.
  - rewrite !str_app_assoc in H. apply Hx in H as [-> H].
    + destruct l as [|x l], l' as [|y' l']; cbn [map] in H.
      * by injection H as ->.
      * destruct Hclose as [-> | ->]; discriminate.
      * destruct Hclose as [-> | ->]; discriminate.
      * rewrite !str_app_assoc, !str_cons_app in H. injection H as H.
        apply (IH (y' :: l')) in H as [[= -> ->] ->]. done.
    + destruct l; cbn; [by destruct Hclose as [-> | ->]|done].
    + destruct l'; cbn; [by destruct Hclose as [-> | ->]|done].
Qed.

Lemma json_member_raw_inj kv kv' r r' :
  (forall v' r r', ends_value r -> ends_value r' ->
     raw_dumps kv.2 +:+ r = raw_dumps v' +:+ r' -> kv.2 = v' /\ r = r') ->
  ends_value r -> ends_value r' ->
  json_member (kv.1, raw_dumps kv.2) +:+ r = json_member (kv'.1, raw_dumps kv'.2) +:+ r' ->
  kv = kv' /\ r = r'.
Proof.
  destruct kv as [k v], kv' as [k' v']. unfold json_member. cbn [fst snd].
  intros IH Hr Hr' H. rewrite !str_app_assoc in H. apply json_str_inj in H as [-> H].
  injection H as H. by apply IH in H as [-> ->].
Qed.

Lemma value_head_not_close c : value_head c -> c <> "]"%char /\ c <> "}"%char.
Proof.
  unfold value_head. intros H. split; intros ->; repeat destruct H as [H|H]; discriminate.
Qed.

(** A number against a value of another kind. *)
Ltac number_clash :=
  match goal with
  | H : context [pretty ?z] |- _ =>
      let c := fresh in let s := fresh in let E := fresh in let Hc := fresh in
      destruct (pretty_Z_head z) as (c & s & E & Hc); rewrite E in H;
      exfalso; injection H as H; try subst c; discriminate
  end.

Lemma raw_dumps_inj v v' r r' : ends_value r -> ends_value r' ->
  raw_dumps v +:+ r = raw_dumps v' +:+ r' -> v = v' /\ r = r'.
Proof.
  revert v' r r'.
  induction v as [|b|z|s|l IH|d IH] using json_nested_ind;
    intros [|b'|z'|s'|l'|d'] r r' Hr Hr' H; cbn [raw_dumps] in H;
    try (destruct b); try (destruct b'); try discriminate H; try number_clash.
  - by injection H.
  - by injection H.
  - by injection H.
  - apply span_inj with (p := num_char) in H as [Hz ->].
    + by apply (inj pretty) in Hz as ->.
    + apply pretty_Z_chars.
    + apply pretty_Z_chars.
    + by destruct r.
    + by destruct r'.
  - by apply json_str_inj in H as [-> ->].
  - rewrite !str_app_assoc in H. injection H as H.
    apply join_inj in H as [-> ->]; [done|by left| |done].
    intros x. destruct (raw_dumps_head x) as (c & s & E & Hc%value_head_not_close).
    exists c, s. split; [done|apply Hc].
  - rewrite !str_app_assoc in H. injection H as H.
    apply join_inj in H as [-> ->]; [done|by right| |].
    + intros [k v]. exists dquote. eexists. by split.
    + eapply Forall_impl; [exact IH|]. intros kv Hkv kv' r1 r1'. by apply json_member_raw_inj.
Qed.

(** Equal serialisations come from equivalent values. *)
Lemma canonical_json_inj a b : canonical_json a = canonical_json b -> json_equiv a b.
Proof.
  rewrite !canonical_json_raw. intros H.
  apply (raw_dumps_inj _ _ "" ""); [done..|]. by rewrite H.
Qed.

(** *** Reading fields of equivalent documents *)
Lemma dict_get_not_in d k : k ∉ dict_keys d -> dict_get d k = None.
Proof.
  induction d as [|[k' v] d IH]; cbn; [done|].
  intros [Hne Hni]%not_elem_of_cons. destruct (String.eqb_spec k' k); [by subst|]. by apply IH.
Qed.

Lemma dict_get_elem d k v : dict_get d k = Some v -> (k, v) ∈ d.
Proof.
  induction d as [|[k' v'] d IH]; cbn; [done|].
  destruct (String.eqb_spec k' k) as [->|]; [intros [= ->]; left|]. intros H. right. by apply IH.
Qed.

Lemma dict_get_Some d k v : NoDup (dict_keys d) -> dict_get d k = Some v <-> (k, v) ∈ d.
Proof.
  intros Hnd. split; [apply dict_get_elem|].
  induction d as [|[k' v'] d IH]; [by inversion 1|]. cbn in *.
  apply NoDup_cons in Hnd as [Hni Hnd]. intros [[= -> ->]|Hin]%elem_of_cons.
  - by rewrite String.eqb_refl.
  - destruct (String.eqb_spec k' k) as [->|]; [|by apply IH].
    destruct Hni. by apply (list_elem_of_fmap_2 fst _ (k, v)).
Qed.

Lemma dict_get_perm d d' k : d ≡ₚ d' -> NoDup (dict_keys d) -> dict_get d k = dict_get d' k.
Proof.
  intros Hp Hnd. assert (NoDup (dict_keys d')) as Hnd' by (unfold dict_keys; by rewrite <- Hp).
  destruct (dict_get d k) as [v|] eqn:E.
  - apply dict_get_Some in E; [|done]. symmetry. apply dict_get_Some; [done|]. by rewrite <- Hp.
  - destruct (dict_get d' k) as [v|] eqn:E'; [|done].
    apply dict_get_Some in E'; [|done]. rewrite <- Hp in E'.
    apply dict_get_Some in E'; [|done]. congruence.
Qed.

Lemma dict_get_map (g : json -> json) d k :
  dict_get (map (fun kv => (kv.1, g kv.2)) d) k = g <$> dict_get d k.
Proof.
  induction d as [|[k' v] d IH]; cbn; [done|]. by destruct (String.eqb k' k).
Qed.

(** Documents with the same canonical form agree field by field. *)
Lemma json_equiv_field d d' k :
  json_equiv (JObj d) (JObj d') -> NoDup (dict_keys d) -> NoDup (dict_keys d') ->
  normalize <$> dict_get d k = normalize <$> dict_get d' k.
Proof.
  unfold json_equiv. cbn. intros [= H] Hnd Hnd'. rewrite <- !dict_get_map.
  rewrite (dict_get_perm _ (sorted_on fst (map (fun kv => (kv.1, normalize kv.2)) d))).
  - rewrite H. apply dict_get_perm; [apply sorted_on_perm|].
    unfold dict_keys. by rewrite sorted_on_perm, map_map.
  - by rewrite sorted_on_perm.
  - unfold dict_keys. by rewrite map_map.
Qed.

Lemma normalize_jstrs l : normalize (jstrs l) = jstrs l.
Proof. unfold jstrs. cbn. rewrite map_map. done. Qed.

Lemma normalize_jopt o : normalize (jopt o) = jopt o.
Proof. by destruct o. Qed.

#[export] Instance jstrs_inj : Inj (=) (=) jstrs.
Proof.
  intros l l' [= H]. revert l' H. induction l as [|x l IH]; intros [|y l'] H; inversion H; subst.
  - done.
  - f_equal. by apply IH.
Qed.

#[export] Instance jopt_inj : Inj (=) (=) jopt.
Proof. intros [] [] H; by inversion H. Qed.

(** *** Numbered identifiers *)
Lemma str_app_inj_l (a b c : string) : a +:+ b = a +:+ c -> b = c.
Proof. induction a as [|x a IH]; cbn; [done|]. intros [= Ha]. auto. Qed.

(** The identifiers [kind n:rest] differ when their numbers do. *)
Lemma numbered_injective kind n m r r' :
  kind +:+ pretty (n : Z) +:+ ":" +:+ r = kind +:+ pretty (m : Z) +:+ ":" +:+ r' -> n = m.
Proof.
  intros Heq%str_app_inj_l. apply (inj pretty).
  by apply (span_inj num_char (pretty n) (pretty m) (":" +:+ r) (":" +:+ r') (pretty_Z_chars n)
    (pretty_Z_chars m)).
Qed.

Lemma str_item_get d k v : dict_get d k = Some (JStr v) -> str_item d k = Ok v.
Proof. intros Hv. unfold str_item. by rewrite (proj2 (dict_item_ok d k (JStr v)) Hv). Qed.

Lemma is_str_get d k v : is_str (dict_get_none d k) v = true -> dict_get d k = Some (JStr v).
Proof.
  unfold dict_get_none, dict_get_or. destruct (dict_get d k) as [[]|]; try done. cbn.
  by intros ->%String.eqb_eq.
Qed.

(** C40: [canonical_json] identifies exactly the values that differ only in the
    insertion order of dictionary keys: two values have the same canonical
    serialisation if and only if they are equal after sorting keys. *)
Theorem canonical_json_injective (a b : json) :
  canonical_json a = canonical_json b <-> json_equiv a b.
Proof. split; [apply canonical_json_inj|]. by intros ->. Qed.
