(* ===== verification/Digest.v ===== *)
(** * Digests

    [hashlib.sha256(...).hexdigest()] through a class: what the SDK relies on is
    that a digest is 64 lower-case hexadecimal characters.  Sha256.v gives the
    FIPS 180-4 instance; [checksum_digest] is a cheap instance for examples.
    Collision resistance is never assumed globally: a theorem that needs it names
    the values whose digests must not collide. *)
From S2P Require Import Prelude PyStr Json.
From Stdlib Require Import Ascii.

Class Digest := {
  sha256_hex : string -> string;
  sha256_hex_sha : forall s, re_sha (sha256_hex s) = true
}.

(** [canonical_sha256] *)
Definition canonical_sha256 `{Digest} (v : json) : string := sha256_hex (canonical_json v).

Definition ZERO_SHA256 : string :=
  "0000000000000000000000000000000000000000000000000000000000000000".

(** [isinstance(value, str) and len(value) == 64 and all hex]: the check the
    [_sha] helpers of the modules share; each raises its own error. *)
Definition check_sha (c : exn_class) (msg : string) (v : json) : result string :=
  match v with
  | JStr s => if re_sha s then Ok s else fail c msg
  | _ => fail c msg
  end.

Definition check_sha_str (c : exn_class) (msg : string) (s : string) : result string :=
  check_sha c msg (JStr s).

(** [{**body, key: canonical_sha256(body)}] *)
Definition seal `{Digest} (key : string) (body : dict) : dict :=
  dict_set body key (JStr (canonical_sha256 (JObj body))).

(** The two values do not form a collision. *)
Definition no_collision `{Digest} (a b : json) : Prop :=
  canonical_sha256 a = canonical_sha256 b -> canonical_json a = canonical_json b.

(** ** A cheap digest for examples *)
Fixpoint hex_digits (n : nat) (x : N) : string :=
  match n with
  | O => ""
  | S n' => String (hex_digit (N.land x 15)) (hex_digits n' (N.shiftr x 4))
  end.

Fixpoint checksum (acc : N) (s : string) : N :=
  match s with
  | EmptyString => acc
  | String c s' => checksum (N.land (5 * acc + code c) 4294967295) s'
  end%N.

(** ** Lemmas *)
Lemma hex_digit_is_hex n : (n < 16)%N -> is_hex (hex_digit n) = true.
Proof.
  intros H. destruct n as [|p]; [done|].
  do 4 (destruct p as [p|p|]; [| |done]); try lia; done.
Qed.

Lemma hex_digits_sha n x :
  String.length (hex_digits n x) = n /\ str_all is_hex (hex_digits n x) = true.
Proof.
  revert x. induction n as [|n IH]; intros x; cbn [hex_digits str_all String.length]; [done|].
  destruct (IH (N.shiftr x 4)) as [-> ->].
  rewrite hex_digit_is_hex; [done|]. change 15%N with (N.ones 4). rewrite N.land_ones.
  by apply N.mod_lt.
Qed.

#[local] Lemma checksum_sha s : re_sha (hex_digits 64 (checksum 7 s)) = true.
Proof. unfold re_sha. by destruct (hex_digits_sha 64 (checksum 7 s)) as [-> ->]. Qed.

Definition checksum_digest : Digest :=
  {| sha256_hex s := hex_digits 64 (checksum 7 s); sha256_hex_sha := checksum_sha |}.

Lemma check_sha_ok c msg v s : check_sha c msg v = Ok s <-> v = JStr s /\ re_sha s = true.
Proof.
  destruct v; cbn; try (split; [done|by intros [? ?]]).
  destruct (re_sha s0) eqn:E; split; [by intros [= <-]|by intros [[= ->] ?]|done|].
  intros [[= ->] ?]. congruence.
Qed.

Lemma check_sha_str_ok c msg s s' : check_sha_str c msg s = Ok s' <-> s' = s /\ re_sha s = true.
Proof.
  unfold check_sha_str. rewrite check_sha_ok. split.
  - by intros [[= ->] ?].
  - by intros [-> ?].
Qed.

Section digest_lemmas.
Context {hash : Digest}.

Lemma canonical_sha256_sha v : re_sha (canonical_sha256 v) = true.
Proof. apply sha256_hex_sha. Qed.

Lemma check_canonical_sha256 c msg v :
  check_sha c msg (JStr (canonical_sha256 v)) = Ok (canonical_sha256 v).
Proof. apply check_sha_ok. split; [done|]. apply canonical_sha256_sha. Qed.

Lemma canonical_sha256_equiv a b : json_equiv a b -> canonical_sha256 a = canonical_sha256 b.
Proof. unfold canonical_sha256. by intros ->. Qed.

Lemma no_collision_equiv a b :
  no_collision a b -> canonical_sha256 a = canonical_sha256 b -> json_equiv a b.
Proof. intros Hc Hs. by apply canonical_json_inj, Hc. Qed.
End digest_lemmas.

Lemma zero_sha : re_sha ZERO_SHA256 = true.
Proof. done. Qed.

#[export] Hint Resolve canonical_sha256_sha zero_sha : py.

(** ** Hash chains

    [linked h l h']: each element of [l] names the digest of its predecessor,
    starting from [h], and [h'] is the digest of the last one. *)
Section chains.
Context {A : Type} (prev sha : A -> string).

Fixpoint linked (h : string) (l : list A) (h' : string) : Prop :=
  match l with
  | [] => h = h'
  | x :: l' => prev x = h /\ linked (sha x) l' h'
  end.

Lemma linked_snoc h l h' x : linked h l h' -> prev x = h' -> linked h (l ++ [x]) (sha x).
Proof. revert h. induction l as [|y l IH]; intros h; cbn; [by intros ->|]. intros [? ?] ?. eauto. Qed.
End chains.
