(* ===== verification/Sha256.v ===== *)
(** * SHA-256 (FIPS 180-4)

    The function behind [hashlib.sha256], as an instance of [Digest].  Words are
    32-bit integers as [Z] with the wrap-around written out. *)
From S2P Require Import Prelude PyStr Json Digest.
From Stdlib Require Import Ascii.
#[local] Open Scope Z_scope.

Definition word (x : Z) : Z := Z.land x 0xffffffff.
Definition rotr (n x : Z) : Z := Z.lor (Z.shiftr x n) (word (Z.shiftl x (32 - n))).

Definition primes : list Z :=
  let prime n := forallb (fun d => negb (n mod d =? 0)) (map Z.of_nat (seq 2 (Z.to_nat (Z.sqrt n) - 1))) in
  take 64 (List.filter prime (map Z.of_nat (seq 2 400))).

(** The largest [r < 2 ^ bits] with [r ^ 3 <= x], by bisection. *)
Fixpoint cube_root (bits : nat) (r x : Z) : Z :=
  match bits with
  | O => r
  | S n =>
      let r' := r + 2 ^ Z.of_nat n in
      cube_root n (if r' * r' * r' <=? x then r' else r) x
  end.

(** The first 32 bits of the fractional parts of the cube roots of the first 64
    primes, and of the square roots of the first eight. *)
Definition round_constants : list Z :=
  Eval vm_compute in map (fun p => word (cube_root 40 0 (p * 2 ^ 96))) primes.

Definition initial_words : list Z :=
  Eval vm_compute in map (fun p => word (Z.sqrt (p * 2 ^ 64))) (take 8 primes).

Record hash_state := HashState { ha : Z; hb : Z; hc : Z; hd : Z; he : Z; hf : Z; hg : Z; hh : Z }.

Definition initial_hash : hash_state :=
  let h i := nth i initial_words 0 in
  HashState (h 0%nat) (h 1%nat) (h 2%nat) (h 3%nat) (h 4%nat) (h 5%nat) (h 6%nat) (h 7%nat).

Definition round (s : hash_state) (kw : Z * Z) : hash_state :=
  let '(k, w) := kw in
  let s1 := Z.lxor (rotr 6 (he s)) (Z.lxor (rotr 11 (he s)) (rotr 25 (he s))) in
  let ch := Z.lxor (Z.land (he s) (hf s)) (Z.land (Z.lxor (he s) 0xffffffff) (hg s)) in
  let t1 := hh s + s1 + ch + k + w in
  let s0 := Z.lxor (rotr 2 (ha s)) (Z.lxor (rotr 13 (ha s)) (rotr 22 (ha s))) in
  let maj := Z.lxor (Z.land (ha s) (hb s)) (Z.lxor (Z.land (ha s) (hc s)) (Z.land (hb s) (hc s))) in
  HashState (word (t1 + s0 + maj)) (ha s) (hb s) (hc s) (word (hd s + t1)) (he s) (hf s) (hg s).

(** The message schedule; [window] holds the last 16 words, oldest first. *)
Fixpoint schedule (n : nat) (window : list Z) : list Z :=
  match n with
  | O => []
  | S n' =>
      let w i := nth i window 0 in
      let s0 := Z.lxor (rotr 7 (w 1%nat)) (Z.lxor (rotr 18 (w 1%nat)) (Z.shiftr (w 1%nat) 3)) in
      let s1 := Z.lxor (rotr 17 (w 14%nat)) (Z.lxor (rotr 19 (w 14%nat)) (Z.shiftr (w 14%nat) 10)) in
      w 0%nat :: schedule n' (tl window ++ [word (w 0%nat + s0 + w 9%nat + s1)])
  end.

Definition compress (s : hash_state) (block : list Z) : hash_state :=
  let t := fold_left round (combine round_constants (schedule 64 block)) s in
  HashState (word (ha s + ha t)) (word (hb s + hb t)) (word (hc s + hc t)) (word (hd s + hd t))
            (word (he s + he t)) (word (hf s + hf t)) (word (hg s + hg t)) (word (hh s + hh t)).

Fixpoint bytes_of (s : string) : list Z :=
  match s with EmptyString => [] | String c s' => Z.of_N (code c) :: bytes_of s' end.

Definition padded (s : string) : list Z :=
  let n := Z.of_nat (String.length s) in
  bytes_of s ++ [0x80] ++ repeat 0 (Z.to_nat ((55 - n) mod 64))
  ++ map (fun i => Z.land (Z.shiftr (8 * n) i) 255) [56; 48; 40; 32; 24; 16; 8; 0].

Fixpoint words_of (bs : list Z) : list Z :=
  match bs with
  | a :: b :: c :: d :: bs' => ((a * 256 + b) * 256 + c) * 256 + d :: words_of bs'
  | _ => []
  end.

Fixpoint blocks (fuel : nat) (s : hash_state) (ws : list Z) : hash_state :=
  match fuel, ws with
  | S n, _ :: _ => blocks n (compress s (take 16 ws)) (drop 16 ws)
  | _, _ => s
  end.

Definition hash_words (s : string) : list Z :=
  let ws := words_of (padded s) in
  let h := blocks (length ws) initial_hash ws in
  [ha h; hb h; hc h; hd h; he h; hf h; hg h; hh h].

(** Eight hexadecimal digits, most significant first. *)
Definition word_hex (x : Z) : string :=
  let n i := hex_digit (Z.to_N (Z.land (Z.shiftr x i) 15)) in
  String (n 28) (String (n 24) (String (n 20) (String (n 16)
    (String (n 12) (String (n 8) (String (n 4) (String (n 0) ""))))))).

Definition fips_sha256 (s : string) : string :=
  fold_right (fun w acc => word_hex w +:+ acc) "" (hash_words s).

(** ** The output is a digest *)
Lemma nibble_hex x i : is_hex (hex_digit (Z.to_N (Z.land (Z.shiftr x i) 15))) = true.
Proof.
  apply hex_digit_is_hex. change 15 with (Z.ones 4). rewrite Z.land_ones by done.
  pose proof (Z.mod_pos_bound (Z.shiftr x i) (2 ^ 4)). lia.
Qed.

Lemma word_hex_sha x w :
  str_all is_hex (word_hex x +:+ w) = str_all is_hex w
  /\ String.length (word_hex x +:+ w) = (8 + String.length w)%nat.
Proof. unfold word_hex. rewrite !str_cons_app. cbn. by rewrite !nibble_hex. Qed.

Lemma fips_sha256_sha s : re_sha (fips_sha256 s) = true.
Proof.
  unfold re_sha, fips_sha256, hash_words. cbn [fold_right].
  rewrite !(proj1 (word_hex_sha _ _)), !(proj2 (word_hex_sha _ _)). done.
Qed.

#[export] Instance fips_digest : Digest :=
  {| sha256_hex := fips_sha256; sha256_hex_sha := fips_sha256_sha |}.

(** The test vector of FIPS 180-4 for the message abc. *)
Example fips_sha256_abc :
  fips_sha256 "abc" = "ba7816bf8f01cfea414140de5dae2223b00361a396177a9cb410ff61f20015ad".
Proof. vm_compute. reflexivity. Qed.
