(* ===== verification/Contracts.v ===== *)
(** * Phase 0 contracts (sdk/liminal_post_sandbox_contracts/__init__.py)

    Validators of untyped values, capability scopes, the capability, causal-event
    and evidence-requirement documents with their digests, and the containment
    and objective-integrity validators. *)
From S2P Require Import Prelude PyStr Json Digest.
From Stdlib Require Import Ascii.
#[local] Open Scope Z_scope.

(** ** Constants *)
Definition CAPABILITY_SCHEMA : string := "liminal-capability-contract-v0.1".
Definition CAUSAL_EVENT_SCHEMA : string := "liminal-causal-runtime-event-v0.1".
Definition EVIDENCE_SCHEMA : string := "liminal-runtime-evidence-requirement-v0.1".
Definition CONTAINMENT_SCHEMA : string := "liminal-containment-transition-v0.1".
Definition OBJECTIVE_INTEGRITY_SCHEMA : string := "liminal-objective-integrity-contract-v0.1".

Definition CAPABILITY_TYPES : list string :=
  ["repository.read"; "repository.write"; "process.execute"; "package.install";
   "network.open"; "network.connect_domain"; "credential.access";
   "filesystem.write_outside_workspace"; "process.spawn_child"; "runtime.configure"].

Definition CAPABILITY_EVENTS : list string := ["grant"; "use"; "deny"; "revoke"; "expire"].
Definition EFFECTS : list string := ["read"; "write"; "execute"; "network"; "secret"; "config"].
Definition DECISIONS : list string := ["ALLOW"; "REVISE"; "BLOCK"; "CONTAIN"].

Definition CONTAINMENT_STATES : list string :=
  ["IDLE"; "DETECT"; "FREEZE"; "REVOKE"; "SEAL"; "SNAPSHOT"; "REVIEW"; "RELEASED"].

Definition CONTAINMENT_TRANSITIONS : list (string * string) :=
  [("IDLE", "DETECT"); ("DETECT", "FREEZE"); ("FREEZE", "REVOKE"); ("REVOKE", "SEAL");
   ("SEAL", "SNAPSHOT"); ("SNAPSHOT", "REVIEW"); ("REVIEW", "RELEASED")].

Definition OBJECTIVE_VIOLATIONS : list string :=
  ["hidden_answer_access"; "evaluator_state_access"; "grader_or_benchmark_modification";
   "result_fabrication"; "evidence_tampering"; "task_constraint_mutation";
   "evaluation_environment_exploitation"; "unauthorized_policy_mutation";
   "unauthorized_runtime_mutation"].

Definition AUTHORITY : dict :=
  [("mode", JStr "contract_definition_only"); ("capability_grant", JBool false);
   ("capability_use", JBool false); ("execution", JBool false);
   ("network_mediation", JBool false); ("credential_access", JBool false);
   ("process_control", JBool false); ("containment_execution", JBool false);
   ("human_release", JBool false); ("policy_mutation", JBool false)].

(** ** Validators of [Any] values *)
Definition _mapping (value : json) (name : string) : result dict :=
  match value with
  | JObj d => Ok d
  | _ => fail ContractError (name +:+ " must be a JSON object")
  end.

Definition _string (value : json) (name : string) : result string :=
  let bad := fail ContractError (name +:+ " must be a non-empty trimmed string without NUL") in
  match value with
  | JStr s =>
      if String.eqb (py_strip s) "" || negb (String.eqb s (py_strip s)) || contains_char "000" s
      then bad else Ok s
  | _ => bad
  end.

Definition _identifier (value : json) (name : string) : result string :=
  item ← _string value name;
  _ ← raise_if (negb (re_ident item)) ContractError (name +:+ " contains unsupported characters");
  Ok item.

Definition _sha (value : json) (name : string) : result string :=
  s ← _string value name;
  let item := py_lower s in
  _ ← raise_if (negb (re_sha item)) ContractError (name +:+ " must be a lowercase SHA-256 digest");
  Ok item.

Definition _time (value : json) (name : string) : result Z :=
  match value with
  | JInt z => if z <? 0 then fail ContractError (name +:+ " must be a non-negative Unix timestamp")
              else Ok z
  | _ => fail ContractError (name +:+ " must be a non-negative Unix timestamp")
  end.

Definition _bool (value : json) (name : string) : result bool :=
  match value with
  | JBool b => Ok b
  | _ => fail ContractError (name +:+ " must be boolean")
  end.

Definition _int (value : json) (name : string) (minimum : Z) : result Z :=
  match value with
  | JInt z => if z <? minimum
              then fail ContractError (name +:+ " must be an integer >= " +:+ pretty minimum)
              else Ok z
  | _ => fail ContractError (name +:+ " must be an integer >= " +:+ pretty minimum)
  end.

(** [sorted(a - b)] on sets of strings *)
Definition sorted_diff (a b : list string) : list string :=
  sorted_set (List.filter (fun x => negb (mem x b)) a).

Definition _exact (raw : dict) (expected : list string) (name : string) : result unit :=
  let missing := sorted_diff expected (dict_keys raw) in
  let extra := sorted_diff (dict_keys raw) expected in
  _ ← raise_if (negb (bool_decide (missing = []))) ContractError
        (name +:+ " missing keys: " +:+ join ", " missing);
  raise_if (negb (bool_decide (extra = []))) ContractError
    (name +:+ " contains unsupported keys: " +:+ join ", " extra).

Definition _sorted_unique_strings (value : json) (name : string) : result (list string) :=
  match value with
  | JList l =>
      items ← map_r (fun item => _identifier item (name +:+ "[]")) l;
      let res := sorted_str items in
      _ ← raise_if (has_dups res) ContractError (name +:+ " contains duplicates");
      Ok res
  | _ => fail ContractError (name +:+ " must be an array")
  end.

(** [None if v is None else f(v)] *)
Definition optional {A} (f : json -> result A) (v : json) : result (option A) :=
  match v with
  | JNull => Ok None
  | _ => x ← f v; Ok (Some x)
  end.

(** ** Scopes *)
Definition allowed_by_type (t : string) : option (list string) :=
  match List.find (fun p => String.eqb (fst p) t)
    [("repository.read", ["repository"; "refs"; "paths"]);
     ("repository.write", ["repository"; "refs"; "paths"]);
     ("process.execute", ["executables"; "working_directory"; "argument_profile"]);
     ("package.install", ["registries"; "packages"]);
     ("network.open", ["protocols"]);
     ("network.connect_domain", ["domains"; "protocols"; "ports"]);
     ("credential.access", ["credential_ids"; "purpose"]);
     ("filesystem.write_outside_workspace", ["paths"]);
     ("process.spawn_child", ["executables"; "max_children"]);
     ("runtime.configure", ["setting_keys"])] with
  | Some p => Some (snd p)
  | None => None
  end.

(** [a < b]; values of different kinds are not ordered. *)
Fixpoint py_lt (a b : json) : result bool :=
  match a, b with
  | JBool x, JBool y => Ok (Z.b2z x <? Z.b2z y)
  | JBool x, JInt y => Ok (Z.b2z x <? y)
  | JInt x, JBool y => Ok (x <? Z.b2z y)
  | JInt x, JInt y => Ok (x <? y)
  | JStr x, JStr y => Ok (negb (String.leb y x))
  | JList l, JList l' =>
      (fix go l l' :=
         match l, l' with
         | _, [] => Ok false
         | [], _ :: _ => Ok true
         | x :: l, y :: l' => if py_eq x y then go l l' else py_lt x y
         end) l l'
  | _, _ => fail TypeError "'<' not supported"
  end.

Fixpoint insert_json (x : json) (l : list json) : result (list json) :=
  match l with
  | [] => Ok [x]
  | y :: l' =>
      lt ← py_lt y x;
      if lt : bool then (rest ← insert_json x l'; Ok (y :: rest)) else Ok (x :: l)
  end.

(** [sorted(l)] on arbitrary values. *)
Fixpoint sorted_json (l : list json) : result (list json) :=
  match l with
  | [] => Ok []
  | x :: l' => rest ← sorted_json l'; insert_json x rest
  end.

(** The port number, when [not isinstance(port, bool) and isinstance(port, int)
    and 1 <= port <= 65535]. *)
Definition port_of (v : json) : option Z :=
  match v with
  | JInt z => if (1 <=? z) && (z <=? 65535) then Some z else None
  | _ => None
  end.

(** The value stored for one scope key (the body of the loop of [validate_scope]). *)
Definition scope_item (key : string) (item : json) : result json :=
  if String.eqb key "repository" then
    repo ← _string item "scope.repository";
    _ ← raise_if (negb (re_repo repo)) ContractError "scope.repository must use owner/name form";
    Ok (JStr repo)
  else if String.eqb key "domains" then
    match item with
    | JList ((_ :: _) as l) =>
        ds ← map_r (fun d => s ← _string d "scope.domains[]"; Ok (py_lower s)) l;
        let domains := sorted_str ds in
        _ ← raise_if (has_dups domains || existsb (fun d => negb (re_domain d)) domains)
              ContractError "scope.domains must contain unique DNS names";
        Ok (jstrs domains)
    | _ => fail ContractError "scope.domains must be a non-empty array"
    end
  else if String.eqb key "ports" then
    match item with
    | JList ((_ :: _) as l) =>
        ports ← sorted_json l;
        match mapM port_of ports with
        | None => fail ContractError "scope.ports must contain valid TCP/UDP ports"
        | Some ns =>
            _ ← raise_if (negb (bool_decide (NoDup ns))) ContractError
                  "scope.ports contains duplicates";
            Ok (JList (map JInt ns))
        end
    | _ => fail ContractError "scope.ports must be a non-empty array"
    end
  else if String.eqb key "max_children" then
    n ← _int item "scope.max_children" 1; Ok (JInt n)
  else
    match item with
    | JList [] => fail ContractError ("scope." +:+ key +:+ " must not be empty")
    | JList l =>
        values ← map_r (fun v => _string v ("scope." +:+ key +:+ "[]")) l;
        _ ← raise_if (has_dups values) ContractError ("scope." +:+ key +:+ " contains duplicates");
        Ok (jstrs (sorted_str values))
    | _ => s ← _string item ("scope." +:+ key); Ok (JStr s)
    end.

Definition validate_scope (capability_type : string) (value : json) : result dict :=
  raw ← _mapping value "scope";
  match allowed_by_type capability_type with
  | None => fail KeyError capability_type
  | Some allowed =>
      let unknown := sorted_diff (dict_keys raw) allowed in
      _ ← raise_if (negb (bool_decide (unknown = []))) ContractError
            ("scope contains unsupported keys: " +:+ join ", " unknown);
      _ ← raise_if (bool_decide (dict_keys raw = [])) ContractError "scope must not be empty";
      items ← map_r (fun kv => v ← scope_item (fst kv) (snd kv); Ok (fst kv, v)) raw;
      Ok (sorted_on fst items)
  end.

(** ** Capability contracts *)
Record CapabilityContract := {
  cc_capability_id : string;
  cc_capability_type : string;
  cc_subject_id : string;
  cc_issuer_id : string;
  cc_scope : dict;
  cc_issued_at_unix : Z;
  cc_not_before_unix : Z;
  cc_expires_at_unix : Z;
  cc_max_uses : Z;
  cc_delegable : bool;
  cc_parent_capability_id : option string;
  cc_policy_sha256 : string;
  cc_contract_sha256 : string
}.

Definition CapabilityContract_body (c : CapabilityContract) : dict :=
  [("schema", JStr CAPABILITY_SCHEMA);
   ("capability_id", JStr (cc_capability_id c));
   ("capability_type", JStr (cc_capability_type c));
   ("subject_id", JStr (cc_subject_id c));
   ("issuer_id", JStr (cc_issuer_id c));
   ("scope", JObj (cc_scope c));
   ("issued_at_unix", JInt (cc_issued_at_unix c));
   ("not_before_unix", JInt (cc_not_before_unix c));
   ("expires_at_unix", JInt (cc_expires_at_unix c));
   ("max_uses", JInt (cc_max_uses c));
   ("delegable", JBool (cc_delegable c));
   ("parent_capability_id", jopt (cc_parent_capability_id c));
   ("policy_sha256", JStr (cc_policy_sha256 c));
   ("authority", JObj AUTHORITY)].

Definition CapabilityContract_as_document (c : CapabilityContract) : dict :=
  dict_set (CapabilityContract_body c) "contract_sha256" (JStr (cc_contract_sha256 c)).

Definition capability_keys : list string :=
  ["schema"; "capability_id"; "capability_type"; "subject_id"; "issuer_id"; "scope";
   "issued_at_unix"; "not_before_unix"; "expires_at_unix"; "max_uses"; "delegable";
   "parent_capability_id"; "policy_sha256"; "authority"; "contract_sha256"].

(** [raw["schema"] != S or raw["authority"] != A] *)
Definition envelope_ok (raw : dict) (schema : string) (authority : dict) : bool :=
  is_str (dict_get_none raw "schema") schema
  && py_eq (dict_get_none raw "authority") (JObj authority).

(** ** Causal runtime events *)
Record CausalRuntimeEvent := {
  ev_event_id : string;
  ev_event_type : string;
  ev_subject_id : string;
  ev_capability_id : option string;
  ev_recorder_event_id : option string;
  ev_recorder_entry_sha256 : option string;
  ev_effect : string;
  ev_decision : string;
  ev_observed_at_unix : Z;
  ev_previous_causal_event_sha256 : string;
  ev_input_sha256 : string;
  ev_output_sha256 : option string;
  ev_reason_codes : list string;
  ev_event_sha256 : string
}.

Definition CausalRuntimeEvent_body (e : CausalRuntimeEvent) : dict :=
  [("schema", JStr CAUSAL_EVENT_SCHEMA);
   ("event_id", JStr (ev_event_id e));
   ("event_type", JStr (ev_event_type e));
   ("subject_id", JStr (ev_subject_id e));
   ("capability_id", jopt (ev_capability_id e));
   ("recorder_event_id", jopt (ev_recorder_event_id e));
   ("recorder_entry_sha256", jopt (ev_recorder_entry_sha256 e));
   ("effect", JStr (ev_effect e));
   ("decision", JStr (ev_decision e));
   ("observed_at_unix", JInt (ev_observed_at_unix e));
   ("previous_causal_event_sha256", JStr (ev_previous_causal_event_sha256 e));
   ("input_sha256", JStr (ev_input_sha256 e));
   ("output_sha256", jopt (ev_output_sha256 e));
   ("reason_codes", jstrs (ev_reason_codes e));
   ("authority", JObj AUTHORITY)].

Definition CausalRuntimeEvent_as_document (e : CausalRuntimeEvent) : dict :=
  dict_set (CausalRuntimeEvent_body e) "event_sha256" (JStr (ev_event_sha256 e)).

Definition causal_event_keys : list string :=
  ["schema"; "event_id"; "event_type"; "subject_id"; "capability_id"; "recorder_event_id";
   "recorder_entry_sha256"; "effect"; "decision"; "observed_at_unix";
   "previous_causal_event_sha256"; "input_sha256"; "output_sha256"; "reason_codes";
   "authority"; "event_sha256"].

(** ** Evidence requirements *)
Record RuntimeEvidenceRequirement := {
  rq_action_class : string;
  rq_required_roots : list string;
  rq_require_capability : bool;
  rq_require_recorder_link : bool;
  rq_require_result_digest : bool;
  rq_fail_closed_on_missing : bool;
  rq_requirement_sha256 : string
}.

Definition RuntimeEvidenceRequirement_body (r : RuntimeEvidenceRequirement) : dict :=
  [("schema", JStr EVIDENCE_SCHEMA);
   ("action_class", JStr (rq_action_class r));
   ("required_roots", jstrs (rq_required_roots r));
   ("require_capability", JBool (rq_require_capability r));
   ("require_recorder_link", JBool (rq_require_recorder_link r));
   ("require_result_digest", JBool (rq_require_result_digest r));
   ("fail_closed_on_missing", JBool (rq_fail_closed_on_missing r));
   ("authority", JObj AUTHORITY)].

Definition RuntimeEvidenceRequirement_as_document (r : RuntimeEvidenceRequirement) : dict :=
  dict_set (RuntimeEvidenceRequirement_body r) "requirement_sha256"
    (JStr (rq_requirement_sha256 r)).

Definition requirement_keys : list string :=
  ["schema"; "action_class"; "required_roots"; "require_capability"; "require_recorder_link";
   "require_result_digest"; "fail_closed_on_missing"; "authority"; "requirement_sha256"].

(** ** Documents *)
Section documents.
Context {hash : Digest}.

Definition CapabilityContract_from_document (value : json) : result CapabilityContract :=
  raw ← _mapping value "capability";
  _ ← _exact raw capability_keys "capability";
  _ ← raise_if (negb (envelope_ok raw CAPABILITY_SCHEMA AUTHORITY)) ContractError
        "capability schema or authority boundary mismatch";
  let fld k := dict_get_none raw k in
  ty ← _string (fld "capability_type") "capability_type";
  _ ← raise_if (negb (mem ty CAPABILITY_TYPES)) ContractError "unsupported capability_type";
  issued ← _time (fld "issued_at_unix") "issued_at_unix";
  not_before ← _time (fld "not_before_unix") "not_before_unix";
  expires ← _time (fld "expires_at_unix") "expires_at_unix";
  _ ← raise_if (negb ((issued <=? not_before) && (not_before <? expires))) ContractError
        "capability validity window is invalid";
  max_uses ← _int (fld "max_uses") "max_uses" 1;
  _ ← raise_if (1000 <? max_uses) ContractError "max_uses exceeds Phase 0 bounded contract limit";
  delegable ← _bool (fld "delegable") "delegable";
  parent ← optional (fun v => _identifier v "parent_capability_id") (fld "parent_capability_id");
  _ ← raise_if (delegable && bool_decide (parent = None)) ContractError
        "delegable capabilities require explicit parent_capability_id";
  id ← _identifier (fld "capability_id") "capability_id";
  subject ← _identifier (fld "subject_id") "subject_id";
  issuer ← _identifier (fld "issuer_id") "issuer_id";
  scope ← validate_scope ty (fld "scope");
  policy ← _sha (fld "policy_sha256") "policy_sha256";
  digest ← _sha (fld "contract_sha256") "contract_sha256";
  let item := {|
    cc_capability_id := id; cc_capability_type := ty; cc_subject_id := subject;
    cc_issuer_id := issuer; cc_scope := scope; cc_issued_at_unix := issued;
    cc_not_before_unix := not_before; cc_expires_at_unix := expires; cc_max_uses := max_uses;
    cc_delegable := delegable; cc_parent_capability_id := parent; cc_policy_sha256 := policy;
    cc_contract_sha256 := digest |} in
  _ ← raise_if (negb (String.eqb (canonical_sha256 (JObj (CapabilityContract_body item))) digest))
        ContractError "capability contract_sha256 mismatch";
  Ok item.

(** [{"schema": S, **kwargs, "authority": A}] *)
Definition provisional_body (schema : string) (authority kwargs : dict) : dict :=
  dict_set (fold_left (fun d kv => dict_set d (fst kv) (snd kv)) kwargs
              [("schema", JStr schema)]) "authority" (JObj authority).

Definition CapabilityContract_build (kwargs : dict) : result CapabilityContract :=
  let provisional := provisional_body CAPABILITY_SCHEMA AUTHORITY kwargs in
  CapabilityContract_from_document (JObj (seal "contract_sha256" provisional)).

Definition CausalRuntimeEvent_from_document (value : json) : result CausalRuntimeEvent :=
  raw ← _mapping value "causal_event";
  _ ← _exact raw causal_event_keys "causal_event";
  _ ← raise_if (negb (envelope_ok raw CAUSAL_EVENT_SCHEMA AUTHORITY)) ContractError
        "causal-event schema or authority boundary mismatch";
  let fld k := dict_get_none raw k in
  event_type ← _string (fld "event_type") "event_type";
  _ ← raise_if (negb (mem event_type
          (CAPABILITY_EVENTS ++ ["runtime_action"; "objective_violation"; "containment_transition"])))
        ContractError "unsupported causal event_type";
  effect ← _string (fld "effect") "effect";
  _ ← raise_if (negb (mem effect EFFECTS)) ContractError "unsupported effect";
  decision ← _string (fld "decision") "decision";
  _ ← raise_if (negb (mem decision DECISIONS)) ContractError "unsupported decision";
  capability_id ← optional (fun v => _identifier v "capability_id") (fld "capability_id");
  _ ← raise_if (mem event_type CAPABILITY_EVENTS && bool_decide (capability_id = None))
        ContractError "capability lifecycle event requires capability_id";
  recorder_id ← optional (fun v => _identifier v "recorder_event_id") (fld "recorder_event_id");
  recorder_hash ← optional (fun v => _sha v "recorder_entry_sha256") (fld "recorder_entry_sha256");
  _ ← raise_if (negb (Bool.eqb (bool_decide (recorder_id = None)) (bool_decide (recorder_hash = None))))
        ContractError "recorder_event_id and recorder_entry_sha256 must appear together";
  reasons ← _sorted_unique_strings (fld "reason_codes") "reason_codes";
  _ ← raise_if (bool_decide (reasons = [])) ContractError "reason_codes must not be empty";
  output_hash ← optional (fun v => _sha v "output_sha256") (fld "output_sha256");
  event_id ← _identifier (fld "event_id") "event_id";
  subject ← _identifier (fld "subject_id") "subject_id";
  observed ← _time (fld "observed_at_unix") "observed_at_unix";
  previous ← _sha (fld "previous_causal_event_sha256") "previous_causal_event_sha256";
  input ← _sha (fld "input_sha256") "input_sha256";
  digest ← _sha (fld "event_sha256") "event_sha256";
  let item := {|
    ev_event_id := event_id; ev_event_type := event_type; ev_subject_id := subject;
    ev_capability_id := capability_id; ev_recorder_event_id := recorder_id;
    ev_recorder_entry_sha256 := recorder_hash; ev_effect := effect; ev_decision := decision;
    ev_observed_at_unix := observed; ev_previous_causal_event_sha256 := previous;
    ev_input_sha256 := input; ev_output_sha256 := output_hash; ev_reason_codes := reasons;
    ev_event_sha256 := digest |} in
  _ ← raise_if (negb (String.eqb (canonical_sha256 (JObj (CausalRuntimeEvent_body item))) digest))
        ContractError "causal event_sha256 mismatch";
  Ok item.

Definition CausalRuntimeEvent_build (kwargs : dict) : result CausalRuntimeEvent :=
  let body := provisional_body CAUSAL_EVENT_SCHEMA AUTHORITY kwargs in
  CausalRuntimeEvent_from_document (JObj (seal "event_sha256" body)).

Definition RuntimeEvidenceRequirement_from_document (value : json)
    : result RuntimeEvidenceRequirement :=
  raw ← _mapping value "evidence_requirement";
  _ ← _exact raw requirement_keys "evidence_requirement";
  _ ← raise_if (negb (envelope_ok raw EVIDENCE_SCHEMA AUTHORITY)) ContractError
        "evidence schema or authority boundary mismatch";
  let fld k := dict_get_none raw k in
  roots ← _sorted_unique_strings (fld "required_roots") "required_roots";
  _ ← raise_if (bool_decide (roots = [])) ContractError "required_roots must not be empty";
  action_class ← _identifier (fld "action_class") "action_class";
  require_capability ← _bool (fld "require_capability") "require_capability";
  require_recorder_link ← _bool (fld "require_recorder_link") "require_recorder_link";
  require_result_digest ← _bool (fld "require_result_digest") "require_result_digest";
  fail_closed ← _bool (fld "fail_closed_on_missing") "fail_closed_on_missing";
  digest ← _sha (fld "requirement_sha256") "requirement_sha256";
  let item := {|
    rq_action_class := action_class; rq_required_roots := roots;
    rq_require_capability := require_capability; rq_require_recorder_link := require_recorder_link;
    rq_require_result_digest := require_result_digest; rq_fail_closed_on_missing := fail_closed;
    rq_requirement_sha256 := digest |} in
  _ ← raise_if (negb fail_closed) ContractError
        "Phase 0 sensitive runtime evidence must fail closed";
  _ ← raise_if (negb (String.eqb (canonical_sha256 (JObj (RuntimeEvidenceRequirement_body item))) digest))
        ContractError "evidence requirement_sha256 mismatch";
  Ok item.

Definition RuntimeEvidenceRequirement_build (action_class : string) (required_roots : list string)
    (require_capability require_recorder_link require_result_digest fail_closed : bool)
    : result RuntimeEvidenceRequirement :=
  action ← _identifier (JStr action_class) "action_class";
  let body :=
    [("schema", JStr EVIDENCE_SCHEMA); ("action_class", JStr action);
     ("required_roots", jstrs (sorted_str required_roots));
     ("require_capability", JBool require_capability);
     ("require_recorder_link", JBool require_recorder_link);
     ("require_result_digest", JBool require_result_digest);
     ("fail_closed_on_missing", JBool fail_closed); ("authority", JObj AUTHORITY)] in
  RuntimeEvidenceRequirement_from_document (JObj (seal "requirement_sha256" body)).

(** [s.replace(".", ":")] *)
Fixpoint replace_dots (s : string) : string :=
  match s with
  | EmptyString => ""
  | String c s' => String (if Ascii.eqb c "." then ":"%char else c) (replace_dots s')
  end.

Definition default_evidence_requirements : result (list RuntimeEvidenceRequirement) :=
  let roots := ["policy_sha256"; "capability_sha256"; "input_sha256"; "recorder_entry_sha256"] in
  map_r (fun capability_type =>
    RuntimeEvidenceRequirement_build (replace_dots capability_type)
      (roots ++ [if negb (String.eqb capability_type "network.open")
                 then "result_sha256" else "network_receipt_sha256"])
      true true true true)
    (sorted_str CAPABILITY_TYPES).

End documents.

(** ** Containment transitions and objective integrity *)
Definition transition_mem (before after : string) : bool :=
  existsb (fun p => String.eqb before (fst p) && String.eqb after (snd p)) CONTAINMENT_TRANSITIONS.

Definition validate_containment_transition (value : json) : result dict :=
  raw ← _mapping value "containment_transition";
  _ ← _exact raw ["schema"; "incident_id"; "from_state"; "to_state"; "reason_codes";
        "evidence_sha256"; "at_unix"; "human_release_id"; "authority"] "containment_transition";
  _ ← raise_if (negb (envelope_ok raw CONTAINMENT_SCHEMA AUTHORITY)) ContractError
        "containment schema or authority boundary mismatch";
  let fld k := dict_get_none raw k in
  before ← _string (fld "from_state") "from_state";
  after ← _string (fld "to_state") "to_state";
  _ ← raise_if (negb (mem before CONTAINMENT_STATES) || negb (mem after CONTAINMENT_STATES)
                || negb (transition_mem before after))
        ContractError "illegal containment transition";
  reasons ← _sorted_unique_strings (fld "reason_codes") "reason_codes";
  _ ← raise_if (bool_decide (reasons = [])) ContractError
        "containment reason_codes must not be empty";
  let release_id := fld "human_release_id" in
  release ←
    (if String.eqb after "RELEASED" then
       match release_id with
       | JNull => fail ContractError "RELEASED requires explicit human_release_id"
       | _ => r ← _identifier release_id "human_release_id"; Ok (JStr r)
       end
     else
       match release_id with
       | JNull => Ok JNull
       | _ => fail ContractError "human_release_id is allowed only for RELEASED"
       end);
  incident ← _identifier (fld "incident_id") "incident_id";
  evidence ← _sha (fld "evidence_sha256") "evidence_sha256";
  at_unix ← _time (fld "at_unix") "at_unix";
  Ok [("schema", JStr CONTAINMENT_SCHEMA); ("incident_id", JStr incident);
      ("from_state", JStr before); ("to_state", JStr after); ("reason_codes", jstrs reasons);
      ("evidence_sha256", JStr evidence); ("at_unix", JInt at_unix);
      ("human_release_id", release); ("authority", JObj AUTHORITY)].

Definition validate_objective_integrity (value : json) : result dict :=
  raw ← _mapping value "objective_integrity";
  _ ← _exact raw ["schema"; "objective_id"; "method_policy_sha256"; "observed_violation_codes";
        "decision"; "evidence_sha256"; "authority"] "objective_integrity";
  _ ← raise_if (negb (envelope_ok raw OBJECTIVE_INTEGRITY_SCHEMA AUTHORITY)) ContractError
        "objective-integrity schema or authority boundary mismatch";
  let fld k := dict_get_none raw k in
  violations ← _sorted_unique_strings (fld "observed_violation_codes") "observed_violation_codes";
  let unknown := sorted_diff violations OBJECTIVE_VIOLATIONS in
  _ ← raise_if (negb (bool_decide (unknown = []))) ContractError
        ("unknown objective-integrity violation: " +:+ join ", " unknown);
  decision ← _string (fld "decision") "decision";
  _ ← raise_if (negb (mem decision DECISIONS)) ContractError
        "unsupported objective-integrity decision";
  _ ← raise_if (negb (bool_decide (violations = [])) && String.eqb decision "ALLOW") ContractError
        "observed objective-integrity violations cannot yield ALLOW";
  objective ← _identifier (fld "objective_id") "objective_id";
  policy ← _sha (fld "method_policy_sha256") "method_policy_sha256";
  evidence ← _sha (fld "evidence_sha256") "evidence_sha256";
  Ok [("schema", JStr OBJECTIVE_INTEGRITY_SCHEMA); ("objective_id", JStr objective);
      ("method_policy_sha256", JStr policy); ("observed_violation_codes", jstrs violations);
      ("decision", JStr decision); ("evidence_sha256", JStr evidence);
      ("authority", JObj AUTHORITY)].

(** ** Lemmas on the validators *)

(** The strings [_string] accepts. *)
Definition good_string (s : string) : bool :=
  negb (String.eqb (py_strip s) "" || negb (String.eqb s (py_strip s)) || contains_char "000" s).

Lemma _string_ok v name s : _string v name = Ok s <-> v = JStr s /\ good_string s = true.
Proof.
  unfold _string, good_string. destruct v as [| | |x| |]; try (split; [done|by intros [? ?]]).
  destruct (_ || _ || _) eqn:E; cbn; split.
  - done.
  - intros [[= ->] H]. by rewrite E in H.
  - intros [= ->]. by rewrite E.
  - by intros [[= ->] _].
Qed.

Lemma good_string_solid s : str_all solid_char s = true -> s <> "" -> good_string s = true.
Proof.
  intros Hs Hne. unfold good_string. rewrite py_strip_solid, no_nul_solid by done.
  rewrite String.eqb_refl. by destruct (String.eqb_spec s "").
Qed.

Lemma re_ident_good s : re_ident s = true -> good_string s = true.
Proof. intros [? ?]%re_ident_solid. by apply good_string_solid. Qed.

Lemma re_sha_good s : re_sha s = true -> good_string s = true.
Proof. intros [? ?]%re_sha_solid. by apply good_string_solid. Qed.

Lemma _identifier_ok v name s : _identifier v name = Ok s <-> v = JStr s /\ re_ident s = true.
Proof.
  unfold _identifier. split.
  - intros H. py_inv. apply _string_ok in Hx as [-> _]. apply negb_false_iff in Hx0. done.
  - intros [-> Hs]. rewrite (proj2 (_string_ok _ name s)) by (by split; [|apply re_ident_good]).
    cbn. by rewrite Hs.
Qed.

Lemma _sha_sound v name s : _sha v name = Ok s -> re_sha s = true.
Proof. unfold _sha. intros H. py_inv. by apply negb_false_iff in Hx0. Qed.

Lemma _sha_complete name s : re_sha s = true -> _sha (JStr s) name = Ok s.
Proof.
  intros Hs. unfold _sha. rewrite (proj2 (_string_ok _ name s)) by (by split; [|apply re_sha_good]).
  cbn. by rewrite py_lower_sha, Hs.
Qed.

Lemma _time_ok v name z : _time v name = Ok z <-> v = JInt z /\ 0 <= z.
Proof.
  destruct v as [| |x| | |]; cbn; try (split; [done|by intros [? ?]]).
  destruct (Z.ltb_spec x 0); split; try done; [intros [[= ->] ?]; lia|by intros [= ->]|].
  by intros [[= ->] ?].
Qed.

Lemma _int_ok v name m z : _int v name m = Ok z <-> v = JInt z /\ m <= z.
Proof.
  destruct v as [| |x| | |]; cbn; try (split; [done|by intros [? ?]]).
  destruct (Z.ltb_spec x m); split; try done; [intros [[= ->] ?]; lia|by intros [= ->]|].
  by intros [[= ->] ?].
Qed.

Lemma _bool_ok v name b : _bool v name = Ok b <-> v = JBool b.
Proof. destruct v; cbn; naive_solver. Qed.

Lemma optional_ok {A} (f : json -> result A) v o :
  optional f v = Ok o <->
  (v = JNull /\ o = None) \/ (v <> JNull /\ exists a, f v = Ok a /\ o = Some a).
Proof.
  unfold optional. destruct v; (split; [intros H; py_inv; eauto 7|]).
  all: intros [[? ?]|(? & a & Ha & ->)]; subst; try done; by rewrite Ha.
Qed.

Lemma _sorted_unique_strings_sound v name l :
  _sorted_unique_strings v name = Ok l ->
  Forall (fun s => re_ident s = true) l /\ NoDup l /\ sorted_str l = l.
Proof.
  unfold _sorted_unique_strings. destruct v as [| | | |vs|]; try done. intros H. py_inv.
  apply map_r_ok in Hx. apply has_dups_false in Hx0. split_and!.
  - apply Forall_sorted_str. clear Hx0. induction Hx as [|w y ws ys Hw _ IH]; constructor; [|done].
    by apply _identifier_ok in Hw as [_ ?].
  - done.
  - apply sorted_str_idemp.
Qed.

Lemma map_r_jstrs (f : json -> result string) l :
  Forall (fun s => f (JStr s) = Ok s) l -> map_r f (map JStr l) = Ok l.
Proof. intros H. apply map_r_ok. induction H; by constructor. Qed.

Lemma _sorted_unique_strings_complete name l :
  Forall (fun s => re_ident s = true) l -> NoDup l -> sorted_str l = l ->
  _sorted_unique_strings (jstrs l) name = Ok l.
Proof.
  intros Hi Hnd Hs. unfold _sorted_unique_strings, jstrs. rewrite map_r_jstrs.
  - cbn. by rewrite Hs, (proj2 (has_dups_false l)).
  - eapply Forall_impl; [exact Hi|]. intros s ?. by apply _identifier_ok.
Qed.

(** ** Scopes are normal forms *)

Lemma map_r_strings (f : json -> result string) (P : string -> Prop) l ss :
  (forall v s, f v = Ok s -> P s) -> map_r f l = Ok ss ->
  Forall P ss /\ length ss = length l.
Proof.
  intros Hf H. apply map_r_ok in H. split; [|symmetry; by eapply Forall2_length].
  induction H; constructor; eauto.
Qed.

Lemma jstrs_nonempty (x : json) l (ss : list string) :
  length ss = length (x :: l) -> exists s ss', ss = s :: ss'.
Proof. destruct ss as [|s ss]; [done|eauto]. Qed.

(** *** Sorting port numbers *)
Fixpoint insert_z (x : Z) (l : list Z) : list Z :=
  match l with
  | [] => [x]
  | y :: l' => if y <? x then y :: insert_z x l' else x :: l
  end.

Definition sort_z (l : list Z) : list Z := fold_right insert_z [] l.

Lemma insert_json_ints x l : insert_json (JInt x) (map JInt l) = Ok (map JInt (insert_z x l)).
Proof.
  induction l as [|y l IH]; cbn; [done|]. destruct (y <? x); cbn; [by rewrite IH|done].
Qed.

Lemma sorted_json_ints l : sorted_json (map JInt l) = Ok (map JInt (sort_z l)).
Proof. induction l as [|x l IH]; cbn; [done|]. by rewrite IH, <- insert_json_ints. Qed.

Lemma insert_json_perm x l l' : insert_json x l = Ok l' -> l' ≡ₚ x :: l.
Proof.
  revert l'. induction l as [|y l IH]; intros l' H; cbn in H; py_inv; [done|].
  destruct x0; py_inv; [|done]. rewrite (IH _ Hx0). constructor.
Qed.

Lemma sorted_json_perm l l' : sorted_json l = Ok l' -> l' ≡ₚ l.
Proof.
  revert l'. induction l as [|x l IH]; intros l' H; cbn in H; py_inv; [done|].
  rewrite (insert_json_perm _ _ _ H). by rewrite (IH _ Hx).
Qed.

Lemma insert_z_sorted x l : StronglySorted Z.le l -> StronglySorted Z.le (insert_z x l).
Proof.
  induction 1 as [|y l Hl IH Hy]; cbn; [repeat constructor|].
  destruct (Z.ltb_spec y x).
  - constructor; [done|]. assert (insert_z x l ≡ₚ x :: l) as ->.
    { clear. induction l as [|z l IH]; cbn; [done|]. destruct (z <? x); [|done].
      rewrite IH. constructor. }
    constructor; [lia|done].
  - constructor; [by constructor|]. constructor; [lia|].
    eapply Forall_impl; [exact Hy|]. intros; lia.
Qed.

Lemma sort_z_id l : StronglySorted Z.le l -> sort_z l = l.
Proof.
  induction 1 as [|x l Hl IH Hx]; cbn; [done|]. unfold sort_z in IH. rewrite IH.
  destruct Hx as [|y l Hy _]; cbn; [done|]. by destruct (Z.ltb_spec y x); [lia|].
Qed.

Lemma sort_z_sorted l : StronglySorted Z.le (sort_z l).
Proof. induction l; cbn; [constructor|]. by apply insert_z_sorted. Qed.

Lemma mapM_port_of l ns : mapM port_of l = Some ns ->
  l = map JInt ns /\ Forall (fun n => port_of (JInt n) = Some n) ns.
Proof.
  intros H%mapM_Some. induction H as [|v n l ns Hv _ [-> IH]]; [done|].
  assert (v = JInt n) as ->.
  { destruct v; try done. cbn in Hv. destruct (_ && _); naive_solver. }
  split; [done|]. by constructor.
Qed.

Lemma map_JInt_perm l ns : l ≡ₚ map JInt ns -> exists ms, l = map JInt ms.
Proof.
  intros H. assert (Forall (fun v => exists n, v = JInt n) l) as Hl.
  { rewrite H. apply Forall_map, Forall_true. cbn. eauto. }
  clear H. induction Hl as [|v l [n ->] _ [ms ->]]; [by exists []|by exists (n :: ms)].
Qed.

Lemma ports_sorted l ports ns :
  sorted_json l = Ok ports -> mapM port_of ports = Some ns ->
  sorted_json (map JInt ns) = Ok (map JInt ns) /\ mapM port_of (map JInt ns) = Some ns.
Proof.
  intros Hl Hns. pose proof (sorted_json_perm _ _ Hl) as Hp.
  apply mapM_port_of in Hns as [-> Hns]. split.
  - destruct (map_JInt_perm l ns) as [ms ->]; [done|]. rewrite sorted_json_ints in Hl.
    injection Hl as Hl. rewrite <- Hl, sorted_json_ints, sort_z_id; [done|]. apply sort_z_sorted.
  - apply mapM_Some. clear -Hns. induction Hns; cbn; by constructor.
Qed.

Lemma map_JInt_length l ns : mapM port_of l = Some ns -> length ns = length l.
Proof. intros H. by rewrite (length_mapM _ _ _ H). Qed.

(** *** One scope key *)
Lemma scope_strings_idemp (f : json -> result string) ss :
  (forall s, s ∈ ss -> f (JStr s) = Ok s) -> map_r f (map JStr (sorted_str ss)) = Ok (sorted_str ss).
Proof.
  intros Hf. apply map_r_jstrs, Forall_forall. intros s Hs. rewrite elem_of_sorted_str in Hs. by apply Hf.
Qed.

Lemma scope_domains_idemp ss :
  existsb (fun d => negb (re_domain d)) (sorted_str ss) = false ->
  Forall (fun s => exists s0, s = py_lower s0) ss ->
  map_r (fun d => s ← _string d "scope.domains[]"; Ok (py_lower s)) (map JStr (sorted_str ss))
  = Ok (sorted_str ss).
Proof.
  intros Hre Hlow. apply map_r_jstrs. apply Forall_sorted_str. rewrite Forall_forall in Hlow |- *.
  intros s Hs. destruct (Hlow s Hs) as [s0 ->].
  assert (re_domain (py_lower s0) = true) as Hd.
  { destruct (re_domain (py_lower s0)) eqn:E; [done|]. exfalso.
    assert (existsb (fun d => negb (re_domain d)) (sorted_str ss) = true) as Ht; [|congruence].
    apply existsb_exists. exists (py_lower s0). rewrite E. split; [|done].
    apply list_elem_of_In. by apply elem_of_sorted_str. }
  apply re_domain_solid in Hd as [Hd Hne].
  rewrite (proj2 (_string_ok _ _ (py_lower s0))) by (by split; [|apply good_string_solid]).
  cbn. by rewrite py_lower_idemp.
Qed.

Lemma sorted_str_cons x (l : list json) ss :
  length ss = length (x :: l) -> exists s ss', sorted_str ss = s :: ss'.
Proof.
  intros Hl. apply (jstrs_nonempty x l). by rewrite sorted_str_perm.
Qed.

Lemma scope_item_idemp key item v : scope_item key item = Ok v ->
  scope_item key v = Ok v /\ normalize v = v.
Proof.
  unfold scope_item.
  destruct (String.eqb key "repository").
  { intros H. py_inv. apply _string_ok in Hx as [-> Hx]. split; [|done].
    rewrite (proj2 (_string_ok _ _ x)) by done. cbn. by rewrite Hx0. }
  destruct (String.eqb key "domains").
  { destruct item as [| | | |[|i l]|]; try done. intros H. py_inv.
    apply orb_false_iff in Hx0 as [Hd Hre].
    pose proof Hx as Hlow. apply (map_r_strings _ (fun s => exists s0, s = py_lower s0)) in Hlow
      as [Hlow Hlen]; [|intros v s Hs; py_inv; eauto].
    destruct (sorted_str_cons i l x Hlen) as (s & ss' & E).
    split; [|apply normalize_jstrs]. unfold jstrs at 1. rewrite E. cbn [map].
    change (JStr s :: map JStr ss') with (map JStr (s :: ss')). rewrite <- E.
    rewrite scope_domains_idemp by done. cbn. rewrite sorted_str_idemp, Hd, Hre. done. }
  destruct (String.eqb key "ports").
  { destruct item as [| | | |[|i l]|]; try done. intros H. py_inv.
    destruct (mapM port_of x) as [ns|] eqn:Ens; [|done]. py_inv.
    destruct (ports_sorted _ _ _ Hx Ens) as [Hs Hm].
    assert (exists n ns', ns = n :: ns') as (n & ns' & ->).
    { apply sorted_json_perm in Hx. apply map_JInt_length in Ens. rewrite Hx in Ens.
      destruct ns; [done|eauto]. }
    split; [|by cbn; rewrite map_map].
    cbn [map]. change (JInt n :: map JInt ns') with (map JInt (n :: ns')).
    rewrite Hs. cbn -[mapM map]. rewrite Hm. by rewrite Hx0. }
  destruct (String.eqb key "max_children").
  { intros H. py_inv. split; [|done]. apply _int_ok in Hx as [-> Hx].
    by rewrite (proj2 (_int_ok _ _ _ x)). }
  assert (forall name s, _string (JStr s) name = Ok s ->
    (s' ← _string (JStr s) name; Ok (JStr s')) = Ok (JStr s)) as Hstr by (by intros ?? ->).
  destruct item as [| | | |[|i l]|]; try (intros H; py_inv; done).
  { intros H. py_inv. split; [|done]. apply _string_ok in Hx as [[= ->] Hx].
    apply Hstr. by apply _string_ok. }
  intros H. py_inv.
  pose proof Hx as Hg. apply (map_r_strings _ (fun s => good_string s = true)) in Hg
    as [Hg Hlen]; [|by intros v s [_ ?]%(_string_ok v _ s)].
  destruct (sorted_str_cons i l x Hlen) as (s & ss' & E).
  split; [|apply normalize_jstrs]. unfold jstrs at 1. rewrite E. cbn [map].
  change (JStr s :: map JStr ss') with (map JStr (s :: ss')). rewrite <- E.
  rewrite scope_strings_idemp.
  - cbn. rewrite sorted_str_idemp. apply has_dups_false in Hx0.
    by rewrite (proj2 (has_dups_false _)) by (by apply NoDup_sorted_str).
  - rewrite Forall_forall in Hg. intros y Hy. apply _string_ok. by split; [|apply Hg].
Qed.

(** *** Whole scopes *)

(** A scope in the form [validate_scope] produces. *)
Definition scope_wf (t : string) (s : dict) : Prop :=
  validate_scope t (JObj s) = Ok s /\ normalize (JObj s) = JObj s.

Lemma sorted_diff_nil a b : sorted_diff a b = [] <-> (forall x, x ∈ a -> x ∈ b).
Proof.
  unfold sorted_diff. split.
  - intros H%sorted_set_nil x Hx. destruct (mem x b) eqn:E; [by apply mem_true|].
    assert (x ∈ List.filter (fun x => negb (mem x b)) a) as Hf; [|rewrite H in Hf; inversion Hf].
    apply list_elem_of_In, filter_In. rewrite E. split; [|done]. by apply list_elem_of_In.
  - intros H. assert (List.filter (fun x => negb (mem x b)) a = []) as ->; [|done].
    destruct (List.filter _ a) as [|x l] eqn:E; [done|].
    assert (In x (x :: l)) as Hx by (by left). rewrite <- E in Hx. apply filter_In in Hx as [Hx Hn].
    apply list_elem_of_In in Hx. apply negb_true_iff, mem_false in Hn. by apply H in Hx.
Qed.

Lemma validate_scope_items raw (items : dict) :
  map_r (fun kv => v ← scope_item (fst kv) (snd kv); Ok (fst kv, v)) raw = Ok items ->
  dict_keys items = dict_keys raw
  /\ Forall (fun kv => scope_item kv.1 kv.2 = Ok kv.2 /\ normalize kv.2 = kv.2) items.
Proof.
  intros H%map_r_ok. induction H as [|[k v] [k' v'] raw items Hkv _ [IH1 IH2]]; [done|].
  cbn in *. py_inv. split; [by f_equal|]. constructor; [|done]. cbn. by eapply scope_item_idemp.
Qed.

Lemma validate_scope_wf t value s : validate_scope t value = Ok s -> scope_wf t s.
Proof.
  unfold validate_scope. intros H. py_inv. destruct value as [| | | | |raw]; try done.
  cbn in Hx. py_inv. destruct (allowed_by_type t) as [allowed|] eqn:Ha; [|done]. py_inv.
  apply validate_scope_items in Hx1 as [Hk Hi].
  assert (forall k, k ∈ dict_keys (sorted_on fst x2) <-> k ∈ dict_keys x) as Hkeys.
  { intros k. rewrite <- Hk. unfold dict_keys. by rewrite sorted_on_perm. }
  apply negb_false_iff, bool_decide_eq_true in Hx.
  apply bool_decide_eq_false in Hx0.
  assert (Forall (fun kv => scope_item kv.1 kv.2 = Ok kv.2 /\ normalize kv.2 = kv.2)
            (sorted_on fst x2)) as Hi' by (by rewrite sorted_on_perm).
  split.
  - unfold validate_scope. cbn [_mapping]. rewrite bind_Ok, Ha. cbv zeta.
    assert (sorted_diff (dict_keys (sorted_on fst x2)) allowed = []) as ->.
    { rewrite sorted_diff_nil in Hx |- *. intros k Hin. by apply Hx, Hkeys. }
    rewrite (bool_decide_eq_false_2 (dict_keys (sorted_on fst x2) = [])).
    2: { intros E. apply Hx0. destruct (dict_keys x) as [|k ks] eqn:Ek; [done|].
         assert (k ∈ dict_keys (sorted_on fst x2)) as Hin by (apply Hkeys; left).
         rewrite E in Hin. inversion Hin. }
    cbn -[map_r]. rewrite (proj2 (map_r_ok _ _ (sorted_on fst x2))).
    + cbn. by rewrite (sorted_on_id fst (sorted_on fst x2)) by apply sorted_on_sorted.
    + clear -Hi'. induction Hi' as [|[k v] l [Hv _] _ IH]; constructor; [|done].
      cbn in *. by rewrite Hv.
  - cbn. f_equal.
    assert (map (fun kv => (kv.1, normalize kv.2)) (sorted_on fst x2) = sorted_on fst x2) as ->.
    { clear -Hi'. induction Hi' as [|[k v] l [_ Hv] _ IH]; cbn in *; [done|]. by rewrite Hv, IH. }
    apply sorted_on_id, sorted_on_sorted.
Qed.

(** ** Reading fields *)
Lemma _string_field v name s : v = JStr s -> good_string s = true -> _string v name = Ok s.
Proof. intros. by apply _string_ok. Qed.

Lemma _identifier_field v name s : v = JStr s -> re_ident s = true -> _identifier v name = Ok s.
Proof. intros. by apply _identifier_ok. Qed.

Lemma _sha_field v name s : v = JStr s -> re_sha s = true -> _sha v name = Ok s.
Proof. intros ->. apply _sha_complete. Qed.

Lemma _time_field v name z : v = JInt z -> 0 <= z -> _time v name = Ok z.
Proof. intros. by apply _time_ok. Qed.

Lemma _int_field v name m z : v = JInt z -> m <= z -> _int v name m = Ok z.
Proof. intros. by apply _int_ok. Qed.

Lemma _bool_field v name b : v = JBool b -> _bool v name = Ok b.
Proof. intros. by apply _bool_ok. Qed.

Lemma optional_identifier_field v name o :
  v = jopt o -> (forall s, o = Some s -> re_ident s = true) ->
  optional (fun v => _identifier v name) v = Ok o.
Proof.
  intros -> Ho. destruct o as [s|]; [|done]. cbn -[_identifier].
  by rewrite (_identifier_field _ name s eq_refl (Ho s eq_refl)).
Qed.

Lemma optional_sha_field v name o :
  v = jopt o -> (forall s, o = Some s -> re_sha s = true) ->
  optional (fun v => _sha v name) v = Ok o.
Proof.
  intros -> Ho. destruct o as [s|]; [|done]. cbn -[_sha].
  by rewrite (_sha_field _ name s eq_refl (Ho s eq_refl)).
Qed.

Lemma raise_if_false b c msg : b = false -> raise_if b c msg = Ok tt.
Proof. by intros ->. Qed.

Lemma mem_type_good t : mem t CAPABILITY_TYPES = true -> good_string t = true.
Proof.
  intros H%mem_true. revert t H. apply Forall_forall. by repeat constructor.
Qed.

Lemma optional_identifier_sound v name o :
  optional (fun v => _identifier v name) v = Ok o ->
  v = jopt o /\ forall s, o = Some s -> re_ident s = true.
Proof.
  intros [[-> ->]|(_ & a & Ha & ->)]%optional_ok; [done|].
  apply _identifier_ok in Ha as [-> Ha]. split; [done|]. by intros s [= <-].
Qed.

Lemma optional_sha_sound v name o :
  optional (fun v => _sha v name) v = Ok o -> forall s, o = Some s -> re_sha s = true.
Proof.
  intros [[-> ->]|(_ & a & Ha & ->)]%optional_ok; [done|].
  apply _sha_sound in Ha. by intros s [= <-].
Qed.

(** Turn the checks a validator has passed into facts. *)
Ltac validated :=
  repeat match goal with
  | Hb : negb _ = false |- _ => apply negb_false_iff in Hb
  | Hb : negb _ = true |- _ => apply negb_true_iff in Hb
  | Hb : _ && _ = true |- _ => apply andb_true_iff in Hb as [? ?]
  | Hb : _ || _ = false |- _ => apply orb_false_iff in Hb as [? ?]
  | Hb : (_ <=? _) = true |- _ => apply Z.leb_le in Hb
  | Hb : (_ <? _) = true |- _ => apply Z.ltb_lt in Hb
  | Hb : (_ <? _) = false |- _ => apply Z.ltb_ge in Hb
  | Hb : String.eqb _ _ = true |- _ => apply String.eqb_eq in Hb
  | Hb : bool_decide _ = true |- _ => apply bool_decide_eq_true in Hb
  | Hb : bool_decide _ = false |- _ => apply bool_decide_eq_false in Hb
  | Hb : _time _ _ = Ok _ |- _ => apply _time_ok in Hb as [? ?]
  | Hb : _int _ _ _ = Ok _ |- _ => apply _int_ok in Hb as [? ?]
  | Hb : _bool _ _ = Ok _ |- _ => apply _bool_ok in Hb
  | Hb : _identifier _ _ = Ok _ |- _ => apply _identifier_ok in Hb as [? ?]
  | Hb : _string _ _ = Ok _ |- _ => apply _string_ok in Hb as [? ?]
  | Hb : _sha _ _ = Ok _ |- _ => apply _sha_sound in Hb
  | Hb : validate_scope _ _ = Ok _ |- _ => apply validate_scope_wf in Hb
  | Hb : optional (fun v => _identifier v _) _ = Ok _ |- _ =>
      apply optional_identifier_sound in Hb as [? ?]
  | Hb : optional (fun v => _sha v _) _ = Ok _ |- _ =>
      pose proof (optional_sha_sound _ _ _ Hb); clear Hb
  | Hb : _sorted_unique_strings _ _ = Ok _ |- _ =>
      apply _sorted_unique_strings_sound in Hb as (? & ? & ?)
  end.

Lemma mem_event_type_good t :
  mem t (CAPABILITY_EVENTS ++ ["runtime_action"; "objective_violation"; "containment_transition"])
  = true -> good_string t = true.
Proof. intros H%mem_true. revert t H. apply Forall_forall. by repeat constructor. Qed.

Lemma mem_effect_good t : mem t EFFECTS = true -> good_string t = true.
Proof. intros H%mem_true. revert t H. apply Forall_forall. by repeat constructor. Qed.

Lemma mem_decision_good t : mem t DECISIONS = true -> good_string t = true.
Proof. intros H%mem_true. revert t H. apply Forall_forall. by repeat constructor. Qed.

Lemma sorted_unique_field v name l :
  v = jstrs l -> Forall (fun s => re_ident s = true) l -> NoDup l -> sorted_str l = l ->
  _sorted_unique_strings v name = Ok l.
Proof. intros ->. apply _sorted_unique_strings_complete. Qed.

(** *** The values of a validated scope *)
Definition scope_value (key : string) (v : json) : Prop :=
  if String.eqb key "max_children" then exists n, v = JInt n
  else (exists s, v = JStr s) \/ (exists l, v = jstrs l) \/ (exists ns, v = JList (map JInt ns)).

Lemma scope_item_value key item v : scope_item key item = Ok v -> scope_value key v.
Proof.
  unfold scope_item, scope_value.
  destruct (String.eqb_spec key "max_children") as [->|]; [intros H; cbn in H; py_inv; eauto|].
  destruct (String.eqb key "repository"); [intros H; py_inv; eauto|].
  destruct (String.eqb key "domains").
  { destruct item as [| | | |[|i l]|]; try done. intros H. py_inv. eauto. }
  destruct (String.eqb key "ports").
  { destruct item as [| | | |[|i l]|]; try done. intros H. py_inv.
    destruct (mapM port_of x) as [ns|]; [|done]. py_inv. eauto. }
  destruct item as [| | | |[|i l]|]; intros H; py_inv; try done; eauto.
Qed.

Lemma scope_wf_values t s : scope_wf t s -> Forall (fun kv => scope_value kv.1 kv.2) s.
Proof.
  intros [H _]. unfold validate_scope in H. py_inv. cbn in Hx. py_inv.
  destruct (allowed_by_type t); [|done]. py_inv.
  match goal with Hm : map_r _ _ = Ok ?l |- _ => apply map_r_ok in Hm; rename Hm into Hl end.
  rewrite sorted_on_perm. clear -Hl. induction Hl as [|[k v] [k' v'] l l' Hkv _ IH]; constructor; [|done].
  cbn in Hkv. py_inv. by eapply scope_item_value.
Qed.

(** *** The values of a scope, in order

    Every list is strictly increasing, and the order in which a request gives the values
    of a list, or its keys, does not matter. *)
Definition ordered_value (v : json) : Prop :=
  match v with
  | JList l =>
      (exists ss, l = map JStr ss /\ StronglySorted (fun a b => String.le a b /\ a <> b) ss)
      \/ (exists ns, l = map JInt ns /\ StronglySorted Z.lt ns)
  | JStr _ | JInt _ => True
  | _ => False
  end.

Lemma strictly_sorted {A} (R : A -> A -> Prop) l :
  StronglySorted R l -> NoDup l -> StronglySorted (fun a b => R a b /\ a <> b) l.
Proof.
  induction 1 as [|x l Hl IH Hx]; intros Hd; constructor; inversion Hd; subst; [by apply IH|].
  rewrite Forall_forall in Hx |- *. intros y Hy. split; [by apply Hx|]. by intros ->.
Qed.

Lemma strictly_sorted_str ss : NoDup ss ->
  StronglySorted (fun a b => String.le a b /\ a <> b) (sorted_str ss).
Proof. intros Hd. apply strictly_sorted; [apply sorted_str_sorted|by apply NoDup_sorted_str]. Qed.

Lemma strictly_sorted_z ns : NoDup ns -> StronglySorted Z.le ns -> StronglySorted Z.lt ns.
Proof.
  intros Hd Hs. apply (strictly_sorted _ _ Hs) in Hd. clear Hs.
  induction Hd as [|x l Hl IH Hx]; constructor; [done|]. eapply Forall_impl; [exact Hx|]. cbn. lia.
Qed.

Lemma map_JInt_inj ns ms : map JInt ns = map JInt ms -> ns = ms.
Proof.
  revert ms. induction ns as [|n ns IH]; intros [|m ms]; try done. intros [= -> H]. f_equal. by apply IH.
Qed.

Lemma ports_in_order l ports ns :
  sorted_json l = Ok ports -> mapM port_of ports = Some ns ->
  exists ms, l = map JInt ms /\ ns = sort_z ms.
Proof.
  intros Hl Hns. pose proof (sorted_json_perm _ _ Hl) as Hp.
  apply mapM_port_of in Hns as [-> _]. destruct (map_JInt_perm l ns) as [ms ->]; [done|].
  exists ms. split; [done|]. rewrite sorted_json_ints in Hl. injection Hl as Hl.
  symmetry. by apply map_JInt_inj in Hl.
Qed.

Lemma scope_item_ordered key item v : scope_item key item = Ok v -> ordered_value v.
Proof.
  unfold scope_item. destruct (String.eqb key "repository"); [by intros H; py_inv|].
  destruct (String.eqb key "domains").
  { destruct item as [| | | |[|i l]|]; try done. intros H. py_inv. left. eexists. split; [done|].
    apply orb_false_iff in Hx0 as [Hd%has_dups_false _]. apply strictly_sorted_str. by apply NoDup_sorted_str. }
  destruct (String.eqb key "ports").
  { destruct item as [| | | |[|i l]|]; try done. intros H. py_inv.
    destruct (mapM port_of x) as [ns|] eqn:Ens; [|done]. py_inv. right. exists ns. split; [done|].
    apply negb_false_iff, bool_decide_eq_true in Hx0. apply strictly_sorted_z; [done|].
    destruct (ports_in_order _ _ _ Hx Ens) as (ms & _ & ->). apply sort_z_sorted. }
  destruct (String.eqb key "max_children"); [by intros H; py_inv|].
  destruct item as [| | | |[|i l]|]; try (by intros H; py_inv). intros H. py_inv.
  left. eexists. split; [done|]. by apply strictly_sorted_str, has_dups_false.
Qed.

Lemma map_r_perm {A B} (g : A -> result B) l l' r : l ≡ₚ l' -> map_r g l = Ok r ->
  exists r', map_r g l' = Ok r' /\ r ≡ₚ r'.
Proof.
  intros Hp H. apply map_r_ok in H. destruct (Permutation_Forall2 Hp H) as (r' & Hr & Hf).
  exists r'. split; [by apply map_r_ok|done].
Qed.

Lemma sort_z_unique ms ms' : ms ≡ₚ ms' -> sort_z ms = sort_z ms'.
Proof.
  intros H. apply (StronglySorted_unique Z.le); [apply sort_z_sorted..|].
  assert (forall l, map JInt (sort_z l) ≡ₚ map JInt l) as Hs
    by (intros l; apply sorted_json_perm; apply sorted_json_ints).
  assert (forall l, sort_z l ≡ₚ l) as Hz.
  { intros l. destruct (Permutation_map_inv JInt _ (Hs l)) as (l' & E & Hl). by apply map_JInt_inj in E as ->. }
  by rewrite !Hz.
Qed.

Lemma scope_item_order key l l' v : l ≡ₚ l' ->
  scope_item key (JList l) = Ok v -> scope_item key (JList l') = Ok v.
Proof.
  intros Hp. unfold scope_item. destruct (String.eqb key "repository"); [by intros H; py_inv|].
  assert (forall i m, l = i :: m -> exists i' m', l' = i' :: m') as Hne.
  { intros i m ->. destruct l' as [|i' m']; [symmetry in Hp; by apply Permutation_nil_cons in Hp|eauto]. }
  destruct (String.eqb key "domains").
  { destruct l as [|i m]; [done|]. destruct (Hne _ _ eq_refl) as (i' & m' & ->). intros H. py_inv.
    destruct (map_r_perm _ _ _ _ Hp Hx) as (x' & -> & Hx'). rewrite bind_Ok. cbv zeta.
    rewrite <- (sorted_str_unique _ _ Hx'). by rewrite Hx0. }
  destruct (String.eqb key "ports").
  { destruct l as [|i m]; [done|]. destruct (Hne _ _ eq_refl) as (i' & m' & ->). intros H. py_inv.
    destruct (mapM port_of x) as [ns|] eqn:Ens; [|done]. py_inv.
    destruct (ports_in_order _ _ _ Hx Ens) as (ms & E & ->). rewrite E in Hp, Hx.
    destruct (map_JInt_perm (i' :: m') ms) as [ms' E']; [done|]. rewrite E' in Hp |- *.
    rewrite sorted_json_ints in Hx |- *. injection Hx as <-. rewrite bind_Ok.
    assert (sort_z ms' = sort_z ms) as ->; [|by rewrite Ens, Hx0].
    symmetry. apply sort_z_unique.
    destruct (Permutation_map_inv JInt _ Hp) as (l' & El & Hl). by apply map_JInt_inj in El as ->. }
  destruct (String.eqb key "max_children"); [by intros H; py_inv|].
  destruct l as [|i m]; [by intros H; py_inv|]. destruct (Hne _ _ eq_refl) as (i' & m' & ->). intros H. py_inv.
  destruct (map_r_perm _ _ _ _ Hp Hx) as (x' & -> & Hx'). rewrite bind_Ok.
  rewrite (sorted_str_unique _ _ Hx').
  apply has_dups_false in Hx0. rewrite Hx' in Hx0. by rewrite (proj2 (has_dups_false _) Hx0).
Qed.

(** Two requests for the same scope: the values of a list may come in any order. *)
Definition same_item (a b : string * json) : Prop :=
  fst a = fst b
  /\ (snd a = snd b \/ exists l l', snd a = JList l /\ snd b = JList l' /\ l ≡ₚ l').

Definition same_request (raw raw' : dict) : Prop :=
  exists raw1, raw ≡ₚ raw1 /\ Forall2 same_item raw1 raw'.

Lemma validate_scope_ordered t v s : validate_scope t v = Ok s ->
  Forall (fun kv => ordered_value (snd kv)) s.
Proof.
  unfold validate_scope. intros H. py_inv. destruct (allowed_by_type t); [|done]. py_inv.
  match goal with Hm : map_r _ _ = Ok _ |- _ => apply map_r_ok in Hm; rename Hm into Hl end.
  rewrite sorted_on_perm. clear -Hl. induction Hl as [|[k v] [k' v'] l l' Hkv _ IH]; constructor; [|done].
  cbn in Hkv |- *. py_inv. by eapply scope_item_ordered.
Qed.

Lemma scope_entry_order a b kv : same_item a b ->
  (v ← scope_item (fst a) (snd a); Ok (fst a, v)) = Ok kv ->
  (v ← scope_item (fst b) (snd b); Ok (fst b, v)) = Ok kv.
Proof.
  destruct a as [k v], b as [k' v']. intros [E Hv]. cbn in *. subst k'.
  destruct Hv as [->|(l & l' & -> & -> & Hp)]; [done|]. intros H. py_inv.
  by rewrite (scope_item_order k l l' _ Hp Hx).
Qed.

Lemma validate_scope_order t raw raw' s : NoDup (dict_keys raw) -> same_request raw raw' ->
  validate_scope t (JObj raw) = Ok s -> validate_scope t (JObj raw') = Ok s.
Proof.
  intros Hnd (raw1 & Hp & Hf) H. unfold validate_scope in *. cbn [_mapping] in *. rewrite bind_Ok in *.
  destruct (allowed_by_type t) as [allowed|]; [|done]. cbv zeta in *. py_inv.
  match goal with Hm : map_r _ raw = Ok ?l |- _ => rename Hm into Hl, l into items end.
  match goal with Hb : negb _ = false |- _ => apply negb_false_iff, bool_decide_eq_true in Hb; rename Hb into Hd end.
  assert (dict_keys raw1 = dict_keys raw') as Hkeys.
  { clear -Hf. induction Hf as [|a b l l' [E _] _ IH]; [done|]. unfold dict_keys in *. cbn. by rewrite E, IH. }
  assert (dict_keys raw ≡ₚ dict_keys raw') as Hk by (rewrite <- Hkeys; unfold dict_keys; by rewrite Hp).
  rewrite (proj2 (sorted_diff_nil (dict_keys raw') allowed)).
  2: { intros k Hin. rewrite <- Hk in Hin. by apply (proj1 (sorted_diff_nil _ _) Hd). }
  rewrite (bool_decide_eq_false_2 (dict_keys raw' = [])).
  2: { intros E. rewrite E in Hk. apply Permutation_nil_r in Hk.
       by match goal with Hb : bool_decide (dict_keys raw = []) = false |- _ =>
         apply bool_decide_eq_false in Hb; destruct Hb end. }
  cbn -[map_r]. destruct (map_r_perm _ _ _ _ Hp Hl) as (items' & Hl' & Hi).
  rewrite (proj2 (map_r_ok _ raw' items')).
  - cbn. f_equal. symmetry. apply sorted_on_unique; [done|].
    assert (map fst items = dict_keys raw) as ->; [|done].
    exact (proj1 (validate_scope_items _ _ Hl)).
  - apply map_r_ok in Hl'. clear -Hl' Hf. revert items' Hl'.
    induction Hf as [|a b l l' Hab _ IH]; intros items' H; inversion H; subst; constructor; [|by apply IH].
    by eapply scope_entry_order.
Qed.

(** ** Capability contracts *)
Section contracts.
Context {hash : Digest}.

(** Everything [from_document] guarantees about a contract. *)
Record contract_wf (c : CapabilityContract) : Prop := {
  cwf_id : re_ident (cc_capability_id c) = true;
  cwf_type : mem (cc_capability_type c) CAPABILITY_TYPES = true;
  cwf_subject : re_ident (cc_subject_id c) = true;
  cwf_issuer : re_ident (cc_issuer_id c) = true;
  cwf_scope : scope_wf (cc_capability_type c) (cc_scope c);
  cwf_issued : 0 <= cc_issued_at_unix c;
  cwf_not_before : cc_issued_at_unix c <= cc_not_before_unix c;
  cwf_expires : cc_not_before_unix c < cc_expires_at_unix c;
  cwf_uses : 1 <= cc_max_uses c <= 1000;
  cwf_delegable : cc_delegable c = true -> cc_parent_capability_id c <> None;
  cwf_parent : forall p, cc_parent_capability_id c = Some p -> re_ident p = true;
  cwf_policy : re_sha (cc_policy_sha256 c) = true;
  cwf_digest : cc_contract_sha256 c = canonical_sha256 (JObj (CapabilityContract_body c))
}.

Lemma contract_from_document_wf v c :
  CapabilityContract_from_document v = Ok c -> contract_wf c.
Proof.
  unfold CapabilityContract_from_document. intros H0. py_inv. validated.
  constructor; cbn; try done; try lia.
  - intros ->. match goal with Hb : _ && bool_decide _ = false |- _ =>
      by apply bool_decide_eq_false in Hb end.
Qed.

Lemma contract_keys_nodup c : NoDup (dict_keys (CapabilityContract_body c)).
Proof. cbn. by apply (bool_decide_eq_true_1 _). Qed.

(** A well-formed contract is read back unchanged. *)
Lemma contract_roundtrip c : contract_wf c ->
  CapabilityContract_from_document (JObj (CapabilityContract_as_document c)) = Ok c.
Proof.
  intros [Hid Hty Hsub Hiss [Hsc _] Hi Hnb Hex Hu Hd Hp Hpol Hdig].
  unfold CapabilityContract_from_document.
  rewrite (eq_refl : _mapping (JObj (CapabilityContract_as_document c)) "capability"
                     = Ok (CapabilityContract_as_document c)), bind_Ok.
  replace (_exact (CapabilityContract_as_document c) capability_keys "capability")
    with (Ok tt) by (by vm_compute).
  replace (envelope_ok (CapabilityContract_as_document c) CAPABILITY_SCHEMA AUTHORITY)
    with true by (by vm_compute).
  rewrite bind_Ok, raise_if_false, bind_Ok by done. cbv zeta.
  rewrite (_string_field _ "capability_type" (cc_capability_type c)), bind_Ok by eauto using mem_type_good.
  rewrite Hty. rewrite raise_if_false, bind_Ok by done.
  rewrite (_time_field _ "issued_at_unix" (cc_issued_at_unix c)), bind_Ok by done.
  rewrite (_time_field _ "not_before_unix" (cc_not_before_unix c)), bind_Ok by (done || lia).
  rewrite (_time_field _ "expires_at_unix" (cc_expires_at_unix c)), bind_Ok by (done || lia).
  rewrite raise_if_false, bind_Ok by lia.
  rewrite (_int_field _ "max_uses" _ (cc_max_uses c)), bind_Ok by (done || lia).
  rewrite raise_if_false, bind_Ok by lia.
  rewrite (_bool_field _ "delegable" (cc_delegable c)), bind_Ok by done.
  rewrite (optional_identifier_field _ "parent_capability_id" (cc_parent_capability_id c)), bind_Ok by done.
  rewrite raise_if_false, bind_Ok.
  2: { apply andb_false_iff. destruct (cc_delegable c); [right|by left].
       apply bool_decide_eq_false_2. by apply Hd. }
  rewrite (_identifier_field _ "capability_id" (cc_capability_id c)), bind_Ok by done.
  rewrite (_identifier_field _ "subject_id" (cc_subject_id c)), bind_Ok by done.
  rewrite (_identifier_field _ "issuer_id" (cc_issuer_id c)), bind_Ok by done.
  rewrite (eq_refl : dict_get_none (CapabilityContract_as_document c) "scope" = JObj (cc_scope c)).
  rewrite Hsc, bind_Ok.
  rewrite (_sha_field _ "policy_sha256" (cc_policy_sha256 c)), bind_Ok by done.
  rewrite (_sha_field _ "contract_sha256" (cc_contract_sha256 c)), bind_Ok
    by (try done; rewrite Hdig; apply canonical_sha256_sha).
  destruct c as [id ty sub iss sc iat nbf exp mu de pa po dg]. cbn [cc_contract_sha256] in Hdig |- *.
  cbn [cc_capability_id cc_capability_type cc_subject_id cc_issuer_id cc_scope cc_issued_at_unix
       cc_not_before_unix cc_expires_at_unix cc_max_uses cc_delegable cc_parent_capability_id
       cc_policy_sha256].
  rewrite raise_if_false, bind_Ok; [done|]. apply negb_false_iff, String.eqb_eq. by rewrite Hdig.
Qed.

(** Contracts with the same digest are the same contract, unless the digest
    function collides on their bodies. *)
Lemma contract_digest_binding c1 c2 : contract_wf c1 -> contract_wf c2 ->
  no_collision (JObj (CapabilityContract_body c1)) (JObj (CapabilityContract_body c2)) ->
  cc_contract_sha256 c1 = cc_contract_sha256 c2 -> c1 = c2.
Proof.
  intros H1 H2 Hnc Hd. pose proof Hd as Hd'.
  rewrite (cwf_digest _ H1), (cwf_digest _ H2) in Hd'.
  apply no_collision_equiv in Hd'; [|done].
  pose proof (fun k => json_equiv_field _ _ k Hd' (contract_keys_nodup c1) (contract_keys_nodup c2)) as Hf.
  pose proof (proj2 (cwf_scope _ H1)) as Hs1. pose proof (proj2 (cwf_scope _ H2)) as Hs2.
  pose proof (Hf "scope") as Fscope. cbn -[normalize] in Fscope. rewrite Hs1, Hs2 in Fscope.
  pose proof (Hf "parent_capability_id") as Fparent. cbn -[normalize] in Fparent.
  rewrite !normalize_jopt in Fparent.
  pose proof (Hf "capability_id") as F1. pose proof (Hf "capability_type") as F2.
  pose proof (Hf "subject_id") as F3. pose proof (Hf "issuer_id") as F4.
  pose proof (Hf "issued_at_unix") as F5. pose proof (Hf "not_before_unix") as F6.
  pose proof (Hf "expires_at_unix") as F7. pose proof (Hf "max_uses") as F8.
  pose proof (Hf "delegable") as F9. pose proof (Hf "policy_sha256") as F10. clear Hf Hs1 Hs2.
  injection Fparent as Fparent. apply (inj jopt) in Fparent.
  cbn in F1, F2, F3, F4, F5, F6, F7, F8, F9, F10.
  clear -Hd Fscope Fparent F1 F2 F3 F4 F5 F6 F7 F8 F9 F10.
  destruct c1, c2; cbn in *. by simplify_eq.
Qed.

(** ** Causal runtime events *)
Record event_wf (e : CausalRuntimeEvent) : Prop := {
  ewf_id : re_ident (ev_event_id e) = true;
  ewf_type : mem (ev_event_type e) (CAPABILITY_EVENTS
               ++ ["runtime_action"; "objective_violation"; "containment_transition"]) = true;
  ewf_subject : re_ident (ev_subject_id e) = true;
  ewf_capability : forall s, ev_capability_id e = Some s -> re_ident s = true;
  ewf_lifecycle : mem (ev_event_type e) CAPABILITY_EVENTS = true -> ev_capability_id e <> None;
  ewf_recorder_id : forall s, ev_recorder_event_id e = Some s -> re_ident s = true;
  ewf_recorder_sha : forall s, ev_recorder_entry_sha256 e = Some s -> re_sha s = true;
  ewf_recorder : ev_recorder_event_id e = None <-> ev_recorder_entry_sha256 e = None;
  ewf_effect : mem (ev_effect e) EFFECTS = true;
  ewf_decision : mem (ev_decision e) DECISIONS = true;
  ewf_observed : 0 <= ev_observed_at_unix e;
  ewf_previous : re_sha (ev_previous_causal_event_sha256 e) = true;
  ewf_input : re_sha (ev_input_sha256 e) = true;
  ewf_output : forall s, ev_output_sha256 e = Some s -> re_sha s = true;
  ewf_reasons : Forall (fun s => re_ident s = true) (ev_reason_codes e);
  ewf_reasons_nodup : NoDup (ev_reason_codes e);
  ewf_reasons_sorted : sorted_str (ev_reason_codes e) = ev_reason_codes e;
  ewf_reasons_some : ev_reason_codes e <> [];
  ewf_digest : ev_event_sha256 e = canonical_sha256 (JObj (CausalRuntimeEvent_body e))
}.

Lemma event_from_document_wf v e :
  CausalRuntimeEvent_from_document v = Ok e -> event_wf e.
Proof.
  unfold CausalRuntimeEvent_from_document. intros H0. py_inv. validated.
  constructor; try done;
    cbn [ev_event_type ev_capability_id ev_recorder_event_id ev_recorder_entry_sha256].
  - intros Ht. match goal with Hb : _ && bool_decide _ = false |- _ => rewrite Ht in Hb; cbn in Hb end.
    by validated.
  - match goal with Hb : Bool.eqb _ _ = true |- _ => apply Bool.eqb_prop in Hb; revert Hb end.
    repeat case_bool_decide; done.
Qed.

Lemma event_roundtrip e : event_wf e ->
  CausalRuntimeEvent_from_document (JObj (CausalRuntimeEvent_as_document e)) = Ok e.
Proof.
  intros [].
  unfold CausalRuntimeEvent_from_document.
  rewrite (eq_refl : _mapping (JObj (CausalRuntimeEvent_as_document e)) "causal_event"
                     = Ok (CausalRuntimeEvent_as_document e)), bind_Ok.
  replace (_exact (CausalRuntimeEvent_as_document e) causal_event_keys "causal_event")
    with (Ok tt) by (by vm_compute).
  replace (envelope_ok (CausalRuntimeEvent_as_document e) CAUSAL_EVENT_SCHEMA AUTHORITY)
    with true by (by vm_compute).
  rewrite bind_Ok, raise_if_false, bind_Ok by done. cbv zeta.
  rewrite (_string_field _ "event_type" (ev_event_type e)), bind_Ok by eauto using mem_event_type_good.
  rewrite ewf_type0, raise_if_false, bind_Ok by done.
  rewrite (_string_field _ "effect" (ev_effect e)), bind_Ok by eauto using mem_effect_good.
  rewrite ewf_effect0, raise_if_false, bind_Ok by done.
  rewrite (_string_field _ "decision" (ev_decision e)), bind_Ok by eauto using mem_decision_good.
  rewrite ewf_decision0, raise_if_false, bind_Ok by done.
  rewrite (optional_identifier_field _ "capability_id" (ev_capability_id e)), bind_Ok by done.
  rewrite raise_if_false, bind_Ok.
  2: { destruct (mem (ev_event_type e) CAPABILITY_EVENTS) eqn:E; [|done].
       apply bool_decide_eq_false_2. by apply ewf_lifecycle0. }
  rewrite (optional_identifier_field _ "recorder_event_id" (ev_recorder_event_id e)), bind_Ok by done.
  rewrite (optional_sha_field _ "recorder_entry_sha256" (ev_recorder_entry_sha256 e)), bind_Ok by done.
  rewrite raise_if_false, bind_Ok.
  2: { rewrite (bool_decide_ext _ _ ewf_recorder0), eqb_reflx. done. }
  rewrite (sorted_unique_field _ "reason_codes" (ev_reason_codes e)), bind_Ok by done.
  rewrite raise_if_false, bind_Ok by (by apply bool_decide_eq_false_2).
  rewrite (optional_sha_field _ "output_sha256" (ev_output_sha256 e)), bind_Ok by done.
  rewrite (_identifier_field _ "event_id" (ev_event_id e)), bind_Ok by done.
  rewrite (_identifier_field _ "subject_id" (ev_subject_id e)), bind_Ok by done.
  rewrite (_time_field _ "observed_at_unix" (ev_observed_at_unix e)), bind_Ok by done.
  rewrite (_sha_field _ "previous_causal_event_sha256" (ev_previous_causal_event_sha256 e)), bind_Ok by done.
  rewrite (_sha_field _ "input_sha256" (ev_input_sha256 e)), bind_Ok by done.
  rewrite (_sha_field _ "event_sha256" (ev_event_sha256 e)), bind_Ok
    by (try done; rewrite ewf_digest0; apply canonical_sha256_sha).
  rewrite raise_if_false, bind_Ok.
  - by destruct e.
  - apply negb_false_iff, String.eqb_eq. rewrite ewf_digest0. by destruct e.
Qed.

End contracts.

(** *** Building events *)
Section events.
Context {hash : Digest}.

(** The keyword arguments of [CausalRuntimeEvent.build], in the order of [body]. *)
Definition event_kwargs (e : CausalRuntimeEvent) : dict :=
  dict_del (dict_del (CausalRuntimeEvent_body e) "schema") "authority".

Definition set_event_digest (e : CausalRuntimeEvent) (d : string) : CausalRuntimeEvent := {|
  ev_event_id := ev_event_id e; ev_event_type := ev_event_type e;
  ev_subject_id := ev_subject_id e; ev_capability_id := ev_capability_id e;
  ev_recorder_event_id := ev_recorder_event_id e;
  ev_recorder_entry_sha256 := ev_recorder_entry_sha256 e;
  ev_effect := ev_effect e; ev_decision := ev_decision e;
  ev_observed_at_unix := ev_observed_at_unix e;
  ev_previous_causal_event_sha256 := ev_previous_causal_event_sha256 e;
  ev_input_sha256 := ev_input_sha256 e; ev_output_sha256 := ev_output_sha256 e;
  ev_reason_codes := ev_reason_codes e; ev_event_sha256 := d |}.

(** The event [build] returns when it accepts. *)
Definition sealed_event (e : CausalRuntimeEvent) : CausalRuntimeEvent :=
  set_event_digest e (canonical_sha256 (JObj (CausalRuntimeEvent_body e))).

Lemma event_build_document e :
  CausalRuntimeEvent_build (event_kwargs e)
  = CausalRuntimeEvent_from_document (JObj (CausalRuntimeEvent_as_document (sealed_event e))).
Proof. reflexivity. Qed.

Lemma event_build_ok e :
  event_wf (sealed_event e) -> CausalRuntimeEvent_build (event_kwargs e) = Ok (sealed_event e).
Proof. intros He. rewrite event_build_document. by apply event_roundtrip. Qed.

Lemma event_keys_nodup e : NoDup (dict_keys (CausalRuntimeEvent_body e)).
Proof. cbn. by apply (bool_decide_eq_true_1 _). Qed.

(** What an accepted event keeps of the arguments of [build]. *)
Lemma event_build_sound e e' : CausalRuntimeEvent_build (event_kwargs e) = Ok e' ->
  event_wf e' /\ ev_event_id e' = ev_event_id e /\ ev_event_type e' = ev_event_type e
  /\ ev_subject_id e' = ev_subject_id e /\ ev_capability_id e' = ev_capability_id e
  /\ ev_decision e' = ev_decision e /\ ev_observed_at_unix e' = ev_observed_at_unix e
  /\ (re_sha (ev_previous_causal_event_sha256 e) = true ->
      ev_previous_causal_event_sha256 e' = ev_previous_causal_event_sha256 e)
  /\ (re_sha (ev_input_sha256 e) = true -> ev_input_sha256 e' = ev_input_sha256 e)
  /\ (ev_recorder_event_id e = None <-> ev_recorder_entry_sha256 e = None).
Proof.
  rewrite event_build_document. intros Hb. split; [by eapply event_from_document_wf|].
  unfold CausalRuntimeEvent_from_document in Hb.
  rewrite (eq_refl : _mapping (JObj (CausalRuntimeEvent_as_document (sealed_event e))) "causal_event"
                     = Ok (CausalRuntimeEvent_as_document (sealed_event e))), bind_Ok in Hb.
  py_inv.
  repeat match goal with
  | Hs : _sha (dict_get_none _ "previous_causal_event_sha256") _ = Ok ?a |- _ =>
      assert (re_sha (ev_previous_causal_event_sha256 e) = true ->
              a = ev_previous_causal_event_sha256 e);
      [intros Hp; rewrite (_sha_field _ _ (ev_previous_causal_event_sha256 e)) in Hs by done;
       by injection Hs|clear Hs]
  | Hs : _sha (dict_get_none _ "input_sha256") _ = Ok ?a |- _ =>
      assert (re_sha (ev_input_sha256 e) = true -> a = ev_input_sha256 e);
      [intros Hp; rewrite (_sha_field _ _ (ev_input_sha256 e)) in Hs by done;
       by injection Hs|clear Hs]
  end.
  repeat match goal with Hs : optional (fun v => _sha v "recorder_entry_sha256") _ = Ok _ |- _ =>
    apply optional_ok in Hs end.
  validated. cbn -[_sha canonical_sha256] in *.
  repeat match goal with Hj : JStr _ = JStr _ |- _ => injection Hj as Hj
  | Hj : JInt _ = JInt _ |- _ => injection Hj as Hj
  | Hj : jopt _ = jopt _ |- _ => apply (inj jopt) in Hj end.
  subst. split_and!; try done.
  match goal with Hb : Bool.eqb _ _ = true |- _ => apply Bool.eqb_prop in Hb; revert Hb end.
  match goal with Hs : _ \/ _ |- _ => destruct Hs as [[Hs ->]|(Hne & a & Ha & ->)] end.
  - destruct (ev_recorder_entry_sha256 e); [done|]. by repeat case_bool_decide.
  - destruct (ev_recorder_entry_sha256 e); [|done]. by repeat case_bool_decide.
Qed.
End events.

(** ** Evidence requirements *)
Section requirements.
Context {hash : Digest}.

(** The requirement [build] returns for acceptable arguments. *)
Definition built_requirement (action : string) (roots : list string) (a b c : bool)
    : RuntimeEvidenceRequirement :=
  let r d := {|
    rq_action_class := action; rq_required_roots := sorted_str roots;
    rq_require_capability := a; rq_require_recorder_link := b; rq_require_result_digest := c;
    rq_fail_closed_on_missing := true; rq_requirement_sha256 := d |} in
  r (canonical_sha256 (JObj (RuntimeEvidenceRequirement_body (r "")))).

Lemma requirement_build_ok action roots a b c :
  re_ident action = true -> Forall (fun s => re_ident s = true) roots -> NoDup roots ->
  roots <> [] ->
  RuntimeEvidenceRequirement_build action roots a b c true
  = Ok (built_requirement action roots a b c).
Proof.
  intros Ha Hr Hnd Hne. unfold RuntimeEvidenceRequirement_build.
  rewrite (_identifier_field _ "action_class" action), bind_Ok by done. cbv zeta.
  pose (r := built_requirement action roots a b c).
  change (RuntimeEvidenceRequirement_from_document
            (JObj (RuntimeEvidenceRequirement_as_document r)) = Ok r).
  unfold RuntimeEvidenceRequirement_from_document.
  rewrite (eq_refl : _mapping (JObj (RuntimeEvidenceRequirement_as_document r)) "evidence_requirement"
                     = Ok (RuntimeEvidenceRequirement_as_document r)), bind_Ok.
  replace (_exact (RuntimeEvidenceRequirement_as_document r) requirement_keys "evidence_requirement")
    with (Ok tt) by (by vm_compute).
  replace (envelope_ok (RuntimeEvidenceRequirement_as_document r) EVIDENCE_SCHEMA AUTHORITY)
    with true by (by vm_compute).
  rewrite bind_Ok, raise_if_false, bind_Ok by done. cbv zeta.
  rewrite (sorted_unique_field _ "required_roots" (sorted_str roots)), bind_Ok;
    [|done|by apply Forall_sorted_str|by apply NoDup_sorted_str|apply sorted_str_idemp].
  rewrite raise_if_false, bind_Ok.
  2: { apply bool_decide_eq_false_2. intros E. apply Hne.
       apply Permutation_nil. by rewrite <- E, sorted_str_perm. }
  rewrite (_identifier_field _ "action_class" action), bind_Ok by done.
  rewrite (_bool_field _ "require_capability" a), bind_Ok by done.
  rewrite (_bool_field _ "require_recorder_link" b), bind_Ok by done.
  rewrite (_bool_field _ "require_result_digest" c), bind_Ok by done.
  rewrite (_bool_field _ "fail_closed_on_missing" true), bind_Ok by done.
  rewrite (_sha_field _ "requirement_sha256" (rq_requirement_sha256 r)), bind_Ok
    by (try done; apply canonical_sha256_sha).
  rewrite (raise_if_false (negb true)), bind_Ok by done.
  rewrite raise_if_false, bind_Ok; [done|].
  apply negb_false_iff, String.eqb_eq. done.
Qed.
End requirements.

(** ** Example values *)
Definition example_scope : dict :=
  [("repository", JStr "owner/repo"); ("paths", JList [JStr "src"; JStr "docs"])].

Definition example_kwargs : dict :=
  [("capability_id", JStr "cap:1"); ("capability_type", JStr "repository.read");
   ("subject_id", JStr "agent:1"); ("issuer_id", JStr "issuer:1");
   ("scope", JObj [("paths", jstrs ["docs"; "src"]); ("repository", JStr "owner/repo")]);
   ("issued_at_unix", JInt 100); ("not_before_unix", JInt 100); ("expires_at_unix", JInt 200);
   ("max_uses", JInt 2); ("delegable", JBool false); ("parent_capability_id", JNull);
   ("policy_sha256", JStr ZERO_SHA256)].

(** ** Containment transitions *)
Lemma containment_transition_sound v d : validate_containment_transition v = Ok d ->
  exists before after reasons release,
    dict_get d "from_state" = Some (JStr before) /\ dict_get d "to_state" = Some (JStr after)
    /\ dict_get d "reason_codes" = Some (jstrs reasons) /\ reasons <> []
    /\ dict_get d "human_release_id" = Some release
    /\ (before, after) ∈ CONTAINMENT_TRANSITIONS
    /\ (after = "RELEASED" <-> exists id, release = JStr id /\ re_ident id = true)
    /\ (after <> "RELEASED" <-> release = JNull).
Proof.
  intros Hv. unfold validate_containment_transition in Hv. py_inv.
  match goal with
  | Hr : (if String.eqb ?a _ then _ else _) = Ok ?r,
    Ht : _ || negb (transition_mem ?b ?a) = false |- _ =>
    assert (a = "RELEASED" /\ (exists id, r = JStr id /\ re_ident id = true)
            \/ a <> "RELEASED" /\ r = JNull) as Hrel;
    [destruct (String.eqb_spec a "RELEASED");
     [left; destruct (dict_get_none x "human_release_id"); try done; py_inv; validated; eauto
     |right; destruct (dict_get_none x "human_release_id"); by py_inv]
    |clear Hr; assert ((b, a) ∈ CONTAINMENT_TRANSITIONS) as Hmem;
     [apply orb_false_iff in Ht as [_ Ht]; apply negb_false_iff, existsb_exists in Ht
       as ([b' a'] & Hin & Heq); cbn in Heq; apply andb_true_iff in Heq as [?%String.eqb_eq ?%String.eqb_eq];
       subst; by apply list_elem_of_In|]]
  end.
  validated.
  eexists _, _, _, _. split_and!; try (cbn; reflexivity); try done.
  - destruct Hrel as [[? ?]|[? ->]]; split; try done. by intros (? & ? & _).
  - destruct Hrel as [[? (id & -> & _)]|[? ->]]; split; done.
Qed.

Lemma objective_integrity_sound v d : validate_objective_integrity v = Ok d ->
  exists violations decision,
    dict_get d "observed_violation_codes" = Some (jstrs violations)
    /\ dict_get d "decision" = Some (JStr decision)
    /\ Forall (fun x => x ∈ OBJECTIVE_VIOLATIONS) violations /\ NoDup violations
    /\ decision ∈ DECISIONS /\ (violations <> [] -> decision <> "ALLOW").
Proof.
  intros Hv. unfold validate_objective_integrity in Hv. py_inv. validated.
  repeat match goal with
  | Hd : sorted_diff ?a _ = [] |- _ => rewrite sorted_diff_nil in Hd
  | Hm : mem _ _ = true |- _ => apply mem_true in Hm
  end.
  eexists _, _. split_and!; try (cbn; reflexivity); try done.
  - by apply Forall_forall.
  - intros Hne ->. match goal with Hb : negb _ && _ = false |- _ =>
      rewrite bool_decide_eq_false_2 in Hb by done end. done.
Qed.

Lemma default_requirements_lemma `{Digest} : exists l,
  default_evidence_requirements = Ok l /\ length l = length CAPABILITY_TYPES
  /\ map rq_action_class l = map replace_dots (sorted_str CAPABILITY_TYPES)
  /\ Forall (fun r => rq_fail_closed_on_missing r = true /\ rq_require_capability r = true
      /\ rq_require_recorder_link r = true /\ rq_require_result_digest r = true
      /\ "capability_sha256" ∈ rq_required_roots r /\ "policy_sha256" ∈ rq_required_roots r) l.
Proof.
  eexists (map (fun t => built_requirement (replace_dots t)
    (["policy_sha256"; "capability_sha256"; "input_sha256"; "recorder_entry_sha256"]
     ++ [if negb (String.eqb t "network.open") then "result_sha256" else "network_receipt_sha256"])
    true true true) (sorted_str CAPABILITY_TYPES)).
  split_and!.
  - unfold default_evidence_requirements. apply map_r_ok.
    assert (Forall (fun t => re_ident (replace_dots t) = true) (sorted_str CAPABILITY_TYPES)) as Hall.
    { apply Forall_sorted_str. by repeat constructor. }
    revert Hall. generalize (sorted_str CAPABILITY_TYPES). intros l Hall.
    induction Hall as [|t l Ht _ IH]; cbn [map]; constructor; [|done].
    apply requirement_build_ok; [done|by destruct (String.eqb t "network.open"); repeat constructor| |].
    + destruct (String.eqb t "network.open"); apply (bool_decide_eq_true_1 _); by vm_compute.
    + done.
  - by rewrite length_map, sorted_str_perm.
  - by rewrite map_map.
  - apply Forall_map, Forall_forall. intros t _. split_and!; try done; apply elem_of_sorted_str, elem_of_app; left;
      apply (bool_decide_eq_true_1 _); by vm_compute.
Qed.

(** ** Properties *)

(** C39: a capability document is accepted only if the contract it yields meets
    every Phase 0 rule ([contract_wf]: identifiers, a known type, a normalised
    scope, an ordered validity window, 1 to 1000 uses, delegation only with a
    parent, and a digest over the whole body), and serialising that contract and
    reading it back gives the same contract. *)
Theorem contract_accepted_roundtrip `{Digest} (v : json) (c : CapabilityContract)
    (Hacc : CapabilityContract_from_document v = Ok c) :
  contract_wf c
  /\ CapabilityContract_from_document (JObj (CapabilityContract_as_document c)) = Ok c.
Proof.
  pose proof (contract_from_document_wf v c Hacc) as Hwf.
  split; [done|]. by apply contract_roundtrip.
Qed.

Lemma contract_accepted_roundtrip_witness :
  exists v c, @CapabilityContract_from_document checksum_digest v = Ok c
  /\ @contract_wf checksum_digest c
  /\ @CapabilityContract_from_document checksum_digest
       (JObj (CapabilityContract_as_document c)) = Ok c.
Proof.
  exists (JObj (@seal checksum_digest "contract_sha256"
    (provisional_body CAPABILITY_SCHEMA AUTHORITY example_kwargs))).
  eexists. split; [vm_compute; reflexivity|].
  apply (@contract_accepted_roundtrip checksum_digest (JObj (@seal checksum_digest "contract_sha256"
    (provisional_body CAPABILITY_SCHEMA AUTHORITY example_kwargs)))).
  vm_compute. reflexivity.
Defined.

(** Two accepted capability documents with the same [contract_sha256] describe
    the same contract in every field, unless the digest function collides on the
    two contract bodies: the digest binds subject, issuer, scope, validity window,
    use bound, delegation and policy. *)
Theorem contract_digest_binds `{Digest} (v1 v2 : json) (c1 c2 : CapabilityContract)
    (H1 : CapabilityContract_from_document v1 = Ok c1)
    (H2 : CapabilityContract_from_document v2 = Ok c2)
    (Hnc : no_collision (JObj (CapabilityContract_body c1)) (JObj (CapabilityContract_body c2))) :
  cc_contract_sha256 c1 = cc_contract_sha256 c2 -> c1 = c2.
Proof.
  apply contract_digest_binding; [..|done]; by eapply contract_from_document_wf.
Qed.

Lemma contract_digest_binds_witness :
  exists c, @CapabilityContract_build checksum_digest example_kwargs = Ok c
  /\ (cc_contract_sha256 c = cc_contract_sha256 c -> c = c).
Proof.
  eexists. split; [vm_compute; reflexivity|].
  apply (@contract_digest_binds checksum_digest
    (JObj (@seal checksum_digest "contract_sha256"
      (provisional_body CAPABILITY_SCHEMA AUTHORITY example_kwargs)))
    (JObj (@seal checksum_digest "contract_sha256"
      (provisional_body CAPABILITY_SCHEMA AUTHORITY example_kwargs)))).
  - vm_compute. reflexivity.
  - vm_compute. reflexivity.
  - intros _. reflexivity.
Defined.

(** C38: [validate_scope] computes a normal form: what it returns is accepted
    again unchanged, is its own canonical normal form, and holds only strings, integers and
    lists that are strictly increasing, so that nothing is listed twice. The form does not
    depend on how the request is written: a request with the same keys and the same values
    under each of them, in any order, gives the same scope, and with it the same digest. *)
Theorem validate_scope_normal_form (t : string) (v : json) (s : dict)
    (Hv : validate_scope t v = Ok s) :
  validate_scope t (JObj s) = Ok s /\ normalize (JObj s) = JObj s
  /\ Forall (fun kv => ordered_value (snd kv)) s
  /\ (forall raw raw', v = JObj raw -> NoDup (dict_keys raw) -> same_request raw raw' ->
        validate_scope t (JObj raw') = Ok s).
Proof.
  destruct (validate_scope_wf t v s Hv) as [Hs Hn]. split; [done|]. split; [done|].
  split; [by eapply validate_scope_ordered|]. intros raw raw' -> Hnd Hr. by eapply validate_scope_order.
Qed.

Lemma validate_scope_normal_form_witness :
  exists s, validate_scope "repository.read" (JObj example_scope) = Ok s
  /\ validate_scope "repository.read" (JObj s) = Ok s /\ normalize (JObj s) = JObj s
  /\ Forall (fun kv => ordered_value (snd kv)) s
  /\ validate_scope "repository.read"
       (JObj [("paths", JList [JStr "docs"; JStr "src"]); ("repository", JStr "owner/repo")]) = Ok s.
Proof.
  eexists. split; [vm_compute; reflexivity|].
  edestruct (validate_scope_normal_form "repository.read" (JObj example_scope)) as (H1 & H2 & H3 & H4);
    [vm_compute; reflexivity|].
  split; [exact H1|]. split; [exact H2|]. split; [exact H3|].
  apply (H4 example_scope _ eq_refl).
  - apply (bool_decide_unpack (NoDup (dict_keys example_scope))). vm_compute. exact I.
  - exists [("paths", JList [JStr "src"; JStr "docs"]); ("repository", JStr "owner/repo")].
    split; [apply perm_swap|]. constructor; [|constructor; [|constructor]].
    + split; [reflexivity|]. right. do 2 eexists. split; [reflexivity|]. split; [reflexivity|]. apply perm_swap.
    + split; [reflexivity|]. left. reflexivity.
Defined.

(** A containment transition document is accepted only for a step of the chain
    IDLE, DETECT, FREEZE, REVOKE, SEAL, SNAPSHOT, REVIEW, RELEASED, with at least
    one reason code, and it carries a human release identifier exactly when it
    enters RELEASED. *)
Theorem containment_transition_accepted (v : json) (d : dict)
    (Hv : validate_containment_transition v = Ok d) :
  exists before after reasons release,
    dict_get d "from_state" = Some (JStr before) /\ dict_get d "to_state" = Some (JStr after)
    /\ dict_get d "reason_codes" = Some (jstrs reasons) /\ reasons <> []
    /\ dict_get d "human_release_id" = Some release
    /\ (before, after) ∈ CONTAINMENT_TRANSITIONS
    /\ (after = "RELEASED" <-> exists id, release = JStr id /\ re_ident id = true)
    /\ (after <> "RELEASED" <-> release = JNull).
Proof. exact (containment_transition_sound v d Hv). Qed.

Definition example_transition : dict :=
  [("schema", JStr CONTAINMENT_SCHEMA); ("incident_id", JStr "incident:1");
   ("from_state", JStr "REVIEW"); ("to_state", JStr "RELEASED");
   ("reason_codes", jstrs ["human_release"]); ("evidence_sha256", JStr ZERO_SHA256);
   ("at_unix", JInt 5); ("human_release_id", JStr "human:1"); ("authority", JObj AUTHORITY)].

Lemma containment_transition_accepted_witness :
  exists d, validate_containment_transition (JObj example_transition) = Ok d
  /\ exists before after reasons release,
    dict_get d "from_state" = Some (JStr before) /\ dict_get d "to_state" = Some (JStr after)
    /\ dict_get d "reason_codes" = Some (jstrs reasons) /\ reasons <> []
    /\ dict_get d "human_release_id" = Some release
    /\ (before, after) ∈ CONTAINMENT_TRANSITIONS
    /\ (after = "RELEASED" <-> exists id, release = JStr id /\ re_ident id = true)
    /\ (after <> "RELEASED" <-> release = JNull).
Proof.
  eexists. split; [vm_compute; reflexivity|].
  apply (containment_transition_accepted (JObj example_transition)). vm_compute. reflexivity.
Defined.

(** an objective-integrity record is accepted only if its violation codes are
    known and distinct, its decision is one of the four decisions, and a record
    that observed any violation does not carry the decision ALLOW. *)
Theorem objective_violation_never_allows (v : json) (d : dict)
    (Hv : validate_objective_integrity v = Ok d) :
  exists violations decision,
    dict_get d "observed_violation_codes" = Some (jstrs violations)
    /\ dict_get d "decision" = Some (JStr decision)
    /\ Forall (fun x => x ∈ OBJECTIVE_VIOLATIONS) violations /\ NoDup violations
    /\ decision ∈ DECISIONS /\ (violations <> [] -> decision <> "ALLOW").
Proof. exact (objective_integrity_sound v d Hv). Qed.

Definition example_objective : dict :=
  [("schema", JStr OBJECTIVE_INTEGRITY_SCHEMA); ("objective_id", JStr "objective:1");
   ("method_policy_sha256", JStr ZERO_SHA256);
   ("observed_violation_codes", jstrs ["result_fabrication"; "evidence_tampering"]);
   ("decision", JStr "BLOCK"); ("evidence_sha256", JStr ZERO_SHA256);
   ("authority", JObj AUTHORITY)].

Lemma objective_violation_never_allows_witness :
  exists d, validate_objective_integrity (JObj example_objective) = Ok d
  /\ exists violations decision,
    dict_get d "observed_violation_codes" = Some (jstrs violations)
    /\ dict_get d "decision" = Some (JStr decision)
    /\ Forall (fun x => x ∈ OBJECTIVE_VIOLATIONS) violations /\ NoDup violations
    /\ decision ∈ DECISIONS /\ (violations <> [] -> decision <> "ALLOW").
Proof.
  eexists. split; [vm_compute; reflexivity|].
  apply (objective_violation_never_allows (JObj example_objective)). vm_compute. reflexivity.
Defined.

(** whatever the digest function, [default_evidence_requirements] returns one
    requirement per capability type, in the order of the type names, each of which
    fails closed, demands capability, recorder link and result digest, and roots
    the evidence in the policy and the capability. *)
Theorem default_requirements_fail_closed `{Digest} : exists l,
  default_evidence_requirements = Ok l /\ length l = length CAPABILITY_TYPES
  /\ map rq_action_class l = map replace_dots (sorted_str CAPABILITY_TYPES)
  /\ Forall (fun r => rq_fail_closed_on_missing r = true /\ rq_require_capability r = true
      /\ rq_require_recorder_link r = true /\ rq_require_result_digest r = true
      /\ "capability_sha256" ∈ rq_required_roots r /\ "policy_sha256" ∈ rq_required_roots r) l.
Proof. exact default_requirements_lemma. Qed.
