(* ===== verification/CapabilityBroker.v ===== *)
(** * The capability broker (sdk/liminal_capability_broker/broker.py)

    The lifecycle of admitted capabilities: admission, use decisions, revocation
    and expiry, each with a hash-chained causal event and a digest-bound receipt. *)
From stdpp Require Import gmap.
From S2P Require Import Prelude PyStr Json Digest Contracts.
#[local] Open Scope Z_scope.

(** ** Data *)
Definition DECISION_SCHEMA : string := "liminal-capability-decision-receipt-v0.1".

Definition BROKER_AUTHORITY : dict :=
  [("mode", JStr "capability_lifecycle_enforcement_only");
   ("capability_admission", JBool true); ("capability_grant", JBool true);
   ("capability_use_decision", JBool true); ("capability_revoke", JBool true);
   ("capability_expire", JBool true); ("execution", JBool false);
   ("network_mediation", JBool false); ("credential_material_access", JBool false);
   ("process_control", JBool false); ("containment_execution", JBool false);
   ("automatic_github_write_authorization", JBool false); ("merge", JBool false);
   ("deployment", JBool false); ("rollback", JBool false)].

Record CapabilityDecisionReceipt := {
  dr_decision_id : string;
  dr_capability_id : option string;
  dr_subject_id : string;
  dr_capability_type : string;
  dr_policy_sha256 : string;
  dr_action_sha256 : string;
  dr_requested_scope : dict;
  dr_decision : string;
  dr_reason_codes : list string;
  dr_at_unix : Z;
  dr_use_count_before : Z;
  dr_use_count_after : Z;
  dr_causal_event_sha256 : string;
  dr_broker_head_sha256 : string;
  dr_receipt_sha256 : string
}.

Definition CapabilityDecisionReceipt_body (r : CapabilityDecisionReceipt) : dict :=
  [("schema", JStr DECISION_SCHEMA);
   ("decision_id", JStr (dr_decision_id r));
   ("capability_id", jopt (dr_capability_id r));
   ("subject_id", JStr (dr_subject_id r));
   ("capability_type", JStr (dr_capability_type r));
   ("policy_sha256", JStr (dr_policy_sha256 r));
   ("action_sha256", JStr (dr_action_sha256 r));
   ("requested_scope", JObj (dr_requested_scope r));
   ("decision", JStr (dr_decision r));
   ("reason_codes", jstrs (dr_reason_codes r));
   ("at_unix", JInt (dr_at_unix r));
   ("use_count_before", JInt (dr_use_count_before r));
   ("use_count_after", JInt (dr_use_count_after r));
   ("causal_event_sha256", JStr (dr_causal_event_sha256 r));
   ("broker_head_sha256", JStr (dr_broker_head_sha256 r));
   ("authority", JObj BROKER_AUTHORITY)].

Definition CapabilityDecisionReceipt_as_document (r : CapabilityDecisionReceipt) : dict :=
  dict_set (CapabilityDecisionReceipt_body r) "receipt_sha256" (JStr (dr_receipt_sha256 r)).

(** [_State.status]: the three strings the broker assigns. *)
Inductive cap_status := Active | Revoked | Expired.

#[export] Instance cap_status_eq_dec : EqDecision cap_status.
Proof. solve_decision. Defined.

Definition status_str (s : cap_status) : string :=
  match s with Active => "active" | Revoked => "revoked" | Expired => "expired" end.

Record _State := {
  cs_contract : CapabilityContract;
  cs_status : cap_status;
  cs_use_count : Z;
  cs_revoked_at_unix : option Z;
  cs_expired_at_unix : option Z
}.

Definition new_state (c : CapabilityContract) : _State := {|
  cs_contract := c; cs_status := Active; cs_use_count := 0;
  cs_revoked_at_unix := None; cs_expired_at_unix := None |}.

Record CapabilityBroker := {
  cb_broker_id : string;
  cb_states : gmap string _State;
  cb_events : list CausalRuntimeEvent;
  cb_receipts : list CapabilityDecisionReceipt;
  cb_head : string
}.

Definition set_states (m : gmap string _State) (b : CapabilityBroker) : CapabilityBroker := {|
  cb_broker_id := cb_broker_id b; cb_states := m; cb_events := cb_events b;
  cb_receipts := cb_receipts b; cb_head := cb_head b |}.

(** Assignment through the [_State] object [s], which the broker stores under its
    contract's identifier. *)
Definition put_state (s : _State) (b : CapabilityBroker) : CapabilityBroker :=
  set_states (<[cc_capability_id (cs_contract s) := s]> (cb_states b)) b.

(** [self._events.append(event); self._head = event.event_sha256]. *)
Definition push_event (e : CausalRuntimeEvent) (b : CapabilityBroker) : CapabilityBroker := {|
  cb_broker_id := cb_broker_id b; cb_states := cb_states b; cb_events := cb_events b ++ [e];
  cb_receipts := cb_receipts b; cb_head := ev_event_sha256 e |}.

Definition push_receipt (r : CapabilityDecisionReceipt) (b : CapabilityBroker)
    : CapabilityBroker := {|
  cb_broker_id := cb_broker_id b; cb_states := cb_states b; cb_events := cb_events b;
  cb_receipts := cb_receipts b ++ [r]; cb_head := cb_head b |}.

Definition use_state (s : _State) : _State := {|
  cs_contract := cs_contract s; cs_status := cs_status s; cs_use_count := cs_use_count s + 1;
  cs_revoked_at_unix := cs_revoked_at_unix s; cs_expired_at_unix := cs_expired_at_unix s |}.

Definition revoke_state (s : _State) (at_unix : Z) : _State := {|
  cs_contract := cs_contract s; cs_status := Revoked; cs_use_count := cs_use_count s;
  cs_revoked_at_unix := Some at_unix; cs_expired_at_unix := cs_expired_at_unix s |}.

Definition expire_state (s : _State) (at_unix : Z) : _State := {|
  cs_contract := cs_contract s; cs_status := Expired; cs_use_count := cs_use_count s;
  cs_revoked_at_unix := cs_revoked_at_unix s; cs_expired_at_unix := Some at_unix |}.

(** ** Pure helpers *)

(** [set(l)] raises TypeError on an unhashable element. *)
Definition hashable (v : json) : bool :=
  match v with JList _ | JObj _ => false | _ => true end.

(** [set(requested).issubset(set(granted))]. *)
Definition list_subset (requested granted : list json) : result bool :=
  _ ← raise_if (negb (forallb hashable requested && forallb hashable granted))
        TypeError "unhashable type";
  Ok (forallb (fun x => existsb (py_eq x) granted) requested).

(** One iteration of the loop of [_scope_contains]. *)
Definition scope_key_contained (granted : dict) (key : string) (requested_value : json)
    : result bool :=
  match dict_get granted key with
  | None => Ok false
  | Some granted_value =>
      match requested_value with
      | JList rs => match granted_value with JList gs => list_subset rs gs | _ => Ok false end
      | _ =>
          if String.eqb key "max_children" then
            match granted_value with
            | JInt _ | JBool _ => gt ← py_lt granted_value requested_value; Ok (negb gt)
            | _ => Ok false
            end
          else Ok (py_eq granted_value requested_value)
      end
  end.

(** The loop [for key, requested_value in requested.items()]. *)
Fixpoint keys_contained (granted requested : dict) : result bool :=
  match requested with
  | [] => Ok true
  | (key, v) :: rest =>
      ok ← scope_key_contained granted key v;
      if ok : bool then keys_contained granted rest else Ok false
  end.

Definition _scope_contains (capability_type : string) (granted requested : dict) : result bool :=
  if mem capability_type ["repository.read"; "repository.write"]
     && negb (py_eq (dict_get_none granted "repository") (dict_get_none requested "repository"))
  then Ok false
  else keys_contained granted requested.

Definition _effect_for (capability_type : string) : string :=
  if String.eqb capability_type "repository.read" then "read"
  else if mem capability_type ["repository.write"; "filesystem.write_outside_workspace"] then "write"
  else if mem capability_type ["process.execute"; "package.install"; "process.spawn_child"]
  then "execute"
  else if mem capability_type ["network.open"; "network.connect_domain"] then "network"
  else if String.eqb capability_type "credential.access" then "secret"
  else "config".

Definition _check_time (at_unix : Z) : result unit :=
  raise_if (at_unix <? 0) BrokerError "at_unix must be a non-negative integer".

Definition _ineligible (s : _State) (policy_sha : string) (scope : dict) (at_unix : Z)
    : result (list string) :=
  let c := cs_contract s in
  contained ← _scope_contains (cc_capability_type c) (cc_scope c) scope;
  Ok (sorted_set (
    (if negb (bool_decide (cs_status s = Active)) then [status_str (cs_status s)] else [])
    ++ (if at_unix <? cc_not_before_unix c then ["not_yet_valid"] else [])
    ++ (if cc_expires_at_unix c <=? at_unix then ["expired"] else [])
    ++ (if negb (String.eqb (cc_policy_sha256 c) policy_sha) then ["policy_mismatch"] else [])
    ++ (if cc_max_uses c <=? cs_use_count s then ["use_exhausted"] else [])
    ++ (if negb contained then ["scope_mismatch"] else []))).

(** [CapabilityBroker(broker_id)]. *)
Definition CapabilityBroker_init (broker_id : string) : result CapabilityBroker :=
  _ ← raise_if (String.eqb (py_strip broker_id) "") BrokerError "broker_id must be non-empty";
  Ok {| cb_broker_id := broker_id; cb_states := ∅; cb_events := []; cb_receipts := [];
        cb_head := ZERO_SHA256 |}.

Section broker.
Context {hash : Digest}.

(** ** Events and receipts *)
Definition _event (event_type subject_id capability_id capability_type decision : string)
    (at_unix : Z) (input_sha : string) (output_sha : option string) (reasons : list string)
    (recorder_event_id recorder_entry_sha256 : option string)
    : M CapabilityBroker CausalRuntimeEvent :=
  self ← get_state;
  event ← lift (CausalRuntimeEvent_build
    [("event_id", JStr ("broker-event:" +:+ pretty (Z.of_nat (length (cb_events self)) + 1)));
     ("event_type", JStr event_type); ("subject_id", JStr subject_id);
     ("capability_id", JStr capability_id); ("recorder_event_id", jopt recorder_event_id);
     ("recorder_entry_sha256", jopt recorder_entry_sha256);
     ("effect", JStr (_effect_for capability_type)); ("decision", JStr decision);
     ("observed_at_unix", JInt at_unix); ("previous_causal_event_sha256", JStr (cb_head self));
     ("input_sha256", JStr input_sha); ("output_sha256", jopt output_sha);
     ("reason_codes", jstrs reasons)]);
  _ ← modify (push_event event);
  mret event.

Definition seal_receipt (base : CapabilityDecisionReceipt) : CapabilityDecisionReceipt := {|
  dr_decision_id := dr_decision_id base; dr_capability_id := dr_capability_id base;
  dr_subject_id := dr_subject_id base; dr_capability_type := dr_capability_type base;
  dr_policy_sha256 := dr_policy_sha256 base; dr_action_sha256 := dr_action_sha256 base;
  dr_requested_scope := dr_requested_scope base; dr_decision := dr_decision base;
  dr_reason_codes := dr_reason_codes base; dr_at_unix := dr_at_unix base;
  dr_use_count_before := dr_use_count_before base;
  dr_use_count_after := dr_use_count_after base;
  dr_causal_event_sha256 := dr_causal_event_sha256 base;
  dr_broker_head_sha256 := dr_broker_head_sha256 base;
  dr_receipt_sha256 := canonical_sha256 (JObj (CapabilityDecisionReceipt_body base)) |}.

Definition _receipt (capability_id : option string)
    (subject_id capability_type policy_sha action_sha : string) (scope : dict)
    (decision : string) (reasons : list string) (at_unix before after : Z)
    (event : CausalRuntimeEvent) : M CapabilityBroker dict :=
  self ← get_state;
  let base := {|
    dr_decision_id := "broker-decision:" +:+ pretty (Z.of_nat (length (cb_receipts self)) + 1);
    dr_capability_id := capability_id; dr_subject_id := subject_id;
    dr_capability_type := capability_type; dr_policy_sha256 := policy_sha;
    dr_action_sha256 := action_sha; dr_requested_scope := scope; dr_decision := decision;
    dr_reason_codes := sorted_set reasons; dr_at_unix := at_unix;
    dr_use_count_before := before; dr_use_count_after := after;
    dr_causal_event_sha256 := ev_event_sha256 event;
    dr_broker_head_sha256 := cb_head self; dr_receipt_sha256 := "" |} in
  let receipt := seal_receipt base in
  _ ← modify (push_receipt receipt);
  mret (CapabilityDecisionReceipt_as_document receipt).

Definition _lifecycle (s : _State) (event_type decision : string) (reasons : list string)
    (at_unix : Z) : M CapabilityBroker dict :=
  let c := cs_contract s in
  event ← _event event_type (cc_subject_id c) (cc_capability_id c) (cc_capability_type c)
            decision at_unix (cc_contract_sha256 c) None reasons None None;
  _receipt (Some (cc_capability_id c)) (cc_subject_id c) (cc_capability_type c)
    (cc_policy_sha256 c) (cc_contract_sha256 c) (cc_scope c) decision reasons at_unix
    (cs_use_count s) (cs_use_count s) event.

(** ** Admission *)
Definition _validate_parent (child : CapabilityContract) (self : CapabilityBroker) : result unit :=
  match cc_parent_capability_id child with
  | None => Ok tt
  | Some p =>
      match cb_states self !! p with
      | None => fail BrokerError "delegation parent is not active"
      | Some parent_state =>
          _ ← raise_if (negb (bool_decide (cs_status parent_state = Active))) BrokerError
                "delegation parent is not active";
          let parent := cs_contract parent_state in
          _ ← raise_if (negb (cc_delegable parent)) BrokerError "parent is not delegable";
          _ ← raise_if (negb (String.eqb (cc_capability_type child) (cc_capability_type parent)))
                BrokerError "child capability_type exceeds parent";
          _ ← raise_if (negb (String.eqb (cc_policy_sha256 child) (cc_policy_sha256 parent)))
                BrokerError "child policy differs from parent";
          _ ← raise_if ((cc_expires_at_unix parent <? cc_expires_at_unix child)
                        || (cc_max_uses parent <? cc_max_uses child))
                BrokerError "child validity or use bounds exceed parent";
          contained ← _scope_contains (cc_capability_type child) (cc_scope parent) (cc_scope child);
          raise_if (negb contained) BrokerError "child scope exceeds parent"
      end
  end.

Definition admit_contract (document : dict) (at_unix : Z) : M CapabilityBroker dict :=
  _ ← lift (_check_time at_unix);
  contract ← lift (CapabilityContract_from_document (JObj document));
  self ← get_state;
  match cb_states self !! cc_capability_id contract with
  | Some existing =>
      if negb (String.eqb (cc_contract_sha256 (cs_contract existing)) (cc_contract_sha256 contract))
      then raise BrokerError "duplicate capability_id with different contract"
      else _lifecycle existing "grant" "ALLOW" ["already_admitted"] at_unix
  | None =>
      _ ← lift (raise_if ((at_unix <? cc_issued_at_unix contract)
                          || (cc_expires_at_unix contract <=? at_unix))
                  BrokerError "capability is outside admissible time window");
      _ ← lift (_validate_parent contract self);
      let state := new_state contract in
      _ ← modify (put_state state);
      _lifecycle state "grant" "ALLOW" ["capability_admitted"] at_unix
  end.

(** ** Use decisions *)

(** [sorted((s for s in self._states.values() if ...), key=...)]. *)
Definition candidates (self : CapabilityBroker) (subject_id capability_type : string)
    : list _State :=
  sorted_on (fun s => cc_capability_id (cs_contract s))
    (List.filter (fun s => String.eqb (cc_subject_id (cs_contract s)) subject_id
                           && String.eqb (cc_capability_type (cs_contract s)) capability_type)
       (map snd (map_to_list (cb_states self)))).

Definition use_reasons : list string := ["capability_scope_match"; "policy_match"; "use_committed"].

(** The body of the loop for an eligible candidate. *)
Definition commit_use (state : _State) (subject_id capability_type policy_sha256 action_sha : string)
    (scope : dict) (at_unix : Z) (recorder_event_id recorder_entry_sha256 : option string)
    : M CapabilityBroker dict :=
  let before := cs_use_count state in
  let state := use_state state in
  let c := cs_contract state in
  _ ← modify (put_state state);
  event ← _event "use" subject_id (cc_capability_id c) capability_type "ALLOW" at_unix
            action_sha (Some (cc_contract_sha256 c)) use_reasons
            recorder_event_id recorder_entry_sha256;
  _receipt (Some (cc_capability_id c)) subject_id capability_type policy_sha256 action_sha scope
    "ALLOW" use_reasons at_unix before (cs_use_count state) event.

(** The code after the loop: no candidate was eligible. *)
Definition deny_use (reasons : list string)
    (subject_id capability_type policy_sha256 action_sha : string)
    (scope : dict) (at_unix : Z) (recorder_event_id recorder_entry_sha256 : option string)
    : M CapabilityBroker dict :=
  let deny_reasons := sorted_set
    (if bool_decide (reasons = []) then ["default_deny"; "no_matching_capability"] else reasons) in
  event ← _event "deny" subject_id "capability:none" capability_type "BLOCK" at_unix
            action_sha None deny_reasons recorder_event_id recorder_entry_sha256;
  _receipt None subject_id capability_type policy_sha256 action_sha scope
    "BLOCK" deny_reasons at_unix 0 0 event.

Fixpoint use_first (states : list _State) (reasons : list string)
    (subject_id capability_type policy_sha256 action_sha : string)
    (scope : dict) (at_unix : Z) (recorder_event_id recorder_entry_sha256 : option string)
    : M CapabilityBroker dict :=
  match states with
  | [] => deny_use reasons subject_id capability_type policy_sha256 action_sha scope at_unix
            recorder_event_id recorder_entry_sha256
  | state :: rest =>
      bad ← lift (_ineligible state policy_sha256 scope at_unix);
      match bad with
      | [] => commit_use state subject_id capability_type policy_sha256 action_sha scope at_unix
                recorder_event_id recorder_entry_sha256
      | _ => use_first rest (reasons ++ bad) subject_id capability_type policy_sha256 action_sha
               scope at_unix recorder_event_id recorder_entry_sha256
      end
  end.

Definition authorize (subject_id capability_type policy_sha256 : string)
    (requested_scope action : dict) (at_unix : Z)
    (recorder_event_id recorder_entry_sha256 : option string) : M CapabilityBroker dict :=
  _ ← lift (_check_time at_unix);
  _ ← lift (raise_if (negb (mem capability_type CAPABILITY_TYPES)) BrokerError
              "unsupported capability_type");
  scope ← try_except (lift (validate_scope capability_type (JObj requested_scope)))
            (fun exc => match exn_cls exc with
                        | ContractError => raise BrokerError (exn_msg exc)
                        | _ => lift (Err exc)
                        end);
  let action_sha := canonical_sha256 (JObj action) in
  self ← get_state;
  use_first (candidates self subject_id capability_type) []
    subject_id capability_type policy_sha256 action_sha scope at_unix
    recorder_event_id recorder_entry_sha256.

(** ** Revocation and expiry *)
Definition _require (capability_id : string) (self : CapabilityBroker) : result _State :=
  match cb_states self !! capability_id with
  | None => fail BrokerError "unknown capability_id"
  | Some state => Ok state
  end.

Definition revoke (capability_id : string) (at_unix : Z) : M CapabilityBroker dict :=
  _ ← lift (_check_time at_unix);
  self ← get_state;
  state ← lift (_require capability_id self);
  if negb (bool_decide (cs_status state = Active))
  then _lifecycle state "revoke" "BLOCK" ["already_" +:+ status_str (cs_status state)] at_unix
  else
    let state := revoke_state state at_unix in
    _ ← modify (put_state state);
    _lifecycle state "revoke" "ALLOW" ["explicit_revoke"] at_unix.

(** [sorted(self._states)]. *)
Definition sorted_ids (self : CapabilityBroker) : list string :=
  sorted_str (map fst (map_to_list (cb_states self))).

Definition expire_one (at_unix : Z) (out : list dict) (capability_id : string)
    : M CapabilityBroker (list dict) :=
  self ← get_state;
  match cb_states self !! capability_id with
  | None => raise KeyError capability_id
  | Some state =>
      if bool_decide (cs_status state = Active)
         && (cc_expires_at_unix (cs_contract state) <=? at_unix)
      then
        let state := expire_state state at_unix in
        _ ← modify (put_state state);
        r ← _lifecycle state "expire" "ALLOW" ["ttl_expired"] at_unix;
        mret (out ++ [r])
      else mret out
  end.

Definition expire_due (at_unix : Z) : M CapabilityBroker (list dict) :=
  _ ← lift (_check_time at_unix);
  self ← get_state;
  fold_m (expire_one at_unix) [] (sorted_ids self).

(** ** Views *)
Definition capability_entry (capability_id : string) (s : _State) : dict :=
  [("capability_id", JStr capability_id);
   ("contract_sha256", JStr (cc_contract_sha256 (cs_contract s)));
   ("status", JStr (status_str (cs_status s)));
   ("use_count", JInt (cs_use_count s));
   ("max_uses", JInt (cc_max_uses (cs_contract s)));
   ("expires_at_unix", JInt (cc_expires_at_unix (cs_contract s)))].

Definition state_document (self : CapabilityBroker) : dict :=
  let caps := map (fun p => JObj (capability_entry (fst p) (snd p)))
                (sorted_on fst (map_to_list (cb_states self))) in
  seal "state_sha256"
    [("schema", JStr "liminal-capability-broker-state-v0.1");
     ("broker_id", JStr (cb_broker_id self));
     ("head_sha256", JStr (cb_head self));
     ("event_count", JInt (Z.of_nat (length (cb_events self))));
     ("receipt_count", JInt (Z.of_nat (length (cb_receipts self))));
     ("capabilities", JList caps);
     ("authority", JObj BROKER_AUTHORITY)].

Definition events (self : CapabilityBroker) : list dict :=
  map CausalRuntimeEvent_as_document (cb_events self).

Definition receipts (self : CapabilityBroker) : list dict :=
  map CapabilityDecisionReceipt_as_document (cb_receipts self).
End broker.

(** ** Lemmas *)
Section lemmas.
Context {hash : Digest}.

(** The event [_event] asks [CausalRuntimeEvent.build] for. *)
Definition event_request (b : CapabilityBroker)
    (event_type subject_id capability_id capability_type decision : string)
    (at_unix : Z) (input_sha : string) (output_sha : option string) (reasons : list string)
    (recorder_event_id recorder_entry_sha256 : option string) : CausalRuntimeEvent := {|
  ev_event_id := "broker-event:" +:+ pretty (Z.of_nat (length (cb_events b)) + 1);
  ev_event_type := event_type; ev_subject_id := subject_id; ev_capability_id := Some capability_id;
  ev_recorder_event_id := recorder_event_id; ev_recorder_entry_sha256 := recorder_entry_sha256;
  ev_effect := _effect_for capability_type; ev_decision := decision;
  ev_observed_at_unix := at_unix; ev_previous_causal_event_sha256 := cb_head b;
  ev_input_sha256 := input_sha; ev_output_sha256 := output_sha; ev_reason_codes := reasons;
  ev_event_sha256 := "" |}.

(** The receipt [_receipt] appends after the event [e]. *)
Definition receipt_for (b : CapabilityBroker) (capability_id : option string)
    (subject_id capability_type policy_sha action_sha : string) (scope : dict)
    (decision : string) (reasons : list string) (at_unix before after : Z)
    (e : CausalRuntimeEvent) : CapabilityDecisionReceipt :=
  seal_receipt {|
    dr_decision_id := "broker-decision:" +:+ pretty (Z.of_nat (length (cb_receipts b)) + 1);
    dr_capability_id := capability_id; dr_subject_id := subject_id;
    dr_capability_type := capability_type; dr_policy_sha256 := policy_sha;
    dr_action_sha256 := action_sha; dr_requested_scope := scope; dr_decision := decision;
    dr_reason_codes := sorted_set reasons; dr_at_unix := at_unix;
    dr_use_count_before := before; dr_use_count_after := after;
    dr_causal_event_sha256 := ev_event_sha256 e; dr_broker_head_sha256 := ev_event_sha256 e;
    dr_receipt_sha256 := "" |}.

Definition emitted (e : CausalRuntimeEvent) (r : CapabilityDecisionReceipt)
    (b : CapabilityBroker) : CapabilityBroker := push_receipt r (push_event e b).

Lemma emit_run t subj id ct dec at_unix inp out rs rid rsha cid pol act scope rs2 before after b :
  (event ← _event t subj id ct dec at_unix inp out rs rid rsha;
   _receipt cid subj ct pol act scope dec rs2 at_unix before after event) b =
  match CausalRuntimeEvent_build
          (event_kwargs (event_request b t subj id ct dec at_unix inp out rs rid rsha)) with
  | Ok e =>
      let r := receipt_for b cid subj ct pol act scope dec rs2 at_unix before after e in
      (Ok (CapabilityDecisionReceipt_as_document r), emitted e r b)
  | Err x => (Err x, b)
  end.
Proof.
  unfold _event, _receipt. rewrite M_bind_eq, M_bind_eq. cbn [get_state].
  rewrite M_bind_eq. unfold lift.
  match goal with |- context [CausalRuntimeEvent_build ?kw] => 
    destruct (CausalRuntimeEvent_build kw) eqn:E end.
  all: unfold event_request, event_kwargs; cbn -[CausalRuntimeEvent_build pretty].
  all: rewrite E; reflexivity.
Qed.

(** What the log gains when a decision is emitted. *)
Record emission (b : CapabilityBroker) (t : string) (id : string) (dec : string)
    (e : CausalRuntimeEvent) (r : CapabilityDecisionReceipt) : Prop := {
  em_wf : event_wf e;
  em_type : ev_event_type e = t;
  em_capability : ev_capability_id e = Some id;
  em_decision : ev_decision e = dec;
  em_previous : re_sha (cb_head b) = true -> ev_previous_causal_event_sha256 e = cb_head b;
  em_receipt_decision : dr_decision r = dec;
  em_receipt_event : dr_causal_event_sha256 r = ev_event_sha256 e;
  em_receipt_head : dr_broker_head_sha256 r = ev_event_sha256 e;
  em_receipt_subject : dr_subject_id r = ev_subject_id e;
  em_receipt_digest :
    dr_receipt_sha256 r = canonical_sha256 (JObj (CapabilityDecisionReceipt_body r))
}.

Lemma emit_cases t subj id ct dec at_unix inp out rs rid rsha cid pol act scope rs2 before after b :
  let m := (event ← _event t subj id ct dec at_unix inp out rs rid rsha;
            _receipt cid subj ct pol act scope dec rs2 at_unix before after event) in
  (exists x, m b = (Err x, b))
  \/ exists e, let r := receipt_for b cid subj ct pol act scope dec rs2 at_unix before after e in
     emission b t id dec e r /\ m b = (Ok (CapabilityDecisionReceipt_as_document r), emitted e r b).
Proof.
  cbv zeta. rewrite emit_run.
  destruct (CausalRuntimeEvent_build _) as [e|x] eqn:E; [right|left; by eexists].
  exists e. split; [|done].
  apply event_build_sound in E as (Hwf & _ & Ht & Hs & Hc & Hd & _ & Hp & _).
  constructor; try done.
Qed.

(** *** Shape of each operation *)
Lemma lifecycle_cases s t dec rs at_unix b :
  (exists x, _lifecycle s t dec rs at_unix b = (Err x, b))
  \/ exists e r, emission b t (cc_capability_id (cs_contract s)) dec e r
     /\ _lifecycle s t dec rs at_unix b
        = (Ok (CapabilityDecisionReceipt_as_document r), emitted e r b).
Proof.
  destruct (emit_cases t (cc_subject_id (cs_contract s)) (cc_capability_id (cs_contract s))
    (cc_capability_type (cs_contract s)) dec at_unix (cc_contract_sha256 (cs_contract s)) None rs
    None None (Some (cc_capability_id (cs_contract s))) (cc_policy_sha256 (cs_contract s))
    (cc_contract_sha256 (cs_contract s)) (cc_scope (cs_contract s)) rs (cs_use_count s)
    (cs_use_count s) b) as [?|(e & ? & ?)]; [by left|right; eauto].
Qed.

Lemma admit_cases d at_unix b :
  (exists x, admit_contract d at_unix b = (Err x, b))
  \/ (exists c s, CapabilityContract_from_document (JObj d) = Ok c
      /\ cb_states b !! cc_capability_id c = Some s
      /\ cc_contract_sha256 (cs_contract s) = cc_contract_sha256 c
      /\ admit_contract d at_unix b = _lifecycle s "grant" "ALLOW" ["already_admitted"] at_unix b)
  \/ (exists c, CapabilityContract_from_document (JObj d) = Ok c
      /\ cb_states b !! cc_capability_id c = None /\ _validate_parent c b = Ok tt
      /\ cc_issued_at_unix c <= at_unix < cc_expires_at_unix c
      /\ admit_contract d at_unix b
         = _lifecycle (new_state c) "grant" "ALLOW" ["capability_admitted"] at_unix
             (put_state (new_state c) b)).
Proof.
  remember (admit_contract d at_unix b) as m eqn:Hm. unfold admit_contract in Hm. M_run Hm.
  destruct (_check_time at_unix) as [[]|x]; [|left; by eexists]. M_run Hm.
  destruct (CapabilityContract_from_document (JObj d)) as [c|x]; [|left; by eexists]. M_run Hm.
  destruct (cb_states b !! cc_capability_id c) as [s|] eqn:Hs.
  - destruct (String.eqb_spec (cc_contract_sha256 (cs_contract s)) (cc_contract_sha256 c));
      cbn [negb] in Hm; [|left; by eexists]. right; left. by exists c, s.
  - M_run Hm. destruct (raise_if _ _ _) as [u|x] eqn:Hw; [|left; by eexists].
    apply raise_if_ok, orb_false_iff in Hw as [?%Z.ltb_ge ?%Z.leb_gt]. M_run Hm.
    destruct (_validate_parent c b) as [[]|x] eqn:Hp; [|left; by eexists]. M_run Hm.
    right; right. by exists c.
Qed.

Lemma revoke_cases id at_unix b :
  (exists x, revoke id at_unix b = (Err x, b))
  \/ exists s, cb_states b !! id = Some s /\
     ((cs_status s <> Active /\ revoke id at_unix b
       = _lifecycle s "revoke" "BLOCK" ["already_" +:+ status_str (cs_status s)] at_unix b)
      \/ (cs_status s = Active /\ revoke id at_unix b
       = _lifecycle (revoke_state s at_unix) "revoke" "ALLOW" ["explicit_revoke"] at_unix
           (put_state (revoke_state s at_unix) b))).
Proof.
  remember (revoke id at_unix b) as m eqn:Hm. unfold revoke in Hm. M_run Hm.
  destruct (_check_time at_unix) as [[]|x]; [|left; by eexists]. M_run Hm.
  unfold _require in Hm. destruct (cb_states b !! id) as [s|] eqn:Hs; M_run Hm; [|left; by eexists]. right. exists s. split; [done|].
  destruct (decide (cs_status s = Active)) as [Ha|Ha].
  - rewrite bool_decide_eq_true_2 in Hm by done. right. M_run Hm. done.
  - rewrite bool_decide_eq_false_2 in Hm by done. by left.
Qed.

Lemma expire_one_cases at_unix out id b :
  (exists r, expire_one at_unix out id b = (r, b))
  \/ exists s, cb_states b !! id = Some s /\ cs_status s = Active
     /\ cc_expires_at_unix (cs_contract s) <= at_unix
     /\ snd (expire_one at_unix out id b)
        = snd (_lifecycle (expire_state s at_unix) "expire" "ALLOW" ["ttl_expired"] at_unix
                 (put_state (expire_state s at_unix) b)).
Proof.
  remember (expire_one at_unix out id b) as m eqn:Hm. unfold expire_one in Hm. M_run Hm.
  destruct (cb_states b !! id) as [s|] eqn:Hs; [|left; by eexists].
  destruct (bool_decide _ && _) eqn:Hb; [|left; by eexists].
  apply andb_true_iff in Hb as [?%bool_decide_eq_true ?%Z.leb_le].
  right. exists s. split_and!; try done. M_run Hm. rewrite M_bind_eq in Hm.
  rewrite Hm. by destruct (_lifecycle _ _ _ _ _ _) as [[?|?] ?].
Qed.

Definition ineligible (s : _State) (policy : string) (scope : dict) (at_unix : Z) : Prop :=
  exists bad, _ineligible s policy scope at_unix = Ok bad /\ bad <> [].

Lemma use_first_cases l rs subj ct pol act scope at_unix rid rsha b :
  let m := use_first l rs subj ct pol act scope at_unix rid rsha b in
  (exists x, m = (Err x, b)
     /\ exists s e, s ∈ l /\ _ineligible s pol scope at_unix = Err e)
  \/ (exists l1 s l2, l = l1 ++ s :: l2 /\ Forall (fun s => ineligible s pol scope at_unix) l1
      /\ _ineligible s pol scope at_unix = Ok []
      /\ m = commit_use s subj ct pol act scope at_unix rid rsha b)
  \/ (exists rs', Forall (fun s => ineligible s pol scope at_unix) l
      /\ (forall x, x ∈ rs' -> x ∈ rs
          \/ exists s bad, s ∈ l /\ _ineligible s pol scope at_unix = Ok bad /\ x ∈ bad)
      /\ m = deny_use rs' subj ct pol act scope at_unix rid rsha b).
Proof.
  cbv zeta. revert rs. induction l as [|s l IH]; intros rs.
  - right; right. exists rs. split_and!; [constructor|by left|done].
  - cbn [use_first]. rewrite M_bind_eq. unfold lift.
    destruct (_ineligible s pol scope at_unix) as [bad|x] eqn:Hs.
    2: { left. exists x. split; [done|]. exists s, x. split; [by left|done]. }
    destruct bad as [|r bad].
    { right; left. exists [], s, l. split_and!; [done|constructor|done|done]. }
    destruct (IH (rs ++ r :: bad)) as [(x & -> & s' & e & Hin & He)|
      [(l1 & s' & l2 & -> & H1 & H2 & ->)|(rs' & H1 & H2 & ->)]].
    + left. exists x. split; [done|]. exists s', e. split; [by right|done].
    + right; left. exists (s :: l1), s', l2. split_and!; try done.
      constructor; [by exists (r :: bad)|done].
    + right; right. exists rs'. split_and!; try done.
      * constructor; [by exists (r :: bad)|done].
      * intros x Hx. destruct (H2 x Hx) as [Hin|(s' & bad' & ? & ? & ?)].
        -- apply elem_of_app in Hin as [?|?]; [by left|]. right. exists s, (r :: bad).
           split_and!; [by left|done|done].
        -- right. exists s', bad'. split_and!; [by right|done|done].
Qed.

Lemma authorize_cases subj ct pol rs act at_unix rid rsha b :
  (exists x, authorize subj ct pol rs act at_unix rid rsha b = (Err x, b))
  \/ exists scope, validate_scope ct (JObj rs) = Ok scope
     /\ authorize subj ct pol rs act at_unix rid rsha b
        = use_first (candidates b subj ct) [] subj ct pol (canonical_sha256 (JObj act)) scope
            at_unix rid rsha b.
Proof.
  remember (authorize subj ct pol rs act at_unix rid rsha b) as m eqn:Hm.
  unfold authorize in Hm. M_run Hm.
  destruct (_check_time at_unix) as [[]|x]; [|left; by eexists]. M_run Hm.
  destruct (raise_if _ _ _) as [u|x]; [|left; by eexists].
  rewrite M_bind_eq in Hm. unfold try_except, lift in Hm.
  destruct (validate_scope ct (JObj rs)) as [scope|x].
  - right. by exists scope.
  - left. rewrite Hm. destruct (exn_cls x); eexists; reflexivity.
Qed.

(** *** Membership of the candidate list *)
Lemma elem_of_candidates b subj ct s :
  s ∈ candidates b subj ct <->
  (exists id, cb_states b !! id = Some s) /\ cc_subject_id (cs_contract s) = subj
  /\ cc_capability_type (cs_contract s) = ct.
Proof.
  unfold candidates. rewrite elem_of_sorted_on, list_elem_of_In, filter_In, <- list_elem_of_In.
  rewrite list_elem_of_fmap, andb_true_iff, !String.eqb_eq. split.
  - intros [([id s'] & -> & Hin) ?]. split; [|done]. exists id. by apply elem_of_map_to_list.
  - intros [[id Hid] ?]. split; [|done]. exists (id, s). split; [done|]. by apply elem_of_map_to_list.
Qed.

(** *** The invariant *)
Definition cap_ok (id : string) (s : _State) : Prop :=
  cc_capability_id (cs_contract s) = id /\ contract_wf (cs_contract s)
  /\ cc_parent_capability_id (cs_contract s) = None
  /\ 0 <= cs_use_count s <= cc_max_uses (cs_contract s).

(** The number of "use" events the log holds for capability [id]. *)
Definition is_use (id : string) (e : CausalRuntimeEvent) : bool :=
  String.eqb (ev_event_type e) "use" && bool_decide (ev_capability_id e = Some id).

Definition uses_of (id : string) (l : list CausalRuntimeEvent) : Z :=
  Z.of_nat (length (List.filter (is_use id) l)).

Definition use_count_of (b : CapabilityBroker) (id : string) : Z :=
  from_option cs_use_count 0 (cb_states b !! id).

Definition receipt_of (e : CausalRuntimeEvent) (r : CapabilityDecisionReceipt) : Prop :=
  dr_causal_event_sha256 r = ev_event_sha256 e /\ dr_broker_head_sha256 r = ev_event_sha256 e
  /\ dr_decision r = ev_decision e /\ dr_subject_id r = ev_subject_id e
  /\ dr_receipt_sha256 r = canonical_sha256 (JObj (CapabilityDecisionReceipt_body r)).

Record broker_inv (b : CapabilityBroker) : Prop := {
  bi_states : map_Forall cap_ok (cb_states b);
  bi_head : re_sha (cb_head b) = true;
  bi_chain : linked ev_previous_causal_event_sha256 ev_event_sha256
               ZERO_SHA256 (cb_events b) (cb_head b);
  bi_events : Forall event_wf (cb_events b);
  bi_uses : forall id, uses_of id (cb_events b) <= use_count_of b id;
  bi_receipts : Forall2 receipt_of (cb_events b) (cb_receipts b)
}.

(** How the broker may change: capabilities are never dropped or replaced, a
    status that is not active is final, counts and logs only grow. *)
Definition state_le (s s' : _State) : Prop :=
  cs_contract s' = cs_contract s /\ (cs_status s <> Active -> cs_status s' = cs_status s)
  /\ cs_use_count s <= cs_use_count s'.

Record broker_le (b b' : CapabilityBroker) : Prop := {
  bl_id : cb_broker_id b' = cb_broker_id b;
  bl_states : forall id s, cb_states b !! id = Some s ->
    exists s', cb_states b' !! id = Some s' /\ state_le s s';
  bl_events : cb_events b `prefix_of` cb_events b';
  bl_receipts : cb_receipts b `prefix_of` cb_receipts b'
}.

#[export] Instance state_le_preorder : PreOrder state_le.
Proof.
  split; [intros s; by split_and!|].
  intros s1 s2 s3 (E1 & S1 & U1) (E2 & S2 & U2). split_and!; [congruence| |lia].
  intros H. rewrite S2; [by apply S1|]. by rewrite S1.
Qed.

#[export] Instance broker_le_preorder : PreOrder broker_le.
Proof.
  split.
  - intros b. constructor; [done| |done|done]. intros id s Hs. by exists s.
  - intros b1 b2 b3 [I1 S1 E1 R1] [I2 S2 E2 R2]. constructor.
    + congruence.
    + intros id s Hs. destruct (S1 id s Hs) as (s' & Hs' & L1).
      destruct (S2 id s' Hs') as (s'' & ? & L2). exists s''. split; [done|]. by etrans.
    + by etrans.
    + by etrans.
Qed.

(** What every operation guarantees from a broker in a valid state. *)
Definition broker_ok (b b' : CapabilityBroker) : Prop :=
  broker_inv b -> broker_inv b' /\ broker_le b b'.

#[export] Instance broker_ok_preorder : PreOrder broker_ok.
Proof.
  split; [by intros b Hb|]. intros b1 b2 b3 H1 H2 Hb.
  destruct (H1 Hb) as [Hb2 ?]. destruct (H2 Hb2) as [? ?]. split; [done|]. by etrans.
Qed.

Lemma uses_of_snoc id l e :
  uses_of id (l ++ [e]) = uses_of id l + (if is_use id e then 1 else 0).
Proof.
  unfold uses_of. rewrite List.filter_app, length_app. cbn. destruct (is_use id e); cbn; lia.
Qed.

Lemma emission_ok b t id dec e r :
  emission b t id dec e r ->
  (broker_inv b -> t = "use" -> uses_of id (cb_events b) + 1 <= use_count_of b id) ->
  broker_ok b (emitted e r b).
Proof.
  intros He Hu Hb. pose proof Hb as [Hs Hh Hc Hwf Huses Hr]. split.
  - constructor; cbn [emitted push_receipt push_event cb_states cb_head cb_events cb_receipts].
    + done.
    + rewrite (ewf_digest _ (em_wf _ _ _ _ _ _ He)). apply canonical_sha256_sha.
    + eapply linked_snoc; [done|]. by apply (em_previous _ _ _ _ _ _ He).
    + apply Forall_app. split; [done|]. constructor; [apply He|done].
    + intros id'. rewrite uses_of_snoc. specialize (Huses id').
      unfold use_count_of in *. cbn. destruct (is_use id' e) eqn:Hi; [|lia].
      unfold is_use in Hi. apply andb_true_iff in Hi as [Ht%String.eqb_eq Hid%bool_decide_eq_true].
      rewrite (em_type _ _ _ _ _ _ He) in Ht. rewrite (em_capability _ _ _ _ _ _ He) in Hid.
      injection Hid as <-. by apply Hu.
    + apply Forall2_app; [done|]. constructor; [|done].
      destruct He. unfold receipt_of. split_and!; try done. congruence.
  - constructor; cbn; try done; [|by apply prefix_app_r|by apply prefix_app_r].
    intros id' s Hid. by exists s.
Qed.

Lemma put_ok b s :
  (broker_inv b -> cap_ok (cc_capability_id (cs_contract s)) s
   /\ forall s0, cb_states b !! cc_capability_id (cs_contract s) = Some s0 -> state_le s0 s) ->
  broker_ok b (put_state s b).
Proof.
  intros Hput Hb. destruct (Hput Hb) as [Hs Hle]. clear Hput. pose proof Hb as [? ? ? ? Huses ?]. split.
  - constructor; try done.
    + by apply map_Forall_insert_2.
    + intros id. specialize (Huses id). unfold use_count_of in *. cbn.
      destruct (decide (cc_capability_id (cs_contract s) = id)) as [<-|Hne].
      * rewrite lookup_insert_eq. cbn. destruct Hs as (_ & _ & _ & Hc).
        destruct (cb_states b !! cc_capability_id (cs_contract s)) as [s0|] eqn:E; cbn in Huses; [|lia].
        destruct (Hle s0 eq_refl) as (_ & _ & ?). lia.
      * by rewrite lookup_insert_ne.
  - constructor; try done. intros id s0 H0. cbn.
    destruct (decide (cc_capability_id (cs_contract s) = id)) as [<-|Hne].
    + rewrite lookup_insert_eq. eauto.
    + rewrite lookup_insert_ne by done. by exists s0.
Qed.

Lemma lifecycle_ok s t dec rs at_unix : t <> "use" ->
  evolves broker_ok (_lifecycle s t dec rs at_unix).
Proof.
  intros Ht b. destruct (lifecycle_cases s t dec rs at_unix b) as [[x ->]|(e & r & He & ->)]; cbn.
  - reflexivity.
  - by eapply emission_ok.
Qed.

Lemma inv_lookup b id s : broker_inv b -> cb_states b !! id = Some s -> cap_ok id s.
Proof. intros Hb Hs. exact (bi_states b Hb id s Hs). Qed.

(** Nothing in a valid broker can be delegated: a contract that declares a parent
    is refused. *)
Lemma validate_parent_none c b : broker_inv b ->
  _validate_parent c b = Ok tt -> cc_parent_capability_id c = None.
Proof.
  intros Hb. unfold _validate_parent. destruct (cc_parent_capability_id c) as [p|]; [|done].
  destruct (cb_states b !! p) as [ps|] eqn:Hp; [|done]. intros H. py_inv.
  destruct (inv_lookup b p ps Hb Hp) as (_ & Hwf & Hn & _).
  match goal with Hd : negb (cc_delegable _) = false |- _ => apply negb_false_iff in Hd;
    by apply (cwf_delegable _ Hwf) in Hd end.
Qed.

Lemma admit_ok d at_unix : evolves broker_ok (admit_contract d at_unix).
Proof.
  intros b. destruct (admit_cases d at_unix b)
    as [[x ->]|[(c & s & _ & _ & _ & ->)|(c & Hc & Hn & Hp & _ & ->)]].
  - reflexivity.
  - by apply lifecycle_ok.
  - transitivity (put_state (new_state c) b); [apply put_ok|by apply lifecycle_ok].
    intros Hb. cbn. split; [|intros s0 Hs0; by rewrite Hn in Hs0].
    pose proof (contract_from_document_wf _ _ Hc) as Hwf. split_and!; try done.
    + by eapply validate_parent_none.
    + cbn. pose proof (cwf_uses c Hwf). lia.
Qed.

(** Changing the status of a stored capability. *)
Lemma put_status_ok b id s s' : cb_states b !! id = Some s -> cs_status s = Active ->
  cs_contract s' = cs_contract s -> cs_use_count s' = cs_use_count s ->
  broker_ok b (put_state s' b).
Proof.
  intros Hs Ha Hc Hu. apply put_ok. intros Hb.
  destruct (inv_lookup b id s Hb Hs) as (Hid & ? & ? & ?).
  unfold cap_ok. rewrite Hc, Hu. split; [split_and!; (done || lia)|].
  intros s0 Hs0. rewrite Hid, Hs in Hs0. injection Hs0 as <-.
  split_and!; [done|by rewrite Ha|lia].
Qed.

Lemma revoke_ok id at_unix : evolves broker_ok (revoke id at_unix).
Proof.
  intros b. destruct (revoke_cases id at_unix b)
    as [[x ->]|(s & Hs & [[_ ->]|[Ha ->]])].
  - reflexivity.
  - by apply lifecycle_ok.
  - transitivity (put_state (revoke_state s at_unix) b).
    + by apply (put_status_ok b id s).
    + by apply lifecycle_ok.
Qed.

Lemma expire_one_ok at_unix out id : evolves broker_ok (expire_one at_unix out id).
Proof.
  intros b. destruct (expire_one_cases at_unix out id b)
    as [[r ->]|(s & Hs & Ha & _ & ->)]; [reflexivity|].
  transitivity (put_state (expire_state s at_unix) b).
  - by apply (put_status_ok b id s).
  - by apply lifecycle_ok.
Qed.

Lemma expire_due_ok at_unix : evolves broker_ok (expire_due at_unix).
Proof.
  unfold expire_due. evolve_step; [evolve_step|]. evolve_step; [evolve_step|].
  evolve_step. apply expire_one_ok.
Qed.

(** [_ineligible] finds no objection exactly when every check passes. *)
Lemma ineligible_nil s pol scope at_unix :
  _ineligible s pol scope at_unix = Ok [] <->
  cs_status s = Active /\ cc_not_before_unix (cs_contract s) <= at_unix
  /\ at_unix < cc_expires_at_unix (cs_contract s) /\ cc_policy_sha256 (cs_contract s) = pol
  /\ cs_use_count s < cc_max_uses (cs_contract s)
  /\ _scope_contains (cc_capability_type (cs_contract s)) (cc_scope (cs_contract s)) scope = Ok true.
Proof.
  unfold _ineligible. split.
  - intros H. py_inv. match goal with Hn : sorted_set _ = [] |- _ => apply sorted_set_nil in Hn;
      repeat (apply app_nil in Hn as [? Hn]) end.
    repeat match goal with
    | Hb : (if ?c then _ else _) = [] |- _ => destruct c eqn:?; [discriminate Hb|clear Hb] end.
    validated. match goal with Hs : _scope_contains _ _ _ = Ok ?x, E : ?x = true |- _ => rewrite E in Hs end.
    split_and!; try done. match goal with Hl : (_ <=? _) = false |- _ => apply Z.leb_gt in Hl end.
    all: try lia. 
  - intros (Ha & H1 & H2 & H3 & H4 & ->). rewrite bind_Ok.
    rewrite bool_decide_eq_true_2 by done.
    rewrite (proj2 (Z.ltb_ge _ _) H1), (proj2 (Z.leb_gt _ _) H2), (proj2 (Z.leb_gt _ _) H4).
    rewrite (proj2 (String.eqb_eq _ _) H3). done.
Qed.

Lemma commit_use_cases s subj ct pol act scope at_unix rid rsha b :
  (exists x, commit_use s subj ct pol act scope at_unix rid rsha b
             = (Err x, put_state (use_state s) b))
  \/ exists e, let b1 := put_state (use_state s) b in
     let r := receipt_for b1 (Some (cc_capability_id (cs_contract s))) subj ct pol act scope
                "ALLOW" use_reasons at_unix (cs_use_count s) (cs_use_count s + 1) e in
     emission b1 "use" (cc_capability_id (cs_contract s)) "ALLOW" e r
     /\ commit_use s subj ct pol act scope at_unix rid rsha b
        = (Ok (CapabilityDecisionReceipt_as_document r), emitted e r b1).
Proof.
  unfold commit_use. rewrite M_modify.
  destruct (emit_cases "use" subj (cc_capability_id (cs_contract (use_state s))) ct "ALLOW" at_unix act
    (Some (cc_contract_sha256 (cs_contract (use_state s)))) use_reasons rid rsha
    (Some (cc_capability_id (cs_contract (use_state s)))) pol act scope use_reasons (cs_use_count s)
    (cs_use_count (use_state s)) (put_state (use_state s) b)) as [[x Hx]|(e & He & Hx)].
  - left. exists x. exact Hx.
  - right. exists e. split; [exact He|exact Hx].
Qed.

Lemma deny_use_cases rs subj ct pol act scope at_unix rid rsha b :
  (exists x, deny_use rs subj ct pol act scope at_unix rid rsha b = (Err x, b))
  \/ exists e rs', let r := receipt_for b None subj ct pol act scope "BLOCK" rs' at_unix 0 0 e in
     emission b "deny" "capability:none" "BLOCK" e r
     /\ deny_use rs subj ct pol act scope at_unix rid rsha b
        = (Ok (CapabilityDecisionReceipt_as_document r), emitted e r b).
Proof.
  unfold deny_use. cbv zeta.
  set (rs' := sorted_set _).
  destruct (emit_cases "deny" subj "capability:none" ct "BLOCK" at_unix act None rs' rid rsha
    None pol act scope rs' 0 0 b) as [[x Hx]|(e & He & Hx)].
  - left. by exists x.
  - right. exists e, rs'. done.
Qed.

Lemma commit_use_ok s subj ct pol act scope at_unix rid rsha b id :
  cb_states b !! id = Some s -> cs_use_count s < cc_max_uses (cs_contract s) ->
  broker_ok b (snd (commit_use s subj ct pol act scope at_unix rid rsha b)).
Proof.
  intros Hs Hlt.
  assert (broker_ok b (put_state (use_state s) b)) as Hput.
  { apply put_ok. intros Hb. destruct (inv_lookup b id s Hb Hs) as (Hid & ? & ? & ?).
    split; [split_and!; try done; cbn; lia|].
    intros s0 Hs0. cbn in Hs0. rewrite Hid, Hs in Hs0. injection Hs0 as <-.
    split_and!; [done|done|cbn; lia]. }
  destruct (commit_use_cases s subj ct pol act scope at_unix rid rsha b)
    as [[x ->]|(e & He & ->)]; [exact Hput|].
  intros Hb. destruct (Hput Hb) as [Hb1 Hle].
  destruct (emission_ok _ _ _ _ _ _ He) as [Hb2 Hle2]; [|done|].
  - intros _ _. pose proof (bi_uses b Hb (cc_capability_id (cs_contract s))) as Hu.
    destruct (inv_lookup b id s Hb Hs) as (Hid & _).
    unfold use_count_of in *. rewrite Hid in *. rewrite Hs in Hu. cbn in *.
    rewrite Hid, lookup_insert_eq. cbn. lia.
  - split; [done|]. by etrans.
Qed.

Lemma authorize_ok subj ct pol rs act at_unix rid rsha :
  evolves broker_ok (authorize subj ct pol rs act at_unix rid rsha).
Proof.
  intros b. destruct (authorize_cases subj ct pol rs act at_unix rid rsha b)
    as [[x ->]|(scope & _ & ->)]; [reflexivity|].
  destruct (use_first_cases (candidates b subj ct) [] subj ct pol (canonical_sha256 (JObj act))
    scope at_unix rid rsha b) as [(x & -> & _)|[(l1 & s & l2 & Hl & _ & Hs & ->)|(rs' & _ & _ & ->)]].
  - reflexivity.
  - apply ineligible_nil in Hs as (_ & _ & _ & _ & Hlt & _).
    assert (s ∈ candidates b subj ct) as Hin by (rewrite Hl; apply elem_of_app; right; by left).
    apply elem_of_candidates in Hin as [[id Hid] _]. by eapply commit_use_ok.
  - destruct (deny_use_cases rs' subj ct pol (canonical_sha256 (JObj act)) scope at_unix rid rsha b)
      as [[x ->]|(e & rs2 & He & ->)]; [reflexivity|]. by eapply emission_ok.
Qed.

(** *** Scope containment *)

(** The requested value [v] stays within the granted value [w]. *)
Definition value_within (v w : json) : Prop :=
  match v, w with
  | JList rs, JList gs => forall x, x ∈ rs -> x ∈ gs
  | JInt n, JInt m => n <= m
  | JStr a, JStr b => a = b
  | _, _ => False
  end.

(** The request names the same repository, and only granted keys with narrower values. *)
Definition scope_within (t : string) (requested granted : dict) : Prop :=
  (t = "repository.read" \/ t = "repository.write" ->
   dict_get_none granted "repository" = dict_get_none requested "repository")
  /\ forall k v, (k, v) ∈ requested -> exists w, dict_get granted k = Some w /\ value_within v w.

Lemma value_within_trans a b c : value_within a b -> value_within b c -> value_within a c.
Proof.
  destruct a, b; try done; destruct c; try done; cbn; [lia|congruence|]. intros H1 H2 x Hx. auto.
Qed.

Lemma scope_within_trans t a b c : scope_within t a b -> scope_within t b c -> scope_within t a c.
Proof.
  intros [R1 W1] [R2 W2]. split.
  - intros Ht. rewrite R2 by done. by apply R1.
  - intros k v Hin. destruct (W1 k v Hin) as (w & Hw%dict_get_elem & Hvw).
    destruct (W2 k w Hw) as (u & Hu & Hwu). exists u. split; [done|]. by eapply value_within_trans.
Qed.

(** Lists of strings and lists of numbers, the only lists in a validated scope. *)
Definition flat_value (v : json) : bool :=
  match v with JStr _ | JInt _ => true | _ => false end.

Lemma py_eq_flat x y : flat_value x = true -> flat_value y = true -> py_eq x y = true <-> x = y.
Proof.
  destruct x, y; try done; intros _ _; cbn; [rewrite Z.eqb_eq|rewrite String.eqb_eq]; naive_solver.
Qed.

Lemma list_subset_flat rs gs :
  Forall (fun v => flat_value v = true) rs -> Forall (fun v => flat_value v = true) gs ->
  exists ok, list_subset rs gs = Ok ok /\ (ok = true <-> forall x, x ∈ rs -> x ∈ gs).
Proof.
  intros Hr Hg. unfold list_subset.
  assert (forall l, Forall (fun v => flat_value v = true) l -> forallb hashable l = true) as Hh.
  { intros l. induction 1 as [|v l Hv _ IH]; [done|]. cbn. rewrite IH. by destruct v. }
  rewrite (Hh _ Hr), (Hh _ Hg). eexists. split; [reflexivity|]. rewrite forallb_forall.
  rewrite Forall_forall in Hr, Hg. split; intros H x Hx.
  - pose proof Hx as Hx'. apply list_elem_of_In, H, existsb_exists in Hx' as (y & Hy & E).
    apply list_elem_of_In in Hy. by apply py_eq_flat in E as ->; [|apply Hr|apply Hg].
  - apply list_elem_of_In in Hx. apply existsb_exists. exists x. split; [by apply list_elem_of_In, H|].
    by apply py_eq_flat; [apply Hr|apply Hr|].
Qed.

Lemma scope_value_cases k v : scope_value k v ->
  (k = "max_children" /\ exists n, v = JInt n)
  \/ (k <> "max_children" /\ ((exists s, v = JStr s)
      \/ exists l, v = JList l /\ Forall (fun v => flat_value v = true) l)).
Proof.
  unfold scope_value. destruct (String.eqb_spec k "max_children") as [->|Hk]; [eauto|].
  intros H. right. split; [done|]. destruct H as [[s ->]|[[l ->]|[ns ->]]]; [eauto| |];
    right; eexists; (split; [reflexivity|]); by apply Forall_map, Forall_true.
Qed.

Lemma scope_key_contained_spec granted k v :
  Forall (fun kv => scope_value kv.1 kv.2) granted -> scope_value k v ->
  exists ok, scope_key_contained granted k v = Ok ok
    /\ (ok = true <-> exists w, dict_get granted k = Some w /\ value_within v w).
Proof.
  intros Hg Hv. unfold scope_key_contained. destruct (dict_get granted k) as [w|] eqn:Hw.
  2: { exists false. split; [done|]. split; [done|]. by intros (? & ? & _). }
  assert (scope_value k w) as Hkw.
  { apply dict_get_elem in Hw. rewrite Forall_forall in Hg. by apply (Hg (k, w)). }
  enough (exists ok, match v with
      | JList rs => match w with JList gs => list_subset rs gs | _ => Ok false end
      | _ => if String.eqb k "max_children" then
            match w with
            | JInt _ | JBool _ => gt ← py_lt w v; Ok (negb gt)
            | _ => Ok false
            end
          else Ok (py_eq w v)
      end = Ok ok /\ (ok = true <-> value_within v w)) as (ok & Hok & Hiff).
  { exists ok. split; [exact Hok|]. rewrite Hiff. naive_solver. }
  destruct (scope_value_cases _ _ Hv) as [[-> [n ->]]|[Hk Hv']].
  - destruct (scope_value_cases _ _ Hkw) as [[_ [m ->]]|[? _]]; [|done].
    exists (negb (m <? n)). split; [done|]. cbn. rewrite negb_true_iff, Z.ltb_ge. done.
  - destruct (scope_value_cases _ _ Hkw) as [[? _]|[_ Hw']]; [done|].
    apply String.eqb_neq in Hk. rewrite Hk.
    destruct Hv' as [[s ->]|(rs & -> & Hrs)], Hw' as [[u ->]|(gs & -> & Hgs)].
    + eexists. split; [reflexivity|]. cbn. rewrite String.eqb_eq. naive_solver.
    + by exists false.
    + by exists false.
    + by apply list_subset_flat.
Qed.

Lemma keys_contained_spec granted requested :
  Forall (fun kv => scope_value kv.1 kv.2) granted ->
  Forall (fun kv => scope_value kv.1 kv.2) requested ->
  exists ok, keys_contained granted requested = Ok ok
    /\ (ok = true <-> forall k v, (k, v) ∈ requested ->
          exists w, dict_get granted k = Some w /\ value_within v w).
Proof.
  intros Hg. induction 1 as [|[k v] l Hkv _ (ok & IH & Hiff)]; cbn [keys_contained].
  - exists true. split; [done|]. split; [|done]. intros _ k v H. inversion H.
  - destruct (scope_key_contained_spec granted k v Hg Hkv) as (b & -> & Hb). rewrite bind_Ok.
    destruct b.
    + exists ok. split; [exact IH|]. rewrite Hiff. split.
      * intros H k' v' [[= -> ->]|Hin]%elem_of_cons; [by apply Hb|by apply H].
      * intros H k' v' Hin. apply H. by right.
    + exists false. split; [done|]. split; [done|]. intros H. apply Hb, H. by left.
Qed.

Lemma py_eq_flat_list l l' :
  Forall (fun v => flat_value v = true) l -> Forall (fun v => flat_value v = true) l' ->
  py_eq (JList l) (JList l') = true <-> l = l'.
Proof.
  intros Hl. revert l'. induction Hl as [|x l Hx _ IH]; intros l'; destruct 1 as [|y l' Hy Hl']; try done.
  specialize (IH l' Hl'). cbn in IH |- *. rewrite andb_true_iff, (py_eq_flat x y Hx Hy), IH. naive_solver.
Qed.

(** The repository named by a validated scope, if any. *)
Lemma scope_repository s : Forall (fun kv => scope_value kv.1 kv.2) s ->
  let r := dict_get_none s "repository" in
  r = JNull \/ (exists x, r = JStr x) \/ exists l, r = JList l /\ Forall (fun v => flat_value v = true) l.
Proof.
  intros Hs. cbv zeta. unfold dict_get_none, dict_get_or.
  destruct (dict_get s "repository") as [v|] eqn:E; [right|by left].
  apply dict_get_elem in E. rewrite Forall_forall in Hs. apply Hs in E. cbn [fst snd] in E.
  by destruct (scope_value_cases _ _ E) as [[? _]|[_ ?]].
Qed.

Lemma scope_contains_spec t granted requested :
  scope_wf t granted -> scope_wf t requested ->
  exists ok, _scope_contains t granted requested = Ok ok
    /\ (ok = true <-> scope_within t requested granted).
Proof.
  intros Hg%scope_wf_values Hr%scope_wf_values. unfold _scope_contains.
  destruct (keys_contained_spec _ _ Hg Hr) as (ok & Hok & Hiff). rewrite Hok.
  assert (py_eq (dict_get_none granted "repository") (dict_get_none requested "repository") = true
          <-> dict_get_none granted "repository" = dict_get_none requested "repository") as Heq.
  { destruct (scope_repository _ Hg) as [->|[[x ->]|(l & -> & Hl)]],
      (scope_repository _ Hr) as [->|[[y ->]|(l' & -> & Hl')]]; try done.
    - by apply py_eq_flat.
    - split; [|intros [= ->]; by apply py_eq_flat_list].
      intros E. f_equal. by apply (proj1 (py_eq_flat_list l l' Hl Hl')). }
  unfold scope_within.
  assert (mem t ["repository.read"; "repository.write"] = true
          <-> t = "repository.read" \/ t = "repository.write") as Ht.
  { rewrite mem_true, !elem_of_cons, elem_of_nil. naive_solver. }
  destruct (mem t _) eqn:Em; cbn [andb].
  - destruct (py_eq _ _) eqn:Ep; cbn [negb].
    + exists ok. split; [done|]. rewrite Hiff. split; [|by intros [_ ?]].
      intros H. split; [intros _; by apply Heq|done].
    + exists false. split; [done|]. split; [done|]. intros [H _].
      by apply (proj2 Heq), H, (proj1 Ht).
  - exists ok. split; [done|]. rewrite Hiff. split; [|by intros [_ ?]].
    intros H. split; [|done]. intros E%Ht. done.
Qed.

(** *** Decisions are always reached *)

(** The recorder link [authorize] accepts. *)
Definition recorder_ok (rid rsha : option string) : bool :=
  match rid, rsha with
  | None, None => true
  | Some a, Some b => re_ident a && re_sha b
  | _, _ => false
  end.

(** The log is short enough for "broker-event:<n>" to be an identifier. *)
Definition log_room (b : CapabilityBroker) : Prop :=
  Z.of_nat (length (cb_events b)) + 1 < 10 ^ 150.

Lemma event_id_ident b : log_room b ->
  re_ident ("broker-event:" +:+ pretty (Z.of_nat (length (cb_events b)) + 1)) = true.
Proof.
  intros Hb. unfold log_room in Hb. apply re_ident_app; [done| |].
  - eapply str_all_impl; [|apply pretty_Z_chars]. intros c Hc.
    unfold num_char, ident_char, is_alnum in *. apply orb_true_iff in Hc as [->|Hc].
    + by rewrite orb_true_r.
    + cbn. rewrite Hc. by rewrite !orb_true_r.
  - pose proof (pretty_Z_length 150 (Z.of_nat (length (cb_events b)) + 1)) as Hl.
    assert (0 <= Z.of_nat (length (cb_events b)) + 1) as H0 by lia.
    specialize (Hl ltac:(lia) (conj H0 Hb)). cbn. lia.
Qed.

Lemma effect_for_mem ct : mem (_effect_for ct) EFFECTS = true.
Proof. unfold _effect_for. by repeat case_match. Qed.

Lemma event_request_build b t subj id ct dec at_unix inp out rs rid rsha :
  broker_inv b -> log_room b -> mem t CAPABILITY_EVENTS = true -> re_ident subj = true ->
  re_ident id = true -> mem dec DECISIONS = true -> 0 <= at_unix -> re_sha inp = true ->
  (forall s, out = Some s -> re_sha s = true) ->
  Forall (fun s => re_ident s = true) rs -> NoDup rs -> sorted_str rs = rs -> rs <> [] ->
  recorder_ok rid rsha = true ->
  let e := event_request b t subj id ct dec at_unix inp out rs rid rsha in
  CausalRuntimeEvent_build (event_kwargs e) = Ok (sealed_event e).
Proof.
  intros Hb Hroom Ht Hs Hid Hd Hat Hin Hout Hrs Hnd Hsort Hne Hrec. cbv zeta.
  apply event_build_ok. constructor; cbn -[mem re_ident re_sha]; try done.
  - by apply event_id_ident.
  - apply mem_true in Ht. apply mem_true, (elem_of_app CAPABILITY_EVENTS). by left.
  - by intros s [= <-].
  - intros s ->. destruct rsha; [|done]. by apply andb_true_iff in Hrec as [? _].
  - intros s ->. destruct rid; [|done]. by apply andb_true_iff in Hrec as [_ ?].
  - destruct rid, rsha; done.
  - apply effect_for_mem.
  - apply Hb.
Qed.

Lemma ineligible_total b id s pol scope at_unix :
  broker_inv b -> cb_states b !! id = Some s ->
  scope_wf (cc_capability_type (cs_contract s)) scope ->
  exists bad, _ineligible s pol scope at_unix = Ok bad.
Proof.
  intros Hb Hs Hw. destruct (inv_lookup b id s Hb Hs) as (_ & Hwf & _).
  destruct (scope_contains_spec _ _ _ (cwf_scope _ Hwf) Hw) as (ok & Hok & _).
  unfold _ineligible. rewrite Hok. by eexists.
Qed.

Definition deny_codes : list string :=
  ["active"; "revoked"; "expired"; "not_yet_valid"; "policy_mismatch"; "use_exhausted"; "scope_mismatch"].

Lemma ineligible_codes s pol scope at_unix bad :
  _ineligible s pol scope at_unix = Ok bad -> forall x, x ∈ bad -> x ∈ deny_codes.
Proof.
  unfold _ineligible. intros H. py_inv. intros x0. rewrite elem_of_sorted_set, !elem_of_app.
  assert (forall (c : bool) y, x0 ∈ (if c then [y] else []) -> x0 = y) as Hif.
  { intros [] y Hy; [by apply list_elem_of_singleton in Hy|inversion Hy]. }
  intros [H|[H|[H|[H|[H|H]]]]]; apply Hif in H as ->; try (apply (bool_decide_eq_true_1 _); by vm_compute).
  destruct (cs_status s); apply (bool_decide_eq_true_1 _); by vm_compute.
Qed.

(** Which stored capability a request may use. *)
Record eligible (b : CapabilityBroker) (subj ct pol : string) (scope : dict) (at_unix : Z)
    (id : string) (s : _State) : Prop := {
  el_stored : cb_states b !! id = Some s;
  el_subject : cc_subject_id (cs_contract s) = subj;
  el_type : cc_capability_type (cs_contract s) = ct;
  el_active : cs_status s = Active;
  el_window : cc_not_before_unix (cs_contract s) <= at_unix < cc_expires_at_unix (cs_contract s);
  el_policy : cc_policy_sha256 (cs_contract s) = pol;
  el_uses : cs_use_count s < cc_max_uses (cs_contract s);
  el_scope : scope_within ct scope (cc_scope (cs_contract s))
}.

Lemma eligible_iff b subj ct pol scope at_unix s :
  broker_inv b -> scope_wf ct scope ->
  (s ∈ candidates b subj ct /\ _ineligible s pol scope at_unix = Ok []
   <-> eligible b subj ct pol scope at_unix (cc_capability_id (cs_contract s)) s).
Proof.
  intros Hb Hw. rewrite elem_of_candidates, ineligible_nil. split.
  - intros [([id Hid] & Hsub & Hty) (Ha & H1 & H2 & H3 & H4 & H5)].
    destruct (inv_lookup b id s Hb Hid) as (Heq & Hwf & _). rewrite <- Hty in Hw.
    destruct (scope_contains_spec _ _ _ (cwf_scope _ Hwf) Hw) as (ok & Hok & Hiff).
    constructor; try done; [by rewrite Heq|]. rewrite <- Hty. apply Hiff. congruence.
  - intros [Hst Hsub Hty Ha Hwin Hpol Hu Hsc]. split; [by eauto|].
    destruct (inv_lookup b _ s Hb Hst) as (_ & Hwf & _). rewrite <- Hty in Hw.
    destruct (scope_contains_spec _ _ _ (cwf_scope _ Hwf) Hw) as (ok & Hok & Hiff).
    split_and!; try done; try lia. rewrite Hok. f_equal. apply Hiff. by rewrite Hty.
Qed.

(** The specification of a use decision. *)
Inductive use_decision (b : CapabilityBroker) (subj ct pol : string) (scope : dict) (at_unix : Z)
    (doc : dict) (b' : CapabilityBroker) : Prop :=
  | use_allowed id s :
      eligible b subj ct pol scope at_unix id s ->
      (forall id' s', eligible b subj ct pol scope at_unix id' s' -> String.le id id') ->
      dict_get doc "decision" = Some (JStr "ALLOW") ->
      dict_get doc "capability_id" = Some (JStr id) ->
      cb_states b' = <[id := use_state s]> (cb_states b) ->
      use_decision b subj ct pol scope at_unix doc b'
  | use_denied :
      (forall id s, ~ eligible b subj ct pol scope at_unix id s) ->
      dict_get doc "decision" = Some (JStr "BLOCK") ->
      dict_get doc "capability_id" = Some JNull ->
      cb_states b' = cb_states b ->
      use_decision b subj ct pol scope at_unix doc b'.

Lemma sorted_before {A} (f : A -> string) l1 x l2 y :
  StronglySorted (key_le f) (l1 ++ x :: l2) -> y ∈ l2 -> String.le (f x) (f y).
Proof.
  induction l1 as [|z l1 IH]; cbn; intros H Hy.
  - inversion H as [|? ? ? Hall]; subst. rewrite Forall_forall in Hall. by apply Hall.
  - inversion H; subst. by apply IH.
Qed.

Lemma commit_use_total b s subj ct pol act scope at_unix rid rsha :
  broker_inv b -> log_room b -> cb_states b !! cc_capability_id (cs_contract s) = Some s ->
  re_ident subj = true -> 0 <= at_unix -> re_sha act = true -> recorder_ok rid rsha = true ->
  cs_use_count s < cc_max_uses (cs_contract s) ->
  exists doc b', commit_use s subj ct pol act scope at_unix rid rsha b = (Ok doc, b')
    /\ dict_get doc "decision" = Some (JStr "ALLOW")
    /\ dict_get doc "capability_id" = Some (JStr (cc_capability_id (cs_contract s)))
    /\ cb_states b' = <[cc_capability_id (cs_contract s) := use_state s]> (cb_states b).
Proof.
  intros Hb Hroom Hs Hsub Hat Hact Hrec Hlt.
  pose proof (inv_lookup b _ s Hb Hs) as (_ & Hwf & _).
  assert (broker_inv (put_state (use_state s) b)) as Hb1.
  { apply put_ok; [|done]. intros _. split.
    - pose proof (inv_lookup b _ s Hb Hs) as (? & ? & ? & ?). split_and!; try done; cbn; lia.
    - intros s0 Hs0. cbn in Hs0. rewrite Hs in Hs0. injection Hs0 as <-. split_and!; [done|done|cbn; lia]. }
  unfold commit_use. rewrite M_modify, emit_run.
  rewrite event_request_build; try done.
  - eexists _, _. split; [reflexivity|]. split_and!; reflexivity.
  - by apply (cwf_id _ Hwf).
  - intros x [= <-]. cbn. rewrite (cwf_digest _ Hwf). apply canonical_sha256_sha.
  - by repeat constructor.
  - apply (bool_decide_eq_true_1 _). by vm_compute.
Qed.

Lemma deny_use_total b rs subj ct pol act scope at_unix rid rsha :
  broker_inv b -> log_room b -> (forall x, x ∈ rs -> x ∈ deny_codes) ->
  re_ident subj = true -> 0 <= at_unix -> re_sha act = true -> recorder_ok rid rsha = true ->
  exists doc b', deny_use rs subj ct pol act scope at_unix rid rsha b = (Ok doc, b')
    /\ dict_get doc "decision" = Some (JStr "BLOCK")
    /\ dict_get doc "capability_id" = Some JNull /\ cb_states b' = cb_states b.
Proof.
  intros Hb Hroom Hrs Hsub Hat Hact Hrec. unfold deny_use. cbv zeta.
  rewrite emit_run, event_request_build; try done.
  - eexists _, _. split; [reflexivity|]. split_and!; reflexivity.
  - apply Forall_forall. intros x Hx. rewrite elem_of_sorted_set in Hx.
    assert (x ∈ ["default_deny"; "no_matching_capability"] ++ deny_codes) as Hin.
    { case_bool_decide; apply elem_of_app; [by left|right; by apply Hrs]. }
    revert x Hin Hx. assert (Forall (fun x => re_ident x = true)
      (["default_deny"; "no_matching_capability"] ++ deny_codes)) as Hall by (by repeat constructor).
    rewrite Forall_forall in Hall. intros x Hin _. by apply Hall.
  - apply NoDup_sorted_set.
  - apply sorted_str_idemp.
  - intros E%sorted_set_nil. by case_bool_decide.
Qed.

Lemma authorize_run b subj ct pol rs act at_unix rid rsha scope :
  validate_scope ct (JObj rs) = Ok scope -> mem ct CAPABILITY_TYPES = true -> 0 <= at_unix ->
  authorize subj ct pol rs act at_unix rid rsha b
  = use_first (candidates b subj ct) [] subj ct pol (canonical_sha256 (JObj act)) scope
      at_unix rid rsha b.
Proof.
  intros Hscope Hct Hat. unfold authorize. rewrite M_lift. unfold _check_time.
  rewrite raise_if_false by (by apply Z.ltb_ge). rewrite M_lift, Hct. cbn [negb raise_if].
  rewrite M_bind_eq. unfold try_except, lift. by rewrite Hscope.
Qed.

Lemma authorize_decides_lemma b subj ct pol rs act at_unix rid rsha scope :
  broker_inv b -> log_room b -> validate_scope ct (JObj rs) = Ok scope ->
  mem ct CAPABILITY_TYPES = true -> re_ident subj = true -> 0 <= at_unix ->
  recorder_ok rid rsha = true ->
  exists doc b', authorize subj ct pol rs act at_unix rid rsha b = (Ok doc, b')
    /\ use_decision b subj ct pol scope at_unix doc b'.
Proof.
  intros Hb Hroom Hscope Hct Hsub Hat Hrec.
  pose proof (validate_scope_wf _ _ _ Hscope) as Hw.
  rewrite (authorize_run b subj ct pol rs act at_unix rid rsha scope) by done.
  destruct (use_first_cases (candidates b subj ct) [] subj ct pol (canonical_sha256 (JObj act))
    scope at_unix rid rsha b) as [(x & _ & s & e & Hin & He)|
      [(l1 & s & l2 & Hl & Hl1 & Hs & ->)|(rs' & Hall & Hrs' & ->)]].
  - exfalso. apply elem_of_candidates in Hin as ([id Hid] & _ & Hty).
    destruct (ineligible_total b id s pol scope at_unix Hb Hid) as [bad Hbad]; [by rewrite Hty|].
    by rewrite Hbad in He.
  - assert (s ∈ candidates b subj ct) as Hin by (rewrite Hl; apply elem_of_app; right; by left).
    pose proof (proj1 (eligible_iff b subj ct pol scope at_unix s Hb Hw) (conj Hin Hs)) as He.
    destruct (commit_use_total b s subj ct pol (canonical_sha256 (JObj act)) scope at_unix rid rsha)
      as (doc & b' & -> & Hd & Hc & Hst); try done; [by apply He|by apply canonical_sha256_sha|by apply He|].
    exists doc, b'. split; [done|]. eapply use_allowed; [exact He| |done..].
    intros id' s' He'. pose proof (inv_lookup b id' s' Hb (el_stored _ _ _ _ _ _ _ _ He')) as [<- _].
    apply eligible_iff in He' as [Hin' Hs']; [|done..].
    rewrite Hl in Hin'. apply elem_of_app in Hin' as [Hin'|[->|Hin']%elem_of_cons].
    + rewrite Forall_forall in Hl1. destruct (Hl1 s' Hin') as (bad & Hbad & Hne). congruence.
    + done.
    + eapply (sorted_before (fun s => cc_capability_id (cs_contract s)) l1 s l2); [|done].
      rewrite <- Hl. apply sorted_on_sorted.
  - destruct (deny_use_total b rs' subj ct pol (canonical_sha256 (JObj act)) scope at_unix rid rsha)
      as (doc & b' & -> & Hd & Hc & Hst); try done; [|by apply canonical_sha256_sha|].
    { intros x Hx. destruct (Hrs' x Hx) as [H|(s & bad & _ & Hbad & Hin)]; [inversion H|].
      by eapply ineligible_codes. }
    exists doc, b'. split; [done|]. apply use_denied; try done.
    intros id s He. pose proof (inv_lookup b id s Hb (el_stored _ _ _ _ _ _ _ _ He)) as [<- _].
    apply eligible_iff in He as [Hin Hs]; [|done..].
    rewrite Forall_forall in Hall. destruct (Hall s Hin) as (bad & Hbad & Hne). congruence.
Qed.

(** *** Reachable states *)

(** One call of the broker's interface, returning or raising. *)
Inductive broker_step (b : CapabilityBroker) : CapabilityBroker -> Prop :=
  | step_admit d at_unix : broker_step b (snd (admit_contract d at_unix b))
  | step_authorize subj ct pol rs act at_unix rid rsha :
      broker_step b (snd (authorize subj ct pol rs act at_unix rid rsha b))
  | step_revoke id at_unix : broker_step b (snd (revoke id at_unix b))
  | step_expire at_unix : broker_step b (snd (expire_due at_unix b)).

Lemma broker_step_ok b b' : broker_step b b' -> broker_ok b b'.
Proof.
  destruct 1; [apply admit_ok|apply authorize_ok|apply revoke_ok|apply expire_due_ok].
Qed.

Lemma star_broker_ok b b' : star broker_step b b' -> broker_ok b b'.
Proof. induction 1; [reflexivity|]. etrans; [done|]. by apply broker_step_ok. Qed.

Definition fresh_broker (broker_id : string) : CapabilityBroker := {|
  cb_broker_id := broker_id; cb_states := ∅; cb_events := []; cb_receipts := [];
  cb_head := ZERO_SHA256 |}.

Lemma init_ok broker_id b : CapabilityBroker_init broker_id = Ok b -> b = fresh_broker broker_id.
Proof. unfold CapabilityBroker_init. intros H. by py_inv. Qed.

Lemma fresh_inv broker_id : broker_inv (fresh_broker broker_id).
Proof.
  by constructor.
Qed.

Lemma reachable_inv broker_id b0 b :
  CapabilityBroker_init broker_id = Ok b0 -> star broker_step b0 b -> broker_inv b.
Proof. intros ->%init_ok Hs. apply (star_broker_ok _ _ Hs), fresh_inv. Qed.

(** A capability that is not active is never used again. *)
Lemma inactive_never_used b b' id s subj ct pol rs act at_unix rid rsha doc b'' :
  broker_inv b -> cb_states b !! id = Some s -> cs_status s <> Active -> star broker_step b b' ->
  authorize subj ct pol rs act at_unix rid rsha b' = (Ok doc, b'') ->
  dict_get doc "capability_id" <> Some (JStr id).
Proof.
  intros Hb Hs Hna Hstar Ha. destruct (star_broker_ok _ _ Hstar Hb) as [Hb' Hle].
  destruct (bl_states _ _ Hle id s Hs) as (s' & Hs' & _ & Hst & _). specialize (Hst Hna).
  destruct (authorize_cases subj ct pol rs act at_unix rid rsha b') as [[x E]|(scope & Hsc & E)];
    rewrite E in Ha; [done|].
  destruct (use_first_cases (candidates b' subj ct) [] subj ct pol (canonical_sha256 (JObj act))
    scope at_unix rid rsha b') as [(x & E2 & _)|[(l1 & u & l2 & Hl & _ & Hu & E2)|(rs' & _ & _ & E2)]];
    rewrite E2 in Ha; [done| |].
  - destruct (commit_use_cases u subj ct pol (canonical_sha256 (JObj act)) scope at_unix rid rsha b')
      as [[x E3]|(e & _ & E3)]; rewrite E3 in Ha; [done|].
    injection Ha as <- _. cbn. intros [= Hid].
    apply ineligible_nil in Hu as (Hact & _).
    assert (u ∈ candidates b' subj ct) as Hin by (rewrite Hl; apply elem_of_app; right; by left).
    apply elem_of_candidates in Hin as [[id' Hid'] _].
    destruct (inv_lookup b' id' u Hb' Hid') as [Heq _]. rewrite <- Heq, Hid in Hid'. congruence.
  - destruct (deny_use_cases rs' subj ct pol (canonical_sha256 (JObj act)) scope at_unix rid rsha b')
      as [[x E3]|(e & ? & _ & E3)]; rewrite E3 in Ha; [done|].
    by injection Ha as <- _.
Qed.
(** An eligible request with half a recorder link is charged and then raises. *)
Lemma burned_use b subj ct pol rs act at_unix rid scope :
  broker_inv b -> validate_scope ct (JObj rs) = Ok scope ->
  mem ct CAPABILITY_TYPES = true -> 0 <= at_unix ->
  (exists id s, eligible b subj ct pol scope at_unix id s) ->
  exists x b' id s, authorize subj ct pol rs act at_unix (Some rid) None b = (Err x, b')
    /\ eligible b subj ct pol scope at_unix id s
    /\ cb_states b' = <[id := use_state s]> (cb_states b)
    /\ cb_events b' = cb_events b /\ cb_receipts b' = cb_receipts b.
Proof.
  intros Hb Hscope Hct Hat (id0 & s0 & He0).
  pose proof (validate_scope_wf _ _ _ Hscope) as Hw.
  pose proof (inv_lookup b id0 s0 Hb (el_stored _ _ _ _ _ _ _ _ He0)) as [Hid0 _].
  rewrite <- Hid0 in He0. apply eligible_iff in He0 as [Hin0 Hs0]; [|done..].
  rewrite (authorize_run b subj ct pol rs act at_unix (Some rid) None scope) by done.
  destruct (use_first_cases (candidates b subj ct) [] subj ct pol (canonical_sha256 (JObj act))
    scope at_unix (Some rid) None b) as [(x & _ & s & e & Hin & He)|
      [(l1 & s & l2 & Hl & _ & Hs & ->)|(rs' & Hall & _ & _)]].
  - exfalso. apply elem_of_candidates in Hin as ([id Hid] & _ & Hty).
    destruct (ineligible_total b id s pol scope at_unix Hb Hid) as [bad Hbad]; [by rewrite Hty|].
    by rewrite Hbad in He.
  - assert (s ∈ candidates b subj ct) as Hin by (rewrite Hl; apply elem_of_app; right; by left).
    pose proof (proj1 (eligible_iff b subj ct pol scope at_unix s Hb Hw) (conj Hin Hs)) as He.
    unfold commit_use. rewrite M_modify, emit_run.
    destruct (CausalRuntimeEvent_build _) as [ev|x] eqn:E.
    + apply event_build_sound in E as (_ & _ & _ & _ & _ & _ & _ & _ & _ & Hrec). cbn in Hrec.
      destruct Hrec as [_ Hrec]. by specialize (Hrec eq_refl).
    + exists x, (put_state (use_state s) b), (cc_capability_id (cs_contract s)), s. done.
  - exfalso. rewrite Forall_forall in Hall. destruct (Hall s0 Hin0) as (bad & Hbad & Hne). congruence.
Qed.
(** What an ALLOW answer tells, whatever the state of the log. *)
Lemma authorize_allow_sound b subj ct pol rs act at_unix rid rsha doc b' :
  broker_inv b -> authorize subj ct pol rs act at_unix rid rsha b = (Ok doc, b') ->
  dict_get_none doc "decision" = JStr "ALLOW" ->
  exists scope id s, validate_scope ct (JObj rs) = Ok scope
    /\ eligible b subj ct pol scope at_unix id s
    /\ dict_get_none doc "capability_id" = JStr id
    /\ cb_states b' = <[id := use_state s]> (cb_states b).
Proof.
  intros Hb Ha Hdec.
  destruct (authorize_cases subj ct pol rs act at_unix rid rsha b) as [[x E]|(scope & Hsc & E)];
    rewrite E in Ha; [done|].
  pose proof (validate_scope_wf _ _ _ Hsc) as Hw.
  destruct (use_first_cases (candidates b subj ct) [] subj ct pol (canonical_sha256 (JObj act))
    scope at_unix rid rsha b) as [(x & E2 & _)|[(l1 & u & l2 & Hl & _ & Hu & E2)|(rs' & _ & _ & E2)]];
    rewrite E2 in Ha; [done| |].
  - destruct (commit_use_cases u subj ct pol (canonical_sha256 (JObj act)) scope at_unix rid rsha b)
      as [[x E3]|(e & _ & E3)]; rewrite E3 in Ha; [done|]. injection Ha as <- <-.
    assert (u ∈ candidates b subj ct) as Hin by (rewrite Hl; apply elem_of_app; right; by left).
    exists scope, (cc_capability_id (cs_contract u)), u. split_and!; try done.
    by apply eligible_iff.
  - destruct (deny_use_cases rs' subj ct pol (canonical_sha256 (JObj act)) scope at_unix rid rsha b)
      as [[x E3]|(e & ? & _ & E3)]; rewrite E3 in Ha; [done|]. by injection Ha as <- _.
Qed.

Lemma lifecycle_total b id s t dec rs at_unix :
  broker_inv b -> log_room b -> cap_ok id s -> mem t CAPABILITY_EVENTS = true ->
  mem dec DECISIONS = true -> 0 <= at_unix -> Forall (fun s => re_ident s = true) rs ->
  NoDup rs -> sorted_str rs = rs -> rs <> [] ->
  exists e r, _lifecycle s t dec rs at_unix b
    = (Ok (CapabilityDecisionReceipt_as_document r), emitted e r b)
    /\ dr_decision r = dec /\ re_sha (dr_receipt_sha256 r) = true.
Proof.
  intros Hb Hroom (_ & Hwf & _) Ht Hd Hat H1 H2 H3 H4. unfold _lifecycle. cbv zeta.
  rewrite emit_run, event_request_build; try done.
  - eexists _, _. split; [reflexivity|]. split; [done|]. apply canonical_sha256_sha.
  - by apply (cwf_subject _ Hwf).
  - by apply (cwf_id _ Hwf).
  - rewrite (cwf_digest _ Hwf). apply canonical_sha256_sha.
Qed.

(** Revoking an active capability succeeds and touches no other one. *)
Lemma revoke_total b id s at_unix :
  broker_inv b -> log_room b -> cb_states b !! id = Some s -> cs_status s = Active ->
  0 <= at_unix ->
  exists doc b', revoke id at_unix b = (Ok doc, b')
    /\ dict_get_none doc "decision" = JStr "ALLOW"
    /\ cb_states b' = <[id := revoke_state s at_unix]> (cb_states b)
    /\ length (cb_events b') = S (length (cb_events b)).
Proof.
  intros Hb Hroom Hs Ha Hat. unfold revoke. rewrite M_lift. unfold _check_time.
  rewrite raise_if_false by (by apply Z.ltb_ge). rewrite M_get, M_lift. unfold _require. rewrite Hs, Ha.
  cbn [bool_decide negb]. rewrite bool_decide_eq_true_2 by done. cbn [negb]. cbv zeta. rewrite M_modify.
  pose proof (inv_lookup b id s Hb Hs) as Hok. pose proof Hok as [Hid _].
  destruct (put_status_ok b id s (revoke_state s at_unix) Hs Ha eq_refl eq_refl Hb) as [Hb1 _].
  destruct (lifecycle_total (put_state (revoke_state s at_unix) b) id (revoke_state s at_unix)
    "revoke" "ALLOW" ["explicit_revoke"] at_unix) as (e & r & -> & Hr & _); try done.
  - by repeat constructor.
  - apply (bool_decide_eq_true_1 _). by vm_compute.
  - eexists _, _. split; [reflexivity|]. split_and!.
    + cbn. by rewrite Hr.
    + cbn. by rewrite Hid.
    + cbn. rewrite length_app. cbn. lia.
Qed.
End lemmas.

(** ** Example values *)
Definition example_document : dict :=
  @seal checksum_digest "contract_sha256"
    (provisional_body CAPABILITY_SCHEMA AUTHORITY example_kwargs).

Definition example_broker : CapabilityBroker :=
  snd (@admit_contract checksum_digest example_document 100 (fresh_broker "broker:test")).

Lemma example_broker_reachable :
  CapabilityBroker_init "broker:test" = Ok (fresh_broker "broker:test")
  /\ star (@broker_step checksum_digest) (fresh_broker "broker:test") example_broker.
Proof. split; [done|]. eapply star_step; [apply star_refl|apply step_admit]. Qed.

(** ** Properties *)

(** C27: a well-formed request to a broker reached by any sequence of calls is always
    decided. The decision is ALLOW exactly when some stored capability of that
    subject and type is active, inside its window, under the requested policy, with
    uses left and a scope that contains the request; then the one with the least
    identifier is charged one use and nothing else changes. Otherwise the decision is
    BLOCK (default deny) and no capability changes. *)
Theorem authorize_decides `{hash : Digest} (broker_id : string) (b0 b : CapabilityBroker)
    (subject_id capability_type policy : string) (request action scope : dict) (at_unix : Z)
    (rid rsha : option string)
    (Hinit : CapabilityBroker_init broker_id = Ok b0) (Hreach : star broker_step b0 b)
    (Hroom : log_room b) (Hscope : validate_scope capability_type (JObj request) = Ok scope)
    (Htype : mem capability_type CAPABILITY_TYPES = true) (Hsubject : re_ident subject_id = true)
    (Htime : 0 <= at_unix) (Hrecorder : recorder_ok rid rsha = true) :
  exists doc b',
    authorize subject_id capability_type policy request action at_unix rid rsha b = (Ok doc, b')
    /\ use_decision b subject_id capability_type policy scope at_unix doc b'.
Proof. apply authorize_decides_lemma; try done. by eapply reachable_inv. Qed.

Lemma authorize_decides_witness :
  exists scope, validate_scope "repository.read" (JObj example_scope) = Ok scope
  /\ exists doc b',
    @authorize checksum_digest "agent:1" "repository.read" ZERO_SHA256 example_scope [] 150
      None None example_broker = (Ok doc, b')
    /\ use_decision example_broker "agent:1" "repository.read" ZERO_SHA256 scope 150 doc b'.
Proof.
  eexists. split; [vm_compute; reflexivity|].
  apply (@authorize_decides checksum_digest "broker:test" (fresh_broker "broker:test")).
  - vm_compute. reflexivity.
  - apply example_broker_reachable.
  - vm_compute. reflexivity.
  - vm_compute. reflexivity.
  - vm_compute. reflexivity.
  - vm_compute. reflexivity.
  - lia.
  - reflexivity.
Defined.

(** C1: in every state any sequence of calls can reach, returning or raising, a
    capability has been charged at most [max_uses] uses, and the log holds no more
    "use" events for it than the uses charged. *)
Theorem use_bound_never_exceeded `{hash : Digest} (broker_id : string) (b0 b : CapabilityBroker)
    (id : string) (s : _State)
    (Hinit : CapabilityBroker_init broker_id = Ok b0) (Hreach : star broker_step b0 b)
    (Hstored : cb_states b !! id = Some s) :
  uses_of id (cb_events b) <= cs_use_count s <= cc_max_uses (cs_contract s)
  /\ cc_max_uses (cs_contract s) <= 1000.
Proof.
  pose proof (reachable_inv _ _ _ Hinit Hreach) as Hb.
  pose proof (bi_uses b Hb id) as Hu. unfold use_count_of in Hu. rewrite Hstored in Hu. cbn in Hu.
  destruct (inv_lookup b id s Hb Hstored) as (_ & Hwf & _ & ?). pose proof (cwf_uses _ Hwf). lia.
Qed.

Lemma use_bound_never_exceeded_witness :
  exists s, cb_states example_broker !! "cap:1" = Some s
  /\ (uses_of "cap:1" (cb_events example_broker) <= cs_use_count s <= cc_max_uses (cs_contract s)
      /\ cc_max_uses (cs_contract s) <= 1000).
Proof.
  eexists. split; [vm_compute; reflexivity|].
  apply (@use_bound_never_exceeded checksum_digest "broker:test" (fresh_broker "broker:test")).
  - apply example_broker_reachable.
  - apply example_broker_reachable.
  - vm_compute. reflexivity.
Defined.

(** C29: revocation and expiry are final: once a capability is not active, no decision
    after any further sequence of calls names it, whatever is requested. *)
Theorem inactive_is_final `{hash : Digest} (broker_id : string) (b0 b b' b'' : CapabilityBroker)
    (id : string) (s : _State) (subject_id capability_type policy : string)
    (request action : dict) (at_unix : Z) (rid rsha : option string) (doc : dict)
    (Hinit : CapabilityBroker_init broker_id = Ok b0) (Hreach : star broker_step b0 b)
    (Hstored : cb_states b !! id = Some s) (Hinactive : cs_status s <> Active)
    (Hlater : star broker_step b b')
    (Hauth : authorize subject_id capability_type policy request action at_unix rid rsha b'
             = (Ok doc, b'')) :
  dict_get doc "capability_id" <> Some (JStr id).
Proof. eapply (inactive_never_used b b'); try done. by eapply reachable_inv. Qed.

Definition revoked_broker : CapabilityBroker :=
  snd (@revoke checksum_digest "cap:1" 120 example_broker).

Lemma inactive_is_final_witness :
  exists s doc b'', cb_states revoked_broker !! "cap:1" = Some s
  /\ @authorize checksum_digest "agent:1" "repository.read" ZERO_SHA256 example_scope [] 150
       None None revoked_broker = (Ok doc, b'')
  /\ dict_get doc "capability_id" <> Some (JStr "cap:1").
Proof.
  eexists _, _, _. split; [vm_compute; reflexivity|]. split; [vm_compute; reflexivity|].
  eapply (@inactive_is_final checksum_digest "broker:test" (fresh_broker "broker:test")
            revoked_broker revoked_broker _ "cap:1" _ "agent:1" "repository.read" ZERO_SHA256
            example_scope [] 150 None None).
  - apply example_broker_reachable.
  - eapply star_step; [apply example_broker_reachable|apply step_revoke].
  - vm_compute. reflexivity.
  - discriminate.
  - apply star_refl.
  - vm_compute. reflexivity.
Defined.

(** In every reachable state the causal events form one hash chain from the zero
    digest to the broker's head, every event is well-formed, and the receipts
    correspond to the events one by one, each binding its event's digest and
    decision and sealed by its own digest. *)
Theorem broker_log_sound `{hash : Digest} (broker_id : string) (b0 b : CapabilityBroker)
    (Hinit : CapabilityBroker_init broker_id = Ok b0) (Hreach : star broker_step b0 b) :
  linked ev_previous_causal_event_sha256 ev_event_sha256 ZERO_SHA256 (cb_events b) (cb_head b)
  /\ Forall event_wf (cb_events b) /\ Forall2 receipt_of (cb_events b) (cb_receipts b).
Proof. pose proof (reachable_inv _ _ _ Hinit Hreach) as []. done. Qed.

Lemma broker_log_sound_witness :
  length (cb_events revoked_broker) = 2%nat
  /\ linked ev_previous_causal_event_sha256 ev_event_sha256 ZERO_SHA256
       (cb_events revoked_broker) (cb_head revoked_broker)
  /\ Forall (@event_wf checksum_digest) (cb_events revoked_broker)
  /\ Forall2 (@receipt_of checksum_digest) (cb_events revoked_broker) (cb_receipts revoked_broker).
Proof.
  split; [vm_compute; reflexivity|].
  apply (@broker_log_sound checksum_digest "broker:test" (fresh_broker "broker:test")).
  - apply example_broker_reachable.
  - eapply star_step; [apply example_broker_reachable|apply step_revoke].
Defined.

(** Delegation fails closed: no state reachable from a new broker holds a
    capability that declares a parent, because a delegable contract must itself
    declare one. *)
Theorem no_delegated_capability `{hash : Digest} (broker_id : string) (b0 b : CapabilityBroker)
    (Hinit : CapabilityBroker_init broker_id = Ok b0) (Hreach : star broker_step b0 b) :
  map_Forall (fun _ s => cc_parent_capability_id (cs_contract s) = None
                         /\ cc_delegable (cs_contract s) = false) (cb_states b).
Proof.
  intros id s Hs. destruct (inv_lookup b id s (reachable_inv _ _ _ Hinit Hreach) Hs)
    as (_ & Hwf & Hp & _).
  split; [done|]. destruct (cc_delegable (cs_contract s)) eqn:E; [|done].
  by apply (cwf_delegable _ Hwf) in E.
Qed.

Lemma no_delegated_capability_witness :
  map_Forall (fun _ s => cc_parent_capability_id (cs_contract s) = None
                         /\ cc_delegable (cs_contract s) = false) (cb_states example_broker).
Proof.
  apply (@no_delegated_capability checksum_digest "broker:test" (fresh_broker "broker:test"));
    apply example_broker_reachable.
Defined.

(** On validated scopes of one capability type [_scope_contains] always answers,
    the answer is that the request names the granted repository, only granted keys,
    and for each key a subset of the granted list, an equal string or a smaller bound;
    and narrowing a narrowed scope narrows the original one. *)
Theorem scope_containment `{hash : Digest} (t : string) (granted requested inner : dict)
    (Hg : scope_wf t granted) (Hr : scope_wf t requested) (Hi : scope_wf t inner) :
  (exists ok, _scope_contains t granted requested = Ok ok
     /\ (ok = true <-> scope_within t requested granted))
  /\ (_scope_contains t granted requested = Ok true -> _scope_contains t requested inner = Ok true ->
      _scope_contains t granted inner = Ok true).
Proof.
  split; [by apply scope_contains_spec|]. intros H1 H2.
  destruct (scope_contains_spec t granted requested Hg Hr) as (a & Ha & Ia).
  destruct (scope_contains_spec t requested inner Hr Hi) as (c & Hc & Ic).
  destruct (scope_contains_spec t granted inner Hg Hi) as (d & Hd & Id).
  rewrite Hd. f_equal. apply Id. apply (scope_within_trans t inner requested granted).
  - apply Ic. congruence.
  - apply Ia. congruence.
Qed.

Definition narrow_scope : dict := [("paths", jstrs ["src"]); ("repository", JStr "owner/repo")].

Definition wide_scope : dict := [("paths", jstrs ["docs"; "src"]); ("repository", JStr "owner/repo")].

Lemma scope_containment_witness :
  scope_wf "repository.read" narrow_scope /\
  ((exists ok, _scope_contains "repository.read" wide_scope narrow_scope = Ok ok
     /\ (ok = true <-> scope_within "repository.read" narrow_scope wide_scope))
  /\ (_scope_contains "repository.read" wide_scope narrow_scope = Ok true ->
      _scope_contains "repository.read" narrow_scope narrow_scope = Ok true ->
      _scope_contains "repository.read" wide_scope narrow_scope = Ok true)).
Proof.
  split; [split; vm_compute; reflexivity|].
  apply (@scope_containment checksum_digest); split; vm_compute; reflexivity.
Defined.

(** A use is charged before its event is built. An otherwise allowed request whose
    recorder link is half given raises and leaves the log and the receipts unchanged,
    but the chosen capability has lost one use: a charge with no evidence. *)
Theorem half_recorder_burns_use `{hash : Digest} (broker_id : string) (b0 b : CapabilityBroker)
    (subject_id capability_type policy rid : string) (request action scope : dict) (at_unix : Z)
    (Hinit : CapabilityBroker_init broker_id = Ok b0) (Hreach : star broker_step b0 b)
    (Hscope : validate_scope capability_type (JObj request) = Ok scope)
    (Htype : mem capability_type CAPABILITY_TYPES = true) (Htime : 0 <= at_unix)
    (Hsome : exists id s, eligible b subject_id capability_type policy scope at_unix id s) :
  exists x b' id s,
    authorize subject_id capability_type policy request action at_unix (Some rid) None b
    = (Err x, b')
    /\ eligible b subject_id capability_type policy scope at_unix id s
    /\ cb_states b' = <[id := use_state s]> (cb_states b)
    /\ cb_events b' = cb_events b /\ cb_receipts b' = cb_receipts b.
Proof.
  apply burned_use; try done. by eapply reachable_inv.
Qed.

Lemma half_recorder_burns_use_witness :
  exists scope, validate_scope "repository.read" (JObj example_scope) = Ok scope
  /\ exists x b' id s,
    @authorize checksum_digest "agent:1" "repository.read" ZERO_SHA256 example_scope [] 150
      (Some "recorder:1") None example_broker = (Err x, b')
    /\ eligible example_broker "agent:1" "repository.read" ZERO_SHA256 scope 150 id s
    /\ cb_states b' = <[id := use_state s]> (cb_states example_broker)
    /\ cb_events b' = cb_events example_broker /\ cb_receipts b' = cb_receipts example_broker.
Proof.
  eexists. split; [vm_compute; reflexivity|].
  apply (@half_recorder_burns_use checksum_digest "broker:test" (fresh_broker "broker:test")).
  - apply example_broker_reachable.
  - apply example_broker_reachable.
  - vm_compute. reflexivity.
  - vm_compute. reflexivity.
  - lia.
  - eexists "cap:1", _. constructor.
    + vm_compute. reflexivity.
    + reflexivity.
    + reflexivity.
    + reflexivity.
    + cbn. lia.
    + reflexivity.
    + cbn. lia.
    + split; [reflexivity|]. intros k v Hin.
      apply elem_of_cons in Hin as [[= -> ->]|[[= -> ->]|Hin]%elem_of_cons]; [| |inversion Hin].
      * eexists. split; [reflexivity|]. cbn. intros x Hx. exact Hx.
      * eexists. split; reflexivity.
Defined.
