(* ===== verification/EpochBroker.v ===== *)
(** * Epoch-bound capabilities (sdk/liminal_epoch_bound_capability/__init__.py)

    Contracts bound to a runtime epoch and state digest, and the broker that drops
    stale and unbound authority before it delegates to the capability broker. The
    runtime provider is host code: the result of its [state_document] is the argument
    [runtime] of the calls that consult it. *)
From stdpp Require Import gmap.
From S2P Require Import Prelude PyStr Json Digest Contracts CapabilityBroker.
#[local] Open Scope Z_scope.

(** ** Constants *)
Definition CONTRACT_SCHEMA : string := "liminal-epoch-bound-capability-contract-v0.1".
Definition DECISION_SCHEMA : string := "liminal-epoch-bound-capability-decision-v0.1".
Definition STATE_SCHEMA : string := "liminal-epoch-bound-capability-broker-state-v0.1".

Definition AUTHORITY : dict :=
  [("mode", JStr "runtime_epoch_capability_restriction");
   ("base_capability_schema_preserved", JBool true);
   ("trusted_runtime_state_required", JBool true); ("admission_epoch_check", JBool true);
   ("use_epoch_check", JBool true); ("stale_authority_revocation", JBool true);
   ("unbound_authority_revocation", JBool true); ("new_effect_grant", JBool false);
   ("runtime_mutation", JBool false); ("process_execution", JBool false);
   ("network_access", JBool false); ("credential_access", JBool false);
   ("kernel_enforcement", JBool false)].

(** ** Validators *)
Definition _sha (value : json) (name : string) : result string :=
  check_sha EpochBindingError (name +:+ " must be lowercase SHA-256") value.

Definition _time (value : json) (name : string) : result Z :=
  match value with
  | JInt z => if z <? 0 then fail EpochBindingError (name +:+ " must be a non-negative integer")
              else Ok z
  | _ => fail EpochBindingError (name +:+ " must be a non-negative integer")
  end.

(** [dict(v)]: a mapping, or an iterable of key/value pairs. *)
Definition pair_of (v : json) : result (string * json) :=
  match v with
  | JList [JStr k; x] => Ok (k, x)
  | JStr (String a (String b EmptyString)) =>
      Ok (String a EmptyString, JStr (String b EmptyString))
  | _ => fail TypeError "cannot convert dictionary update sequence element"
  end.

Definition py_dict (v : json) : result dict :=
  match v with
  | JObj d => Ok d
  | JList l =>
      items ← map_r pair_of l;
      Ok (fold_left (fun d kv => dict_set d (fst kv) (snd kv)) items [])
  | JStr EmptyString => Ok []
  | _ => fail TypeError "object is not iterable"
  end.

(** ** Trusted runtime snapshots *)
Record TrustedRuntimeSnapshot := {
  sn_epoch : Z;
  sn_state_sha256 : string;
  sn_tainted : bool;
  sn_snapshot_sha256 : string
}.

(** ** Bound contracts

    [base_capability] always is the serialisation of a parsed contract; the record
    keeps the contract, and [base_reparsed] shows that the [base] property, which
    parses the serialisation again, gives it back. *)
Record EpochBoundCapabilityContract := {
  bc_base : CapabilityContract;
  bc_runtime_epoch : Z;
  bc_runtime_state_sha256 : string;
  bc_binding_sha256 : string
}.

Definition EpochBoundCapabilityContract_body (b : EpochBoundCapabilityContract) : dict :=
  [("schema", JStr CONTRACT_SCHEMA);
   ("base_capability", JObj (CapabilityContract_as_document (bc_base b)));
   ("runtime_epoch", JInt (bc_runtime_epoch b));
   ("runtime_state_sha256", JStr (bc_runtime_state_sha256 b));
   ("authority", JObj AUTHORITY)].

Definition EpochBoundCapabilityContract_as_document (b : EpochBoundCapabilityContract) : dict :=
  dict_set (EpochBoundCapabilityContract_body b) "binding_sha256" (JStr (bc_binding_sha256 b)).

Definition bound_keys : list string :=
  ["schema"; "base_capability"; "runtime_epoch"; "runtime_state_sha256"; "authority";
   "binding_sha256"].

(** ** Decision receipts *)
Record EpochBoundDecisionReceipt := {
  er_decision_id : string;
  er_capability_id : option string;
  er_subject_id : string;
  er_capability_type : string;
  er_bound_contract_sha256 : string;
  er_base_contract_sha256 : string;
  er_runtime_epoch_bound : Z;
  er_runtime_epoch_observed : Z;
  er_runtime_state_sha256_bound : string;
  er_runtime_state_sha256_observed : string;
  er_runtime_snapshot_sha256 : string;
  er_delegate_receipt_sha256 : string;
  er_decision : string;
  er_reason_codes : list string;
  er_at_unix : Z;
  er_receipt_sha256 : string
}.

Definition EpochBoundDecisionReceipt_body (r : EpochBoundDecisionReceipt) : dict :=
  [("schema", JStr DECISION_SCHEMA);
   ("decision_id", JStr (er_decision_id r));
   ("capability_id", jopt (er_capability_id r));
   ("subject_id", JStr (er_subject_id r));
   ("capability_type", JStr (er_capability_type r));
   ("bound_contract_sha256", JStr (er_bound_contract_sha256 r));
   ("base_contract_sha256", JStr (er_base_contract_sha256 r));
   ("runtime_epoch_bound", JInt (er_runtime_epoch_bound r));
   ("runtime_epoch_observed", JInt (er_runtime_epoch_observed r));
   ("runtime_state_sha256_bound", JStr (er_runtime_state_sha256_bound r));
   ("runtime_state_sha256_observed", JStr (er_runtime_state_sha256_observed r));
   ("runtime_snapshot_sha256", JStr (er_runtime_snapshot_sha256 r));
   ("delegate_receipt_sha256", JStr (er_delegate_receipt_sha256 r));
   ("decision", JStr (er_decision r));
   ("reason_codes", jstrs (er_reason_codes r));
   ("at_unix", JInt (er_at_unix r));
   ("authority", JObj AUTHORITY)].

Definition EpochBoundDecisionReceipt_as_document (r : EpochBoundDecisionReceipt) : dict :=
  dict_set (EpochBoundDecisionReceipt_body r) "receipt_sha256" (JStr (er_receipt_sha256 r)).

Definition receipt_keys : list string :=
  ["schema"; "decision_id"; "capability_id"; "subject_id"; "capability_type";
   "bound_contract_sha256"; "base_contract_sha256"; "runtime_epoch_bound";
   "runtime_epoch_observed"; "runtime_state_sha256_bound"; "runtime_state_sha256_observed";
   "runtime_snapshot_sha256"; "delegate_receipt_sha256"; "decision"; "reason_codes";
   "at_unix"; "authority"].

(** ** The broker *)
Record EpochBoundCapabilityBroker := {
  eb_delegate : CapabilityBroker;
  eb_broker_id : string;
  eb_bindings : gmap string EpochBoundCapabilityContract;
  eb_receipts : list EpochBoundDecisionReceipt;
  eb_head : string
}.

Definition set_delegate (d : CapabilityBroker) (b : EpochBoundCapabilityBroker)
    : EpochBoundCapabilityBroker := {|
  eb_delegate := d; eb_broker_id := eb_broker_id b; eb_bindings := eb_bindings b;
  eb_receipts := eb_receipts b; eb_head := eb_head b |}.

Definition put_binding (id : string) (bound : EpochBoundCapabilityContract)
    (b : EpochBoundCapabilityBroker) : EpochBoundCapabilityBroker := {|
  eb_delegate := eb_delegate b; eb_broker_id := eb_broker_id b;
  eb_bindings := <[id := bound]> (eb_bindings b);
  eb_receipts := eb_receipts b; eb_head := eb_head b |}.

Definition push_receipt (r : EpochBoundDecisionReceipt) (b : EpochBoundCapabilityBroker)
    : EpochBoundCapabilityBroker := {|
  eb_delegate := eb_delegate b; eb_broker_id := eb_broker_id b; eb_bindings := eb_bindings b;
  eb_receipts := eb_receipts b ++ [r]; eb_head := er_receipt_sha256 r |}.

(** A call of a method of [self.delegate]. *)
Definition on_delegate {A} (m : M CapabilityBroker A) : M EpochBoundCapabilityBroker A :=
  zoom eb_delegate set_delegate m.

(** [EpochBoundCapabilityBroker(delegate=..., broker_id=...)]. *)
Definition EpochBoundCapabilityBroker_init (delegate : CapabilityBroker) (broker_id : string)
    : EpochBoundCapabilityBroker := {|
  eb_delegate := delegate; eb_broker_id := broker_id; eb_bindings := ∅; eb_receipts := [];
  eb_head := ZERO_SHA256 |}.

Definition _binding_mismatch (bound : EpochBoundCapabilityContract)
    (snapshot : TrustedRuntimeSnapshot) : list string :=
  (if negb (bc_runtime_epoch bound =? sn_epoch snapshot) then ["stale_runtime_epoch"] else [])
  ++ (if negb (String.eqb (bc_runtime_state_sha256 bound) (sn_state_sha256 snapshot))
      then ["stale_runtime_state"] else []).

(** The strings of [v], a value used as a collection of reason codes. *)
Definition reason_list (v : json) : result (list string) :=
  match v with
  | JList l => map_r (fun x => match x with JStr s => Ok s | _ => fail TypeError "reason" end) l
  | _ => fail TypeError "reason codes"
  end.

Section epoch.
Context {hash : Digest}.

Definition snapshot_body (epoch : Z) (state : string) (tainted : bool) : dict :=
  [("epoch", JInt epoch); ("state_sha256", JStr state); ("tainted", JBool tainted)].

Definition from_provider (runtime : result dict) : result TrustedRuntimeSnapshot :=
  raw ← runtime;
  epoch ← _time (dict_get_none raw "epoch") "runtime epoch";
  state ← _sha (dict_get_none raw "state_sha256") "runtime state_sha256";
  match dict_get_none raw "tainted" with
  | JBool tainted =>
      Ok {| sn_epoch := epoch; sn_state_sha256 := state; sn_tainted := tainted;
            sn_snapshot_sha256 := canonical_sha256 (JObj (snapshot_body epoch state tainted)) |}
  | _ => fail EpochBindingError "runtime tainted flag must be boolean"
  end.

Definition EpochBoundCapabilityContract_build (base_capability : dict) (runtime_epoch : Z)
    (runtime_state_sha256 : string) : result EpochBoundCapabilityContract :=
  base ← CapabilityContract_from_document (JObj base_capability);
  epoch ← _time (JInt runtime_epoch) "runtime_epoch";
  state ← _sha (JStr runtime_state_sha256) "runtime_state_sha256";
  let item d := {| bc_base := base; bc_runtime_epoch := epoch;
                   bc_runtime_state_sha256 := state; bc_binding_sha256 := d |} in
  Ok (item (canonical_sha256 (JObj (EpochBoundCapabilityContract_body (item ""))))).

(** [except (ContractError, TypeError, ValueError) as exc: raise EpochBindingError(...)];
    [ContractError] is a [ValueError]. *)
Definition rewrap {A} (r : result A) : result A :=
  match r with
  | Err (Exn ContractError m) | Err (Exn TypeError m) => fail EpochBindingError m
  | _ => r
  end.

Definition EpochBoundCapabilityContract_from_document (raw : dict)
    : result EpochBoundCapabilityContract :=
  _ ← raise_if (negb (keys_are raw bound_keys)) EpochBindingError
        "epoch-bound capability contract keys mismatch";
  _ ← raise_if (negb (envelope_ok raw CONTRACT_SCHEMA AUTHORITY)) EpochBindingError
        "epoch-bound capability schema or authority mismatch";
  base ← rewrap (d ← py_dict (dict_get_none raw "base_capability");
                 CapabilityContract_from_document (JObj d));
  epoch ← _time (dict_get_none raw "runtime_epoch") "runtime_epoch";
  state ← _sha (dict_get_none raw "runtime_state_sha256") "runtime_state_sha256";
  digest ← _sha (dict_get_none raw "binding_sha256") "binding_sha256";
  let item := {| bc_base := base; bc_runtime_epoch := epoch;
                 bc_runtime_state_sha256 := state; bc_binding_sha256 := digest |} in
  _ ← raise_if (negb (String.eqb (canonical_sha256 (JObj (EpochBoundCapabilityContract_body item)))
                        digest)) EpochBindingError
        "epoch-bound capability binding_sha256 mismatch";
  Ok item.

(** The [base] property. *)
Definition EpochBoundCapabilityContract_base (b : EpochBoundCapabilityContract)
    : result CapabilityContract :=
  CapabilityContract_from_document (JObj (CapabilityContract_as_document (bc_base b))).

Definition head_sha256 (self : EpochBoundCapabilityBroker) : string :=
  canonical_sha256 (JObj [("delegate_head_sha256", JStr (cb_head (eb_delegate self)));
                          ("epoch_binding_head_sha256", JStr (eb_head self))]).

Definition seal_receipt (r : EpochBoundDecisionReceipt) : EpochBoundDecisionReceipt := {|
  er_decision_id := er_decision_id r; er_capability_id := er_capability_id r;
  er_subject_id := er_subject_id r; er_capability_type := er_capability_type r;
  er_bound_contract_sha256 := er_bound_contract_sha256 r;
  er_base_contract_sha256 := er_base_contract_sha256 r;
  er_runtime_epoch_bound := er_runtime_epoch_bound r;
  er_runtime_epoch_observed := er_runtime_epoch_observed r;
  er_runtime_state_sha256_bound := er_runtime_state_sha256_bound r;
  er_runtime_state_sha256_observed := er_runtime_state_sha256_observed r;
  er_runtime_snapshot_sha256 := er_runtime_snapshot_sha256 r;
  er_delegate_receipt_sha256 := er_delegate_receipt_sha256 r;
  er_decision := er_decision r; er_reason_codes := er_reason_codes r;
  er_at_unix := er_at_unix r;
  er_receipt_sha256 := canonical_sha256 (JObj (EpochBoundDecisionReceipt_body r)) |}.

Definition _receipt (capability_id : option string) (subject_id capability_type : string)
    (bound_contract_sha base_contract_sha : string) (runtime_epoch_bound : Z)
    (runtime_state_bound : string) (snapshot : TrustedRuntimeSnapshot)
    (delegate_receipt_sha decision : string) (reasons : list string) (at_unix : Z)
    : M EpochBoundCapabilityBroker dict :=
  _ ← lift (raise_if (negb (mem decision ["ALLOW"; "BLOCK"])) EpochBindingError
              "epoch-bound broker decision must be ALLOW or BLOCK");
  self ← get_state;
  bound ← lift (_sha (JStr bound_contract_sha) "bound_contract_sha256");
  base ← lift (_sha (JStr base_contract_sha) "base_contract_sha256");
  epoch ← lift (_time (JInt runtime_epoch_bound) "runtime_epoch_bound");
  state ← lift (_sha (JStr runtime_state_bound) "runtime_state_sha256_bound");
  delegate ← lift (_sha (JStr delegate_receipt_sha) "delegate_receipt_sha256");
  at_ ← lift (_time (JInt at_unix) "at_unix");
  let receipt := seal_receipt {|
    er_decision_id :=
      "epoch-bound-decision:" +:+ pretty (Z.of_nat (length (eb_receipts self)) + 1);
    er_capability_id := capability_id; er_subject_id := subject_id;
    er_capability_type := capability_type; er_bound_contract_sha256 := bound;
    er_base_contract_sha256 := base; er_runtime_epoch_bound := epoch;
    er_runtime_epoch_observed := sn_epoch snapshot;
    er_runtime_state_sha256_bound := state;
    er_runtime_state_sha256_observed := sn_state_sha256 snapshot;
    er_runtime_snapshot_sha256 := sn_snapshot_sha256 snapshot;
    er_delegate_receipt_sha256 := delegate; er_decision := decision;
    er_reason_codes := sorted_set reasons; er_at_unix := at_; er_receipt_sha256 := "" |} in
  _ ← modify (push_receipt receipt);
  mret (EpochBoundDecisionReceipt_as_document receipt).

Definition _finish (bound : EpochBoundCapabilityContract) (snapshot : TrustedRuntimeSnapshot)
    (delegate_receipt_sha decision : string) (reasons : list string) (at_unix : Z)
    (capability_id : option string) : M EpochBoundCapabilityBroker dict :=
  base ← lift (EpochBoundCapabilityContract_base bound);
  _receipt capability_id (cc_subject_id base) (cc_capability_type base)
    (bc_binding_sha256 bound) (cc_contract_sha256 base) (bc_runtime_epoch bound)
    (bc_runtime_state_sha256 bound) snapshot delegate_receipt_sha decision reasons at_unix.

Definition _finish_generic (representative : option EpochBoundCapabilityContract)
    (subject_id capability_type policy_sha256 : string) (snapshot : TrustedRuntimeSnapshot)
    (delegate_receipt_sha decision : string) (reasons : list string) (at_unix : Z)
    : M EpochBoundCapabilityBroker dict :=
  _ ← lift (_sha (JStr policy_sha256) "policy_sha256");
  let reasons := if bool_decide (reasons = []) then ["default_deny"] else reasons in
  match representative with
  | None =>
      _receipt None subject_id capability_type ZERO_SHA256 ZERO_SHA256 (sn_epoch snapshot)
        (sn_state_sha256 snapshot) snapshot delegate_receipt_sha decision reasons at_unix
  | Some rep =>
      base ← lift (EpochBoundCapabilityContract_base rep);
      _receipt None subject_id capability_type (bc_binding_sha256 rep) (cc_contract_sha256 base)
        (bc_runtime_epoch rep) (bc_runtime_state_sha256 rep) snapshot delegate_receipt_sha
        decision reasons at_unix
  end.

(** ** Admission *)

(** [try: delegate.admit_contract(...) except BrokerError]: the receipt or the class name. *)
Definition try_admit (base : CapabilityContract) (at_unix : Z)
    : M EpochBoundCapabilityBroker (dict + string) :=
  try_except
    (r ← on_delegate (CapabilityBroker.admit_contract (CapabilityContract_as_document base) at_unix);
     mret (inl r))
    (fun exc => match exn_cls exc with
                | BrokerError => mret (inr (exn_name BrokerError))
                | _ => lift (Err exc)
                end).

Definition admit_delegated (bound : EpochBoundCapabilityContract) (base : CapabilityContract)
    (snapshot : TrustedRuntimeSnapshot) (at_unix : Z) : M EpochBoundCapabilityBroker dict :=
  outcome ← try_admit base at_unix;
  match outcome with
  | inr name =>
      _finish bound snapshot ZERO_SHA256 "BLOCK" ["delegate_admission_error"; name] at_unix None
  | inl r =>
      if negb (is_str (dict_get_none r "decision") "ALLOW") then
        sha ← lift (v ← dict_item r "receipt_sha256"; _sha v "delegate receipt");
        codes ← lift (reason_list (dict_get_or r "reason_codes" (JList [])));
        _finish bound snapshot sha "BLOCK" (codes ++ ["delegate_admission_blocked"]) at_unix None
      else
        _ ← modify (put_binding (cc_capability_id base) bound);
        sha ← lift (v ← dict_item r "receipt_sha256"; _sha v "delegate receipt");
        _finish bound snapshot sha "ALLOW" ["epoch_binding_match"; "base_capability_admitted"]
          at_unix (Some (cc_capability_id base))
  end.

Definition admit_contract (runtime : result dict) (document : dict) (at_unix : Z)
    : M EpochBoundCapabilityBroker dict :=
  _ ← lift (_time (JInt at_unix) "at_unix");
  bound ← lift (EpochBoundCapabilityContract_from_document document);
  base ← lift (EpochBoundCapabilityContract_base bound);
  self ← get_state;
  _ ← lift (match eb_bindings self !! cc_capability_id base with
            | Some existing =>
                raise_if (negb (String.eqb (bc_binding_sha256 existing) (bc_binding_sha256 bound)))
                  EpochBindingError "duplicate capability_id with different runtime binding"
            | None => Ok tt
            end);
  snapshot ← lift (from_provider runtime);
  let block reasons := _finish bound snapshot ZERO_SHA256 "BLOCK" reasons at_unix None in
  if sn_tainted snapshot then block ["runtime_state_tainted"]
  else if negb (bool_decide (_binding_mismatch bound snapshot = []))
  then block (_binding_mismatch bound snapshot)
  else match cc_parent_capability_id base with
  | None => admit_delegated bound base snapshot at_unix
  | Some p =>
      match eb_bindings self !! p with
      | None => block ["delegation_parent_not_epoch_bound"]
      | Some parent =>
          if negb (bc_runtime_epoch parent =? bc_runtime_epoch bound)
             || negb (String.eqb (bc_runtime_state_sha256 parent) (bc_runtime_state_sha256 bound))
          then block ["delegation_runtime_binding_mismatch"]
          else admit_delegated bound base snapshot at_unix
      end
  end.

(** ** Reconciliation *)

(** The [capability_id] and [status] of the items of a state document. *)
Definition state_items (doc : dict) : result (list (string * json)) :=
  match dict_get_or doc "capabilities" (JList []) with
  | JList l =>
      map_r (fun v => item ← (match v with JObj d => Ok d | _ => fail TypeError "item" end);
                      id ← dict_item item "capability_id";
                      match id with
                      | JStr s => Ok (s, dict_get_none item "status")
                      | _ => fail TypeError "capability_id"
                      end) l
  | _ => fail TypeError "capabilities"
  end.

(** [self.delegate.revoke(cap_id)]; on ALLOW, add reasons and update [statuses]. *)
Definition reconcile_revoke (cap_id : string) (at_unix : Z) (codes : list string)
    (acc : list string * gmap string json)
    : M EpochBoundCapabilityBroker (list string * gmap string json) :=
  r ← on_delegate (CapabilityBroker.revoke cap_id at_unix);
  mret (if is_str (dict_get_none r "decision") "ALLOW"
        then (fst acc ++ codes, <[cap_id := JStr "revoked"]> (snd acc))
        else acc).

(** The body of the loop; [acc] is the pair [(reasons, statuses)]. *)
Definition reconcile_item (snapshot : TrustedRuntimeSnapshot) (at_unix : Z)
    (acc : list string * gmap string json) (item : string * json)
    : M EpochBoundCapabilityBroker (list string * gmap string json) :=
  let '(cap_id, status) := item in
  if negb (is_str status "active") then mret acc
  else
    self ← get_state;
    match eb_bindings self !! cap_id with
    | None => reconcile_revoke cap_id at_unix ["unbound_authority_revoked"] acc
    | Some bound =>
        base ← lift (EpochBoundCapabilityContract_base bound);
        let parent_inactive :=
          match cc_parent_capability_id base with
          | None => false
          | Some p => negb (is_str (default JNull (snd acc !! p)) "active")
          end in
        if parent_inactive : bool then
          reconcile_revoke cap_id at_unix ["delegation_parent_inactive"; "stale_authority_revoked"] acc
        else
          let mismatch := _binding_mismatch bound snapshot in
          if sn_tainted snapshot || negb (bool_decide (mismatch = [])) then
            reconcile_revoke cap_id at_unix ("stale_authority_revoked" :: mismatch) acc
          else mret acc
    end.

Definition _reconcile (snapshot : TrustedRuntimeSnapshot) (at_unix : Z)
    : M EpochBoundCapabilityBroker (list string) :=
  self ← get_state;
  items ← lift (state_items (CapabilityBroker.state_document (eb_delegate self)));
  acc ← fold_m (reconcile_item snapshot at_unix) ([], list_to_map (rev items)) items;
  mret (sorted_set (fst acc)).

(** ** Use decisions *)

(** The bound contracts of the subject and type that match the snapshot, by identifier. *)
Definition bound_candidates (self : EpochBoundCapabilityBroker) (subject_id capability_type : string)
    (snapshot : TrustedRuntimeSnapshot) : result (list EpochBoundCapabilityContract) :=
  rows ← map_r (fun b => base ← EpochBoundCapabilityContract_base b; Ok (base, b))
           (map snd (map_to_list (eb_bindings self)));
  Ok (map snd (sorted_on (fun p => cc_capability_id (fst p))
    (List.filter (fun p => String.eqb (cc_subject_id (fst p)) subject_id
                           && String.eqb (cc_capability_type (fst p)) capability_type
                           && (bc_runtime_epoch (snd p) =? sn_epoch snapshot)
                           && String.eqb (bc_runtime_state_sha256 (snd p)) (sn_state_sha256 snapshot))
       rows))).

(** [{**action, "trusted_runtime_epoch": ...}]. *)
Definition bound_action (action : dict) (snapshot : TrustedRuntimeSnapshot) : dict :=
  dict_set (dict_set (dict_set action
    "trusted_runtime_epoch" (JInt (sn_epoch snapshot)))
    "trusted_runtime_state_sha256" (JStr (sn_state_sha256 snapshot)))
    "trusted_runtime_snapshot_sha256" (JStr (sn_snapshot_sha256 snapshot)).

(** The branch of [authorize] after the delegate answered ALLOW. *)
Definition authorize_allowed (representative : option EpochBoundCapabilityContract)
    (subject_id capability_type policy_sha256 : string) (snapshot : TrustedRuntimeSnapshot)
    (delegate_receipt : dict) (delegate_sha : string) (revoked_reasons : list string) (at_unix : Z)
    : M EpochBoundCapabilityBroker dict :=
  self ← get_state;
  match dict_get_none delegate_receipt "capability_id" with
  | JStr capability_id =>
      match eb_bindings self !! capability_id with
      | None =>
          _ ← (if String.eqb capability_id "" then mret tt
               else _ ← on_delegate (CapabilityBroker.revoke capability_id at_unix); mret tt);
          _finish_generic representative subject_id capability_type policy_sha256 snapshot
            delegate_sha "BLOCK" (revoked_reasons ++ ["delegate_returned_unbound_authority"]) at_unix
      | Some bound =>
          let mismatch := _binding_mismatch bound snapshot in
          if negb (bool_decide (mismatch = [])) then
            _ ← on_delegate (CapabilityBroker.revoke capability_id at_unix);
            _finish bound snapshot delegate_sha "BLOCK"
              (revoked_reasons ++ mismatch ++ ["stale_authority_revoked"]) at_unix None
          else
            codes ← lift (reason_list (dict_get_or delegate_receipt "reason_codes" (JList [])));
            _finish bound snapshot delegate_sha "ALLOW"
              (revoked_reasons ++ ["epoch_binding_match"] ++ codes) at_unix (Some capability_id)
      end
  | _ =>
      _finish_generic representative subject_id capability_type policy_sha256 snapshot
        delegate_sha "BLOCK" (revoked_reasons ++ ["delegate_returned_unbound_authority"]) at_unix
  end.

Definition authorize (runtime : result dict) (subject_id capability_type policy_sha256 : string)
    (requested_scope action : dict) (at_unix : Z)
    (recorder_event_id recorder_entry_sha256 : option string)
    : M EpochBoundCapabilityBroker dict :=
  _ ← lift (_time (JInt at_unix) "at_unix");
  snapshot ← lift (from_provider runtime);
  revoked_reasons ← _reconcile snapshot at_unix;
  self ← get_state;
  candidates ← lift (bound_candidates self subject_id capability_type snapshot);
  let representative := head candidates in
  if sn_tainted snapshot then
    _finish_generic representative subject_id capability_type policy_sha256 snapshot ZERO_SHA256
      "BLOCK" (revoked_reasons ++ ["runtime_state_tainted"]) at_unix
  else
    delegate_receipt ← on_delegate (CapabilityBroker.authorize subject_id capability_type
      policy_sha256 requested_scope (bound_action action snapshot) at_unix
      recorder_event_id recorder_entry_sha256);
    delegate_sha ← lift (v ← dict_item delegate_receipt "receipt_sha256"; _sha v "delegate receipt");
    if is_str (dict_get_none delegate_receipt "decision") "ALLOW" then
      authorize_allowed representative subject_id capability_type policy_sha256 snapshot
        delegate_receipt delegate_sha revoked_reasons at_unix
    else
      codes ← lift (reason_list (dict_get_or delegate_receipt "reason_codes" (JList [])));
      _finish_generic representative subject_id capability_type policy_sha256 snapshot
        delegate_sha "BLOCK" (revoked_reasons ++ codes) at_unix.

(** ** Pass-through operations and views *)
Definition revoke (capability_id : string) (at_unix : Z) : M EpochBoundCapabilityBroker dict :=
  on_delegate (CapabilityBroker.revoke capability_id at_unix).

Definition expire_due (at_unix : Z) : M EpochBoundCapabilityBroker (list dict) :=
  on_delegate (CapabilityBroker.expire_due at_unix).

(** One entry of [state_document]'s capabilities. *)
Definition bound_entry (self : EpochBoundCapabilityBroker) (item : json) : result json :=
  cap ← py_dict item;
  id ← dict_item cap "capability_id";
  let bound := match id with JStr s => eb_bindings self !! s | _ => None end in
  Ok (JObj (dict_set (dict_set (dict_set (dict_set cap
    "epoch_bound" (JBool (bool_decide (is_Some bound))))
    "runtime_epoch" (from_option (fun b => JInt (bc_runtime_epoch b)) JNull bound))
    "runtime_state_sha256" (JStr (from_option bc_runtime_state_sha256 ZERO_SHA256 bound)))
    "bound_contract_sha256" (JStr (from_option bc_binding_sha256 ZERO_SHA256 bound)))).

Definition state_document (runtime : result dict) (self : EpochBoundCapabilityBroker)
    : result dict :=
  snapshot ← from_provider runtime;
  let delegate_state := CapabilityBroker.state_document (eb_delegate self) in
  items ← (match dict_get_or delegate_state "capabilities" (JList []) with
           | JList l => Ok l
           | _ => fail TypeError "capabilities"
           end);
  capabilities ← map_r (bound_entry self) items;
  Ok (seal "state_sha256"
    [("schema", JStr STATE_SCHEMA); ("broker_id", JStr (eb_broker_id self));
     ("runtime_epoch", JInt (sn_epoch snapshot));
     ("runtime_state_sha256", JStr (sn_state_sha256 snapshot));
     ("runtime_tainted", JBool (sn_tainted snapshot));
     ("runtime_snapshot_sha256", JStr (sn_snapshot_sha256 snapshot));
     ("delegate_head_sha256", JStr (cb_head (eb_delegate self)));
     ("epoch_binding_head_sha256", JStr (eb_head self));
     ("capabilities", JList capabilities); ("authority", JObj AUTHORITY)]).

Definition events (self : EpochBoundCapabilityBroker) : list dict :=
  CapabilityBroker.events (eb_delegate self).

Definition receipts (self : EpochBoundCapabilityBroker) : list dict :=
  map EpochBoundDecisionReceipt_as_document (eb_receipts self).

Definition delegate_receipts (self : EpochBoundCapabilityBroker) : list dict :=
  CapabilityBroker.receipts (eb_delegate self).

(** ** Verification of documents *)
Definition verify_contract (document : dict) : result dict :=
  b ← EpochBoundCapabilityContract_from_document document;
  Ok (EpochBoundCapabilityContract_as_document b).

(** [v not in {...}] on strings; an unhashable [v] raises. *)
Definition not_in_set (v : json) (l : list string) : result bool :=
  if hashable v then Ok (negb (existsb (is_str v) l)) else fail TypeError "unhashable type".

Definition verify_receipt (document : dict) : result dict :=
  let raw := dict_del document "receipt_sha256" in
  let digest := dict_get_none document "receipt_sha256" in
  _ ← raise_if (negb (envelope_ok raw DECISION_SCHEMA AUTHORITY)) EpochBindingError
        "epoch-bound decision schema or authority mismatch";
  _ ← raise_if (negb (keys_are raw receipt_keys)) EpochBindingError
        "epoch-bound decision keys mismatch";
  _ ← map_r (fun key => _sha (dict_get_none raw key) key)
        ["bound_contract_sha256"; "base_contract_sha256"; "runtime_state_sha256_bound";
         "runtime_state_sha256_observed"; "runtime_snapshot_sha256"; "delegate_receipt_sha256"];
  _ ← _time (dict_get_none raw "runtime_epoch_bound") "runtime_epoch_bound";
  _ ← _time (dict_get_none raw "runtime_epoch_observed") "runtime_epoch_observed";
  _ ← _time (dict_get_none raw "at_unix") "at_unix";
  bad ← not_in_set (dict_get_none raw "decision") ["ALLOW"; "BLOCK"];
  _ ← raise_if bad EpochBindingError "invalid epoch-bound decision";
  _ ← raise_if (match dict_get_none raw "reason_codes" with
                | JList l => negb (forallb (fun x => match x with
                               | JStr s => negb (String.eqb s "") | _ => false end) l)
                | _ => true
                end) EpochBindingError "reason_codes must be strings";
  digest ← _sha digest "receipt_sha256";
  _ ← raise_if (negb (String.eqb (canonical_sha256 (JObj raw)) digest)) EpochBindingError
        "epoch-bound decision receipt digest mismatch";
  Ok (dict_set raw "receipt_sha256" (JStr digest)).
End epoch.

(** ** Lemmas *)
Section lemmas.
Context {hash : Digest}.

Lemma epoch_sha_ok v name s : _sha v name = Ok s <-> v = JStr s /\ re_sha s = true.
Proof. apply check_sha_ok. Qed.

Lemma _sha_run name s : re_sha s = true -> _sha (JStr s) name = Ok s.
Proof. intros. by apply epoch_sha_ok. Qed.

Lemma epoch_time_ok v name z : _time v name = Ok z <-> v = JInt z /\ 0 <= z.
Proof.
  destruct v as [| |x| | |]; cbn; try (split; [done|by intros [? ?]]).
  destruct (Z.ltb_spec x 0); split; try done; [intros [[= ->] ?]; lia|by intros [= ->]|].
  by intros [[= ->] ?].
Qed.

Lemma _time_run name z : 0 <= z -> _time (JInt z) name = Ok z.
Proof. intros. by apply epoch_time_ok. Qed.

(** *** Bound contracts *)
Record bound_wf (b : EpochBoundCapabilityContract) : Prop := {
  bw_base : contract_wf (bc_base b);
  bw_epoch : 0 <= bc_runtime_epoch b;
  bw_state : re_sha (bc_runtime_state_sha256 b) = true;
  bw_digest : bc_binding_sha256 b = canonical_sha256 (JObj (EpochBoundCapabilityContract_body b))
}.

Lemma rewrap_ok {A} (r : result A) a : rewrap r = Ok a <-> r = Ok a.
Proof. destruct r as [x|[[] m]]; done. Qed.

Lemma bound_from_document_wf raw b :
  EpochBoundCapabilityContract_from_document raw = Ok b -> bound_wf b.
Proof.
  unfold EpochBoundCapabilityContract_from_document. intros H. py_inv.
  repeat match goal with
  | Hr : rewrap _ = Ok _ |- _ => apply (proj1 (rewrap_ok _ _)) in Hr; py_inv
  | Hc : CapabilityContract_from_document _ = Ok _ |- _ => apply contract_from_document_wf in Hc
  | Ht : _time _ _ = Ok _ |- _ => apply epoch_time_ok in Ht as [_ ?]
  | Hs : _sha _ _ = Ok _ |- _ => apply epoch_sha_ok in Hs as [_ ?]
  | Hd : negb (String.eqb _ _) = false |- _ => apply negb_false_iff, String.eqb_eq in Hd
  end.
  by constructor.
Qed.

Lemma base_reparsed b : bound_wf b -> EpochBoundCapabilityContract_base b = Ok (bc_base b).
Proof. intros Hb. apply contract_roundtrip, Hb. Qed.

Lemma bound_roundtrip b : bound_wf b ->
  EpochBoundCapabilityContract_from_document (EpochBoundCapabilityContract_as_document b) = Ok b.
Proof.
  intros [Hb He Hs Hd]. unfold EpochBoundCapabilityContract_from_document.
  replace (keys_are (EpochBoundCapabilityContract_as_document b) bound_keys) with true by (by vm_compute).
  replace (envelope_ok (EpochBoundCapabilityContract_as_document b) CONTRACT_SCHEMA AUTHORITY)
    with true by (by vm_compute).
  cbn [negb raise_if]. rewrite !bind_Ok.
  rewrite (eq_refl : dict_get_none (EpochBoundCapabilityContract_as_document b) "base_capability"
                     = JObj (CapabilityContract_as_document (bc_base b))).
  cbn [py_dict]. rewrite bind_Ok, (contract_roundtrip _ Hb). cbn [rewrap]. rewrite bind_Ok.
  rewrite (_time_run _ (bc_runtime_epoch b)), bind_Ok by done.
  rewrite (_sha_run _ (bc_runtime_state_sha256 b)), bind_Ok by done.
  rewrite (_sha_run _ (bc_binding_sha256 b)), bind_Ok by (rewrite Hd; apply canonical_sha256_sha).
  destruct b as [base ep st dg]. cbn in Hd |- *.
  rewrite raise_if_false, bind_Ok; [done|]. apply negb_false_iff, String.eqb_eq. by rewrite Hd.
Qed.

Lemma bound_keys_nodup b : NoDup (dict_keys (EpochBoundCapabilityContract_body b)).
Proof. cbn. by apply (bool_decide_eq_true_1 _). Qed.

(** *** The invariant *)
Record epoch_inv (b : EpochBoundCapabilityBroker) : Prop := {
  ei_delegate : broker_inv (eb_delegate b);
  ei_bindings : map_Forall (fun id bound => bound_wf bound
                  /\ cc_capability_id (bc_base bound) = id) (eb_bindings b)
}.

(** Receipts and heads do not matter to the authority a state carries. *)
Definition same_authority (b b' : EpochBoundCapabilityBroker) : Prop :=
  eb_delegate b' = eb_delegate b /\ eb_bindings b' = eb_bindings b.

#[export] Instance same_authority_preorder : PreOrder same_authority.
Proof. split; [by intros b|]. intros b1 b2 b3 [E1 F1] [E2 F2]. split; congruence. Qed.

Lemma receipt_same cid subj ct bsha basha e st sn dsha dec rs at_unix :
  evolves same_authority (_receipt cid subj ct bsha basha e st sn dsha dec rs at_unix).
Proof. unfold _receipt. repeat evolve_step. apply evolves_modify. by intros b. Qed.

Lemma finish_same bound sn dsha dec rs at_unix cid :
  evolves same_authority (_finish bound sn dsha dec rs at_unix cid).
Proof. unfold _finish. evolve_step; [evolve_step|]. apply receipt_same. Qed.

Lemma finish_generic_same rep subj ct pol sn dsha dec rs at_unix :
  evolves same_authority (_finish_generic rep subj ct pol sn dsha dec rs at_unix).
Proof.
  unfold _finish_generic. evolve_step; [evolve_step|]. cbv zeta.
  destruct rep; [evolve_step; [evolve_step|]|]; apply receipt_same.
Qed.

(** A valid receipt is always issued. *)
Lemma receipt_run cid subj ct bsha basha e st sn dsha dec rs at_unix b :
  mem dec ["ALLOW"; "BLOCK"] = true -> re_sha bsha = true -> re_sha basha = true -> 0 <= e ->
  re_sha st = true -> re_sha dsha = true -> 0 <= at_unix ->
  exists doc b', _receipt cid subj ct bsha basha e st sn dsha dec rs at_unix b = (Ok doc, b')
    /\ dict_get doc "decision" = Some (JStr dec) /\ dict_get doc "capability_id" = Some (jopt cid)
    /\ same_authority b b'.
Proof.
  intros Hd H1 H2 H3 H4 H5 H6. unfold _receipt.
  rewrite M_lift, raise_if_false by (by rewrite Hd). rewrite M_get.
  rewrite M_lift, (_sha_run _ bsha) by done. rewrite M_lift, (_sha_run _ basha) by done.
  rewrite M_lift, (_time_run _ e) by done. rewrite M_lift, (_sha_run _ st) by done.
  rewrite M_lift, (_sha_run _ dsha) by done. rewrite M_lift, (_time_run _ at_unix) by done.
  cbv zeta. rewrite M_modify. eexists _, _. split; [reflexivity|]. done.
Qed.

(** The decision and capability a receipt document shows are the ones passed in. *)
Lemma receipt_shows cid subj ct bsha basha e st sn dsha dec rs at_unix b doc b' :
  _receipt cid subj ct bsha basha e st sn dsha dec rs at_unix b = (Ok doc, b') ->
  dict_get_none doc "decision" = JStr dec /\ dict_get_none doc "capability_id" = jopt cid.
Proof.
  unfold _receipt. intros H. M_run H.
  repeat (match type of H with match ?r with Ok _ => _ | Err _ => _ end = _ => destruct r; [|done] end;
          M_run H).
  injection H as <- _. done.
Qed.

(** *** Reconciliation *)
Definition status_json (s : _State) : json := JStr (status_str (cs_status s)).

Lemma map_r_map {A B C} (f : B -> result C) (g : A -> B) (h : A -> C) l :
  (forall x, x ∈ l -> f (g x) = Ok (h x)) -> map_r f (map g l) = Ok (map h l).
Proof.
  intros H. apply map_r_ok. induction l as [|x l IH]; cbn; constructor.
  - apply H. by left.
  - apply IH. intros y Hy. apply H. by right.
Qed.

Lemma state_items_run d :
  state_items (CapabilityBroker.state_document d)
  = Ok (map (fun p => (fst p, status_json (snd p))) (sorted_on fst (map_to_list (cb_states d)))).
Proof.
  unfold state_items, CapabilityBroker.state_document.
  match goal with |- context [dict_get_or (seal _ (?a :: ?b :: ?c :: ?d' :: ?e :: (?k, ?l) :: _)) _ _] =>
    change (dict_get_or (seal _ _) "capabilities" (JList [])) with l end.
  apply map_r_map. by intros [id s] _.
Qed.

(** The binding of [id] matches the runtime snapshot. *)
Definition bound_now (b : EpochBoundCapabilityBroker) (sn : TrustedRuntimeSnapshot) (id : string)
    : Prop :=
  exists bound, eb_bindings b !! id = Some bound /\ sn_tainted sn = false
    /\ bc_runtime_epoch bound = sn_epoch sn
    /\ bc_runtime_state_sha256 bound = sn_state_sha256 sn.

Definition has_parent (b : EpochBoundCapabilityBroker) (id : string) : Prop :=
  exists bound, eb_bindings b !! id = Some bound
    /\ cc_parent_capability_id (bc_base bound) <> None.

(** What reconciliation makes of the stored capability [s]. *)
Definition reconciled (b : EpochBoundCapabilityBroker) (sn : TrustedRuntimeSnapshot) (at_unix : Z)
    (id : string) (s s' : _State) : Prop :=
  (s' = s /\ (cs_status s = Active -> bound_now b sn id))
  \/ (s' = revoke_state s at_unix /\ cs_status s = Active
      /\ (~ bound_now b sn id \/ has_parent b id)).

Lemma mismatch_nil bound sn :
  _binding_mismatch bound sn = [] <->
  bc_runtime_epoch bound = sn_epoch sn /\ bc_runtime_state_sha256 bound = sn_state_sha256 sn.
Proof.
  unfold _binding_mismatch. destruct (Z.eqb_spec (bc_runtime_epoch bound) (sn_epoch sn)),
    (String.eqb_spec (bc_runtime_state_sha256 bound) (sn_state_sha256 sn)); cbn; naive_solver.
Qed.

(** One step of the loop: bindings and receipts stay, capability [id] is reconciled. *)
Record item_done (b b' : EpochBoundCapabilityBroker) (sn : TrustedRuntimeSnapshot) (at_unix : Z)
    (id : string) (s : _State) : Prop := {
  id_bindings : eb_bindings b' = eb_bindings b;
  id_inv : broker_inv (eb_delegate b');
  id_state : exists s', reconciled b sn at_unix id s s'
    /\ cb_states (eb_delegate b') = <[id := s']> (cb_states (eb_delegate b));
  id_log : (length (cb_events (eb_delegate b')) <= S (length (cb_events (eb_delegate b))))%nat
}.

Lemma reconcile_revoke_run b id s at_unix codes acc sn :
  epoch_inv b -> log_room (eb_delegate b) -> cb_states (eb_delegate b) !! id = Some s ->
  cs_status s = Active -> 0 <= at_unix -> (~ bound_now b sn id \/ has_parent b id) ->
  exists acc' b', reconcile_revoke id at_unix codes acc b = (Ok acc', b')
    /\ item_done b b' sn at_unix id s.
Proof.
  intros [Hb Hbi] Hroom Hs Ha Hat Hj. unfold reconcile_revoke. rewrite M_bind_eq. unfold on_delegate, zoom.
  destruct (revoke_total (eb_delegate b) id s at_unix Hb Hroom Hs Ha Hat) as (doc & d' & E & _ & Hst & Hlen).
  pose proof (revoke_ok id at_unix (eb_delegate b) Hb) as [Hd' _].
  rewrite E in Hd' |- *. eexists _, _. split; [reflexivity|]. constructor; cbn; try done.
  - exists (revoke_state s at_unix). split; [|done]. by right.
  - lia.
Qed.

Lemma keep_item b sn at_unix id s :
  epoch_inv b -> cb_states (eb_delegate b) !! id = Some s ->
  (cs_status s = Active -> bound_now b sn id) -> item_done b b sn at_unix id s.
Proof.
  intros [Hb Hbi] Hs Hk. constructor; try done; [|lia].
  exists s. split; [by left|]. by rewrite insert_id.
Qed.

Lemma reconcile_item_run b sn at_unix acc id s :
  epoch_inv b -> log_room (eb_delegate b) -> cb_states (eb_delegate b) !! id = Some s ->
  0 <= at_unix ->
  exists acc' b', reconcile_item sn at_unix acc (id, status_json s) b = (Ok acc', b')
    /\ item_done b b' sn at_unix id s.
Proof.
  intros Hb Hroom Hs Hat. unfold reconcile_item, status_json.
  destruct (decide (cs_status s = Active)) as [Ha|Ha].
  2: { assert (is_str (JStr (status_str (cs_status s))) "active" = false) as -> by (by destruct (cs_status s)).
       cbn [negb]. eexists _, _. split; [reflexivity|]. by apply keep_item. }
  rewrite Ha. cbn [status_str is_str]. rewrite String.eqb_refl. cbn [negb]. rewrite M_get.
  destruct (eb_bindings b !! id) as [bound|] eqn:Hbound.
  2: { apply reconcile_revoke_run; try done. left. intros (bd & E & _). congruence. }
  destruct (ei_bindings b Hb id bound Hbound) as [Hwf _].
  rewrite M_lift, (base_reparsed _ Hwf). cbv zeta.
  match goal with |- context [if ?c then _ else _] => destruct c eqn:Hpar end.
  - apply reconcile_revoke_run; try done. right. exists bound. split; [done|].
    by destruct (cc_parent_capability_id (bc_base bound)).
  - destruct (sn_tainted sn || negb (bool_decide (_binding_mismatch bound sn = []))) eqn:Hbad.
    + apply reconcile_revoke_run; try done. left. intros (bd & E & Ht & Hm).
      rewrite Hbound in E. injection E as <-. apply mismatch_nil in Hm. rewrite Ht in Hbad. cbn in Hbad.
      by rewrite bool_decide_eq_true_2 in Hbad.
    + eexists _, _. split; [reflexivity|]. apply keep_item; try done. intros _.
      apply orb_false_iff in Hbad as [Ht Hm]. apply negb_false_iff, bool_decide_eq_true, mismatch_nil in Hm.
      exists bound. naive_solver.
Qed.

(** There is room for [n] more events in the delegate's log. *)
Definition log_room_for (n : nat) (d : CapabilityBroker) : Prop :=
  Z.of_nat (length (cb_events d) + n) + 1 < 10 ^ 150.

Lemma reconcile_loop sn at_unix : 0 <= at_unix -> forall l acc b,
  epoch_inv b -> log_room_for (length l) (eb_delegate b) -> NoDup (map fst l) ->
  (forall id s, (id, s) ∈ l -> cb_states (eb_delegate b) !! id = Some s) ->
  exists acc' b', fold_m (reconcile_item sn at_unix) acc
      (map (fun p => (fst p, status_json (snd p))) l) b = (Ok acc', b')
    /\ eb_bindings b' = eb_bindings b /\ broker_inv (eb_delegate b')
    /\ (length (cb_events (eb_delegate b')) <= length (cb_events (eb_delegate b)) + length l)%nat
    /\ (forall id, id ∉ map fst l ->
        cb_states (eb_delegate b') !! id = cb_states (eb_delegate b) !! id)
    /\ (forall id s, (id, s) ∈ l ->
        exists s', cb_states (eb_delegate b') !! id = Some s' /\ reconciled b sn at_unix id s s').
Proof.
  intros Hat. induction l as [|[id s] l IH]; intros acc b Hb Hroom Hnd Hl; cbn [map fold_m].
  - eexists _, b. split; [reflexivity|]. split_and!; try done; [apply Hb|cbn; lia|].
    intros id s H. inversion H.
  - inversion Hnd as [|? ? Hnotin Hnd']; subst.
    assert (log_room (eb_delegate b)) as Hr1 by (unfold log_room, log_room_for in *; cbn in Hroom; lia).
    destruct (reconcile_item_run b sn at_unix acc id s Hb Hr1) as (acc1 & b1 & E & Hd);
      [apply Hl; by left|done|].
    destruct Hd as [Hbi Hinv (s1 & Hrec & Hst) Hlog].
    destruct (IH acc1 b1) as (acc' & b' & E' & Hbi' & Hinv' & Hlog' & Hout & Hin).
    + constructor; [done|]. rewrite Hbi. apply Hb.
    + unfold log_room_for in *. cbn in Hroom. lia.
    + done.
    + intros id' s' Hin. rewrite Hst. rewrite lookup_insert_ne.
      * apply Hl. by right.
      * intros ->. apply Hnotin. cbn. apply (list_elem_of_fmap_2 fst l (id', s') Hin).
    + exists acc', b'. rewrite M_bind_eq. cbn [fst snd]. rewrite E. split; [done|].
      split_and!; [congruence|done|cbn; lia| |].
      * intros id' Hn. rewrite Hout by (intros Hc; apply Hn; by right).
        rewrite Hst, lookup_insert_ne; [done|]. intros ->. apply Hn. by left.
      * intros id' s' [[= -> ->]|Hin']%elem_of_cons.
        -- exists s1. split; [|done]. rewrite Hout by done. by rewrite Hst, lookup_insert_eq.
        -- destruct (Hin id' s' Hin') as (s'' & ? & Hr). exists s''. split; [done|].
           unfold reconciled, bound_now, has_parent in *. by rewrite Hbi in Hr.
Qed.

(** [_reconcile] returns, and reconciles every stored capability. *)
Lemma reconcile_run sn at_unix b :
  epoch_inv b -> 0 <= at_unix ->
  log_room_for (length (map_to_list (cb_states (eb_delegate b)))) (eb_delegate b) ->
  exists rs b', _reconcile sn at_unix b = (Ok rs, b')
    /\ epoch_inv b' /\ eb_bindings b' = eb_bindings b
    /\ (length (cb_events (eb_delegate b'))
        <= length (cb_events (eb_delegate b)) + length (map_to_list (cb_states (eb_delegate b))))%nat
    /\ (forall id, option_relation (reconciled b sn at_unix id) (fun _ => False) (fun _ => False)
          (cb_states (eb_delegate b) !! id) (cb_states (eb_delegate b') !! id)).
Proof.
  intros Hb Hat Hroom. unfold _reconcile. rewrite M_get, M_lift, state_items_run, M_bind_eq.
  set (l := sorted_on fst (map_to_list (cb_states (eb_delegate b)))) in *.
  assert (l ≡ₚ map_to_list (cb_states (eb_delegate b))) as Hp by apply sorted_on_perm.
  destruct (reconcile_loop sn at_unix Hat l ([], list_to_map (rev (map (fun p => (fst p, status_json (snd p))) l))) b)
    as (acc & b' & -> & Hbi & Hinv & Hlog & Hout & Hin).
  - done.
  - by rewrite Hp.
  - rewrite Hp. apply NoDup_fst_map_to_list.
  - intros id s Hin. rewrite Hp in Hin. by apply elem_of_map_to_list.
  - eexists _, b'. split; [reflexivity|]. rewrite Hp in Hlog. split_and!; try done.
    { constructor; [done|]. rewrite Hbi. apply Hb. }
    intros id. destruct (cb_states (eb_delegate b) !! id) as [s|] eqn:Hs.
    + destruct (Hin id s) as (s' & -> & Hr); [|done]. rewrite Hp. by apply elem_of_map_to_list.
    + rewrite Hout, Hs; [done|]. intros Hc. apply list_elem_of_fmap in Hc as ([id' s'] & -> & Hc).
      rewrite Hp in Hc. apply elem_of_map_to_list in Hc. cbn in Hs. congruence.
Qed.

(** *** Every operation preserves the invariant *)
Definition epoch_ok (b b' : EpochBoundCapabilityBroker) : Prop := epoch_inv b -> epoch_inv b'.

Lemma same_ok b b' : same_authority b b' -> epoch_ok b b'.
Proof. intros [Ed Eb] [Hd Hb]. constructor; by rewrite ?Ed, ?Eb. Qed.

Lemma delegate_ok {A} (m : M CapabilityBroker A) :
  evolves broker_ok m -> evolves epoch_ok (on_delegate m).
Proof.
  intros Hm. apply (evolves_zoom _ broker_ok); [done|]. intros b d Hd [Hi Hb].
  constructor; [by apply Hd|done].
Qed.

Lemma epoch_finish_ok bound sn dsha dec rs at_unix cid :
  evolves epoch_ok (_finish bound sn dsha dec rs at_unix cid).
Proof. eapply evolves_weaken; [apply finish_same|apply same_ok]. Qed.

Lemma finish_generic_ok rep subj ct pol sn dsha dec rs at_unix :
  evolves epoch_ok (_finish_generic rep subj ct pol sn dsha dec rs at_unix).
Proof. eapply evolves_weaken; [apply finish_generic_same|apply same_ok]. Qed.

#[export] Instance epoch_ok_preorder : PreOrder epoch_ok.
Proof. split; [by intros b|]. unfold epoch_ok. intros b1 b2 b3. auto. Qed.

Lemma admit_delegated_ok bound sn at_unix : bound_wf bound ->
  evolves epoch_ok (admit_delegated bound (bc_base bound) sn at_unix).
Proof.
  intros Hw. unfold admit_delegated. evolve_step.
  - unfold try_admit. evolve_step.
    + evolve_step; [apply delegate_ok, admit_ok|evolve_step].
    + destruct (exn_cls _); evolve_step.
  - destruct a as [r|name]; [|apply epoch_finish_ok]. destruct (negb _).
    + do 2 (evolve_step; [evolve_step|]). apply epoch_finish_ok.
    + evolve_step; [|evolve_step; [evolve_step|apply epoch_finish_ok]].
      apply evolves_modify. intros b [Hd Hb]. constructor; [done|]. by apply map_Forall_insert_2.
Qed.

Lemma epoch_admit_ok rt d at_unix : evolves epoch_ok (admit_contract rt d at_unix).
Proof.
  intros b. remember (admit_contract rt d at_unix b) as m eqn:Hm. unfold admit_contract in Hm. M_run Hm.
  destruct (_time _ _) as [t|x]; [|by subst]. M_run Hm.
  destruct (EpochBoundCapabilityContract_from_document d) as [bound|x] eqn:Hd; [|by subst].
  apply bound_from_document_wf in Hd. M_run Hm. rewrite (base_reparsed _ Hd) in Hm. M_run Hm.
  destruct (match eb_bindings b !! _ with Some _ => _ | None => _ end) as [u|x]; [|by subst]. M_run Hm.
  destruct (from_provider rt) as [sn|x]; [|by subst].
  destruct (sn_tainted sn); [subst; apply epoch_finish_ok|].
  destruct (negb _); [subst; apply epoch_finish_ok|].
  destruct (cc_parent_capability_id _) as [p|]; [|subst; by apply admit_delegated_ok].
  destruct (eb_bindings b !! p) as [parent|]; [|subst; apply epoch_finish_ok].
  destruct (_ || _); [subst; apply epoch_finish_ok|subst; by apply admit_delegated_ok].
Qed.

(** *** What holds of every revocation and use decision of the delegate holds of
    [authorize] *)
Section delegate_relation.
Context (R : CapabilityBroker -> CapabilityBroker -> Prop) `{!PreOrder R}.
Context (Hrevoke : forall id at_unix, evolves R (CapabilityBroker.revoke id at_unix)).
Context (Huse : forall subj ct pol rs act at_unix rid rsha,
  evolves R (CapabilityBroker.authorize subj ct pol rs act at_unix rid rsha)).

Definition delegate_rel (b b' : EpochBoundCapabilityBroker) : Prop :=
  epoch_ok b b' /\ R (eb_delegate b) (eb_delegate b').

#[local] Instance delegate_rel_preorder : PreOrder delegate_rel.
Proof.
  split; [by intros b|]. intros b1 b2 b3 [E1 R1] [E2 R2]. split; by etrans.
Qed.

Lemma same_rel b b' : same_authority b b' -> delegate_rel b b'.
Proof. intros H. split; [by apply same_ok|]. by destruct H as [-> _]. Qed.

Lemma finish_rel bound sn dsha dec rs at_unix cid :
  evolves delegate_rel (_finish bound sn dsha dec rs at_unix cid).
Proof. eapply evolves_weaken; [apply finish_same|apply same_rel]. Qed.

Lemma finish_generic_rel rep subj ct pol sn dsha dec rs at_unix :
  evolves delegate_rel (_finish_generic rep subj ct pol sn dsha dec rs at_unix).
Proof. eapply evolves_weaken; [apply finish_generic_same|apply same_rel]. Qed.

Lemma delegate_rel_lift {A} (m : M CapabilityBroker A) :
  evolves broker_ok m -> evolves R m -> evolves delegate_rel (on_delegate m).
Proof.
  intros Hm HR b. split; [by apply delegate_ok|]. unfold on_delegate, zoom.
  specialize (HR (eb_delegate b)). by destruct (m (eb_delegate b)).
Qed.

Lemma revoke_rel id at_unix : evolves delegate_rel (revoke id at_unix).
Proof. apply delegate_rel_lift; [apply revoke_ok|apply Hrevoke]. Qed.

Lemma reconcile_revoke_rel id at_unix codes acc :
  evolves delegate_rel (reconcile_revoke id at_unix codes acc).
Proof. unfold reconcile_revoke. evolve_step; [apply revoke_rel|evolve_step]. Qed.

Lemma reconcile_rel sn at_unix : evolves delegate_rel (_reconcile sn at_unix).
Proof.
  unfold _reconcile. do 2 (evolve_step; [evolve_step|]). evolve_step; [|evolve_step].
  evolve_step. unfold reconcile_item. destruct x as [id st].
  destruct (negb _); [evolve_step|]. evolve_step; [evolve_step|].
  destruct (eb_bindings _ !! id); [|apply reconcile_revoke_rel]. evolve_step; [evolve_step|].
  cbv zeta. destruct (match cc_parent_capability_id _ with Some _ => _ | None => _ end);
    [apply reconcile_revoke_rel|].
  destruct (_ || _); [apply reconcile_revoke_rel|evolve_step].
Qed.

Lemma authorize_allowed_rel rep subj ct pol sn doc sha rs at_unix :
  evolves delegate_rel (authorize_allowed rep subj ct pol sn doc sha rs at_unix).
Proof.
  unfold authorize_allowed. evolve_step; [evolve_step|].
  destruct (dict_get_none _ _); try apply finish_generic_rel.
  destruct (eb_bindings _ !! _).
  - destruct (negb _).
    + evolve_step; [apply revoke_rel|apply finish_rel].
    + evolve_step; [evolve_step|apply finish_rel].
  - evolve_step; [|apply finish_generic_rel]. destruct (String.eqb _ _); [evolve_step|].
    evolve_step; [apply revoke_rel|evolve_step].
Qed.

Lemma authorize_rel rt subj ct pol rs act at_unix rid rsha :
  evolves delegate_rel (authorize rt subj ct pol rs act at_unix rid rsha).
Proof.
  unfold authorize. do 2 (evolve_step; [evolve_step|]). evolve_step; [apply reconcile_rel|].
  do 2 (evolve_step; [evolve_step|]). cbv zeta. destruct (sn_tainted _); [apply finish_generic_rel|].
  evolve_step; [apply delegate_rel_lift; [apply authorize_ok|apply Huse]|]. evolve_step; [evolve_step|].
  destruct (is_str _ _); [apply authorize_allowed_rel|]. evolve_step; [evolve_step|apply finish_generic_rel].
Qed.
End delegate_relation.

Lemma epoch_authorize_ok rt subj ct pol rs act at_unix rid rsha :
  evolves epoch_ok (authorize rt subj ct pol rs act at_unix rid rsha).
Proof.
  assert (PreOrder (fun _ _ : CapabilityBroker => True)) by done.
  eapply evolves_weaken; [by apply (authorize_rel (fun _ _ => True))|]. by intros b b' [? _].
Qed.

(** One call of the interface, or of the delegate behind its back; [rt] is what the
    provider answers at that call. *)
Inductive epoch_step (b : EpochBoundCapabilityBroker) : EpochBoundCapabilityBroker -> Prop :=
  | estep_admit rt d at_unix : epoch_step b (snd (admit_contract rt d at_unix b))
  | estep_authorize rt subj ct pol rs act at_unix rid rsha :
      epoch_step b (snd (authorize rt subj ct pol rs act at_unix rid rsha b))
  | estep_revoke id at_unix : epoch_step b (snd (revoke id at_unix b))
  | estep_expire at_unix : epoch_step b (snd (expire_due at_unix b))
  | estep_delegate d : broker_step (eb_delegate b) d -> epoch_step b (set_delegate d b).

Lemma epoch_step_ok b b' : epoch_step b b' -> epoch_ok b b'.
Proof.
  destruct 1 as [| | | |d Hd]; [apply epoch_admit_ok|apply epoch_authorize_ok
    |apply delegate_ok, revoke_ok|apply delegate_ok, expire_due_ok|].
  intros [Hb Hbi]. constructor; [by apply (broker_step_ok _ _ Hd)|done].
Qed.

Lemma star_epoch_ok b b' : star epoch_step b b' -> epoch_ok b b'.
Proof. induction 1; [reflexivity|]. etrans; [done|]. by apply epoch_step_ok. Qed.

Lemma epoch_init_inv d broker_id : broker_inv d -> epoch_inv (EpochBoundCapabilityBroker_init d broker_id).
Proof. intros Hd. constructor; [done|]. apply map_Forall_empty. Qed.

(** *** Decisions *)
Lemma finish_shows bound sn dsha dec rs at_unix cid b doc b' :
  _finish bound sn dsha dec rs at_unix cid b = (Ok doc, b') ->
  dict_get_none doc "decision" = JStr dec /\ dict_get_none doc "capability_id" = jopt cid.
Proof.
  unfold _finish. intros H. M_run H. destruct (EpochBoundCapabilityContract_base bound); [|done].
  by apply receipt_shows in H.
Qed.

Lemma finish_generic_shows rep subj ct pol sn dsha dec rs at_unix b doc b' :
  _finish_generic rep subj ct pol sn dsha dec rs at_unix b = (Ok doc, b') ->
  dict_get_none doc "decision" = JStr dec /\ dict_get_none doc "capability_id" = JNull.
Proof.
  unfold _finish_generic. intros H. M_run H. destruct (_sha _ _); [|done]. cbv zeta in H.
  destruct rep; [M_run H; destruct (EpochBoundCapabilityContract_base _); [|done]|];
    by apply receipt_shows in H.
Qed.

Lemma same_of {A} (m : M EpochBoundCapabilityBroker A) b r b' :
  evolves same_authority m -> m b = (r, b') -> same_authority b b'.
Proof. intros Hm E. specialize (Hm b). by rewrite E in Hm. Qed.

Lemma authorize_allowed_sound rep subj ct pol sn r sha rs at_unix b doc b' :
  authorize_allowed rep subj ct pol sn r sha rs at_unix b = (Ok doc, b') ->
  dict_get_none doc "decision" = JStr "ALLOW" ->
  exists id bound, dict_get_none r "capability_id" = JStr id
    /\ dict_get_none doc "capability_id" = JStr id /\ eb_bindings b !! id = Some bound
    /\ _binding_mismatch bound sn = [] /\ same_authority b b'.
Proof.
  unfold authorize_allowed. intros H Hdec. M_run H.
  destruct (dict_get_none r "capability_id") as [| | |id| |];
    try (apply finish_generic_shows in H as [Hd _]; by rewrite Hdec in Hd).
  destruct (eb_bindings b !! id) as [bound|] eqn:Hb.
  - destruct (negb _) eqn:Hm.
    + rewrite M_bind_eq in H. destruct (on_delegate _ b) as [[u|x] b1]; [|done].
      apply finish_shows in H as [Hd _]. by rewrite Hdec in Hd.
    + M_run H. destruct (reason_list _); [|done]. apply negb_false_iff, bool_decide_eq_true in Hm.
      pose proof (finish_shows _ _ _ _ _ _ _ _ _ _ H) as [_ Hc].
      exists id, bound. split_and!; try done. eapply same_of; [|exact H]. apply finish_same.
  - rewrite M_bind_eq in H. match type of H with (let (_, _) := ?c in _) = _ => destruct c as [[u|x] b1]; [|done] end.
    apply finish_generic_shows in H as [Hd _]. by rewrite Hdec in Hd.
Qed.

(** Reconciliation never makes a capability active, nor charges it. *)
Lemma reconciled_active b sn at_unix id s s' :
  reconciled b sn at_unix id s s' -> cs_status s' = Active -> s' = s /\ bound_now b sn id.
Proof. intros [[-> H]|(-> & _ & _)] Ha; [by split; [|apply H]|done]. Qed.

Lemma epoch_allow_sound_lemma rt subj ct pol rs act at_unix rid rsha b doc b' :
  epoch_inv b ->
  log_room_for (length (map_to_list (cb_states (eb_delegate b)))) (eb_delegate b) ->
  authorize rt subj ct pol rs act at_unix rid rsha b = (Ok doc, b') ->
  dict_get_none doc "decision" = JStr "ALLOW" ->
  exists sn id s bound scope,
    from_provider rt = Ok sn /\ sn_tainted sn = false
    /\ eb_bindings b !! id = Some bound
    /\ bc_runtime_epoch bound = sn_epoch sn /\ bc_runtime_state_sha256 bound = sn_state_sha256 sn
    /\ dict_get_none doc "capability_id" = JStr id
    /\ validate_scope ct (JObj rs) = Ok scope
    /\ eligible (eb_delegate b) subj ct pol scope at_unix id s
    /\ cb_states (eb_delegate b') !! id = Some (use_state s).
Proof.
  intros Hb Hroom H Hdec. unfold authorize in H. M_run H.
  destruct (_time _ _) as [t|x] eqn:Ht; [|done]. apply epoch_time_ok in Ht as [[= <-] Hat]. M_run H.
  destruct (from_provider rt) as [sn|x] eqn:Hsn; [|done]. rewrite M_bind_eq in H.
  destruct (reconcile_run sn at_unix b Hb Hat Hroom) as (rr & b1 & E & Hb1 & Hbi & _ & Hrec).
  rewrite E in H. M_run H. destruct (bound_candidates _ _ _ _) as [cs|x]; [|done]. cbv zeta in H.
  destruct (sn_tainted sn) eqn:Hta.
  { apply finish_generic_shows in H as [Hd _]. by rewrite Hdec in Hd. }
  rewrite M_bind_eq in H. unfold on_delegate at 1, zoom in H.
  destruct (CapabilityBroker.authorize _ _ _ _ _ _ _ _ (eb_delegate b1)) as [[r|x] d2] eqn:Hauth; [|done].
  M_run H. destruct (_ ← dict_item r _; _) as [dsha|x]; [|done].
  destruct (is_str (dict_get_none r "decision") "ALLOW") eqn:Hr.
  2: { M_run H. destruct (reason_list _); [|done]. apply finish_generic_shows in H as [Hd _].
       by rewrite Hdec in Hd. }
  assert (dict_get_none r "decision" = JStr "ALLOW") as Hr'.
  { destruct (dict_get_none r "decision"); try done. by apply String.eqb_eq in Hr as ->. }
  apply authorize_allowed_sound in H as (id & bound & Hid & Hdid & Hbound & Hm & [Hsame _]); [|done].
  apply mismatch_nil in Hm as [? ?]. cbn in Hbound. rewrite Hbi in Hbound.
  destruct (CapabilityBroker.authorize_allow_sound _ _ _ _ _ _ _ _ _ _ _ (ei_delegate _ Hb1) Hauth Hr')
    as (scope & id' & s & Hscope & He & Hid' & Hst).
  rewrite Hid in Hid'. injection Hid' as <-.
  exists sn, id, s, bound, scope. split_and!; try done.
  - specialize (Hrec id). rewrite (el_stored _ _ _ _ _ _ _ _ He) in Hrec.
    destruct (cb_states (eb_delegate b) !! id) as [s0|] eqn:Hs0; [|done]. cbn in Hrec.
    destruct (reconciled_active _ _ _ _ _ _ Hrec) as [-> _]; [by apply He|].
    destruct He. by constructor.
  - rewrite Hsame. cbn. by rewrite Hst, lookup_insert_eq.
Qed.

Lemma bound_candidates_total b subj ct sn : epoch_inv b ->
  exists cs, bound_candidates b subj ct sn = Ok cs /\ Forall bound_wf cs.
Proof.
  intros Hb. unfold bound_candidates.
  set (l := map snd (map_to_list (eb_bindings b))).
  assert (Forall bound_wf l) as Hl.
  { apply Forall_forall. intros bd Hin. unfold l in Hin. apply list_elem_of_fmap in Hin as ([id bd'] & -> & Hin).
    apply elem_of_map_to_list in Hin. by apply (ei_bindings b Hb id bd'). }
  assert (map_r (fun b => base ← EpochBoundCapabilityContract_base b; Ok (base, b)) l
          = Ok (map (fun bd => (bc_base bd, bd)) l)) as ->.
  { rewrite <- (map_id l) at 1. apply map_r_map. intros bd Hin. rewrite Forall_forall in Hl.
    by rewrite (base_reparsed _ (Hl bd Hin)). }
  rewrite bind_Ok. eexists. split; [reflexivity|].
  apply Forall_forall. intros bd Hin. apply list_elem_of_fmap in Hin as ([ba bd'] & -> & Hin).
  rewrite elem_of_sorted_on in Hin. apply list_elem_of_In, filter_In in Hin as [Hin _].
  apply list_elem_of_In, list_elem_of_fmap in Hin as (bd & [= -> ->] & Hin).
  rewrite Forall_forall in Hl. by apply Hl.
Qed.

Lemma finish_generic_run rep subj ct pol sn dsha dec rs at_unix b :
  (forall bd, rep = Some bd -> bound_wf bd) -> re_sha pol = true ->
  mem dec ["ALLOW"; "BLOCK"] = true -> 0 <= sn_epoch sn -> re_sha (sn_state_sha256 sn) = true ->
  re_sha dsha = true -> 0 <= at_unix ->
  exists doc b', _finish_generic rep subj ct pol sn dsha dec rs at_unix b = (Ok doc, b').
Proof.
  intros Hrep Hp Hd H1 H2 H3 H4. unfold _finish_generic.
  rewrite M_lift, (_sha_run _ pol) by done. cbv zeta. destruct rep as [bd|].
  - pose proof (Hrep bd eq_refl) as Hw. rewrite M_lift, (base_reparsed _ Hw).
    destruct (receipt_run None subj ct (bc_binding_sha256 bd) (cc_contract_sha256 (bc_base bd))
      (bc_runtime_epoch bd) (bc_runtime_state_sha256 bd) sn dsha dec
      (if bool_decide (rs = []) then ["default_deny"] else rs) at_unix b)
      as (doc & b' & -> & _); try done; eauto; destruct Hw as [Hc He Hs Hdg]; try done.
    + rewrite Hdg. apply canonical_sha256_sha.
    + rewrite (cwf_digest _ Hc). apply canonical_sha256_sha.
  - destruct (receipt_run None subj ct ZERO_SHA256 ZERO_SHA256 (sn_epoch sn) (sn_state_sha256 sn) sn
      dsha dec (if bool_decide (rs = []) then ["default_deny"] else rs) at_unix b)
      as (doc & b' & -> & _); try done; eauto; apply zero_sha.
Qed.

Lemma from_provider_wf rt sn : from_provider rt = Ok sn ->
  0 <= sn_epoch sn /\ re_sha (sn_state_sha256 sn) = true.
Proof.
  unfold from_provider. intros H. py_inv. destruct (dict_get_none _ "tainted"); try done.
  injection H as <-. cbn.
  repeat match goal with Ht : _time _ _ = Ok _ |- _ => apply epoch_time_ok in Ht as [_ ?]
  | Hs : _sha _ _ = Ok _ |- _ => apply epoch_sha_ok in Hs as [_ ?] end. done.
Qed.

Lemma tainted_blocks_lemma rt subj ct pol rs act at_unix rid rsha b sn :
  epoch_inv b ->
  log_room_for (length (map_to_list (cb_states (eb_delegate b)))) (eb_delegate b) ->
  from_provider rt = Ok sn -> sn_tainted sn = true -> 0 <= at_unix -> re_sha pol = true ->
  exists doc b', authorize rt subj ct pol rs act at_unix rid rsha b = (Ok doc, b')
    /\ dict_get_none doc "decision" = JStr "BLOCK"
    /\ forall id s, cb_states (eb_delegate b) !! id = Some s ->
       exists s', cb_states (eb_delegate b') !! id = Some s' /\ cs_status s' <> Active
         /\ cs_use_count s' = cs_use_count s.
Proof.
  intros Hb Hroom Hsn Hta Hat Hpol. unfold authorize.
  rewrite M_lift, (_time_run _ at_unix) by done. rewrite M_lift, Hsn, M_bind_eq.
  destruct (reconcile_run sn at_unix b Hb Hat Hroom) as (rr & b1 & -> & Hb1 & Hbi & _ & Hrec).
  rewrite M_get, M_lift. destruct (bound_candidates_total b1 subj ct sn Hb1) as (cs & -> & Hcs).
  cbv zeta. rewrite Hta. destruct (from_provider_wf _ _ Hsn) as [? ?].
  destruct (finish_generic_run (head cs) subj ct pol sn ZERO_SHA256 "BLOCK"
    (rr ++ ["runtime_state_tainted"]) at_unix b1) as (doc & b' & E); try done.
  { intros bd Hbd. destruct cs as [|c cs]; [done|]. injection Hbd as <-. by inversion Hcs. }
  exists doc, b'. split; [done|]. split; [by apply finish_generic_shows in E as [? _]|].
  intros id s Hs. specialize (Hrec id). rewrite Hs in Hrec.
  pose proof (same_of _ _ _ _ (finish_generic_same _ _ _ _ _ _ _ _ _) E) as [Hd _]. rewrite Hd.
  destruct (cb_states (eb_delegate b1) !! id) as [s1|]; [|done]. exists s1. split; [done|].
  assert (~ bound_now b sn id) as Hnb by (intros (? & _ & ? & _); congruence).
  destruct Hrec as [[-> Hk]|(-> & _ & _)]; [|done]. split; [|done]. intros Ha. by apply Hnb, Hk.
Qed.
Lemma bound_digest_binding b1 b2 : bound_wf b1 -> bound_wf b2 ->
  no_collision (JObj (EpochBoundCapabilityContract_body b1))
    (JObj (EpochBoundCapabilityContract_body b2)) ->
  bc_binding_sha256 b1 = bc_binding_sha256 b2 -> b1 = b2.
Proof.
  intros [Hc1 _ _ Hd1] [Hc2 _ _ Hd2] Hnc Hd. pose proof Hd as Hd'.
  rewrite Hd1, Hd2 in Hd'. apply no_collision_equiv in Hd'; [|done].
  pose proof (fun k => json_equiv_field _ _ k Hd' (bound_keys_nodup b1) (bound_keys_nodup b2)) as Hf.
  pose proof (Hf "base_capability") as Fb. pose proof (Hf "runtime_epoch") as Fe.
  pose proof (Hf "runtime_state_sha256") as Fs. clear Hf Hd' Hd1 Hd2 Hnc.
  cbn -[normalize CapabilityContract_as_document] in Fb. cbn in Fe, Fs. injection Fb as Fb.
  pose proof (proj2 (cwf_scope _ Hc1)) as Hs1. pose proof (proj2 (cwf_scope _ Hc2)) as Hs2.
  assert (cc_scope (bc_base b1) = cc_scope (bc_base b2)) as Hscope.
  { cbn in Hs1, Hs2. injection Hs1 as Hs1. injection Hs2 as Hs2. congruence. }
  match goal with Hp : normalize (jopt _) = normalize (jopt _) |- _ =>
    rewrite !normalize_jopt in Hp; apply (inj jopt) in Hp; rename Hp into Hparent end.
  clear Hc1 Hc2 Hs1 Hs2. destruct b1 as [[] ? ? ?], b2 as [[] ? ? ?]; cbn in *.
  clear -Hd Fe Fs Hscope Hparent Fb H H0 H1 H2 H3 H4 H5 H6 H8 H10. by simplify_eq.
Qed.
End lemmas.

(** ** Example values *)
Definition example_runtime (epoch : Z) (tainted : bool) : dict :=
  [("epoch", JInt epoch); ("state_sha256", JStr ZERO_SHA256); ("tainted", JBool tainted)].

Definition example_bound : result EpochBoundCapabilityContract :=
  @EpochBoundCapabilityContract_build checksum_digest example_document 3 ZERO_SHA256.

Definition example_bound_document : dict :=
  from_ok [] (EpochBoundCapabilityContract_as_document <$> example_bound).

Definition fresh_epoch_broker : EpochBoundCapabilityBroker :=
  EpochBoundCapabilityBroker_init (fresh_broker "broker:test") "broker:epoch-bound".

Definition example_epoch_broker : EpochBoundCapabilityBroker :=
  snd (@admit_contract checksum_digest (Ok (example_runtime 3 false)) example_bound_document 100
         fresh_epoch_broker).

Lemma example_epoch_reachable :
  broker_inv (hash := checksum_digest) (fresh_broker "broker:test")
  /\ star (@epoch_step checksum_digest) fresh_epoch_broker example_epoch_broker.
Proof. split; [apply fresh_inv|]. eapply star_step; [apply star_refl|apply estep_admit]. Qed.

(** ** Properties *)

(** C28: an ALLOW of the epoch-bound broker, in any reachable state, proves that the
    provider's snapshot at that call is untainted, that the capability charged is
    bound to exactly the snapshot's epoch and state digest, and that it was already
    eligible for the request in the capability broker before the call. *)
Theorem epoch_allow_sound `{hash : Digest} (d : CapabilityBroker) (broker_id : string)
    (b b' : EpochBoundCapabilityBroker) (runtime : result dict)
    (subject_id capability_type policy : string) (request action : dict) (at_unix : Z)
    (rid rsha : option string) (doc : dict)
    (Hd : broker_inv d) (Hreach : star epoch_step (EpochBoundCapabilityBroker_init d broker_id) b)
    (Hroom : log_room_for (length (map_to_list (cb_states (eb_delegate b)))) (eb_delegate b))
    (Hauth : authorize runtime subject_id capability_type policy request action at_unix rid rsha b
             = (Ok doc, b'))
    (Hallow : dict_get_none doc "decision" = JStr "ALLOW") :
  exists sn id s bound scope,
    from_provider runtime = Ok sn /\ sn_tainted sn = false
    /\ eb_bindings b !! id = Some bound
    /\ bc_runtime_epoch bound = sn_epoch sn /\ bc_runtime_state_sha256 bound = sn_state_sha256 sn
    /\ dict_get_none doc "capability_id" = JStr id
    /\ validate_scope capability_type (JObj request) = Ok scope
    /\ eligible (eb_delegate b) subject_id capability_type policy scope at_unix id s
    /\ cb_states (eb_delegate b') !! id = Some (use_state s).
Proof.
  eapply epoch_allow_sound_lemma; try done. by apply (star_epoch_ok _ _ Hreach), epoch_init_inv.
Qed.

Lemma epoch_allow_sound_witness :
  exists doc b',
    @authorize checksum_digest (Ok (example_runtime 3 false)) "agent:1" "repository.read"
      ZERO_SHA256 example_scope [] 150 None None example_epoch_broker = (Ok doc, b')
    /\ exists sn id s bound scope,
      @from_provider checksum_digest (Ok (example_runtime 3 false)) = Ok sn
      /\ sn_tainted sn = false /\ eb_bindings example_epoch_broker !! id = Some bound
      /\ bc_runtime_epoch bound = sn_epoch sn
      /\ bc_runtime_state_sha256 bound = sn_state_sha256 sn
      /\ dict_get_none doc "capability_id" = JStr id
      /\ validate_scope "repository.read" (JObj example_scope) = Ok scope
      /\ eligible (eb_delegate example_epoch_broker) "agent:1" "repository.read" ZERO_SHA256
           scope 150 id s
      /\ cb_states (eb_delegate b') !! id = Some (use_state s).
Proof.
  eexists _, _. split; [vm_compute; reflexivity|].
  eapply (@epoch_allow_sound checksum_digest (fresh_broker "broker:test") "broker:epoch-bound"
    example_epoch_broker _ (Ok (example_runtime 3 false)) "agent:1" "repository.read" ZERO_SHA256
    example_scope [] 150 None None).
  - apply example_epoch_reachable.
  - apply example_epoch_reachable.
  - vm_compute. reflexivity.
  - vm_compute. reflexivity.
  - reflexivity.
Defined.

(** [_reconcile] always returns, leaves the bindings alone and treats every stored
    capability exactly: a capability is left as it was, in which case it is either
    not active or bound to the snapshot's epoch and state with the runtime untainted,
    or it was active and is now revoked, because it is not so bound or names a parent. *)
Theorem reconcile_exact `{hash : Digest} (d : CapabilityBroker) (broker_id : string)
    (b : EpochBoundCapabilityBroker) (sn : TrustedRuntimeSnapshot) (at_unix : Z)
    (Hd : broker_inv d) (Hreach : star epoch_step (EpochBoundCapabilityBroker_init d broker_id) b)
    (Hroom : log_room_for (length (map_to_list (cb_states (eb_delegate b)))) (eb_delegate b))
    (Htime : 0 <= at_unix) :
  exists reasons b', _reconcile sn at_unix b = (Ok reasons, b')
    /\ eb_bindings b' = eb_bindings b
    /\ forall id, option_relation (reconciled b sn at_unix id) (fun _ => False) (fun _ => False)
         (cb_states (eb_delegate b) !! id) (cb_states (eb_delegate b') !! id).
Proof.
  destruct (reconcile_run sn at_unix b) as (rs & b' & ? & _ & ? & _ & ?); [|done..|].
  - by apply (star_epoch_ok _ _ Hreach), epoch_init_inv.
  - by exists rs, b'.
Qed.

Definition example_snapshot : TrustedRuntimeSnapshot := {|
  sn_epoch := 4; sn_state_sha256 := ZERO_SHA256; sn_tainted := false;
  sn_snapshot_sha256 := ZERO_SHA256 |}.

Lemma reconcile_exact_witness :
  exists reasons b', @_reconcile checksum_digest example_snapshot 150 example_epoch_broker
                     = (Ok reasons, b')
    /\ eb_bindings b' = eb_bindings example_epoch_broker
    /\ forall id, option_relation (reconciled example_epoch_broker example_snapshot 150 id)
         (fun _ => False) (fun _ => False)
         (cb_states (eb_delegate example_epoch_broker) !! id) (cb_states (eb_delegate b') !! id).
Proof.
  apply (@reconcile_exact checksum_digest (fresh_broker "broker:test") "broker:epoch-bound").
  - apply example_epoch_reachable.
  - apply example_epoch_reachable.
  - vm_compute. reflexivity.
  - lia.
Defined.

(** C30: when the runtime reports a tainted state, every request is answered BLOCK, no
    capability is charged, and afterwards no stored capability is active. *)
Theorem tainted_runtime_blocks_all `{hash : Digest} (d : CapabilityBroker) (broker_id : string)
    (b : EpochBoundCapabilityBroker) (runtime : result dict) (sn : TrustedRuntimeSnapshot)
    (subject_id capability_type policy : string) (request action : dict) (at_unix : Z)
    (rid rsha : option string)
    (Hd : broker_inv d) (Hreach : star epoch_step (EpochBoundCapabilityBroker_init d broker_id) b)
    (Hroom : log_room_for (length (map_to_list (cb_states (eb_delegate b)))) (eb_delegate b))
    (Hsn : from_provider runtime = Ok sn) (Htainted : sn_tainted sn = true)
    (Htime : 0 <= at_unix) (Hpolicy : re_sha policy = true) :
  exists doc b',
    authorize runtime subject_id capability_type policy request action at_unix rid rsha b
    = (Ok doc, b')
    /\ dict_get_none doc "decision" = JStr "BLOCK"
    /\ forall id s, cb_states (eb_delegate b) !! id = Some s ->
       exists s', cb_states (eb_delegate b') !! id = Some s' /\ cs_status s' <> Active
         /\ cs_use_count s' = cs_use_count s.
Proof.
  eapply tainted_blocks_lemma; try done. by apply (star_epoch_ok _ _ Hreach), epoch_init_inv.
Qed.

Lemma tainted_runtime_blocks_all_witness :
  exists doc b',
    @authorize checksum_digest (Ok (example_runtime 3 true)) "agent:1" "repository.read"
      ZERO_SHA256 example_scope [] 150 None None example_epoch_broker = (Ok doc, b')
    /\ dict_get_none doc "decision" = JStr "BLOCK"
    /\ forall id s, cb_states (eb_delegate example_epoch_broker) !! id = Some s ->
       exists s', cb_states (eb_delegate b') !! id = Some s' /\ cs_status s' <> Active
         /\ cs_use_count s' = cs_use_count s.
Proof.
  eapply (@tainted_runtime_blocks_all checksum_digest (fresh_broker "broker:test")
    "broker:epoch-bound" example_epoch_broker (Ok (example_runtime 3 true))).
  - apply example_epoch_reachable.
  - apply example_epoch_reachable.
  - vm_compute. reflexivity.
  - vm_compute. reflexivity.
  - reflexivity.
  - lia.
  - vm_compute. reflexivity.
Defined.

(** An accepted epoch-bound contract is read back from its own serialisation, and
    its [binding_sha256] binds everything: two accepted contracts with the same digest
    are the same capability in the same epoch and runtime state, unless the digest
    function collides on their bodies. *)
Theorem bound_contract_binds `{hash : Digest} (raw1 raw2 : dict)
    (b1 b2 : EpochBoundCapabilityContract)
    (H1 : EpochBoundCapabilityContract_from_document raw1 = Ok b1)
    (H2 : EpochBoundCapabilityContract_from_document raw2 = Ok b2)
    (Hnc : no_collision (JObj (EpochBoundCapabilityContract_body b1))
             (JObj (EpochBoundCapabilityContract_body b2))) :
  EpochBoundCapabilityContract_from_document (EpochBoundCapabilityContract_as_document b1) = Ok b1
  /\ (bc_binding_sha256 b1 = bc_binding_sha256 b2 -> b1 = b2).
Proof.
  apply bound_from_document_wf in H1, H2. split; [by apply bound_roundtrip|].
  by apply bound_digest_binding.
Qed.

Lemma bound_contract_binds_witness :
  exists b, @EpochBoundCapabilityContract_from_document checksum_digest example_bound_document = Ok b
  /\ (@EpochBoundCapabilityContract_from_document checksum_digest
        (EpochBoundCapabilityContract_as_document b) = Ok b
      /\ (bc_binding_sha256 b = bc_binding_sha256 b -> b = b)).
Proof.
  eexists. split; [vm_compute; reflexivity|].
  apply (@bound_contract_binds checksum_digest example_bound_document example_bound_document).
  - vm_compute. reflexivity.
  - vm_compute. reflexivity.
  - intros _. reflexivity.
Defined.
