(* ===== verification/Escalation.v ===== *)
(** * Composed-risk analysis (sdk/liminal_causal_escalation/__init__.py)

    Hash-chained trajectory events, the verification of a trajectory and the
    deterministic risk score computed from it. *)
From stdpp Require Import gmap.
From S2P Require Import Prelude PyStr Json Digest.
#[local] Open Scope Z_scope.

(** ** Constants *)
Definition SCHEMA : string := "liminal-causal-escalation-decision-v0.1".

Definition AUTHORITY : dict :=
  [("mode", JStr "trajectory_analysis_only"); ("capability_grant", JBool false);
   ("execution", JBool false); ("network_mediation", JBool false);
   ("credential_access", JBool false); ("process_control", JBool false);
   ("containment_execution", JBool false); ("human_release", JBool false)].

Definition EVENT_KINDS : list string :=
  ["package.install"; "network.connect_domain"; "credential.access"; "process.spawn_child";
   "process.execute"; "runtime.configure"; "repository.write"; "capability.grant";
   "capability.revoke"].

(** A rule: identifier, weight and the kinds it requires, in order. *)
Record rule := { rule_id : string; weight : Z; requires : list string }.

Definition RULES : list rule :=
  [{| rule_id := "R-CRED-EGRESS"; weight := 35;
      requires := ["network.connect_domain"; "credential.access"] |};
   {| rule_id := "R-PACKAGE-EGRESS"; weight := 20;
      requires := ["package.install"; "network.connect_domain"] |};
   {| rule_id := "R-CRED-CHILD"; weight := 30;
      requires := ["credential.access"; "process.spawn_child"] |};
   {| rule_id := "R-PACKAGE-CRED-CHILD"; weight := 45;
      requires := ["package.install"; "credential.access"; "process.spawn_child"] |};
   {| rule_id := "R-RUNTIME-CRED"; weight := 25;
      requires := ["runtime.configure"; "credential.access"] |};
   {| rule_id := "R-NEW-EGRESS-CHILD"; weight := 25;
      requires := ["network.connect_domain"; "process.spawn_child"] |}].

Definition THRESHOLD_REVISE : Z := 20.
Definition THRESHOLD_BLOCK : Z := 50.
Definition THRESHOLD_CONTAIN : Z := 80.

(** ** Events *)
Record TrajectoryEvent := {
  te_event_id : string;
  te_sequence : Z;
  te_observed_at_unix : Z;
  te_kind : string;
  te_decision : string;
  te_subject_id : string;
  te_capability_id : option string;
  te_privilege_level_before : Z;
  te_privilege_level_after : Z;
  te_metadata_sha256 : string;
  te_previous_event_sha256 : string;
  te_event_sha256 : string
}.

Definition TrajectoryEvent_body (e : TrajectoryEvent) : dict :=
  [("event_id", JStr (te_event_id e));
   ("sequence", JInt (te_sequence e));
   ("observed_at_unix", JInt (te_observed_at_unix e));
   ("kind", JStr (te_kind e));
   ("decision", JStr (te_decision e));
   ("subject_id", JStr (te_subject_id e));
   ("capability_id", jopt (te_capability_id e));
   ("privilege_level_before", JInt (te_privilege_level_before e));
   ("privilege_level_after", JInt (te_privilege_level_after e));
   ("metadata_sha256", JStr (te_metadata_sha256 e));
   ("previous_event_sha256", JStr (te_previous_event_sha256 e))].

Definition set_event_sha (e : TrajectoryEvent) (d : string) : TrajectoryEvent := {|
  te_event_id := te_event_id e; te_sequence := te_sequence e;
  te_observed_at_unix := te_observed_at_unix e; te_kind := te_kind e;
  te_decision := te_decision e; te_subject_id := te_subject_id e;
  te_capability_id := te_capability_id e;
  te_privilege_level_before := te_privilege_level_before e;
  te_privilege_level_after := te_privilege_level_after e;
  te_metadata_sha256 := te_metadata_sha256 e;
  te_previous_event_sha256 := te_previous_event_sha256 e; te_event_sha256 := d |}.

(** ** Decisions *)
Record EscalationDecision := {
  ed_decision : string;
  ed_risk_score : Z;
  ed_matched_rules : list string;
  ed_contributing_event_ids : list string;
  ed_privilege_delta : Z;
  ed_capability_delta : Z;
  ed_explanation : string;
  ed_graph_sha256 : string;
  ed_receipt_sha256 : string
}.

Definition EscalationDecision_body (d : EscalationDecision) : dict :=
  [("schema", JStr SCHEMA);
   ("decision", JStr (ed_decision d));
   ("risk_score", JInt (ed_risk_score d));
   ("matched_rules", jstrs (ed_matched_rules d));
   ("contributing_event_ids", jstrs (ed_contributing_event_ids d));
   ("privilege_delta", JInt (ed_privilege_delta d));
   ("capability_delta", JInt (ed_capability_delta d));
   ("explanation", JStr (ed_explanation d));
   ("graph_sha256", JStr (ed_graph_sha256 d));
   ("authority", JObj AUTHORITY)].

Definition EscalationDecision_as_document (d : EscalationDecision) : dict :=
  dict_set (EscalationDecision_body d) "receipt_sha256" (JStr (ed_receipt_sha256 d)).

(** ** Rule matching *)

(** The loop of [_ordered_subsequence]; [required] is [required[cursor:]], which the
    callers never pass empty. *)
Fixpoint _ordered_subsequence (values required : list string) : bool :=
  match values, required with
  | value :: values', r :: rest =>
      if String.eqb value r then
        match rest with
        | [] => true
        | _ => _ordered_subsequence values' rest
        end
      else _ordered_subsequence values' required
  | _, _ => false
  end.

Fixpoint _contributors_for (events : list TrajectoryEvent) (required : list string) : list string :=
  match events, required with
  | event :: events', r :: rest =>
      if String.eqb (te_kind event) r then
        te_event_id event :: match rest with
                             | [] => []
                             | _ => _contributors_for events' rest
                             end
      else _contributors_for events' required
  | _, _ => []
  end.

Definition _decision_for (score : Z) : string :=
  if THRESHOLD_CONTAIN <=? score then "CONTAIN"
  else if THRESHOLD_BLOCK <=? score then "BLOCK"
  else if THRESHOLD_REVISE <=? score then "REVISE"
  else "ALLOW".

(** [f"{n:+d}"]. *)
Definition signed (n : Z) : string := if n <? 0 then pretty n else "+" +:+ pretty n.

Definition _explain (decision : string) (score : Z) (rules event_ids : list string)
    (privilege_delta capability_delta : Z) : string :=
  join "; "
    (["trajectory risk=" +:+ pretty score +:+ "/100 → " +:+ decision]
     ++ (if bool_decide (rules = []) then [] else ["matched rules: " +:+ join ", " rules])
     ++ (if bool_decide (event_ids = []) then []
         else ["contributing events: " +:+ join ", " event_ids])
     ++ (if privilege_delta =? 0 then [] else ["privilege delta: " +:+ signed privilege_delta])
     ++ (if capability_delta =? 0 then []
         else ["peak active capability count: " +:+ pretty capability_delta])).

(** The loop over the rules: matched identifiers, contributors and risk. *)
Definition rule_step (allowed : list TrajectoryEvent)
    (acc : list string * list string * Z) (r : rule) : list string * list string * Z :=
  let '(matched, contributors, risk) := acc in
  if _ordered_subsequence (map te_kind allowed) (requires r)
  then (matched ++ [rule_id r], contributors ++ _contributors_for allowed (requires r),
        risk + weight r)
  else acc.

Definition match_rules (allowed : list TrajectoryEvent) : list string * list string * Z :=
  fold_left (rule_step allowed) (sorted_on rule_id RULES) ([], [], 0).

(** The loop over the granted capabilities: [(active_caps, max_caps)]. *)
Definition caps_step (acc : gset string * Z) (e : TrajectoryEvent) : gset string * Z :=
  let active :=
    match te_capability_id e with
    | None => fst acc
    | Some c =>
        if String.eqb c "" then fst acc
        else if String.eqb (te_kind e) "capability.grant" then {[ c ]} ∪ fst acc
        else if String.eqb (te_kind e) "capability.revoke" then fst acc ∖ {[ c ]}
        else fst acc
    end in
  (active, Z.max (snd acc) (Z.of_nat (size active))).

Definition peak_caps (allowed : list TrajectoryEvent) : Z :=
  snd (fold_left caps_step allowed (∅, 0)).

Definition privilege_delta (ordered : list TrajectoryEvent) : Z :=
  match ordered with
  | [] => 0
  | first :: _ =>
      te_privilege_level_after (List.last ordered first) - te_privilege_level_before first
  end.

Definition is_allowed (e : TrajectoryEvent) : bool := String.eqb (te_decision e) "ALLOW".

Definition risk_score (ordered : list TrajectoryEvent) : Z :=
  let allowed := List.filter is_allowed ordered in
  let risk := snd (match_rules allowed) in
  let pd := privilege_delta ordered in
  let risk := if 0 <? pd then risk + Z.min 25 (pd * 5) else risk in
  let cd := peak_caps allowed in
  let risk := if 1 <? cd then risk + Z.min 20 ((cd - 1) * 5) else risk in
  Z.min 100 risk.

Section escalation.
Context {hash : Digest}.

Definition TrajectoryEvent_build (event_id : string) (sequence observed_at_unix : Z)
    (kind decision subject_id : string) (capability_id : option string)
    (privilege_level_before privilege_level_after : Z) (metadata : dict)
    (previous_event_sha256 : string) : result TrajectoryEvent :=
  _ ← raise_if (String.eqb (py_strip event_id) "") EscalationError "event_id must be non-empty";
  _ ← raise_if (sequence <? 1) EscalationError "sequence must be >= 1";
  _ ← raise_if (observed_at_unix <? 0) EscalationError "observed_at_unix must be non-negative";
  _ ← raise_if (negb (mem kind EVENT_KINDS)) EscalationError "unsupported event kind";
  _ ← raise_if (negb (mem decision ["ALLOW"; "BLOCK"; "REVISE"; "CONTAIN"])) EscalationError
        "unsupported decision";
  _ ← raise_if (String.eqb (py_strip subject_id) "") EscalationError
        "subject_id must be non-empty";
  _ ← raise_if (negb ((0 <=? privilege_level_before) && (privilege_level_before <=? 10)))
        EscalationError "privilege_level_before must be between 0 and 10";
  _ ← raise_if (negb ((0 <=? privilege_level_after) && (privilege_level_after <=? 10)))
        EscalationError "privilege_level_after must be between 0 and 10";
  _ ← raise_if (negb (py_len previous_event_sha256 =? 64)) EscalationError
        "previous_event_sha256 must be a SHA-256 digest";
  let base := {|
    te_event_id := event_id; te_sequence := sequence; te_observed_at_unix := observed_at_unix;
    te_kind := kind; te_decision := decision; te_subject_id := subject_id;
    te_capability_id := capability_id; te_privilege_level_before := privilege_level_before;
    te_privilege_level_after := privilege_level_after;
    te_metadata_sha256 := canonical_sha256 (JObj metadata);
    te_previous_event_sha256 := previous_event_sha256; te_event_sha256 := "" |} in
  Ok (set_event_sha base (canonical_sha256 (JObj (TrajectoryEvent_body base)))).

(** The loop of [_verify_chain]. *)
Fixpoint verify_from (index : Z) (previous : string) (last_time : Z) (events : list TrajectoryEvent)
    : result unit :=
  match events with
  | [] => Ok tt
  | event :: rest =>
      _ ← raise_if (negb (te_sequence event =? index)) EscalationError
            "event sequence is disconnected";
      _ ← raise_if (negb (String.eqb (te_previous_event_sha256 event) previous)) EscalationError
            "causal hash chain is disconnected";
      _ ← raise_if (te_observed_at_unix event <? last_time) EscalationError
            "event time moved backwards";
      _ ← raise_if (negb (String.eqb (canonical_sha256 (JObj (TrajectoryEvent_body event)))
                            (te_event_sha256 event))) EscalationError "event digest mismatch";
      verify_from (index + 1) (te_event_sha256 event) (te_observed_at_unix event) rest
  end.

Definition _verify_chain (events : list TrajectoryEvent) : result unit :=
  verify_from 1 ZERO_SHA256 (-1) events.

(** [event.body() | {"event_sha256": event.event_sha256}]. *)
Definition event_document (e : TrajectoryEvent) : dict :=
  dict_set (TrajectoryEvent_body e) "event_sha256" (JStr (te_event_sha256 e)).

Definition seal_decision (d : EscalationDecision) : EscalationDecision := {|
  ed_decision := ed_decision d; ed_risk_score := ed_risk_score d;
  ed_matched_rules := ed_matched_rules d;
  ed_contributing_event_ids := ed_contributing_event_ids d;
  ed_privilege_delta := ed_privilege_delta d; ed_capability_delta := ed_capability_delta d;
  ed_explanation := ed_explanation d; ed_graph_sha256 := ed_graph_sha256 d;
  ed_receipt_sha256 := canonical_sha256 (JObj (EscalationDecision_body d)) |}.

(** The decision [analyze_trajectory] serialises for a verified trajectory. *)
Definition analysis (ordered : list TrajectoryEvent) : EscalationDecision :=
  let allowed := List.filter is_allowed ordered in
  let '(matched, contributors, _) := match_rules allowed in
  let risk := risk_score ordered in
  let decision := _decision_for risk in
  let pd := privilege_delta ordered in
  let cd := peak_caps allowed in
  seal_decision {|
    ed_decision := decision; ed_risk_score := risk; ed_matched_rules := matched;
    ed_contributing_event_ids := sorted_set contributors; ed_privilege_delta := pd;
    ed_capability_delta := cd;
    ed_explanation := _explain decision risk matched (sorted_set contributors) pd cd;
    ed_graph_sha256 := canonical_sha256 (JList (map (fun e => JObj (event_document e)) ordered));
    ed_receipt_sha256 := "" |}.

Definition analyze_trajectory (events : list TrajectoryEvent) : result dict :=
  _ ← _verify_chain events;
  Ok (EscalationDecision_as_document (analysis events)).

(** [TrajectoryEvent( ** dict(raw))]: the keys must be exactly the fields; values of
    other types than the annotated ones are outside the model and are refused. *)
Definition event_of_dict (raw : dict) : result TrajectoryEvent :=
  _ ← raise_if (negb (keys_are raw ["event_id"; "sequence"; "observed_at_unix"; "kind"; "decision";
         "subject_id"; "capability_id"; "privilege_level_before"; "privilege_level_after";
         "metadata_sha256"; "previous_event_sha256"; "event_sha256"]))
        TypeError "TrajectoryEvent.__init__() arguments";
  let str k := match dict_get_none raw k with JStr s => Ok s | _ => fail TypeError k end in
  let int k := match dict_get_none raw k with JInt z => Ok z | _ => fail TypeError k end in
  event_id ← str "event_id"; sequence ← int "sequence"; observed ← int "observed_at_unix";
  kind ← str "kind"; decision ← str "decision"; subject ← str "subject_id";
  capability ← (match dict_get_none raw "capability_id" with
                | JNull => Ok None | JStr s => Ok (Some s) | _ => fail TypeError "capability_id" end);
  before ← int "privilege_level_before"; after ← int "privilege_level_after";
  metadata ← str "metadata_sha256"; previous ← str "previous_event_sha256";
  digest ← str "event_sha256";
  Ok {| te_event_id := event_id; te_sequence := sequence; te_observed_at_unix := observed;
        te_kind := kind; te_decision := decision; te_subject_id := subject;
        te_capability_id := capability; te_privilege_level_before := before;
        te_privilege_level_after := after; te_metadata_sha256 := metadata;
        te_previous_event_sha256 := previous; te_event_sha256 := digest |}.

Definition replay (events : list dict) : result dict :=
  parsed ← map_r (fun raw =>
    event ← event_of_dict raw;
    _ ← raise_if (negb (String.eqb (canonical_sha256 (JObj (TrajectoryEvent_body event)))
                          (te_event_sha256 event))) EscalationError "event digest mismatch";
    Ok event) events;
  analyze_trajectory parsed.
End escalation.

(** ** Lemmas *)

(** *** Rules *)
Lemma ordered_subsequence_spec values required : required <> [] ->
  _ordered_subsequence values required = true <-> required `sublist_of` values.
Proof.
  revert required. induction values as [|v vs IH]; intros required Hne; destruct required as [|r rest];
    try done; cbn [_ordered_subsequence].
  - split; [done|]. intros H. inversion H.
  - destruct (String.eqb_spec v r) as [->|Hvr].
    + destruct rest as [|r' rest].
      * split; [|done]. intros _. apply sublist_skip, sublist_nil_l.
      * rewrite IH by done. split; [apply sublist_skip|].
        intros H. inversion H; subst; [done|].
        etrans; [|eassumption]. by apply sublist_cons.
    + rewrite IH by done. split; [apply sublist_cons|].
      intros H. inversion H; subst; done.
Qed.

Definition rule_matches (allowed : list TrajectoryEvent) (r : rule) : bool :=
  _ordered_subsequence (map te_kind allowed) (requires r).

Definition total_weight (l : list rule) : Z := fold_right (fun r acc => weight r + acc) 0 l.

Lemma match_rules_fold allowed l m c k :
  fold_left (rule_step allowed) l (m, c, k)
  = (m ++ map rule_id (List.filter (rule_matches allowed) l),
     c ++ concat (map (fun r => _contributors_for allowed (requires r))
                    (List.filter (rule_matches allowed) l)),
     k + total_weight (List.filter (rule_matches allowed) l)).
Proof.
  revert m c k. induction l as [|r l IH]; intros m c k; cbn [fold_left List.filter].
  - cbn. rewrite !app_nil_r. f_equal. lia.
  - assert (rule_step allowed (m, c, k) r
      = if rule_matches allowed r
        then (m ++ [rule_id r], c ++ _contributors_for allowed (requires r), k + weight r)
        else (m, c, k)) as -> by done.
    destruct (rule_matches allowed r); rewrite IH; [|done].
    cbn. by rewrite <- !app_assoc, <- Z.add_assoc.
Qed.

Lemma match_rules_spec allowed :
  match_rules allowed
  = (map rule_id (List.filter (rule_matches allowed) (sorted_on rule_id RULES)),
     concat (map (fun r => _contributors_for allowed (requires r))
               (List.filter (rule_matches allowed) (sorted_on rule_id RULES))),
     total_weight (List.filter (rule_matches allowed) (sorted_on rule_id RULES))).
Proof. unfold match_rules. by rewrite match_rules_fold. Qed.

Lemma rules_nonempty r : r ∈ sorted_on rule_id RULES -> requires r <> [] /\ 0 <= weight r.
Proof.
  intros Hr. rewrite elem_of_sorted_on in Hr. revert r Hr. apply Forall_forall. by repeat constructor.
Qed.

Lemma rule_matches_spec allowed r : r ∈ RULES ->
  rule_matches allowed r = true <-> requires r `sublist_of` map te_kind allowed.
Proof.
  intros Hr. apply ordered_subsequence_spec, rules_nonempty. by apply elem_of_sorted_on.
Qed.

Lemma rule_id_inj r1 r2 : r1 ∈ RULES -> r2 ∈ RULES -> rule_id r1 = rule_id r2 -> r1 = r2.
Proof.
  intros H1 H2 E. unfold RULES in *.
  repeat (apply elem_of_cons in H1 as [->|H1]); try (by inversion H1);
  repeat (apply elem_of_cons in H2 as [->|H2]); try (by inversion H2); done.
Qed.

Lemma matched_spec allowed r : r ∈ RULES ->
  rule_id r ∈ map rule_id (List.filter (rule_matches allowed) (sorted_on rule_id RULES))
  <-> requires r `sublist_of` map te_kind allowed.
Proof.
  intros Hr. rewrite <- (rule_matches_spec allowed r Hr), list_elem_of_fmap. split.
  - intros (r' & E & Hin). apply list_elem_of_In, filter_In in Hin as [Hin Hm].
    apply list_elem_of_In, elem_of_sorted_on in Hin. by rewrite (rule_id_inj r r').
  - intros Hm. exists r. split; [done|]. apply list_elem_of_In, filter_In. split; [|done].
    apply list_elem_of_In. by apply elem_of_sorted_on.
Qed.

(** More matching rules weigh more. *)
Lemma total_weight_mono (p q : rule -> bool) l :
  (forall r, r ∈ l -> 0 <= weight r) -> (forall r, r ∈ l -> p r = true -> q r = true) ->
  0 <= total_weight (List.filter p l) <= total_weight (List.filter q l).
Proof.
  induction l as [|r l IH]; intros Hw Hpq; cbn [List.filter]; [cbn; lia|].
  destruct IH as [IH1 IH2]; [intros r' ?; apply Hw; by right|intros r' ?; apply Hpq; by right|].
  pose proof (Hw r ltac:(by left)). specialize (Hpq r ltac:(by left)).
  assert (forall l, total_weight (r :: l) = weight r + total_weight l) as Hc by done.
  destruct (p r), (q r); rewrite ?Hc; lia.
Qed.

Lemma rules_weight_mono a b : map te_kind a `sublist_of` map te_kind b ->
  0 <= snd (match_rules a) <= snd (match_rules b).
Proof.
  intros Hab. rewrite !match_rules_spec. cbn. apply total_weight_mono.
  - intros r Hr. by apply rules_nonempty.
  - intros r Hr Hm. pose proof (proj1 (rules_nonempty r Hr)) as Hne.
    unfold rule_matches in *. rewrite ordered_subsequence_spec in * by done. by etrans.
Qed.

(** *** Capabilities *)
Lemma caps_fold_mono l acc : snd acc <= snd (fold_left caps_step l acc).
Proof.
  revert acc. induction l as [|e l IH]; intros acc; cbn [fold_left]; [lia|].
  etrans; [|apply IH]. cbn. lia.
Qed.

Lemma peak_caps_mono a b : 0 <= peak_caps a <= peak_caps (a ++ b).
Proof.
  unfold peak_caps. rewrite fold_left_app. split; [apply (caps_fold_mono a (∅, 0))|apply caps_fold_mono].
Qed.

(** *** The score *)
Lemma risk_bounds l : 0 <= risk_score l <= 100.
Proof.
  unfold risk_score. cbv zeta.
  destruct (rules_weight_mono (List.filter is_allowed l) (List.filter is_allowed l)) as [H _]; [done|].
  destruct (0 <? privilege_delta l) eqn:E1; destruct (1 <? peak_caps _) eqn:E2;
    rewrite ?Z.ltb_lt, ?Z.ltb_ge in *; lia.
Qed.

Lemma risk_at_least l :
  Z.min 100 (snd (match_rules (List.filter is_allowed l))) <= risk_score l.
Proof.
  unfold risk_score. cbv zeta.
  destruct (0 <? privilege_delta l) eqn:E1; destruct (1 <? peak_caps _) eqn:E2;
    rewrite ?Z.ltb_lt, ?Z.ltb_ge in *; lia.
Qed.

Lemma risk_mono l more : privilege_delta l <= privilege_delta (l ++ more) ->
  risk_score l <= risk_score (l ++ more).
Proof.
  intros Hp. unfold risk_score. cbv zeta. rewrite List.filter_app.
  destruct (rules_weight_mono (List.filter is_allowed l)
    (List.filter is_allowed l ++ List.filter is_allowed more)) as [_ Hw].
  { rewrite map_app. apply sublist_inserts_r. done. }
  pose proof (peak_caps_mono (List.filter is_allowed l) (List.filter is_allowed more)).
  destruct (0 <? privilege_delta l) eqn:E1; destruct (0 <? privilege_delta (l ++ more)) eqn:E2;
    destruct (1 <? peak_caps (List.filter is_allowed l)) eqn:E3;
    destruct (1 <? peak_caps (_ ++ _)) eqn:E4; rewrite ?Z.ltb_lt, ?Z.ltb_ge in *; lia.
Qed.

Lemma decision_for_spec n :
  (_decision_for n = "CONTAIN" <-> 80 <= n) /\ (_decision_for n = "BLOCK" <-> 50 <= n < 80)
  /\ (_decision_for n = "REVISE" <-> 20 <= n < 50) /\ (_decision_for n = "ALLOW" <-> n < 20).
Proof.
  unfold _decision_for, THRESHOLD_CONTAIN, THRESHOLD_BLOCK, THRESHOLD_REVISE.
  destruct (Z.leb_spec 80 n), (Z.leb_spec 50 n), (Z.leb_spec 20 n);
    (split_and!; split; (done || lia)).
Qed.

(** A full package, egress, credential and child-process chain reaches the top score. *)
Definition attack_chain : list string :=
  ["package.install"; "network.connect_domain"; "credential.access"; "process.spawn_child"].

Lemma attack_chain_risk l : attack_chain `sublist_of` map te_kind (List.filter is_allowed l) ->
  risk_score l = 100.
Proof.
  intros Hs. pose proof (risk_at_least l) as Hr. pose proof (risk_bounds l).
  enough (100 <= snd (match_rules (List.filter is_allowed l))) by lia. clear Hr.
  set (probe k := {| te_event_id := ""; te_sequence := 0; te_observed_at_unix := 0; te_kind := k;
    te_decision := "ALLOW"; te_subject_id := ""; te_capability_id := None;
    te_privilege_level_before := 0; te_privilege_level_after := 0; te_metadata_sha256 := "";
    te_previous_event_sha256 := ""; te_event_sha256 := "" |}).
  destruct (rules_weight_mono (map probe attack_chain) (List.filter is_allowed l)) as [_ Hw];
    [rewrite map_map; exact Hs|].
  etrans; [|exact Hw]. vm_compute. discriminate.
Qed.

(** *** Trajectories *)
Section trajectories.
Context {hash : Digest}.

(** What [_verify_chain] checks, as a predicate on the whole trajectory. *)
Definition time_ordered (t0 : Z) (l : list TrajectoryEvent) : Prop :=
  forall i e, l !! i = Some e ->
    te_observed_at_unix e >= match i with
                             | O => t0
                             | S j => from_option te_observed_at_unix t0 (l !! j)
                             end.

Record trajectory_valid (index : Z) (h : string) (t0 : Z) (l : list TrajectoryEvent) : Prop := {
  tv_sequence : forall i e, l !! i = Some e -> te_sequence e = index + Z.of_nat i;
  tv_linked : exists h', linked te_previous_event_sha256 te_event_sha256 h l h';
  tv_time : time_ordered t0 l;
  tv_digest : Forall (fun e => te_event_sha256 e
                = canonical_sha256 (JObj (TrajectoryEvent_body e))) l
}.

Lemma verify_from_spec index h t0 l :
  verify_from index h t0 l = Ok tt <-> trajectory_valid index h t0 l.
Proof.
  revert index h t0. induction l as [|e l IH]; intros index h t0; cbn [verify_from].
  - split; [|done]. intros _. constructor; [done| |done|done]. by exists h.
  - split.
    + intros H. py_inv. apply IH in H as [Hs [h' Hl] Ht Hd].
      repeat match goal with
      | Hb : negb _ = false |- _ => apply negb_false_iff in Hb
      | Hb : (_ =? _)%Z = true |- _ => apply Z.eqb_eq in Hb
      | Hb : String.eqb _ _ = true |- _ => apply String.eqb_eq in Hb
      | Hb : (_ <? _) = false |- _ => apply Z.ltb_ge in Hb end.
      constructor.
      * intros [|i] e' He'; [injection He' as <-; cbn; lia|]. rewrite (Hs i e' He'). lia.
      * by exists h'.
      * intros [|i] e' He'; [injection He' as <-; cbn; lia|].
        specialize (Ht i e' He'). destruct i as [|i]; cbn in *; [lia|].
        destruct (l !! i) eqn:E; cbn in *; [done|].
        apply lookup_ge_None in E. apply lookup_lt_Some in He'. lia.
      * by constructor.
    + intros [Hs [h' [Hp Hl]] Ht Hd]. inversion Hd as [|? ? He Hd']; subst.
      pose proof (Hs 0%nat e eq_refl) as Hs0. pose proof (Ht 0%nat e eq_refl) as Ht0. cbn in Ht0.
      assert (te_sequence e = index) as -> by lia. rewrite Z.eqb_refl, String.eqb_refl, <- He, String.eqb_refl.
      replace (te_observed_at_unix e <? t0) with false by (symmetry; apply Z.ltb_ge; lia).
      cbn [negb raise_if]. rewrite !bind_Ok. apply IH. constructor.
      * intros i e' He'. rewrite (Hs (S i) e' He'). lia.
      * by exists h'.
      * intros i e' He'. specialize (Ht (S i) e' He'). destruct i; [done|].
        cbn in Ht |- *. destruct (l !! i) eqn:E; [done|].
        apply lookup_ge_None in E. apply lookup_lt_Some in He'. lia.
      * done.
Qed.

Lemma trajectory_snoc index h t0 l e : trajectory_valid index h t0 (l ++ [e]) ->
  trajectory_valid index h t0 l /\ te_sequence e = index + Z.of_nat (length l)
  /\ te_previous_event_sha256 e = from_option te_event_sha256 h (last l)
  /\ te_event_sha256 e = canonical_sha256 (JObj (TrajectoryEvent_body e)).
Proof.
  intros [Hs [h' Hl] Ht Hd]. apply Forall_app in Hd as [Hd He].
  assert ((exists h', linked te_previous_event_sha256 te_event_sha256 h l h')
    /\ te_previous_event_sha256 e = from_option te_event_sha256 h (last l)) as [Hl' Hp].
  { clear -Hl. revert h Hl. induction l as [|x l IH]; intros h; cbn.
    - intros [? _]. by split; [exists h|].
    - intros [? Hl]. destruct (IH _ Hl) as [[h1 ?] Hp]. split; [by exists h1|].
      rewrite Hp, last_cons. by destruct (last l). }
  split_and!.
  - constructor; [|done| |done].
    + intros i e' He'. apply Hs. by apply lookup_app_l_Some.
    + intros i e' He'. specialize (Ht i e' (lookup_app_l_Some _ _ _ _ He')).
      destruct i as [|i]; [done|]. rewrite lookup_app_l in Ht; [done|].
      apply lookup_lt_Some in He'. lia.
  - apply Hs. by apply list_lookup_middle.
  - done.
  - by inversion He.
Qed.

Lemma event_body_nodup e : NoDup (dict_keys (TrajectoryEvent_body e)).
Proof. cbn. by apply (bool_decide_eq_true_1 _). Qed.

Lemma event_body_inj e1 e2 :
  json_equiv (JObj (TrajectoryEvent_body e1)) (JObj (TrajectoryEvent_body e2)) ->
  te_event_sha256 e1 = te_event_sha256 e2 -> e1 = e2.
Proof.
  intros Hj Hd.
  pose proof (fun k => json_equiv_field _ _ k Hj (event_body_nodup e1) (event_body_nodup e2)) as Hf.
  pose proof (Hf "event_id") as F1. pose proof (Hf "sequence") as F2.
  pose proof (Hf "observed_at_unix") as F3. pose proof (Hf "kind") as F4.
  pose proof (Hf "decision") as F5. pose proof (Hf "subject_id") as F6.
  pose proof (Hf "capability_id") as F7. pose proof (Hf "privilege_level_before") as F8.
  pose proof (Hf "privilege_level_after") as F9. pose proof (Hf "metadata_sha256") as F10.
  pose proof (Hf "previous_event_sha256") as F11. clear Hf Hj.
  cbn -[normalize] in F7. rewrite !normalize_jopt in F7. injection F7 as F7. apply (inj jopt) in F7.
  cbn in F1, F2, F3, F4, F5, F6, F8, F9, F10, F11.
  destruct e1, e2; cbn in *. by simplify_eq.
Qed.

(** The digest of the last event determines the whole trajectory. *)
Lemma chain_binds_history index h t0 l1 : forall l2,
  trajectory_valid index h t0 l1 -> trajectory_valid index h t0 l2 ->
  (forall e1 e2, e1 ∈ l1 -> e2 ∈ l2 ->
   no_collision (JObj (TrajectoryEvent_body e1)) (JObj (TrajectoryEvent_body e2))) ->
  l1 <> [] -> l2 <> [] ->
  te_event_sha256 <$> last l1 = te_event_sha256 <$> last l2 -> l1 = l2.
Proof.
  induction l1 as [|e1 l1 IH] using rev_ind; intros l2 H1 H2 Hnc Hn1 Hn2 Hlast; [done|].
  destruct l2 as [|e2 l2 _] using rev_ind; [done|]. clear Hn1 Hn2.
  rewrite !last_snoc in Hlast. injection Hlast as Hlast.
  apply trajectory_snoc in H1 as (H1 & Hs1 & Hp1 & Hd1).
  apply trajectory_snoc in H2 as (H2 & Hs2 & Hp2 & Hd2).
  assert (e1 = e2) as <-.
  { apply event_body_inj; [|done]. apply no_collision_equiv; [|congruence].
    apply Hnc; apply elem_of_app; right; by left. }
  f_equal. assert (length l1 = length l2) as Hlen by lia.
  destruct (decide (l1 = [])) as [->|Hn1]; [by destruct l2|].
  apply IH; try done.
  - intros a c Ha Hc. apply Hnc; apply elem_of_app; by left.
  - by intros ->; destruct l1.
  - assert (exists a, last l1 = Some a) as [a Ha]
      by (destruct (last l1) eqn:E; [eauto|by apply last_None in E]).
    assert (exists c, last l2 = Some c) as [c Hc].
    { destruct (last l2) eqn:E; [eauto|]. apply last_None in E as ->. by destruct l1. }
    rewrite Ha, Hc in *. cbn in *. congruence.
Qed.

Lemma analyze_ok events doc : analyze_trajectory events = Ok doc <->
  trajectory_valid 1 ZERO_SHA256 (-1) events
  /\ doc = EscalationDecision_as_document (analysis events).
Proof.
  unfold analyze_trajectory, _verify_chain. rewrite bind_ok. split.
  - intros ([] & H & [= <-]). apply verify_from_spec in H. done.
  - intros [H ->]. exists tt. by apply verify_from_spec in H.
Qed.

Lemma analysis_fields l :
  ed_decision (analysis l) = _decision_for (risk_score l) /\ ed_risk_score (analysis l) = risk_score l
  /\ ed_matched_rules (analysis l)
     = map rule_id (List.filter (rule_matches (List.filter is_allowed l)) (sorted_on rule_id RULES)).
Proof. unfold analysis. rewrite match_rules_spec. done. Qed.

Lemma matched_mono l more r : r ∈ ed_matched_rules (analysis l) ->
  r ∈ ed_matched_rules (analysis (l ++ more)).
Proof.
  destruct (analysis_fields l) as (_ & _ & ->). destruct (analysis_fields (l ++ more)) as (_ & _ & ->).
  intros Hr. pose proof Hr as Hr'. apply list_elem_of_fmap in Hr' as (r0 & -> & Hin).
  apply list_elem_of_In, filter_In in Hin as [Hin _]. apply list_elem_of_In, elem_of_sorted_on in Hin.
  rewrite matched_spec in * by done. etrans; [exact Hr|].
  rewrite List.filter_app, map_app. by apply sublist_inserts_r.
Qed.

Lemma total_weight_perm l l' : l ≡ₚ l' -> total_weight l = total_weight l'.
Proof.
  assert (forall r l, total_weight (r :: l) = weight r + total_weight l) as Hc by done.
  induction 1; rewrite ?Hc; lia.
Qed.

Lemma filter_perm {A} (p : A -> bool) l l' : l ≡ₚ l' -> List.filter p l ≡ₚ List.filter p l'.
Proof.
  induction 1 as [|x l l' _ IH|x y l|? ? ? _ IH1 _ IH2]; cbn; [done| | |by etrans].
  - destruct (p x); [by constructor|done].
  - destruct (p x), (p y); try done. constructor.
Qed.

Lemma analysis_decision_lemma events doc : analyze_trajectory events = Ok doc ->
  exists risk matched decision,
    dict_get doc "risk_score" = Some (JInt risk) /\ dict_get doc "matched_rules" = Some (jstrs matched)
    /\ dict_get doc "decision" = Some (JStr decision)
    /\ 0 <= risk <= 100
    /\ (decision = "CONTAIN" <-> 80 <= risk) /\ (decision = "BLOCK" <-> 50 <= risk < 80)
    /\ (decision = "REVISE" <-> 20 <= risk < 50) /\ (decision = "ALLOW" <-> risk < 20)
    /\ (forall r, r ∈ RULES -> rule_id r ∈ matched
        <-> requires r `sublist_of` map te_kind (List.filter is_allowed events))
    /\ Z.min 100 (total_weight (List.filter (fun r => mem (rule_id r) matched) RULES)) <= risk.
Proof.
  intros [_ ->]%analyze_ok. destruct (analysis_fields events) as (Hd & Hr & Hm).
  exists (risk_score events), (ed_matched_rules (analysis events)), (_decision_for (risk_score events)).
  rewrite <- Hd at 1. rewrite <- Hr at 1.
  destruct (decision_for_spec (risk_score events)) as (? & ? & ? & ?).
  split_and!; try done; try apply risk_bounds.
  - intros r Hin. rewrite Hm. by apply matched_spec.
  - etrans; [|apply risk_at_least]. rewrite match_rules_spec. cbn [snd].
    rewrite (total_weight_perm (List.filter (rule_matches (List.filter is_allowed events)) (sorted_on rule_id RULES)) (List.filter (rule_matches (List.filter is_allowed events)) RULES))
      by (apply filter_perm, sorted_on_perm).
    enough (List.filter (fun r => mem (rule_id r) (ed_matched_rules (analysis events))) RULES
            = List.filter (rule_matches (List.filter is_allowed events)) RULES) as -> by done.
    apply List.filter_ext_in. intros r Hin. apply list_elem_of_In in Hin.
    apply eq_true_iff_eq. by rewrite mem_true, Hm, matched_spec, rule_matches_spec.
Qed.
End trajectories.

(** ** Example values *)
Definition example_event (previous : option TrajectoryEvent) (i : Z) (kind : string) : TrajectoryEvent :=
  let e := {|
    te_event_id := "event:" +:+ pretty i; te_sequence := i; te_observed_at_unix := 100 + i;
    te_kind := kind; te_decision := "ALLOW"; te_subject_id := "agent:1";
    te_capability_id := None; te_privilege_level_before := 0; te_privilege_level_after := 0;
    te_metadata_sha256 := ZERO_SHA256;
    te_previous_event_sha256 := from_option te_event_sha256 ZERO_SHA256 previous;
    te_event_sha256 := "" |} in
  set_event_sha e (@canonical_sha256 checksum_digest (JObj (TrajectoryEvent_body e))).

Definition example_trajectory : list TrajectoryEvent :=
  let e1 := example_event None 1 "package.install" in
  let e2 := example_event (Some e1) 2 "network.connect_domain" in
  let e3 := example_event (Some e2) 3 "credential.access" in
  let e4 := example_event (Some e3) 4 "process.spawn_child" in
  [e1; e2; e3; e4].

(** ** Properties *)

(** C36: a trajectory is accepted exactly when it is numbered from 1, linked by its
    digests from the zero digest, ordered in time and every event carries the digest
    of its own body; and of two accepted non-empty trajectories whose last events
    have the same digest every event is the same, unless the digest function collides
    on two of their event bodies: the head digest binds the whole history. *)
Theorem verify_chain_binds_history `{hash : Digest} (l1 l2 : list TrajectoryEvent)
    (H1 : _verify_chain l1 = Ok tt) (H2 : _verify_chain l2 = Ok tt) :
  (forall l, _verify_chain l = Ok tt <-> trajectory_valid 1 ZERO_SHA256 (-1) l)
  /\ ((forall e1 e2, e1 ∈ l1 -> e2 ∈ l2 ->
        no_collision (JObj (TrajectoryEvent_body e1)) (JObj (TrajectoryEvent_body e2))) ->
      l1 <> [] -> l2 <> [] ->
      te_event_sha256 <$> last l1 = te_event_sha256 <$> last l2 -> l1 = l2).
Proof.
  split; [intros l; apply verify_from_spec|].
  apply (chain_binds_history 1 ZERO_SHA256 (-1)); by apply verify_from_spec.
Qed.

Lemma verify_chain_binds_history_witness :
  @_verify_chain checksum_digest example_trajectory = Ok tt
  /\ ((forall l, @_verify_chain checksum_digest l = Ok tt
         <-> @trajectory_valid checksum_digest 1 ZERO_SHA256 (-1) l)
  /\ ((forall e1 e2, e1 ∈ example_trajectory -> e2 ∈ example_trajectory ->
        @no_collision checksum_digest (JObj (TrajectoryEvent_body e1))
          (JObj (TrajectoryEvent_body e2))) ->
      example_trajectory <> [] -> example_trajectory <> [] ->
      te_event_sha256 <$> last example_trajectory = te_event_sha256 <$> last example_trajectory ->
      example_trajectory = example_trajectory)).
Proof.
  split; [vm_compute; reflexivity|].
  apply (@verify_chain_binds_history checksum_digest); vm_compute; reflexivity.
Defined.

(** The analysis of an accepted trajectory reports a risk between 0 and 100, the
    decision CONTAIN from 80, BLOCK from 50, REVISE from 20 and ALLOW below, and the
    matched rules are exactly those whose kinds occur in order among the allowed
    events, each of which counts with its weight. *)
Theorem analysis_decision_spec `{hash : Digest} (events : list TrajectoryEvent) (doc : dict)
    (Hdoc : analyze_trajectory events = Ok doc) :
  exists risk matched decision,
    dict_get doc "risk_score" = Some (JInt risk) /\ dict_get doc "matched_rules" = Some (jstrs matched)
    /\ dict_get doc "decision" = Some (JStr decision)
    /\ 0 <= risk <= 100
    /\ (decision = "CONTAIN" <-> 80 <= risk) /\ (decision = "BLOCK" <-> 50 <= risk < 80)
    /\ (decision = "REVISE" <-> 20 <= risk < 50) /\ (decision = "ALLOW" <-> risk < 20)
    /\ (forall r, r ∈ RULES -> rule_id r ∈ matched
        <-> requires r `sublist_of` map te_kind (List.filter is_allowed events))
    /\ Z.min 100 (total_weight (List.filter (fun r => mem (rule_id r) matched) RULES)) <= risk.
Proof. by apply analysis_decision_lemma. Qed.

Lemma analysis_decision_spec_witness :
  exists doc, @analyze_trajectory checksum_digest example_trajectory = Ok doc
  /\ exists risk matched decision,
    dict_get doc "risk_score" = Some (JInt risk) /\ dict_get doc "matched_rules" = Some (jstrs matched)
    /\ dict_get doc "decision" = Some (JStr decision)
    /\ 0 <= risk <= 100
    /\ (decision = "CONTAIN" <-> 80 <= risk) /\ (decision = "BLOCK" <-> 50 <= risk < 80)
    /\ (decision = "REVISE" <-> 20 <= risk < 50) /\ (decision = "ALLOW" <-> risk < 20)
    /\ (forall r, r ∈ RULES -> rule_id r ∈ matched
        <-> requires r `sublist_of` map te_kind (List.filter is_allowed example_trajectory))
    /\ Z.min 100 (total_weight (List.filter (fun r => mem (rule_id r) matched) RULES)) <= risk.
Proof.
  eexists. split; [vm_compute; reflexivity|].
  apply (@analysis_decision_spec checksum_digest). vm_compute. reflexivity.
Defined.

(** An accepted trajectory whose allowed events install a package, open an egress
    connection, read a credential and spawn a child, in that order and with anything
    in between, is always answered CONTAIN; and extending a trajectory never forgets a
    matched rule, nor lowers the risk unless the privilege level falls. *)
Theorem attack_chain_contained `{hash : Digest} (events more : list TrajectoryEvent) (doc : dict)
    (Hdoc : analyze_trajectory events = Ok doc) :
  (attack_chain `sublist_of` map te_kind (List.filter is_allowed events) ->
   dict_get doc "decision" = Some (JStr "CONTAIN"))
  /\ (privilege_delta events <= privilege_delta (events ++ more) ->
      risk_score events <= risk_score (events ++ more))
  /\ (forall r, r ∈ ed_matched_rules (analysis events) ->
      r ∈ ed_matched_rules (analysis (events ++ more))).
Proof.
  apply analyze_ok in Hdoc as [_ ->]. destruct (analysis_fields events) as (Hd & _ & Hm).
  split_and!.
  - intros Hs. cbn. rewrite Hd, (attack_chain_risk events Hs). done.
  - apply risk_mono.
  - apply matched_mono.
Qed.

Lemma attack_chain_contained_witness :
  exists doc, @analyze_trajectory checksum_digest example_trajectory = Ok doc
  /\ (attack_chain `sublist_of` map te_kind (List.filter is_allowed example_trajectory) ->
      dict_get doc "decision" = Some (JStr "CONTAIN"))
  /\ (privilege_delta example_trajectory <= privilege_delta (example_trajectory ++ []) ->
      risk_score example_trajectory <= risk_score (example_trajectory ++ []))
  /\ (forall r, r ∈ ed_matched_rules (@analysis checksum_digest example_trajectory) ->
      r ∈ ed_matched_rules (@analysis checksum_digest (example_trajectory ++ []))).
Proof.
  eexists. split; [vm_compute; reflexivity|].
  apply (@attack_chain_contained checksum_digest example_trajectory []). vm_compute. reflexivity.
Defined.
