(* ===== verification/BrokerInterface.v ===== *)
(** * The broker interface

    What the clients of a capability broker call ([BrokerOps]) and what they may
    rely on ([BrokerLaws]): the runtime mediator, the runtime configuration broker
    and the containment coordinator hold a broker of either kind. Both brokers
    implement the interface. *)
From stdpp Require Import gmap.
From S2P Require Import Prelude PyStr Json Digest Contracts CapabilityBroker EpochBroker.
#[local] Open Scope Z_scope.

Class BrokerOps (B : Type) := {
  op_authorize : string -> string -> string -> dict -> dict -> Z ->
    option string -> option string -> M B dict;
  op_revoke : string -> Z -> M B dict;
  op_state_document : B -> result dict
}.

(** The dictionaries in [state_document().get("capabilities", [])]. *)
Definition capability_items (doc : dict) : result (list dict) :=
  match dict_get_or doc "capabilities" (JList []) with
  | JList l => map_r (fun v => match v with
                               | JObj d => Ok d
                               | _ => fail AttributeError "get"
                               end) l
  | _ => fail TypeError "capabilities"
  end.

(** The item lists capability [id] with status [status]. *)
Definition lists (id status : string) (item : dict) : Prop :=
  dict_get item "capability_id" = Some (JStr id) /\ dict_get item "status" = Some (JStr status).

(** The shape of a decision document. *)
Record decision_doc (doc : dict) : Prop := {
  dd_decision : exists d, dict_get doc "decision" = Some (JStr d);
  dd_receipt : exists s, dict_get doc "receipt_sha256" = Some (JStr s) /\ re_sha s = true;
  dd_reasons : exists l, dict_get doc "reason_codes" = Some (jstrs l);
  dd_capability : exists o, dict_get doc "capability_id" = Some (jopt o)
}.

(** Use decisions and revocations keep a broker valid and never make a capability
    active; a revocation that returns leaves its capability inactive; the state document
    lists every active capability. *)
Class BrokerLaws (B : Type) `{BrokerOps B} := {
  broker_valid : B -> Prop;
  capability_active : B -> string -> Prop;
  no_new_authority (b b' : B) : Prop :=
    broker_valid b -> broker_valid b' /\ forall id, capability_active b' id -> capability_active b id;
  law_authorize subj ct pol scope act at_unix rid rsha :
    evolves no_new_authority (op_authorize subj ct pol scope act at_unix rid rsha);
  law_decision subj ct pol scope act at_unix rid rsha b doc b' :
    op_authorize subj ct pol scope act at_unix rid rsha b = (Ok doc, b') -> decision_doc doc;
  law_revoke id at_unix : evolves no_new_authority (op_revoke id at_unix);
  law_revoke_inactive id at_unix b doc b' :
    broker_valid b -> op_revoke id at_unix b = (Ok doc, b') -> ~ capability_active b' id;
  law_document b doc : broker_valid b -> op_state_document b = Ok doc ->
    exists items, capability_items doc = Ok items
      /\ Forall (fun item => exists id status, lists id status item) items
      /\ forall id, capability_active b id -> Exists (lists id "active") items
}.

#[export] Instance no_new_authority_preorder B `{BrokerLaws B} : PreOrder no_new_authority.
Proof.
  split; [by intros b|]. intros b1 b2 b3 H1 H2 Hb. destruct (H1 Hb) as [Hb2 Ha1].
  destruct (H2 Hb2) as [Hb3 Ha2]. split; [done|]. auto.
Qed.

(** ** The capability broker *)
Section capability_broker.
Context {hash : Digest}.

#[export] Instance capability_broker_ops : BrokerOps CapabilityBroker := {
  op_authorize := CapabilityBroker.authorize;
  op_revoke := CapabilityBroker.revoke;
  op_state_document b := Ok (CapabilityBroker.state_document b)
}.

Definition stored_active (b : CapabilityBroker) (id : string) : Prop :=
  exists s, cb_states b !! id = Some s /\ cs_status s = Active.

(** No capability that was not active becomes active, and none is added. *)
Definition none_activated (b b' : CapabilityBroker) : Prop :=
  broker_inv b -> broker_inv b' /\ forall id, stored_active b' id -> stored_active b id.

#[export] Instance none_activated_preorder : PreOrder none_activated.
Proof.
  split; [by intros b|]. intros b1 b2 b3 H1 H2 Hb. destruct (H1 Hb) as [Hb2 Ha1].
  destruct (H2 Hb2) as [Hb3 Ha2]. split; [done|]. auto.
Qed.

Lemma emitted_none e r b : broker_ok b (emitted e r b) -> none_activated b (emitted e r b).
Proof. intros H Hb. split; [by apply H|]. done. Qed.

Lemma put_none b id s s' : cb_states b !! id = Some s ->
  (cs_status s' = Active -> cs_status s = Active) -> cs_contract s' = cs_contract s ->
  broker_inv b -> forall id', stored_active (put_state s' b) id' -> stored_active b id'.
Proof.
  intros Hs Ha Hc Hb id' (s1 & Hs1 & Ha1). cbn in Hs1.
  destruct (inv_lookup b id s Hb Hs) as [Hid _]. rewrite Hc, Hid in Hs1.
  destruct (decide (id = id')) as [<-|Hne].
  - rewrite lookup_insert_eq in Hs1. injection Hs1 as <-. exists s. auto.
  - rewrite lookup_insert_ne in Hs1 by done. by exists s1.
Qed.

Lemma lifecycle_active s t dec rs at_unix b id :
  stored_active (snd (_lifecycle s t dec rs at_unix b)) id <-> stored_active b id.
Proof.
  by destruct (lifecycle_cases s t dec rs at_unix b) as [[x ->]|(e & r & _ & ->)].
Qed.

Lemma revoke_none id at_unix : evolves none_activated (CapabilityBroker.revoke id at_unix).
Proof.
  intros b Hb. split; [by apply (revoke_ok id at_unix b)|]. intros id'.
  destruct (revoke_cases id at_unix b) as [[x ->]|(s & Hs & [[_ ->]|[Ha ->]])]; [done| |];
    rewrite lifecycle_active; [done|]. by eapply put_none.
Qed.

Lemma authorize_none subj ct pol rs act at_unix rid rsha :
  evolves none_activated (CapabilityBroker.authorize subj ct pol rs act at_unix rid rsha).
Proof.
  intros b Hb. split; [by apply (authorize_ok subj ct pol rs act at_unix rid rsha b)|]. intros id'.
  destruct (authorize_cases subj ct pol rs act at_unix rid rsha b) as [[x ->]|(scope & _ & ->)]; [done|].
  destruct (use_first_cases (candidates b subj ct) [] subj ct pol (canonical_sha256 (JObj act))
    scope at_unix rid rsha b) as [(x & -> & _)|[(l1 & s & l2 & Hl & _ & Hs & ->)|(rs' & _ & _ & ->)]].
  - done.
  - assert (s ∈ candidates b subj ct) as Hin by (rewrite Hl; apply elem_of_app; right; by left).
    apply elem_of_candidates in Hin as [[id Hid] _].
    destruct (commit_use_cases s subj ct pol (canonical_sha256 (JObj act)) scope at_unix rid rsha b)
      as [[x ->]|(e & _ & ->)]; intros H; by eapply (put_none b id s (use_state s)).
  - by destruct (deny_use_cases rs' subj ct pol (canonical_sha256 (JObj act)) scope at_unix rid rsha b)
      as [[x ->]|(e & rs2 & _ & ->)].
Qed.

Lemma revoke_inactive id at_unix b doc b' :
  broker_inv b -> CapabilityBroker.revoke id at_unix b = (Ok doc, b') -> ~ stored_active b' id.
Proof.
  intros Hb H (s' & Hs' & Ha').
  destruct (revoke_cases id at_unix b) as [[x E]|(s & Hs & [[Hna E]|[Ha E]])]; rewrite E in H; [done| |].
  - destruct (lifecycle_cases s "revoke" "BLOCK" ["already_" +:+ status_str (cs_status s)] at_unix b)
      as [[x E2]|(e & r & He & E2)]; rewrite E2 in H; [done|]. injection H as _ <-.
    cbn in Hs'. rewrite Hs in Hs'. by injection Hs' as <-.
  - assert (snd (_lifecycle (revoke_state s at_unix) "revoke" "ALLOW" ["explicit_revoke"] at_unix
              (put_state (revoke_state s at_unix) b)) = b') as Hsnd by (by rewrite H).
    assert (stored_active (put_state (revoke_state s at_unix) b) id) as (s1 & Hs1 & Ha1).
    { rewrite <- lifecycle_active. rewrite Hsnd. by exists s'. }
    cbn in Hs1. destruct (inv_lookup b id s Hb Hs) as [Hid _].
    rewrite Hid, lookup_insert_eq in Hs1. by injection Hs1 as <-.
Qed.

Definition items_of (b : CapabilityBroker) : list dict :=
  map (fun p => capability_entry (fst p) (snd p)) (sorted_on fst (map_to_list (cb_states b))).

Lemma document_items b : capability_items (CapabilityBroker.state_document b) = Ok (items_of b).
Proof.
  unfold capability_items, CapabilityBroker.state_document.
  match goal with |- context [dict_get_or (seal _ (?a :: ?b :: ?c :: ?d' :: ?e :: (?k, ?l) :: _)) _ _] =>
    change (dict_get_or (seal _ _) "capabilities" (JList [])) with l end.
  apply map_r_map. by intros [id s] _.
Qed.

Lemma items_listed b : Forall (fun item => exists id status, lists id status item) (items_of b).
Proof. apply Forall_map, Forall_true. intros [id s]. by exists id, (status_str (cs_status s)). Qed.

Lemma items_active b id : stored_active b id -> Exists (lists id "active") (items_of b).
Proof.
  intros (s & Hs & Ha). apply list.Exists_exists. exists (capability_entry id s). split.
  - apply list_elem_of_fmap. exists (id, s). split; [done|].
    by rewrite elem_of_sorted_on, elem_of_map_to_list.
  - unfold lists. cbn. by rewrite Ha.
Qed.

Lemma receipt_decision_doc r : re_sha (dr_receipt_sha256 r) = true ->
  decision_doc (CapabilityDecisionReceipt_as_document r).
Proof. intros H. constructor; eexists; try split; (reflexivity || exact H). Qed.

Lemma authorize_decision subj ct pol rs act at_unix rid rsha b doc b' :
  CapabilityBroker.authorize subj ct pol rs act at_unix rid rsha b = (Ok doc, b') -> decision_doc doc.
Proof.
  intros H.
  destruct (authorize_cases subj ct pol rs act at_unix rid rsha b) as [[x E]|(scope & _ & E)];
    rewrite E in H; [done|].
  destruct (use_first_cases (candidates b subj ct) [] subj ct pol (canonical_sha256 (JObj act))
    scope at_unix rid rsha b) as [(x & E2 & _)|[(l1 & s & l2 & _ & _ & _ & E2)|(rs' & _ & _ & E2)]];
    rewrite E2 in H; [done| |].
  - destruct (commit_use_cases s subj ct pol (canonical_sha256 (JObj act)) scope at_unix rid rsha b)
      as [[x E3]|(e & _ & E3)]; rewrite E3 in H; [done|]. injection H as <- _.
    apply receipt_decision_doc, canonical_sha256_sha.
  - destruct (deny_use_cases rs' subj ct pol (canonical_sha256 (JObj act)) scope at_unix rid rsha b)
      as [[x E3]|(e & rs2 & _ & E3)]; rewrite E3 in H; [done|]. injection H as <- _.
    apply receipt_decision_doc, canonical_sha256_sha.
Qed.

#[local] Obligation Tactic := idtac.

#[export] Program Instance capability_broker_laws : BrokerLaws CapabilityBroker := {
  broker_valid := broker_inv;
  capability_active := stored_active
}.
Next Obligation. apply authorize_none. Qed.
Next Obligation. apply authorize_decision. Qed.
Next Obligation. apply revoke_none. Qed.
Next Obligation. intros id at_unix b doc b'. apply revoke_inactive. Qed.
Next Obligation.
  intros b doc Hb [= <-]. exists (items_of b). split; [apply document_items|].
  split; [apply items_listed|]. apply items_active.
Qed.

(** ** The epoch-bound broker, with the provider's answer to the calls made *)
Record EpochHost := { eh_broker : EpochBoundCapabilityBroker; eh_runtime : result dict }.

Definition set_eh_broker (b : EpochBoundCapabilityBroker) (h : EpochHost) : EpochHost :=
  {| eh_broker := b; eh_runtime := eh_runtime h |}.

#[export] Instance epoch_broker_ops : BrokerOps EpochHost := {
  op_authorize subj ct pol scope act at_unix rid rsha := fun h =>
    zoom eh_broker set_eh_broker
      (EpochBroker.authorize (eh_runtime h) subj ct pol scope act at_unix rid rsha) h;
  op_revoke id at_unix := zoom eh_broker set_eh_broker (EpochBroker.revoke id at_unix);
  op_state_document h := EpochBroker.state_document (eh_runtime h) (eh_broker h)
}.

Lemma zoom_rel {A} (m : M EpochBoundCapabilityBroker A) h :
  evolves (delegate_rel none_activated) m ->
  epoch_inv (eh_broker h) ->
  epoch_inv (eh_broker (snd (zoom eh_broker set_eh_broker m h)))
  /\ forall id, stored_active (eb_delegate (eh_broker (snd (zoom eh_broker set_eh_broker m h)))) id ->
     stored_active (eb_delegate (eh_broker h)) id.
Proof.
  intros Hm Hb. unfold zoom. destruct (Hm (eh_broker h)) as [Hok Hr].
  destruct (m (eh_broker h)) as [r b']. cbn in *. split; [by apply Hok|].
  apply Hr, Hb.
Qed.

Lemma bound_entry_lists self item id status :
  lists id status item -> exists item', bound_entry self (JObj item) = Ok (JObj item')
    /\ lists id status item'.
Proof.
  intros [Hi Hs]. unfold bound_entry. cbn [py_dict]. rewrite bind_Ok.
  rewrite (proj2 (dict_item_ok item "capability_id" (JStr id)) Hi), bind_Ok. cbv zeta.
  eexists. split; [reflexivity|]. split; by rewrite !dict_get_set_ne.
Qed.

(** [m] ends, if it returns, with a decision document. *)
Definition decides (m : M EpochBoundCapabilityBroker dict) : Prop := returns decision_doc m.

Lemma receipt_decides cid subj ct bsha basha e st sn dsha dec rs at_unix :
  decides (EpochBroker._receipt cid subj ct bsha basha e st sn dsha dec rs at_unix).
Proof.
  unfold EpochBroker._receipt. do 8 (apply returns_bind; intros ?). cbv zeta.
  apply returns_bind. intros _ b doc b' [= <- _]. constructor; eexists; try split; try reflexivity.
  apply canonical_sha256_sha.
Qed.

Lemma finish_decides bound sn dsha dec rs at_unix cid :
  decides (EpochBroker._finish bound sn dsha dec rs at_unix cid).
Proof. apply returns_bind. intros base. apply receipt_decides. Qed.

Lemma finish_generic_decides rep subj ct pol sn dsha dec rs at_unix :
  decides (_finish_generic rep subj ct pol sn dsha dec rs at_unix).
Proof.
  apply returns_bind. intros _. cbv zeta. destruct rep; [apply returns_bind; intros ?|];
    apply receipt_decides.
Qed.

Lemma authorize_decides_doc rt subj ct pol rs act at_unix rid rsha :
  decides (EpochBroker.authorize rt subj ct pol rs act at_unix rid rsha).
Proof.
  unfold EpochBroker.authorize. do 5 (apply returns_bind; intros ?). cbv zeta.
  destruct (sn_tainted _); [apply finish_generic_decides|].
  do 2 (apply returns_bind; intros ?). destruct (is_str _ _).
  - unfold authorize_allowed. apply returns_bind. intros ?.
    destruct (dict_get_none _ _); try apply finish_generic_decides.
    destruct (eb_bindings _ !! _).
    + destruct (negb _); apply returns_bind; intros ?; apply finish_decides.
    + apply returns_bind. intros ?. apply finish_generic_decides.
  - apply returns_bind. intros ?. apply finish_generic_decides.
Qed.

#[export] Program Instance epoch_broker_laws : BrokerLaws EpochHost := {
  broker_valid h := epoch_inv (eh_broker h);
  capability_active h := stored_active (eb_delegate (eh_broker h))
}.
Next Obligation.
  intros subj ct pol scope act at_unix rid rsha h Hb. apply zoom_rel; [|done].
  apply authorize_rel; [apply none_activated_preorder|apply revoke_none|apply authorize_none].
Qed.
Next Obligation.
  intros subj ct pol scope act at_unix rid rsha h doc h' H. cbn in H. unfold zoom in H.
  destruct (EpochBroker.authorize _ _ _ _ _ _ _ _ _ _) as [r b'] eqn:E. injection H as -> _.
  by apply authorize_decides_doc in E.
Qed.
Next Obligation.
  intros id at_unix h Hb. apply zoom_rel; [|done].
  apply revoke_rel, revoke_none.
Qed.
Next Obligation.
  intros id at_unix h doc h' Hb H. cbn in H. unfold zoom, EpochBroker.revoke, on_delegate, zoom in H.
  destruct (CapabilityBroker.revoke id at_unix (eb_delegate (eh_broker h))) as [r d'] eqn:E.
  injection H as -> <-. cbn. eapply revoke_inactive; [apply (ei_delegate _ Hb)|exact E].
Qed.
Next Obligation.
  intros h doc Hb H. cbn in H. unfold EpochBroker.state_document in H.
  apply bind_ok in H as (sn & _ & H). apply bind_ok in H as (items & Hit & H).
  apply bind_ok in H as (caps & Hcaps & H). injection H as <-.
  assert (items = map JObj (items_of (eb_delegate (eh_broker h)))) as ->.
  { pose proof (document_items (eb_delegate (eh_broker h))) as Hdi. unfold capability_items in Hdi.
    destruct (dict_get_or _ _ _); try done. injection Hit as ->.
    clear -Hdi. apply map_r_ok in Hdi. induction Hdi as [|v d l l' Hv _ IH]; [done|].
    cbn. rewrite <- IH. destruct v; try done. by injection Hv as ->. }
  assert (exists items', caps = map JObj items' /\ Forall2 (fun a c => forall id st, lists id st a -> lists id st c)
            (items_of (eb_delegate (eh_broker h))) items') as (items' & -> & Hf).
  { pose proof (items_listed (eb_delegate (eh_broker h))) as Hl. clear Hit.
    apply map_r_ok in Hcaps. revert Hl caps Hcaps. generalize (items_of (eb_delegate (eh_broker h))).
    induction 1 as [|a l (id & st & Ha) _ IH]; intros caps Hc; inversion Hc as [|? ? ? ? E Hc']; subst.
    - exists []. by split.
    - destruct (IH _ Hc') as (items' & -> & Hf).
      destruct (bound_entry_lists (eh_broker h) a id st Ha) as (c & E2 & Hcl). rewrite E in E2.
      injection E2 as ->. exists (c :: items'). split; [done|]. constructor; [|done].
      intros id' st' [Hi' Hs']. destruct Ha as [Hi Hs]. rewrite Hi in Hi'. rewrite Hs in Hs'.
      injection Hi' as <-. injection Hs' as <-. done. }
  exists items'. split_and!.
  - unfold capability_items. match goal with |- context [dict_get_or (seal _ ?l) "capabilities" _] =>
      change (dict_get_or (seal _ l) "capabilities" (JList [])) with (JList (map JObj items')) end.
    rewrite <- (map_id items') at 2. apply map_r_map. done.
  - pose proof (items_listed (eb_delegate (eh_broker h))) as Hl. clear -Hl Hf.
    induction Hf as [|a c l l' Hac _ IH]; inversion Hl as [|? ? (id & st & Ha) Hl']; subst; constructor; eauto.
  - intros id Ha%items_active. clear -Ha Hf. induction Hf as [|a c l l' Hac _ IH]; [by inversion Ha|].
    inversion Ha; subst; [left; auto|right; auto].
Qed.
End capability_broker.
