(* ===== verification/Mediation.v ===== *)
(** * Runtime mediation (sdk/liminal_runtime_mediation/__init__.py)

    The mediator admits an operation through the capability broker, dispatches the
    host's executor and records a receipt and a trajectory event. The executor and
    the egress gateway's transport are host code: they run on the whole host state
    [S], of which the mediator is a component ([Lens]), so they may call back. *)
From S2P Require Import Prelude PyStr Json Digest Contracts Escalation BrokerInterface.
#[local] Open Scope Z_scope.

(** ** Constants *)
Definition SCHEMA : string := "liminal-runtime-mediation-receipt-v0.1".

Definition OPERATION_TO_CAPABILITY : list (string * string) :=
  [("process.execute", "process.execute"); ("process.spawn_child", "process.spawn_child");
   ("package.install", "package.install");
   ("filesystem.write_outside_workspace", "filesystem.write_outside_workspace");
   ("credential.access", "credential.access"); ("runtime.configure", "runtime.configure")].

Definition PHASE3_KIND : list (string * string) :=
  map (fun p => (fst p, fst p))
    (List.filter (fun p => negb (String.eqb (fst p) "filesystem.write_outside_workspace"))
       OPERATION_TO_CAPABILITY)
  ++ [("filesystem.write_outside_workspace", "repository.write")].

(** [table[key]]. *)
Definition table_item (table : list (string * string)) (key : string) : result string :=
  match List.find (fun p => String.eqb (fst p) key) table with
  | Some p => Ok (snd p)
  | None => fail KeyError key
  end.

Definition AUTHORITY : dict :=
  [("mode", JStr "host_integrated_runtime_mediation"); ("capability_admission", JBool true);
   ("host_callback_dispatch", JBool true); ("network_via_egress_gateway", JBool true);
   ("direct_subprocess_execution", JBool false); ("direct_socket_creation", JBool false);
   ("direct_filesystem_mutation", JBool false); ("direct_package_installation", JBool false);
   ("credential_material_export", JBool false); ("os_kernel_enforcement", JBool false);
   ("seccomp_ebpf_apparmor_enforcement", JBool false); ("deployment", JBool false);
   ("automatic_release", JBool false)].

Definition _sha (value : string) (name : string) : result string :=
  check_sha_str MediationError (name +:+ " must be a lowercase SHA-256 digest") value.

(** ** Operations and observations *)
Record RuntimeOperation := {
  ro_operation_id : string;
  ro_subject_id : string;
  ro_policy_sha256 : string;
  ro_kind : string;
  ro_scope : dict;
  ro_payload_sha256 : string;
  ro_at_unix : Z;
  ro_privilege_level_before : Z;
  ro_privilege_level_after : Z
}.

Definition normalized_scope (self : RuntimeOperation) : result dict :=
  match List.find (fun p => String.eqb (fst p) (ro_kind self)) OPERATION_TO_CAPABILITY with
  | None => fail MediationError "unsupported runtime operation kind"
  | Some p =>
      match validate_scope (snd p) (JObj (ro_scope self)) with
      | Err (Exn ContractError m) => fail MediationError m
      | r => r
      end
  end.

Definition RuntimeOperation_validate (self : RuntimeOperation) : result unit :=
  _ ← raise_if (String.eqb (py_strip (ro_operation_id self)) "") MediationError
        "operation_id must be non-empty";
  _ ← raise_if (String.eqb (py_strip (ro_subject_id self)) "") MediationError
        "subject_id must be non-empty";
  _ ← _sha (ro_policy_sha256 self) "policy_sha256";
  _ ← _sha (ro_payload_sha256 self) "payload_sha256";
  _ ← raise_if (ro_at_unix self <? 0) MediationError "at_unix must be non-negative";
  _ ← raise_if (negb ((0 <=? ro_privilege_level_before self)
                      && (ro_privilege_level_before self <=? 10)))
        MediationError "privilege_level_before must be between 0 and 10";
  _ ← raise_if (negb ((0 <=? ro_privilege_level_after self)
                      && (ro_privilege_level_after self <=? 10)))
        MediationError "privilege_level_after must be between 0 and 10";
  _ ← normalized_scope self;
  Ok tt.

Record ExecutionObservation := { eo_outcome : string; eo_result_sha256 : string }.

Definition ExecutionObservation_validate (self : ExecutionObservation) : result unit :=
  _ ← raise_if (negb (String.eqb (eo_outcome self) "SUCCEEDED")) MediationError
        "host observation outcome must be SUCCEEDED";
  _ ← _sha (eo_result_sha256 self) "result_sha256";
  Ok tt.

(** What an executor may return: an observation, or an object of another class. *)
Inductive exec_result :=
  | Observed (o : ExecutionObservation)
  | OtherObject.

(** [isinstance(observation, ExecutionObservation)] and [observation.validate()]. *)
Definition checked_observation (r : exec_result) : result ExecutionObservation :=
  match r with
  | OtherObject => fail MediationError "executor must return ExecutionObservation"
  | Observed o => _ ← ExecutionObservation_validate o; Ok o
  end.

(** ** Receipts *)
Record RuntimeMediationReceipt := {
  mr_operation_id : string;
  mr_subject_id : string;
  mr_runtime_kind : string;
  mr_policy_sha256 : string;
  mr_scope_sha256 : string;
  mr_payload_sha256 : string;
  mr_capability_receipt_sha256 : string;
  mr_admission_decision : string;
  mr_execution_outcome : string;
  mr_result_sha256 : string;
  mr_reason_codes : list string;
  mr_trajectory_event_sha256 : string;
  mr_at_unix : Z;
  mr_receipt_sha256 : string
}.

Definition RuntimeMediationReceipt_body (r : RuntimeMediationReceipt) : dict :=
  [("schema", JStr SCHEMA);
   ("operation_id", JStr (mr_operation_id r));
   ("subject_id", JStr (mr_subject_id r));
   ("runtime_kind", JStr (mr_runtime_kind r));
   ("policy_sha256", JStr (mr_policy_sha256 r));
   ("scope_sha256", JStr (mr_scope_sha256 r));
   ("payload_sha256", JStr (mr_payload_sha256 r));
   ("capability_receipt_sha256", JStr (mr_capability_receipt_sha256 r));
   ("admission_decision", JStr (mr_admission_decision r));
   ("execution_outcome", JStr (mr_execution_outcome r));
   ("result_sha256", JStr (mr_result_sha256 r));
   ("reason_codes", jstrs (mr_reason_codes r));
   ("trajectory_event_sha256", JStr (mr_trajectory_event_sha256 r));
   ("at_unix", JInt (mr_at_unix r));
   ("authority", JObj AUTHORITY)].

Definition RuntimeMediationReceipt_as_document (r : RuntimeMediationReceipt) : dict :=
  dict_set (RuntimeMediationReceipt_body r) "receipt_sha256" (JStr (mr_receipt_sha256 r)).

(** ** The mediator *)
Record RuntimeMediator (B G : Type) := {
  rm_broker : B;
  rm_egress_gateway : option G;
  rm_contained : bool;
  rm_containment_evidence_sha256 : string;
  rm_receipts : list RuntimeMediationReceipt;
  rm_events : list TrajectoryEvent;
  rm_event_head : string
}.
Arguments rm_broker {B G} _.
Arguments rm_egress_gateway {B G} _.
Arguments rm_contained {B G} _.
Arguments rm_containment_evidence_sha256 {B G} _.
Arguments rm_receipts {B G} _.
Arguments rm_events {B G} _.
Arguments rm_event_head {B G} _.

(** The fields of [GatewayRequest] the mediator reads. *)
Record GatewayRequest := {
  gr_call_id : string;
  gr_subject_id : string;
  gr_policy_sha256 : string;
  gr_body_sha256 : string;
  gr_at_unix : Z;
  gr_url : string
}.

(** What the mediator calls of the egress gateway; the transport may call back. *)
Class GatewayOps (G S : Type) := {
  gateway_execute : G -> GatewayRequest -> M S dict
}.

Section mediator_fields.
Context {B G : Type}.
Implicit Types m : RuntimeMediator B G.

Definition RuntimeMediator_init (broker : B) (egress_gateway : option G) : RuntimeMediator B G := {|
  rm_broker := broker; rm_egress_gateway := egress_gateway; rm_contained := false;
  rm_containment_evidence_sha256 := ZERO_SHA256; rm_receipts := []; rm_events := [];
  rm_event_head := ZERO_SHA256 |}.

Definition set_broker (b : B) m : RuntimeMediator B G := {|
  rm_broker := b; rm_egress_gateway := rm_egress_gateway m; rm_contained := rm_contained m;
  rm_containment_evidence_sha256 := rm_containment_evidence_sha256 m;
  rm_receipts := rm_receipts m; rm_events := rm_events m; rm_event_head := rm_event_head m |}.

Definition set_evidence (evidence : string) m : RuntimeMediator B G := {|
  rm_broker := rm_broker m; rm_egress_gateway := rm_egress_gateway m;
  rm_contained := rm_contained m; rm_containment_evidence_sha256 := evidence;
  rm_receipts := rm_receipts m; rm_events := rm_events m; rm_event_head := rm_event_head m |}.

Definition set_contained (b : bool) m : RuntimeMediator B G := {|
  rm_broker := rm_broker m; rm_egress_gateway := rm_egress_gateway m; rm_contained := b;
  rm_containment_evidence_sha256 := rm_containment_evidence_sha256 m;
  rm_receipts := rm_receipts m; rm_events := rm_events m; rm_event_head := rm_event_head m |}.

(** [self._events.append(event); self._event_head = event.event_sha256]. *)
Definition push_event (e : TrajectoryEvent) m : RuntimeMediator B G := {|
  rm_broker := rm_broker m; rm_egress_gateway := rm_egress_gateway m;
  rm_contained := rm_contained m;
  rm_containment_evidence_sha256 := rm_containment_evidence_sha256 m;
  rm_receipts := rm_receipts m; rm_events := rm_events m ++ [e];
  rm_event_head := te_event_sha256 e |}.

Definition push_receipt (r : RuntimeMediationReceipt) m : RuntimeMediator B G := {|
  rm_broker := rm_broker m; rm_egress_gateway := rm_egress_gateway m;
  rm_contained := rm_contained m;
  rm_containment_evidence_sha256 := rm_containment_evidence_sha256 m;
  rm_receipts := rm_receipts m ++ [r]; rm_events := rm_events m;
  rm_event_head := rm_event_head m |}.

(** A call of a method of [self.broker]. *)
Definition on_broker {A} (m : M B A) : M (RuntimeMediator B G) A := zoom rm_broker set_broker m.

Definition enter_containment (incident_receipt_sha256 : string) : M (RuntimeMediator B G) unit :=
  evidence ← lift (_sha incident_receipt_sha256 "incident_receipt_sha256");
  _ ← modify (set_evidence evidence);
  modify (set_contained true).

Definition exit_containment (human_release_receipt_sha256 : string)
    : M (RuntimeMediator B G) unit :=
  evidence ← lift (_sha human_release_receipt_sha256 "human_release_receipt_sha256");
  _ ← modify (set_evidence evidence);
  modify (set_contained false).

Definition receipts m : list dict := map RuntimeMediationReceipt_as_document (rm_receipts m).

Definition trajectory_events m : list TrajectoryEvent := rm_events m.
End mediator_fields.

(** [tuple(d[key])] of strings. *)
Definition codes_item (d : dict) (key : string) : result (list string) :=
  v ← dict_item d key;
  EpochBroker.reason_list v.

(** [d.get(key)] where the value is a string or absent. *)
Definition opt_str (d : dict) (key : string) : result (option string) :=
  match dict_get_none d key with
  | JNull => Ok None
  | JStr s => Ok (Some s)
  | _ => fail TypeError key
  end.

Section mediation.
Context {hash : Digest}.

Definition ExecutionObservation_success (safe_metadata : dict) : ExecutionObservation :=
  {| eo_outcome := "SUCCEEDED"; eo_result_sha256 := canonical_sha256 (JObj safe_metadata) |}.

Definition seal_receipt (r : RuntimeMediationReceipt) : RuntimeMediationReceipt := {|
  mr_operation_id := mr_operation_id r; mr_subject_id := mr_subject_id r;
  mr_runtime_kind := mr_runtime_kind r; mr_policy_sha256 := mr_policy_sha256 r;
  mr_scope_sha256 := mr_scope_sha256 r; mr_payload_sha256 := mr_payload_sha256 r;
  mr_capability_receipt_sha256 := mr_capability_receipt_sha256 r;
  mr_admission_decision := mr_admission_decision r;
  mr_execution_outcome := mr_execution_outcome r; mr_result_sha256 := mr_result_sha256 r;
  mr_reason_codes := mr_reason_codes r;
  mr_trajectory_event_sha256 := mr_trajectory_event_sha256 r; mr_at_unix := mr_at_unix r;
  mr_receipt_sha256 := canonical_sha256 (JObj (RuntimeMediationReceipt_body r)) |}.

Definition _finish {B G} (operation : RuntimeOperation)
    (capability_receipt_sha admission outcome result_sha : string) (reasons : list string)
    (capability_id : option string) (scope_sha : string) (event_kind_override : option string)
    : M (RuntimeMediator B G) dict :=
  event_kind ← lift (match event_kind_override with
                     | Some k => Ok k
                     | None => table_item PHASE3_KIND (ro_kind operation)
                     end);
  let event_decision :=
    if String.eqb admission "ALLOW" && String.eqb outcome "SUCCEEDED" then "ALLOW" else "BLOCK" in
  self ← get_state;
  let n := Z.of_nat (length (rm_events self)) + 1 in
  event ← lift (TrajectoryEvent_build
    ("runtime-event:" +:+ pretty n) n (ro_at_unix operation) event_kind event_decision
    (ro_subject_id operation) capability_id (ro_privilege_level_before operation)
    (if String.eqb event_decision "ALLOW" then ro_privilege_level_after operation
     else ro_privilege_level_before operation)
    [("operation_id", JStr (ro_operation_id operation));
     ("runtime_kind", JStr (default (ro_kind operation) event_kind_override));
     ("payload_sha256", JStr (ro_payload_sha256 operation));
     ("scope_sha256", JStr scope_sha); ("outcome", JStr outcome);
     ("containment_evidence_sha256", JStr (rm_containment_evidence_sha256 self))]
    (rm_event_head self));
  _ ← modify (push_event event);
  let receipt := seal_receipt {|
    mr_operation_id := ro_operation_id operation; mr_subject_id := ro_subject_id operation;
    mr_runtime_kind := default (ro_kind operation) event_kind_override;
    mr_policy_sha256 := ro_policy_sha256 operation; mr_scope_sha256 := scope_sha;
    mr_payload_sha256 := ro_payload_sha256 operation;
    mr_capability_receipt_sha256 := capability_receipt_sha;
    mr_admission_decision := admission; mr_execution_outcome := outcome;
    mr_result_sha256 := result_sha; mr_reason_codes := sorted_set reasons;
    mr_trajectory_event_sha256 := te_event_sha256 event; mr_at_unix := ro_at_unix operation;
    mr_receipt_sha256 := "" |} in
  _ ← modify (push_receipt receipt);
  mret (RuntimeMediationReceipt_as_document receipt).

Definition verify_receipt (document : dict) : result dict :=
  let raw := dict_del document "receipt_sha256" in
  let receipt_sha := dict_get_none document "receipt_sha256" in
  _ ← raise_if (negb (envelope_ok raw SCHEMA AUTHORITY)) MediationError
        "receipt schema or authority boundary mismatch";
  _ ← raise_if (negb (is_str receipt_sha (canonical_sha256 (JObj raw)))) MediationError
        "runtime mediation receipt digest mismatch";
  Ok document.

(** ** Mediated calls *)
Section host.
Context {B G S : Type} {bops : BrokerOps B} {gops : GatewayOps G S}.
Context {L : Lens S (RuntimeMediator B G)}.

Definition action_document (operation : RuntimeOperation) (scope_sha : string) : dict :=
  [("operation_id", JStr (ro_operation_id operation)); ("runtime_kind", JStr (ro_kind operation));
   ("scope_sha256", JStr scope_sha); ("payload_sha256", JStr (ro_payload_sha256 operation))].

(** The broker's decision for the operation. *)
Definition request_capability (operation : RuntimeOperation) (scope : dict) : M S dict :=
  capability_type ← lift (table_item OPERATION_TO_CAPABILITY (ro_kind operation));
  on (on_broker (op_authorize (ro_subject_id operation) capability_type
    (ro_policy_sha256 operation) scope
    (action_document operation (canonical_sha256 (JObj scope)))
    (ro_at_unix operation) None None)).

(** [type(exc).__name__] of a failed dispatch, or the observation. *)
Definition dispatch (operation : RuntimeOperation)
    (executor : RuntimeOperation -> M S exec_result) : M S (string + ExecutionObservation) :=
  try_except
    (r ← executor operation;
     o ← lift (checked_observation r);
     mret (inr o))
    (fun exc => mret (inl (exn_name (exn_cls exc)))).

(** The part of [mediate] after the broker's ALLOW. *)
Definition finish_admitted (operation : RuntimeOperation)
    (executor : RuntimeOperation -> M S exec_result) (capability : dict) (scope_sha : string)
    : M S dict :=
  outcome ← dispatch operation executor;
  sha ← lift (str_item capability "receipt_sha256");
  capability_id ← lift (opt_str capability "capability_id");
  match outcome with
  | inl name =>
      on (_finish operation sha "ALLOW" "FAILED"
            (canonical_sha256 (JObj [("error_type", JStr name)])) ["executor_failed"]
            capability_id scope_sha None)
  | inr observation =>
      on (_finish operation sha "ALLOW" "SUCCEEDED" (eo_result_sha256 observation)
            ["capability_admitted"; "host_executor_succeeded"] capability_id scope_sha None)
  end.

Definition mediate (operation : RuntimeOperation)
    (executor : RuntimeOperation -> M S exec_result) : M S dict :=
  _ ← lift (RuntimeOperation_validate operation);
  scope ← lift (normalized_scope operation);
  let scope_sha := canonical_sha256 (JObj scope) in
  host ← get_state;
  if rm_contained (lget host) then
    on (_finish operation ZERO_SHA256 "BLOCK" "NOT_EXECUTED" ZERO_SHA256
          ["containment_active"] None scope_sha None)
  else
    capability ← request_capability operation scope;
    decision ← lift (dict_item capability "decision");
    if negb (is_str decision "ALLOW") then
      sha ← lift (str_item capability "receipt_sha256");
      codes ← lift (codes_item capability "reason_codes");
      on (_finish operation sha "BLOCK" "NOT_EXECUTED" ZERO_SHA256 codes None scope_sha None)
    else
      finish_admitted operation executor capability scope_sha.

(** The stand-in operation of a network request. *)
Definition network_operation (request : GatewayRequest) (setting : string) : RuntimeOperation := {|
  ro_operation_id := gr_call_id request; ro_subject_id := gr_subject_id request;
  ro_policy_sha256 := gr_policy_sha256 request; ro_kind := "runtime.configure";
  ro_scope := [("setting_keys", jstrs [setting])];
  ro_payload_sha256 := gr_body_sha256 request; ro_at_unix := gr_at_unix request;
  ro_privilege_level_before := 0; ro_privilege_level_after := 0 |}.

Definition network_scope_sha (request : GatewayRequest) : string :=
  canonical_sha256 (JObj [("network_request_sha256", JStr (canonical_sha256 (JObj
    [("call_id", JStr (gr_call_id request));
     ("url_sha256", JStr (canonical_sha256 (JStr (gr_url request))))])))]).

Definition mediate_network (request : GatewayRequest) : M S dict :=
  host ← get_state;
  match rm_egress_gateway (lget host) with
  | None => raise MediationError "network mediation requires EgressGateway"
  | Some gateway =>
      if rm_contained (lget host) then
        on (_finish (network_operation request "egress_blocked_by_containment") ZERO_SHA256
              "BLOCK" "NOT_EXECUTED" ZERO_SHA256 ["containment_active"; "network_blocked"] None
              (network_scope_sha request) (Some "network.connect_domain"))
      else
        outcome ← try_except
          (network ← gateway_execute gateway request; mret (inr network))
          (fun exc => match exn_cls exc with
                      | EgressBlocked => mret (inl (exn_name EgressBlocked))
                      | _ => lift (Err exc)
                      end);
        match outcome with
        | inl name =>
            on (_finish (network_operation request "egress_gateway_block") ZERO_SHA256
                  "BLOCK" "NOT_EXECUTED" (canonical_sha256 (JObj [("error_type", JStr name)]))
                  ["egress_gateway_blocked"] None (network_scope_sha request)
                  (Some "network.connect_domain"))
        | inr network =>
            capability_sha ← lift (str_item network "capability_receipt_sha256");
            network_sha ← lift (str_item network "receipt_sha256");
            on (_finish (network_operation request "egress_gateway_success") capability_sha
                  "ALLOW" "SUCCEEDED" network_sha ["egress_gateway_mediated"] None
                  (canonical_sha256 (JObj [("network_receipt_sha256", JStr network_sha)]))
                  (Some "network.connect_domain"))
        end
  end.
End host.
End mediation.

(** ** Lemmas *)
Lemma mediation_sha_ok v name s : _sha v name = Ok s <-> s = v /\ re_sha v = true.
Proof. apply check_sha_str_ok. Qed.

(** What [RuntimeOperation.validate] accepts. *)
Record operation_wf (o : RuntimeOperation) : Prop := {
  ow_subject : String.eqb (py_strip (ro_subject_id o)) "" = false;
  ow_time : 0 <= ro_at_unix o;
  ow_before : 0 <= ro_privilege_level_before o <= 10;
  ow_after : 0 <= ro_privilege_level_after o <= 10
}.

Lemma operation_validate_ok o u : RuntimeOperation_validate o = Ok u ->
  operation_wf o /\ re_sha (ro_policy_sha256 o) = true /\ re_sha (ro_payload_sha256 o) = true
  /\ exists scope, normalized_scope o = Ok scope.
Proof.
  unfold RuntimeOperation_validate. intros H. py_inv.
  repeat match goal with
  | Hb : negb _ = false |- _ => apply negb_false_iff in Hb
  | Hb : _ && _ = true |- _ => apply andb_true_iff in Hb as [? ?]
  | Hb : (_ <=? _) = true |- _ => apply Z.leb_le in Hb
  | Hb : (_ <? _) = false |- _ => apply Z.ltb_ge in Hb
  | Hb : _sha _ _ = Ok _ |- _ => apply mediation_sha_ok in Hb as [_ ?] end.
  split_and!; try done; eauto.
Qed.

Lemma normalized_scope_kind o scope : normalized_scope o = Ok scope ->
  exists c, table_item OPERATION_TO_CAPABILITY (ro_kind o) = Ok c
    /\ validate_scope c (JObj (ro_scope o)) = Ok scope
    /\ exists k, table_item PHASE3_KIND (ro_kind o) = Ok k /\ mem k EVENT_KINDS = true.
Proof.
  unfold normalized_scope, table_item.
  destruct (List.find _ OPERATION_TO_CAPABILITY) as [[a c]|] eqn:Hf; [|done]. intros H.
  exists c. split_and!; [done| |].
  - destruct (validate_scope _ _) as [s|[[] m]]; done.
  - apply find_some in Hf as [Hin Ha]. apply String.eqb_eq in Ha. cbn in Ha. subst a.
    cbn [In OPERATION_TO_CAPABILITY] in Hin.
    repeat (destruct Hin as [[= <- <-]|Hin]; [eexists; split; reflexivity|]). done.
Qed.

Section mediator_lemmas.
Context {hash : Digest} {B G : Type}.
Implicit Types m : RuntimeMediator B G.

Lemma build_sound eid seq obs kind dec subj cap before after meta prev e :
  TrajectoryEvent_build eid seq obs kind dec subj cap before after meta prev = Ok e ->
  te_sequence e = seq /\ te_observed_at_unix e = obs /\ te_decision e = dec /\ te_subject_id e = subj
  /\ te_previous_event_sha256 e = prev /\ 0 <= obs
  /\ te_event_sha256 e = canonical_sha256 (JObj (TrajectoryEvent_body e)).
Proof.
  unfold TrajectoryEvent_build. intros H. py_inv.
  repeat match goal with Hb : (_ <? _) = false |- _ => apply Z.ltb_ge in Hb end. done.
Qed.

Definition receipt_for (e : TrajectoryEvent) (r : RuntimeMediationReceipt) : Prop :=
  mr_trajectory_event_sha256 r = te_event_sha256 e /\ mr_at_unix r = te_observed_at_unix e
  /\ mr_subject_id r = te_subject_id e
  /\ (te_decision e = "ALLOW"
      <-> mr_admission_decision r = "ALLOW" /\ mr_execution_outcome r = "SUCCEEDED")
  /\ mr_receipt_sha256 r = canonical_sha256 (JObj (RuntimeMediationReceipt_body r)).

Record mediator_inv m : Prop := {
  mi_sequence : forall i e, rm_events m !! i = Some e -> te_sequence e = 1 + Z.of_nat i;
  mi_chain : linked te_previous_event_sha256 te_event_sha256 ZERO_SHA256
               (rm_events m) (rm_event_head m);
  mi_digest : Forall (fun e => te_event_sha256 e
                = canonical_sha256 (JObj (TrajectoryEvent_body e))) (rm_events m);
  mi_time : Forall (fun e => 0 <= te_observed_at_unix e) (rm_events m);
  mi_head : re_sha (rm_event_head m) = true;
  mi_receipts : Forall2 receipt_for (rm_events m) (rm_receipts m)
}.

Definition mediator_ok m m' : Prop := mediator_inv m -> mediator_inv m'.

#[export] Instance mediator_ok_preorder : PreOrder mediator_ok.
Proof. split; [by intros m|]. unfold mediator_ok. intros m1 m2 m3. auto. Qed.

Lemma push_inv m e r :
  mediator_inv m -> te_sequence e = 1 + Z.of_nat (length (rm_events m)) ->
  te_previous_event_sha256 e = rm_event_head m -> 0 <= te_observed_at_unix e ->
  te_event_sha256 e = canonical_sha256 (JObj (TrajectoryEvent_body e)) -> receipt_for e r ->
  mediator_inv (push_receipt r (push_event e m)).
Proof.
  intros [Hs Hc Hd Ht Hh Hr] H1 H2 H3 H4 H5. constructor; cbn.
  - intros i e' He'. apply lookup_app_Some in He' as [He'|[Hi He']]; [by apply Hs|].
    apply list_lookup_singleton_Some in He' as [Hz <-]. rewrite H1. lia.
  - by eapply linked_snoc.
  - apply Forall_app. by split; [|constructor].
  - apply Forall_app. by split; [|constructor].
  - rewrite H4. apply canonical_sha256_sha.
  - apply Forall2_app; [done|]. by constructor.
Qed.

Lemma build_ok eid seq obs kind dec subj cap before after meta prev :
  String.eqb (py_strip eid) "" = false -> 1 <= seq -> 0 <= obs -> mem kind EVENT_KINDS = true ->
  mem dec ["ALLOW"; "BLOCK"; "REVISE"; "CONTAIN"] = true -> String.eqb (py_strip subj) "" = false ->
  0 <= before <= 10 -> 0 <= after <= 10 -> py_len prev = 64 ->
  exists e, TrajectoryEvent_build eid seq obs kind dec subj cap before after meta prev = Ok e.
Proof.
  intros H1 H2 H3 H4 H5 H6 H7 H8 H9. unfold TrajectoryEvent_build.
  rewrite H1, H4, H5, H6, H9.
  rewrite (proj2 (Z.ltb_ge seq 1)), (proj2 (Z.ltb_ge obs 0)) by lia.
  rewrite !(proj2 (Z.leb_le _ _)) by lia. by eexists.
Qed.

(** [_finish] appends one event and its receipt, or raises and changes nothing. *)
Lemma finish_cases op csha adm out rsha rs cid ssha ov m :
  (exists x, _finish op csha adm out rsha rs cid ssha ov m = (Err x, m))
  \/ exists e r, _finish op csha adm out rsha rs cid ssha ov m
       = (Ok (RuntimeMediationReceipt_as_document r), push_receipt r (push_event e m))
     /\ mr_admission_decision r = adm /\ mr_execution_outcome r = out
     /\ (mediator_inv m -> mediator_inv (push_receipt r (push_event e m))).
Proof.
  remember (_finish op csha adm out rsha rs cid ssha ov m) as f eqn:Hf.
  unfold _finish in Hf. M_run Hf.
  destruct (match ov with Some _ => _ | None => _ end) as [kind|x]; [|left; by eexists].
  M_run Hf.
  match type of Hf with context [TrajectoryEvent_build ?a ?b ?c ?d ?e ?f ?g ?h ?i ?j ?k] =>
    destruct (TrajectoryEvent_build a b c d e f g h i j k) as [ev|x] eqn:He end;
    [|left; by eexists].
  M_run Hf. right. eexists ev, _. split; [exact Hf|]. split_and!; [done|done|].
  intros Hm. apply build_sound in He as (Hseq & Hobs & Hdec & Hsubj & Hprev & Hpos & Hdig).
  apply push_inv; try done.
  - rewrite Hseq. lia.
  - by rewrite Hobs.
  - unfold receipt_for. cbn. split_and!; try done. rewrite Hdec.
    destruct (String.eqb_spec adm "ALLOW") as [->|Ha], (String.eqb_spec out "SUCCEEDED") as [->|Ho];
      cbn; split; try done; by intros [? ?].
Qed.

Lemma mediation_finish_ok op csha adm out rsha rs cid ssha ov :
  evolves mediator_ok (_finish (B:=B) (G:=G) op csha adm out rsha rs cid ssha ov).
Proof.
  intros m. destruct (finish_cases op csha adm out rsha rs cid ssha ov m)
    as [[x ->]|(e & r & -> & _ & _ & H)]; [by intros ?|exact H].
Qed.

(** The document of a sealed receipt. *)
Definition mediation_doc (doc : dict) : Prop :=
  exists r, doc = RuntimeMediationReceipt_as_document r /\ re_sha (mr_receipt_sha256 r) = true.

Lemma finish_returns op csha adm out rsha rs cid ssha ov :
  returns mediation_doc (_finish (B:=B) (G:=G) op csha adm out rsha rs cid ssha ov).
Proof.
  unfold _finish. do 4 (apply returns_bind; intros ?). apply returns_bind; intros _.
  apply returns_ret. eexists. split; [reflexivity|]. apply canonical_sha256_sha.
Qed.

Lemma kind_override op ov :
  (exists k, match ov with Some k => Ok k | None => table_item PHASE3_KIND (ro_kind op) end = Ok k
   /\ mem k EVENT_KINDS = true) ->
  forall csha adm out rsha rs cid ssha m,
  operation_wf op -> mediator_inv m ->
  exists e r, _finish op csha adm out rsha rs cid ssha ov m
    = (Ok (RuntimeMediationReceipt_as_document r), push_receipt r (push_event e m)).
Proof.
  intros (k & Hk & Hmem) csha adm out rsha rs cid ssha m [Hsub Ht Hb Ha] Hm.
  unfold _finish. rewrite Hk, M_lift. cbv zeta. rewrite M_get, M_lift.
  match goal with |- context [TrajectoryEvent_build ?a ?b ?c ?d ?e ?f ?g ?h ?i ?j ?k] =>
    assert (exists ev, TrajectoryEvent_build a b c d e f g h i j k = Ok ev) as [ev Hev] end.
  { apply build_ok; try done; try lia.
    - by destruct (_ && _).
    - by destruct (String.eqb _ "ALLOW").
    - apply re_sha_len, Hm. }
  rewrite Hev, M_modify. cbv zeta. rewrite M_modify. by eexists _, _.
Qed.
End mediator_lemmas.

Section host_lemmas.
Context {hash : Digest} {B G S : Type} {bops : BrokerOps B} {gops : GatewayOps G S}.
Context {L : Lens S (RuntimeMediator B G)}.
Implicit Types (op : RuntimeOperation) (ex : RuntimeOperation -> M S exec_result).

(** What every call of the host's code must respect: the mediator's logs are changed
    only by the mediator's own methods. *)
Definition host_ok (s s' : S) : Prop := mediator_ok (lget s) (lget s').

#[local] Instance host_ok_preorder : PreOrder host_ok.
Proof. split; [by intros s|]. unfold host_ok. intros s1 s2 s3. by etrans. Qed.

Lemma on_broker_ok {A} (m : M B A) : evolves mediator_ok (on_broker (G:=G) m).
Proof.
  intros md. unfold on_broker, zoom. destruct (m (rm_broker md)) as [r b'].
  intros []. by constructor.
Qed.

Lemma on_finish_ok op csha adm out rsha rs cid ssha ov :
  evolves host_ok (on (_finish op csha adm out rsha rs cid ssha ov)).
Proof. apply evolves_on, mediation_finish_ok. Qed.

(** A preorder that the mediator's bookkeeping and the broker's decision respect is
    respected by a mediated call whose executor respects it. *)
Section mediate_rel.
Context (R : S -> S -> Prop) `{!PreOrder R}.
Context (Hfinish : forall op csha adm out rsha rs cid ssha ov,
  evolves R (on (_finish op csha adm out rsha rs cid ssha ov))).

Lemma dispatch_rel op ex : evolves R (ex op) -> evolves R (dispatch op ex).
Proof.
  intros Hex. unfold dispatch. evolve_step; [|evolve_step].
  evolve_step; [exact Hex|]. evolve_step; evolve_step.
Qed.

Lemma finish_admitted_rel op ex cap ssha : evolves R (ex op) ->
  evolves R (finish_admitted op ex cap ssha).
Proof.
  intros Hex. unfold finish_admitted.
  evolve_step; [by apply dispatch_rel|]. do 2 (evolve_step; [evolve_step|]).
  destruct (_ : string + ExecutionObservation); apply Hfinish.
Qed.

Lemma mediate_rel op ex : (forall scope, evolves R (request_capability op scope)) ->
  evolves R (ex op) -> evolves R (mediate op ex).
Proof.
  intros Hreq Hex. unfold mediate. do 2 (evolve_step; [evolve_step|]). cbv zeta.
  evolve_step; [evolve_step|]. destruct (rm_contained _); [apply Hfinish|].
  evolve_step; [apply Hreq|]. evolve_step; [evolve_step|].
  destruct (negb _).
  - do 2 (evolve_step; [evolve_step|]). apply Hfinish.
  - by apply finish_admitted_rel.
Qed.
End mediate_rel.

Lemma request_ok op scope : evolves host_ok (request_capability op scope).
Proof.
  unfold request_capability. evolve_step; [evolve_step|]. apply evolves_on, on_broker_ok.
Qed.

Lemma dispatch_ok op ex : evolves host_ok (ex op) -> evolves host_ok (dispatch op ex).
Proof. apply dispatch_rel. typeclasses eauto. Qed.

Lemma mediate_ok op ex : evolves host_ok (ex op) -> evolves host_ok (mediate op ex).
Proof. apply mediate_rel; [typeclasses eauto|apply on_finish_ok|apply request_ok]. Qed.

Lemma mediate_returns op ex : returns mediation_doc (mediate op ex).
Proof.
  pose proof (fun csha adm out rsha rs cid ssha ov =>
    returns_on mediation_doc _ (finish_returns op csha adm out rsha rs cid ssha ov)) as Hf.
  unfold mediate. do 2 (apply returns_bind; intros ?). cbv zeta. apply returns_bind; intros host.
  destruct (rm_contained _); [apply Hf|]. do 2 (apply returns_bind; intros ?).
  destruct (negb _); [do 2 (apply returns_bind; intros ?); apply Hf|].
  unfold finish_admitted. do 3 (apply returns_bind; intros ?).
  destruct (_ : string + ExecutionObservation); apply Hf.
Qed.

Lemma mediate_network_ok req : (forall gw, evolves host_ok (gateway_execute gw req)) ->
  evolves host_ok (mediate_network req).
Proof.
  intros Hgw. unfold mediate_network. evolve_step; [evolve_step|].
  destruct (rm_egress_gateway _); [|evolve_step]. destruct (rm_contained _); [apply on_finish_ok|].
  evolve_step.
  - evolve_step; [evolve_step; [apply Hgw|evolve_step]|]. destruct (exn_cls _); evolve_step.
  - destruct (_ : string + dict); [apply on_finish_ok|].
    do 2 (evolve_step; [evolve_step|]). apply on_finish_ok.
Qed.

(** *** Admission *)

(** The operation reaches the executor: it is valid, the mediator is not contained
    and the broker answers ALLOW. *)
Definition admitted op (s : S) : Prop :=
  rm_contained (lget s) = false
  /\ exists u scope cap s1, RuntimeOperation_validate op = Ok u /\ normalized_scope op = Ok scope
     /\ request_capability op scope s = (Ok cap, s1)
     /\ dict_get cap "decision" = Some (JStr "ALLOW").

Lemma admitted_dec op s : admitted op s \/ ~ admitted op s.
Proof.
  unfold admitted. destruct (rm_contained (lget s)); [right; by intros []|].
  destruct (RuntimeOperation_validate op) as [u|]; [|right; by intros (_ & ? & ? & ? & ? & ? & _)].
  destruct (normalized_scope op) as [scope|]; [|right; by intros (_ & ? & ? & ? & ? & _ & ? & _)].
  destruct (request_capability op scope s) as [[cap|] s1] eqn:Hr.
  - assert (dict_get cap "decision" = Some (JStr "ALLOW")
            \/ dict_get cap "decision" <> Some (JStr "ALLOW")) as [Hd|Hd].
    { destruct (dict_get cap "decision") as [[| | |d| |]|]; try (by right).
      destruct (decide (d = "ALLOW")) as [->|]; [by left|]. right. congruence. }
    + left. split; [done|]. by exists u, scope, cap, s1.
    + right. intros (_ & u' & scope' & cap' & s1' & _ & [= <-] & Hr' & Hd'). congruence.
  - right. intros (_ & u' & scope' & cap' & s1' & _ & [= <-] & Hr' & _). congruence.
Qed.

Definition blocked (doc : dict) : Prop :=
  dict_get doc "admission_decision" = Some (JStr "BLOCK")
  /\ dict_get doc "execution_outcome" = Some (JStr "NOT_EXECUTED").

Lemma on_finish_shows op csha adm out rsha rs cid ssha ov s doc s' :
  on (_finish op csha adm out rsha rs cid ssha ov) s = (Ok doc, s') ->
  dict_get doc "admission_decision" = Some (JStr adm)
  /\ dict_get doc "execution_outcome" = Some (JStr out).
Proof.
  rewrite on_run. destruct (finish_cases op csha adm out rsha rs cid ssha ov (lget s))
    as [[x ->]|(e & r & -> & Ha & Ho & _)]; [done|]. intros [= <- _]. cbn. by rewrite Ha, Ho.
Qed.

(** Without admission the executor is irrelevant and the operation is blocked. *)
Lemma not_admitted_blocked op s : ~ admitted op s ->
  (forall ex ex', mediate op ex s = mediate op ex' s)
  /\ forall ex doc s', mediate op ex s = (Ok doc, s') -> blocked doc.
Proof.
  intros Hn.
  assert (forall ex, mediate op ex s = match RuntimeOperation_validate op with
    | Err x => (Err x, s)
    | Ok _ => match normalized_scope op with
      | Err x => (Err x, s)
      | Ok scope =>
        if rm_contained (lget s) then
          on (_finish op ZERO_SHA256 "BLOCK" "NOT_EXECUTED" ZERO_SHA256 ["containment_active"]
                None (canonical_sha256 (JObj scope)) None) s
        else match request_capability op scope s with
        | (Err x, s1) => (Err x, s1)
        | (Ok cap, s1) =>
          match dict_item cap "decision" with
          | Err x => (Err x, s1)
          | Ok _ => (sha ← lift (str_item cap "receipt_sha256");
             codes ← lift (codes_item cap "reason_codes");
             on (_finish op sha "BLOCK" "NOT_EXECUTED" ZERO_SHA256 codes None
                   (canonical_sha256 (JObj scope)) None)) s1
          end end end end) as Hrun.
  { intros ex. unfold mediate. rewrite M_lift.
    destruct (RuntimeOperation_validate op) as [u|x] eqn:Hv; [|done]. rewrite M_lift.
    destruct (normalized_scope op) as [scope|x] eqn:Hs; [|done]. cbv zeta. rewrite M_get.
    destruct (rm_contained (lget s)) eqn:Hc; [done|]. rewrite M_bind_eq.
    destruct (request_capability op scope s) as [[cap|x] s1] eqn:Hr; [|done]. rewrite M_lift.
    destruct (dict_item cap "decision") as [d|x] eqn:Hd; [|done].
    destruct (is_str d "ALLOW") eqn:Ha; [|done]. exfalso. apply Hn. split; [done|].
    exists u, scope, cap, s1. split_and!; try done. apply dict_item_ok in Hd. rewrite Hd.
    destruct d; try done. by apply String.eqb_eq in Ha as ->. }
  split; [intros ex ex'; by rewrite !Hrun|]. intros ex doc s'. rewrite Hrun.
  destruct (RuntimeOperation_validate op) as [u|x]; [|done].
  destruct (normalized_scope op) as [scope|x]; [|done].
  destruct (rm_contained (lget s)); [apply on_finish_shows|].
  destruct (request_capability op scope s) as [[cap|x] s1]; [|done].
  destruct (dict_item cap "decision") as [d|x]; [|done]. intros H. M_run H.
  destruct (str_item _ _); [|done]. M_run H. destruct (codes_item _ _); [|done].
  by apply on_finish_shows in H.
Qed.

(** With admission the result is that of dispatching the executor from the state the
    broker left. *)
Lemma admitted_run op s : admitted op s -> exists scope cap s1,
  request_capability op scope s = (Ok cap, s1) /\ dict_get cap "decision" = Some (JStr "ALLOW")
  /\ forall ex, mediate op ex s = finish_admitted op ex cap (canonical_sha256 (JObj scope)) s1.
Proof.
  intros (Hc & u & scope & cap & s1 & Hv & Hs & Hr & Hd). exists scope, cap, s1.
  split_and!; try done. intros ex. unfold mediate. M_go Hv. M_go Hs. M_go Hc.
  rewrite M_bind_eq, Hr. M_go (proj2 (dict_item_ok cap "decision" (JStr "ALLOW")) Hd). done.
Qed.

(** What the host sees of a failed executor is its exception class. *)
Definition same_failure (r r' : result exec_result * S) : Prop :=
  exists e e' s, r = (Err e, s) /\ r' = (Err e', s) /\ exn_cls e = exn_cls e'.

Lemma dispatch_failure op ex ex' s : same_failure (ex op s) (ex' op s) ->
  dispatch op ex s = dispatch op ex' s.
Proof.
  intros (e & e' & s1 & H & H' & Hc). unfold dispatch, try_except. rewrite !M_bind_eq, H, H'.
  by rewrite Hc.
Qed.

Lemma failure_text_hidden op ex ex' s : (forall s1, same_failure (ex op s1) (ex' op s1)) ->
  mediate op ex s = mediate op ex' s.
Proof.
  intros Hf. unfold mediate. M_go.
  destruct (RuntimeOperation_validate op); [|done]. M_go.
  destruct (normalized_scope op) as [scope|]; [|done]. M_go.
  destruct (rm_contained (lget s)); [done|]. rewrite !M_bind_eq.
  destruct (request_capability op scope s) as [[cap|x] s1]; [|done]. M_go.
  destruct (dict_item cap "decision") as [d|]; [|done]. destruct (negb _); [done|].
  unfold finish_admitted. rewrite !M_bind_eq. by rewrite (dispatch_failure op ex ex' s1).
Qed.

(** *** Every mediated call ends with a receipt *)
Lemma on_finish_total op csha adm out rsha rs cid ssha s scope :
  operation_wf op -> normalized_scope op = Ok scope -> mediator_inv (lget s) ->
  exists doc s', on (_finish op csha adm out rsha rs cid ssha None) s = (Ok doc, s')
    /\ dict_get doc "admission_decision" = Some (JStr adm)
    /\ dict_get doc "execution_outcome" = Some (JStr out).
Proof.
  intros Hop Hs Hm. destruct (normalized_scope_kind op scope Hs) as (c & _ & _ & Hk).
  destruct (kind_override op None Hk csha adm out rsha rs cid ssha (lget s) Hop Hm) as (e & r & E).
  assert (on (_finish op csha adm out rsha rs cid ssha None) s
    = (Ok (RuntimeMediationReceipt_as_document r), lput (push_receipt r (push_event e (lget s))) s)) as Ho
    by (by rewrite on_run, E).
  eexists _, _. split; [exact Ho|]. by apply on_finish_shows in Ho.
Qed.

Lemma decision_doc_items cap : decision_doc cap ->
  (exists d, dict_item cap "decision" = Ok (JStr d)) /\ (exists s, str_item cap "receipt_sha256" = Ok s)
  /\ (exists l, codes_item cap "reason_codes" = Ok l) /\ (exists o, opt_str cap "capability_id" = Ok o).
Proof.
  intros [[d Hd] (s & Hs & _) [l Hl] [o Ho]].
  unfold str_item, codes_item, opt_str, dict_get_none, dict_get_or.
  rewrite (proj2 (dict_item_ok _ _ _) Hd), (proj2 (dict_item_ok _ _ _) Hs),
    (proj2 (dict_item_ok _ _ _) Hl), !bind_Ok, Ho. split_and!; [by exists d|by exists s| |].
  - exists l. unfold jstrs. cbn. by apply map_r_jstrs, Forall_true.
  - exists o. by destruct o.
Qed.

Lemma dispatch_total op ex s : exists out s', dispatch op ex s = (Ok out, s').
Proof.
  unfold dispatch, try_except. repeat case_match; eexists _, _; reflexivity.
Qed.

(** The state a dispatch leaves is the one its executor left. *)
Lemma dispatch_state op ex s : snd (dispatch op ex s) = snd (ex op s).
Proof.
  unfold dispatch, try_except. rewrite M_bind_eq. destruct (ex op s) as [[r|e] s1]; [|done].
  rewrite M_lift. by destruct (checked_observation r).
Qed.

Lemma mediate_total_lemma `{!BrokerLaws B} op ex s u :
  RuntimeOperation_validate op = Ok u -> mediator_inv (lget s) ->
  (forall scope cap s1, request_capability op scope s = (Ok cap, s1) ->
   mediator_inv (lget s1) -> mediator_inv (lget (snd (ex op s1)))) ->
  (rm_contained (lget s) = false -> forall scope, normalized_scope op = Ok scope ->
   exists cap s1, request_capability op scope s = (Ok cap, s1)) ->
  exists doc s' adm out, mediate op ex s = (Ok doc, s')
    /\ dict_get doc "admission_decision" = Some (JStr adm)
    /\ dict_get doc "execution_outcome" = Some (JStr out)
    /\ (adm = "ALLOW" <-> admitted op s) /\ (adm = "BLOCK" <-> out = "NOT_EXECUTED").
Proof.
  intros Hv Hm Hex Hreq. destruct (operation_validate_ok op u Hv) as (Hop & _ & _ & scope & Hs).
  unfold mediate. M_go Hv. M_go Hs. M_go.
  destruct (rm_contained (lget s)) eqn:Hc.
  { destruct (on_finish_total op ZERO_SHA256 "BLOCK" "NOT_EXECUTED" ZERO_SHA256
      ["containment_active"] None (canonical_sha256 (JObj scope)) s scope Hop Hs Hm)
      as (doc & s' & -> & Ha & Ho).
    exists doc, s', "BLOCK", "NOT_EXECUTED". split_and!; try done. split; [done|]. intros [Hcf _]. congruence. }
  destruct (Hreq eq_refl scope Hs) as (cap & s1 & Hr). rewrite M_bind_eq, Hr. M_go.
  assert (decision_doc cap) as Hcap.
  { unfold request_capability in Hr. rewrite M_lift in Hr.
    destruct (table_item _ _) as [c|]; [|done]. rewrite on_run in Hr. unfold on_broker, zoom in Hr.
    destruct (op_authorize _ _ _ _ _ _ _ _ _) as [r b'] eqn:Ha. injection Hr as -> _.
    by apply law_decision in Ha. }
  destruct (decision_doc_items cap Hcap) as ([d Hd] & [sha Hsha] & [l Hl] & [o Ho]).
  rewrite Hd. cbv beta iota. assert (mediator_inv (lget s1)) as Hm1.
  { pose proof (request_ok op scope s) as Hq. rewrite Hr in Hq. by apply Hq. }
  destruct (is_str (JStr d) "ALLOW") eqn:Hallow; cbn [negb].
  2: { M_go Hsha. M_go Hl.
       destruct (on_finish_total op sha "BLOCK" "NOT_EXECUTED" ZERO_SHA256 l None
         (canonical_sha256 (JObj scope)) s1 scope Hop Hs Hm1) as (doc & s' & -> & Ha & Hout).
       exists doc, s', "BLOCK", "NOT_EXECUTED". split_and!; try done.
       split; [done|]. intros (_ & u' & scope' & cap' & s1' & _ & Hs' & Hr' & Hd').
       rewrite Hs in Hs'. injection Hs' as <-. rewrite Hr in Hr'. injection Hr' as <- _.
       apply dict_item_ok in Hd. rewrite Hd in Hd'. injection Hd' as ->. done. }
  assert (admitted op s) as Hadm.
  { split; [done|]. exists u, scope, cap, s1. split_and!; try done. apply dict_item_ok in Hd.
    rewrite Hd. cbn in Hallow. by apply String.eqb_eq in Hallow as ->. }
  unfold finish_admitted. rewrite M_bind_eq. destruct (dispatch_total op ex s1) as (out & s2 & Hdis).
  pose proof (Hex scope cap s1 Hr Hm1) as H2. rewrite <- dispatch_state, Hdis in H2. cbn in H2.
  rewrite Hdis. M_go Hsha. M_go Ho. destruct out as [name|obs].
  - destruct (on_finish_total op sha "ALLOW" "FAILED" (canonical_sha256 (JObj [("error_type", JStr name)]))
      ["executor_failed"] o (canonical_sha256 (JObj scope)) s2 scope Hop Hs H2) as (doc & s' & -> & Ha & Hout).
    exists doc, s', "ALLOW", "FAILED". by split_and!.
  - destruct (on_finish_total op sha "ALLOW" "SUCCEEDED" (eo_result_sha256 obs)
      ["capability_admitted"; "host_executor_succeeded"] o (canonical_sha256 (JObj scope)) s2 scope Hop Hs H2)
      as (doc & s' & -> & Ha & Hout).
    exists doc, s', "ALLOW", "SUCCEEDED". by split_and!.
Qed.

(** *** Reachable hosts *)

(** One step of a host: a call of the mediator, with host code that respects its logs,
    or a step of the host that leaves the mediator's logs alone. *)
Inductive mediation_step (s : S) : S -> Prop :=
  | ms_mediate op ex : evolves host_ok (ex op) -> mediation_step s (snd (mediate op ex s))
  | ms_network req : (forall gw, evolves host_ok (gateway_execute gw req)) ->
      mediation_step s (snd (mediate_network req s))
  | ms_enter sha : mediation_step s (snd (on (enter_containment sha) s))
  | ms_exit sha : mediation_step s (snd (on (exit_containment sha) s))
  | ms_host s' : host_ok s s' -> mediation_step s s'.

Lemma containment_ok (b : bool) sha :
  evolves (mediator_ok (B:=B) (G:=G)) (if b then enter_containment sha else exit_containment sha).
Proof.
  destruct b; (evolve_step; [evolve_step|]; evolve_step;
    [apply evolves_modify; intros m []; by constructor
    |apply evolves_modify; intros m []; by constructor]).
Qed.

Lemma mediation_step_ok s s' : mediation_step s s' -> host_ok s s'.
Proof.
  destruct 1 as [op ex Hex|req Hg|sha|sha|s' H].
  - by apply mediate_ok.
  - by apply mediate_network_ok.
  - apply (evolves_on _ _ (containment_ok true sha)).
  - apply (evolves_on _ _ (containment_ok false sha)).
  - exact H.
Qed.

Lemma star_mediation_ok s s' : star mediation_step s s' -> host_ok s s'.
Proof. induction 1; [reflexivity|]. etrans; [done|]. by apply mediation_step_ok. Qed.
End host_lemmas.

Section mediator_claims.
Context {hash : Digest}.

Lemma init_inv {B G} (broker : B) (gw : option G) : mediator_inv (RuntimeMediator_init broker gw).
Proof. by constructor. Qed.

Lemma trajectory_accepted {B G} (m : RuntimeMediator B G) : mediator_inv m ->
  (forall i e e', rm_events m !! i = Some e -> rm_events m !! (i + 1)%nat = Some e' ->
   te_observed_at_unix e <= te_observed_at_unix e') ->
  _verify_chain (trajectory_events m) = Ok tt.
Proof.
  intros [Hs Hc Hd Ht Hh Hr] Hsorted. apply verify_from_spec. constructor; [done| | |done].
  - by exists (rm_event_head m).
  - intros [|i] e He; rewrite Forall_forall in Ht.
    + pose proof (Ht e (list_elem_of_lookup_2 _ _ _ He)). lia.
    + destruct (rm_events m !! i) as [e0|] eqn:E.
      * rewrite <- Nat.add_1_r in He. pose proof (Hsorted i e0 e E He). unfold trajectory_events. rewrite E. cbn. lia.
      * apply lookup_ge_None in E. apply lookup_lt_Some in He. unfold trajectory_events in He. lia.
Qed.

Lemma receipts_verify {B G} (m : RuntimeMediator B G) : mediator_inv m ->
  Forall (fun doc => verify_receipt doc = Ok doc) (receipts m).
Proof.
  intros [_ _ _ _ _ Hr]. unfold receipts. apply Forall_map. clear -Hr.
  induction Hr as [|e r l l' Her _ IH]; constructor; [|done].
  destruct Her as (_ & _ & _ & _ & Hdig). unfold verify_receipt. cbv zeta.
  replace (envelope_ok _ SCHEMA AUTHORITY) with true by (by vm_compute). cbn [negb raise_if].
  rewrite bind_Ok. rewrite raise_if_false, bind_Ok; [done|]. apply negb_false_iff.
  cbn. rewrite Hdig. apply String.eqb_refl.
Qed.
End mediator_claims.

(** ** Example values *)
Definition example_operation : RuntimeOperation := {|
  ro_operation_id := "op:1"; ro_subject_id := "agent:1"; ro_policy_sha256 := ZERO_SHA256;
  ro_kind := "runtime.configure"; ro_scope := [("setting_keys", jstrs ["debug"])];
  ro_payload_sha256 := ZERO_SHA256; ro_at_unix := 150; ro_privilege_level_before := 0;
  ro_privilege_level_after := 1 |}.

Definition config_kwargs : dict :=
  [("capability_id", JStr "cap:9"); ("capability_type", JStr "runtime.configure");
   ("subject_id", JStr "agent:1"); ("issuer_id", JStr "issuer:1");
   ("scope", JObj [("setting_keys", jstrs ["debug"])]);
   ("issued_at_unix", JInt 100); ("not_before_unix", JInt 100); ("expires_at_unix", JInt 200);
   ("max_uses", JInt 2); ("delegable", JBool false); ("parent_capability_id", JNull);
   ("policy_sha256", JStr ZERO_SHA256)].

Definition config_broker : CapabilityBroker.CapabilityBroker :=
  snd (@CapabilityBroker.admit_contract checksum_digest (@seal checksum_digest "contract_sha256"
         (provisional_body CAPABILITY_SCHEMA Contracts.AUTHORITY config_kwargs)) 100
         (CapabilityBroker.fresh_broker "broker:test")).

Definition example_mediator : RuntimeMediator CapabilityBroker.CapabilityBroker unit :=
  RuntimeMediator_init config_broker None.

(** Without an egress gateway its operations are never called. *)
#[local] Instance no_gateway {S} : GatewayOps unit S := {
  gateway_execute _ _ := raise EgressBlocked "no gateway" }.

#[local] Existing Instance checksum_digest.

Definition good_executor {S} (_ : RuntimeOperation) : M S exec_result :=
  mret (Observed (ExecutionObservation_success [])).

Definition bad_executor {S} (text : string) (_ : RuntimeOperation) : M S exec_result :=
  raise (HostException "OSError") text.

(** ** Properties *)

(** C4: an executor runs only for an admitted operation: when the operation is invalid,
    the mediator is contained or the broker does not answer ALLOW, the outcome and the
    final state are the same whatever the executor is, and any receipt says BLOCK and
    NOT_EXECUTED. *)
Theorem executor_runs_only_when_admitted `{hash : Digest} {B G S : Type} `{BrokerOps B}
    `{Lens S (RuntimeMediator B G)} (op : RuntimeOperation) (s : S) (Hn : admitted op s -> False) :
  (forall ex ex', mediate op ex s = mediate op ex' s)
  /\ forall ex doc s', mediate op ex s = (Ok doc, s') ->
     dict_get doc "admission_decision" = Some (JStr "BLOCK")
     /\ dict_get doc "execution_outcome" = Some (JStr "NOT_EXECUTED").
Proof. exact (not_admitted_blocked op s Hn). Qed.

Lemma executor_runs_only_when_admitted_witness :
  let s := set_contained true example_mediator in
  (admitted example_operation s -> False)
  /\ (forall ex ex', mediate example_operation ex s = mediate example_operation ex' s)
  /\ forall ex doc s', mediate example_operation ex s = (Ok doc, s') ->
     dict_get doc "admission_decision" = Some (JStr "BLOCK")
     /\ dict_get doc "execution_outcome" = Some (JStr "NOT_EXECUTED").
Proof.
  assert (admitted example_operation (set_contained true example_mediator) -> False) as Hn
    by (intros [Hc _]; discriminate Hc).
  split; [exact Hn|].
  apply (executor_runs_only_when_admitted example_operation (set_contained true example_mediator) Hn).
Defined.



(** The text of a failing executor's exception never reaches the receipt, the
    trajectory or the state: two executors that fail with the same exception class
    and leave the host in the same state give the same result, whatever they say. *)
Theorem executor_failure_text_hidden `{hash : Digest} {B G S : Type} `{BrokerOps B}
    `{Lens S (RuntimeMediator B G)} (op : RuntimeOperation)
    (ex ex' : RuntimeOperation -> M S exec_result) (s : S)
    (Hsame : forall s1, same_failure (ex op s1) (ex' op s1)) :
  mediate op ex s = mediate op ex' s.
Proof. by apply failure_text_hidden. Qed.

Lemma executor_failure_text_hidden_witness :
  mediate example_operation (bad_executor "token=1") example_mediator
  = mediate example_operation (bad_executor "token=2") example_mediator.
Proof.
  apply (executor_failure_text_hidden example_operation (bad_executor "token=1")
           (bad_executor "token=2") example_mediator).
  intros s1. eexists _, _, s1. split; [reflexivity|]. split; reflexivity.
Defined.

(** In every state a host can reach, each issued receipt verifies, and the
    mediator's trajectory is accepted by the escalation detector's chain verification
    whenever the operations' times did not go backwards. *)
Theorem mediated_trajectory_verifies `{hash : Digest} {B G S : Type} `{BrokerOps B}
    `{GatewayOps G S} `{Lens S (RuntimeMediator B G)} (broker : B) (gateway : option G) (s0 s : S)
    (Hinit : lget s0 = RuntimeMediator_init broker gateway) (Hreach : star mediation_step s0 s)
    (Htime : forall i e e', rm_events (lget s) !! i = Some e -> rm_events (lget s) !! (i + 1)%nat = Some e' ->
       te_observed_at_unix e <= te_observed_at_unix e') :
  Forall (fun doc => verify_receipt doc = Ok doc) (receipts (lget s))
  /\ _verify_chain (trajectory_events (lget s)) = Ok tt.
Proof.
  assert (mediator_inv (lget s)) as Hm.
  { apply (star_mediation_ok _ _ Hreach). rewrite Hinit. apply init_inv. }
  split; [by apply receipts_verify|by apply trajectory_accepted].
Qed.

Definition example_mediated : RuntimeMediator CapabilityBroker.CapabilityBroker unit :=
  snd (mediate example_operation good_executor example_mediator).

Lemma mediated_trajectory_verifies_witness :
  length (rm_receipts example_mediated) = 1%nat
  /\ (Forall (fun doc => verify_receipt doc = Ok doc) (receipts (B:=CapabilityBroker.CapabilityBroker)
        (G:=unit) (lget example_mediated))
      /\ _verify_chain (trajectory_events (B:=CapabilityBroker.CapabilityBroker) (G:=unit)
        (lget example_mediated)) = Ok tt).
Proof.
  split; [vm_compute; reflexivity|].
  apply (mediated_trajectory_verifies config_broker None example_mediator example_mediated).
  - reflexivity.
  - eapply star_step; [apply star_refl|]. apply ms_mediate. intros s Hs. exact Hs.
  - intros [|i] e e'; vm_compute; intros H1 H2; discriminate H2.
Defined.
