(* ===== verification/RuntimeConfig.v ===== *)
(** * Bound runtime configuration (sdk/liminal_runtime_config/__init__.py)

    A configuration change is admitted only for a plan bound to the observed state
    and epoch; an admitted change advances the epoch and revokes the old authority.
    The backend is host code and runs on the whole host state [S]. *)
From stdpp Require Import gmap.
From Stdlib Require Import Ascii.
From S2P Require Import Prelude PyStr Json Digest Contracts BrokerInterface Mediation.
#[local] Open Scope Z_scope.

(** ** Constants *)
Definition SCHEMA : string := "liminal-bound-runtime-config-receipt-v0.1".
Definition PLAN_SCHEMA : string := "liminal-bound-runtime-config-plan-v0.1".
Definition STATE_SCHEMA : string := "liminal-runtime-state-evidence-v0.1".

Definition AUTHORITY : dict :=
  [("mode", JStr "bound_runtime_configuration_governance");
   ("runtime_mediation_required", JBool true); ("trusted_state_observation", JBool true);
   ("exact_before_state_binding", JBool true); ("monotonic_runtime_epoch", JBool true);
   ("old_epoch_authority_revocation", JBool true); ("digest_only_receipts", JBool true);
   ("raw_environment_access", JBool false); ("secret_material_export", JBool false);
   ("shell_execution", JBool false); ("direct_filesystem_mutation", JBool false);
   ("direct_network_reconfiguration", JBool false);
   ("kernel_or_runtime_escape_resistance", JBool false)].

(** ** Validators *)
Definition _sha (value : json) (name : string) : result string :=
  check_sha RuntimeConfigError (name +:+ " must be lowercase SHA-256") value.

Definition _text (value : string) (name : string) : result string :=
  if String.eqb (py_strip value) "" || negb (String.eqb value (py_strip value))
     || contains_char "000"%char value || (192 <? py_len value)
  then fail RuntimeConfigError (name +:+ " must be a bounded non-empty string")
  else Ok value.

(** [tuple(v)] of a value of a validated scope. *)
Definition py_tuple (v : json) : list json :=
  match v with
  | JList l => l
  | JStr s => map JStr (py_chars s)
  | _ => []
  end.

(** ** Evidence and plans *)
Record RuntimeStateEvidence := {
  rs_host_binding_sha256 : string;
  rs_state_sha256 : string;
  rs_evidence_sha256 : string
}.

Record RuntimeConfigPlan := {
  pl_operation_id : string;
  pl_setting_keys : list string;
  pl_before_state_sha256 : string;
  pl_after_state_sha256 : string;
  pl_change_set_sha256 : string;
  pl_host_binding_sha256 : string;
  pl_epoch_before : Z
}.

Definition keys_scope (keys : list string) : json := JObj [("setting_keys", jstrs keys)].

Definition RuntimeConfigPlan_validate (self : RuntimeConfigPlan) : result unit :=
  _ ← _text (pl_operation_id self) "operation_id";
  _ ← validate_scope "runtime.configure" (keys_scope (pl_setting_keys self));
  _ ← _sha (JStr (pl_before_state_sha256 self)) "before_state_sha256";
  _ ← _sha (JStr (pl_after_state_sha256 self)) "after_state_sha256";
  _ ← _sha (JStr (pl_change_set_sha256 self)) "change_set_sha256";
  _ ← _sha (JStr (pl_host_binding_sha256 self)) "host_binding_sha256";
  _ ← raise_if (String.eqb (pl_before_state_sha256 self) (pl_after_state_sha256 self))
        RuntimeConfigError "runtime configuration plan must change state";
  raise_if (pl_epoch_before self <? 0) RuntimeConfigError
    "epoch_before must be a non-negative integer".

(** The strings of a validated list. *)
Definition strings_of (l : list json) : list string :=
  omap (fun v => match v with JStr s => Some s | _ => None end) l.

Definition RuntimeConfigPlan_build (operation_id : string) (setting_keys : list string)
    (before_state_sha256 after_state_sha256 change_set_sha256 host_binding_sha256 : string)
    (epoch_before : Z) : result RuntimeConfigPlan :=
  scope ← validate_scope "runtime.configure" (keys_scope setting_keys);
  keys ← dict_item scope "setting_keys";
  oid ← _text operation_id "operation_id";
  before ← _sha (JStr before_state_sha256) "before_state_sha256";
  after ← _sha (JStr after_state_sha256) "after_state_sha256";
  change ← _sha (JStr change_set_sha256) "change_set_sha256";
  host ← _sha (JStr host_binding_sha256) "host_binding_sha256";
  let item := {|
    pl_operation_id := oid; pl_setting_keys := strings_of (py_tuple keys);
    pl_before_state_sha256 := before; pl_after_state_sha256 := after;
    pl_change_set_sha256 := change; pl_host_binding_sha256 := host;
    pl_epoch_before := epoch_before |} in
  _ ← RuntimeConfigPlan_validate item;
  Ok item.

Definition RuntimeConfigPlan_body (self : RuntimeConfigPlan) : result dict :=
  _ ← RuntimeConfigPlan_validate self;
  Ok [("schema", JStr PLAN_SCHEMA); ("operation_id", JStr (pl_operation_id self));
      ("setting_keys", jstrs (pl_setting_keys self));
      ("before_state_sha256", JStr (pl_before_state_sha256 self));
      ("after_state_sha256", JStr (pl_after_state_sha256 self));
      ("change_set_sha256", JStr (pl_change_set_sha256 self));
      ("host_binding_sha256", JStr (pl_host_binding_sha256 self));
      ("epoch_before", JInt (pl_epoch_before self))].

(** ** Receipts *)
Record RuntimeConfigReceipt := {
  cr_operation_id : string;
  cr_plan_sha256 : string;
  cr_before_state_sha256 : string;
  cr_after_state_sha256 : string;
  cr_epoch_before : Z;
  cr_epoch_after : Z;
  cr_mediation_receipt_sha256 : string;
  cr_host_evidence_sha256 : string;
  cr_revoked_authority_count : Z;
  cr_revoked_authority_set_sha256 : string;
  cr_decision : string;
  cr_outcome : string;
  cr_reason_codes : list string;
  cr_receipt_sha256 : string
}.

Definition RuntimeConfigReceipt_body (r : RuntimeConfigReceipt) : dict :=
  [("schema", JStr SCHEMA);
   ("operation_id", JStr (cr_operation_id r));
   ("plan_sha256", JStr (cr_plan_sha256 r));
   ("before_state_sha256", JStr (cr_before_state_sha256 r));
   ("after_state_sha256", JStr (cr_after_state_sha256 r));
   ("epoch_before", JInt (cr_epoch_before r));
   ("epoch_after", JInt (cr_epoch_after r));
   ("mediation_receipt_sha256", JStr (cr_mediation_receipt_sha256 r));
   ("host_evidence_sha256", JStr (cr_host_evidence_sha256 r));
   ("revoked_authority_count", JInt (cr_revoked_authority_count r));
   ("revoked_authority_set_sha256", JStr (cr_revoked_authority_set_sha256 r));
   ("decision", JStr (cr_decision r));
   ("outcome", JStr (cr_outcome r));
   ("reason_codes", jstrs (cr_reason_codes r));
   ("authority", JObj AUTHORITY)].

Definition RuntimeConfigReceipt_as_document (r : RuntimeConfigReceipt) : dict :=
  dict_set (RuntimeConfigReceipt_body r) "receipt_sha256" (JStr (cr_receipt_sha256 r)).

(** ** The broker *)
Record BoundRuntimeConfigBroker (B G : Type) := {
  rc_mediator : RuntimeMediator B G;
  rc_host_binding_sha256 : string;
  rc_state_sha256 : string;
  rc_epoch : Z;
  rc_tainted : bool;
  rc_seen_plans : gset string;
  rc_receipts : list RuntimeConfigReceipt
}.
Arguments rc_mediator {B G} _.
Arguments rc_host_binding_sha256 {B G} _.
Arguments rc_state_sha256 {B G} _.
Arguments rc_epoch {B G} _.
Arguments rc_tainted {B G} _.
Arguments rc_seen_plans {B G} _.
Arguments rc_receipts {B G} _.

(** The backend protocol, called in the host's state. *)
Class RuntimeConfigBackend (S : Type) := {
  backend_observe : M S dict;
  backend_apply : RuntimeConfigPlan -> M S unit
}.

Section fields.
Context {B G : Type}.
Implicit Types c : BoundRuntimeConfigBroker B G.

Definition set_mediator (m : RuntimeMediator B G) c : BoundRuntimeConfigBroker B G := {|
  rc_mediator := m; rc_host_binding_sha256 := rc_host_binding_sha256 c;
  rc_state_sha256 := rc_state_sha256 c; rc_epoch := rc_epoch c; rc_tainted := rc_tainted c;
  rc_seen_plans := rc_seen_plans c; rc_receipts := rc_receipts c |}.

Definition set_state (state : string) c : BoundRuntimeConfigBroker B G := {|
  rc_mediator := rc_mediator c; rc_host_binding_sha256 := rc_host_binding_sha256 c;
  rc_state_sha256 := state; rc_epoch := rc_epoch c; rc_tainted := rc_tainted c;
  rc_seen_plans := rc_seen_plans c; rc_receipts := rc_receipts c |}.

(** [self._epoch += 1; self._state_sha256 = state]. *)
Definition bump_epoch (state : string) c : BoundRuntimeConfigBroker B G := {|
  rc_mediator := rc_mediator c; rc_host_binding_sha256 := rc_host_binding_sha256 c;
  rc_state_sha256 := state; rc_epoch := rc_epoch c + 1; rc_tainted := rc_tainted c;
  rc_seen_plans := rc_seen_plans c; rc_receipts := rc_receipts c |}.

Definition taint c : BoundRuntimeConfigBroker B G := {|
  rc_mediator := rc_mediator c; rc_host_binding_sha256 := rc_host_binding_sha256 c;
  rc_state_sha256 := rc_state_sha256 c; rc_epoch := rc_epoch c; rc_tainted := true;
  rc_seen_plans := rc_seen_plans c; rc_receipts := rc_receipts c |}.

Definition add_plan (plan_sha : string) c : BoundRuntimeConfigBroker B G := {|
  rc_mediator := rc_mediator c; rc_host_binding_sha256 := rc_host_binding_sha256 c;
  rc_state_sha256 := rc_state_sha256 c; rc_epoch := rc_epoch c; rc_tainted := rc_tainted c;
  rc_seen_plans := {[ plan_sha ]} ∪ rc_seen_plans c; rc_receipts := rc_receipts c |}.

Definition push_receipt (r : RuntimeConfigReceipt) c : BoundRuntimeConfigBroker B G := {|
  rc_mediator := rc_mediator c; rc_host_binding_sha256 := rc_host_binding_sha256 c;
  rc_state_sha256 := rc_state_sha256 c; rc_epoch := rc_epoch c; rc_tainted := rc_tainted c;
  rc_seen_plans := rc_seen_plans c; rc_receipts := rc_receipts c ++ [r] |}.

(** [self.mediator], as a component of a host that holds this broker. *)
#[export] Program Instance lens_mediator {S} `{Lens S (BoundRuntimeConfigBroker B G)}
    : Lens S (RuntimeMediator B G) := {
  lget s := rc_mediator (lget s);
  lput m s := lput (set_mediator m (lget s)) s
}.
Next Obligation. intros S L m s. cbn. by rewrite lget_lput. Qed.
Next Obligation.
  intros S L s. cbn. assert (set_mediator (rc_mediator (lget s)) (lget s) = lget s) as ->
    by (by destruct (lget s)). apply lput_lget.
Qed.
Next Obligation. intros S L m m' s. cbn. by rewrite lget_lput, lput_lput. Qed.
End fields.

Section config.
Context {hash : Digest}.

Definition evidence_body (host state : string) : dict :=
  [("schema", JStr STATE_SCHEMA); ("host_binding_sha256", JStr host);
   ("state_sha256", JStr state)].

Definition RuntimeStateEvidence_from_mapping (raw : dict) (expected_host_binding_sha256 : string)
    : result RuntimeStateEvidence :=
  _ ← raise_if (negb (keys_are raw ["schema"; "host_binding_sha256"; "state_sha256"; "evidence_sha256"])
                || negb (is_str (dict_get_none raw "schema") STATE_SCHEMA)) RuntimeConfigError
        "runtime state evidence schema mismatch";
  host ← _sha (dict_get_none raw "host_binding_sha256") "host_binding_sha256";
  _ ← raise_if (negb (String.eqb host expected_host_binding_sha256)) RuntimeConfigError
        "runtime state host binding mismatch";
  state ← _sha (dict_get_none raw "state_sha256") "state_sha256";
  evidence ← _sha (dict_get_none raw "evidence_sha256") "evidence_sha256";
  _ ← raise_if (negb (String.eqb evidence (canonical_sha256 (JObj (evidence_body host state)))))
        RuntimeConfigError "runtime state evidence digest mismatch";
  Ok {| rs_host_binding_sha256 := host; rs_state_sha256 := state;
        rs_evidence_sha256 := evidence |}.

Definition plan_sha256 (self : RuntimeConfigPlan) : result string :=
  body ← RuntimeConfigPlan_body self;
  Ok (canonical_sha256 (JObj body)).

Definition payload_sha256 (self : RuntimeConfigPlan) : result string :=
  sha ← plan_sha256 self;
  Ok (canonical_sha256 (JObj [("runtime_config_plan_sha256", JStr sha)])).

Definition seal_receipt (r : RuntimeConfigReceipt) : RuntimeConfigReceipt := {|
  cr_operation_id := cr_operation_id r; cr_plan_sha256 := cr_plan_sha256 r;
  cr_before_state_sha256 := cr_before_state_sha256 r;
  cr_after_state_sha256 := cr_after_state_sha256 r; cr_epoch_before := cr_epoch_before r;
  cr_epoch_after := cr_epoch_after r;
  cr_mediation_receipt_sha256 := cr_mediation_receipt_sha256 r;
  cr_host_evidence_sha256 := cr_host_evidence_sha256 r;
  cr_revoked_authority_count := cr_revoked_authority_count r;
  cr_revoked_authority_set_sha256 := cr_revoked_authority_set_sha256 r;
  cr_decision := cr_decision r; cr_outcome := cr_outcome r;
  cr_reason_codes := cr_reason_codes r;
  cr_receipt_sha256 := canonical_sha256 (JObj (RuntimeConfigReceipt_body r)) |}.

(** The checks of [execute] that raise; they end with the plan's digest. *)
Definition check_request (operation : RuntimeOperation) (plan : RuntimeConfigPlan) : result string :=
  _ ← RuntimeOperation_validate operation;
  _ ← RuntimeConfigPlan_validate plan;
  _ ← raise_if (negb (String.eqb (ro_kind operation) "runtime.configure")) RuntimeConfigError
        "bound runtime configuration only accepts runtime.configure";
  _ ← raise_if (negb (String.eqb (ro_operation_id operation) (pl_operation_id plan)))
        RuntimeConfigError "operation_id does not match runtime configuration plan";
  scope ← normalized_scope operation;
  _ ← raise_if (negb (py_eq (JList (py_tuple (dict_get_or scope "setting_keys" (JList []))))
                        (jstrs (pl_setting_keys plan))))
        RuntimeConfigError "runtime configuration setting scope must exactly match plan";
  payload ← payload_sha256 plan;
  _ ← raise_if (negb (String.eqb (ro_payload_sha256 operation) payload)) RuntimeConfigError
        "runtime payload is not bound to the configuration plan";
  plan_sha256 plan.

(** The receipt [_finish] builds. *)
Definition receipt_of (operation_id sha before_state after_state : string)
    (epoch_before epoch_after : Z) (mediation_sha host_evidence_sha : string)
    (revoked : list string) (decision outcome : string) (reasons : list string)
    : RuntimeConfigReceipt :=
  seal_receipt {|
    cr_operation_id := operation_id; cr_plan_sha256 := sha;
    cr_before_state_sha256 := before_state; cr_after_state_sha256 := after_state;
    cr_epoch_before := epoch_before; cr_epoch_after := epoch_after;
    cr_mediation_receipt_sha256 := mediation_sha; cr_host_evidence_sha256 := host_evidence_sha;
    cr_revoked_authority_count := Z.of_nat (length revoked);
    cr_revoked_authority_set_sha256 := canonical_sha256 (jstrs revoked);
    cr_decision := decision; cr_outcome := outcome; cr_reason_codes := sorted_set reasons;
    cr_receipt_sha256 := "" |}.

(** [BoundRuntimeConfigBroker(...)]; [first] is what [backend.observe()] answers. *)
Definition BoundRuntimeConfigBroker_init {B G} (mediator : RuntimeMediator B G)
    (first : result dict) (host_binding_sha256 : string) : result (BoundRuntimeConfigBroker B G) :=
  host ← _sha (JStr host_binding_sha256) "host_binding_sha256";
  raw ← first;
  initial ← RuntimeStateEvidence_from_mapping raw host;
  Ok {| rc_mediator := mediator; rc_host_binding_sha256 := host;
        rc_state_sha256 := rs_state_sha256 initial; rc_epoch := 0; rc_tainted := false;
        rc_seen_plans := ∅; rc_receipts := [] |}.

Definition state_document {B G} (self : BoundRuntimeConfigBroker B G) : dict :=
  seal "state_document_sha256"
    [("schema", JStr "liminal-bound-runtime-config-state-v0.1");
     ("epoch", JInt (rc_epoch self)); ("state_sha256", JStr (rc_state_sha256 self));
     ("tainted", JBool (rc_tainted self));
     ("seen_plan_count", JInt (Z.of_nat (size (rc_seen_plans self))));
     ("authority", JObj AUTHORITY)].

Definition receipts {B G} (self : BoundRuntimeConfigBroker B G) : list dict :=
  map RuntimeConfigReceipt_as_document (rc_receipts self).

Definition verify_receipt (document : dict) : result dict :=
  let raw := dict_del document "receipt_sha256" in
  let digest := dict_get_none document "receipt_sha256" in
  _ ← raise_if (negb (envelope_ok raw SCHEMA AUTHORITY)) RuntimeConfigError
        "runtime configuration receipt schema or authority mismatch";
  _ ← map_r (fun key => _sha (dict_get_none raw key) key)
        ["plan_sha256"; "before_state_sha256"; "after_state_sha256"; "mediation_receipt_sha256";
         "host_evidence_sha256"; "revoked_authority_set_sha256"];
  bad ← EpochBroker.not_in_set (dict_get_none raw "decision") ["ALLOW"; "BLOCK"];
  _ ← raise_if bad RuntimeConfigError "unsupported runtime configuration decision";
  bad ← EpochBroker.not_in_set (dict_get_none raw "outcome")
          ["SUCCEEDED"; "NOT_EXECUTED"; "FAILED_CLOSED"];
  _ ← raise_if bad RuntimeConfigError "unsupported runtime configuration outcome";
  let count key := match dict_get_none raw key with
                   | JInt z => if z <? 0 then fail RuntimeConfigError ("invalid " +:+ key) else Ok z
                   | _ => fail RuntimeConfigError ("invalid " +:+ key)
                   end in
  before ← count "epoch_before";
  after ← count "epoch_after";
  _ ← count "revoked_authority_count";
  _ ← raise_if (after <? before) RuntimeConfigError "runtime epoch cannot move backwards";
  _ ← raise_if (negb (is_str digest (canonical_sha256 (JObj raw)))) RuntimeConfigError
        "runtime configuration receipt digest mismatch";
  Ok document.

(** ** Execution *)
Section host.
Context {B G S : Type} {bops : BrokerOps B} {backend : RuntimeConfigBackend S}.
Context {L : Lens S (BoundRuntimeConfigBroker B G)}.

(** The controller held by the host. *)
Definition self_state : M S (BoundRuntimeConfigBroker B G) := fun s => (Ok (lget s), s).

Definition update (f : BoundRuntimeConfigBroker B G -> BoundRuntimeConfigBroker B G) : M S unit :=
  modify (fun s => lput (f (lget s)) s).

(** A call of a method of [self.mediator.broker]. *)
Definition on_mediated_broker {A} (m : M B A) : M S A :=
  on (T := RuntimeMediator B G) (on_broker m).

Definition _observe : M S RuntimeStateEvidence :=
  raw ← backend_observe;
  self ← self_state;
  lift (RuntimeStateEvidence_from_mapping raw (rc_host_binding_sha256 self)).

(** One iteration of the loop of [_advance_epoch]. *)
Definition revoke_item (at_unix : Z) (revoked : list string) (v : json) : M S (list string) :=
  item ← lift (match v with JObj d => Ok d | _ => fail AttributeError "get" end);
  if negb (is_str (dict_get_none item "status") "active") then mret revoked
  else
    id ← lift (dict_item item "capability_id");
    match id with
    | JStr cap_id =>
        r ← on_mediated_broker (op_revoke cap_id at_unix);
        mret (if is_str (dict_get_none r "decision") "ALLOW" then revoked ++ [cap_id] else revoked)
    | _ => raise TypeError "capability_id"
    end.

Definition document_list (doc : dict) : result (list json) :=
  match dict_get_or doc "capabilities" (JList []) with
  | JList l => Ok l
  | _ => fail TypeError "capabilities"
  end.

Definition _advance_epoch (state_sha256 : string) (at_unix : Z) : M S (list string) :=
  _ ← lift (_sha (JStr state_sha256) "state_sha256");
  _ ← update (bump_epoch state_sha256);
  self ← self_state;
  doc ← lift (op_state_document (rm_broker (rc_mediator self)));
  items ← lift (document_list doc);
  revoked ← fold_m (revoke_item at_unix) [] items;
  mret (sorted_str revoked).

Definition _finish (operation : RuntimeOperation) (plan : RuntimeConfigPlan)
    (before_state after_state : string) (epoch_before epoch_after : Z)
    (mediation_sha host_evidence_sha : string) (revoked : list string)
    (decision outcome : string) (reasons : list string) : M S dict :=
  sha ← lift (plan_sha256 plan);
  let receipt := receipt_of (ro_operation_id operation) sha before_state after_state epoch_before
    epoch_after mediation_sha host_evidence_sha revoked decision outcome reasons in
  _ ← update (push_receipt receipt);
  mret (RuntimeConfigReceipt_as_document receipt).

(** The closure [executor]; its variable is [captured.get("after")]. *)
Definition config_executor (plan : RuntimeConfigPlan) (_ : RuntimeOperation)
    : M (S * option RuntimeStateEvidence) exec_result :=
  _ ← outside (backend_apply plan);
  after ← outside _observe;
  _ ← assign (Some after);
  sha ← lift (plan_sha256 plan);
  mret (Observed (ExecutionObservation_success
    [("runtime_config_plan_sha256", JStr sha);
     ("after_state_sha256", JStr (rs_state_sha256 after));
     ("host_evidence_sha256", JStr (rs_evidence_sha256 after))])).

(** [try: self._observe() except Exception: pass]: the observed state and evidence. *)
Definition observe_uncertain : M S (string * string) :=
  try_except
    (uncertain ← _observe; mret (rs_state_sha256 uncertain, rs_evidence_sha256 uncertain))
    (fun _ => mret (ZERO_SHA256, ZERO_SHA256)).

(** How [execute] closes an admitted mutation: the epoch is advanced to the observed
    state, the state is tainted unless the mutation succeeded, the receipt is issued. *)
Definition settle_with (operation : RuntimeOperation) (plan : RuntimeConfigPlan)
    (before_state : string) (before_epoch : Z) (mediation : dict) (state evidence : string)
    (tainted : bool) (decision outcome : string) (reasons : list string) : M S dict :=
  revoked ← _advance_epoch state (ro_at_unix operation);
  _ ← (if tainted then update taint else mret tt);
  self ← self_state;
  msha ← lift (str_item mediation "receipt_sha256");
  _finish operation plan before_state state before_epoch (rc_epoch self) msha evidence revoked
    decision outcome reasons.

(** The part of [execute] after an admitted mutation; [before_state] and [before_epoch]
    are those at the start of the call. *)
Definition settle (operation : RuntimeOperation) (plan : RuntimeConfigPlan)
    (before_state : string) (before_epoch : Z) (mediation : dict)
    (after : option RuntimeStateEvidence) : M S dict :=
  sha ← lift (plan_sha256 plan);
  _ ← update (add_plan sha);
  outcome ← lift (dict_item mediation "execution_outcome");
  match (if is_str outcome "SUCCEEDED" then after else None) with
  | Some after =>
      if String.eqb (rs_state_sha256 after) (pl_after_state_sha256 plan) then
        settle_with operation plan before_state before_epoch mediation (rs_state_sha256 after)
          (rs_evidence_sha256 after) false "ALLOW" "SUCCEEDED"
          ["exact_state_transition"; "runtime_epoch_advanced"; "old_epoch_authority_revoked"]
      else
        settle_with operation plan before_state before_epoch mediation (rs_state_sha256 after)
          (rs_evidence_sha256 after) true "BLOCK" "FAILED_CLOSED"
          ["after_state_mismatch"; "runtime_epoch_advanced"; "old_epoch_authority_revoked";
           "runtime_state_tainted"]
  | None =>
      observed ← observe_uncertain;
      settle_with operation plan before_state before_epoch mediation (fst observed) (snd observed)
        true "BLOCK" "FAILED_CLOSED"
        ["host_mutation_unverified"; "runtime_epoch_advanced"; "old_epoch_authority_revoked";
         "runtime_state_tainted"]
  end.

(** The part of [execute] after the checks that need no observation. *)
Definition execute_checked (operation : RuntimeOperation) (plan : RuntimeConfigPlan)
    (before_state : string) (before_epoch : Z) : M S dict :=
  trusted_before ← _observe;
  self ← self_state;
  if negb (String.eqb (rs_state_sha256 trusted_before) (rc_state_sha256 self))
     || negb (String.eqb (pl_before_state_sha256 plan) (rs_state_sha256 trusted_before))
  then
    _ ← update (set_state (rs_state_sha256 trusted_before));
    _finish operation plan before_state (rs_state_sha256 trusted_before) before_epoch before_epoch
      ZERO_SHA256 (rs_evidence_sha256 trusted_before) [] "BLOCK" "NOT_EXECUTED"
      ["stale_before_state"]
  else
    ran ← with_local None (mediate operation (config_executor plan));
    mediation ← lift (fst ran);
    admission ← lift (dict_item mediation "admission_decision");
    if negb (is_str admission "ALLOW") then
      msha ← lift (str_item mediation "receipt_sha256");
      codes ← lift (codes_item mediation "reason_codes");
      _finish operation plan before_state before_state before_epoch before_epoch msha ZERO_SHA256
        [] "BLOCK" "NOT_EXECUTED" codes
    else settle operation plan before_state before_epoch mediation (snd ran).

Definition execute (operation : RuntimeOperation) (plan : RuntimeConfigPlan) : M S dict :=
  sha ← lift (check_request operation plan);
  self ← self_state;
  let before_epoch := rc_epoch self in
  let before_state := rc_state_sha256 self in
  let block reason :=
    _finish operation plan before_state before_state before_epoch before_epoch ZERO_SHA256
      ZERO_SHA256 [] "BLOCK" "NOT_EXECUTED" [reason] in
  if negb (String.eqb (pl_host_binding_sha256 plan) (rc_host_binding_sha256 self))
  then block "host_binding_mismatch"
  else if rc_tainted self then block "runtime_state_unverified"
  else if bool_decide (sha ∈ rc_seen_plans self) then block "plan_replay"
  else if negb (pl_epoch_before plan =? rc_epoch self) then block "stale_runtime_epoch"
  else execute_checked operation plan before_state before_epoch.
End host.
End config.

(** ** Lemmas *)
Lemma config_sha_ok v name s : _sha v name = Ok s <-> v = JStr s /\ re_sha s = true.
Proof. apply check_sha_ok. Qed.

(** Boolean checks of a successful computation, as facts. *)
Ltac check_inv :=
  py_inv;
  repeat match goal with
  | Hb : _sha (JStr _) _ = Ok _ |- _ => apply (proj1 (config_sha_ok _ _ _)) in Hb as [[= <-] ?]
  | Hb : _sha _ _ = Ok _ |- _ => apply (proj1 (config_sha_ok _ _ _)) in Hb as [? ?]
  | Hb : negb (String.eqb _ _) = false |- _ => apply negb_false_iff, String.eqb_eq in Hb
  | Hb : String.eqb _ _ = false |- _ => apply String.eqb_neq in Hb
  | Hb : (_ <? _) = false |- _ => apply Z.ltb_ge in Hb
  end.

Section plan_lemmas.
Context {hash : Digest}.

Lemma plan_sha_total plan u : RuntimeConfigPlan_validate plan = Ok u ->
  exists sha, plan_sha256 plan = Ok sha /\ re_sha sha = true.
Proof.
  intros Hv. unfold plan_sha256, RuntimeConfigPlan_body. rewrite Hv, !bind_Ok.
  eexists. split; [reflexivity|]. apply canonical_sha256_sha.
Qed.

(** What [plan.validate()] accepts. *)
Record plan_wf (plan : RuntimeConfigPlan) : Prop := {
  pw_before : re_sha (pl_before_state_sha256 plan) = true;
  pw_after : re_sha (pl_after_state_sha256 plan) = true;
  pw_changes : pl_before_state_sha256 plan <> pl_after_state_sha256 plan;
  pw_epoch : 0 <= pl_epoch_before plan
}.

Lemma plan_validate_wf plan u : RuntimeConfigPlan_validate plan = Ok u -> plan_wf plan.
Proof.
  unfold RuntimeConfigPlan_validate. intros Hv. check_inv. by constructor.
Qed.

(** Accepted evidence names the expected host and is sealed by its own digest. *)
Lemma from_mapping_ok raw host e : RuntimeStateEvidence_from_mapping raw host = Ok e ->
  rs_host_binding_sha256 e = host /\ re_sha (rs_state_sha256 e) = true
  /\ rs_evidence_sha256 e = canonical_sha256 (JObj (evidence_body host (rs_state_sha256 e))).
Proof.
  unfold RuntimeStateEvidence_from_mapping. intros Hf. check_inv. by subst.
Qed.

(** The digests, decision, outcome and epochs [verify_receipt] looks at. *)
Record receipt_fields (r : RuntimeConfigReceipt) : Prop := {
  rf_before : re_sha (cr_before_state_sha256 r) = true;
  rf_after : re_sha (cr_after_state_sha256 r) = true;
  rf_mediation : re_sha (cr_mediation_receipt_sha256 r) = true;
  rf_evidence : re_sha (cr_host_evidence_sha256 r) = true;
  rf_decision : cr_decision r ∈ ["ALLOW"; "BLOCK"];
  rf_outcome : cr_outcome r ∈ ["SUCCEEDED"; "NOT_EXECUTED"; "FAILED_CLOSED"];
  rf_epoch : 0 <= cr_epoch_before r <= cr_epoch_after r
}.

Record receipt_good (r : RuntimeConfigReceipt) : Prop := {
  rg_fields : receipt_fields r;
  rg_plan : re_sha (cr_plan_sha256 r) = true;
  rg_set : re_sha (cr_revoked_authority_set_sha256 r) = true;
  rg_count : 0 <= cr_revoked_authority_count r;
  rg_digest : cr_receipt_sha256 r = canonical_sha256 (JObj (RuntimeConfigReceipt_body r))
}.

Lemma receipt_good_verifies r : receipt_good r ->
  verify_receipt (RuntimeConfigReceipt_as_document r) = Ok (RuntimeConfigReceipt_as_document r).
Proof.
  intros [[Hb Ha Hm He Hd Ho Hep] Hp Hs Hc Hdig]. unfold verify_receipt. cbv zeta.
  change (dict_del (RuntimeConfigReceipt_as_document r) "receipt_sha256")
    with (RuntimeConfigReceipt_body r).
  replace (envelope_ok _ SCHEMA AUTHORITY) with true by (by vm_compute). cbn [negb raise_if]. rewrite bind_Ok.
  erewrite (proj2 (map_r_ok _ _ _)), bind_Ok.
  2: { repeat (constructor; [by apply config_sha_ok|]). constructor. }
  assert (forall v l, v ∈ l -> EpochBroker.not_in_set (JStr v) l = Ok false) as Hin.
  { intros v l Hv. unfold EpochBroker.not_in_set. cbn. f_equal. apply negb_false_iff, existsb_exists.
    exists v. split; [by apply list_elem_of_In|apply String.eqb_refl]. }
  change (dict_get_none (RuntimeConfigReceipt_body r) "decision") with (JStr (cr_decision r)).
  change (dict_get_none (RuntimeConfigReceipt_body r) "outcome") with (JStr (cr_outcome r)).
  rewrite (Hin _ _ Hd), (Hin _ _ Ho), !bind_Ok. cbn [raise_if]. rewrite !bind_Ok. cbn.
  rewrite !(proj2 (Z.ltb_ge _ _)) by lia. cbn. rewrite !(proj2 (Z.ltb_ge _ _)) by lia. cbn.
  by rewrite Hdig, String.eqb_refl.
Qed.
End plan_lemmas.

(** *** The controller's state *)
Section controller.
Context {hash : Digest} {B G : Type} {bops : BrokerOps B} {laws : BrokerLaws B}.
Implicit Types c : BoundRuntimeConfigBroker B G.

Definition the_broker c : B := rm_broker (rc_mediator c).

Definition with_broker (b : B) c : BoundRuntimeConfigBroker B G :=
  set_mediator (set_broker b (rc_mediator c)) c.

Lemma with_broker_id c : with_broker (the_broker c) c = c.
Proof. by destruct c as [[]]. Qed.

Record config_inv c : Prop := {
  ci_mediator : mediator_inv (rc_mediator c);
  ci_broker : broker_valid (the_broker c);
  ci_state : re_sha (rc_state_sha256 c) = true;
  ci_epoch : 0 <= rc_epoch c;
  ci_receipts : Forall receipt_good (rc_receipts c)
}.

(** What no call undoes. *)
Record config_grows c c' : Prop := {
  cg_host : rc_host_binding_sha256 c' = rc_host_binding_sha256 c;
  cg_epoch : rc_epoch c <= rc_epoch c';
  cg_tainted : rc_tainted c = true -> rc_tainted c' = true;
  cg_plans : rc_seen_plans c ⊆ rc_seen_plans c';
  cg_receipts : rc_receipts c `prefix_of` rc_receipts c'
}.

Definition config_ok c c' : Prop := config_inv c -> config_inv c' /\ config_grows c c'.

Lemma grows_refl c : config_grows c c.
Proof. by constructor. Qed.

Lemma grows_trans c1 c2 c3 : config_grows c1 c2 -> config_grows c2 c3 -> config_grows c1 c3.
Proof.
  intros [H1 H2 H3 H4 H5] [K1 K2 K3 K4 K5]. constructor; [congruence|lia|auto|set_solver|by etrans].
Qed.

#[export] Instance config_ok_preorder : PreOrder config_ok.
Proof.
  split; [intros c Hc; split; [done|apply grows_refl]|]. intros c1 c2 c3 H12 H23 H1.
  destruct (H12 H1) as [H2 G12]. destruct (H23 H2) as [H3 G23].
  split; [done|]. by eapply grows_trans.
Qed.

Lemma mediator_config m c : mediator_inv m -> broker_valid (rm_broker m) ->
  config_ok c (set_mediator m c).
Proof. intros Hm Hb []. split; [by constructor|by constructor]. Qed.

Lemma with_broker_config b c : no_new_authority (the_broker c) b -> config_ok c (with_broker b c).
Proof.
  intros Hn Hc. apply mediator_config; [|by apply Hn, Hc|done].
  destruct (ci_mediator c Hc). by constructor.
Qed.

Lemma set_state_config st c : re_sha st = true -> config_ok c (set_state st c).
Proof. intros Hst []. split; by constructor. Qed.

Lemma bump_config st c : re_sha st = true -> config_ok c (bump_epoch st c).
Proof. intros Hst []. split; constructor; cbn; try done; lia. Qed.

Lemma taint_config c : config_ok c (taint c).
Proof. intros []. split; by constructor. Qed.

Lemma add_plan_config sha c : config_ok c (add_plan sha c).
Proof. intros []. split; constructor; cbn; try done. set_solver. Qed.

Lemma push_config r c : receipt_good r -> config_ok c (push_receipt r c).
Proof.
  intros Hr []. split; constructor; cbn; try done.
  - apply Forall_app. by split; [|constructor].
  - by eexists.
Qed.
End controller.

Section host_lemmas.
Context {hash : Digest} {B G S : Type} {bops : BrokerOps B} {laws : BrokerLaws B}.
Context {backend : RuntimeConfigBackend S} {L : Lens S (BoundRuntimeConfigBroker B G)}.
Implicit Types s : S.

(** What the host's code must respect: the controller is changed by its own methods. *)
Definition host_config_ok (s s' : S) : Prop := config_ok (lget s) (lget s').

#[export] Instance host_config_preorder : PreOrder host_config_ok.
Proof. split; [intros s; exact (reflexivity (lget s))|]. intros s1 s2 s3 H1 H2. exact (transitivity (R:=config_ok) H1 H2). Qed.

Definition backend_respects : Prop :=
  evolves host_config_ok backend_observe
  /\ forall plan, evolves host_config_ok (backend_apply plan).

Lemma update_ok f : (forall c, config_ok c (f c)) -> evolves host_config_ok (update f).
Proof.
  intros Hf. apply evolves_modify. intros s. unfold host_config_ok. rewrite lget_lput. apply Hf.
Qed.

Lemma self_ok : evolves host_config_ok self_state.
Proof. intros s. reflexivity. Qed.

Lemma on_mediated_run {A} (m : M B A) s : on_mediated_broker m s
  = let '(r, b) := m (the_broker (lget s)) in (r, lput (with_broker b (lget s)) s).
Proof.
  unfold on_mediated_broker. rewrite on_run. unfold on_broker, zoom.
  change (rm_broker (lget s)) with (the_broker (lget s)). by destruct (m _) as [r b].
Qed.

Lemma observe_ok : backend_respects -> evolves host_config_ok _observe.
Proof.
  intros [Ho _]. apply evolves_bind; [typeclasses eauto|exact Ho|intros raw].
  apply evolves_bind; [typeclasses eauto|apply self_ok|intros self]. evolve_step.
Qed.

Definition evidence_good (e : RuntimeStateEvidence) : Prop :=
  re_sha (rs_state_sha256 e) = true /\ re_sha (rs_evidence_sha256 e) = true.

Lemma observe_returns : returns evidence_good _observe.
Proof.
  do 2 (apply returns_bind; intros ?). apply returns_lift. intros e He.
  apply from_mapping_ok in He as (_ & Hst & Hev). split; [done|].
  rewrite Hev. apply canonical_sha256_sha.
Qed.

(** Revoking the listed capabilities changes only the broker, and leaves none of those
    listed as active so. *)
Lemma revoke_items_run at_unix items acc s :
  Forall (fun item => exists id status, lists id status item) items ->
  broker_valid (the_broker (lget s)) ->
  exists r b, fold_m (revoke_item at_unix) acc (map JObj items) s = (r, lput (with_broker b (lget s)) s)
    /\ no_new_authority (the_broker (lget s)) b
    /\ forall l, r = Ok l -> forall id, Exists (lists id "active") items -> ~ capability_active b id.
Proof.
  intros Hl. revert acc s. induction Hl as [|item items (id & st & Hid & Hst) _ IH]; intros acc s Hv.
  - exists (Ok acc), (the_broker (lget s)). cbn. rewrite with_broker_id, lput_lget. split_and!; [done|done|].
    intros l _ id Hx. inversion Hx.
  - cbn [map fold_m]. rewrite M_bind_eq. unfold revoke_item at 1. rewrite M_lift.
    unfold dict_get_none, dict_get_or. rewrite Hst. cbn [is_str].
    destruct (String.eqb_spec st "active") as [->|Hne]; cbn [negb].
    + rewrite M_lift. rewrite (proj2 (dict_item_ok item "capability_id" (JStr id)) Hid), M_bind_eq, on_mediated_run.
      pose proof (law_revoke id at_unix (the_broker (lget s)) Hv) as [Hv1 Hn1].
      destruct (op_revoke id at_unix (the_broker (lget s))) as [[doc|e] b1] eqn:Hr; cbn [snd] in Hv1, Hn1.
      2: { exists (Err e), b1. by split_and!. }
      match goal with |- context [mret ?a _] =>
        destruct (IH a (lput (with_broker b1 (lget s)) s)) as (r & b & Hrun & Hn & Hd) end.
      { by rewrite lget_lput. }
      rewrite lget_lput in Hrun, Hn. rewrite lput_lput in Hrun. exists r, b. split_and!; [exact Hrun| |].
      { intros _. destruct (Hn Hv1) as [Hv2 Hn2]. split; [done|]. auto. }
      intros l Hok id' Hx. inversion Hx as [? ? [Hid' _]|]; subst; [|by eapply Hd].
      rewrite Hid in Hid'. injection Hid' as <-. destruct (Hn Hv1) as [_ Hn2]. intros Ha.
      by apply (law_revoke_inactive id at_unix _ doc b1 Hv Hr), Hn2.
    + destruct (IH acc s Hv) as (r & b & Hrun & Hn & Hd). exists r, b. split_and!; [exact Hrun|done|].
      intros l Hok id' Hx. inversion Hx as [? ? [_ Hst']|]; subst; [|by eapply Hd].
      rewrite Hst in Hst'. by injection Hst' as ->.
Qed.

Lemma document_list_ok doc items : capability_items doc = Ok items ->
  document_list doc = Ok (map JObj items).
Proof.
  unfold capability_items, document_list. destruct (dict_get_or _ _ _) as [| | | |l|]; try done.
  intros Hl%map_r_ok. f_equal. induction Hl as [|v d l l' Hv _ IH]; [done|]. cbn. rewrite IH.
  destruct v; try done. by injection Hv as ->.
Qed.

(** Advancing the epoch: the new state is recorded, and if the call returns no
    capability is active any more. *)
Lemma advance_run st at_unix s : re_sha st = true -> broker_valid (the_broker (lget s)) ->
  exists r b, _advance_epoch st at_unix s = (r, lput (with_broker b (bump_epoch st (lget s))) s)
    /\ no_new_authority (the_broker (lget s)) b
    /\ forall l, r = Ok l -> forall id, ~ capability_active b id.
Proof.
  intros Hst Hv. unfold _advance_epoch. rewrite M_lift, (proj2 (config_sha_ok _ _ st)) by done.
  set (s1 := lput (bump_epoch st (lget s)) s).
  assert (lput (with_broker (the_broker (lget s)) (bump_epoch st (lget s))) s = s1) as Hs1
    by (f_equal; by destruct (lget s) as [[]]).
  unfold update, self_state. rewrite M_modify. fold s1. rewrite M_bind_eq, M_lift.
  assert (lget s1 = bump_epoch st (lget s)) as Hg by apply lget_lput. rewrite Hg.
  destruct (op_state_document _) as [doc|e] eqn:Hd.
  2: { exists (Err e), (the_broker (lget s)). rewrite Hs1. by split_and!. }
  destruct (law_document _ doc Hv Hd) as (items & Hi & Hl & Ha). rewrite M_lift, (document_list_ok _ _ Hi).
  rewrite M_bind_eq. destruct (revoke_items_run at_unix items [] s1 Hl) as (r & b & Hrun & Hn & Hno).
  { by rewrite Hg. }
  rewrite Hrun. exists (sorted_str <$> r), b. rewrite Hg in *. unfold s1. rewrite lput_lput.
  split_and!; [by destruct r|exact Hn|]. intros l Hok id Hact. destruct r as [l'|]; [|done].
  eapply Hno; [done| |exact Hact]. apply Ha. by apply Hn.
Qed.
(** *** Receipts *)
Lemma finish_run op plan bs st be ae msha esha rv dec out rs sha s : plan_sha256 plan = Ok sha ->
  let r := receipt_of (ro_operation_id op) sha bs st be ae msha esha rv dec out rs in
  _finish op plan bs st be ae msha esha rv dec out rs s
  = (Ok (RuntimeConfigReceipt_as_document r), lput (push_receipt r (lget s)) s).
Proof. intros Hp. unfold _finish. by rewrite M_lift, Hp. Qed.

Lemma receipt_of_good oid sha bs st be ae msha esha rv dec out rs :
  re_sha sha = true -> re_sha bs = true -> re_sha st = true -> re_sha msha = true ->
  re_sha esha = true -> 0 <= be <= ae -> dec ∈ ["ALLOW"; "BLOCK"] ->
  out ∈ ["SUCCEEDED"; "NOT_EXECUTED"; "FAILED_CLOSED"] ->
  receipt_good (receipt_of oid sha bs st be ae msha esha rv dec out rs).
Proof.
  intros. constructor; [by constructor|done|apply canonical_sha256_sha|cbn; lia|done].
Qed.

Lemma mediation_receipt doc : mediation_doc doc ->
  exists msha, str_item doc "receipt_sha256" = Ok msha /\ re_sha msha = true.
Proof. intros (r & -> & Hr). by exists (mr_receipt_sha256 r). Qed.

(** What a settled mutation leaves behind. *)
Definition settled (c0 : BoundRuntimeConfigBroker B G) (plan : RuntimeConfigPlan) (sha : string)
    (doc : dict) (c : BoundRuntimeConfigBroker B G) : Prop :=
  rc_epoch c0 < rc_epoch c /\ sha ∈ rc_seen_plans c /\ (forall id, ~ capability_active (the_broker c) id)
  /\ ((dict_get doc "outcome" = Some (JStr "SUCCEEDED") /\ rc_state_sha256 c = pl_after_state_sha256 plan)
      \/ (dict_get doc "outcome" = Some (JStr "FAILED_CLOSED") /\ rc_tainted c = true)).

Lemma settle_with_run op plan bs be med st ev (t : bool) dec out rs sha s :
  plan_sha256 plan = Ok sha -> re_sha sha = true -> mediation_doc med -> re_sha bs = true ->
  re_sha st = true -> re_sha ev = true -> dec ∈ ["ALLOW"; "BLOCK"] ->
  out ∈ ["SUCCEEDED"; "NOT_EXECUTED"; "FAILED_CLOSED"] -> config_inv (lget s) ->
  0 <= be <= rc_epoch (lget s) ->
  exists r c, settle_with op plan bs be med st ev t dec out rs s = (r, lput c s)
    /\ config_ok (lget s) c
    /\ forall doc, r = Ok doc -> dict_get doc "outcome" = Some (JStr out)
       /\ rc_epoch c = rc_epoch (lget s) + 1 /\ rc_state_sha256 c = st
       /\ (t = true -> rc_tainted c = true) /\ rc_seen_plans c = rc_seen_plans (lget s)
       /\ forall id, ~ capability_active (the_broker c) id.
Proof.
  intros Hp Hsha Hmed Hbs Hst Hev Hdec Hout Hinv Hbe. unfold settle_with. rewrite M_bind_eq.
  destruct (advance_run st (ro_at_unix op) s Hst (ci_broker _ Hinv)) as (r & b & Hrun & Hn & Hno).
  rewrite Hrun. set (c1 := with_broker b (bump_epoch st (lget s))) in *.
  assert (config_ok (lget s) c1) as Hc1.
  { transitivity (bump_epoch st (lget s)); [by apply bump_config|by apply with_broker_config]. }
  destruct r as [rv|e]; [|by exists (Err e), c1].
  set (c2 := if t then taint c1 else c1).
  assert (config_ok (lget s) c2) as Hc2.
  { transitivity c1; [done|]. unfold c2. destruct t; [apply taint_config|done]. }
  rewrite M_bind_eq.
  assert ((if t then update taint else mret tt) (lput c1 s) = (Ok tt, lput c2 s)) as ->.
  { unfold c2. destruct t; [|done]. unfold update, modify. by rewrite lget_lput, lput_lput. }
  rewrite M_bind_eq. cbn [self_state]. rewrite lget_lput, M_lift.
  destruct (mediation_receipt med Hmed) as (msha & -> & Hmsha).
  rewrite (finish_run _ _ _ _ _ _ _ _ _ _ _ _ sha) by done. rewrite lget_lput, lput_lput.
  eexists _, _. split; [reflexivity|]. split.
  - transitivity c2; [exact Hc2|]. apply push_config, receipt_of_good; try done.
    unfold c2. destruct t; cbn; lia.
  - intros doc [= <-]. unfold c2. split_and!; try (by destruct t); try done.
    intros id. destruct t; by apply (Hno rv).
Qed.
(** *** Executions *)
Definition stable (c0 : BoundRuntimeConfigBroker B G) (s : S) : Prop :=
  config_inv (lget s) /\ config_grows c0 (lget s).

Lemma stable_self s : config_inv (lget s) -> stable (lget s) s.
Proof. split; [done|apply grows_refl]. Qed.

Lemma stable_trans c0 c1 s : config_grows c0 c1 -> stable c1 s -> stable c0 s.
Proof. intros Hg [Hi Hs]. split; [done|]. by eapply grows_trans. Qed.

Lemma stable_ok c0 s s' : stable c0 s -> host_config_ok s s' -> stable c0 s'.
Proof. intros [Hi Hg] Hok. destruct (Hok Hi) as [Hi' Hg']. split; [done|]. by eapply grows_trans. Qed.

Lemma stable_bind {A C} c0 (m : M S A) (Φ : A -> Prop) (f : A -> M S C) Q :
  evolves host_config_ok m -> returns Φ m ->
  (forall a, Φ a -> hoare (stable c0) (f a) Q (fun _ => stable c0)) ->
  hoare (stable c0) (m ≫= f) Q (fun _ => stable c0).
Proof.
  intros Hm HΦ Hf s Hs. rewrite M_bind_eq. specialize (Hm s). specialize (HΦ s).
  destruct (m s) as [[a|e] s']; cbn in *.
  - apply (Hf a); [by eapply HΦ|]. by eapply stable_ok.
  - by eapply stable_ok.
Qed.

(** The plan is among those seen and nothing of [c0] was undone. *)
Lemma stable_add_plan sha c0 s :
  stable (add_plan sha c0) s <-> stable c0 s /\ sha ∈ rc_seen_plans (lget s).
Proof.
  split.
  - intros [Hi [H1 H2 H3 H4 H5]]. cbn in *. split; [|set_solver]. split; [done|].
    constructor; try done. set_solver.
  - intros [[Hi [H1 H2 H3 H4 H5]] Hsha]. split; [done|]. constructor; try done. cbn. set_solver.
Qed.

Lemma settle_with_ok c0 op plan med st ev (t : bool) dec out rs sha :
  plan_sha256 plan = Ok sha -> re_sha sha = true -> mediation_doc med -> re_sha st = true ->
  re_sha ev = true -> dec ∈ ["ALLOW"; "BLOCK"] -> config_inv c0 ->
  (out = "SUCCEEDED" /\ st = pl_after_state_sha256 plan \/ out = "FAILED_CLOSED" /\ t = true) ->
  hoare (stable (add_plan sha c0))
    (settle_with op plan (rc_state_sha256 c0) (rc_epoch c0) med st ev t dec out rs)
    (fun doc s => stable (add_plan sha c0) s /\ settled c0 plan sha doc (lget s))
    (fun _ => stable (add_plan sha c0)).
Proof.
  intros Hp Hsha Hmed Hst Hev Hdec Hc0 Hcase s Hs.
  destruct Hs as [Hi Hg] eqn:E. clear E.
  destruct (settle_with_run op plan (rc_state_sha256 c0) (rc_epoch c0) med st ev t dec out rs sha s)
    as (r & c & -> & Hok & Hr); try done.
  - apply Hc0.
  - destruct Hcase as [[-> _]|[-> _]]; set_solver.
  - split; [apply Hc0|apply (cg_epoch _ _ Hg)].
  - assert (stable (add_plan sha c0) (lput c s)) as Hfin.
    { apply (stable_ok _ s); [done|]. unfold host_config_ok. by rewrite lget_lput. }
    destruct r as [doc|e]; [|done]. split; [done|].
    apply stable_add_plan in Hfin as [_ Hseen]. rewrite lget_lput in *.
    destruct (Hr doc eq_refl) as (Hout & Hep & Hstate & Ht & Hplans & Hno).
    pose proof (cg_epoch _ _ Hg) as Hge. cbn in Hge. split_and!; [lia|done|exact Hno|].
    destruct Hcase as [[-> ->]|[-> ->]]; [by left|right; auto].
Qed.

Lemma observe_uncertain_ok : backend_respects -> evolves host_config_ok observe_uncertain.
Proof.
  intros Hb. apply evolves_try; [typeclasses eauto| |intros e; evolve_step].
  apply evolves_bind; [typeclasses eauto|by apply observe_ok|intros e; evolve_step].
Qed.

Lemma observe_uncertain_returns :
  returns (fun p => re_sha (fst p) = true /\ re_sha (snd p) = true) observe_uncertain.
Proof.
  intros s p s'. unfold observe_uncertain, try_except. rewrite M_bind_eq.
  destruct (_observe s) as [[e|e] s1] eqn:E; intros [= <- _]; [|by split].
  by apply observe_returns in E.
Qed.

Definition good_local (o : option RuntimeStateEvidence) : Prop :=
  forall e, o = Some e -> evidence_good e.

Lemma settle_ok c0 op plan med after sha :
  backend_respects -> plan_sha256 plan = Ok sha -> re_sha sha = true -> mediation_doc med ->
  good_local after -> config_inv c0 ->
  hoare (stable c0) (settle op plan (rc_state_sha256 c0) (rc_epoch c0) med after)
    (fun doc s => stable (add_plan sha c0) s /\ settled c0 plan sha doc (lget s))
    (fun _ => stable (add_plan sha c0)).
Proof.
  intros Hb Hp Hsha Hmed Hafter Hc0 s Hs. unfold settle. rewrite M_lift, Hp. unfold update.
  rewrite M_modify. assert (stable (add_plan sha c0) (lput (add_plan sha (lget s)) s)) as Hs1.
  { apply stable_add_plan. split; [|rewrite lget_lput; cbn; set_solver].
    apply (stable_ok c0 s); [done|]. unfold host_config_ok. rewrite lget_lput. apply add_plan_config. }
  revert Hs1. generalize (lput (add_plan sha (lget s)) s). clear s Hs. intros s Hs.
  rewrite M_lift. destruct (dict_item _ _) as [outcome|e]; [|done].
  destruct (if is_str outcome "SUCCEEDED" then after else None) as [a|] eqn:Ha.
  - destruct (Hafter a) as [Hst Hev]; [by destruct (is_str _ _)|].
    destruct (String.eqb_spec (rs_state_sha256 a) (pl_after_state_sha256 plan)) as [Heq|Hne];
      apply (settle_with_ok c0); first [done|by left|by right|set_solver].
  - eapply stable_bind; [by apply observe_uncertain_ok|apply observe_uncertain_returns| |exact Hs].
    intros p [Hst Hev]. apply settle_with_ok; first [done|by right|set_solver].
Qed.
(** *** The mediated call *)
Definition local_rel (p p' : S * option RuntimeStateEvidence) : Prop :=
  host_config_ok (fst p) (fst p') /\ (good_local (snd p) -> good_local (snd p')).

#[local] Instance local_rel_preorder : PreOrder local_rel.
Proof.
  split.
  - intros p. split; [exact (reflexivity (R:=host_config_ok) (fst p))|done].
  - intros p1 p2 p3 [H12 G12] [H23 G23]. split; [|by auto].
    exact (transitivity (R:=host_config_ok) H12 H23).
Qed.

Lemma outside_local {A} (m : M S A) : evolves host_config_ok m -> evolves local_rel (outside m).
Proof.
  intros Hm [s w]. specialize (Hm s). unfold outside. cbn. destruct (m s) as [r s']. by split.
Qed.

(** A method of the mediator that keeps its logs and its broker in order. *)
Lemma on_mediator_local {A} (m : M (RuntimeMediator B G) A) :
  (forall md, mediator_inv md -> broker_valid (rm_broker md) ->
     mediator_inv (snd (m md)) /\ broker_valid (rm_broker (snd (m md)))) ->
  evolves local_rel (on m).
Proof.
  intros Hm [s w]. rewrite on_run. cbn.
  pose proof (Hm (rc_mediator (lget s))) as Hok. destruct (m _) as [r md]. cbn in *.
  split; [|done]. intros Hi. unfold host_config_ok. cbn. rewrite lget_lput.
  destruct Hok as [H1 H2]; [apply Hi|apply Hi|]. by apply mediator_config.
Qed.

Lemma finish_local op csha adm out rsha rs cid ssha ov :
  evolves local_rel (on (Mediation._finish op csha adm out rsha rs cid ssha ov)).
Proof.
  apply on_mediator_local. intros md Hm Hb.
  by destruct (finish_cases op csha adm out rsha rs cid ssha ov md) as [[x ->]|(e & r & -> & _ & _ & Hok)];
    [|split; [apply Hok|]].
Qed.

Lemma request_local op scope : evolves local_rel (request_capability op scope).
Proof.
  unfold request_capability. apply evolves_bind; [typeclasses eauto|evolve_step|intros ct].
  apply on_mediator_local. intros md Hm Hb. unfold on_broker, zoom.
  pose proof (law_authorize (ro_subject_id op) ct (ro_policy_sha256 op) scope
    (action_document op (canonical_sha256 (JObj scope))) (ro_at_unix op) None None (rm_broker md) Hb)
    as [Hb' _].
  destruct (op_authorize _ _ _ _ _ _ _ _ _) as [r b']. split; [|exact Hb'].
  destruct Hm. by constructor.
Qed.

Lemma executor_local plan op : backend_respects -> evolves local_rel (config_executor plan op).
Proof.
  intros Hb. unfold config_executor.
  apply evolves_bind; [typeclasses eauto|by apply outside_local, Hb|intros _].
  intros p. rewrite M_bind_eq. pose proof (outside_local _ (observe_ok Hb) p) as Ho.
  destruct (outside _observe p) as [[after|e] p1] eqn:E; [|exact Ho]. cbn in Ho.
  assert (evidence_good after) as Ha.
  { unfold outside in E. destruct (_observe (fst p)) as [r s1] eqn:E1. injection E as -> _.
    by eapply observe_returns. }
  etransitivity; [exact Ho|]. rewrite M_bind_eq. cbn [assign]. rewrite M_lift.
  destruct (plan_sha256 plan); (split; [exact (reflexivity (R:=host_config_ok) _)|]); by intros _ ? [= <-].
Qed.

Lemma mediated_local op plan : backend_respects ->
  evolves local_rel (mediate op (config_executor plan)).
Proof.
  intros Hb. apply mediate_rel; [typeclasses eauto|apply finish_local|apply request_local|].
  by apply executor_local.
Qed.

Lemma mediated_ok op plan : backend_respects ->
  evolves host_config_ok (with_local None (mediate op (config_executor plan))).
Proof.
  intros Hb. apply evolves_with_local. eapply evolves_weaken; [by apply mediated_local|].
  by intros p p' [Hok _].
Qed.

Lemma mediated_returns op plan : backend_respects ->
  returns (fun ran => (forall d, fst ran = Ok d -> mediation_doc d) /\ good_local (snd ran))
    (with_local None (mediate op (config_executor plan))).
Proof.
  intros Hb s ran s'. unfold with_local. pose proof (mediated_local op plan Hb (s, None)) as [_ Hl].
  destruct (mediate op (config_executor plan) (s, None)) as [r [s1 w]] eqn:E. intros [= <- _]. split; cbn.
  - intros d ->. exact (mediate_returns op (config_executor plan) _ _ _ E).
  - by apply Hl.
Qed.
(** *** The whole execution *)
Definition not_executed (doc : dict) : Prop :=
  dict_get doc "outcome" = Some (JStr "NOT_EXECUTED")
  /\ dict_get doc "decision" = Some (JStr "BLOCK").

(** The receipt says that nothing was executed, or the mutation is settled. *)
Definition concluded c0 plan sha (doc : dict) (s : S) : Prop :=
  stable c0 s /\ (not_executed doc \/ settled c0 plan sha doc (lget s)).

Lemma not_executed_ok c0 op plan bs st be msha esha rs sha :
  plan_sha256 plan = Ok sha -> re_sha sha = true -> re_sha bs = true -> re_sha st = true ->
  re_sha msha = true -> re_sha esha = true -> 0 <= be ->
  hoare (stable c0) (_finish op plan bs st be be msha esha [] "BLOCK" "NOT_EXECUTED" rs)
    (concluded c0 plan sha) (fun _ => stable c0).
Proof.
  intros Hp Hsha Hbs Hst Hm He Hbe s Hs. rewrite (finish_run _ _ _ _ _ _ _ _ _ _ _ _ sha) by done.
  split; [|by left]. apply (stable_ok c0 s); [done|]. unfold host_config_ok. rewrite lget_lput.
  apply push_config, receipt_of_good; try done; first [lia|set_solver].
Qed.

Lemma stable_lift {A C} c0 (r : result A) (f : A -> M S C) Q :
  (forall a, r = Ok a -> hoare (stable c0) (f a) Q (fun _ => stable c0)) ->
  hoare (stable c0) (lift r ≫= f) Q (fun _ => stable c0).
Proof. intros Hf. by apply hoare_lift_bind. Qed.

Lemma mediation_sha doc msha : mediation_doc doc -> str_item doc "receipt_sha256" = Ok msha ->
  re_sha msha = true.
Proof. intros Hd Hm. destruct (mediation_receipt doc Hd) as (m & Hm' & Hok). congruence. Qed.

Lemma stable_set_state c0 st : re_sha st = true ->
  hoare (stable c0) (update (set_state st)) (fun _ => stable c0) (fun _ => stable c0).
Proof.
  intros Hst s Hs. cbn. apply (stable_ok c0 s); [done|]. unfold host_config_ok.
  rewrite lget_lput. by apply set_state_config.
Qed.

Lemma execute_checked_ok c0 op plan sha : backend_respects -> plan_sha256 plan = Ok sha ->
  re_sha sha = true -> config_inv c0 ->
  hoare (stable c0) (execute_checked op plan (rc_state_sha256 c0) (rc_epoch c0))
    (concluded c0 plan sha) (fun _ => stable c0).
Proof.
  intros Hb Hp Hsha Hc0. pose proof (ci_state _ Hc0) as Hst0. pose proof (ci_epoch _ Hc0) as He0.
  unfold execute_checked.
  eapply stable_bind; [by apply observe_ok|apply observe_returns|]. intros before [Hst Hev].
  eapply (stable_bind _ _ (fun _ => True)); [apply self_ok|done|]. intros self _.
  destruct (_ || _).
  - apply (hoare_bind _ _ _ (fun _ => stable c0)); [by apply stable_set_state|]. intros u. by apply not_executed_ok.
  - eapply stable_bind; [by apply mediated_ok|by apply mediated_returns|]. intros ran [Hd Hl].
    apply stable_lift. intros med Hmed. apply Hd in Hmed. apply stable_lift. intros adm _.
    destruct (negb _).
    + apply stable_lift. intros msha Hm. apply stable_lift. intros codes _.
      apply not_executed_ok; try done. by eapply mediation_sha.
    + eapply hoare_consequence; [by apply settle_ok|done| |].
      * intros doc s [Hs Hset]. apply stable_add_plan in Hs as [Hs _]. split; [done|by right].
      * intros e s Hs. by apply stable_add_plan in Hs as [Hs _].
Qed.

(** What [execute] does with a bound request. *)
Definition execute_bound (op : RuntimeOperation) (plan : RuntimeConfigPlan) (sha : string) (s : S)
    : result dict * S :=
  let c := lget s in
  let block reason := _finish op plan (rc_state_sha256 c) (rc_state_sha256 c) (rc_epoch c) (rc_epoch c)
    ZERO_SHA256 ZERO_SHA256 [] "BLOCK" "NOT_EXECUTED" [reason] s in
  if negb (String.eqb (pl_host_binding_sha256 plan) (rc_host_binding_sha256 c))
  then block "host_binding_mismatch"
  else if rc_tainted c then block "runtime_state_unverified"
  else if bool_decide (sha ∈ rc_seen_plans c) then block "plan_replay"
  else if negb (pl_epoch_before plan =? rc_epoch c) then block "stale_runtime_epoch"
  else execute_checked op plan (rc_state_sha256 c) (rc_epoch c) s.

Lemma execute_run op plan s : execute op plan s = match check_request op plan with
  | Ok sha => execute_bound op plan sha s
  | Err e => (Err e, s)
  end.
Proof.
  unfold execute. rewrite M_lift. destruct (check_request op plan) as [sha|e]; [|done].
  rewrite M_bind_eq. cbn [self_state]. cbv zeta. unfold execute_bound. cbv zeta.
  repeat (case_match; [done|]). done.
Qed.

Lemma check_request_plan op plan sha : check_request op plan = Ok sha ->
  (exists u, RuntimeOperation_validate op = Ok u) /\ plan_wf plan
  /\ plan_sha256 plan = Ok sha /\ re_sha sha = true.
Proof.
  unfold check_request. intros Hc. py_inv. split_and!; try done; [by eexists|by eapply plan_validate_wf|].
  match goal with Hv : RuntimeConfigPlan_validate plan = Ok _ |- _ =>
    destruct (plan_sha_total plan _ Hv) as (sha' & Hsha & Hok) end. congruence.
Qed.

Lemma execute_ok c0 op plan sha : backend_respects -> check_request op plan = Ok sha -> config_inv c0 ->
  hoare (fun s => lget s = c0) (execute op plan) (concluded c0 plan sha) (fun _ => stable c0).
Proof.
  intros Hb Hreq Hc0 s Hs. rewrite execute_run, Hreq. unfold execute_bound. cbv zeta. rewrite Hs.
  destruct (check_request_plan op plan sha Hreq) as (_ & _ & Hp & Hsha).
  assert (stable c0 s) as Hst by (rewrite <- Hs; apply stable_self; by rewrite Hs).
  pose proof (ci_state _ Hc0) as Hst0. pose proof (ci_epoch _ Hc0) as He0.
  repeat match goal with |- match (if ?b then _ else _) with _ => _ end =>
    destruct b; [by apply (not_executed_ok c0)|] end. by apply (execute_checked_ok c0).
Qed.

(** Every call keeps the invariant and undoes nothing, whatever its outcome. *)
Lemma execute_evolves op plan : backend_respects -> evolves host_config_ok (execute op plan).
Proof.
  intros Hb s Hi. destruct (check_request op plan) as [sha|e] eqn:Hreq.
  - pose proof (execute_ok (lget s) op plan sha Hb Hreq Hi s eq_refl) as Hok.
    destruct (execute op plan s) as [[doc|e] s']; [destruct Hok as [Hok _]|]; by destruct Hok.
  - rewrite execute_run, Hreq. split; [done|apply grows_refl].
Qed.

(** An admitted mediated call returns its receipt. *)
Lemma admitted_returns op plan s : backend_respects -> config_inv (lget s) ->
  admitted op (s, None : option RuntimeStateEvidence) ->
  exists d s' w, mediate op (config_executor plan) (s, None) = (Ok d, (s', w))
    /\ dict_get d "admission_decision" = Some (JStr "ALLOW").
Proof.
  intros Hb Hi Hadm. destruct Hadm as (Hc & u & scope & cap & s1 & Hv & Hs & Hr & Hd).
  destruct (mediate_total_lemma op (config_executor plan) (s, None) u Hv) as (d & [s' w] & adm & out & Hrun & Ha & _ & Hiff & _).
  - apply (ci_mediator _ Hi).
  - intros sc cap' p Hr' _. pose proof (request_local op sc (s, None)) as [H1 _]. rewrite Hr' in H1.
    pose proof (executor_local plan op Hb p) as [H2 _].
    apply (ci_mediator (lget (fst (snd (config_executor plan op p))))). by apply H2, H1.
  - intros _ sc Hs'. rewrite Hs in Hs'. injection Hs' as <-. by exists cap, s1.
  - exists d, s', w. split; [done|]. rewrite Ha. do 2 f_equal. apply Hiff. split; [done|].
    by exists u, scope, cap, s1.
Qed.
End host_lemmas.

(** *** At most one application of a plan *)
Section backends.
Context {hash : Digest} {B G S : Type} {bops : BrokerOps B} {laws : BrokerLaws B}.
Context {L : Lens S (BoundRuntimeConfigBroker B G)}.
Implicit Types (obs : M S dict) (app : RuntimeConfigPlan -> M S unit).

Definition backend_of obs app : RuntimeConfigBackend S :=
  {| backend_observe := obs; backend_apply := app |}.

(** The guard of [execute_checked] that finds the observed state stale. *)
Definition stale_before (plan : RuntimeConfigPlan) (before : RuntimeStateEvidence)
    (c : BoundRuntimeConfigBroker B G) : bool :=
  negb (String.eqb (rs_state_sha256 before) (rc_state_sha256 c))
  || negb (String.eqb (pl_before_state_sha256 plan) (rs_state_sha256 before)).

(** Until the mutation is admitted the backend's [apply] is not called. *)
Lemma checked_cases obs app app' op plan bs be s :
  @execute_checked _ _ _ _ _ (backend_of obs app) _ op plan bs be s
  = @execute_checked _ _ _ _ _ (backend_of obs app') _ op plan bs be s
  \/ exists before s1, @_observe _ _ _ _ (backend_of obs app) _ s = (Ok before, s1)
     /\ stale_before plan before (lget s1) = false
     /\ admitted op (s1, None : option RuntimeStateEvidence).
Proof.
  unfold execute_checked. rewrite !M_bind_eq.
  change (@_observe _ _ _ _ (backend_of obs app') _ s) with (@_observe _ _ _ _ (backend_of obs app) _ s).
  destruct (@_observe _ _ _ _ (backend_of obs app) _ s) as [[before|e] s1] eqn:Ho; [|by left].
  rewrite !M_bind_eq. cbn [self_state].
  change (negb _ || negb _) with (stale_before plan before (lget s1)).
  destruct (stale_before plan before (lget s1)) eqn:Hst; [by left|].
  destruct (admitted_dec op (s1, None : option RuntimeStateEvidence)) as [Hadm|Hn];
    [right; by exists before, s1|left].
  rewrite !M_bind_eq. unfold with_local. destruct (not_admitted_blocked op (s1, None) Hn) as [Hsame Hblocked].
  rewrite (Hsame _ (@config_executor _ _ _ _ (backend_of obs app') _ plan)).
  destruct (mediate op _ (s1, None)) as [r [s2 w]] eqn:E. rewrite !M_lift. cbn [fst snd].
  destruct r as [d|e]; [|done]. apply Hblocked in E as [Ha _].
  rewrite !M_lift, (proj2 (dict_item_ok _ _ _) Ha). reflexivity.
Qed.

(** Once admitted, the plan is consumed, however the call ends. *)
Lemma admitted_consumes {backend : RuntimeConfigBackend S} c0 op plan sha s before s1 :
  backend_respects -> plan_sha256 plan = Ok sha -> re_sha sha = true -> config_inv c0 -> stable c0 s ->
  _observe s = (Ok before, s1) -> stale_before plan before (lget s1) = false ->
  admitted op (s1, None : option RuntimeStateEvidence) ->
  sha ∈ rc_seen_plans (lget (snd (execute_checked op plan (rc_state_sha256 c0) (rc_epoch c0) s))).
Proof.
  intros Hb Hp Hsha Hc0 Hs Ho Hst Hadm. unfold execute_checked. rewrite M_bind_eq, Ho, M_bind_eq.
  cbn [self_state]. change (negb _ || negb _) with (stale_before plan before (lget s1)). rewrite Hst.
  assert (stable c0 s1) as Hs1.
  { apply (stable_ok c0 s); [done|]. pose proof (observe_ok Hb s) as Hok. by rewrite Ho in Hok. }
  destruct (admitted_returns op plan s1 Hb (proj1 Hs1) Hadm) as (d & s2 & w & Hrun & Ha).
  assert (with_local None (mediate op (config_executor plan)) s1 = (Ok (Ok d, w), s2)) as Hw
    by (unfold with_local; by rewrite Hrun).
  destruct (mediated_returns op plan Hb s1 _ _ Hw) as [Hd Hl].
  assert (stable c0 s2) as Hs2.
  { apply (stable_ok c0 s1); [done|]. pose proof (mediated_ok op plan Hb s1) as Hok. by rewrite Hw in Hok. }
  rewrite M_bind_eq, Hw, M_lift. cbn [fst snd]. rewrite M_lift, (proj2 (dict_item_ok _ _ _) Ha).
  cbn [is_str]. rewrite String.eqb_refl. cbn [negb].
  pose proof (settle_ok c0 op plan d w sha Hb Hp Hsha (Hd d eq_refl) Hl Hc0 s2 Hs2) as Hset.
  destruct (settle _ _ _ _ _ _ _) as [[doc|e] s3]; [destruct Hset as [Hset _]|];
    apply (proj1 (stable_add_plan _ _ _)) in Hset as [_ Hin]; exact Hin.
Qed.

Lemma consumed_or_unapplied obs app app' op plan sha s :
  @backend_respects _ _ _ _ _ _ (backend_of obs app) L ->
  check_request op plan = Ok sha -> config_inv (lget s) ->
  sha ∈ rc_seen_plans (lget (snd (@execute _ _ _ _ _ (backend_of obs app) _ op plan s)))
  \/ @execute _ _ _ _ _ (backend_of obs app) _ op plan s
     = @execute _ _ _ _ _ (backend_of obs app') _ op plan s.
Proof.
  intros Hb Hreq Hi. destruct (check_request_plan op plan sha Hreq) as (_ & _ & Hp & Hsha).
  rewrite !execute_run, Hreq. unfold execute_bound. cbv zeta.
  repeat match goal with |- context [if ?b then _ else _] => destruct b; [by right|] end.
  destruct (checked_cases obs app app' op plan (rc_state_sha256 (lget s)) (rc_epoch (lget s)) s)
    as [Hsame|(before & s1 & Ho & Hst & Hadm)]; [by right|left].
  eapply (@admitted_consumes (backend_of obs app)); eauto. by apply stable_self.
Qed.
End backends.

(** *** Reachable hosts *)
Section reachable.
Context {hash : Digest} {B G S : Type} {bops : BrokerOps B} {laws : BrokerLaws B}.
Context {L : Lens S (BoundRuntimeConfigBroker B G)}.

(** One step of a host: an execution against any backend that leaves the controller to
    its own methods, or host code that does. *)
Inductive config_step (s : S) : S -> Prop :=
  | cs_execute (backend : RuntimeConfigBackend S) op plan : backend_respects ->
      config_step s (snd (execute op plan s))
  | cs_host s' : host_config_ok s s' -> config_step s s'.

Lemma config_steps_ok s s' : star config_step s s' -> host_config_ok s s'.
Proof.
  induction 1 as [s|s1 s2 s3 _ IH Hstep]; [exact (reflexivity (R:=config_ok) _)|].
  refine (transitivity (R:=config_ok) IH _). destruct Hstep as [backend op plan Hb|s' Hok]; [|done].
  by apply execute_evolves.
Qed.

Lemma init_config_inv (mediator : RuntimeMediator B G) first host c :
  mediator_inv mediator -> broker_valid (rm_broker mediator) ->
  BoundRuntimeConfigBroker_init mediator first host = Ok c -> config_inv c /\ rc_epoch c = 0.
Proof.
  intros Hm Hb Hc. unfold BoundRuntimeConfigBroker_init in Hc. check_inv. split; [|done].
  constructor; cbn; try done. by match goal with Hf : RuntimeStateEvidence_from_mapping _ _ = Ok _ |- _ =>
    apply from_mapping_ok in Hf as (_ & Hf & _) end.
Qed.
End reachable.

(** ** Example values *)
Definition CHANGED_SHA256 : string :=
  "1111111111111111111111111111111111111111111111111111111111111111".

#[local] Existing Instance checksum_digest.

Definition example_evidence (state : string) : dict :=
  seal "evidence_sha256" (evidence_body ZERO_SHA256 state).

Definition example_plan : RuntimeConfigPlan := {|
  pl_operation_id := "op:1"; pl_setting_keys := ["debug"]; pl_before_state_sha256 := ZERO_SHA256;
  pl_after_state_sha256 := CHANGED_SHA256; pl_change_set_sha256 := ZERO_SHA256;
  pl_host_binding_sha256 := ZERO_SHA256; pl_epoch_before := 0 |}.

Definition example_sha : string := from_ok "" (plan_sha256 example_plan).

Definition example_request : RuntimeOperation := {|
  ro_operation_id := "op:1"; ro_subject_id := "agent:1"; ro_policy_sha256 := ZERO_SHA256;
  ro_kind := "runtime.configure"; ro_scope := [("setting_keys", jstrs ["debug"])];
  ro_payload_sha256 := from_ok "" (payload_sha256 example_plan); ro_at_unix := 150;
  ro_privilege_level_before := 0; ro_privilege_level_after := 1 |}.

(** A host whose configuration state is the second component. *)
Definition ExampleHost : Type := BoundRuntimeConfigBroker CapabilityBroker.CapabilityBroker unit * string.

Definition example_observe : M ExampleHost dict := fun s => (Ok (example_evidence (snd s)), s).

Definition example_backend : RuntimeConfigBackend ExampleHost := {|
  backend_observe := example_observe;
  backend_apply plan := fun s => (Ok tt, (fst s, pl_after_state_sha256 plan)) |}.

(** A backend that changes something and then fails. *)
Definition failing_backend : RuntimeConfigBackend ExampleHost := {|
  backend_observe := example_observe;
  backend_apply plan := fun s => (fail (HostException "OSError") "busy", (fst s, example_sha)) |}.

Definition example_controller : BoundRuntimeConfigBroker CapabilityBroker.CapabilityBroker unit :=
  Build_BoundRuntimeConfigBroker _ _ example_mediator ZERO_SHA256 ZERO_SHA256 0 false ∅ [].

Definition example_host : ExampleHost := (example_controller, ZERO_SHA256).

Definition example_executed : result dict * ExampleHost :=
  @execute _ _ _ _ _ example_backend _ example_request example_plan example_host.

Lemma config_broker_inv : CapabilityBroker.broker_inv config_broker.
Proof. apply CapabilityBroker.admit_ok, CapabilityBroker.fresh_inv. Qed.

Lemma example_controller_inv : config_inv example_controller.
Proof.
  constructor; [exact (init_inv config_broker None)|exact config_broker_inv|reflexivity|cbn; lia|constructor].
Qed.

Lemma example_respects (app : RuntimeConfigPlan -> M ExampleHost unit) :
  (forall plan s, fst (snd (app plan s)) = fst s) ->
  @backend_respects _ _ _ _ _ _ {| backend_observe := example_observe; backend_apply := app |} _.
Proof.
  intros Happ. split.
  - intros s. exact (reflexivity (R:=config_ok) _).
  - intros plan s. unfold host_config_ok. cbn. rewrite Happ. exact (reflexivity (R:=config_ok) _).
Qed.

(** ** Properties *)

(** C2: an execution that returns either reports that nothing was executed, or it
    consumed the plan, advanced the runtime epoch and left no capability of the broker
    active; it then either succeeded with the planned state, or failed closed with the
    runtime state tainted. The backend may do anything but bypass the controller. *)
Theorem config_mutation_concludes `{hash : Digest} {B G S : Type} `{BrokerLaws B}
    `{Lens S (BoundRuntimeConfigBroker B G)} (backend : RuntimeConfigBackend S)
    (op : RuntimeOperation) (plan : RuntimeConfigPlan) (sha : string) (s s' : S) (doc : dict)
    (Hinv : config_inv (lget s)) (Hback : backend_respects)
    (Hreq : check_request op plan = Ok sha) (Hrun : execute op plan s = (Ok doc, s')) :
  dict_get doc "outcome" = Some (JStr "NOT_EXECUTED")
  \/ (rc_epoch (lget s) < rc_epoch (lget s') /\ sha ∈ rc_seen_plans (lget s')
      /\ (forall id, ~ capability_active (the_broker (lget s')) id)
      /\ ((dict_get doc "outcome" = Some (JStr "SUCCEEDED")
           /\ rc_state_sha256 (lget s') = pl_after_state_sha256 plan)
          \/ (dict_get doc "outcome" = Some (JStr "FAILED_CLOSED")
              /\ rc_tainted (lget s') = true))).
Proof.
  pose proof (execute_ok (lget s) op plan sha Hback Hreq Hinv s eq_refl) as Hok.
  rewrite Hrun in Hok. destruct Hok as [_ [[Hne _]|Hset]]; [by left|right; exact Hset].
Qed.

Lemma config_mutation_concludes_witness :
  let s := example_host in
  let s' := snd example_executed in
  let doc := from_ok [] (fst example_executed) in
  dict_get doc "outcome" = Some (JStr "NOT_EXECUTED")
  \/ (rc_epoch (lget s) < rc_epoch (lget s') /\ example_sha ∈ rc_seen_plans (lget s')
      /\ (forall id, ~ capability_active (the_broker (lget s')) id)
      /\ ((dict_get doc "outcome" = Some (JStr "SUCCEEDED")
           /\ rc_state_sha256 (lget s') = pl_after_state_sha256 example_plan)
          \/ (dict_get doc "outcome" = Some (JStr "FAILED_CLOSED")
              /\ rc_tainted (lget s') = true))).
Proof.
  apply (config_mutation_concludes example_backend example_request example_plan example_sha
    example_host (snd example_executed) (from_ok [] (fst example_executed))).
  - exact example_controller_inv.
  - apply (example_respects (fun plan s => (Ok tt, (fst s, pl_after_state_sha256 plan)))).
    reflexivity.
  - vm_compute. reflexivity.
  - assert (is_ok (fst example_executed) = true) as Hok by (vm_compute; reflexivity).
    change (execute example_request example_plan example_host) with example_executed.
    destruct example_executed as [[doc|e] s']; [reflexivity|discriminate Hok].
Defined.

(** Whatever a host does, the runtime epoch never goes back, taint is never cleared,
    a seen plan stays seen, issued receipts stay, and every receipt verifies. *)
Theorem config_history_grows `{hash : Digest} {B G S : Type} `{BrokerLaws B}
    `{Lens S (BoundRuntimeConfigBroker B G)} (mediator : RuntimeMediator B G)
    (first : result dict) (host : string) (s0 s1 s2 : S)
    (Hmed : mediator_inv mediator) (Hbroker : broker_valid (rm_broker mediator))
    (Hinit : BoundRuntimeConfigBroker_init mediator first host = Ok (lget s0))
    (Hreach1 : star config_step s0 s1) (Hreach2 : star config_step s1 s2) :
  0 <= rc_epoch (lget s1) <= rc_epoch (lget s2)
  /\ (rc_tainted (lget s1) = true -> rc_tainted (lget s2) = true)
  /\ rc_seen_plans (lget s1) ⊆ rc_seen_plans (lget s2)
  /\ rc_receipts (lget s1) `prefix_of` rc_receipts (lget s2)
  /\ Forall (fun doc => verify_receipt doc = Ok doc) (receipts (lget s2)).
Proof.
  destruct (init_config_inv _ _ _ _ Hmed Hbroker Hinit) as [Hi0 He0].
  destruct (config_steps_ok _ _ Hreach1 Hi0) as [Hi1 G1].
  destruct (config_steps_ok _ _ Hreach2 Hi1) as [Hi2 [_ Hep Ht Hp Hr]].
  split_and!; try done; [apply Hi1|]. apply Forall_map.
  eapply Forall_impl; [apply Hi2|]. apply receipt_good_verifies.
Qed.

Lemma config_history_grows_witness :
  let s1 := example_host in
  let s2 := snd example_executed in
  rc_epoch (lget s2) = 1
  /\ (0 <= rc_epoch (lget s1) <= rc_epoch (lget s2)
      /\ (rc_tainted (lget s1) = true -> rc_tainted (lget s2) = true)
      /\ rc_seen_plans (lget s1) ⊆ rc_seen_plans (lget s2)
      /\ rc_receipts (lget s1) `prefix_of` rc_receipts (lget s2)
      /\ Forall (fun doc => verify_receipt doc = Ok doc) (receipts (lget s2))).
Proof.
  split; [vm_compute; reflexivity|].
  apply (config_history_grows example_mediator (Ok (example_evidence ZERO_SHA256)) ZERO_SHA256
    example_host example_host (snd example_executed)).
  - exact (init_inv config_broker None).
  - exact config_broker_inv.
  - vm_compute. reflexivity.
  - apply star_refl.
  - apply (star_step _ example_host example_host); [apply star_refl|].
    unfold example_executed. apply (cs_execute example_host example_backend example_request example_plan).
    apply (example_respects (fun plan s => (Ok tt, (fst s, pl_after_state_sha256 plan)))).
    reflexivity.
Defined.

(** Why a bound plan is refused before the backend is asked anything. *)
Definition refusal {B G} (c : BoundRuntimeConfigBroker B G) (plan : RuntimeConfigPlan) (sha : string)
    : option string :=
  if negb (String.eqb (pl_host_binding_sha256 plan) (rc_host_binding_sha256 c))
  then Some "host_binding_mismatch"
  else if rc_tainted c then Some "runtime_state_unverified"
  else if bool_decide (sha ∈ rc_seen_plans c) then Some "plan_replay"
  else if negb (pl_epoch_before plan =? rc_epoch c) then Some "stale_runtime_epoch"
  else None.

(** A plan for another host, on a tainted state, already seen, or for another epoch
    is blocked: the receipt names the reason, the backend, the mediator and the broker
    are not called, and the receipt is all that changes. *)
Theorem unusable_plan_blocked `{hash : Digest} {B G S : Type} `{BrokerOps B}
    `{Lens S (BoundRuntimeConfigBroker B G)} (backend : RuntimeConfigBackend S)
    (op : RuntimeOperation) (plan : RuntimeConfigPlan) (sha reason : string) (s : S)
    (Hreq : check_request op plan = Ok sha) (Hrefused : refusal (lget s) plan sha = Some reason) :
  exists r, execute op plan s
      = (Ok (RuntimeConfigReceipt_as_document r), lput (push_receipt r (lget s)) s)
    /\ cr_outcome r = "NOT_EXECUTED" /\ cr_decision r = "BLOCK" /\ cr_reason_codes r = [reason]
    /\ cr_epoch_after r = rc_epoch (lget s) /\ cr_revoked_authority_count r = 0.
Proof.
  destruct (check_request_plan op plan sha Hreq) as (_ & _ & Hp & _).
  eexists. split.
  - rewrite execute_run, Hreq. unfold execute_bound. cbv zeta. unfold refusal in Hrefused.
    instantiate (1 := receipt_of (ro_operation_id op) sha (rc_state_sha256 (lget s))
      (rc_state_sha256 (lget s)) (rc_epoch (lget s)) (rc_epoch (lget s)) ZERO_SHA256 ZERO_SHA256
      [] "BLOCK" "NOT_EXECUTED" [reason]).
    repeat (case_match; [injection Hrefused as <-; by apply finish_run|]). done.
  - by split_and!.
Qed.

Lemma unusable_plan_blocked_witness :
  let s : ExampleHost := (taint example_controller, ZERO_SHA256) in
  exists r, execute (backend := example_backend) example_request example_plan s
      = (Ok (RuntimeConfigReceipt_as_document r), lput (push_receipt r (lget s)) s)
    /\ cr_outcome r = "NOT_EXECUTED" /\ cr_decision r = "BLOCK"
    /\ cr_reason_codes r = ["runtime_state_unverified"]
    /\ cr_epoch_after r = rc_epoch (lget s) /\ cr_revoked_authority_count r = 0.
Proof.
  apply (unusable_plan_blocked example_backend example_request example_plan example_sha
    "runtime_state_unverified" (taint example_controller, ZERO_SHA256)).
  - vm_compute. reflexivity.
  - reflexivity.
Defined.

(** Once a plan is among those seen it never comes near the backend again. *)
Lemma seen_plan_blocked `{hash : Digest} {B G S : Type} `{BrokerOps B}
    `{Lens S (BoundRuntimeConfigBroker B G)} (backend : RuntimeConfigBackend S)
    (op : RuntimeOperation) (plan : RuntimeConfigPlan) (sha : string) (s : S) :
  check_request op plan = Ok sha -> sha ∈ rc_seen_plans (lget s) ->
  exists r, execute op plan s = (Ok (RuntimeConfigReceipt_as_document r), lput (push_receipt r (lget s)) s)
    /\ cr_decision r = "BLOCK" /\ cr_outcome r = "NOT_EXECUTED"
    /\ (pl_host_binding_sha256 plan = rc_host_binding_sha256 (lget s) -> rc_tainted (lget s) = false ->
        cr_reason_codes r = ["plan_replay"]).
Proof.
  intros Hreq Hseen.
  assert (exists reason, refusal (lget s) plan sha = Some reason
    /\ (pl_host_binding_sha256 plan = rc_host_binding_sha256 (lget s) -> rc_tainted (lget s) = false ->
        reason = "plan_replay")) as (reason & Hr & Hwhy).
  { unfold refusal. rewrite bool_decide_eq_true_2 by done.
    destruct (String.eqb_spec (pl_host_binding_sha256 plan) (rc_host_binding_sha256 (lget s))); [|by eexists].
    cbn [negb]. destruct (rc_tainted (lget s)); by eexists. }
  destruct (unusable_plan_blocked backend op plan sha reason s Hreq Hr) as (r & Hrun & Ho & Hd & Hc & _).
  exists r. split_and!; try done. intros H1 H2. by rewrite Hc, Hwhy.
Qed.


