(* ===== verification/EffectCommit.v ===== *)
(** * Epoch-bound effect commit (sdk/liminal_effect_commit/__init__.py)

    An effect is committed through a lease bound to the capability decision, the
    runtime world and the execution session; everything is observed again and the
    lease is burned before the executor runs. The clock, the world, the session and
    the capability state are observed through the host ([EffectEnv]). The commit
    fence and the broker's lock are re-entrant, so a call made by one thread runs
    exactly as without them: the model has no term for them. *)
From stdpp Require Import gmap.
From S2P Require Import Prelude PyStr Json Digest Contracts BrokerInterface Mediation.
#[local] Open Scope Z_scope.

(** ** Constants *)
Definition LEASE_SCHEMA : string := "liminal-epoch-bound-effect-lease-v0.1".
Definition COMMIT_SCHEMA : string := "liminal-epoch-bound-effect-commit-receipt-v0.1".
Definition SESSION_SCHEMA : string := "liminal-trusted-execution-session-v0.1".
Definition MAX_LEASE_TTL_SECONDS : Z := 30.

Definition AUTHORITY : dict :=
  [("mode", JStr "epoch_bound_effect_commit_only"); ("capability_grant", JBool false);
   ("runtime_mutation", JBool false); ("effect_commit", JBool true);
   ("one_time_lease", JBool true); ("trusted_runtime_recheck", JBool true);
   ("trusted_session_recheck", JBool true); ("shared_runtime_commit_fence", JBool true);
   ("containment_gate", JBool true); ("raw_runtime_values", JBool false);
   ("raw_session_identity", JBool false); ("secret_material_access", JBool false);
   ("network_authority", JBool false); ("kernel_enforcement", JBool false)].

Definition _sha (value : json) (name : string) : result string :=
  check_sha EffectCommitError ("invalid_" +:+ name) value.

(** [raise EffectCommitError(code)] when [b]. *)
Definition reject_if (b : bool) (code : string) : result unit := raise_if b EffectCommitError code.

(** ** Observations *)
Record TrustedRuntimeWorld := {
  tw_epoch : Z;
  tw_state_sha256 : string;
  tw_tainted : bool;
  tw_snapshot_sha256 : string
}.

Record TrustedExecutionSession := {
  ts_operation_id_sha256 : string;
  ts_session_sha256 : string;
  ts_host_binding_sha256 : string;
  ts_active : bool;
  ts_evidence_sha256 : string
}.

Definition session_keys : list string :=
  ["schema"; "operation_id_sha256"; "session_sha256"; "host_binding_sha256"; "active";
   "evidence_sha256"].

Definition session_body (operation_sha session host : string) (active : bool) : dict :=
  [("schema", JStr SESSION_SCHEMA); ("operation_id_sha256", JStr operation_sha);
   ("session_sha256", JStr session); ("host_binding_sha256", JStr host);
   ("active", JBool active)].

(** ** Receipts *)
Record EffectCommitAuthorizationReceipt := {
  ea_operation_id : string;
  ea_lease_id_sha256 : string;
  ea_capability_id : string;
  ea_capability_receipt_sha256 : string;
  ea_bound_contract_sha256 : string;
  ea_runtime_kind : string;
  ea_scope_sha256 : string;
  ea_payload_sha256 : string;
  ea_runtime_epoch : Z;
  ea_runtime_state_sha256 : string;
  ea_runtime_snapshot_sha256 : string;
  ea_execution_session_sha256 : string;
  ea_execution_session_evidence_sha256 : string;
  ea_host_binding_sha256 : string;
  ea_issued_at_unix : Z;
  ea_expires_at_unix : Z;
  ea_receipt_sha256 : string
}.

Definition EffectCommitAuthorizationReceipt_body (r : EffectCommitAuthorizationReceipt) : dict :=
  [("schema", JStr LEASE_SCHEMA);
   ("operation_id", JStr (ea_operation_id r));
   ("lease_id_sha256", JStr (ea_lease_id_sha256 r));
   ("capability_id", JStr (ea_capability_id r));
   ("capability_receipt_sha256", JStr (ea_capability_receipt_sha256 r));
   ("bound_contract_sha256", JStr (ea_bound_contract_sha256 r));
   ("runtime_kind", JStr (ea_runtime_kind r));
   ("scope_sha256", JStr (ea_scope_sha256 r));
   ("payload_sha256", JStr (ea_payload_sha256 r));
   ("runtime_epoch", JInt (ea_runtime_epoch r));
   ("runtime_state_sha256", JStr (ea_runtime_state_sha256 r));
   ("runtime_snapshot_sha256", JStr (ea_runtime_snapshot_sha256 r));
   ("execution_session_sha256", JStr (ea_execution_session_sha256 r));
   ("execution_session_evidence_sha256", JStr (ea_execution_session_evidence_sha256 r));
   ("host_binding_sha256", JStr (ea_host_binding_sha256 r));
   ("issued_at_unix", JInt (ea_issued_at_unix r));
   ("expires_at_unix", JInt (ea_expires_at_unix r));
   ("authority", JObj AUTHORITY)].

Definition EffectCommitAuthorizationReceipt_as_document (r : EffectCommitAuthorizationReceipt)
    : dict :=
  dict_set (EffectCommitAuthorizationReceipt_body r) "receipt_sha256" (JStr (ea_receipt_sha256 r)).

Record EffectCommitReceipt := {
  ec_operation_id : string;
  ec_authorization_receipt_sha256 : string;
  ec_lease_id_sha256 : string;
  ec_runtime_epoch : Z;
  ec_runtime_state_sha256 : string;
  ec_runtime_snapshot_sha256 : string;
  ec_execution_session_sha256 : string;
  ec_execution_session_evidence_sha256 : string;
  ec_capability_receipt_sha256 : string;
  ec_committed_at_unix : Z;
  ec_effect_outcome : string;
  ec_result_sha256 : string;
  ec_reason_codes : list string;
  ec_receipt_sha256 : string
}.

Definition EffectCommitReceipt_body (r : EffectCommitReceipt) : dict :=
  [("schema", JStr COMMIT_SCHEMA);
   ("operation_id", JStr (ec_operation_id r));
   ("authorization_receipt_sha256", JStr (ec_authorization_receipt_sha256 r));
   ("lease_id_sha256", JStr (ec_lease_id_sha256 r));
   ("runtime_epoch", JInt (ec_runtime_epoch r));
   ("runtime_state_sha256", JStr (ec_runtime_state_sha256 r));
   ("runtime_snapshot_sha256", JStr (ec_runtime_snapshot_sha256 r));
   ("execution_session_sha256", JStr (ec_execution_session_sha256 r));
   ("execution_session_evidence_sha256", JStr (ec_execution_session_evidence_sha256 r));
   ("capability_receipt_sha256", JStr (ec_capability_receipt_sha256 r));
   ("committed_at_unix", JInt (ec_committed_at_unix r));
   ("effect_outcome", JStr (ec_effect_outcome r));
   ("result_sha256", JStr (ec_result_sha256 r));
   ("reason_codes", jstrs (ec_reason_codes r));
   ("authority", JObj AUTHORITY)].

Definition EffectCommitReceipt_as_document (r : EffectCommitReceipt) : dict :=
  dict_set (EffectCommitReceipt_body r) "receipt_sha256" (JStr (ec_receipt_sha256 r)).

(** ** The broker *)
Record _Lease := {
  ls_lease_id : string;
  ls_operation : RuntimeOperation;
  ls_capability_id : string;
  ls_capability_receipt_sha256 : string;
  ls_bound_contract_sha256 : string;
  ls_scope_sha256 : string;
  ls_runtime_world : TrustedRuntimeWorld;
  ls_session : TrustedExecutionSession;
  ls_authorization_receipt_sha256 : string;
  ls_issued_at_unix : Z;
  ls_expires_at_unix : Z;
  ls_consumed : bool
}.

Record EffectCommitBroker := {
  eb_host_binding_sha256 : string;
  eb_adapter_token_sha256 : string;
  eb_lease_ttl_seconds : Z;
  eb_leases : gmap string _Lease;
  eb_authorizations : list EffectCommitAuthorizationReceipt;
  eb_commits : list EffectCommitReceipt;
  eb_contained : bool
}.

(** [lease.consumed = True] *)
Definition burn (l : _Lease) : _Lease := {|
  ls_lease_id := ls_lease_id l; ls_operation := ls_operation l;
  ls_capability_id := ls_capability_id l;
  ls_capability_receipt_sha256 := ls_capability_receipt_sha256 l;
  ls_bound_contract_sha256 := ls_bound_contract_sha256 l; ls_scope_sha256 := ls_scope_sha256 l;
  ls_runtime_world := ls_runtime_world l; ls_session := ls_session l;
  ls_authorization_receipt_sha256 := ls_authorization_receipt_sha256 l;
  ls_issued_at_unix := ls_issued_at_unix l; ls_expires_at_unix := ls_expires_at_unix l;
  ls_consumed := true |}.

Definition set_leases (leases : gmap string _Lease) (b : EffectCommitBroker) : EffectCommitBroker := {|
  eb_host_binding_sha256 := eb_host_binding_sha256 b;
  eb_adapter_token_sha256 := eb_adapter_token_sha256 b;
  eb_lease_ttl_seconds := eb_lease_ttl_seconds b; eb_leases := leases;
  eb_authorizations := eb_authorizations b; eb_commits := eb_commits b;
  eb_contained := eb_contained b |}.

Definition consume (lease_id : string) (b : EffectCommitBroker) : EffectCommitBroker :=
  set_leases (alter burn lease_id (eb_leases b)) b.

(** [self._authorizations.append(receipt); self._leases[lease_id] = lease]. *)
Definition add_lease (r : EffectCommitAuthorizationReceipt) (l : _Lease) (b : EffectCommitBroker)
    : EffectCommitBroker := {|
  eb_host_binding_sha256 := eb_host_binding_sha256 b;
  eb_adapter_token_sha256 := eb_adapter_token_sha256 b;
  eb_lease_ttl_seconds := eb_lease_ttl_seconds b;
  eb_leases := <[ls_lease_id l := l]> (eb_leases b);
  eb_authorizations := eb_authorizations b ++ [r]; eb_commits := eb_commits b;
  eb_contained := eb_contained b |}.

Definition push_commit (r : EffectCommitReceipt) (b : EffectCommitBroker) : EffectCommitBroker := {|
  eb_host_binding_sha256 := eb_host_binding_sha256 b;
  eb_adapter_token_sha256 := eb_adapter_token_sha256 b;
  eb_lease_ttl_seconds := eb_lease_ttl_seconds b; eb_leases := eb_leases b;
  eb_authorizations := eb_authorizations b; eb_commits := eb_commits b ++ [r];
  eb_contained := eb_contained b |}.

Definition set_contained (c : bool) (b : EffectCommitBroker) : EffectCommitBroker := {|
  eb_host_binding_sha256 := eb_host_binding_sha256 b;
  eb_adapter_token_sha256 := eb_adapter_token_sha256 b;
  eb_lease_ttl_seconds := eb_lease_ttl_seconds b; eb_leases := eb_leases b;
  eb_authorizations := eb_authorizations b; eb_commits := eb_commits b; eb_contained := c |}.

Definition EffectCommitBroker_init (host_binding_sha256 adapter_token_sha256 : string)
    (lease_ttl_seconds : Z) : result EffectCommitBroker :=
  host ← _sha (JStr host_binding_sha256) "host_binding_sha256";
  token ← _sha (JStr adapter_token_sha256) "adapter_token_sha256";
  _ ← reject_if (negb ((1 <=? lease_ttl_seconds) && (lease_ttl_seconds <=? MAX_LEASE_TTL_SECONDS)))
        "invalid_lease_ttl_seconds";
  Ok {| eb_host_binding_sha256 := host; eb_adapter_token_sha256 := token;
        eb_lease_ttl_seconds := lease_ttl_seconds; eb_leases := ∅; eb_authorizations := [];
        eb_commits := []; eb_contained := false |}.

(** What the broker observes of the host: [clock()], [runtime_provider.state_document()],
    [session_provider.session_document(operation_id)] and
    [capability_broker.state_document()]. *)
Class EffectEnv (S : Type) := {
  env_clock : M S Z;
  env_world : M S dict;
  env_session : string -> M S dict;
  env_capabilities : M S dict
}.

(** [authorization_receipts()], [commit_receipts()]. *)
Definition authorization_receipts (b : EffectCommitBroker) : list dict :=
  map EffectCommitAuthorizationReceipt_as_document (eb_authorizations b).

Definition commit_receipts (b : EffectCommitBroker) : list dict :=
  map EffectCommitReceipt_as_document (eb_commits b).

Definition consumed_leases (b : EffectCommitBroker) : gmap string _Lease :=
  filter (fun p => ls_consumed (snd p) = true) (eb_leases b).

Section effect_commit.
Context {hash : Digest}.

Definition world_body (epoch : Z) (state : string) (tainted : bool) : dict :=
  [("epoch", JInt epoch); ("state_sha256", JStr state); ("tainted", JBool tainted)].

(** [TrustedRuntimeWorld.observe] of the document the provider answered. *)
Definition TrustedRuntimeWorld_observe (raw : dict) : result TrustedRuntimeWorld :=
  match dict_get_or raw "epoch" (dict_get_none raw "runtime_epoch") with
  | JInt epoch =>
      _ ← reject_if (epoch <? 0) "invalid_runtime_epoch";
      state ← _sha (dict_get_or raw "state_sha256" (dict_get_none raw "runtime_state_sha256"))
                "runtime_state_sha256";
      match dict_get_or raw "tainted" (dict_get_none raw "runtime_tainted") with
      | JBool tainted =>
          Ok {| tw_epoch := epoch; tw_state_sha256 := state; tw_tainted := tainted;
                tw_snapshot_sha256 := canonical_sha256 (JObj (world_body epoch state tainted)) |}
      | _ => fail EffectCommitError "invalid_runtime_taint_state"
      end
  | _ => fail EffectCommitError "invalid_runtime_epoch"
  end.

Definition TrustedExecutionSession_observe (raw : dict)
    (operation_id expected_host_binding_sha256 : string) : result TrustedExecutionSession :=
  _ ← reject_if (negb (keys_are raw session_keys)
                 || negb (is_str (dict_get_none raw "schema") SESSION_SCHEMA))
        "execution_session_schema_mismatch";
  operation_sha ← _sha (dict_get_none raw "operation_id_sha256") "operation_id_sha256";
  _ ← reject_if (negb (String.eqb operation_sha (canonical_sha256 (JStr operation_id))))
        "execution_session_operation_mismatch";
  session_sha ← _sha (dict_get_none raw "session_sha256") "session_sha256";
  host_sha ← _sha (dict_get_none raw "host_binding_sha256") "host_binding_sha256";
  _ ← reject_if (negb (String.eqb host_sha expected_host_binding_sha256))
        "execution_session_host_mismatch";
  match dict_get_none raw "active" with
  | JBool active =>
      evidence ← _sha (dict_get_none raw "evidence_sha256") "evidence_sha256";
      _ ← reject_if (negb (String.eqb evidence
              (canonical_sha256 (JObj (session_body operation_sha session_sha host_sha active)))))
            "execution_session_evidence_mismatch";
      Ok {| ts_operation_id_sha256 := operation_sha; ts_session_sha256 := session_sha;
            ts_host_binding_sha256 := host_sha; ts_active := active;
            ts_evidence_sha256 := evidence |}
  | _ => fail EffectCommitError "execution_session_active_invalid"
  end.

Definition build_session_document (operation_id session_sha256 host_binding_sha256 : string)
    (active : bool) : result dict :=
  _ ← _sha (JStr session_sha256) "session_sha256";
  _ ← _sha (JStr host_binding_sha256) "host_binding_sha256";
  Ok (seal "evidence_sha256" (session_body (canonical_sha256 (JStr operation_id)) session_sha256
                                host_binding_sha256 active)).

Definition verify_authorization_receipt (document : dict) : result dict :=
  let raw := dict_del document "receipt_sha256" in
  let digest := dict_get_none document "receipt_sha256" in
  _ ← reject_if (negb (envelope_ok raw LEASE_SCHEMA AUTHORITY)) "lease_receipt_schema_mismatch";
  _ ← reject_if (negb (is_str digest (canonical_sha256 (JObj raw)))) "lease_receipt_digest_mismatch";
  Ok document.

Definition verify_commit_receipt (document : dict) : result dict :=
  let raw := dict_del document "receipt_sha256" in
  let digest := dict_get_none document "receipt_sha256" in
  _ ← reject_if (negb (envelope_ok raw COMMIT_SCHEMA AUTHORITY)) "commit_receipt_schema_mismatch";
  _ ← reject_if (negb (is_str digest (canonical_sha256 (JObj raw)))) "commit_receipt_digest_mismatch";
  Ok document.

Definition state_document (b : EffectCommitBroker) : dict :=
  seal "state_sha256"
    [("schema", JStr "liminal-effect-commit-state-v0.1");
     ("lease_count", JInt (Z.of_nat (size (eb_leases b))));
     ("consumed_count", JInt (Z.of_nat (size (consumed_leases b))));
     ("contained", JBool (eb_contained b));
     ("authorization_count", JInt (Z.of_nat (length (eb_authorizations b))));
     ("commit_count", JInt (Z.of_nat (length (eb_commits b))));
     ("authority", JObj AUTHORITY)].

Definition seal_authorization (r : EffectCommitAuthorizationReceipt)
    : EffectCommitAuthorizationReceipt := {|
  ea_operation_id := ea_operation_id r; ea_lease_id_sha256 := ea_lease_id_sha256 r;
  ea_capability_id := ea_capability_id r;
  ea_capability_receipt_sha256 := ea_capability_receipt_sha256 r;
  ea_bound_contract_sha256 := ea_bound_contract_sha256 r; ea_runtime_kind := ea_runtime_kind r;
  ea_scope_sha256 := ea_scope_sha256 r; ea_payload_sha256 := ea_payload_sha256 r;
  ea_runtime_epoch := ea_runtime_epoch r; ea_runtime_state_sha256 := ea_runtime_state_sha256 r;
  ea_runtime_snapshot_sha256 := ea_runtime_snapshot_sha256 r;
  ea_execution_session_sha256 := ea_execution_session_sha256 r;
  ea_execution_session_evidence_sha256 := ea_execution_session_evidence_sha256 r;
  ea_host_binding_sha256 := ea_host_binding_sha256 r; ea_issued_at_unix := ea_issued_at_unix r;
  ea_expires_at_unix := ea_expires_at_unix r;
  ea_receipt_sha256 := canonical_sha256 (JObj (EffectCommitAuthorizationReceipt_body r)) |}.

Definition seal_commit (r : EffectCommitReceipt) : EffectCommitReceipt := {|
  ec_operation_id := ec_operation_id r;
  ec_authorization_receipt_sha256 := ec_authorization_receipt_sha256 r;
  ec_lease_id_sha256 := ec_lease_id_sha256 r; ec_runtime_epoch := ec_runtime_epoch r;
  ec_runtime_state_sha256 := ec_runtime_state_sha256 r;
  ec_runtime_snapshot_sha256 := ec_runtime_snapshot_sha256 r;
  ec_execution_session_sha256 := ec_execution_session_sha256 r;
  ec_execution_session_evidence_sha256 := ec_execution_session_evidence_sha256 r;
  ec_capability_receipt_sha256 := ec_capability_receipt_sha256 r;
  ec_committed_at_unix := ec_committed_at_unix r; ec_effect_outcome := ec_effect_outcome r;
  ec_result_sha256 := ec_result_sha256 r; ec_reason_codes := ec_reason_codes r;
  ec_receipt_sha256 := canonical_sha256 (JObj (EffectCommitReceipt_body r)) |}.

(** The lease and the receipt [issue_for_trusted_adapter] builds. *)
Definition authorization_of (operation : RuntimeOperation)
    (lease_id capability_id capability_receipt_sha bound_contract_sha scope_sha : string)
    (world : TrustedRuntimeWorld) (session : TrustedExecutionSession) (host : string)
    (now expires : Z) : EffectCommitAuthorizationReceipt :=
  seal_authorization {|
    ea_operation_id := ro_operation_id operation;
    ea_lease_id_sha256 := canonical_sha256 (JStr lease_id); ea_capability_id := capability_id;
    ea_capability_receipt_sha256 := capability_receipt_sha;
    ea_bound_contract_sha256 := bound_contract_sha; ea_runtime_kind := ro_kind operation;
    ea_scope_sha256 := scope_sha; ea_payload_sha256 := ro_payload_sha256 operation;
    ea_runtime_epoch := tw_epoch world; ea_runtime_state_sha256 := tw_state_sha256 world;
    ea_runtime_snapshot_sha256 := tw_snapshot_sha256 world;
    ea_execution_session_sha256 := ts_session_sha256 session;
    ea_execution_session_evidence_sha256 := ts_evidence_sha256 session;
    ea_host_binding_sha256 := host; ea_issued_at_unix := now; ea_expires_at_unix := expires;
    ea_receipt_sha256 := "" |}.

(** [f"effect-lease:{len(self._leases)+1}:{canonical_sha256({...})[:20]}"] *)
Definition lease_id_of (count : nat) (operation : RuntimeOperation) (capability_receipt_sha : string)
    (world : TrustedRuntimeWorld) (session : TrustedExecutionSession) : string :=
  "effect-lease:" +:+ pretty (Z.of_nat count + 1) +:+ ":" +:+
  String.substring 0 20 (canonical_sha256 (JObj
    [("operation", JStr (ro_operation_id operation)); ("capability", JStr capability_receipt_sha);
     ("world", JStr (tw_snapshot_sha256 world)); ("session", JStr (ts_session_sha256 session))])).

(** [isinstance(observation, ExecutionObservation)] and [observation.validate()]. *)
Definition effect_observation (r : exec_result) : result ExecutionObservation :=
  match r with
  | OtherObject => fail EffectCommitError "executor_observation_invalid"
  | Observed o => _ ← ExecutionObservation_validate o; Ok o
  end.

(** The loop of [_capability_active]. *)
Fixpoint find_active (capability_id : string) (world : TrustedRuntimeWorld) (items : list json)
    : result bool :=
  match items with
  | [] => Ok false
  | JObj item :: items' =>
      if negb (is_str (dict_get_none item "capability_id") capability_id)
      then find_active capability_id world items'
      else Ok (is_str (dict_get_none item "status") "active"
               && (match dict_get_none item "epoch_bound" with JBool b => b | _ => false end)
               && py_eq (dict_get_none item "runtime_epoch") (JInt (tw_epoch world))
               && is_str (dict_get_none item "runtime_state_sha256") (tw_state_sha256 world))
  | _ :: _ => fail AttributeError "get"
  end.

Definition capability_list (state : dict) : result (list json) :=
  match dict_get_or state "capabilities" (JList []) with
  | JList l => Ok l
  | _ => fail TypeError "capabilities"
  end.

Section host.
Context {S : Type} {L : Lens S EffectCommitBroker} {env : EffectEnv S}.

Definition enter_containment (incident_receipt_sha256 : string) : M S unit :=
  _ ← lift (_sha (JStr incident_receipt_sha256) "incident_receipt_sha256");
  set_this (set_contained true).

Definition exit_containment (human_release_receipt_sha256 : string) : M S unit :=
  _ ← lift (_sha (JStr human_release_receipt_sha256) "human_release_receipt_sha256");
  set_this (set_contained false).

Definition _now : M S Z :=
  value ← env_clock;
  _ ← lift (reject_if (value <? 0) "invalid_trusted_clock");
  mret value.

Definition observe_world : M S TrustedRuntimeWorld :=
  raw ← env_world;
  lift (TrustedRuntimeWorld_observe raw).

Definition observe_session (operation_id : string) : M S TrustedExecutionSession :=
  raw ← env_session operation_id;
  self ← this;
  lift (TrustedExecutionSession_observe raw operation_id (eb_host_binding_sha256 self)).

Definition _capability_active (capability_id : string) (world : TrustedRuntimeWorld) : M S bool :=
  answer ← attempt env_capabilities;
  match answer with
  | inl _ => mret false
  | inr state =>
      items ← lift (capability_list state);
      lift (find_active capability_id world items)
  end.

(** The receipt [_append_commit] builds. *)
Definition commit_of (lease : _Lease) (world : TrustedRuntimeWorld)
    (session : TrustedExecutionSession) (committed_at_unix : Z) (outcome result_sha256 : string)
    (reasons : list string) : EffectCommitReceipt :=
  seal_commit {|
    ec_operation_id := ro_operation_id (ls_operation lease);
    ec_authorization_receipt_sha256 := ls_authorization_receipt_sha256 lease;
    ec_lease_id_sha256 := canonical_sha256 (JStr (ls_lease_id lease));
    ec_runtime_epoch := tw_epoch world; ec_runtime_state_sha256 := tw_state_sha256 world;
    ec_runtime_snapshot_sha256 := tw_snapshot_sha256 world;
    ec_execution_session_sha256 := ts_session_sha256 session;
    ec_execution_session_evidence_sha256 := ts_evidence_sha256 session;
    ec_capability_receipt_sha256 := ls_capability_receipt_sha256 lease;
    ec_committed_at_unix := committed_at_unix; ec_effect_outcome := outcome;
    ec_result_sha256 := result_sha256; ec_reason_codes := sorted_set reasons;
    ec_receipt_sha256 := "" |}.

Definition _append_commit (lease : _Lease) (world : TrustedRuntimeWorld)
    (session : TrustedExecutionSession) (committed_at_unix : Z) (outcome result_sha256 : string)
    (reasons : list string) : M S unit :=
  result_sha ← lift (_sha (JStr result_sha256) "result_sha256");
  set_this (push_commit (commit_of lease world session committed_at_unix outcome result_sha reasons)).

(** The checks of [issue_for_trusted_adapter] on the decision it is given. *)
Definition check_decision (operation : RuntimeOperation) (capability : dict)
    : result (string * string * string) :=
  _ ← RuntimeOperation_validate operation;
  _ ← reject_if (negb (is_str (dict_get_none capability "decision") "ALLOW"))
        "capability_decision_not_allow";
  match dict_get_none capability "capability_id" with
  | JStr capability_id =>
      _ ← reject_if (String.eqb capability_id "") "capability_id_missing";
      receipt_sha ← _sha (dict_get_none capability "receipt_sha256") "capability_receipt_sha256";
      contract_sha ← _sha (dict_get_or capability "bound_contract_sha256" (JStr ZERO_SHA256))
                       "bound_contract_sha256";
      _ ← reject_if (String.eqb contract_sha ZERO_SHA256) "capability_decision_not_epoch_bound";
      Ok (capability_id, receipt_sha, contract_sha)
  | _ => fail EffectCommitError "capability_id_missing"
  end.

Definition issue_for_trusted_adapter (operation : RuntimeOperation) (capability_decision : dict)
    : M S (string * dict) :=
  decision ← lift (check_decision operation capability_decision);
  let '(capability_id, capability_receipt_sha, bound_contract_sha) := decision in
  self ← this;
  _ ← lift (reject_if (eb_contained self) "containment_active");
  now ← _now;
  world ← observe_world;
  _ ← lift (reject_if (tw_tainted world) "runtime_state_tainted");
  session ← observe_session (ro_operation_id operation);
  _ ← lift (reject_if (negb (ts_active session)) "execution_session_inactive");
  active ← _capability_active capability_id world;
  _ ← lift (reject_if (negb active) "source_capability_inactive_or_stale");
  scope ← lift (normalized_scope operation);
  let scope_sha := canonical_sha256 (JObj scope) in
  self ← this;
  let lease_id := lease_id_of (size (eb_leases self)) operation capability_receipt_sha world session in
  let expires := now + eb_lease_ttl_seconds self in
  let receipt := authorization_of operation lease_id capability_id capability_receipt_sha
    bound_contract_sha scope_sha world session (eb_host_binding_sha256 self) now expires in
  _ ← set_this (add_lease receipt {|
    ls_lease_id := lease_id; ls_operation := operation; ls_capability_id := capability_id;
    ls_capability_receipt_sha256 := capability_receipt_sha;
    ls_bound_contract_sha256 := bound_contract_sha; ls_scope_sha256 := scope_sha;
    ls_runtime_world := world; ls_session := session;
    ls_authorization_receipt_sha256 := ea_receipt_sha256 receipt; ls_issued_at_unix := now;
    ls_expires_at_unix := expires; ls_consumed := false |});
  mret (lease_id, EffectCommitAuthorizationReceipt_as_document receipt).

(** What [_commit] knows when it burns the lease. *)
Record Recheck := {
  rk_now : Z;
  rk_lease : _Lease;
  rk_world : TrustedRuntimeWorld;
  rk_session : TrustedExecutionSession
}.

(** The part of [_commit] before the lease is burned. *)
Definition recheck (lease_id : string) : M S Recheck :=
  now ← _now;
  self ← this;
  _ ← lift (reject_if (eb_contained self) "containment_active");
  lease ← lift (match eb_leases self !! lease_id with
                | Some l => Ok l
                | None => fail EffectCommitError "unknown_lease"
                end);
  _ ← lift (reject_if (ls_consumed lease) "lease_replayed");
  _ ← lift (reject_if (now <? ls_issued_at_unix lease) "clock_regression");
  _ ← lift (reject_if (ls_expires_at_unix lease <? now) "lease_expired");
  world ← observe_world;
  _ ← lift (reject_if (tw_tainted world) "runtime_state_tainted");
  _ ← lift (reject_if (negb (tw_epoch world =? tw_epoch (ls_runtime_world lease)))
              "stale_runtime_epoch");
  _ ← lift (reject_if (negb (String.eqb (tw_state_sha256 world)
                               (tw_state_sha256 (ls_runtime_world lease)))) "stale_runtime_state");
  session ← observe_session (ro_operation_id (ls_operation lease));
  _ ← lift (reject_if (negb (ts_active session)) "execution_session_inactive");
  _ ← lift (reject_if (negb (String.eqb (ts_session_sha256 session)
                               (ts_session_sha256 (ls_session lease)))) "execution_session_changed");
  active ← _capability_active (ls_capability_id lease) world;
  _ ← lift (reject_if (negb active) "source_capability_inactive_or_stale");
  mret {| rk_now := now; rk_lease := lease; rk_world := world; rk_session := session |}.

(** The part of [_commit] that runs the executor and records its outcome. *)
Definition run_effect (c : Recheck) (executor : RuntimeOperation -> M S exec_result)
    : M S ExecutionObservation :=
  outcome ← attempt (r ← executor (ls_operation (rk_lease c)); lift (effect_observation r));
  match outcome with
  | inl exc =>
      _ ← _append_commit (rk_lease c) (rk_world c) (rk_session c) (rk_now c) "FAILED"
            (canonical_sha256 (JObj [("error_type", JStr (exn_name (exn_cls exc)))]))
            ["lease_consumed"; "effect_callback_failed"];
      if decide (exn_cls exc = EffectCommitError) then lift (Err exc)
      else raise EffectCommitError "effect_callback_failed"
  | inr observation =>
      _ ← _append_commit (rk_lease c) (rk_world c) (rk_session c) (rk_now c) "SUCCEEDED"
            (eo_result_sha256 observation)
            ["runtime_world_rechecked"; "execution_session_rechecked"; "source_capability_active";
             "lease_consumed"; "effect_committed_under_fence"];
      mret observation
  end.

Definition _commit (lease_id : string) (executor : RuntimeOperation -> M S exec_result)
    : M S ExecutionObservation :=
  checked ← recheck lease_id;
  _ ← set_this (consume lease_id);
  run_effect checked executor.

Definition consume_for_trusted_adapter (lease_id adapter_token : string)
    (executor : RuntimeOperation -> M S exec_result) : M S ExecutionObservation :=
  _ ← lift (reject_if (String.eqb adapter_token "") "adapter_auth_failed");
  self ← this;
  _ ← lift (reject_if (negb (String.eqb (sha256_hex adapter_token) (eb_adapter_token_sha256 self)))
              "adapter_auth_failed");
  _commit lease_id executor.

Definition commit_authorized_effect (operation : RuntimeOperation) (capability_decision : dict)
    (executor : RuntimeOperation -> M S exec_result) : M S ExecutionObservation :=
  issued ← issue_for_trusted_adapter operation capability_decision;
  _commit (fst issued) executor.
End host.

(** ** The mediator that commits its effects through leases *)
Section mediator.
Context {S B G : Type} {bops : BrokerOps B} {env : EffectEnv S}.
Context {LE : Lens S EffectCommitBroker} {LM : Lens S (RuntimeMediator B G)}.

Definition effect_enter_containment (incident_receipt_sha256 : string) : M S unit :=
  _ ← on (T := RuntimeMediator B G) (Mediation.enter_containment incident_receipt_sha256);
  enter_containment incident_receipt_sha256.

Definition effect_exit_containment (human_release_receipt_sha256 : string) : M S unit :=
  _ ← exit_containment human_release_receipt_sha256;
  on (T := RuntimeMediator B G) (Mediation.exit_containment human_release_receipt_sha256).

Definition effect_mediate (operation : RuntimeOperation)
    (executor : RuntimeOperation -> M S exec_result) : M S dict :=
  _ ← lift (RuntimeOperation_validate operation);
  scope ← lift (normalized_scope operation);
  let scope_sha := canonical_sha256 (JObj scope) in
  self ← this (T := RuntimeMediator B G);
  if rm_contained self then
    on (Mediation._finish operation ZERO_SHA256 "BLOCK" "NOT_EXECUTED" ZERO_SHA256
          ["containment_active"; "effect_commit_blocked"] None scope_sha None)
  else
    capability ← request_capability operation scope;
    decision ← lift (dict_item capability "decision");
    if negb (is_str decision "ALLOW") then
      sha ← lift (str_item capability "receipt_sha256");
      codes ← lift (codes_item capability "reason_codes");
      on (Mediation._finish operation sha "BLOCK" "NOT_EXECUTED" ZERO_SHA256 codes None
            scope_sha None)
    else
      outcome ← attempt (commit_authorized_effect operation capability executor);
      sha ← lift (str_item capability "receipt_sha256");
      capability_id ← lift (opt_str capability "capability_id");
      match outcome with
      | inl exc =>
          on (Mediation._finish operation sha "ALLOW" "FAILED"
                (canonical_sha256 (JObj [("error_type", JStr (exn_name (exn_cls exc)))]))
                ["effect_commit_failed"] capability_id scope_sha None)
      | inr observation =>
          on (Mediation._finish operation sha "ALLOW" "SUCCEEDED" (eo_result_sha256 observation)
                ["capability_admitted"; "effect_commit_lease_consumed"; "host_executor_succeeded"]
                capability_id scope_sha None)
      end.
End mediator.
End effect_commit.

(** ** Lemmas *)
Lemma effect_sha_ok v name s : _sha v name = Ok s <-> v = JStr s /\ re_sha s = true.
Proof. apply check_sha_ok. Qed.

Section recheck_lemmas.
Context {hash : Digest} {S : Type} {L : Lens S EffectCommitBroker} {env : EffectEnv S}.
Implicit Types (s : S) (b : EffectCommitBroker).

(** A host call that leaves the broker alone. *)
Definition silent {A} (m : M S A) : Prop := evolves (fun s s' => lget s' = lget s) m.

(** The providers answer; they do not call the broker. *)
Record silent_env : Prop := {
  se_clock : silent env_clock;
  se_world : silent env_world;
  se_session operation_id : silent (env_session operation_id);
  se_capabilities : silent env_capabilities
}.

Definition holds b s : Prop := lget s = b.

(** [a] is what [f] makes of an answer of the provider [m]. *)
Definition observed {A B} (m : M S A) (f : A -> result B) (b : B) : Prop :=
  exists s1 a s2, m s1 = (Ok a, s2) /\ f a = Ok b.

(** [m] keeps the broker, and its result is an observation. *)
Definition observes {A} b (m : M S A) (Φ : A -> Prop) : Prop :=
  hoare (holds b) m (fun a s => holds b s /\ Φ a) (fun _ => holds b).

Lemma silent_observes {A} b (m : M S A) : silent m ->
  observes b m (fun a => exists s1 s2, m s1 = (Ok a, s2)).
Proof.
  intros Hm. apply hoare_returned; [|by eauto]. intros s Hs. specialize (Hm s). unfold holds in *.
  congruence.
Qed.

Lemma observes_lift {A} b (r : result A) : observes b (lift r) (fun a => r = Ok a).
Proof. intros s Hs. by destruct r. Qed.

Lemma observe_step {A B} b (m : M S A) (f : A -> M S B) Φ Q :
  observes b m Φ -> (forall a, Φ a -> hoare (holds b) (f a) Q (fun _ => holds b)) ->
  hoare (holds b) (m ≫= f) Q (fun _ => holds b).
Proof. intros Hm Hf. by eapply hoare_bind_pure. Qed.

Lemma lift_step {A B} b (r : result A) (f : A -> M S B) Q :
  (forall a, r = Ok a -> hoare (holds b) (f a) Q (fun _ => holds b)) ->
  hoare (holds b) (lift r ≫= f) Q (fun _ => holds b).
Proof. apply observe_step, observes_lift. Qed.

Lemma reject_step {B} b (c : bool) code (f : unit -> M S B) Q :
  (c = false -> hoare (holds b) (f tt) Q (fun _ => holds b)) ->
  hoare (holds b) (lift (reject_if c code) ≫= f) Q (fun _ => holds b).
Proof. intros Hf. apply lift_step. intros [] Hu. apply Hf. by eapply raise_if_ok. Qed.

Lemma observes_ret {A} b (a : A) (Φ : A -> Prop) : Φ a -> observes b (mret a) Φ.
Proof. by intros Ha s Hs. Qed.

Lemma now_observes b : silent_env -> observes b _now (fun now => 0 <= now).
Proof.
  intros He. eapply observe_step; [apply silent_observes, He|]. intros z _.
  apply reject_step. intros Hz%Z.ltb_ge. by apply observes_ret.
Qed.

Lemma world_observes b : silent_env ->
  observes b observe_world (observed env_world TrustedRuntimeWorld_observe).
Proof.
  intros He. eapply observe_step; [apply silent_observes, He|]. intros raw (s1 & s2 & Hraw) s Hs. cbn.
  destruct (TrustedRuntimeWorld_observe raw) eqn:Hw; [|done]. split; [done|]. by exists s1, raw, s2.
Qed.

Lemma session_observes b op : silent_env ->
  observes b (observe_session op) (observed (env_session op)
    (fun raw => TrustedExecutionSession_observe raw op (eb_host_binding_sha256 b))).
Proof.
  intros He. eapply observe_step; [apply silent_observes, He|]. intros raw (s1 & s2 & Hraw).
  apply hoare_this. intros s Hs. cbn.
  destruct (TrustedExecutionSession_observe _ _ _) eqn:Hw; [|done]. split; [done|]. by exists s1, raw, s2.
Qed.

(** The capability state lists the capability as active, bound to this world. *)
Definition capability_listed (id : string) (world : TrustedRuntimeWorld) (state : dict) : result bool :=
  items ← capability_list state; find_active id world items.

Lemma capability_observes b id world : silent_env ->
  observes b (_capability_active id world)
    (fun r => r = true -> observed env_capabilities (capability_listed id world) true).
Proof.
  intros He s Hs. unfold _capability_active. rewrite M_attempt.
  pose proof (se_capabilities He s) as Hc. destruct (env_capabilities s) as [[state|e] s1] eqn:E; cbn in Hc.
  2: { split; [by unfold holds in *; congruence|done]. }
  assert (holds b s1) as Hs1 by (unfold holds in *; congruence). rewrite M_lift.
  destruct (capability_list state) as [items|e] eqn:Hl; [|done]. cbn.
  destruct (find_active id world items) as [r|e] eqn:Hf; [|done]. split; [done|]. intros ->.
  exists s, state, s1. unfold capability_listed. by rewrite Hl.
Qed.

(** What is known when a lease is burned. *)
Record rechecked (lease_id : string) b (c : Recheck) : Prop := {
  rc_not_contained : eb_contained b = false;
  rc_known : eb_leases b !! lease_id = Some (rk_lease c);
  rc_unused : ls_consumed (rk_lease c) = false;
  rc_clock : 0 <= rk_now c;
  rc_time : ls_issued_at_unix (rk_lease c) <= rk_now c <= ls_expires_at_unix (rk_lease c);
  rc_world : observed env_world TrustedRuntimeWorld_observe (rk_world c);
  rc_untainted : tw_tainted (rk_world c) = false;
  rc_epoch : tw_epoch (rk_world c) = tw_epoch (ls_runtime_world (rk_lease c));
  rc_state : tw_state_sha256 (rk_world c) = tw_state_sha256 (ls_runtime_world (rk_lease c));
  rc_session : observed (env_session (ro_operation_id (ls_operation (rk_lease c))))
    (fun raw => TrustedExecutionSession_observe raw (ro_operation_id (ls_operation (rk_lease c)))
                  (eb_host_binding_sha256 b)) (rk_session c);
  rc_active : ts_active (rk_session c) = true;
  rc_same_session : ts_session_sha256 (rk_session c) = ts_session_sha256 (ls_session (rk_lease c));
  rc_capability : observed env_capabilities
    (capability_listed (ls_capability_id (rk_lease c)) (rk_world c)) true
}.

Lemma recheck_observes b lease_id : silent_env -> observes b (recheck lease_id) (rechecked lease_id b).
Proof.
  intros He. unfold recheck. eapply observe_step; [by apply now_observes|]. intros now Hnow.
  apply hoare_this. apply reject_step. intros Hcont.
  apply lift_step. intros l Hl.
  assert (eb_leases b !! lease_id = Some l) as Hl' by (destruct (_ !! _); [congruence|discriminate Hl]).
  apply reject_step. intros Hused. apply reject_step. intros Hiss%Z.ltb_ge.
  apply reject_step. intros Hexp%Z.ltb_ge.
  eapply observe_step; [by apply world_observes|]. intros world Hw.
  apply reject_step. intros Ht. apply reject_step. intros Hep%negb_false_iff%Z.eqb_eq.
  apply reject_step. intros Hst%negb_false_iff%String.eqb_eq.
  eapply observe_step; [by apply session_observes|]. intros session Hs.
  apply reject_step. intros Ha%negb_false_iff. apply reject_step. intros Hss%negb_false_iff%String.eqb_eq.
  eapply observe_step; [by apply capability_observes|]. intros active Hact.
  apply reject_step. intros Hon%negb_false_iff. apply observes_ret. constructor; cbn; try done. by apply Hact.
Qed.

Lemma recheck_cases lease_id s : silent_env ->
  (exists e s', recheck lease_id s = (Err e, s') /\ lget s' = lget s)
  \/ exists c s', recheck lease_id s = (Ok c, s') /\ lget s' = lget s /\ rechecked lease_id (lget s) c.
Proof.
  intros He. pose proof (recheck_observes (lget s) lease_id He s eq_refl) as Hr.
  destruct (recheck lease_id s) as [[c|e] s']; [right|left]; [destruct Hr|]; eauto.
Qed.

(** [_commit] raises before the lease is burned, or burns it with everything rechecked. *)
Lemma commit_cases lease_id s : silent_env ->
  (exists e s', lget s' = lget s /\ forall executor, _commit lease_id executor s = (Err e, s'))
  \/ exists c s', lget s' = consume lease_id (lget s) /\ rechecked lease_id (lget s) c
     /\ forall executor, _commit lease_id executor s = run_effect c executor s'.
Proof.
  intros He. destruct (recheck_cases lease_id s He) as [(e & s' & Hr & Hs)|(c & s' & Hr & Hs & Hc)].
  - left. exists e, s'. split; [done|]. intros executor. unfold _commit. by rewrite M_bind_eq, Hr.
  - right. exists c, (lput (consume lease_id (lget s')) s'). rewrite lget_lput, Hs. split_and!; [done|done|].
    intros executor. unfold _commit. by rewrite M_bind_eq, Hr, M_set_this, Hs.
Qed.
End recheck_lemmas.

(** *** Frames

    A relation that holds of every update of the broker and of every host call holds of
    a whole call of the broker. *)
Section frames.
Context {hash : Digest} {S : Type} {L : Lens S EffectCommitBroker} {env : EffectEnv S}.
Context (R : S -> S -> Prop) `{!PreOrder R}.
Context (Hset : forall f, evolves R (set_this (T := EffectCommitBroker) f)).
Context (Hclock : evolves R env_clock) (Hworld : evolves R env_world).
Context (Hsession : forall op, evolves R (env_session op)) (Hcaps : evolves R env_capabilities).

Ltac frame_step := first
  [ evolve_step | apply Hset | apply Hclock | apply Hworld | apply Hsession | apply Hcaps
  | match goal with |- evolves _ (match ?x with _ => _ end) => destruct x end ].

Lemma issue_frame op cap : evolves R (issue_for_trusted_adapter op cap).
Proof.
  unfold issue_for_trusted_adapter, _now, observe_world, observe_session, _capability_active.
  repeat frame_step.
Qed.

Lemma recheck_frame id : evolves R (recheck id).
Proof. unfold recheck, _now, observe_world, observe_session, _capability_active. repeat frame_step. Qed.

Lemma consume_frame id token (executor : RuntimeOperation -> M S exec_result) :
  (forall op, evolves R (executor op)) -> evolves R (consume_for_trusted_adapter id token executor).
Proof.
  intros Hex. unfold consume_for_trusted_adapter, _commit, run_effect, _append_commit.
  repeat first [apply recheck_frame | apply Hex | frame_step].
Qed.

Lemma containment_frame (c : bool) sha :
  evolves R (if c then enter_containment sha else exit_containment sha).
Proof. destruct c; unfold enter_containment, exit_containment; repeat frame_step. Qed.
End frames.

(** *** The broker's invariant *)
Section broker_invariant.
Context {hash : Digest}.
Implicit Types (b : EffectCommitBroker) (l : _Lease).

(** The receipt describes the lease. *)
Record lease_receipt l (a : EffectCommitAuthorizationReceipt) : Prop := {
  lr_receipt : ea_receipt_sha256 a = ls_authorization_receipt_sha256 l;
  lr_lease : ea_lease_id_sha256 a = canonical_sha256 (JStr (ls_lease_id l));
  lr_operation : ea_operation_id a = ro_operation_id (ls_operation l);
  lr_payload : ea_payload_sha256 a = ro_payload_sha256 (ls_operation l);
  lr_capability : ea_capability_id a = ls_capability_id l;
  lr_epoch : ea_runtime_epoch a = tw_epoch (ls_runtime_world l);
  lr_state : ea_runtime_state_sha256 a = tw_state_sha256 (ls_runtime_world l);
  lr_session : ea_execution_session_sha256 a = ts_session_sha256 (ls_session l);
  lr_issued : ea_issued_at_unix a = ls_issued_at_unix l;
  lr_expires : ea_expires_at_unix a = ls_expires_at_unix l
}.

(** The commit is one of the lease, within its time and on its world and session. *)
Record commit_receipt l (c : EffectCommitReceipt) : Prop := {
  cr_authorization : ec_authorization_receipt_sha256 c = ls_authorization_receipt_sha256 l;
  cr_lease : ec_lease_id_sha256 c = canonical_sha256 (JStr (ls_lease_id l));
  cr_operation : ec_operation_id c = ro_operation_id (ls_operation l);
  cr_epoch : ec_runtime_epoch c = tw_epoch (ls_runtime_world l);
  cr_state : ec_runtime_state_sha256 c = tw_state_sha256 (ls_runtime_world l);
  cr_session : ec_execution_session_sha256 c = ts_session_sha256 (ls_session l);
  cr_time : ls_issued_at_unix l <= ec_committed_at_unix c <= ls_expires_at_unix l;
  cr_digest : ec_receipt_sha256 c = canonical_sha256 (JObj (EffectCommitReceipt_body c))
}.

Definition authorization_good (ttl : Z) (a : EffectCommitAuthorizationReceipt) : Prop :=
  0 <= ea_issued_at_unix a /\ ea_expires_at_unix a = ea_issued_at_unix a + ttl
  /\ ea_receipt_sha256 a = canonical_sha256 (JObj (EffectCommitAuthorizationReceipt_body a)).

(** The lease was the [n]-th issued, for some [n] up to [count]. *)
Definition numbered (count : nat) (lease_id : string) : Prop :=
  exists n rest, 1 <= n <= Z.of_nat count
    /\ lease_id = "effect-lease:" +:+ pretty n +:+ ":" +:+ rest.

Definition lease_good b (id : string) l : Prop :=
  ls_lease_id l = id /\ numbered (size (eb_leases b)) id
  /\ exists a, a ∈ eb_authorizations b /\ lease_receipt l a.

Definition commit_backed b (c : EffectCommitReceipt) : Prop :=
  exists id l, eb_leases b !! id = Some l /\ ls_consumed l = true /\ commit_receipt l c.

Record effect_inv b : Prop := {
  ei_ttl : 1 <= eb_lease_ttl_seconds b <= MAX_LEASE_TTL_SECONDS;
  ei_leases : map_Forall (lease_good b) (eb_leases b);
  ei_authorizations : Forall (authorization_good (eb_lease_ttl_seconds b)) (eb_authorizations b);
  ei_commits : Forall (commit_backed b) (eb_commits b)
}.

(** The lease is still there, the same or burned. *)
Definition lease_grows l (o : option _Lease) : Prop := o = Some l \/ o = Some (burn l).

Record effect_grows b b' : Prop := {
  eg_host : eb_host_binding_sha256 b' = eb_host_binding_sha256 b;
  eg_ttl : eb_lease_ttl_seconds b' = eb_lease_ttl_seconds b;
  eg_leases : map_Forall (fun id l => lease_grows l (eb_leases b' !! id)) (eb_leases b);
  eg_authorizations : eb_authorizations b `prefix_of` eb_authorizations b';
  eg_commits : eb_commits b `prefix_of` eb_commits b'
}.

Definition effect_ok b b' : Prop := effect_inv b -> effect_inv b' /\ effect_grows b b'.

Lemma burn_burn l : burn (burn l) = burn l.
Proof. done. Qed.

Lemma burn_consumed l : ls_consumed l = true -> burn l = l.
Proof. destruct l. cbn. by intros ->. Qed.

Lemma effect_grows_refl b : effect_grows b b.
Proof. constructor; try done. intros id l Hl. by left. Qed.

Lemma effect_grows_trans b1 b2 b3 : effect_grows b1 b2 -> effect_grows b2 b3 -> effect_grows b1 b3.
Proof.
  intros [A1 A2 A3 A4 A5] [B1 B2 B3 B4 B5].
  constructor; [congruence|congruence| |by etrans|by etrans].
  intros id l Hl. destruct (A3 id l Hl) as [H2|H2]; destruct (B3 id _ H2) as [H3|H3];
    [by left|by right|by right|right; by rewrite burn_burn in H3].
Qed.

#[export] Instance effect_ok_preorder : PreOrder effect_ok.
Proof.
  split; [intros b Hb; split; [done|apply effect_grows_refl]|]. intros b1 b2 b3 H12 H23 H1.
  destruct (H12 H1) as [H2 G12]. destruct (H23 H2) as [H3 G23]. split; [done|]. by eapply effect_grows_trans.
Qed.

Lemma grows_lookup b b' id l : effect_grows b b' -> eb_leases b !! id = Some l ->
  exists l', eb_leases b' !! id = Some l' /\ (ls_consumed l = true -> l' = l) /\ (l' = l \/ l' = burn l).
Proof.
  intros Hg Hl. destruct (eg_leases _ _ Hg id l Hl) as [H'|H']; eexists; (split; [exact H'|]).
  - by split; [|left].
  - split; [apply burn_consumed|by right].
Qed.

Lemma commit_backed_grows b b' c : effect_grows b b' -> commit_backed b c -> commit_backed b' c.
Proof.
  intros Hg (id & l & Hl & Hc & Hr). destruct (grows_lookup _ _ _ _ Hg Hl) as (l' & Hl' & Hsame & _).
  exists id, l'. by rewrite (Hsame Hc) in *.
Qed.

Lemma numbered_weaken n m id : (n <= m)%nat -> numbered n id -> numbered m id.
Proof. intros Hnm (k & rest & Hk & ->). exists k, rest. split; [lia|done]. Qed.

(** *** Lease identifiers are never reused *)
Lemma lease_id_fresh b op csha world session : effect_inv b ->
  eb_leases b !! lease_id_of (size (eb_leases b)) op csha world session = None.
Proof.
  intros Hb. destruct (_ !! _) as [l|] eqn:Hl; [|done]. exfalso.
  destruct (ei_leases _ Hb _ _ Hl) as (_ & (n & rest & Hn & Heq) & _).
  unfold lease_id_of in Heq. apply numbered_injective in Heq. lia.
Qed.

(** *** Commits and consumed leases *)

(** Consumed leases without a commit receipt. *)
Definition unsettled b : Z :=
  Z.of_nat (size (consumed_leases b)) - Z.of_nat (length (eb_commits b)).

(** What a whole call does: the invariant is kept, nothing is undone, and every lease
    it consumes gets one commit receipt. *)
Definition effect_keeps b b' : Prop :=
  effect_inv b -> effect_inv b' /\ effect_grows b b' /\ unsettled b' = unsettled b.

#[export] Instance effect_keeps_preorder : PreOrder effect_keeps.
Proof.
  split; [intros b Hb; split; [done|]; split; [apply effect_grows_refl|done]|].
  intros b1 b2 b3 H12 H23 H1.
  destruct (H12 H1) as (H2 & G12 & U12). destruct (H23 H2) as (H3 & G23 & U23).
  split; [done|]. split; [by eapply effect_grows_trans|congruence].
Qed.

Lemma set_contained_keeps c b : effect_keeps b (set_contained c b).
Proof.
  intros [H1 H2 H3 H4]. split; [by constructor|]. split; [|done].
  constructor; try done. intros id l Hl. by left.
Qed.

Lemma add_lease_keeps b a l : effect_inv b -> ls_consumed l = false ->
  eb_leases b !! ls_lease_id l = None -> numbered (S (size (eb_leases b))) (ls_lease_id l) ->
  lease_receipt l a -> authorization_good (eb_lease_ttl_seconds b) a -> effect_keeps b (add_lease a l b).
Proof.
  intros Hb Hcons Hfresh Hnum Hrec Hgood _.
  assert (effect_grows b (add_lease a l b)) as Hg.
  { constructor; try done; [|by eexists]. intros id l' Hl'. left. cbn.
    rewrite lookup_insert_ne; [done|]. intros <-. congruence. }
  destruct Hb as [H1 H2 H3 H4]. split; [|split; [done|]].
  - constructor; cbn.
    + done.
    + apply map_Forall_insert_2.
      * split; [done|]. cbn. rewrite map_size_insert_None by done. split; [done|].
        exists a. split; [|done]. apply elem_of_app. right. by left.
      * intros id l' Hl'. destruct (H2 id l' Hl') as (Hid & Hn & (a' & Ha' & Hr')). split; [done|].
        cbn. rewrite map_size_insert_None by done. split; [by eapply numbered_weaken; [|exact Hn]; lia|].
        exists a'. split; [|done]. apply elem_of_app. by left.
    + apply Forall_app. by split; [|constructor].
    + eapply Forall_impl; [exact H4|]. intros c. by apply commit_backed_grows.
  - unfold unsettled, consumed_leases. cbn. rewrite map_filter_insert_not'; [done|cbn; congruence|].
    intros y Hy. congruence.
Qed.

Lemma consume_insert b id l : eb_leases b !! id = Some l ->
  eb_leases (consume id b) = <[id := burn l]> (eb_leases b).
Proof.
  intros Hl. cbn. apply map_eq. intros j. destruct (decide (id = j)) as [<-|Hne].
  - by rewrite lookup_alter_eq, Hl, lookup_insert_eq.
  - by rewrite lookup_alter_ne, lookup_insert_ne.
Qed.

Lemma consume_ok b id l : effect_inv b -> eb_leases b !! id = Some l -> ls_consumed l = false ->
  effect_inv (consume id b) /\ effect_grows b (consume id b)
  /\ unsettled (consume id b) = unsettled b + 1.
Proof.
  intros Hb Hl Hc. pose proof (consume_insert b id l Hl) as Hins.
  assert (effect_grows b (consume id b)) as Hg.
  { constructor; try done. intros id' l' Hl'. rewrite Hins. destruct (decide (id = id')) as [<-|Hne].
    - right. rewrite lookup_insert_eq. congruence.
    - left. by rewrite lookup_insert_ne. }
  destruct Hb as [H1 H2 H3 H4]. split; [|split; [done|]].
  - constructor; try done.
    + rewrite Hins. assert (size (eb_leases (consume id b)) = size (eb_leases b)) as Hsz
        by (rewrite Hins; by apply map_size_insert_Some).
      apply map_Forall_insert_2; [|intros id' l' Hl'; specialize (H2 id' l' Hl')];
        [pose proof (H2 id l Hl) as Hgood; destruct Hgood as (? & ? & a & Ha & Hr)
        |destruct H2 as (? & ? & a & Ha & Hr)]; (split; [done|]; rewrite Hsz; split; [done|]);
        exists a; (split; [done|]); [destruct Hr; by constructor|done].
    + eapply Forall_impl; [exact H4|]. intros c. by apply commit_backed_grows.
  - unfold unsettled, consumed_leases. rewrite Hins, map_filter_insert_True by done.
    rewrite map_size_insert_None; [cbn; lia|]. apply map_lookup_filter_None. right.
    intros x Hx. cbn. congruence.
Qed.

Lemma push_commit_ok b c : effect_inv b -> commit_backed b c ->
  effect_inv (push_commit c b) /\ effect_grows b (push_commit c b)
  /\ unsettled (push_commit c b) = unsettled b - 1.
Proof.
  intros Hb Hc. assert (effect_grows b (push_commit c b)) as Hg.
  { constructor; try done; [|by eexists]. intros id l Hl. by left. }
  destruct Hb as [H1 H2 H3 H4]. split; [|split; [done|]].
  - constructor; try done. cbn. apply Forall_app. split; [|constructor; [done|constructor]]; done.
  - unfold unsettled, consumed_leases. cbn. rewrite length_app. cbn. lia.
Qed.
End broker_invariant.

(** *** Calls of the broker *)
Section calls.
Context {hash : Digest} {S : Type} {L : Lens S EffectCommitBroker} {env : EffectEnv S}.
Implicit Types (s : S) (b : EffectCommitBroker).
Implicit Types (executor : RuntimeOperation -> M S exec_result).

(** What the host's code must respect: the broker is changed by its own methods. *)
Definition host_keeps s s' : Prop := effect_keeps (lget s) (lget s').

#[export] Instance host_keeps_preorder : PreOrder host_keeps.
Proof.
  split; [intros s; exact (reflexivity (R:=effect_keeps) (lget s))|].
  intros s1 s2 s3 H1 H2. exact (transitivity (R:=effect_keeps) H1 H2).
Qed.

(** What is known of a lease when it is issued. *)
Record issued b (op : RuntimeOperation) (a : EffectCommitAuthorizationReceipt) (l : _Lease) : Prop := {
  is_not_contained : eb_contained b = false;
  is_operation : ls_operation l = op;
  is_unused : ls_consumed l = false;
  is_id : exists csha world session,
    ls_lease_id l = lease_id_of (size (eb_leases b)) op csha world session;
  is_receipt : lease_receipt l a;
  is_good : authorization_good (eb_lease_ttl_seconds b) a;
  is_world : observed env_world TrustedRuntimeWorld_observe (ls_runtime_world l);
  is_untainted : tw_tainted (ls_runtime_world l) = false;
  is_active : ts_active (ls_session l) = true;
  is_capability : observed env_capabilities
    (capability_listed (ls_capability_id l) (ls_runtime_world l)) true
}.

Lemma issue_spec b op cap : silent_env ->
  hoare (holds b) (issue_for_trusted_adapter op cap)
    (fun r s => exists a l, lget s = add_lease a l b /\ issued b op a l
       /\ r = (ls_lease_id l, EffectCommitAuthorizationReceipt_as_document a))
    (fun _ => holds b).
Proof.
  intros He. unfold issue_for_trusted_adapter. apply lift_step. intros [[cid csha] bsha] _.
  apply hoare_this. apply reject_step. intros Hcont.
  eapply observe_step; [by apply now_observes|]. intros now Hnow.
  eapply observe_step; [by apply world_observes|]. intros world Hw. apply reject_step. intros Ht.
  eapply observe_step; [by apply session_observes|]. intros session Hs.
  apply reject_step. intros Ha%negb_false_iff.
  eapply observe_step; [by apply capability_observes|]. intros active Hact.
  apply reject_step. intros Hon%negb_false_iff. apply lift_step. intros scope _.
  apply hoare_this. cbv zeta. intros s Hh. rewrite M_set_this.
  set (id := lease_id_of _ _ _ _ _). set (a := authorization_of _ _ _ _ _ _ _ _ _ _ _).
  set (l := {| ls_lease_id := id |}). exists a, l. rewrite lget_lput, Hh. split_and!; [done| |done].
  constructor; try done.
  - by exists csha, world, session.
  - by apply Hact.
Qed.

Lemma issued_keeps b op a l : effect_inv b -> issued b op a l -> effect_keeps b (add_lease a l b).
Proof.
  intros Hb [_ _ Hu (csha & world & session & Hid) Hr Hg _ _ _ _]. apply add_lease_keeps; try done.
  - rewrite Hid. by apply lease_id_fresh.
  - rewrite Hid. eexists (Z.of_nat (size (eb_leases b)) + 1), _. split; [lia|]. reflexivity.
Qed.

Lemma issue_keeps op cap : silent_env -> evolves host_keeps (issue_for_trusted_adapter op cap).
Proof.
  intros He s Hi. pose proof (issue_spec (lget s) op cap He s eq_refl) as Hs.
  destruct (issue_for_trusted_adapter op cap s) as [[r|e] s'].
  - destruct Hs as (a & l & Hl & His & _). cbn. rewrite Hl. by apply (issued_keeps _ op).
  - unfold holds in Hs. cbn. rewrite Hs. by apply (reflexivity (R:=effect_keeps) (lget s)).
Qed.

(** The executor's run is followed by exactly one commit receipt. *)
Lemma run_effect_run c executor s :
  exists outcome sha reasons,
    let s2 := snd (executor (ls_operation (rk_lease c)) s) in
    let receipt := commit_of (rk_lease c) (rk_world c) (rk_session c) (rk_now c) outcome sha reasons in
    snd (run_effect c executor s) = lput (push_commit receipt (lget s2)) s2
    /\ re_sha sha = true /\ forall o, fst (run_effect c executor s) = Ok o -> outcome = "SUCCEEDED" /\ sha = eo_result_sha256 o.
Proof.
  unfold run_effect. rewrite M_attempt, M_bind_eq.
  destruct (executor _ s) as [[r|e] s2]; cbn [snd].
  - cbn [lift]. destruct (effect_observation r) as [o|e] eqn:Ho.
    + rewrite M_bind_eq. unfold _append_commit. rewrite M_lift.
      assert (re_sha (eo_result_sha256 o) = true) as Hsha.
      { destruct r as [o'|]; cbn in Ho; [|done]. unfold ExecutionObservation_validate in Ho. py_inv.
        by match goal with Hx : Mediation._sha _ _ = Ok _ |- _ => apply mediation_sha_ok in Hx as [_ ?] end. }
      rewrite (proj2 (effect_sha_ok _ _ _) (conj eq_refl Hsha)).
      eexists _, _, _. split; [reflexivity|]. split; [done|]. by intros o' [= <-].
    + rewrite M_bind_eq. unfold _append_commit. rewrite M_lift. unfold _sha. rewrite check_canonical_sha256.
      eexists _, _, _. split; [cbn; destruct (decide _); reflexivity|].
      split; [apply canonical_sha256_sha|]. cbn. by destruct (decide _).
  - rewrite M_bind_eq. unfold _append_commit. rewrite M_lift. unfold _sha. rewrite check_canonical_sha256.
    eexists _, _, _. split; [cbn; destruct (decide _); reflexivity|].
      split; [apply canonical_sha256_sha|]. cbn. by destruct (decide _).
Qed.

Lemma commit_of_receipt id b c outcome sha reasons l : rechecked id b c ->
  l = burn (rk_lease c) -> commit_receipt l (commit_of (rk_lease c) (rk_world c) (rk_session c)
    (rk_now c) outcome sha reasons).
Proof. intros [] ->. constructor; cbn; done. Qed.

Lemma run_effect_keeps id b c executor s : effect_inv b -> rechecked id b c ->
  lget s = consume id b -> evolves host_keeps (executor (ls_operation (rk_lease c))) ->
  let b' := lget (snd (run_effect c executor s)) in
  effect_inv b' /\ effect_grows b b' /\ unsettled b' = unsettled b.
Proof.
  intros Hb Hc Hs Hex. destruct (run_effect_run c executor s) as (out & sha & rs & Hrun & _).
  cbv zeta in *. rewrite Hrun, lget_lput. clear Hrun.
  destruct (consume_ok b id (rk_lease c) Hb (rc_known _ _ _ Hc) (rc_unused _ _ _ Hc)) as (I1 & G1 & U1).
  rewrite <- Hs in I1, G1, U1. destruct (Hex s I1) as (I2 & G2 & U2).
  set (b2 := lget (snd (executor _ s))) in *.
  assert (eb_leases (lget s) !! id = Some (burn (rk_lease c))) as Hl.
  { rewrite Hs, (consume_insert b id (rk_lease c) (rc_known _ _ _ Hc)). apply lookup_insert_eq. }
  destruct (grows_lookup _ _ _ _ G2 Hl) as (l' & Hl' & Hsame & _). rewrite (Hsame eq_refl) in Hl'.
  destruct (push_commit_ok b2 (commit_of (rk_lease c) (rk_world c) (rk_session c) (rk_now c) out sha rs) I2)
    as (I3 & G3 & U3).
  { exists id, (burn (rk_lease c)). split_and!; [done|done|]. by eapply commit_of_receipt. }
  split; [exact I3|]. split; [|lia].
  eapply effect_grows_trans; [exact G1|]. by eapply effect_grows_trans.
Qed.

Lemma commit_keeps id executor : silent_env -> (forall op, evolves host_keeps (executor op)) ->
  evolves host_keeps (_commit id executor).
Proof.
  intros He Hex s Hi. destruct (commit_cases id s He) as [(e & s' & Hs & Hrun)|(c & s' & Hs & Hc & Hrun)];
    rewrite Hrun.
  - cbn. rewrite Hs. by apply (reflexivity (R:=effect_keeps) (lget s)).
  - by eapply run_effect_keeps.
Qed.

Lemma commit_authorized_keeps op cap executor : silent_env ->
  (forall op, evolves host_keeps (executor op)) ->
  evolves host_keeps (commit_authorized_effect op cap executor).
Proof.
  intros He Hex. apply evolves_bind; [typeclasses eauto|by apply issue_keeps|]. intros issued.
  by apply commit_keeps.
Qed.

Lemma consume_adapter_keeps id token executor : silent_env ->
  (forall op, evolves host_keeps (executor op)) ->
  evolves host_keeps (consume_for_trusted_adapter id token executor).
Proof.
  intros He Hex. unfold consume_for_trusted_adapter.
  apply evolves_bind; [typeclasses eauto|apply evolves_lift; typeclasses eauto|intros _].
  apply evolves_bind; [typeclasses eauto|apply evolves_this; typeclasses eauto|intros self].
  apply evolves_bind; [typeclasses eauto|apply evolves_lift; typeclasses eauto|intros _].
  by apply commit_keeps.
Qed.

Lemma containment_keeps (c : bool) sha :
  evolves host_keeps (if c then enter_containment sha else exit_containment sha).
Proof.
  destruct c; (apply evolves_bind; [typeclasses eauto|apply evolves_lift; typeclasses eauto|intros _]);
    apply (evolves_set_this effect_keeps); intros b; apply set_contained_keeps.
Qed.

(** One step of a host: a call of the broker with executors that leave it to its own
    methods, or host code that does. *)
Inductive effect_step (s : S) : S -> Prop :=
  | es_issue op cap : effect_step s (snd (issue_for_trusted_adapter op cap s))
  | es_consume id token executor : (forall op, evolves host_keeps (executor op)) ->
      effect_step s (snd (consume_for_trusted_adapter id token executor s))
  | es_commit op cap executor : (forall op, evolves host_keeps (executor op)) ->
      effect_step s (snd (commit_authorized_effect op cap executor s))
  | es_enter sha : effect_step s (snd (enter_containment sha s))
  | es_exit sha : effect_step s (snd (exit_containment sha s))
  | es_host s' : host_keeps s s' -> effect_step s s'.

Lemma effect_step_keeps s s' : silent_env -> effect_step s s' -> host_keeps s s'.
Proof.
  intros He. destruct 1 as [op cap|id token ex Hex|op cap ex Hex|sha|sha|s' Hk].
  - by apply issue_keeps.
  - by apply consume_adapter_keeps.
  - by apply commit_authorized_keeps.
  - apply (containment_keeps true sha).
  - apply (containment_keeps false sha).
  - done.
Qed.

Lemma effect_steps_keep s s' : silent_env -> star effect_step s s' -> host_keeps s s'.
Proof.
  intros He. induction 1 as [s|s1 s2 s3 _ IH Hstep]; [exact (reflexivity (R:=effect_keeps) _)|].
  refine (transitivity (R:=effect_keeps) IH _). by apply effect_step_keeps.
Qed.
End calls.

(** *** Mediated effects *)
Section mediated.
Context {hash : Digest} {S B G : Type} {bops : BrokerOps B} {env : EffectEnv S}.
Context {LE : Lens S EffectCommitBroker} {LM : Lens S (RuntimeMediator B G)}.
Implicit Types s : S.

(** The mediator and the commit broker are different objects of the host. *)
Definition separate : Prop := forall (m : RuntimeMediator B G) s,
  lget (T := EffectCommitBroker) (lput m s) = lget s.

Lemma on_silent {A} (m : M (RuntimeMediator B G) A) : separate -> silent (on m).
Proof. intros Hsep s. rewrite on_run. destruct (m (lget s)) as [r t]. apply Hsep. Qed.

Lemma request_silent op scope : separate -> silent (request_capability op scope).
Proof.
  intros Hsep s. unfold request_capability. rewrite M_lift. destruct (table_item _ _); [|done].
  by apply on_silent.
Qed.

(** The commit of a call that returns an observation. *)
Definition committed s s' (op : RuntimeOperation) (o : ExecutionObservation) : Prop :=
  exists pre c, eb_commits (lget s') = pre ++ [c] /\ eb_commits (lget s) `prefix_of` pre
    /\ ec_operation_id c = ro_operation_id op /\ ec_effect_outcome c = "SUCCEEDED"
    /\ ec_result_sha256 c = eo_result_sha256 o.

Lemma commit_success id executor s o s' : silent_env -> (forall op, evolves host_keeps (executor op)) ->
  effect_inv (lget s) -> _commit id executor s = (Ok o, s') ->
  exists l, eb_leases (lget s) !! id = Some l /\ committed s s' (ls_operation l) o.
Proof.
  intros He Hex Hi Hrun. destruct (commit_cases id s He) as [(e & s1 & _ & Hr)|(c & s1 & Hs & Hc & Hr)];
    rewrite Hr in Hrun; [done|].
  exists (rk_lease c). split; [apply Hc|].
  destruct (run_effect_run c executor s1) as (out & sha & rs & Hsnd & Hok). cbv zeta in Hsnd.
  rewrite Hrun in Hsnd, Hok. cbn [fst snd] in Hsnd, Hok. destruct (proj2 Hok o eq_refl) as [-> ->]. subst s'.
  unfold committed. rewrite lget_lput. eexists _, _. split; [reflexivity|].
  destruct (consume_ok _ id _ Hi (rc_known _ _ _ Hc) (rc_unused _ _ _ Hc)) as (I1 & G1 & _).
  rewrite <- Hs in I1, G1. destruct (Hex (ls_operation (rk_lease c)) s1 I1) as (_ & G2 & _).
  split; [|done]. etrans; [apply (eg_commits _ _ G1)|apply (eg_commits _ _ G2)].
Qed.

Lemma commit_authorized_success op cap executor s o s' : silent_env ->
  (forall op, evolves host_keeps (executor op)) -> effect_inv (lget s) ->
  commit_authorized_effect op cap executor s = (Ok o, s') -> committed s s' op o.
Proof.
  intros He Hex Hi. unfold commit_authorized_effect. rewrite M_bind_eq.
  pose proof (issue_spec (lget s) op cap He s eq_refl) as Hs.
  destruct (issue_for_trusted_adapter op cap s) as [[r|e] s1]; [|done].
  destruct Hs as (a & l & Hl & His & ->). cbn [fst]. intros Hrun.
  destruct (issued_keeps _ op a l Hi His Hi) as (Hi1 & G1 & _). rewrite <- Hl in Hi1, G1.
  destruct (commit_success _ _ _ _ _ He Hex Hi1 Hrun) as (l' & Hl' & pre & c & Hc & Hpre & Hop & Hrest).
  rewrite Hl in Hl'. cbn in Hl'. rewrite lookup_insert_eq in Hl'. injection Hl' as <-.
  exists pre, c. split; [done|]. split; [etrans; [apply (eg_commits _ _ G1)|done]|].
  by rewrite (is_operation _ _ _ _ His) in Hop.
Qed.

Definition shows (outcome result_sha : string) (doc : dict) : Prop :=
  dict_get doc "execution_outcome" = Some (JStr outcome)
  /\ dict_get doc "result_sha256" = Some (JStr result_sha).

Lemma on_finish_outcome op csha adm out rsha rs cid ssha ov :
  returns (shows out rsha) (on (T := RuntimeMediator B G)
    (Mediation._finish op csha adm out rsha rs cid ssha ov) : M S dict).
Proof.
  apply returns_on. unfold Mediation._finish. do 5 (apply returns_bind; intros ?). by apply returns_ret.
Qed.

Lemma effect_mediate_success op executor s doc s' : silent_env -> separate ->
  (forall op, evolves host_keeps (executor op)) -> effect_inv (lget s) ->
  effect_mediate op executor s = (Ok doc, s') ->
  dict_get doc "execution_outcome" = Some (JStr "SUCCEEDED") ->
  exists o, committed s s' op o /\ dict_get doc "result_sha256" = Some (JStr (eo_result_sha256 o)).
Proof.
  intros He Hsep Hex Hi Hrun Hout. unfold effect_mediate in Hrun. M_run Hrun.
  destruct (RuntimeOperation_validate op); [|done]. M_run Hrun.
  destruct (normalized_scope op) as [scope|]; [|done]. cbv zeta in Hrun. M_run Hrun.
  destruct (rm_contained _); [apply on_finish_outcome in Hrun as [Ho _]; congruence|].
  rewrite M_bind_eq in Hrun. pose proof (request_silent op scope Hsep s) as Hs1.
  destruct (request_capability op scope s) as [[cap|e] s1]; [|done]. cbn in Hs1. M_run Hrun.
  destruct (dict_item cap "decision"); [|done]. destruct (negb _).
  { M_run Hrun. destruct (str_item _ _); [|done]. M_run Hrun. destruct (codes_item _ _); [|done].
    apply on_finish_outcome in Hrun as [Ho _]. congruence. }
  rewrite M_attempt in Hrun.
  destruct (commit_authorized_effect op cap executor s1) as [[o|e] s2] eqn:Hcommit; M_run Hrun;
    (destruct (str_item _ _); [|done]); M_run Hrun; (destruct (opt_str _ _); [|done]);
    pose proof (on_finish_outcome _ _ _ _ _ _ _ _ _ _ _ _ Hrun) as [Ho Hres]; [|congruence].
  exists o. split; [|done].
  assert (lget (T := EffectCommitBroker) s' = lget s2) as Hs'.
  { match type of Hrun with ?m _ = _ => pose proof (on_silent _ Hsep s2 : lget (T := EffectCommitBroker) (snd (m s2)) = lget s2) as Hq end.
    by rewrite Hrun in Hq. }
  destruct (commit_authorized_success op cap executor s1 o s2 He Hex) as (pre & c & Hc & Hrest);
    [by rewrite Hs1|done|]. exists pre, c. rewrite Hs', <- Hs1. done.
Qed.
End mediated.

(** ** Example values *)
#[local] Existing Instance checksum_digest.

Definition runtime_document : dict := EpochBroker.example_runtime 3 false.

Definition bound_config_document : dict :=
  from_ok [] (contract ← EpochBroker.EpochBoundCapabilityContract_build
                (seal "contract_sha256"
                   (provisional_body CAPABILITY_SCHEMA Contracts.AUTHORITY config_kwargs)) 3 ZERO_SHA256;
              Ok (EpochBroker.EpochBoundCapabilityContract_as_document contract)).

Definition example_epoch_host : EpochHost := {|
  eh_broker := snd (EpochBroker.admit_contract (Ok runtime_document) bound_config_document 100
                      EpochBroker.fresh_epoch_broker);
  eh_runtime := Ok runtime_document |}.

(** A host with a commit broker and a mediator. *)
Definition ExampleHost : Type := EffectCommitBroker * RuntimeMediator EpochHost unit.

#[local] Instance example_broker_lens : Lens ExampleHost EffectCommitBroker := {
  lget := fst; lput b s := (b, snd s); lget_lput b s := eq_refl;
  lput_lget s := match s with (b, m) => eq_refl end; lput_lput b b' s := eq_refl }.

#[local] Instance example_mediator_lens : Lens ExampleHost (RuntimeMediator EpochHost unit) := {
  lget := snd; lput m s := (fst s, m); lget_lput m s := eq_refl;
  lput_lget s := match s with (b, m) => eq_refl end; lput_lput m m' s := eq_refl }.

#[local] Instance example_env : EffectEnv ExampleHost := {
  env_clock s := (Ok 150, s);
  env_world s := (Ok runtime_document, s);
  env_session op s := (build_session_document op ZERO_SHA256 ZERO_SHA256 true, s);
  env_capabilities s := (op_state_document (rm_broker (snd s)), s) }.

Definition example_commit_broker : EffectCommitBroker :=
  from_ok {| eb_host_binding_sha256 := ""; eb_adapter_token_sha256 := ""; eb_lease_ttl_seconds := 1;
             eb_leases := ∅; eb_authorizations := []; eb_commits := []; eb_contained := false |}
    (EffectCommitBroker_init ZERO_SHA256 (sha256_hex "token") 10).

Definition example_host : ExampleHost :=
  (example_commit_broker, RuntimeMediator_init example_epoch_host None).

Definition example_mediated : result dict * ExampleHost :=
  effect_mediate example_operation good_executor example_host.

Definition example_commits : list EffectCommitReceipt := eb_commits (fst (snd example_mediated)).

Example mediated_succeeds :
  (doc ← fst example_mediated; dict_item doc "execution_outcome") = Ok (JStr "SUCCEEDED")
  /\ length example_commits = 1%nat.
Proof. vm_compute. split; reflexivity. Qed.

Lemma example_silent : silent_env (S := ExampleHost) (L := example_broker_lens).
Proof. constructor; intros; intros s; reflexivity. Qed.

Definition example_decision : dict :=
  [("decision", JStr "ALLOW"); ("capability_id", JStr "cap:9"); ("receipt_sha256", JStr ZERO_SHA256);
   ("bound_contract_sha256", JStr (canonical_sha256 (JStr "contract")))].

Definition example_issued : result (string * dict) * ExampleHost :=
  issue_for_trusted_adapter example_operation example_decision example_host.

Definition example_lease : string := fst (from_ok ("", []) (fst example_issued)).

Definition example_committed : result ExecutionObservation * ExampleHost :=
  consume_for_trusted_adapter example_lease "token" good_executor (snd example_issued).

Lemma good_executor_keeps op :
  evolves (host_keeps (S := ExampleHost) (L := example_broker_lens)) (good_executor op).
Proof. intros s. exact (reflexivity (R:=effect_keeps) (fst s)). Qed.

Lemma example_committed_reachable : star (effect_step (S := ExampleHost) (L := example_broker_lens)
  (env := example_env)) example_host (snd example_committed).
Proof.
  apply (star_step _ example_host (snd example_issued)).
  - apply (star_step _ example_host example_host); [apply star_refl|].
    unfold example_issued. apply es_issue.
  - unfold example_committed. apply es_consume. apply good_executor_keeps.
Qed.

Section init.
Context {hash : Digest}.

Lemma effect_init_inv host token ttl b : EffectCommitBroker_init host token ttl = Ok b ->
  effect_inv b /\ unsettled b = 0.
Proof.
  unfold EffectCommitBroker_init, reject_if. intros Hi. py_inv.
  match goal with Hb : negb _ = false |- _ =>
    apply negb_false_iff, andb_true_iff in Hb as [?%Z.leb_le ?%Z.leb_le] end.
  split; [constructor; try done; apply map_Forall_empty|done].
Qed.

Lemma commit_receipt_verifies l c : commit_receipt l c ->
  verify_commit_receipt (EffectCommitReceipt_as_document c) = Ok (EffectCommitReceipt_as_document c).
Proof.
  intros Hc. unfold verify_commit_receipt. cbv zeta.
  change (dict_del (EffectCommitReceipt_as_document c) "receipt_sha256") with (EffectCommitReceipt_body c).
  replace (envelope_ok _ COMMIT_SCHEMA AUTHORITY) with true by (by vm_compute). unfold reject_if.
  cbn [negb raise_if]. rewrite bind_Ok.
  change (dict_get_none (EffectCommitReceipt_as_document c) "receipt_sha256")
    with (JStr (ec_receipt_sha256 c)).
  rewrite (cr_digest _ _ Hc). cbn [is_str]. by rewrite String.eqb_refl.
Qed.

Lemma authorization_verifies ttl a : authorization_good ttl a ->
  verify_authorization_receipt (EffectCommitAuthorizationReceipt_as_document a)
  = Ok (EffectCommitAuthorizationReceipt_as_document a).
Proof.
  intros (_ & _ & Hd). unfold verify_authorization_receipt. cbv zeta.
  change (dict_del (EffectCommitAuthorizationReceipt_as_document a) "receipt_sha256")
    with (EffectCommitAuthorizationReceipt_body a).
  replace (envelope_ok _ LEASE_SCHEMA AUTHORITY) with true by (by vm_compute). unfold reject_if.
  cbn [negb raise_if]. rewrite bind_Ok.
  change (dict_get_none (EffectCommitAuthorizationReceipt_as_document a) "receipt_sha256")
    with (JStr (ea_receipt_sha256 a)).
  rewrite Hd. cbn [is_str]. by rewrite String.eqb_refl.
Qed.
End init.

(** ** Properties *)

(** C5: a commit either raises with the broker unchanged and whatever the executor is,
    or, with the broker not contained and the lease known, unused and within its time,
    it has observed again the trusted world (untainted, same epoch and state), the
    session (active and the same) and the capability (active and bound to that world),
    and the executor runs in a state where the lease is already burned. *)
Theorem commit_rechecks_then_burns `{hash : Digest} {S : Type} `{L : Lens S EffectCommitBroker}
    `{env : EffectEnv S} (lease_id : string) (s : S) (Henv : silent_env) :
  (exists e s', lget s' = lget s /\ forall executor, _commit lease_id executor s = (Err e, s'))
  \/ exists c s', lget s' = consume lease_id (lget s) /\ rechecked lease_id (lget s) c
     /\ forall executor, _commit lease_id executor s = run_effect c executor s'.
Proof. by apply commit_cases. Qed.

Lemma commit_rechecks_then_burns_witness :
  let s := snd example_issued in
  (exists e s', lget (Lens := example_broker_lens) s' = lget s
     /\ forall executor, _commit example_lease executor s = (Err e, s'))
  \/ exists c s', lget (Lens := example_broker_lens) s' = consume example_lease (lget s)
     /\ rechecked example_lease (lget s) c
     /\ forall executor, _commit example_lease executor s = run_effect c executor s'.
Proof.
  exact (@commit_rechecks_then_burns checksum_digest ExampleHost example_broker_lens example_env
    example_lease (snd example_issued) example_silent).
Defined.

(** A lease is used at most once: in every reachable state each consumed lease has
    exactly one commit receipt, and a lease once consumed is refused for ever, whatever
    the executor, with the broker unchanged. Executors may call the broker again. *)
Theorem lease_used_at_most_once `{hash : Digest} {S : Type} `{L : Lens S EffectCommitBroker}
    `{env : EffectEnv S} (host token : string) (ttl : Z) (s0 s1 s2 : S) (id : string) (l : _Lease)
    (Henv : silent_env) (Hinit : EffectCommitBroker_init host token ttl = Ok (lget s0))
    (Hreach1 : star effect_step s0 s1) (Hreach2 : star effect_step s1 s2)
    (Hlease : eb_leases (lget s1) !! id = Some l) (Hused : ls_consumed l = true) :
  length (eb_commits (lget s1)) = size (consumed_leases (lget s1))
  /\ eb_leases (lget s2) !! id = Some l
  /\ exists e s', lget s' = lget s2 /\ forall executor, _commit id executor s2 = (Err e, s').
Proof.
  destruct (effect_init_inv _ _ _ _ Hinit) as [Hi0 Hu0].
  destruct (effect_steps_keep _ _ Henv Hreach1 Hi0) as (Hi1 & _ & Hu1).
  destruct (effect_steps_keep _ _ Henv Hreach2 Hi1) as (_ & G2 & _).
  destruct (grows_lookup _ _ _ _ G2 Hlease) as (l' & Hl' & Hsame & _). rewrite (Hsame Hused) in Hl'.
  split; [unfold unsettled in *; lia|]. split; [done|].
  destruct (commit_cases id s2 Henv) as [Hr|(c & s' & _ & Hc & _)]; [done|].
  destruct Hc as [_ Hk Hn _ _ _ _ _ _ _ _ _ _]. congruence.
Qed.

Lemma lease_used_at_most_once_witness :
  let s := snd example_committed in
  exists l, length (eb_commits (lget (Lens := example_broker_lens) s)) = size (consumed_leases (lget s))
  /\ eb_leases (lget (Lens := example_broker_lens) s) !! example_lease = Some l
  /\ exists e s', lget (Lens := example_broker_lens) s' = lget s
     /\ forall executor, _commit example_lease executor s = (Err e, s').
Proof.
  assert ((ls_consumed <$> eb_leases (fst (snd example_committed)) !! example_lease) = Some true) as Hl
    by (vm_compute; reflexivity).
  cbv zeta. destruct (eb_leases (fst (snd example_committed)) !! example_lease) as [l|] eqn:E; [|discriminate Hl].
  exists l.
  apply (@lease_used_at_most_once checksum_digest ExampleHost example_broker_lens example_env
    ZERO_SHA256 (sha256_hex "token") 10 example_host (snd example_committed) (snd example_committed)
    example_lease l example_silent).
  - vm_compute. reflexivity.
  - exact example_committed_reachable.
  - apply star_refl.
  - exact E.
  - injection Hl as Hl. exact Hl.
Defined.

(** In every reachable state each commit receipt verifies and is backed by an
    authorization receipt that verifies too: the same lease, operation, runtime epoch
    and state and session, issued at most thirty seconds before it expires, and the
    commit lies within that time. *)
Theorem commits_are_authorized `{hash : Digest} {S : Type} `{L : Lens S EffectCommitBroker}
    `{env : EffectEnv S} (host token : string) (ttl : Z) (s0 s : S) (c : EffectCommitReceipt)
    (Henv : silent_env) (Hinit : EffectCommitBroker_init host token ttl = Ok (lget s0))
    (Hreach : star effect_step s0 s) (Hc : c ∈ eb_commits (lget s)) :
  verify_commit_receipt (EffectCommitReceipt_as_document c) = Ok (EffectCommitReceipt_as_document c)
  /\ exists a, a ∈ eb_authorizations (lget s)
     /\ verify_authorization_receipt (EffectCommitAuthorizationReceipt_as_document a)
        = Ok (EffectCommitAuthorizationReceipt_as_document a)
     /\ ec_authorization_receipt_sha256 c = ea_receipt_sha256 a
     /\ ec_lease_id_sha256 c = ea_lease_id_sha256 a /\ ec_operation_id c = ea_operation_id a
     /\ ec_runtime_epoch c = ea_runtime_epoch a
     /\ ec_runtime_state_sha256 c = ea_runtime_state_sha256 a
     /\ ec_execution_session_sha256 c = ea_execution_session_sha256 a
     /\ ea_issued_at_unix a <= ec_committed_at_unix c <= ea_expires_at_unix a
     /\ ea_expires_at_unix a <= ea_issued_at_unix a + MAX_LEASE_TTL_SECONDS.
Proof.
  destruct (effect_init_inv _ _ _ _ Hinit) as [Hi0 _].
  destruct (effect_steps_keep _ _ Henv Hreach Hi0) as ([[_ Httl] Hl Ha Hcs] & _).
  rewrite Forall_forall in Hcs. destruct (Hcs c Hc) as (id & l & Hlook & _ & Hr).
  split; [by eapply commit_receipt_verifies|].
  destruct (Hl id l Hlook) as (_ & _ & a & Hin & Hla). exists a. split; [done|].
  rewrite Forall_forall in Ha. pose proof (Ha a Hin) as Hgood.
  split; [by eapply authorization_verifies|]. destruct Hgood as (_ & Hexp & _).
  destruct Hr, Hla. split_and!; try congruence; lia.
Qed.

Lemma commits_are_authorized_witness :
  let s := snd example_committed in
  exists c, c ∈ eb_commits (lget (Lens := example_broker_lens) s)
  /\ verify_commit_receipt (EffectCommitReceipt_as_document c) = Ok (EffectCommitReceipt_as_document c)
  /\ exists a, a ∈ eb_authorizations (lget (Lens := example_broker_lens) s)
     /\ verify_authorization_receipt (EffectCommitAuthorizationReceipt_as_document a)
        = Ok (EffectCommitAuthorizationReceipt_as_document a)
     /\ ec_authorization_receipt_sha256 c = ea_receipt_sha256 a
     /\ ec_lease_id_sha256 c = ea_lease_id_sha256 a /\ ec_operation_id c = ea_operation_id a
     /\ ec_runtime_epoch c = ea_runtime_epoch a
     /\ ec_runtime_state_sha256 c = ea_runtime_state_sha256 a
     /\ ec_execution_session_sha256 c = ea_execution_session_sha256 a
     /\ ea_issued_at_unix a <= ec_committed_at_unix c <= ea_expires_at_unix a
     /\ ea_expires_at_unix a <= ea_issued_at_unix a + MAX_LEASE_TTL_SECONDS.
Proof.
  assert (length (eb_commits (fst (snd example_committed))) = 1%nat) as Hl by (vm_compute; reflexivity).
  cbv zeta. destruct (eb_commits (fst (snd example_committed))) as [|c l] eqn:E; [discriminate Hl|].
  assert (c ∈ eb_commits (lget (Lens := example_broker_lens) (snd example_committed))) as Hc
    by (change (c ∈ eb_commits (fst (snd example_committed))); rewrite E; left).
  exists c. split; [exact Hc|].
  apply (@commits_are_authorized checksum_digest ExampleHost example_broker_lens example_env
    ZERO_SHA256 (sha256_hex "token") 10 example_host (snd example_committed) c example_silent).
  - vm_compute. reflexivity.
  - exact example_committed_reachable.
  - exact Hc.
Defined.

(** A mediated effect that is reported as SUCCEEDED was committed: the call ends with
    a commit receipt of the commit broker for that operation, with the outcome SUCCEEDED
    and the result the mediation receipt names. *)
Theorem succeeded_effect_was_committed `{hash : Digest} {S B G : Type} `{BrokerOps B}
    `{env : EffectEnv S} {LE : Lens S EffectCommitBroker} {LM : Lens S (RuntimeMediator B G)}
    (op : RuntimeOperation) (executor : RuntimeOperation -> M S exec_result) (s s' : S) (doc : dict)
    (Henv : silent_env) (Hsep : separate) (Hex : forall op, evolves host_keeps (executor op))
    (Hinv : effect_inv (lget s)) (Hrun : effect_mediate op executor s = (Ok doc, s'))
    (Hout : dict_get doc "execution_outcome" = Some (JStr "SUCCEEDED")) :
  exists pre c, eb_commits (lget s') = pre ++ [c] /\ eb_commits (lget s) `prefix_of` pre
    /\ ec_operation_id c = ro_operation_id op /\ ec_effect_outcome c = "SUCCEEDED"
    /\ dict_get doc "result_sha256" = Some (JStr (ec_result_sha256 c)).
Proof.
  destruct (effect_mediate_success op executor s doc s' Henv Hsep Hex Hinv Hrun Hout)
    as (o & (pre & c & Hc & Hpre & Hop & Ho & Hres) & Hdoc).
  exists pre, c. rewrite Hres. done.
Qed.

Lemma succeeded_effect_was_committed_witness :
  let s' := snd example_mediated in
  let doc := from_ok [] (fst example_mediated) in
  exists pre c, eb_commits (lget (Lens := example_broker_lens) s') = pre ++ [c]
    /\ eb_commits (lget (Lens := example_broker_lens) example_host) `prefix_of` pre
    /\ ec_operation_id c = ro_operation_id example_operation /\ ec_effect_outcome c = "SUCCEEDED"
    /\ dict_get doc "result_sha256" = Some (JStr (ec_result_sha256 c)).
Proof.
  apply (@succeeded_effect_was_committed checksum_digest ExampleHost EpochHost unit _ example_env
    example_broker_lens example_mediator_lens example_operation good_executor example_host
    (snd example_mediated) (from_ok [] (fst example_mediated)) example_silent).
  - intros m s. reflexivity.
  - apply good_executor_keeps.
  - apply (effect_init_inv ZERO_SHA256 (sha256_hex "token") 10). vm_compute. reflexivity.
  - assert (is_ok (fst example_mediated) = true) as Hok by (vm_compute; reflexivity).
    change (effect_mediate example_operation good_executor example_host) with example_mediated.
    destruct example_mediated as [[doc|e] s']; [reflexivity|discriminate Hok].
  - vm_compute. reflexivity.
Defined.
