(* ===== verification/ProcessLineage.v ===== *)
(** * Process lineage (sdk/liminal_process_lineage/__init__.py)

    Observations of a session's processes are accepted only as a tree rooted at the
    bound process; a session is quiesced only after it was frozen, with the same
    lineage, and an ALLOW receipt means that nothing survived. The backend is host
    code and runs on the whole host state [S]. *)
From stdpp Require Import gmap.
From Stdlib Require Import Ascii.
From S2P Require Import Prelude PyStr Json Digest Contracts CapabilityBroker EpochBroker.
#[local] Open Scope Z_scope.

(** ** Constants *)
Definition SCHEMA : string := "liminal-process-lineage-containment-receipt-v0.1".
Definition OBSERVATION_SCHEMA : string := "liminal-process-lineage-observation-v0.1".
Definition ACTION_SCHEMA : string := "liminal-process-lineage-backend-action-v0.1".

Definition AUTHORITY : dict :=
  [("mode", JStr "trusted_host_process_lineage_containment");
   ("model_supplied_pid_authority", JBool false); ("shell_execution", JBool false);
   ("direct_kill_syscall", JBool false); ("direct_container_runtime_access", JBool false);
   ("trusted_backend_process_control", JBool true); ("explicit_parent_child_lineage", JBool true);
   ("session_scoped_only", JBool true); ("digest_only_receipts", JBool true);
   ("zero_survivor_required", JBool true); ("kernel_escape_prevention", JBool false)].

(** [raise ProcessLineageError(msg)] when [b]. *)
Definition reject_if (b : bool) (msg : string) : result unit := raise_if b ProcessLineageError msg.

Definition text_ok (s : string) : bool :=
  negb (String.eqb (py_strip s) "") && negb (contains_char "000"%char s) && (py_len s <=? 256).

Definition _require_text (value : json) (name : string) : result string :=
  match value with
  | JStr s => if text_ok s then Ok s
              else fail ProcessLineageError (name +:+ " must be a bounded non-empty string")
  | _ => fail ProcessLineageError (name +:+ " must be a bounded non-empty string")
  end.

Definition _require_sha (value : json) (name : string) : result string :=
  check_sha ProcessLineageError (name +:+ " must be lowercase SHA-256") value.

(** ** Process nodes *)
Record ProcessNode := {
  pn_process_id : string;
  pn_parent_process_id : option string;
  pn_identity_sha256 : string;
  pn_state : string
}.

Definition node_keys : list string :=
  ["process_id"; "parent_process_id"; "identity_sha256"; "state"].

Definition ProcessNode_from_mapping (raw : dict) : result ProcessNode :=
  _ ← reject_if (negb (keys_are raw node_keys)) "process node schema mismatch";
  process_id ← _require_text (dict_get_none raw "process_id") "process_id";
  parent ← match dict_get_none raw "parent_process_id" with
           | JNull => Ok None
           | v => p ← _require_text v "parent_process_id"; Ok (Some p)
           end;
  identity ← _require_sha (dict_get_none raw "identity_sha256") "identity_sha256";
  bad ← not_in_set (dict_get_none raw "state") ["running"; "frozen"; "terminated"];
  _ ← reject_if bad "unsupported process state";
  state ← match dict_get_none raw "state" with JStr s => Ok s | _ => fail TypeError "state" end;
  Ok {| pn_process_id := process_id; pn_parent_process_id := parent;
        pn_identity_sha256 := identity; pn_state := state |}.

(** [ProcessNode.from_mapping(item)] of an item that need not be a mapping:
    [set(item)] is what fails. *)
Definition node_of_json (item : json) : result ProcessNode :=
  match item with
  | JObj raw => ProcessNode_from_mapping raw
  | JStr _ => fail ProcessLineageError "process node schema mismatch"
  | JList l =>
      if negb (forallb hashable l) then fail TypeError "unhashable type"
      else if forallb (fun v => existsb (is_str v) node_keys) l
              && forallb (fun k => existsb (fun v => is_str v k) l) node_keys
      then fail TypeError "list indices must be integers"
      else fail ProcessLineageError "process node schema mismatch"
  | _ => fail TypeError "object is not iterable"
  end.

Definition ProcessNode_body (n : ProcessNode) : dict :=
  [("process_id", JStr (pn_process_id n)); ("parent_process_id", jopt (pn_parent_process_id n));
   ("identity_sha256", JStr (pn_identity_sha256 n)); ("state", JStr (pn_state n))].

(** [by_id.get(process_id)] where the identities are unique. *)
Definition node_of (nodes : list ProcessNode) (process_id : string) : option ProcessNode :=
  List.find (fun n => String.eqb (pn_process_id n) process_id) nodes.

(** The [while] loop of [_validate_lineage]; [None] when the fuel is spent. *)
Fixpoint climb (fuel : nat) (nodes : list ProcessNode) (seen : list string) (current : ProcessNode)
    : option (result ProcessNode) :=
  match fuel with
  | O => None
  | S fuel' =>
      match pn_parent_process_id current with
      | None => Some (Ok current)
      | Some parent =>
          if mem (pn_process_id current) seen
          then Some (fail ProcessLineageError "process lineage contains a cycle")
          else match node_of nodes parent with
               | None => Some (fail KeyError parent)
               | Some next => climb fuel' nodes (pn_process_id current :: seen) next
               end
      end
  end.

(** Every iteration sees a new process: one more than their number is enough fuel. *)
Definition climb_from (nodes : list ProcessNode) (node : ProcessNode) : result ProcessNode :=
  match climb (S (S (length nodes))) nodes [] node with
  | Some r => r
  | None => fail (HostException "NonTermination") ""
  end.

Definition check_parent (nodes : list ProcessNode) (root_process_id : string) (node : ProcessNode)
    : result unit :=
  if String.eqb (pn_process_id node) root_process_id then Ok tt
  else reject_if (match pn_parent_process_id node with
                  | Some p => negb (is_Some_b (node_of nodes p))
                  | None => true
                  end) "process lineage contains an unknown parent".

Definition check_descends (nodes : list ProcessNode) (root_process_id : string) (node : ProcessNode)
    : result unit :=
  top ← climb_from nodes node;
  reject_if (negb (String.eqb (pn_process_id top) root_process_id))
    "process is not descended from the bound root".

Definition _validate_lineage (nodes : list ProcessNode) (root_process_id : string) : result unit :=
  _ ← reject_if (has_dups (map pn_process_id nodes)) "duplicate process identity";
  _ ← reject_if (match node_of nodes root_process_id with
                 | Some root => is_Some_b (pn_parent_process_id root)
                 | None => true
                 end) "bound root process is missing or has a parent";
  _ ← map_r (check_parent nodes root_process_id) nodes;
  _ ← map_r (check_descends nodes root_process_id) nodes;
  Ok tt.

(** ** Observations *)
Record ProcessLineageObservation := {
  po_session_id : string;
  po_root_process_id : string;
  po_backend_binding_sha256 : string;
  po_nodes : list ProcessNode;
  po_tree_sha256 : string;
  po_evidence_sha256 : string
}.

Definition is_live (n : ProcessNode) : bool := negb (String.eqb (pn_state n) "terminated").

Definition live_nodes (self : ProcessLineageObservation) : list ProcessNode :=
  List.filter is_live (po_nodes self).

Definition observation_keys : list string :=
  ["schema"; "session_id"; "root_process_id"; "backend_binding_sha256"; "nodes"; "tree_sha256";
   "evidence_sha256"].

Definition action_keys : list string :=
  ["schema"; "session_id"; "root_process_id"; "backend_binding_sha256"; "action";
   "affected_count"; "result_tree_sha256"; "evidence_sha256"].

Definition canonical_nodes (nodes : list ProcessNode) : json :=
  JList (map (fun n => JObj (ProcessNode_body n)) (sorted_on pn_process_id nodes)).

Definition lineage_of (nodes : list ProcessNode) : gmap string (option string * string) :=
  list_to_map (map (fun n => (pn_process_id n, (pn_parent_process_id n, pn_identity_sha256 n))) nodes).

Definition _require_same_lineage (left right : ProcessLineageObservation) : result unit :=
  reject_if (negb (bool_decide (lineage_of (po_nodes left) = lineage_of (po_nodes right))))
    "process lineage or trusted identity changed during containment".

(** ** Receipts *)
Record ProcessLineageContainmentReceipt := {
  pr_session_id : string;
  pr_root_process_id : string;
  pr_backend_binding_sha256 : string;
  pr_before_tree_sha256 : string;
  pr_frozen_tree_sha256 : string;
  pr_after_tree_sha256 : string;
  pr_observed_count : Z;
  pr_terminated_count : Z;
  pr_surviving_count : Z;
  pr_freeze_evidence_sha256 : string;
  pr_terminate_evidence_sha256 : string;
  pr_decision : string;
  pr_receipt_sha256 : string
}.

Definition ProcessLineageContainmentReceipt_body (r : ProcessLineageContainmentReceipt) : dict :=
  [("schema", JStr SCHEMA);
   ("session_id", JStr (pr_session_id r));
   ("root_process_id", JStr (pr_root_process_id r));
   ("backend_binding_sha256", JStr (pr_backend_binding_sha256 r));
   ("before_tree_sha256", JStr (pr_before_tree_sha256 r));
   ("frozen_tree_sha256", JStr (pr_frozen_tree_sha256 r));
   ("after_tree_sha256", JStr (pr_after_tree_sha256 r));
   ("observed_count", JInt (pr_observed_count r));
   ("terminated_count", JInt (pr_terminated_count r));
   ("surviving_count", JInt (pr_surviving_count r));
   ("freeze_evidence_sha256", JStr (pr_freeze_evidence_sha256 r));
   ("terminate_evidence_sha256", JStr (pr_terminate_evidence_sha256 r));
   ("decision", JStr (pr_decision r));
   ("authority", JObj AUTHORITY)].

Definition ProcessLineageContainmentReceipt_as_document (r : ProcessLineageContainmentReceipt) : dict :=
  dict_set (ProcessLineageContainmentReceipt_body r) "receipt_sha256" (JStr (pr_receipt_sha256 r)).

(** ** The supervisor *)
Record ProcessLineageContainmentSupervisor := {
  ps_session_id : string;
  ps_root_process_id : string;
  ps_backend_binding_sha256 : string;
  ps_before : option ProcessLineageObservation;
  ps_frozen : option ProcessLineageObservation;
  ps_freeze_evidence_sha256 : option string;
  ps_receipt : option ProcessLineageContainmentReceipt
}.

Definition Supervisor_init (session_id root_process_id backend_binding_sha256 : string)
    : result ProcessLineageContainmentSupervisor :=
  session ← _require_text (JStr session_id) "session_id";
  root ← _require_text (JStr root_process_id) "root_process_id";
  binding ← _require_sha (JStr backend_binding_sha256) "backend_binding_sha256";
  Ok {| ps_session_id := session; ps_root_process_id := root; ps_backend_binding_sha256 := binding;
        ps_before := None; ps_frozen := None; ps_freeze_evidence_sha256 := None;
        ps_receipt := None |}.

(** [self._before, self._frozen = before, frozen] and the freeze evidence. *)
Definition set_frozen (before frozen : ProcessLineageObservation) (evidence : string)
    (s : ProcessLineageContainmentSupervisor) : ProcessLineageContainmentSupervisor := {|
  ps_session_id := ps_session_id s; ps_root_process_id := ps_root_process_id s;
  ps_backend_binding_sha256 := ps_backend_binding_sha256 s; ps_before := Some before;
  ps_frozen := Some frozen; ps_freeze_evidence_sha256 := Some evidence;
  ps_receipt := ps_receipt s |}.

Definition set_receipt (r : ProcessLineageContainmentReceipt)
    (s : ProcessLineageContainmentSupervisor) : ProcessLineageContainmentSupervisor := {|
  ps_session_id := ps_session_id s; ps_root_process_id := ps_root_process_id s;
  ps_backend_binding_sha256 := ps_backend_binding_sha256 s; ps_before := ps_before s;
  ps_frozen := ps_frozen s; ps_freeze_evidence_sha256 := ps_freeze_evidence_sha256 s;
  ps_receipt := Some r |}.

(** The backend protocol. *)
Class ProcessLineageBackend (S : Type) := {
  backend_snapshot : string -> M S dict;
  backend_freeze : string -> M S dict;
  backend_terminate : string -> M S dict
}.

Section lineage.
Context {hash : Digest}.

Definition observation_body (session_id root_process_id backend_binding_sha256 : string)
    (nodes : list ProcessNode) (tree_sha : string) : dict :=
  [("schema", JStr OBSERVATION_SCHEMA); ("session_id", JStr session_id);
   ("root_process_id", JStr root_process_id);
   ("backend_binding_sha256", JStr backend_binding_sha256);
   ("nodes", canonical_nodes nodes); ("tree_sha256", JStr tree_sha)].

Definition ProcessLineageObservation_from_mapping (raw : dict)
    (expected_session_id expected_root_process_id expected_backend_binding_sha256 : string)
    : result ProcessLineageObservation :=
  _ ← reject_if (negb (keys_are raw observation_keys)
                 || negb (is_str (dict_get_none raw "schema") OBSERVATION_SCHEMA))
        "process-lineage observation schema mismatch";
  _ ← reject_if (negb (is_str (dict_get_none raw "session_id") expected_session_id)
                 || negb (is_str (dict_get_none raw "root_process_id") expected_root_process_id))
        "backend observation escaped the bound execution session";
  _ ← reject_if (negb (is_str (dict_get_none raw "backend_binding_sha256")
                         expected_backend_binding_sha256)) "backend binding mismatch";
  match dict_get_none raw "nodes" with
  | JList nodes_raw =>
      _ ← reject_if (negb ((1 <=? Z.of_nat (length nodes_raw)) && (Z.of_nat (length nodes_raw) <=? 256)))
            "process lineage must contain 1..256 nodes";
      nodes ← map_r node_of_json nodes_raw;
      _ ← _validate_lineage nodes expected_root_process_id;
      let tree_sha := canonical_sha256 (canonical_nodes nodes) in
      _ ← reject_if (negb (is_str (dict_get_none raw "tree_sha256") tree_sha))
            "process lineage digest mismatch";
      let evidence := canonical_sha256 (JObj (observation_body expected_session_id
        expected_root_process_id expected_backend_binding_sha256 nodes tree_sha)) in
      _ ← reject_if (negb (is_str (dict_get_none raw "evidence_sha256") evidence))
            "process-lineage observation evidence mismatch";
      Ok {| po_session_id := expected_session_id; po_root_process_id := expected_root_process_id;
            po_backend_binding_sha256 := expected_backend_binding_sha256; po_nodes := nodes;
            po_tree_sha256 := tree_sha; po_evidence_sha256 := evidence |}
  | _ => fail ProcessLineageError "process lineage must contain 1..256 nodes"
  end.

(** The members of a validated action that the supervisor reads. *)
Record Action := {
  ac_affected_count : Z;
  ac_result_tree_sha256 : string;
  ac_evidence_sha256 : string
}.

Definition action_body (raw : dict) : dict :=
  map (fun key => (key, dict_get_none raw key))
    (List.filter (fun key => negb (String.eqb key "evidence_sha256")) action_keys).

Definition _validate_action (raw : dict)
    (expected_session_id expected_root_process_id expected_backend_binding_sha256
     expected_action : string) : result Action :=
  _ ← reject_if (negb (keys_are raw action_keys)
                 || negb (is_str (dict_get_none raw "schema") ACTION_SCHEMA))
        "backend action schema mismatch";
  _ ← reject_if (negb (is_str (dict_get_none raw "session_id") expected_session_id)
                 || negb (is_str (dict_get_none raw "root_process_id") expected_root_process_id))
        "backend action escaped the bound execution session";
  _ ← reject_if (negb (is_str (dict_get_none raw "backend_binding_sha256")
                         expected_backend_binding_sha256)
                 || negb (is_str (dict_get_none raw "action") expected_action))
        "backend action binding mismatch";
  match dict_get_none raw "affected_count" with
  | JInt affected =>
      _ ← reject_if (affected <? 0) "affected_count must be non-negative";
      result_tree ← _require_sha (dict_get_none raw "result_tree_sha256") "result_tree_sha256";
      let evidence := canonical_sha256 (JObj (action_body raw)) in
      _ ← reject_if (negb (is_str (dict_get_none raw "evidence_sha256") evidence))
            "backend action evidence mismatch";
      Ok {| ac_affected_count := affected; ac_result_tree_sha256 := result_tree;
            ac_evidence_sha256 := evidence |}
  | _ => fail ProcessLineageError "affected_count must be non-negative"
  end.

Definition seal_receipt (r : ProcessLineageContainmentReceipt) : ProcessLineageContainmentReceipt := {|
  pr_session_id := pr_session_id r; pr_root_process_id := pr_root_process_id r;
  pr_backend_binding_sha256 := pr_backend_binding_sha256 r;
  pr_before_tree_sha256 := pr_before_tree_sha256 r;
  pr_frozen_tree_sha256 := pr_frozen_tree_sha256 r;
  pr_after_tree_sha256 := pr_after_tree_sha256 r; pr_observed_count := pr_observed_count r;
  pr_terminated_count := pr_terminated_count r; pr_surviving_count := pr_surviving_count r;
  pr_freeze_evidence_sha256 := pr_freeze_evidence_sha256 r;
  pr_terminate_evidence_sha256 := pr_terminate_evidence_sha256 r; pr_decision := pr_decision r;
  pr_receipt_sha256 := canonical_sha256 (JObj (ProcessLineageContainmentReceipt_body r)) |}.

Definition verify_receipt (document : dict) : result dict :=
  let raw := dict_del document "receipt_sha256" in
  let digest := dict_get_none document "receipt_sha256" in
  _ ← reject_if (negb (envelope_ok raw SCHEMA AUTHORITY))
        "process-lineage receipt schema or authority mismatch";
  _ ← map_r (fun key => _require_sha (dict_get_none raw key) key)
        ["backend_binding_sha256"; "before_tree_sha256"; "frozen_tree_sha256"; "after_tree_sha256";
         "freeze_evidence_sha256"; "terminate_evidence_sha256"];
  bad ← not_in_set (dict_get_none raw "decision") ["ALLOW"; "BLOCK"];
  _ ← reject_if bad "unsupported process-lineage decision";
  let count key := match dict_get_none raw key with
                   | JInt z => if z <? 0 then fail ProcessLineageError ("invalid " +:+ key) else Ok z
                   | _ => fail ProcessLineageError ("invalid " +:+ key)
                   end in
  observed ← count "observed_count";
  terminated ← count "terminated_count";
  surviving ← count "surviving_count";
  _ ← reject_if (negb (terminated + surviving =? observed)) "process counts do not reconcile";
  _ ← reject_if (is_str (dict_get_none raw "decision") "ALLOW" && negb (surviving =? 0))
        "ALLOW receipt cannot contain surviving processes";
  _ ← reject_if (negb (is_str digest (canonical_sha256 (JObj raw))))
        "process-lineage receipt digest mismatch";
  Ok document.

(** The receipt [quiesce] builds. *)
Definition receipt_of (self : ProcessLineageContainmentSupervisor)
    (before frozen after : ProcessLineageObservation) (freeze_evidence : string) (action : Action)
    (live_before_terminate : list ProcessNode) : ProcessLineageContainmentReceipt :=
  let survivors := live_nodes after in
  seal_receipt {|
    pr_session_id := ps_session_id self; pr_root_process_id := ps_root_process_id self;
    pr_backend_binding_sha256 := ps_backend_binding_sha256 self;
    pr_before_tree_sha256 := po_tree_sha256 before; pr_frozen_tree_sha256 := po_tree_sha256 frozen;
    pr_after_tree_sha256 := po_tree_sha256 after;
    pr_observed_count := Z.of_nat (length (po_nodes before));
    pr_terminated_count :=
      Z.of_nat (length (List.filter (fun n => String.eqb (pn_state n) "terminated") (po_nodes after)));
    pr_surviving_count := Z.of_nat (length survivors);
    pr_freeze_evidence_sha256 := freeze_evidence;
    pr_terminate_evidence_sha256 := ac_evidence_sha256 action;
    pr_decision := if (length survivors =? 0)%nat
                      && (ac_affected_count action =? Z.of_nat (length live_before_terminate))
                   then "ALLOW" else "BLOCK";
    pr_receipt_sha256 := "" |}.

Section host.
Context {S : Type} {L : Lens S ProcessLineageContainmentSupervisor} {backend : ProcessLineageBackend S}.

Definition snapshot : M S ProcessLineageObservation :=
  self ← this;
  raw ← backend_snapshot (ps_session_id self);
  lift (ProcessLineageObservation_from_mapping raw (ps_session_id self) (ps_root_process_id self)
          (ps_backend_binding_sha256 self)).

Definition backend_action (call : string -> M S dict) (name : string) : M S Action :=
  self ← this;
  raw ← call (ps_session_id self);
  lift (_validate_action raw (ps_session_id self) (ps_root_process_id self)
          (ps_backend_binding_sha256 self) name).

Definition freeze : M S dict :=
  self ← this;
  _ ← lift (reject_if (is_Some_b (ps_before self)) "execution session already frozen");
  before ← snapshot;
  action ← backend_action backend_freeze "freeze";
  frozen ← snapshot;
  _ ← lift (_require_same_lineage before frozen);
  _ ← lift (reject_if (negb (String.eqb (ac_result_tree_sha256 action) (po_tree_sha256 frozen)))
              "freeze action is not bound to the resulting process lineage");
  _ ← lift (reject_if (negb (ac_affected_count action =? Z.of_nat (length (live_nodes before))))
              "freeze affected_count does not match live process count");
  _ ← lift (reject_if (existsb (fun n => String.eqb (pn_state n) "running") (po_nodes frozen))
              "freeze left a running process in the execution session");
  _ ← set_this (set_frozen before frozen (ac_evidence_sha256 action));
  mret [("session_id", JStr (ps_session_id self)); ("before_tree_sha256", JStr (po_tree_sha256 before));
        ("frozen_tree_sha256", JStr (po_tree_sha256 frozen));
        ("observed_count", JInt (Z.of_nat (length (po_nodes before))));
        ("freeze_evidence_sha256", JStr (ac_evidence_sha256 action))].

(** The part of [quiesce] after its guards; the live nodes are read before the backend
    is called, [self._before], [self._frozen] and the evidence again afterwards. *)
Definition terminate_frozen (live_before_terminate : list ProcessNode) : M S dict :=
  action ← backend_action backend_terminate "terminate";
  after ← snapshot;
  self ← this;
  match ps_before self, ps_frozen self, ps_freeze_evidence_sha256 self with
  | Some before, Some frozen, Some evidence =>
      _ ← lift (_require_same_lineage before after);
      _ ← lift (reject_if (negb (String.eqb (ac_result_tree_sha256 action) (po_tree_sha256 after)))
                  "terminate action is not bound to the resulting process lineage");
      _ ← lift (reject_if (Z.of_nat (length live_before_terminate) <? ac_affected_count action)
                  "terminate affected_count exceeds frozen live process count");
      let receipt := receipt_of self before frozen after evidence action live_before_terminate in
      _ ← set_this (set_receipt receipt);
      mret (ProcessLineageContainmentReceipt_as_document receipt)
  | _, _, _ => raise AttributeError "NoneType"
  end.

Definition quiesce : M S dict :=
  self ← this;
  match ps_before self, ps_frozen self, ps_freeze_evidence_sha256 self with
  | Some _, Some frozen, Some _ =>
      match ps_receipt self with
      | Some r => mret (ProcessLineageContainmentReceipt_as_document r)
      | None => terminate_frozen (live_nodes frozen)
      end
  | _, _, _ => raise ProcessLineageError "quiescence requires a previously frozen execution session"
  end.

Definition receipt : M S dict :=
  self ← this;
  match ps_receipt self with
  | Some r => mret (ProcessLineageContainmentReceipt_as_document r)
  | None => raise ProcessLineageError "no process-lineage containment receipt"
  end.
End host.
End lineage.

(** ** Lemmas: the lineage is a tree *)
Lemma reject_if_ok b msg u : reject_if b msg = Ok u <-> b = false.
Proof. apply raise_if_ok. Qed.

Lemma reject_if_err b msg e : reject_if b msg = Err e -> exn_cls e = ProcessLineageError.
Proof. destruct b; [by intros [= <-]|done]. Qed.

Section tree.
Variable nodes : list ProcessNode.
Variable root_process_id : string.

(** [at_depth d id]: the parents of process [id] lead to the root in [d] steps. *)
Inductive at_depth : nat -> string -> Prop :=
  | at_root r : r ∈ nodes -> pn_process_id r = root_process_id -> pn_parent_process_id r = None ->
      at_depth O root_process_id
  | at_child d n p : n ∈ nodes -> pn_parent_process_id n = Some p -> at_depth d p ->
      at_depth (S d) (pn_process_id n).

(** A process table is a tree: identities are unique and every process descends from
    the root, which has no parent. *)
Definition rooted_tree : Prop :=
  NoDup (map pn_process_id nodes)
  /\ (exists r, r ∈ nodes /\ pn_process_id r = root_process_id /\ pn_parent_process_id r = None)
  /\ (forall n, n ∈ nodes -> exists d, at_depth d (pn_process_id n)).

Lemma node_of_sound id n : node_of nodes id = Some n -> n ∈ nodes /\ pn_process_id n = id.
Proof.
  intros H. apply List.find_some in H as [Hin Heq]. apply String.eqb_eq in Heq.
  split; [by apply list_elem_of_In|done].
Qed.

Hypothesis unique : NoDup (map pn_process_id nodes).

Lemma node_of_elem n : n ∈ nodes -> node_of nodes (pn_process_id n) = Some n.
Proof.
  clear root_process_id. revert unique. induction nodes as [|m l IH]; cbn; [by intros _ ?%elem_of_nil|].
  intros [Hm Hl]%NoDup_cons Hin. destruct (String.eqb_spec (pn_process_id m) (pn_process_id n)) as [E|E].
  - apply elem_of_cons in Hin as [->|Hin]; [done|]. destruct Hm. rewrite E. by apply list_elem_of_fmap_2.
  - apply elem_of_cons in Hin as [->|Hin]; [done|]. by apply IH.
Qed.

Lemma node_unique n m : n ∈ nodes -> m ∈ nodes -> pn_process_id n = pn_process_id m -> n = m.
Proof. intros Hn%node_of_elem Hm%node_of_elem E. rewrite E in Hn. congruence. Qed.

Lemma at_depth_unique d d' id : at_depth d id -> at_depth d' id -> d = d'.
Proof.
  intros H. revert d'. induction H as [r Hr Hid Hp|d n p Hn Hp Hd IH]; intros d' H'; inversion H' as [|e m q Hm Hq Hd']; subst.
  - done.
  - assert (m = r) as -> by (by apply node_unique; [..|congruence]). congruence.
  - match goal with Hr : ?r ∈ nodes, Ep : pn_parent_process_id ?r = None |- _ =>
      assert (n = r) as -> by (by apply node_unique) end. congruence.
  - assert (m = n) as -> by (by apply node_unique). f_equal. apply IH. congruence.
Qed.

Lemma climb_terminates fuel seen current : current ∈ nodes -> NoDup seen ->
  seen ⊆ map pn_process_id nodes -> (2 + length nodes <= fuel + length seen)%nat ->
  is_Some (climb fuel nodes seen current).
Proof.
  clear unique. revert seen current. induction fuel as [|fuel IH]; intros seen current Hin Hnd Hsub Hlen.
  - apply NoDup_submseteq in Hsub; [|done]. apply submseteq_length in Hsub.
    rewrite length_map in Hsub. lia.
  - cbn. destruct (pn_parent_process_id current) as [p|]; [|by eexists].
    destruct (mem _ seen) eqn:Hm; [by eexists|]. apply mem_false in Hm.
    destruct (node_of nodes p) as [next|] eqn:Hp; [|by eexists]. apply node_of_sound in Hp as [Hnext _].
    apply IH; [done|by constructor| |cbn; lia].
    intros x [->|Hx]%elem_of_cons; [by apply list_elem_of_fmap_2|by apply Hsub].
Qed.

Lemma climb_sound fuel seen current top : current ∈ nodes ->
  climb fuel nodes seen current = Some (Ok top) -> pn_process_id top = root_process_id ->
  exists d, at_depth d (pn_process_id current).
Proof.
  clear unique. revert seen current. induction fuel as [|fuel IH]; intros seen current Hin H Htop; [done|].
  cbn in H. destruct (pn_parent_process_id current) as [p|] eqn:Hp.
  - destruct (mem _ seen); [done|]. destruct (node_of nodes p) as [next|] eqn:Hn; [|done].
    apply node_of_sound in Hn as [Hnext <-]. destruct (IH _ _ Hnext H Htop) as [d Hd].
    exists (S d). by apply (at_child d current (pn_process_id next)).
  - injection H as <-. rewrite Htop. exists O. by apply (at_root current).
Qed.

Lemma climb_complete fuel seen current d r : current ∈ nodes -> at_depth d (pn_process_id current) ->
  (forall x, x ∈ seen -> exists e, at_depth e x /\ (d < e)%nat) ->
  climb fuel nodes seen current = Some r -> exists top, r = Ok top /\ pn_process_id top = root_process_id.
Proof.
  revert seen current d. induction fuel as [|fuel IH]; intros seen current d Hin Hd Hseen H; [done|].
  cbn in H. inversion Hd as [r' Hr Hid Hp E0 Eid|e n p Hn Hp He Ed Eid]; subst.
  - assert (r' = current) as -> by (apply node_unique; [done..|congruence]). rewrite Hp in H.
    injection H as <-. by exists current.
  - assert (n = current) as -> by (by apply node_unique). rewrite Hp in H.
    destruct (mem (pn_process_id current) seen) eqn:Hm.
    { apply mem_true, Hseen in Hm as (e' & He' & Hlt). pose proof (at_depth_unique _ _ _ Hd He'). lia. }
    assert (exists next, next ∈ nodes /\ pn_process_id next = p) as (next & Hnext & <-).
    { inversion He; subst; eauto. }
    rewrite node_of_elem in H by done. apply (IH _ _ e) in H; [done..|].
    intros x [->|Hx]%elem_of_cons; [exists (S e); split; [done|lia]|].
    apply Hseen in Hx as (e' & ? & ?). exists e'. split; [done|lia].
Qed.

Lemma climb_error fuel seen current e :
  (forall n p, n ∈ nodes -> pn_parent_process_id n = Some p -> is_Some (node_of nodes p)) ->
  current ∈ nodes -> climb fuel nodes seen current = Some (Err e) -> exn_cls e = ProcessLineageError.
Proof.
  clear unique. intros Hknown. revert seen current.
  induction fuel as [|fuel IH]; intros seen current Hin H; [done|]. cbn in H.
  destruct (pn_parent_process_id current) as [p|] eqn:Hp; [|done].
  destruct (mem _ seen); [by injection H as <-|].
  destruct (Hknown current p Hin Hp) as [next Hnext]. rewrite Hnext in H.
  apply node_of_sound in Hnext as [Hin' _]. by eapply IH.
Qed.

Lemma climb_from_returns n : n ∈ nodes ->
  exists r, climb_from nodes n = r /\ climb (S (S (length nodes))) nodes [] n = Some r.
Proof.
  intros Hin. unfold climb_from. destruct (climb_terminates (S (S (length nodes))) [] n) as [r Hr].
  - done.
  - constructor.
  - intros x Hx. by apply elem_of_nil in Hx.
  - cbn. lia.
  - rewrite Hr. by exists r.
Qed.

Lemma check_descends_spec n : n ∈ nodes ->
  check_descends nodes root_process_id n = Ok tt <-> exists d, at_depth d (pn_process_id n).
Proof.
  intros Hin. unfold check_descends. destruct (climb_from_returns n Hin) as (r & -> & Hr). split.
  - intros H. py_inv. apply reject_if_ok, negb_false_iff, String.eqb_eq in H. by eapply climb_sound.
  - intros [d Hd]. apply (climb_complete _ _ _ d) in Hr; [|done..|by intros x ?%elem_of_nil].
    destruct Hr as (top & -> & Htop). rewrite bind_Ok, Htop, String.eqb_refl. done.
Qed.

Lemma check_parent_spec n p : n ∈ nodes -> pn_parent_process_id n = Some p ->
  check_parent nodes root_process_id n = Ok tt ->
  pn_process_id n = root_process_id \/ is_Some (node_of nodes p).
Proof.
  clear unique. intros Hn Hp. unfold check_parent. destruct (String.eqb_spec (pn_process_id n) root_process_id); [by left|].
  intros H%reject_if_ok. rewrite Hp in H. apply negb_false_iff in H. right.
  by destruct (node_of nodes p).
Qed.

Lemma check_parent_complete n d : at_depth d (pn_process_id n) -> n ∈ nodes ->
  check_parent nodes root_process_id n = Ok tt.
Proof.
  unfold check_parent. intros Hd Hn. destruct (String.eqb_spec (pn_process_id n) root_process_id) as [|Hne]; [done|].
  inversion Hd as [r Hr Hid Hp E0 Eid|e m p Hm Hp He Ed Eid]; subst; [congruence|].
  assert (m = n) as -> by (by apply node_unique). rewrite Hp.
  assert (exists q, q ∈ nodes /\ pn_process_id q = p) as (q & Hq & <-) by (inversion He; subst; eauto).
  by rewrite node_of_elem.
Qed.
End tree.

Lemma root_check nodes root : NoDup (map pn_process_id nodes) ->
  match node_of nodes root with Some r => is_Some_b (pn_parent_process_id r) | None => true end = false
  <-> exists r, r ∈ nodes /\ pn_process_id r = root /\ pn_parent_process_id r = None.
Proof.
  intros Hnd. split.
  - destruct (node_of nodes root) as [r|] eqn:Hr; [|done]. apply node_of_sound in Hr as [Hin Hid].
    intros Hp. exists r. by destruct (pn_parent_process_id r).
  - intros (r & Hin & <- & Hp). by rewrite node_of_elem, Hp.
Qed.

Lemma validate_lineage_spec nodes root :
  match _validate_lineage nodes root with
  | Ok _ => rooted_tree nodes root
  | Err e => ~ rooted_tree nodes root /\ exn_cls e = ProcessLineageError
  end.
Proof.
  unfold _validate_lineage. destruct (has_dups _) eqn:Hdup; cbn -[map_r].
  { split; [|done]. intros [Hnd _]. apply has_dups_false in Hnd. congruence. }
  apply has_dups_false in Hdup. pose proof (root_check nodes root Hdup) as Hroot.
  destruct (match node_of nodes root with Some _ => _ | None => _ end); cbn -[map_r].
  { split; [|done]. by intros (_ & ?%Hroot & _). }
  destruct (proj1 Hroot eq_refl) as (r & Hr & Hid & Hnone).
  destruct (map_r (check_parent nodes root) nodes) as [us|e] eqn:Hpar; cbn -[map_r].
  2: { apply map_r_err in Hpar as (n & Hn & He). split.
       - intros (_ & _ & Hall). destruct (Hall n Hn) as [d Hd].
         rewrite (check_parent_complete nodes root Hdup n d) in He by done. done.
       - unfold check_parent in He. destruct (String.eqb _ _); [done|]. by eapply reject_if_err. }
  assert (forall n p, n ∈ nodes -> pn_parent_process_id n = Some p -> is_Some (node_of nodes p)) as Hknown.
  { intros n p Hn Hp. apply (check_parent_spec nodes root n p) in Hp as Hcase; [|done|by eapply map_r_unit].
    destruct Hcase as [E|]; [|done]. assert (n = r) as -> by (apply (node_unique nodes Hdup); [done..|congruence]).
    congruence. }
  destruct (map_r (check_descends nodes root) nodes) as [us'|e] eqn:Hdesc; cbn.
  - split; [done|]. split; [by exists r|]. intros n Hn.
    apply check_descends_spec; [done..|]. by eapply map_r_unit.
  - apply map_r_err in Hdesc as (n & Hn & He). split.
    + intros (_ & _ & Hall). apply (check_descends_spec nodes root Hdup n Hn) in Hall; [|done]. congruence.
    + unfold check_descends in He. destruct (climb_from_returns nodes n Hn) as (c & Ec & Hc).
      rewrite Ec in He. destruct c as [top|e']; [by eapply reject_if_err|].
      injection He as <-. by eapply climb_error.
Qed.

(** ** Lemmas: what the supervisor records *)
Definition sup_ids (s : ProcessLineageContainmentSupervisor) : string * string * string :=
  (ps_session_id s, ps_root_process_id s, ps_backend_binding_sha256 s).

Lemma lineage_size nodes : NoDup (map pn_process_id nodes) ->
  size (lineage_of nodes) = length nodes.
Proof.
  intros Hnd. unfold lineage_of. rewrite map_size_list_to_map; rewrite ?length_map; [done|].
  change (NoDup (map fst (map (fun n => (pn_process_id n, (pn_parent_process_id n, pn_identity_sha256 n))) nodes))).
  by rewrite map_map.
Qed.

Lemma state_split (nodes : list ProcessNode) :
  Z.of_nat (length (List.filter (fun n => String.eqb (pn_state n) "terminated") nodes))
  + Z.of_nat (length (List.filter is_live nodes)) = Z.of_nat (length nodes).
Proof.
  unfold is_live. induction nodes as [|n l IH]; [done|]. cbn [List.filter].
  destruct (String.eqb _ _); cbn [negb length]; lia.
Qed.

Lemma no_live_terminated o : live_nodes o = [] ->
  Forall (fun n => pn_state n = "terminated") (po_nodes o).
Proof.
  unfold live_nodes. induction (po_nodes o) as [|n l IH]; cbn; [constructor|].
  unfold is_live at 1. destruct (String.eqb_spec (pn_state n) "terminated"); [|done].
  constructor; auto.
Qed.

Section supervisor.
Context {hash : Digest}.

(** [o] is an observation of the session [i] that [from_mapping] accepts. *)
Definition accepted (i : string * string * string) (o : ProcessLineageObservation) : Prop :=
  exists raw, ProcessLineageObservation_from_mapping raw i.1.1 i.1.2 i.2 = Ok o.

Lemma accepted_tree i o : accepted i o ->
  rooted_tree (po_nodes o) i.1.2 /\ (1 <= length (po_nodes o) <= 256)%nat
  /\ po_tree_sha256 o = canonical_sha256 (canonical_nodes (po_nodes o)).
Proof.
  intros [raw H]. unfold ProcessLineageObservation_from_mapping in H. py_inv.
  destruct (dict_get_none raw "nodes") as [| | | |l|]; py_inv; try done.
  cbn. pose proof (validate_lineage_spec x3 i.1.2) as Hv.
  match goal with Hn : map_r node_of_json l = Ok ?ns, Hl : _validate_lineage ?ns _ = Ok _ |- _ =>
    pose proof (validate_lineage_spec ns i.1.2) as Htree; rewrite Hl in Htree;
    apply map_r_ok, Forall2_length in Hn end.
  split; [done|]. split; [|done].
  match goal with Hb : reject_if (negb (_ && _)) _ = Ok _ |- _ =>
    apply reject_if_ok, negb_false_iff, andb_true_iff in Hb as [?%Z.leb_le ?%Z.leb_le] end. lia.
Qed.

(** What stands behind a receipt: the observations before and after termination. *)
Record backed (i : string * string * string) (r : ProcessLineageContainmentReceipt)
    (before after : ProcessLineageObservation) : Prop := {
  bk_before : accepted i before;
  bk_after : accepted i after;
  bk_lineage : lineage_of (po_nodes before) = lineage_of (po_nodes after);
  bk_ids : (pr_session_id r, pr_root_process_id r, pr_backend_binding_sha256 r) = i;
  bk_before_tree : pr_before_tree_sha256 r = po_tree_sha256 before;
  bk_after_tree : pr_after_tree_sha256 r = po_tree_sha256 after;
  bk_observed : pr_observed_count r = Z.of_nat (length (po_nodes before));
  bk_surviving : pr_surviving_count r = Z.of_nat (length (live_nodes after));
  bk_decision : pr_decision r = "ALLOW" -> live_nodes after = []
}.

Definition issued (i : string * string * string) (r : ProcessLineageContainmentReceipt) : Prop :=
  verify_receipt (ProcessLineageContainmentReceipt_as_document r)
    = Ok (ProcessLineageContainmentReceipt_as_document r)
  /\ exists before after, backed i r before after.

Definition frozen_ok (i : string * string * string) (s : ProcessLineageContainmentSupervisor) : Prop :=
  match ps_before s, ps_frozen s, ps_freeze_evidence_sha256 s with
  | Some before, Some frozen, Some evidence =>
      accepted i before /\ accepted i frozen /\ re_sha evidence = true
  | None, None, None => True
  | _, _, _ => False
  end.

Definition sup_inv (s : ProcessLineageContainmentSupervisor) : Prop :=
  re_sha (ps_backend_binding_sha256 s) = true
  /\ frozen_ok (sup_ids s) s
  /\ forall r, ps_receipt s = Some r -> issued (sup_ids s) r.

Definition sup_ok (s s' : ProcessLineageContainmentSupervisor) : Prop :=
  sup_ids s' = sup_ids s /\ (sup_inv s -> sup_inv s').

Lemma receipt_verifies r :
  re_sha (pr_backend_binding_sha256 r) = true -> re_sha (pr_before_tree_sha256 r) = true ->
  re_sha (pr_frozen_tree_sha256 r) = true -> re_sha (pr_after_tree_sha256 r) = true ->
  re_sha (pr_freeze_evidence_sha256 r) = true -> re_sha (pr_terminate_evidence_sha256 r) = true ->
  pr_decision r = "ALLOW" \/ pr_decision r = "BLOCK" ->
  0 <= pr_terminated_count r -> 0 <= pr_surviving_count r ->
  pr_terminated_count r + pr_surviving_count r = pr_observed_count r ->
  (pr_decision r = "ALLOW" -> pr_surviving_count r = 0) ->
  verify_receipt (ProcessLineageContainmentReceipt_as_document (seal_receipt r))
    = Ok (ProcessLineageContainmentReceipt_as_document (seal_receipt r)).
Proof.
  intros H1 H2 H3 H4 H5 H6 Hd Ht Hs Hsum Hz. unfold verify_receipt. cbv zeta.
  change (dict_del (ProcessLineageContainmentReceipt_as_document (seal_receipt r)) "receipt_sha256")
    with (ProcessLineageContainmentReceipt_body r).
  assert (envelope_ok (ProcessLineageContainmentReceipt_body r) SCHEMA AUTHORITY = true) as -> by done.
  cbn -[canonical_sha256]. unfold _require_sha, check_sha. rewrite H1, H2, H3, H4, H5, H6.
  cbn -[canonical_sha256].
  rewrite (proj2 (Z.ltb_ge (pr_observed_count r) 0)) by lia. rewrite !(proj2 (Z.ltb_ge _ 0)) by lia.
  cbn -[canonical_sha256]. rewrite Hsum, Z.eqb_refl, String.eqb_refl.
  destruct Hd as [Hd|Hd]; rewrite Hd; [rewrite Hz by done|]; done.
Qed.

Lemma receipt_issued i self before frozen after evidence action live :
  i = sup_ids self -> re_sha (ps_backend_binding_sha256 self) = true ->
  accepted i before -> accepted i frozen -> accepted i after ->
  lineage_of (po_nodes before) = lineage_of (po_nodes after) ->
  re_sha evidence = true -> re_sha (ac_evidence_sha256 action) = true ->
  issued i (receipt_of self before frozen after evidence action live).
Proof.
  intros -> Hb Hbefore Hfrozen Hafter Hlin He Ha.
  destruct (accepted_tree _ _ Hbefore) as ([Hnd _] & _ & Htb).
  destruct (accepted_tree _ _ Hfrozen) as (_ & _ & Htf).
  destruct (accepted_tree _ _ Hafter) as ([Hnd' _] & _ & Hta).
  assert (length (po_nodes after) = length (po_nodes before)) as Hlen
    by (rewrite <- (lineage_size _ Hnd), <- (lineage_size _ Hnd'); by rewrite Hlin).
  pose proof (state_split (po_nodes after)) as Hsplit. split.
  - unfold receipt_of. apply receipt_verifies; cbn -[live_nodes];
      rewrite ?Htb, ?Htf, ?Hta; auto using canonical_sha256_sha.
    + destruct (_ && _); auto.
    + lia.
    + lia.
    + unfold live_nodes. lia.
    + destruct (length (live_nodes after)) eqn:E; [done|]. by cbn.
  - exists before, after. constructor; try done. cbn -[live_nodes].
    destruct (live_nodes after); done.
Qed.
End supervisor.

Section supervisor_host.
Context {hash : Digest} {S : Type} {L : Lens S ProcessLineageContainmentSupervisor}.
Context {backend : ProcessLineageBackend S}.

(** The host leaves the supervisor's bookkeeping intact: it may call its methods, it does
    not assign its fields. *)
Definition host_sup_ok (s s' : S) : Prop := sup_ok (lget s) (lget s').

Record backend_keeps : Prop := {
  keeps_snapshot id : evolves host_sup_ok (backend_snapshot id);
  keeps_freeze id : evolves host_sup_ok (backend_freeze id);
  keeps_terminate id : evolves host_sup_ok (backend_terminate id)
}.

Definition at_inv (i : string * string * string) (s : S) : Prop :=
  sup_ids (lget s) = i /\ sup_inv (lget s).

Lemma keeps_at {A} (m : M S A) i : evolves host_sup_ok m ->
  hoare (at_inv i) m (fun _ => at_inv i) (fun _ => at_inv i).
Proof.
  intros Hm s [Hi Hinv]. destruct (Hm s) as [Hids Hk].
  destruct (m s) as [[a|e] s']; (split; [by rewrite <- Hi|by apply Hk]).
Qed.

Lemma this_at i : hoare (at_inv i) this
  (fun self s => at_inv i s /\ (sup_ids self = i /\ sup_inv self)) (fun _ => at_inv i).
Proof. intros s [Hi Hinv]. done. Qed.

Lemma snapshot_at i : backend_keeps ->
  hoare (at_inv i) snapshot (fun o s => at_inv i s /\ accepted i o) (fun _ => at_inv i).
Proof.
  intros Hb. unfold snapshot. eapply hoare_bind_pure; [apply this_at|]. intros self [Hi _].
  eapply hoare_bind; [apply keeps_at, Hb|]. intros raw. cbn beta.
  apply hoare_lift. intros s Hs. destruct (ProcessLineageObservation_from_mapping _ _ _ _) as [o|e] eqn:Ho; [|done].
  split; [done|]. exists raw. by rewrite <- Hi.
Qed.

Lemma action_sha raw a b c d act : _validate_action raw a b c d = Ok act ->
  re_sha (ac_evidence_sha256 act) = true.
Proof.
  intros H. unfold _validate_action in H. py_inv. destruct (dict_get_none raw "affected_count"); py_inv; try done.
  apply canonical_sha256_sha.
Qed.

Lemma action_at i call name : (forall id, evolves host_sup_ok (call id)) ->
  hoare (at_inv i) (backend_action call name)
    (fun a s => at_inv i s /\ re_sha (ac_evidence_sha256 a) = true) (fun _ => at_inv i).
Proof.
  intros Hc. unfold backend_action. eapply hoare_bind_pure; [apply this_at|]. intros self _.
  eapply hoare_bind; [apply keeps_at, Hc|]. intros raw. cbn beta.
  apply hoare_lift. intros s Hs. destruct (_validate_action _ _ _ _ _) as [a|e] eqn:Ha; [|done].
  split; [done|]. by eapply action_sha.
Qed.

Lemma set_at i f : (forall self, sup_ids self = i -> sup_inv self -> sup_ids (f self) = i /\ sup_inv (f self)) ->
  hoare (at_inv i) (set_this f) (fun _ => at_inv i) (fun _ => at_inv i).
Proof. intros Hf s [Hi Hinv]. cbn. unfold at_inv. rewrite lget_lput. by apply Hf. Qed.

Lemma freeze_at i : backend_keeps ->
  hoare (at_inv i) freeze (fun _ => at_inv i) (fun _ => at_inv i).
Proof.
  intros Hb. unfold freeze. eapply hoare_bind_pure; [apply this_at|]. intros self _.
  apply hoare_lift_bind; [intros _ _|done].
  eapply hoare_bind_pure; [by apply snapshot_at|]. intros before Hbefore.
  eapply hoare_bind_pure; [apply action_at, Hb|]. intros action Hact.
  eapply hoare_bind_pure; [by apply snapshot_at|]. intros frozen Hfrozen.
  do 4 (apply hoare_lift_bind; [intros _ _|done]).
  apply (hoare_bind _ _ _ (fun _ => at_inv i)); [|intros ? s Hs; exact Hs].
  apply set_at. intros sf Hi (H1 & H2 & H3). split; [done|]. split; [done|]. split; [|done].
  rewrite <- Hi in Hbefore, Hfrozen. done.
Qed.

Lemma terminate_at i live : backend_keeps ->
  hoare (at_inv i) (terminate_frozen live) (fun _ => at_inv i) (fun _ => at_inv i).
Proof.
  intros Hb. unfold terminate_frozen.
  eapply hoare_bind_pure; [apply action_at, Hb|]. intros action Hact.
  eapply hoare_bind_pure; [by apply snapshot_at|]. intros after Hafter.
  eapply hoare_bind_pure; [apply this_at|]. intros self [Hi (Hsha & Hfrozen & _)].
  unfold frozen_ok in Hfrozen. rewrite Hi in Hfrozen.
  destruct (ps_before self) as [before|], (ps_frozen self) as [frozen|], (ps_freeze_evidence_sha256 self) as [ev|];
    try (intros s Hs; exact Hs). destruct Hfrozen as (Hbefore & Hfr & Hev).
  apply hoare_lift_bind; [intros u Hlin|done]. apply reject_if_ok, negb_false_iff, bool_decide_eq_true in Hlin.
  do 2 (apply hoare_lift_bind; [intros _ _|done]).
  apply (hoare_bind _ _ _ (fun _ => at_inv i)); [|intros ? s Hs; exact Hs].
  apply set_at. intros sf Hi' (H1 & H2 & H3). split; [done|]. split; [done|]. split; [done|].
  intros r [= <-].
  enough (issued (sup_ids sf) (receipt_of self before frozen after ev action live)) by done.
  rewrite Hi'. by apply receipt_issued.
Qed.

Lemma quiesce_at i : backend_keeps ->
  hoare (at_inv i) quiesce (fun _ => at_inv i) (fun _ => at_inv i).
Proof.
  intros Hb. unfold quiesce. eapply hoare_bind_pure; [apply this_at|]. intros self _.
  destruct (ps_before self), (ps_frozen self), (ps_freeze_evidence_sha256 self); 
    try (intros s0 Hs; exact Hs).
  destruct (ps_receipt self); [intros s0 Hs; exact Hs|]. by apply terminate_at.
Qed.

(** A host: its calls of the supervisor, and its own work between them. *)
Inductive sup_step : S -> S -> Prop :=
  | step_freeze s : sup_step s (snd (freeze s))
  | step_quiesce s : sup_step s (snd (quiesce s))
  | step_host s s' : host_sup_ok s s' -> sup_step s s'.

Lemma hoare_state {A} (P : S -> Prop) (m : M S A) s :
  hoare P m (fun _ => P) (fun _ => P) -> P s -> P (snd (m s)).
Proof. intros Hm Hs. specialize (Hm s Hs). by destruct (m s) as [[a|e] s']. Qed.

Lemma sup_reachable i s s' : backend_keeps -> at_inv i s -> star sup_step s s' -> at_inv i s'.
Proof.
  intros Hb Hs. apply star_invariant; [|done]. intros s1 s2 H1 Hstep. destruct Hstep as [s0|s0|s0 s3' [Hids Hk]].
  - by apply hoare_state; [apply freeze_at|].
  - by apply hoare_state; [apply quiesce_at|].
  - destruct H1 as [<- Hinv]. split; [done|by apply Hk].
Qed.

Lemma init_sup_inv session root binding self :
  Supervisor_init session root binding = Ok self ->
  sup_ids self = (session, root, binding) /\ sup_inv self.
Proof.
  unfold Supervisor_init. intros H. py_inv.
  assert (forall v n s, _require_text (JStr v) n = Ok s -> s = v) as Htext.
  { intros v n s. unfold _require_text. case_match; by intros [=]. }
  apply Htext in Hx as ->. apply Htext in Hx0 as ->. unfold _require_sha in Hx1. apply check_sha_ok in Hx1 as [[= <-] Hsha].
  done.
Qed.

(** A method of the supervisor that succeeded leaves the receipt it answered with. *)
Lemma terminate_records live s doc s' : terminate_frozen live s = (Ok doc, s') ->
  quiesce s' = (Ok doc, s').
Proof.
  unfold terminate_frozen. rewrite M_bind_eq. destruct (backend_action _ _ s) as [[action|e] s1]; [|done].
  rewrite M_bind_eq. destruct (snapshot s1) as [[after|e] s2]; [|done]. M_go.
  destruct (ps_before (lget s2)) as [before|] eqn:E1, (ps_frozen (lget s2)) as [frozen|] eqn:E2,
    (ps_freeze_evidence_sha256 (lget s2)) as [ev|] eqn:E3; try done.
  M_go. destruct (_require_same_lineage before after); [|done].
  M_go. destruct (reject_if _ _) as [?|]; [|done].
  M_go. destruct (reject_if _ _) as [?|]; [|done]. M_go. intros [= <- <-].
  unfold quiesce. rewrite M_this, lget_lput. cbn [set_receipt ps_before ps_frozen ps_freeze_evidence_sha256 ps_receipt].
  by rewrite E1, E2, E3.
Qed.
End supervisor_host.

(** ** An example session: a root process and its child *)
#[local] Existing Instance checksum_digest.

Definition example_binding : string :=
  "00000000000000000000000000000000000000000000000000000000000000aa".

Definition example_nodes (state : string) : list ProcessNode :=
  [{| pn_process_id := "p0"; pn_parent_process_id := None;
      pn_identity_sha256 := ZERO_SHA256; pn_state := state |};
   {| pn_process_id := "p1"; pn_parent_process_id := Some "p0";
      pn_identity_sha256 := ZERO_SHA256; pn_state := state |}].

Definition example_tree (state : string) : string :=
  canonical_sha256 (canonical_nodes (example_nodes state)).

Definition example_observation (state : string) : dict :=
  seal "evidence_sha256"
    (observation_body "session-1" "p0" example_binding (example_nodes state) (example_tree state)).

Definition example_action (name result_tree : string) (affected : Z) : dict :=
  let raw := [("schema", JStr ACTION_SCHEMA); ("session_id", JStr "session-1");
              ("root_process_id", JStr "p0"); ("backend_binding_sha256", JStr example_binding);
              ("action", JStr name); ("affected_count", JInt affected);
              ("result_tree_sha256", JStr result_tree)] in
  dict_set raw "evidence_sha256" (JStr (canonical_sha256 (JObj (action_body raw)))).

(** The host: the supervisor and the state of its processes. *)
Definition ExampleSession : Type := ProcessLineageContainmentSupervisor * string.

Definition enter (state : string) (affected : Z) (name : string) : M ExampleSession dict :=
  fun p => (Ok (example_action name (example_tree state) affected), (fst p, state)).

Definition example_backend : ProcessLineageBackend ExampleSession := {|
  backend_snapshot _ := fun p => (Ok (example_observation (snd p)), p);
  backend_freeze _ := enter "frozen" 2 "freeze";
  backend_terminate _ := enter "terminated" 2 "terminate" |}.

Definition example_supervisor : ProcessLineageContainmentSupervisor :=
  from_ok {| ps_session_id := ""; ps_root_process_id := ""; ps_backend_binding_sha256 := "";
             ps_before := None; ps_frozen := None; ps_freeze_evidence_sha256 := None;
             ps_receipt := None |}
    (Supervisor_init "session-1" "p0" example_binding).

Definition example_start : ExampleSession := (example_supervisor, "running").

Definition example_frozen : ExampleSession := snd (freeze (backend := example_backend) example_start).

Definition example_quiesced : ExampleSession := snd (quiesce (backend := example_backend) example_frozen).

Lemma example_keeps : backend_keeps (backend := example_backend).
Proof. split; by intros id [self state]. Qed.

Lemma example_path : star (sup_step (backend := example_backend)) example_start example_quiesced.
Proof.
  unfold example_quiesced. eapply star_step; [|apply step_quiesce].
  unfold example_frozen. eapply star_step; [|apply step_freeze]. apply star_refl.
Qed.

Lemma example_receipt : exists r,
  ps_receipt (fst example_quiesced) = Some r /\ pr_decision r = "ALLOW".
Proof.
  assert (match ps_receipt (fst example_quiesced) with
          | Some r => String.eqb (pr_decision r) "ALLOW" | None => false end = true) as H
    by (vm_compute; reflexivity).
  destruct (ps_receipt (fst example_quiesced)) as [r|]; [|discriminate H].
  exists r. split; [reflexivity|]. by apply String.eqb_eq.
Qed.

(** ** Properties *)

(** C35: an observation's process table is accepted exactly when it is a tree: identities
    are unique, the bound root has no parent, and every process reaches the root through
    its parents. The walk up the parents always ends, on every table, and every table
    that is not a tree is refused with a [ProcessLineageError]. *)
Theorem lineage_accepted_iff_tree (nodes : list ProcessNode) (root_process_id : string) :
  match _validate_lineage nodes root_process_id with
  | Ok _ => rooted_tree nodes root_process_id
  | Err e => ~ rooted_tree nodes root_process_id /\ exn_cls e = ProcessLineageError
  end.
Proof. apply validate_lineage_spec. Qed.

(** In every state a host can reach, the receipt of a supervisor verifies, and behind
    it stand two accepted observations of the bound session with the same processes,
    parents and identities; the counts are theirs, and an ALLOW receipt means that every
    process of the second one is terminated. The backend is arbitrary host code that does
    not assign the supervisor's fields. *)
Theorem quiescence_receipts_sound `{hash : Digest} {S : Type}
    `{L : Lens S ProcessLineageContainmentSupervisor} `{backend : ProcessLineageBackend S}
    (session root binding : string) (s0 s : S) (r : ProcessLineageContainmentReceipt)
    (Hb : backend_keeps) (Hinit : Supervisor_init session root binding = Ok (lget s0))
    (Hsteps : star sup_step s0 s) (Hr : ps_receipt (lget s) = Some r) :
  verify_receipt (ProcessLineageContainmentReceipt_as_document r)
    = Ok (ProcessLineageContainmentReceipt_as_document r)
  /\ exists before after,
       accepted (session, root, binding) before /\ accepted (session, root, binding) after
       /\ lineage_of (po_nodes before) = lineage_of (po_nodes after)
       /\ pr_before_tree_sha256 r = po_tree_sha256 before
       /\ pr_after_tree_sha256 r = po_tree_sha256 after
       /\ pr_observed_count r = Z.of_nat (length (po_nodes before))
       /\ pr_surviving_count r = Z.of_nat (length (live_nodes after))
       /\ (pr_decision r = "ALLOW" -> Forall (fun n => pn_state n = "terminated") (po_nodes after)).
Proof.
  destruct (init_sup_inv _ _ _ _ Hinit) as [Hids Hinv].
  destruct (sup_reachable _ s0 s Hb (conj Hids Hinv) Hsteps) as [Hi (_ & _ & Hrec)].
  destruct (Hrec r Hr) as [Hv (before & after & Hbk)]. rewrite Hi in Hbk. split; [done|].
  exists before, after. destruct Hbk as [? ? ? ? ? ? ? ? Hdec]. split_and!; try done.
  intros E. by apply no_live_terminated, Hdec.
Qed.

Lemma quiescence_receipts_sound_witness : exists r,
  ps_receipt (fst example_quiesced) = Some r /\ pr_decision r = "ALLOW"
  /\ verify_receipt (ProcessLineageContainmentReceipt_as_document r)
    = Ok (ProcessLineageContainmentReceipt_as_document r).
Proof.
  destruct example_receipt as (r & E & Hdec). exists r. split; [exact E|]. split; [exact Hdec|].
  apply (@quiescence_receipts_sound checksum_digest ExampleSession _ example_backend
    "session-1" "p0" example_binding example_start example_quiesced r);
    [apply example_keeps|vm_compute; reflexivity|apply example_path|exact E].
Defined.

(** A session that was not frozen is not terminated: [quiesce] raises and leaves the
    host as it was, without calling the backend. Once [quiesce] has answered, every later
    call gives the same receipt and changes nothing. *)
Theorem quiesce_once `{hash : Digest} {S : Type}
    `{L : Lens S ProcessLineageContainmentSupervisor} `{backend : ProcessLineageBackend S} (s : S) :
  match quiesce s with
  | (Ok doc, s') => quiesce s' = (Ok doc, s') /\ ps_before (lget s) <> None
  | (Err e, s') => ps_frozen (lget s) = None -> exn_cls e = ProcessLineageError /\ s' = s
  end.
Proof.
  unfold quiesce at 1. M_go.
  destruct (ps_before (lget s)) as [before|] eqn:E1, (ps_frozen (lget s)) as [frozen|] eqn:E2,
    (ps_freeze_evidence_sha256 (lget s)) as [ev|] eqn:E3; try by cbn.
  destruct (ps_receipt (lget s)) as [r|] eqn:E4.
  - cbn. split; [|done]. unfold quiesce. by rewrite M_this, E1, E2, E3, E4.
  - destruct (terminate_frozen _ s) as [[doc|e] s'] eqn:Ht; [|done].
    split; [by eapply terminate_records|done].
Qed.
