(* ===== verification/ProcessTree.v ===== *)
(** * Process sessions (sdk/liminal_process_tree/__init__.py)

    The supervisor of the governed execution sessions. It freezes and terminates the
    sessions through host callbacks, which run on the whole host state [S], and issues
    receipts that say how many sessions survived. A session that was completed or
    terminated is never used again. *)
From stdpp Require Import gmap.
From Stdlib Require Import Ascii.
From S2P Require Import Prelude PyStr Json Digest Contracts.
#[local] Open Scope Z_scope.

(** ** Constants *)
Definition SCHEMA : string := "liminal-process-tree-containment-receipt-v0.1".
Definition FREEZE_SCHEMA : string := "liminal-process-tree-freeze-receipt-v0.1".

Definition AUTHORITY : dict :=
  [("mode", JStr "host_bound_process_tree_containment");
   ("trusted_host_callbacks", JBool true); ("freeze_registered_sessions", JBool true);
   ("terminate_registered_sessions", JBool true); ("verify_zero_survivors", JBool true);
   ("separate_freeze_and_quiesce", JBool true); ("digest_only_receipts", JBool true);
   ("direct_host_process_enumeration", JBool false); ("direct_subprocess_execution", JBool false);
   ("direct_docker_api_access", JBool false); ("kernel_escape_resistance", JBool false);
   ("container_runtime_compromise_resistance", JBool false); ("automatic_release", JBool false)].

(** [raise ProcessTreeError(msg)] when [b]. *)
Definition tree_raise_if (b : bool) (msg : string) : result unit := raise_if b ProcessTreeError msg.

Definition _validate_id (value : string) (name : string) : result unit :=
  tree_raise_if (String.eqb (py_strip value) "" || contains_char "000"%char value || (256 <? py_len value))
    (name +:+ " must be a bounded non-empty string").

Definition _require_sha (value : json) (name : string) : result string :=
  check_sha ProcessTreeError (name +:+ " must be lowercase SHA-256") value.

(** ** Observations and bindings *)
Record ProcessTreeObservation := {
  pt_session_id : string;
  pt_exists : bool;
  pt_running : bool;
  pt_descendant_count : Z;
  pt_tree_sha256 : string
}.

Definition tree_observation_keys : list string := ["exists"; "running"; "descendant_count"; "tree_sha256"].

Definition ProcessTreeObservation_from_mapping (session_id : string) (value : dict)
    : result ProcessTreeObservation :=
  _ ← _validate_id session_id "session_id";
  _ ← tree_raise_if (negb (keys_are value tree_observation_keys)) "process observation schema mismatch";
  match dict_get_none value "exists", dict_get_none value "running" with
  | JBool present, JBool running =>
      _ ← tree_raise_if (running && negb present) "running session must exist";
      match dict_get_none value "descendant_count" with
      | JInt descendants =>
          _ ← tree_raise_if ((descendants <? 0) || (4096 <? descendants)) "descendant_count is outside bounds";
          tree_sha ← _require_sha (dict_get_none value "tree_sha256") "tree_sha256";
          _ ← tree_raise_if (negb present && (running || negb (descendants =? 0)
                                          || negb (String.eqb tree_sha ZERO_SHA256)))
                "absent session must have zero survivor evidence";
          Ok {| pt_session_id := session_id; pt_exists := present; pt_running := running;
                pt_descendant_count := descendants; pt_tree_sha256 := tree_sha |}
      | _ => fail ProcessTreeError "descendant_count is outside bounds"
      end
  | _, _ => fail ProcessTreeError "process observation booleans are invalid"
  end.

Record SessionBinding := {
  sb_session_id : string;
  sb_operation_id : string;
  sb_plan_sha256 : string;
  sb_backend_identity_sha256 : string;
  sb_status : string
}.

Record ProcessTreeContainmentReceipt := {
  tr_incident_id : string;
  tr_session_count : Z;
  tr_active_before_count : Z;
  tr_terminated_count : Z;
  tr_already_absent_count : Z;
  tr_survivor_count : Z;
  tr_session_set_sha256 : string;
  tr_before_root_sha256 : string;
  tr_after_root_sha256 : string;
  tr_failure_codes : list string;
  tr_zero_survivors : bool;
  tr_receipt_sha256 : string
}.

(** ** The supervisor *)
Record ProcessTreeSupervisor := {
  pt_sessions : gmap string SessionBinding;
  pt_receipts : list ProcessTreeContainmentReceipt;
  pt_freeze_receipts : list dict
}.

Definition ProcessTreeSupervisor_init : ProcessTreeSupervisor :=
  {| pt_sessions := ∅; pt_receipts := []; pt_freeze_receipts := [] |}.

Definition put_session (session_id : string) (b : SessionBinding) (s : ProcessTreeSupervisor)
    : ProcessTreeSupervisor := {|
  pt_sessions := <[session_id := b]> (pt_sessions s); pt_receipts := pt_receipts s;
  pt_freeze_receipts := pt_freeze_receipts s |}.

Definition push_receipt (r : ProcessTreeContainmentReceipt) (s : ProcessTreeSupervisor)
    : ProcessTreeSupervisor := {|
  pt_sessions := pt_sessions s; pt_receipts := pt_receipts s ++ [r];
  pt_freeze_receipts := pt_freeze_receipts s |}.

Definition push_freeze_receipt (d : dict) (s : ProcessTreeSupervisor) : ProcessTreeSupervisor := {|
  pt_sessions := pt_sessions s; pt_receipts := pt_receipts s;
  pt_freeze_receipts := pt_freeze_receipts s ++ [d] |}.

Definition with_status (b : SessionBinding) (status : string) : SessionBinding := {|
  sb_session_id := sb_session_id b; sb_operation_id := sb_operation_id b;
  sb_plan_sha256 := sb_plan_sha256 b;
  sb_backend_identity_sha256 := sb_backend_identity_sha256 b; sb_status := status |}.

Definition is_terminal (status : string) : bool := mem status ["COMPLETED"; "TERMINATED"].

(** [sorted(self._sessions)]. *)
Definition session_keys (s : ProcessTreeSupervisor) : list string :=
  sorted_str (map fst (map_to_list (pt_sessions s))).

(** [tuple(self._sessions[key] for key in sorted(self._sessions))]. *)
Definition session_bindings (s : ProcessTreeSupervisor) : list SessionBinding :=
  omap (fun key => pt_sessions s !! key) (session_keys s).

(** The sessions that are not completed or terminated. *)
Definition candidates (s : ProcessTreeSupervisor) : list SessionBinding :=
  List.filter (fun b => negb (is_terminal (sb_status b))) (session_bindings s).

(** The callbacks of the supervisor. *)
Class SessionHost (S : Type) := {
  inspect_session : string -> M S dict;
  freeze_session : string -> M S unit;
  terminate_session : string -> M S unit
}.

(** The local variables of the two loops. *)
Record FreezeLocals := {
  fl_before_docs : list json;
  fl_after_docs : list json;
  fl_failures : list string;
  fl_frozen_count : Z;
  fl_absent_count : Z
}.

Definition fl_start : FreezeLocals :=
  {| fl_before_docs := []; fl_after_docs := []; fl_failures := []; fl_frozen_count := 0; fl_absent_count := 0 |}.

Definition fl_before (d : json) (w : FreezeLocals) : FreezeLocals := {|
  fl_before_docs := fl_before_docs w ++ [d]; fl_after_docs := fl_after_docs w;
  fl_failures := fl_failures w; fl_frozen_count := fl_frozen_count w; fl_absent_count := fl_absent_count w |}.

Definition fl_after (d : json) (w : FreezeLocals) : FreezeLocals := {|
  fl_before_docs := fl_before_docs w; fl_after_docs := fl_after_docs w ++ [d];
  fl_failures := fl_failures w; fl_frozen_count := fl_frozen_count w; fl_absent_count := fl_absent_count w |}.

Definition fl_failed (code : string) (w : FreezeLocals) : FreezeLocals := {|
  fl_before_docs := fl_before_docs w; fl_after_docs := fl_after_docs w;
  fl_failures := fl_failures w ++ [code]; fl_frozen_count := fl_frozen_count w;
  fl_absent_count := fl_absent_count w |}.

Definition fl_frozen (w : FreezeLocals) : FreezeLocals := {|
  fl_before_docs := fl_before_docs w; fl_after_docs := fl_after_docs w;
  fl_failures := fl_failures w; fl_frozen_count := fl_frozen_count w + 1;
  fl_absent_count := fl_absent_count w |}.

Definition fl_absent (w : FreezeLocals) : FreezeLocals := {|
  fl_before_docs := fl_before_docs w; fl_after_docs := fl_after_docs w;
  fl_failures := fl_failures w; fl_frozen_count := fl_frozen_count w;
  fl_absent_count := fl_absent_count w + 1 |}.

Record QuiesceLocals := {
  ql_before_docs : list json;
  ql_after_docs : list json;
  ql_failure_codes : list string;
  ql_terminated : Z;
  ql_already_absent : Z;
  ql_active_before : Z;
  ql_survivors : Z
}.

Definition ql_start : QuiesceLocals :=
  {| ql_before_docs := []; ql_after_docs := []; ql_failure_codes := []; ql_terminated := 0;
     ql_already_absent := 0; ql_active_before := 0; ql_survivors := 0 |}.

Definition ql_before (d : json) (w : QuiesceLocals) : QuiesceLocals := {|
  ql_before_docs := ql_before_docs w ++ [d]; ql_after_docs := ql_after_docs w;
  ql_failure_codes := ql_failure_codes w; ql_terminated := ql_terminated w;
  ql_already_absent := ql_already_absent w; ql_active_before := ql_active_before w;
  ql_survivors := ql_survivors w |}.

Definition ql_after (d : json) (w : QuiesceLocals) : QuiesceLocals := {|
  ql_before_docs := ql_before_docs w; ql_after_docs := ql_after_docs w ++ [d];
  ql_failure_codes := ql_failure_codes w; ql_terminated := ql_terminated w;
  ql_already_absent := ql_already_absent w; ql_active_before := ql_active_before w;
  ql_survivors := ql_survivors w |}.

Definition ql_failed (code : string) (w : QuiesceLocals) : QuiesceLocals := {|
  ql_before_docs := ql_before_docs w; ql_after_docs := ql_after_docs w;
  ql_failure_codes := ql_failure_codes w ++ [code]; ql_terminated := ql_terminated w;
  ql_already_absent := ql_already_absent w; ql_active_before := ql_active_before w;
  ql_survivors := ql_survivors w |}.

(** [terminated += t; already_absent += a; active_before += b; survivors += v]. *)
Definition ql_count (t a b v : Z) (w : QuiesceLocals) : QuiesceLocals := {|
  ql_before_docs := ql_before_docs w; ql_after_docs := ql_after_docs w;
  ql_failure_codes := ql_failure_codes w; ql_terminated := ql_terminated w + t;
  ql_already_absent := ql_already_absent w + a; ql_active_before := ql_active_before w + b;
  ql_survivors := ql_survivors w + v |}.

Section tree.
Context {hash : Digest}.

Definition ProcessTreeObservation_safe_body (o : ProcessTreeObservation) : dict :=
  [("session_id_sha256", JStr (canonical_sha256 (JStr (pt_session_id o))));
   ("exists", JBool (pt_exists o)); ("running", JBool (pt_running o));
   ("descendant_count", JInt (pt_descendant_count o)); ("tree_sha256", JStr (pt_tree_sha256 o))].

Definition SessionBinding_safe_body (b : SessionBinding) : dict :=
  [("session_id_sha256", JStr (canonical_sha256 (JStr (sb_session_id b))));
   ("operation_id_sha256", JStr (canonical_sha256 (JStr (sb_operation_id b))));
   ("plan_sha256", JStr (sb_plan_sha256 b));
   ("backend_identity_sha256", JStr (sb_backend_identity_sha256 b));
   ("status", JStr (sb_status b))].

Definition ProcessTreeContainmentReceipt_body (r : ProcessTreeContainmentReceipt) : dict :=
  [("schema", JStr SCHEMA);
   ("incident_id_sha256", JStr (canonical_sha256 (JStr (tr_incident_id r))));
   ("session_count", JInt (tr_session_count r));
   ("active_before_count", JInt (tr_active_before_count r));
   ("terminated_count", JInt (tr_terminated_count r));
   ("already_absent_count", JInt (tr_already_absent_count r));
   ("survivor_count", JInt (tr_survivor_count r));
   ("session_set_sha256", JStr (tr_session_set_sha256 r));
   ("before_root_sha256", JStr (tr_before_root_sha256 r));
   ("after_root_sha256", JStr (tr_after_root_sha256 r));
   ("failure_codes", jstrs (tr_failure_codes r));
   ("zero_survivors", JBool (tr_zero_survivors r));
   ("authority", JObj AUTHORITY)].

Definition ProcessTreeContainmentReceipt_as_document (r : ProcessTreeContainmentReceipt) : dict :=
  dict_set (ProcessTreeContainmentReceipt_body r) "receipt_sha256" (JStr (tr_receipt_sha256 r)).

(** [canonical_sha256(session_id)[:16]]. *)
Definition session_hash (session_id : string) : string :=
  str_take 16 (canonical_sha256 (JStr session_id)).

(** [f"{kind}:{session_hash}"] and [f"{kind}:{session_hash}:{type(exc).__name__}"]. *)
Definition code (kind session_id : string) : string := kind +:+ ":" +:+ session_hash session_id.

Definition exc_code (kind session_id : string) (exc : exn) : string :=
  code kind session_id +:+ ":" +:+ exn_name (exn_cls exc).

Section host.
Context {S : Type} {L : Lens S ProcessTreeSupervisor} {host : SessionHost S}.

Definition _inspect (session_id : string) : M S ProcessTreeObservation :=
  raw ← inspect_session session_id;
  lift (ProcessTreeObservation_from_mapping session_id raw).

Definition _get (session_id : string) : M S SessionBinding :=
  _ ← lift (_validate_id session_id "session_id");
  self ← this;
  match pt_sessions self !! session_id with
  | Some item => mret item
  | None => raise ProcessTreeError "unknown execution session"
  end.

Definition _set_status (session_id status : string) : M S unit :=
  _ ← lift (tree_raise_if (negb (mem status ["ACTIVE"; "FROZEN"; "TERMINATED"; "COMPLETED"; "ERROR"]))
              "invalid session status");
  self ← this;
  match pt_sessions self !! session_id with
  | None => raise KeyError session_id
  | Some current =>
      _ ← lift (tree_raise_if (is_terminal (sb_status current) && negb (String.eqb status (sb_status current)))
                  "terminal execution session cannot be resurrected");
      set_this (put_session session_id (with_status current status))
  end.

Definition register_session (session_id operation_id plan_sha256 backend_identity_sha256 : string)
    : M S dict :=
  _ ← lift (_validate_id session_id "session_id");
  _ ← lift (_validate_id operation_id "operation_id");
  _ ← lift (_require_sha (JStr plan_sha256) "plan_sha256");
  _ ← lift (_require_sha (JStr backend_identity_sha256) "backend_identity_sha256");
  self ← this;
  match pt_sessions self !! session_id with
  | Some _ => raise ProcessTreeError "execution session replay/duplicate is forbidden"
  | None =>
      let binding := {| sb_session_id := session_id; sb_operation_id := operation_id;
                        sb_plan_sha256 := plan_sha256;
                        sb_backend_identity_sha256 := backend_identity_sha256;
                        sb_status := "ACTIVE" |} in
      _ ← set_this (put_session session_id binding);
      mret (seal "binding_sha256" (SessionBinding_safe_body binding))
  end.

Definition mark_complete (session_id : string) : M S dict :=
  binding ← _get session_id;
  if is_terminal (sb_status binding) then mret (SessionBinding_safe_body binding)
  else
    observation ← _inspect session_id;
    _ ← lift (tree_raise_if (pt_exists observation || pt_running observation
                             || negb (pt_descendant_count observation =? 0))
                "cannot mark a live process tree complete");
    _ ← _set_status session_id "COMPLETED";
    self ← this;
    match pt_sessions self !! session_id with
    | Some b => mret (SessionBinding_safe_body b)
    | None => raise KeyError session_id
    end.

(** The [try] block of [freeze_all] after the first inspection. *)
Definition freeze_present (session_id : string) (before : ProcessTreeObservation)
    : M (S * FreezeLocals) unit :=
  _ ← (if pt_running before then outside (freeze_session session_id) else mret tt);
  after ← outside (_inspect session_id);
  _ ← update_local (fl_after (JObj (ProcessTreeObservation_safe_body after)));
  if negb (pt_exists after) then
    _ ← update_local fl_absent; outside (_set_status session_id "COMPLETED")
  else if pt_running after then
    _ ← update_local (fl_failed (code "still_running" session_id));
    outside (_set_status session_id "ERROR")
  else
    _ ← update_local fl_frozen; outside (_set_status session_id "FROZEN").

(** One iteration of the loop of [freeze_all]. *)
Definition freeze_one (binding : SessionBinding) : M (S * FreezeLocals) unit :=
  let session_id := sb_session_id binding in
  inspected ← attempt (
    before ← outside (_inspect session_id);
    _ ← update_local (fl_before (JObj (ProcessTreeObservation_safe_body before)));
    mret before);
  match inspected with
  | inl exc =>
      _ ← update_local (fl_failed (exc_code "inspect_before" session_id exc));
      outside (_set_status session_id "ERROR")
  | inr before =>
      if negb (pt_exists before) then
        _ ← update_local fl_absent;
        _ ← outside (_set_status session_id "COMPLETED");
        update_local (fl_after (JObj (ProcessTreeObservation_safe_body before)))
      else
        try_except (freeze_present session_id before) (fun exc =>
          _ ← update_local (fl_failed (exc_code "freeze" session_id exc));
          outside (_set_status session_id "ERROR"))
  end.

Definition freeze_body (session_count : nat) (w : FreezeLocals) : dict :=
  [("schema", JStr FREEZE_SCHEMA);
   ("session_count", JInt (Z.of_nat session_count));
   ("frozen_count", JInt (fl_frozen_count w));
   ("already_absent_count", JInt (fl_absent_count w));
   ("failure_codes", jstrs (sorted_str (fl_failures w)));
   ("before_root_sha256", JStr (canonical_sha256 (JList (fl_before_docs w))));
   ("after_root_sha256", JStr (canonical_sha256 (JList (fl_after_docs w))));
   ("authority_sha256", JStr (canonical_sha256 (JObj AUTHORITY)))].

Definition freeze_all : M S dict :=
  self ← this;
  '(finished, w) ← with_local fl_start (for_each freeze_one (candidates self));
  _ ← lift finished;
  let receipt := seal "receipt_sha256" (freeze_body (length (candidates self)) w) in
  _ ← set_this (push_freeze_receipt receipt);
  mret receipt.

(** The emergency freeze of a running session in [_quiesce]. *)
Definition emergency_freeze (session_id : string) : M S unit :=
  _ ← freeze_session session_id;
  _ ← _set_status session_id "FROZEN";
  before ← _inspect session_id;
  lift (tree_raise_if (pt_running before) "emergency freeze left session running").

(** The part of an iteration of [_quiesce] that terminates a session. *)
Definition terminate_one (session_id : string) : M (S * QuiesceLocals) unit :=
  _ ← try_except (outside (terminate_session session_id))
        (fun exc => update_local (ql_failed (exc_code "terminate" session_id exc)));
  inspected ← attempt (
    after ← outside (_inspect session_id);
    _ ← update_local (ql_after (JObj (ProcessTreeObservation_safe_body after)));
    mret after);
  match inspected with
  | inl exc =>
      _ ← update_local (ql_failed (exc_code "inspect_after" session_id exc));
      _ ← outside (_set_status session_id "ERROR");
      update_local (ql_count 0 0 0 1)
  | inr after =>
      if pt_exists after || pt_running after || negb (pt_descendant_count after =? 0) then
        _ ← update_local (ql_failed (code "survivor" session_id));
        _ ← outside (_set_status session_id "ERROR");
        update_local (ql_count 0 0 0 1)
      else
        _ ← update_local (ql_count 1 0 0 0);
        outside (_set_status session_id "TERMINATED")
  end.

(** One iteration of the loop of [_quiesce]. *)
Definition quiesce_one (allow_emergency_freeze : bool) (binding : SessionBinding)
    : M (S * QuiesceLocals) unit :=
  let session_id := sb_session_id binding in
  inspected ← attempt (outside (_inspect session_id));
  match inspected with
  | inl exc =>
      _ ← update_local (ql_failed (exc_code "inspect_before" session_id exc));
      _ ← outside (_set_status session_id "ERROR");
      update_local (ql_count 0 0 0 1)
  | inr before =>
      let doc := JObj (ProcessTreeObservation_safe_body before) in
      _ ← update_local (ql_before doc);
      if negb (pt_exists before) then
        _ ← update_local (ql_count 0 1 0 0);
        _ ← outside (_set_status session_id "COMPLETED");
        update_local (ql_after doc)
      else
        _ ← update_local (ql_count 0 0 1 0);
        if negb (pt_running before) then terminate_one session_id
        else if negb allow_emergency_freeze then
          _ ← update_local (ql_failed (code "not_frozen" session_id));
          _ ← outside (_set_status session_id "ERROR");
          _ ← update_local (ql_count 0 0 0 1);
          update_local (ql_after doc)
        else
          frozen ← attempt (outside (emergency_freeze session_id));
          match frozen with
          | inl exc =>
              _ ← update_local (ql_failed (exc_code "freeze" session_id exc));
              _ ← outside (_set_status session_id "ERROR");
              update_local (ql_count 0 0 0 1)
          | inr _ => terminate_one session_id
          end
  end.

Definition seal_receipt (r : ProcessTreeContainmentReceipt) : ProcessTreeContainmentReceipt := {|
  tr_incident_id := tr_incident_id r; tr_session_count := tr_session_count r;
  tr_active_before_count := tr_active_before_count r;
  tr_terminated_count := tr_terminated_count r;
  tr_already_absent_count := tr_already_absent_count r;
  tr_survivor_count := tr_survivor_count r; tr_session_set_sha256 := tr_session_set_sha256 r;
  tr_before_root_sha256 := tr_before_root_sha256 r;
  tr_after_root_sha256 := tr_after_root_sha256 r; tr_failure_codes := tr_failure_codes r;
  tr_zero_survivors := tr_zero_survivors r;
  tr_receipt_sha256 := canonical_sha256 (JObj (ProcessTreeContainmentReceipt_body r)) |}.

Definition quiesce_receipt (bindings : list SessionBinding) (incident_id : string) (w : QuiesceLocals)
    : ProcessTreeContainmentReceipt :=
  seal_receipt {|
    tr_incident_id := incident_id;
    tr_session_count := Z.of_nat (length bindings);
    tr_active_before_count := ql_active_before w;
    tr_terminated_count := ql_terminated w;
    tr_already_absent_count := ql_already_absent w;
    tr_survivor_count := ql_survivors w;
    tr_session_set_sha256 :=
      canonical_sha256 (JList (map (fun b => JObj (SessionBinding_safe_body b)) bindings));
    tr_before_root_sha256 := canonical_sha256 (JList (ql_before_docs w));
    tr_after_root_sha256 := canonical_sha256 (JList (ql_after_docs w));
    tr_failure_codes := sorted_str (ql_failure_codes w);
    tr_zero_survivors := (ql_survivors w =? 0) && bool_decide (ql_failure_codes w = []);
    tr_receipt_sha256 := "" |}.

Definition _quiesce (bindings : list SessionBinding) (incident_id : string)
    (allow_emergency_freeze : bool) : M S dict :=
  '(finished, w) ← with_local ql_start (for_each (quiesce_one allow_emergency_freeze) bindings);
  _ ← lift finished;
  let receipt := quiesce_receipt bindings incident_id w in
  _ ← set_this (push_receipt receipt);
  mret (ProcessTreeContainmentReceipt_as_document receipt).

Definition quiesce_session (session_id incident_id : string) : M S dict :=
  _ ← lift (_validate_id incident_id "incident_id");
  binding ← _get session_id;
  _quiesce [binding] incident_id true.

Definition quiesce_all (incident_id : string) : M S dict :=
  _ ← lift (_validate_id incident_id "incident_id");
  self ← this;
  _quiesce (candidates self) incident_id false.

Definition containment_freeze_hook : M S unit :=
  receipt ← freeze_all;
  lift (tree_raise_if (match dict_get_none receipt "failure_codes" with
                       | JList (_ :: _) => true
                       | _ => false
                       end) "active containment could not freeze every execution session").

Definition containment_quiesce_hook (incident_id : string) : M S dict := quiesce_all incident_id.

Definition state_document : M S dict :=
  self ← this;
  let safe := map (fun b => JObj (SessionBinding_safe_body b)) (session_bindings self) in
  mret (seal "state_sha256" [("sessions", JList safe); ("session_count", JInt (Z.of_nat (length safe)));
                             ("authority", JObj AUTHORITY)]).

Definition receipts : M S (list dict) :=
  self ← this; mret (map ProcessTreeContainmentReceipt_as_document (pt_receipts self)).

Definition freeze_receipts : M S (list dict) := self ← this; mret (pt_freeze_receipts self).
End host.

(** [bool(value)]. *)
Definition truthy (v : json) : bool :=
  match v with
  | JNull => false
  | JBool b => b
  | JInt z => negb (z =? 0)
  | JStr s => negb (String.eqb s "")
  | JList l => negb (bool_decide (length l = O))
  | JObj d => negb (bool_decide (length d = O))
  end.

Definition verify_receipt (document : dict) : result dict :=
  let raw := dict_del document "receipt_sha256" in
  let digest := dict_get_none document "receipt_sha256" in
  _ ← tree_raise_if (negb (envelope_ok raw SCHEMA AUTHORITY))
        "process-tree receipt schema or authority mismatch";
  _ ← tree_raise_if (negb (is_str digest (canonical_sha256 (JObj raw))))
        "process-tree receipt digest mismatch";
  _ ← map_r (fun key => match dict_get_none raw key with
                        | JInt z => tree_raise_if (z <? 0) ("invalid " +:+ key)
                        | _ => fail ProcessTreeError ("invalid " +:+ key)
                        end)
        ["session_count"; "active_before_count"; "terminated_count"; "already_absent_count";
         "survivor_count"];
  _ ← tree_raise_if (truthy (dict_get_none raw "zero_survivors")
                     && (negb (py_eq (dict_get_none raw "survivor_count") (JInt 0))
                         || truthy (dict_get_none raw "failure_codes")))
        "zero-survivor claim contradicts receipt evidence";
  Ok document.
End tree.

(** ** Lemmas: what a call may do to the sessions *)

(** Sessions are never removed or replaced, and a session that is completed or terminated
    stays exactly as it is. *)
Definition session_kept (b b' : SessionBinding) : Prop :=
  sb_session_id b' = sb_session_id b /\ sb_operation_id b' = sb_operation_id b
  /\ sb_plan_sha256 b' = sb_plan_sha256 b
  /\ sb_backend_identity_sha256 b' = sb_backend_identity_sha256 b
  /\ (is_terminal (sb_status b) = true -> b' = b).

Definition sessions_kept (s s' : ProcessTreeSupervisor) : Prop :=
  forall id b, pt_sessions s !! id = Some b ->
    exists b', pt_sessions s' !! id = Some b' /\ session_kept b b'.

Lemma session_kept_refl b : session_kept b b.
Proof. by split_and!. Qed.

#[export] Instance sessions_kept_preorder : PreOrder sessions_kept.
Proof.
  split.
  - intros s id b Hb. exists b. split; [done|apply session_kept_refl].
  - intros s1 s2 s3 H12 H23 id b Hb. destruct (H12 id b Hb) as (b2 & Hb2 & K1 & K2 & K3 & K4 & K5).
    destruct (H23 id b2 Hb2) as (b3 & Hb3 & J1 & J2 & J3 & J4 & J5). exists b3. split; [done|].
    split_and!; [congruence..|]. intros Ht. pose proof (K5 Ht) as ->. by apply J5.
Qed.

Lemma put_session_kept id b s :
  (forall b0, pt_sessions s !! id = Some b0 -> session_kept b0 b) -> sessions_kept s (put_session id b s).
Proof.
  intros Hk id' b' Hb'. cbn. destruct (decide (id = id')) as [<-|Hne].
  - rewrite lookup_insert_eq. exists b. split; [done|by apply Hk].
  - rewrite lookup_insert_ne by done. exists b'. split; [done|apply session_kept_refl].
Qed.

(** Every binding is stored under its own identity. *)
Definition keyed (s : ProcessTreeSupervisor) : Prop :=
  forall id b, pt_sessions s !! id = Some b -> sb_session_id b = id.

Section tree_lemmas.
Context {hash : Digest} {S : Type} {L : Lens S ProcessTreeSupervisor} {host : SessionHost S}.

(** What every receipt of the supervisor says: it verifies, each session is counted
    once, and a zero-survivor claim is backed by the counters. *)
Definition receipt_ok (r : ProcessTreeContainmentReceipt) : Prop :=
  verify_receipt (ProcessTreeContainmentReceipt_as_document r)
    = Ok (ProcessTreeContainmentReceipt_as_document r)
  /\ tr_terminated_count r + tr_already_absent_count r + tr_survivor_count r = tr_session_count r
  /\ 0 <= tr_active_before_count r <= tr_session_count r
  /\ (tr_zero_survivors r = true <-> tr_survivor_count r = 0 /\ tr_failure_codes r = []).

Definition tree_inv (s : ProcessTreeSupervisor) : Prop := keyed s /\ Forall receipt_ok (pt_receipts s).

Definition tree_ok (s s' : ProcessTreeSupervisor) : Prop :=
  sessions_kept s s' /\ (tree_inv s -> tree_inv s').

#[export] Instance tree_ok_preorder : PreOrder tree_ok.
Proof.
  split; [by intros s|]. intros s1 s2 s3 [K1 I1] [K2 I2]. split; [by transitivity s2|auto].
Qed.

Definition host_kept (s s' : S) : Prop := tree_ok (lget s) (lget s').

#[local] Instance host_kept_preorder : PreOrder host_kept.
Proof. split; [intros s|intros s1 s2 s3]; unfold host_kept; [done|apply transitivity]. Qed.

Lemma put_session_ok id b s : (keyed s -> sb_session_id b = id) ->
  (forall b0, pt_sessions s !! id = Some b0 -> session_kept b0 b) -> tree_ok s (put_session id b s).
Proof.
  intros Hid Hk. split; [by apply put_session_kept|]. intros [Hkey Hr]. split; [|done].
  intros id' b'. cbn. destruct (decide (id = id')) as [<-|Hne].
  - rewrite lookup_insert_eq. intros [= <-]. by apply Hid.
  - rewrite lookup_insert_ne by done. apply Hkey.
Qed.

Lemma status_ok id b status s : pt_sessions s !! id = Some b ->
  (is_terminal (sb_status b) = true -> with_status b status = b) ->
  tree_ok s (put_session id (with_status b status) s).
Proof.
  intros Hb Ht. apply put_session_ok.
  - intros Hkey. exact (Hkey id b Hb).
  - intros b0 Hb0. rewrite Hb in Hb0. injection Hb0 as <-. by split_and!.
Qed.

(** The callbacks are arbitrary host code; they reach the sessions through the supervisor. *)
Record callbacks_keep : Prop := {
  keeps_inspect id : evolves host_kept (inspect_session id);
  keeps_freeze id : evolves host_kept (freeze_session id);
  keeps_terminate id : evolves host_kept (terminate_session id)
}.

Lemma set_status_run id status s :
  _set_status id status s =
  if mem status ["ACTIVE"; "FROZEN"; "TERMINATED"; "COMPLETED"; "ERROR"] then
    match pt_sessions (lget s) !! id with
    | None => (Err (Exn KeyError id), s)
    | Some current =>
        if is_terminal (sb_status current) && negb (String.eqb status (sb_status current))
        then (Err (Exn ProcessTreeError "terminal execution session cannot be resurrected"), s)
        else (Ok tt, lput (put_session id (with_status current status) (lget s)) s)
    end
  else (Err (Exn ProcessTreeError "invalid session status"), s).
Proof.
  unfold _set_status, tree_raise_if, raise_if. rewrite M_lift.
  destruct (mem status _); cbn [negb]; [|done]. M_go.
  destruct (pt_sessions (lget s) !! id) as [b|]; [|done]. rewrite M_lift. by destruct (_ && _).
Qed.

Lemma set_status_kept id status : evolves host_kept (_set_status id status).
Proof.
  intros s. rewrite set_status_run. destruct (mem _ _); [|done].
  destruct (pt_sessions (lget s) !! id) as [b|] eqn:Hb; [|done].
  destruct (is_terminal (sb_status b) && _) eqn:Ht; [done|].
  cbn. unfold host_kept. rewrite lget_lput. apply status_ok; [done|]. intros Hterm. rewrite Hterm in Ht.
  apply negb_false_iff, String.eqb_eq in Ht. subst status. by destruct b.
Qed.

Lemma inspect_kept id : callbacks_keep -> evolves host_kept (_inspect id).
Proof.
  intros Hc. unfold _inspect. apply evolves_bind; [typeclasses eauto|apply Hc|]. intros raw.
  apply evolves_lift. typeclasses eauto.
Qed.

Lemma emergency_kept id : callbacks_keep -> evolves host_kept (emergency_freeze id).
Proof.
  intros Hc. unfold emergency_freeze.
  apply evolves_bind; [typeclasses eauto|apply Hc|intros _].
  apply evolves_bind; [typeclasses eauto|apply set_status_kept|intros _].
  apply evolves_bind; [typeclasses eauto|by apply inspect_kept|intros before].
  apply evolves_lift. typeclasses eauto.
Qed.

Lemma observation_absent id raw o : ProcessTreeObservation_from_mapping id raw = Ok o ->
  pt_exists o = false -> pt_running o = false /\ pt_descendant_count o = 0.
Proof.
  unfold ProcessTreeObservation_from_mapping. intros H He. py_inv.
  destruct (dict_get_none raw "exists"), (dict_get_none raw "running"); try done. py_inv.
  destruct (dict_get_none raw "descendant_count"); try done. py_inv. cbn in *. subst.
  unfold tree_raise_if in *. py_inv. cbn in *.
  match goal with Hz : _ || _ || _ = false |- _ => apply orb_false_iff in Hz as [[? ?]%orb_false_iff _] end.
  split; [done|]. apply Z.eqb_eq. by apply negb_false_iff.
Qed.

(** What a session inspected as gone reports: the host's document says so itself. *)
Definition reports_gone (raw : dict) : Prop :=
  dict_get raw "exists" = Some (JBool false) /\ dict_get raw "running" = Some (JBool false)
  /\ dict_get raw "descendant_count" = Some (JInt 0).

Lemma observation_gone id raw o : ProcessTreeObservation_from_mapping id raw = Ok o ->
  pt_exists o = false -> reports_gone raw.
Proof.
  intros H He. destruct (observation_absent id raw o H He) as [Hr Hd]. revert H.
  unfold ProcessTreeObservation_from_mapping, reports_gone. intros H. py_inv.
  destruct (dict_get_none raw "exists") eqn:E1, (dict_get_none raw "running") eqn:E2; try done. py_inv.
  destruct (dict_get_none raw "descendant_count") eqn:E3; try done. py_inv. cbn in *. subst.
  unfold dict_get_none, dict_get_or in E1, E2, E3. split; [|split].
  - destruct (dict_get raw "exists"); congruence.
  - destruct (dict_get raw "running"); congruence.
  - destruct (dict_get raw "descendant_count"); congruence.
Qed.

(** Between the states [s] and [s'] the host inspected the session, in a state where [P]
    holds, and reported it gone. *)
Definition seen_gone (P : S -> Prop) (id : string) (s s' : S) : Prop :=
  exists u raw u', host_kept s u /\ P u /\ inspect_session id u = (Ok raw, u') /\ reports_gone raw
    /\ host_kept u' s'.

Lemma seen_gone_kept P id s0 s1 s2 s3 : host_kept s0 s1 -> host_kept s2 s3 ->
  seen_gone P id s1 s2 -> seen_gone P id s0 s3.
Proof.
  intros H1 H2 (u & raw & u' & Hu & HP & Hi & Hg & Hu'). exists u, raw, u'.
  split; [by etrans|]. split; [done|]. split; [done|]. split; [done|by etrans].
Qed.

(** The state right after the host was asked to terminate the session. *)
Definition after_terminate (id : string) (u : S) : Prop := exists u0, u = snd (terminate_session id u0).

(** How [_quiesce] closes a session: found absent, or found gone after it was terminated. *)
Definition cleared (id : string) (s s' : S) : Prop :=
  exists b, pt_sessions (lget s') !! id = Some b
    /\ (sb_status b = "COMPLETED" /\ seen_gone (fun _ => True) id s s'
        \/ sb_status b = "TERMINATED" /\ seen_gone (after_terminate id) id s s').

Lemma cleared_kept id s0 s1 s2 s3 : host_kept s0 s1 -> host_kept s2 s3 ->
  cleared id s1 s2 -> cleared id s0 s3.
Proof.
  intros H1 H2 (b & Hb & H). pose proof H2 as [Hk _]. destruct (Hk id b Hb) as (b' & Hb' & Hsk).
  assert (is_terminal (sb_status b) = true) as Ht by (destruct H as [[-> _]|[-> _]]; done).
  assert (b' = b) as -> by (destruct Hsk as (_ & _ & _ & _ & Heq); by rewrite Heq).
  exists b. split; [done|]. destruct H as [[Hs Hg]|[Hs Hg]]; [left|right]; (split; [done|]);
    by apply (seen_gone_kept _ _ s0 s1 s2 s3).
Qed.

Lemma set_status_at id status s s' : _set_status id status s = (Ok tt, s') ->
  exists b, pt_sessions (lget s') !! id = Some b /\ sb_status b = status.
Proof.
  rewrite set_status_run. destruct (mem _ _); [|done].
  destruct (pt_sessions (lget s) !! id) as [b|] eqn:Hb; [|done].
  destruct (_ && _); [done|]. intros [= <-]. rewrite lget_lput.
  exists (with_status b status). cbn. by rewrite lookup_insert_eq.
Qed.

(** *** Loop bodies

    [π] is the part of the local variables that the proofs follow: the counters. *)
Section locals.
Context {W C : Type} (π : W -> C).

(** The sessions evolved from those of [s0]; the counters are [c]. *)
Definition at_count (s0 : S) (c : C) (p : S * W) : Prop := host_kept s0 (fst p) /\ π (snd p) = c.

Definition raised (s0 : S) (e : exn) (p : S * W) : Prop := host_kept s0 (fst p).

Lemma outside_count {A} s0 c (m : M S A) : evolves host_kept m ->
  hoare (at_count s0 c) (outside m) (fun _ => at_count s0 c) (fun _ => at_count s0 c).
Proof.
  intros Hm [s w] [Hs Hw]. cbn in *. specialize (Hm s). unfold outside. cbn.
  destruct (m s) as [[a|e] s']; (split; [by transitivity s|done]).
Qed.

Lemma call_count {A} s0 c (m : M S A) : evolves host_kept m ->
  hoare (at_count s0 c) (outside m) (fun _ => at_count s0 c) (raised s0).
Proof.
  intros Hm. eapply hoare_consequence; [by apply outside_count|done|done|]. by intros e p [H _].
Qed.

Lemma update_count s0 c c' f E : (forall w, π w = c -> π (f w) = c') ->
  hoare (at_count s0 c) (update_local f) (fun _ => at_count s0 c') E.
Proof. intros Hf [s w] [Hs Hw]. split; [done|by apply Hf]. Qed.

Lemma attempt_count {A} s0 c (m : M S A) E : evolves host_kept m ->
  hoare (at_count s0 c) (attempt (outside m)) (fun _ => at_count s0 c) E.
Proof.
  intros Hm. eapply hoare_consequence; [by apply hoare_attempt, outside_count|done| |done].
  by intros [e|a] p Hp.
Qed.

(** An inspection whose document is kept. *)
Lemma logged_count {A} s0 c (m : M S A) (f : A -> W -> W) E : evolves host_kept m ->
  (forall a w, π (f a w) = π w) ->
  hoare (at_count s0 c) (attempt (x ← outside m; _ ← update_local (f x); mret x))
    (fun _ => at_count s0 c) E.
Proof.
  intros Hm Hf. eapply hoare_consequence;
    [apply (hoare_attempt _ _ (fun _ => at_count s0 c) (fun _ => at_count s0 c))|done|by intros [e|a] p Hp|done].
  eapply hoare_bind; [by apply outside_count|]. intros a. cbn beta.
  eapply hoare_bind; [apply (update_count _ _ c); intros w; by rewrite Hf|]. intros _ p Hp. exact Hp.
Qed.

(** An inspection that sees the session gone. *)
Definition gone_count (P : S -> Prop) (s0 : S) (id : string) (c : C) (p : S * W) : Prop :=
  at_count s0 c p /\ seen_gone P id s0 (fst p).

Lemma update_frame s0 c c' f (R : S -> Prop) E : (forall w, π w = c -> π (f w) = c') ->
  hoare (fun p => at_count s0 c p /\ R (fst p)) (update_local f)
    (fun _ p => at_count s0 c' p /\ R (fst p)) E.
Proof. intros Hf [s w] [[Hs Hw] HR]. split; [|done]. split; [done|by apply Hf]. Qed.

Lemma inspect_gone P s0 c id : callbacks_keep ->
  hoare (fun p => at_count s0 c p /\ P (fst p)) (outside (_inspect id))
    (fun o p => at_count s0 c p /\ (pt_exists o = false -> seen_gone P id s0 (fst p)))
    (fun _ => at_count s0 c).
Proof.
  intros Hc [s w] [[Hs Hw] HP]. cbn in *. pose proof (inspect_kept id Hc s) as Hk.
  pose proof (keeps_inspect Hc id s) as Hk0. revert Hk. unfold outside, _inspect. cbn. rewrite !M_bind_eq.
  destruct (inspect_session id s) as [[raw|e] s'] eqn:Hi; cbn in *; [|intros Hk; by split; [etrans|]].
  destruct (ProcessTreeObservation_from_mapping id raw) as [o|e] eqn:Ho; cbn; intros Hk;
    [|by split; [etrans|]].
  split; [by split; [etrans|]|]. intros He. exists s, raw, s'.
  split; [exact Hs|]. split; [exact HP|]. split; [exact Hi|].
  split; [by eapply observation_gone|unfold host_kept; reflexivity].
Qed.

(** Closing a session, and then leaving it closed. *)
Definition closed_count (P : S -> Prop) (status : string) (s0 : S) (id : string) (c : C)
    (p : S * W) : Prop :=
  at_count s0 c p /\ (exists b, pt_sessions (lget (fst p)) !! id = Some b /\ sb_status b = status)
  /\ seen_gone P id s0 (fst p).

Lemma close_count P s0 c id status :
  hoare (gone_count P s0 id c) (outside (_set_status id status))
    (fun _ => closed_count P status s0 id c) (raised s0).
Proof.
  intros [s w] [[Hs Hw] Hg]. cbn in *. pose proof (set_status_kept id status s) as Hk.
  pose proof (set_status_at id status s) as Hc. unfold outside. cbn.
  unfold raised. destruct (_set_status id status s) as [[[]|e] s']; cbn in *; [|by transitivity s].
  split; [split; [by transitivity s|done]|]. split; [by apply Hc|].
  apply (seen_gone_kept _ _ s0 s0 s s'); [unfold host_kept; reflexivity|done|done].
Qed.

Lemma update_closed P status s0 id c f E : (forall w, π (f w) = π w) ->
  hoare (closed_count P status s0 id c) (update_local f) (fun _ => closed_count P status s0 id c) E.
Proof. intros Hf [s w] [[Hs Hw] Hc]. split; [|done]. split; [done|]. cbn. by rewrite Hf. Qed.
End locals.

(** *** The loop of [_quiesce] *)
Lemma hoare_left {T A} (P R : T -> Prop) (m : M T A) Q E :
  hoare P m Q E -> hoare (fun s => P s /\ R s) m Q E.
Proof. intros Hm s [Hs _]. by apply Hm. Qed.

Definition q_counts (w : QuiesceLocals) : Z * Z * Z * Z :=
  (ql_terminated w, ql_already_absent w, ql_active_before w, ql_survivors w).

(** One session is accounted for: it is cleared, or it is counted as a survivor. *)
Definition accounted (s0 : S) (id : string) (c : Z * Z * Z * Z) (p : S * QuiesceLocals) : Prop :=
  let '(t, a, b, v) := c in
  host_kept s0 (fst p)
  /\ exists t' a' b' v', q_counts (snd p) = (t', a', b', v')
       /\ t <= t' /\ a <= a' /\ b <= b' <= b + 1 /\ v <= v'
       /\ t' + a' + v' = t + a + v + 1
       /\ (v' = v -> cleared id s0 (fst p)).

#[local] Abbreviation Q := (at_count q_counts).

Lemma q_failed s0 c code E : hoare (Q s0 c) (update_local (ql_failed code)) (fun _ => Q s0 c) E.
Proof. by apply update_count. Qed.

Lemma q_document s0 c d E : hoare (Q s0 c) (update_local (ql_after d)) (fun _ => Q s0 c) E.
Proof. by apply update_count. Qed.

Lemma q_count s0 t a b v t1 a1 b1 v1 E :
  hoare (Q s0 (t, a, b, v)) (update_local (ql_count t1 a1 b1 v1))
    (fun _ => Q s0 (t + t1, a + a1, b + b1, v + v1)) E.
Proof. apply update_count. by intros w [= <- <- <- <-]. Qed.

Lemma accounted_intro s0 id t a b v t' a' b' v' p : Q s0 (t', a', b', v') p ->
  t <= t' -> a <= a' -> b <= b' <= b + 1 -> v <= v' -> t' + a' + v' = t + a + v + 1 ->
  (v' = v -> cleared id s0 (fst p)) -> accounted s0 id (t, a, b, v) p.
Proof. intros [Hk Hc] ? ? ? ? ? ?. split; [done|]. by exists t', a', b', v'. Qed.

(** [_set_status(id, "ERROR")] and [survivors += 1], the end of every failed iteration. *)
Lemma q_survivor s0 id t a b b0 v : b0 <= b <= b0 + 1 ->
  hoare (Q s0 (t, a, b, v))
    (_ ← outside (_set_status id "ERROR"); update_local (ql_count 0 0 0 1))
    (fun _ => accounted s0 id (t, a, b0, v)) (raised s0).
Proof.
  intros Hb. eapply hoare_bind; [apply call_count, set_status_kept|]. intros ?; cbn beta.
  eapply hoare_consequence; [apply q_count|done| |done]. intros ? p Hp.
  apply (accounted_intro _ _ _ _ _ _ _ _ _ _ _ Hp); lia.
Qed.

Lemma q_closed P status s0 id t a b v t1 a1 b1 p :
  0 <= t1 -> 0 <= a1 -> 0 <= b1 <= 1 -> t1 + a1 = 1 ->
  (status = "COMPLETED" /\ (forall u, P u -> True)
   \/ status = "TERMINATED" /\ (forall u, P u -> after_terminate id u)) ->
  closed_count q_counts P status s0 id (t + t1, a + a1, b + b1, v + 0) p ->
  accounted s0 id (t, a, b, v) p.
Proof.
  intros Ht Ha Hb Hsum Hst (Hp & (x & Hx & Hs) & u & raw & u' & Hu & HP & Hrest).
  apply (accounted_intro _ _ _ _ _ _ _ _ _ _ _ Hp); [lia..|]. intros _. exists x. split; [done|]. subst status.
  destruct Hst as [[-> _]|[-> HT]]; [left|right]; (split; [done|]); exists u, raw, u'; by auto.
Qed.

(** The host is asked to terminate the session; its exceptions are recorded. *)
Lemma q_terminate s0 id c E : callbacks_keep ->
  hoare (Q s0 c) (try_except (outside (terminate_session id))
                    (fun exc => update_local (ql_failed (exc_code "terminate" id exc))))
    (fun _ p => Q s0 c p /\ after_terminate id (fst p)) E.
Proof.
  intros Hc [s w] [Hs Hw]. cbn in *. pose proof (keeps_terminate Hc id s) as Hk.
  unfold try_except, outside. cbn. assert (after_terminate id (snd (terminate_session id s))) as Ha by by eexists.
  destruct (terminate_session id s) as [[[]|e] s']; cbn in *; (split; [split; [by etrans|done]|done]).
Qed.

(** The inspection after it, whose document is kept. *)
Lemma q_inspect_after P s0 id c E : callbacks_keep ->
  hoare (fun p => Q s0 c p /\ P (fst p))
    (attempt (after ← outside (_inspect id);
              _ ← update_local (ql_after (JObj (ProcessTreeObservation_safe_body after))); mret after))
    (fun r p => Q s0 c p /\ match r with
                            | inr o => pt_exists o = false -> seen_gone P id s0 (fst p)
                            | inl _ => True
                            end) E.
Proof.
  intros Hc. eapply hoare_consequence;
    [apply (hoare_attempt _ _ (fun o p => Q s0 c p /\ (pt_exists o = false -> seen_gone P id s0 (fst p)))
              (fun _ => Q s0 c))|intros p Hp; exact Hp|by intros [e|o] p Hp; [split|]|done].
  eapply hoare_bind; [by apply inspect_gone|]. intros o. cbn beta.
  eapply hoare_bind; [by apply (update_frame q_counts s0 c c _
    (fun st => pt_exists o = false -> seen_gone P id s0 st))|]. intros _ p Hp. exact Hp.
Qed.

Lemma q_inspect_before s0 id c E : callbacks_keep ->
  hoare (Q s0 c) (attempt (outside (_inspect id)))
    (fun r p => Q s0 c p /\ match r with
                            | inr o => pt_exists o = false -> seen_gone (fun _ => True) id s0 (fst p)
                            | inl _ => True
                            end) E.
Proof.
  intros Hc. eapply hoare_consequence;
    [apply hoare_attempt, (inspect_gone q_counts (fun _ => True) s0 c id Hc)|by intros p Hp
    |by intros [e|o] p Hp; [split|]|done].
Qed.

Lemma terminate_one_spec s0 id t a b v : callbacks_keep ->
  hoare (Q s0 (t, a, b + 1, v)) (terminate_one id) (fun _ => accounted s0 id (t, a, b, v)) (raised s0).
Proof.
  intros Hc. unfold terminate_one. eapply hoare_bind; [by apply q_terminate|].
  intros ?; cbn beta. eapply hoare_bind; [by apply q_inspect_after|]. cbn beta.
  intros [exc|after].
  - apply hoare_left.
    eapply hoare_bind; [apply q_failed|]. intros ?; cbn beta. apply q_survivor. lia.
  - destruct (_ || _ || _) eqn:Halive.
    + apply hoare_left.
      eapply hoare_bind; [apply q_failed|]. intros ?; cbn beta. apply q_survivor. lia.
    + apply orb_false_iff in Halive as [[Hex _]%orb_false_iff _].
      eapply hoare_bind;
        [apply (update_frame q_counts _ _ (t + 1, a + 0, b + 1 + 0, v + 0)
                  _ (fun st => pt_exists after = false -> seen_gone (after_terminate id) id s0 st));
         by intros w [= <- <- <- <-]|]. intros ?; cbn beta.
      eapply hoare_consequence;
        [apply (close_count q_counts (after_terminate id))|intros p [Hp Hg]; split; [exact Hp|by apply Hg]| |done].
      intros ? p Hcl. apply (q_closed (after_terminate id) "TERMINATED" s0 id t a b v 1 0 1); try lia;
        [right; by split|].
      destruct Hcl as [[Hk Hp] Hcl]. split; [|done]. split; [done|]. rewrite Hp. f_equal. f_equal. lia.
Qed.

Lemma quiesce_one_spec s0 emergency x c : callbacks_keep ->
  hoare (Q s0 c) (quiesce_one emergency x) (fun _ => accounted s0 (sb_session_id x) c) (raised s0).
Proof.
  intros Hc. destruct c as [[[t a] b] v]. unfold quiesce_one. cbv zeta.
  eapply hoare_bind; [by apply q_inspect_before|]. cbn beta. intros [exc|before].
  { apply hoare_left.
    eapply hoare_bind; [apply q_failed|]. intros ?; cbn beta. apply q_survivor. lia. }
  eapply hoare_bind; [by apply (update_frame q_counts _ _ (t, a, b, v) _
    (fun st => pt_exists before = false -> seen_gone (fun _ => True) (sb_session_id x) s0 st))|].
  intros ?; cbn beta. destruct (pt_exists before) eqn:Hex; cbn [negb].
  2: { eapply hoare_bind; [apply (update_frame q_counts _ _ (t + 0, a + 1, b + 0, v + 0) _
         (fun st => false = false -> seen_gone (fun _ => True) (sb_session_id x) s0 st));
         by intros w [= <- <- <- <-]|]. intros ?; cbn beta.
    eapply hoare_bind;
      [eapply hoare_consequence; [apply (close_count q_counts (fun _ => True))
        |intros p [Hp Hg]; split; [exact Hp|by apply Hg]|done|done]|]. intros ?; cbn beta.
    eapply hoare_consequence; [by apply (update_closed q_counts)|done| |done]. intros ? p Hp.
    apply (q_closed (fun _ => True) "COMPLETED" s0 _ t a b v 0 1 0); [lia..|by left|done]. }
  apply hoare_left.
  eapply hoare_bind; [apply q_count|]. intros ?; cbn beta. rewrite !Z.add_0_r.
  destruct (negb (pt_running before)); [by apply terminate_one_spec|]. destruct emergency; cbn [negb].
  - eapply hoare_bind; [apply attempt_count; by apply emergency_kept|]. cbn beta.
    intros [exc|_]; [|by apply terminate_one_spec].
    eapply hoare_bind; [apply q_failed|]. intros ?; cbn beta. apply q_survivor. lia.
  - eapply hoare_bind; [apply q_failed|]. intros ?; cbn beta.
    eapply hoare_bind; [apply call_count, set_status_kept|]. intros ?; cbn beta.
    eapply hoare_bind; [apply q_count|]. intros ?; cbn beta.
    eapply hoare_consequence; [apply q_document|done| |done]. intros ? p Hp.
    apply (accounted_intro _ _ _ _ _ _ _ _ _ _ _ Hp); lia.
Qed.

Definition q_inv (s0 : S) (seen : list SessionBinding) (p : S * QuiesceLocals) : Prop :=
  host_kept s0 (fst p)
  /\ exists t a b v, q_counts (snd p) = (t, a, b, v)
       /\ 0 <= t /\ 0 <= a /\ 0 <= b <= Z.of_nat (length seen) /\ 0 <= v
       /\ t + a + v = Z.of_nat (length seen)
       /\ (v = 0 -> Forall (fun x => cleared (sb_session_id x) s0 (fst p)) seen).

Lemma quiesce_loop s0 emergency l : callbacks_keep ->
  hoare (q_inv s0 []) (for_each (quiesce_one emergency) l) (fun _ => q_inv s0 l) (raised s0).
Proof.
  intros Hc. apply hoare_for_each. intros seen x p (Hk & t & a & b & v & Hp & Ht & Ha & Hb & Hv & Hsum & Hcl).
  pose proof (quiesce_one_spec (fst p) emergency x (t, a, b, v) Hc p) as Hone.
  assert (Q (fst p) (t, a, b, v) p) as Hpre by (split; [unfold host_kept; reflexivity|done]).
  specialize (Hone Hpre). destruct (quiesce_one emergency x p) as [[u|e] p'];
    [|exact (transitivity (R:=host_kept) Hk Hone)].
  destruct Hone as (Hk' & t' & a' & b' & v' & Hp' & Ht' & Ha' & Hb' & Hv' & Hsum' & Hcl').
  split; [by transitivity (fst p)|]. exists t', a', b', v'. rewrite length_app. cbn [length].
  split_and!; try done; try lia. intros ->. apply Forall_app. split.
  - eapply Forall_impl; [apply Hcl; lia|]. intros y. apply cleared_kept; [unfold host_kept; reflexivity|exact Hk'].
  - constructor; [|done]. apply (cleared_kept _ s0 (fst p) (fst p') (fst p')); [exact Hk| |apply Hcl'; lia].
    unfold host_kept. reflexivity.
Qed.

Lemma counters_ok (keys : list string) raw :
  Forall (fun key => exists z, dict_get_none raw key = JInt z /\ 0 <= z) keys ->
  exists us, map_r (fun key => match dict_get_none raw key with
                        | JInt z => tree_raise_if (z <? 0) ("invalid " +:+ key)
                        | _ => fail ProcessTreeError ("invalid " +:+ key)
                        end) keys = Ok us.
Proof.
  induction 1 as [|key keys (z & Hz & Hpos) _ [us IH]]; [by exists []|].
  exists (tt :: us). cbn [map_r]. rewrite Hz, IH. by rewrite (proj2 (Z.ltb_ge z 0)).
Qed.

Lemma tree_receipt_verifies r : 0 <= tr_session_count r -> 0 <= tr_active_before_count r ->
  0 <= tr_terminated_count r -> 0 <= tr_already_absent_count r -> 0 <= tr_survivor_count r ->
  (tr_zero_survivors r = true -> tr_survivor_count r = 0 /\ tr_failure_codes r = []) ->
  verify_receipt (ProcessTreeContainmentReceipt_as_document (seal_receipt r))
    = Ok (ProcessTreeContainmentReceipt_as_document (seal_receipt r)).
Proof.
  intros H1 H2 H3 H4 H5 Hz. unfold verify_receipt. cbv zeta.
  change (dict_del (ProcessTreeContainmentReceipt_as_document (seal_receipt r)) "receipt_sha256")
    with (ProcessTreeContainmentReceipt_body r).
  assert (envelope_ok (ProcessTreeContainmentReceipt_body r) SCHEMA AUTHORITY = true) as -> by done.
  change (dict_get_none (ProcessTreeContainmentReceipt_as_document (seal_receipt r)) "receipt_sha256")
    with (JStr (canonical_sha256 (JObj (ProcessTreeContainmentReceipt_body r)))).
  cbn [is_str]. rewrite String.eqb_refl. cbn [negb tree_raise_if raise_if]. rewrite !bind_Ok.
  destruct (counters_ok ["session_count"; "active_before_count"; "terminated_count";
    "already_absent_count"; "survivor_count"] (ProcessTreeContainmentReceipt_body r)) as [us Hus].
  { repeat constructor; eexists; (split; [reflexivity|done]). }
  rewrite Hus. rewrite bind_Ok.
  change (dict_get_none (ProcessTreeContainmentReceipt_body r) "zero_survivors")
    with (JBool (tr_zero_survivors r)).
  change (dict_get_none (ProcessTreeContainmentReceipt_body r) "survivor_count")
    with (JInt (tr_survivor_count r)).
  change (dict_get_none (ProcessTreeContainmentReceipt_body r) "failure_codes")
    with (jstrs (tr_failure_codes r)).
  cbn [truthy]. destruct (tr_zero_survivors r); [|done].
  by destruct (Hz eq_refl) as [-> ->].
Qed.

Lemma sorted_str_nil l : sorted_str l = [] <-> l = [].
Proof.
  split; [|by intros ->]. intros H. apply Permutation_nil_r. rewrite <- (sorted_str_perm l). by rewrite H.
Qed.

Lemma quiesce_receipt_ok s0 l incident w s : q_inv s0 l (s, w) -> receipt_ok (quiesce_receipt l incident w).
Proof.
  intros (_ & t & a & b & v & Hp & Ht & Ha & Hb & Hv & Hsum & _). injection Hp as <- <- <- <-. split.
  - apply tree_receipt_verifies; cbn; try lia.
    intros [Hz%Z.eqb_eq Hf%bool_decide_eq_true]%andb_true_iff. split; [done|by apply sorted_str_nil].
  - cbn. split; [done|]. split; [lia|]. rewrite andb_true_iff, Z.eqb_eq, bool_decide_eq_true.
    by rewrite sorted_str_nil.
Qed.

(** A call of [_quiesce]: an exception from the host or from the bookkeeping, or a
    receipt that is appended and is backed by the loop's counters. *)
Lemma quiesce_cases l incident emergency s : callbacks_keep ->
  match _quiesce l incident emergency s with
  | (Ok doc, s') => exists s1 w, q_inv s l (s1, w)
      /\ doc = ProcessTreeContainmentReceipt_as_document (quiesce_receipt l incident w)
      /\ s' = lput (push_receipt (quiesce_receipt l incident w) (lget s1)) s1
  | (Err e, s') => host_kept s s'
  end.
Proof.
  intros Hc. unfold _quiesce. rewrite M_bind_eq. unfold with_local.
  pose proof (quiesce_loop s emergency l Hc (s, ql_start)) as Hl.
  assert (q_inv s [] (s, ql_start)) as Hstart.
  { split; [unfold host_kept; reflexivity|]. exists 0, 0, 0, 0. cbn. split_and!; try done. }
  specialize (Hl Hstart). destruct (for_each _ l (s, ql_start)) as [[u|e] [s1 w]]; M_go.
  - exists s1, w. done.
  - exact Hl.
Qed.

Lemma push_receipt_ok r s : receipt_ok r -> tree_ok s (push_receipt r s).
Proof.
  intros Hr. split.
  - intros id b Hb. exists b. split; [done|apply session_kept_refl].
  - intros [Hk Hf]. split; [done|]. cbn. apply Forall_app. by split; [|constructor].
Qed.

Lemma _quiesce_kept l incident emergency : callbacks_keep -> evolves host_kept (_quiesce l incident emergency).
Proof.
  intros Hc s. pose proof (quiesce_cases l incident emergency s Hc) as H.
  destruct (_quiesce l incident emergency s) as [[doc|e] s']; [|exact H].
  destruct H as (s1 & w & Hinv & _ & ->). cbn. unfold host_kept. rewrite lget_lput.
  pose proof (proj1 Hinv) as Hk. cbn in Hk. etrans; [exact Hk|].
  apply push_receipt_ok. by eapply quiesce_receipt_ok.
Qed.

Lemma get_kept id : evolves host_kept (_get id).
Proof.
  intros s. unfold _get. rewrite M_lift. destruct (_validate_id _ _); [|cbn; reflexivity]. M_go.
  destruct (pt_sessions (lget s) !! id); cbn; reflexivity.
Qed.

Lemma quiesce_session_kept id incident : callbacks_keep -> evolves host_kept (quiesce_session id incident).
Proof.
  intros Hc. unfold quiesce_session. apply evolves_bind; [typeclasses eauto|apply evolves_lift; typeclasses eauto|intros _].
  apply evolves_bind; [typeclasses eauto|apply get_kept|intros b]. by apply _quiesce_kept.
Qed.

Lemma quiesce_all_kept incident : callbacks_keep -> evolves host_kept (quiesce_all incident).
Proof.
  intros Hc s. unfold quiesce_all. rewrite M_lift. destruct (_validate_id _ _); [|cbn; reflexivity]. M_go.
  by apply _quiesce_kept.
Qed.

(** Every session that is not closed is a candidate. *)
Lemma candidate_of id b s : keyed s -> pt_sessions s !! id = Some b ->
  is_terminal (sb_status b) = true \/ b ∈ candidates s.
Proof.
  intros Hkey Hb. destruct (is_terminal (sb_status b)) eqn:Ht; [by left|right].
  unfold candidates. apply list_elem_of_In, List.filter_In. split; [|by rewrite Ht].
  apply list_elem_of_In. unfold session_bindings. apply list_elem_of_omap. exists id. split; [|done].
  unfold session_keys. rewrite elem_of_sorted_str. apply list_elem_of_fmap. exists (id, b).
  split; [done|]. by apply elem_of_map_to_list.
Qed.

(** *** The loop of [freeze_all] *)
Definition f_counts (w : FreezeLocals) : Z * Z * Z :=
  (fl_frozen_count w, fl_absent_count w, Z.of_nat (length (fl_failures w))).

#[local] Abbreviation F := (at_count f_counts).

(** [_set_status(id, "ERROR")] raises in this state. *)
Definition stuck (id : string) (s : S) : Prop := exists e, _set_status id "ERROR" s = (Err e, s).

(** A status that cannot be set leaves a session that cannot be marked as failed either. *)
Lemma set_status_stuck id status s e s' : mem status ["FROZEN"; "COMPLETED"; "ERROR"] = true ->
  _set_status id status s = (Err e, s') -> s' = s /\ stuck id s.
Proof.
  intros Hm. unfold stuck. rewrite !set_status_run.
  assert (mem status ["ACTIVE"; "FROZEN"; "TERMINATED"; "COMPLETED"; "ERROR"] = true) as ->.
  { cbn in *. destruct (String.eqb status "FROZEN"), (String.eqb status "COMPLETED"), (String.eqb status "ERROR");
      rewrite ?orb_true_r in *; done. }
  assert (mem "ERROR" ["ACTIVE"; "FROZEN"; "TERMINATED"; "COMPLETED"; "ERROR"] = true) as -> by done.
  destruct (pt_sessions (lget s) !! id) as [b|]; [|intros [= <- <-]; split; [done|by eexists]].
  destruct (is_terminal (sb_status b)) eqn:Ht; cbn [andb]; [|done].
  destruct (negb _); [|done]. intros [= <- <-]. split; [done|].
  destruct (String.eqb_spec "ERROR" (sb_status b)) as [E|]; [|by eexists]. by rewrite <- E in Ht.
Qed.

Definition f_sum (c : Z * Z * Z) : Z := let '(f, a, n) := c in f + a + n.

(** One more session is accounted for. *)
Definition one_more (s0 : S) (c : Z * Z * Z) (p : S * FreezeLocals) : Prop :=
  host_kept s0 (fst p) /\ f_sum (f_counts (snd p)) = f_sum c + 1.

(** How the [try] block of an iteration may fail. *)
Definition try_failed (s0 : S) (id : string) (c : Z * Z * Z) (p : S * FreezeLocals) : Prop :=
  F s0 c p \/ host_kept s0 (fst p) /\ stuck id (fst p).

Lemma f_status s0 id status c c' : mem status ["FROZEN"; "COMPLETED"; "ERROR"] = true ->
  f_sum c' = f_sum c + 1 ->
  hoare (F s0 c') (outside (_set_status id status)) (fun _ => one_more s0 c) (fun _ => try_failed s0 id c).
Proof.
  intros Hm Hsum [s w] [Hk Hw]. cbn in Hk, Hw. pose proof (set_status_kept id status s) as Hs. unfold outside. cbn.
  destruct (_set_status id status s) as [[u|e] s'] eqn:E; cbn in *.
  - split; [by transitivity s|]. cbn [snd]. by rewrite Hw.
  - right. apply set_status_stuck in E as [-> Hstuck]; done.
Qed.

Lemma f_update s0 c c' f E : (forall w, f_counts w = c -> f_counts (f w) = c') ->
  hoare (F s0 c) (update_local f) (fun _ => F s0 c') E.
Proof. apply update_count. Qed.

Lemma f_failed_counts code w f a n : f_counts w = (f, a, n) -> f_counts (fl_failed code w) = (f, a, n + 1).
Proof. intros [= <- <- <-]. unfold f_counts. cbn. rewrite length_app. cbn. do 2 f_equal. lia. Qed.

Lemma freeze_present_spec s0 id before c : callbacks_keep ->
  hoare (F s0 c) (freeze_present id before) (fun _ => one_more s0 c) (fun _ => try_failed s0 id c).
Proof.
  intros Hc. destruct c as [[f a] n]. unfold freeze_present.
  assert (forall A (m : M S A), evolves host_kept m ->
    hoare (F s0 (f, a, n)) (outside m) (fun _ => F s0 (f, a, n)) (fun _ => try_failed s0 id (f, a, n))) as Hcall.
  { intros A m Hm. eapply hoare_consequence; [by apply (outside_count f_counts)|done|done|]. intros e p Hp. by left. }
  eapply (hoare_bind _ _ _ (fun _ => F s0 (f, a, n))).
  { destruct (pt_running before); [by apply Hcall, Hc|intros p Hp; exact Hp]. }
  intros []. eapply hoare_bind; [by apply Hcall, inspect_kept|]. intros after. cbn beta.
  eapply hoare_bind; [by apply (f_update _ _ (f, a, n))|]. intros []. cbn beta.
  destruct (negb (pt_exists after)); [|destruct (pt_running after)].
  - eapply hoare_bind; [apply (f_update _ _ (f, a + 1, n)); by intros w [= <- <- <-]|]. intros [].
    apply f_status; [done|]. cbn. lia.
  - eapply hoare_bind; [apply f_update; intros w; apply f_failed_counts|]. intros [].
    apply f_status; [done|]. cbn. lia.
  - eapply hoare_bind; [apply (f_update _ _ (f + 1, a, n)); by intros w [= <- <- <-]|]. intros [].
    apply f_status; [done|]. cbn. lia.
Qed.

(** [failures.append(...)] and [_set_status(id, "ERROR")]. *)
Lemma freeze_failed s0 id code c :
  hoare (try_failed s0 id c)
    (_ ← update_local (fl_failed code); outside (_set_status id "ERROR"))
    (fun _ => one_more s0 c) (raised s0).
Proof.
  destruct c as [[f a] n]. intros [s w] Hp. rewrite M_bind_eq. cbn.
  pose proof (set_status_kept id "ERROR" s) as Hs. unfold outside. cbn.
  destruct Hp as [[Hk Hw]|[Hk [e He]]]; cbn in *.
  - destruct (_set_status id "ERROR" s) as [[u|e] s']; [|exact (transitivity Hk Hs)].
    split; [exact (transitivity Hk Hs)|]. cbn [snd]. rewrite (f_failed_counts _ _ _ _ _ Hw). cbn. lia.
  - rewrite He. exact Hk.
Qed.

Lemma freeze_one_spec s0 x c : callbacks_keep ->
  hoare (F s0 c) (freeze_one x) (fun _ => one_more s0 c) (raised s0).
Proof.
  intros Hc. destruct c as [[f a] n]. unfold freeze_one. cbv zeta.
  eapply hoare_bind; [apply logged_count; [by apply inspect_kept|done]|]. cbn beta. intros [exc|before].
  { eapply hoare_consequence; [apply (freeze_failed s0 _ _ (f, a, n))| |done|done].
    intros p Hp. by left. }
  destruct (negb (pt_exists before)).
  - eapply hoare_bind; [apply (f_update _ _ (f, a + 1, n)); by intros w [= <- <- <-]|]. intros []. cbn beta.
    eapply hoare_bind; [apply call_count, set_status_kept|]. intros [].
    intros [s w] [Hk Hw]. split; [done|]. cbn in *. unfold f_counts in *. cbn in *.
    injection Hw as H1 H2 H3. lia.
  - eapply hoare_try; [by apply freeze_present_spec|]. intros e. apply freeze_failed.
Qed.

Lemma freeze_loop s0 l : callbacks_keep ->
  hoare (fun p => host_kept s0 (fst p) /\ f_sum (f_counts (snd p)) = 0) (for_each freeze_one l)
    (fun _ p => host_kept s0 (fst p) /\ f_sum (f_counts (snd p)) = Z.of_nat (length l)) (raised s0).
Proof.
  intros Hc. apply (hoare_for_each freeze_one
    (fun seen p => host_kept s0 (fst p) /\ f_sum (f_counts (snd p)) = Z.of_nat (length seen))).
  intros seen x p [Hk Hsum]. pose proof (freeze_one_spec s0 x (f_counts (snd p)) Hc p (conj Hk eq_refl)) as H.
  destruct (freeze_one x p) as [[u|e] p']; [|exact H]. destruct H as [Hk' Hsum']. split; [done|].
  rewrite Hsum', Hsum, length_app. cbn. lia.
Qed.

Lemma push_freeze_ok d s : tree_ok s (push_freeze_receipt d s).
Proof. split; [|done]. intros id b Hb. exists b. split; [done|apply session_kept_refl]. Qed.

Lemma freeze_cases s : callbacks_keep ->
  match freeze_all s with
  | (Ok doc, s') => exists w, doc = seal "receipt_sha256" (freeze_body (length (candidates (lget s))) w)
      /\ f_sum (f_counts w) = Z.of_nat (length (candidates (lget s))) /\ host_kept s s'
  | (Err e, s') => host_kept s s'
  end.
Proof.
  intros Hc. unfold freeze_all. M_go. rewrite M_bind_eq. unfold with_local.
  pose proof (freeze_loop s (candidates (lget s)) Hc (s, fl_start)) as Hl.
  assert (host_kept s s) as Hrefl by (unfold host_kept; reflexivity).
  specialize (Hl (conj Hrefl eq_refl)).
  destruct (for_each _ _ (s, fl_start)) as [[u|e] [s1 w]]; M_go; [|exact Hl].
  destruct Hl as [Hk Hsum]. exists w. split; [done|]. split; [exact Hsum|].
  cbn in *. unfold host_kept in *. rewrite lget_lput. etrans; [exact Hk|apply push_freeze_ok].
Qed.

Lemma freeze_all_kept : callbacks_keep -> evolves host_kept freeze_all.
Proof. intros Hc s. pose proof (freeze_cases s Hc) as H. destruct (freeze_all s) as [[doc|e] s']; [|done].
  by destruct H as (w & _ & _ & Hk).
Qed.

Lemma mark_complete_kept id : callbacks_keep -> evolves host_kept (mark_complete id).
Proof.
  intros Hc. unfold mark_complete. apply evolves_bind; [typeclasses eauto|apply get_kept|]. intros b.
  destruct (is_terminal _); [apply evolves_ret; typeclasses eauto|].
  apply evolves_bind; [typeclasses eauto|by apply inspect_kept|]. intros o.
  apply evolves_bind; [typeclasses eauto|apply evolves_lift; typeclasses eauto|]. intros _.
  apply evolves_bind; [typeclasses eauto|apply set_status_kept|]. intros _ s. M_go.
  destruct (pt_sessions (lget s) !! id); cbn; reflexivity.
Qed.

Lemma register_kept id op plan backend : evolves host_kept (register_session id op plan backend).
Proof.
  intros s. unfold register_session.
  repeat (rewrite M_lift; match goal with |- context [match ?r with Ok _ => _ | Err _ => _ end] =>
    destruct r; [|cbn; reflexivity] end). M_go.
  destruct (pt_sessions (lget s) !! id) eqn:E; [cbn; reflexivity|]. M_go. cbn. unfold host_kept.
  rewrite lget_lput. apply put_session_ok; [done|]. intros b0. by rewrite E.
Qed.

(** A host: the calls of the supervisor's methods, and its own work between them. *)
Inductive tree_step : S -> S -> Prop :=
  | step_register id op plan backend s : tree_step s (snd (register_session id op plan backend s))
  | step_complete id s : tree_step s (snd (mark_complete id s))
  | step_freeze_all s : tree_step s (snd (freeze_all s))
  | step_quiesce_session id incident s : tree_step s (snd (quiesce_session id incident s))
  | step_quiesce_all incident s : tree_step s (snd (quiesce_all incident s))
  | step_host_work s s' : host_kept s s' -> tree_step s s'.

Lemma tree_steps_kept s s' : callbacks_keep -> star tree_step s s' -> host_kept s s'.
Proof.
  intros Hc H. induction H as [s|s1 s2 s3 _ IH Hstep]; [reflexivity|]. etrans; [exact IH|].
  destruct Hstep; [apply register_kept|by apply mark_complete_kept|by apply freeze_all_kept
    |by apply quiesce_session_kept|by apply quiesce_all_kept|done].
Qed.

Lemma init_tree_inv s0 : lget s0 = ProcessTreeSupervisor_init -> tree_inv (lget s0).
Proof. intros ->. split; [|constructor]. intros id b. cbn. by rewrite lookup_empty. Qed.

Lemma quiesce_all_cases incident s : callbacks_keep -> tree_inv (lget s) ->
  match quiesce_all incident s with
  | (Ok doc, s') => exists r, doc = ProcessTreeContainmentReceipt_as_document r /\ receipt_ok r
      /\ tr_session_count r = Z.of_nat (length (candidates (lget s)))
      /\ (tr_zero_survivors r = true ->
           forall id b, pt_sessions (lget s) !! id = Some b ->
           pt_sessions (lget s') !! id = Some b /\ is_terminal (sb_status b) = true \/ cleared id s s')
  | (Err e, s') => True
  end.
Proof.
  intros Hc [Hkey _]. unfold quiesce_all. rewrite M_lift. destruct (_validate_id _ _); [|done]. M_go.
  pose proof (quiesce_cases (candidates (lget s)) incident false s Hc) as H.
  destruct (_quiesce _ _ _ s) as [[doc|e] s']; [|done]. destruct H as (s1 & w & Hinv & -> & ->).
  exists (quiesce_receipt (candidates (lget s)) incident w). split; [done|].
  split; [by eapply quiesce_receipt_ok|]. split; [done|]. intros Hz id b Hb. cbn in Hz.
  apply andb_true_iff in Hz as [Hz%Z.eqb_eq _].
  pose proof Hinv as Hinv0. destruct Hinv as (Hk & t & n & b' & v & Hp & _ & _ & _ & _ & _ & Hcl). injection Hp as <- <- <- <-.
  specialize (Hcl Hz). cbn [fst snd] in *.
  assert (host_kept s1 (lput (push_receipt (quiesce_receipt (candidates (lget s)) incident w) (lget s1)) s1))
    as Hpush.
  { unfold host_kept. rewrite lget_lput. apply push_receipt_ok. eapply quiesce_receipt_ok, Hinv0. }
  destruct (candidate_of id b (lget s) Hkey Hb) as [Ht|Hin].
  - left. destruct (transitivity Hk Hpush) as [Hkept _]. split; [|done].
    destruct (Hkept id b Hb) as (b1 & Hb1 & _ & _ & _ & _ & Heq). by rewrite <- (Heq Ht).
  - right. rewrite Forall_forall in Hcl. specialize (Hcl b Hin). rewrite (Hkey id b Hb) in Hcl.
    eapply cleared_kept; [unfold host_kept; reflexivity|exact Hpush|exact Hcl].
Qed.
End tree_lemmas.

(** ** An example host with one session *)
#[local] Existing Instance checksum_digest.

Definition ExampleTree : Type := ProcessTreeSupervisor * string.

Definition example_inspection (state : string) : dict :=
  let live := negb (String.eqb state "gone") in
  [("exists", JBool live); ("running", JBool (String.eqb state "running"));
   ("descendant_count", JInt (if live then 1 else 0));
   ("tree_sha256", JStr (if live then canonical_sha256 (JStr state) else ZERO_SHA256))].

Definition example_callbacks : SessionHost ExampleTree := {|
  inspect_session _ := fun p => (Ok (example_inspection (snd p)), p);
  freeze_session _ := assign "frozen";
  terminate_session _ := assign "gone" |}.

Definition example_empty : ExampleTree := (ProcessTreeSupervisor_init, "running").

Definition example_registered : ExampleTree :=
  snd (register_session "session-1" "operation-1" ZERO_SHA256 ZERO_SHA256 example_empty).

Definition example_stopped : ExampleTree := snd (freeze_all (host := example_callbacks) example_registered).

Definition example_closed : ExampleTree :=
  snd (quiesce_all (host := example_callbacks) "incident-1" example_stopped).

(** A second clean-up of the session. *)
Definition example_retried : ExampleTree :=
  snd (quiesce_session (host := example_callbacks) "session-1" "incident-2" example_closed).

Lemma example_callbacks_keep : callbacks_keep (host := example_callbacks).
Proof. split; intros id [s state]; unfold host_kept; cbn; reflexivity. Qed.

Lemma example_tree_path :
  star (tree_step (host := example_callbacks)) example_empty example_stopped.
Proof.
  unfold example_stopped. eapply star_step; [|apply step_freeze_all].
  unfold example_registered. eapply star_step; [apply star_refl|apply step_register].
Qed.

Definition example_binding : SessionBinding :=
  {| sb_session_id := "session-1"; sb_operation_id := "operation-1"; sb_plan_sha256 := ZERO_SHA256;
     sb_backend_identity_sha256 := ZERO_SHA256; sb_status := "TERMINATED" |}.

(** ** Properties *)

(** A session that is completed or terminated is final: whatever methods a host calls
    afterwards, and whatever its callbacks do, its binding stays exactly the same. *)
Theorem terminal_sessions_final `{hash : Digest} {S : Type} `{L : Lens S ProcessTreeSupervisor}
    `{host : SessionHost S} (s s' : S) (id : string) (b : SessionBinding)
    (Hc : callbacks_keep) (Hsteps : star tree_step s s')
    (Hb : pt_sessions (lget s) !! id = Some b) (Ht : is_terminal (sb_status b) = true) :
  pt_sessions (lget s') !! id = Some b.
Proof.
  destruct (tree_steps_kept s s' Hc Hsteps) as [Hk _].
  destruct (Hk id b Hb) as (b' & Hb' & _ & _ & _ & _ & Heq). by rewrite <- (Heq Ht).
Qed.

Lemma terminal_sessions_final_witness :
  pt_sessions (lget (T := ProcessTreeSupervisor) example_closed) !! "session-1" = Some example_binding
  /\ pt_sessions (lget (T := ProcessTreeSupervisor) example_retried) !! "session-1" = Some example_binding.
Proof.
  assert (pt_sessions (lget (T := ProcessTreeSupervisor) example_closed) !! "session-1"
          = Some example_binding) as H by (vm_compute; reflexivity).
  split; [exact H|].
  refine (@terminal_sessions_final checksum_digest ExampleTree _ example_callbacks example_closed
    example_retried "session-1" example_binding example_callbacks_keep _ H eq_refl).
  unfold example_retried. eapply star_step; [apply star_refl|apply step_quiesce_session].
Defined.

(** C34: a receipt of [quiesce_all] in any state a host can reach verifies and counts every
    open session exactly once, as terminated, already absent or surviving; when it claims
    zero survivors, every registered session that was closed before is left as it was, and
    every other one was cleared by this call: it is recorded as completed, and the host
    reported it gone when it was inspected during the call, or it is recorded as
    terminated, and the host was asked to terminate it and right after that reported it
    gone (not existing, not running and without descendants). *)
Theorem quiesce_zero_survivors `{hash : Digest} {S : Type} `{L : Lens S ProcessTreeSupervisor}
    `{host : SessionHost S} (incident : string) (s0 s s' : S) (doc : dict)
    (Hc : callbacks_keep) (Hinit : lget s0 = ProcessTreeSupervisor_init)
    (Hsteps : star tree_step s0 s) (Hrun : quiesce_all incident s = (Ok doc, s')) :
  verify_receipt doc = Ok doc
  /\ (exists t a v, dict_get doc "terminated_count" = Some (JInt t)
        /\ dict_get doc "already_absent_count" = Some (JInt a)
        /\ dict_get doc "survivor_count" = Some (JInt v)
        /\ t + a + v = Z.of_nat (length (candidates (lget s))))
  /\ (dict_get doc "zero_survivors" = Some (JBool true) ->
      forall id b, pt_sessions (lget s) !! id = Some b ->
        pt_sessions (lget s') !! id = Some b /\ is_terminal (sb_status b) = true \/ cleared id s s').
Proof.
  destruct (tree_steps_kept s0 s Hc Hsteps) as [_ Hi].
  pose proof (quiesce_all_cases incident s Hc (Hi (init_tree_inv s0 Hinit))) as H. rewrite Hrun in H.
  destruct H as (r & -> & (Hv & Hsum & _ & _) & Hcount & Hz). split; [done|]. split.
  - do 3 eexists. split; [done|]. split; [done|]. split; [done|]. by rewrite <- Hcount.
  - intros [= Hzero]. by apply Hz.
Qed.

Lemma quiesce_zero_survivors_witness : exists doc,
  quiesce_all (host := example_callbacks) "incident-1" example_stopped = (Ok doc, example_closed)
  /\ dict_get doc "zero_survivors" = Some (JBool true)
  /\ (pt_sessions (fst example_closed) !! "session-1" = Some (with_status example_binding "FROZEN")
        /\ is_terminal "FROZEN" = true
      \/ cleared (host := example_callbacks) "session-1" example_stopped example_closed).
Proof.
  destruct (quiesce_all (host := example_callbacks) "incident-1" example_stopped) as [[doc|e] s'] eqn:E.
  2: { assert (is_ok (fst (quiesce_all (host := example_callbacks) "incident-1" example_stopped)) = true)
         as H by (vm_compute; reflexivity). rewrite E in H. discriminate H. }
  assert (s' = example_closed) as -> by (unfold example_closed; rewrite E; reflexivity).
  assert (dict_get doc "zero_survivors" = Some (JBool true)) as Hz.
  { assert (match fst (quiesce_all (host := example_callbacks) "incident-1" example_stopped) with
            | Ok d => match dict_get d "zero_survivors" with Some (JBool b) => b | _ => false end
            | Err _ => false end = true) as H by (vm_compute; reflexivity).
    rewrite E in H. cbn [fst] in H. destruct (dict_get doc "zero_survivors") as [[| [|] | | | |]|]; done. }
  exists doc. split; [reflexivity|]. split; [exact Hz|].
  eapply (proj2 (proj2 (@quiesce_zero_survivors checksum_digest ExampleTree _ example_callbacks "incident-1"
    example_empty example_stopped example_closed doc example_callbacks_keep eq_refl example_tree_path E)) Hz
    "session-1" (with_status example_binding "FROZEN")).
  vm_compute. reflexivity.
Defined.

(** When [freeze_all] returns, it has accounted for every open session: each one is
    counted as frozen or already absent or has a failure code. So the containment hook,
    which raises when there is a failure code, returns only when every session that was
    open was found frozen or absent. *)
Theorem freeze_all_accounts `{hash : Digest} {S : Type} `{L : Lens S ProcessTreeSupervisor}
    `{host : SessionHost S} (s s' : S) (doc : dict)
    (Hc : callbacks_keep) (Hrun : freeze_all s = (Ok doc, s')) :
  exists frozen absent codes,
    dict_get doc "session_count" = Some (JInt (Z.of_nat (length (candidates (lget s)))))
    /\ dict_get doc "frozen_count" = Some (JInt frozen)
    /\ dict_get doc "already_absent_count" = Some (JInt absent)
    /\ dict_get doc "failure_codes" = Some (jstrs codes)
    /\ frozen + absent + Z.of_nat (length codes) = Z.of_nat (length (candidates (lget s)))
    /\ (is_ok (fst (containment_freeze_hook s)) = true ->
        frozen + absent = Z.of_nat (length (candidates (lget s)))).
Proof.
  pose proof (freeze_cases s Hc) as H. rewrite Hrun in H. destruct H as (w & -> & Hsum & _).
  exists (fl_frozen_count w), (fl_absent_count w), (sorted_str (fl_failures w)).
  assert (fl_frozen_count w + fl_absent_count w + Z.of_nat (length (sorted_str (fl_failures w)))
          = Z.of_nat (length (candidates (lget s)))) as Hall.
  { rewrite <- Hsum. unfold f_counts, f_sum. by rewrite (Permutation_length (sorted_str_perm _)). }
  do 4 (split; [done|]). split; [exact Hall|]. unfold containment_freeze_hook.
  rewrite M_bind_eq, Hrun. cbn -[sorted_str]. destruct (sorted_str (fl_failures w)); cbn in *; [|done].
  intros _. lia.
Qed.

Lemma freeze_all_accounts_witness : exists doc frozen absent,
  freeze_all (host := example_callbacks) example_registered = (Ok doc, example_stopped)
  /\ frozen + absent = Z.of_nat (length (candidates (fst example_registered))).
Proof.
  destruct (freeze_all (host := example_callbacks) example_registered) as [[doc|e] s'] eqn:E.
  2: { assert (is_ok (fst (freeze_all (host := example_callbacks) example_registered)) = true)
         as H by (vm_compute; reflexivity). rewrite E in H. discriminate H. }
  assert (s' = example_stopped) as -> by (unfold example_stopped; rewrite E; reflexivity).
  destruct (@freeze_all_accounts checksum_digest ExampleTree _ example_callbacks example_registered
    example_stopped doc example_callbacks_keep E) as (f & a & codes & _ & _ & _ & _ & _ & H).
  exists doc, f, a. split; [reflexivity|]. apply H. vm_compute. reflexivity.
Defined.

(** A session that is already terminated cannot be cleaned up a second time:
    [quiesce_session] asks for the status COMPLETED of a session found absent, and raises
    without a receipt; a completed session gets its receipt. *)
Theorem terminated_cleanup_raises `{hash : Digest} {S : Type} `{L : Lens S ProcessTreeSupervisor}
    `{host : SessionHost S} (s : S) (id incident : string) (b : SessionBinding) (raw : dict)
    (o : ProcessTreeObservation)
    (Hid : _validate_id id "session_id" = Ok tt) (Hincident : _validate_id incident "incident_id" = Ok tt)
    (Hb : pt_sessions (lget s) !! id = Some b) (Hkey : sb_session_id b = id)
    (Hstatus : sb_status b = "TERMINATED")
    (Hinspect : inspect_session id s = (Ok raw, s))
    (Hobs : ProcessTreeObservation_from_mapping id raw = Ok o) (Habsent : pt_exists o = false) :
  quiesce_session id incident s
  = (Err (Exn ProcessTreeError "terminal execution session cannot be resurrected"), s).
Proof.
  unfold quiesce_session. rewrite M_lift, Hincident. unfold _get. rewrite M_assoc, M_lift, Hid.
  rewrite M_assoc, M_this, Hb. rewrite M_bind_eq. cbn [mret M_ret].
  unfold _quiesce. rewrite M_bind_eq. unfold with_local. cbn [for_each]. rewrite M_bind_eq.
  unfold quiesce_one. rewrite Hkey. cbv zeta. rewrite M_attempt. unfold outside at 1. cbn [fst snd].
  unfold _inspect. rewrite M_bind_eq, Hinspect. rewrite Hobs. cbn [lift].
  rewrite M_bind_eq. cbn [update_local fst snd]. rewrite Habsent. cbn [negb].
  rewrite M_bind_eq. cbn [update_local fst snd]. rewrite M_bind_eq. unfold outside. cbn [fst snd].
  rewrite set_status_run, Hb, Hstatus. done.
Qed.

Lemma terminated_cleanup_raises_witness :
  quiesce_session (host := example_callbacks) "session-1" "incident-2" example_closed
  = (Err (Exn ProcessTreeError "terminal execution session cannot be resurrected"), example_closed).
Proof.
  apply (@terminated_cleanup_raises checksum_digest ExampleTree _ example_callbacks example_closed
    "session-1" "incident-2" example_binding (example_inspection (snd example_closed))
    {| pt_session_id := "session-1"; pt_exists := false; pt_running := false;
       pt_descendant_count := 0; pt_tree_sha256 := ZERO_SHA256 |}); vm_compute; reflexivity.
Defined.
