(* ===== verification/Containment.v ===== *)
(** * Containment (sdk/liminal_containment/__init__.py)

    The coordinator that reacts to a CONTAIN decision. It walks once through the states
    DETECT, FREEZE, REVOKE, SEAL, SNAPSHOT and REVIEW, whatever the host callbacks do: a
    callback that raises becomes a partial failure, and a human may release the
    coordinator only when there is none. The callbacks run on the whole host state [S];
    the broker is any implementation of [BrokerOps]. *)
From stdpp Require Import gmap.
From Stdlib Require Import Ascii.
From S2P Require Import Prelude PyStr Json Digest Contracts CapabilityBroker EpochBroker BrokerInterface ProcessLineage ProcessTree.
#[local] Open Scope Z_scope.

(** ** Constants *)
Definition STATES : list string :=
  ["IDLE"; "DETECT"; "FREEZE"; "REVOKE"; "SEAL"; "SNAPSHOT"; "REVIEW"; "RELEASED"].

Definition INCIDENT_SCHEMA : string := "liminal-containment-incident-receipt-v0.1".

Definition AUTHORITY : dict :=
  [("mode", JStr "reference_containment_coordinator");
   ("freeze_via_host_callback", JBool true); ("revoke_live_capabilities", JBool true);
   ("close_egress_via_host_callback", JBool true); ("active_process_quiescence_hook", JBool true);
   ("quiescence_receipt_verification", JBool true); ("seal_trace", JBool true);
   ("bounded_snapshot", JBool true); ("human_release_required", JBool true);
   ("os_process_control", JBool false); ("credential_discovery", JBool false);
   ("shell_execution", JBool false); ("deployment", JBool false); ("merge", JBool false);
   ("automatic_release", JBool false)].

Record IncidentReceipt := {
  ir_incident_id : string;
  ir_phase3_receipt_sha256 : string;
  ir_final_state : string;
  ir_transition_root_sha256 : string;
  ir_revoked_capability_ids : list string;
  ir_runtime_quiescence_sha256 : string;
  ir_sealed_trace_sha256 : string;
  ir_snapshot_sha256 : string;
  ir_partial_failures : list string;
  ir_human_release_id : option string;
  ir_receipt_sha256 : string
}.

Definition IncidentReceipt_body (r : IncidentReceipt) : dict :=
  [("schema", JStr INCIDENT_SCHEMA);
   ("incident_id", JStr (ir_incident_id r));
   ("phase3_receipt_sha256", JStr (ir_phase3_receipt_sha256 r));
   ("final_state", JStr (ir_final_state r));
   ("transition_root_sha256", JStr (ir_transition_root_sha256 r));
   ("revoked_capability_ids", jstrs (ir_revoked_capability_ids r));
   ("runtime_quiescence_sha256", JStr (ir_runtime_quiescence_sha256 r));
   ("sealed_trace_sha256", JStr (ir_sealed_trace_sha256 r));
   ("snapshot_sha256", JStr (ir_snapshot_sha256 r));
   ("partial_failures", jstrs (ir_partial_failures r));
   ("human_release_id", jopt (ir_human_release_id r));
   ("authority", JObj AUTHORITY)].

Definition IncidentReceipt_as_document (r : IncidentReceipt) : dict :=
  dict_set (IncidentReceipt_body r) "receipt_sha256" (JStr (ir_receipt_sha256 r)).

(** ** The coordinator *)
Record ContainmentCoordinator (B : Type) := {
  cc_broker : B;
  cc_state : string;
  cc_transitions : list dict;
  cc_incident : option IncidentReceipt
}.
Arguments cc_broker {B} _.
Arguments cc_state {B} _.
Arguments cc_transitions {B} _.
Arguments cc_incident {B} _.

Definition ContainmentCoordinator_init {B} (broker : B) : ContainmentCoordinator B :=
  {| cc_broker := broker; cc_state := "IDLE"; cc_transitions := []; cc_incident := None |}.

Definition set_broker {B} (b : B) (c : ContainmentCoordinator B) : ContainmentCoordinator B := {|
  cc_broker := b; cc_state := cc_state c; cc_transitions := cc_transitions c;
  cc_incident := cc_incident c |}.

Definition push_transition {B} (t : dict) (target : string) (c : ContainmentCoordinator B)
    : ContainmentCoordinator B := {|
  cc_broker := cc_broker c; cc_state := target; cc_transitions := cc_transitions c ++ [t];
  cc_incident := cc_incident c |}.

Definition set_incident {B} (r : IncidentReceipt) (c : ContainmentCoordinator B)
    : ContainmentCoordinator B := {|
  cc_broker := cc_broker c; cc_state := cc_state c; cc_transitions := cc_transitions c;
  cc_incident := Some r |}.

(** [STATES[STATES.index(state) + 1]]. *)
Fixpoint next_of (states : list string) (state : string) : result string :=
  match states with
  | [] => fail (HostException "ValueError") state
  | x :: rest =>
      if String.eqb x state
      then match rest with y :: _ => Ok y | [] => fail (HostException "IndexError") "tuple" end
      else next_of rest state
  end.

(** The callbacks of the coordinator; [quiesce_runtime] may be absent. *)
Class ContainmentHost (S : Type) := {
  freeze_runtime : M S unit;
  close_egress : M S unit;
  seal_trace : M S json;
  snapshot_forensics : M S dict;
  quiesce_runtime : option (M S dict)
}.

Definition _require_sha (value : json) (name : string) : result string :=
  check_sha ContainmentError (name +:+ " must be lowercase SHA-256") value.

Definition _validated_phase3_receipt (value : dict) : result string :=
  _ ← raise_if (negb (is_str (dict_get_none value "decision") "CONTAIN")) ContainmentBlocked
        "Phase 4 requires decision=CONTAIN";
  _require_sha (dict_get_none value "receipt_sha256") "phase3 receipt".

Definition snapshot_keys : list string :=
  ["trace_head_sha256"; "broker_head_sha256"; "event_count"; "capability_count"; "reason_codes"].

Definition _validate_snapshot (value : dict) : result unit :=
  _ ← raise_if (negb (forallb (fun k => mem k snapshot_keys) (dict_keys value))) ContainmentError
        "snapshot contains unsupported/raw fields";
  _ ← map_r (fun key => match dict_get value key with
                        | Some v => _ ← _require_sha v key; Ok tt
                        | None => Ok tt
                        end) ["trace_head_sha256"; "broker_head_sha256"];
  Ok tt.

(** [failures.append(f"{kind}:{type(exc).__name__}")]. *)
Definition failed (kind : string) (exc : exn) (failures : list string) : list string :=
  failures ++ [kind +:+ ":" +:+ exn_name (exn_cls exc)].

Section containment.
Context {hash : Digest}.

Definition transition_body (before target : string) (at_unix : Z) (evidence : string) (previous : json) : dict :=
  [("from", JStr before); ("to", JStr target); ("at_unix", JInt at_unix);
   ("evidence_sha256", JStr evidence); ("previous_transition_sha256", previous)].

(** [self._transitions[-1]["transition_sha256"] if self._transitions else "0" * 64]. *)
Definition last_transition (transitions : list dict) : result json :=
  match last transitions with
  | None => Ok (JStr ZERO_SHA256)
  | Some t => dict_item t "transition_sha256"
  end.

Definition transition_root (transitions : list dict) : string :=
  canonical_sha256 (JList (map JObj transitions)).

Definition seal_incident (r : IncidentReceipt) : IncidentReceipt := {|
  ir_incident_id := ir_incident_id r; ir_phase3_receipt_sha256 := ir_phase3_receipt_sha256 r;
  ir_final_state := ir_final_state r; ir_transition_root_sha256 := ir_transition_root_sha256 r;
  ir_revoked_capability_ids := ir_revoked_capability_ids r;
  ir_runtime_quiescence_sha256 := ir_runtime_quiescence_sha256 r;
  ir_sealed_trace_sha256 := ir_sealed_trace_sha256 r; ir_snapshot_sha256 := ir_snapshot_sha256 r;
  ir_partial_failures := ir_partial_failures r; ir_human_release_id := ir_human_release_id r;
  ir_receipt_sha256 := canonical_sha256 (JObj (IncidentReceipt_body r)) |}.

(** [(sha, complete)] of a process receipt; [complete] is only used as a condition. *)
Definition _validate_quiescence_receipt (value : dict) : result (string * bool) :=
  let schema := dict_get_none value "schema" in
  if is_str schema "liminal-process-lineage-containment-receipt-v0.1" then
    verified ← ProcessLineage.verify_receipt value;
    sha ← dict_item verified "receipt_sha256";
    decision ← dict_item verified "decision";
    surviving ← (if is_str decision "ALLOW" then dict_item verified "surviving_count" else Ok JNull);
    match sha with
    | JStr s => Ok (s, is_str decision "ALLOW" && py_eq surviving (JInt 0))
    | _ => fail TypeError "receipt_sha256"
    end
  else if is_str schema "liminal-process-tree-containment-receipt-v0.1" then
    verified ← ProcessTree.verify_receipt value;
    sha ← dict_item verified "receipt_sha256";
    zero ← dict_item verified "zero_survivors";
    complete ← (if negb (truthy zero) then Ok false
                else count ← dict_item verified "survivor_count";
                     if negb (py_eq count (JInt 0)) then Ok false
                     else codes ← dict_item verified "failure_codes"; Ok (negb (truthy codes)));
    match sha with
    | JStr s => Ok (s, complete)
    | _ => fail TypeError "receipt_sha256"
    end
  else fail ContainmentError "unsupported runtime quiescence receipt profile".

Section host.
Context {S B : Type} `{BrokerOps B} {L : Lens S (ContainmentCoordinator B)} {host : ContainmentHost S}.

Definition coordinator : M S (ContainmentCoordinator B) := this.

(** A method of the coordinator's broker. *)
Definition on_broker {A} (m : M B A) : M S A := on (zoom cc_broker set_broker m).

Definition _step (target : string) (at_unix : Z) (evidence_sha256 : string) : M S unit :=
  self ← coordinator;
  expected ← lift (next_of STATES (cc_state self));
  _ ← lift (raise_if (negb (String.eqb target expected)) ContainmentBlocked
              ("invalid containment transition " +:+ cc_state self +:+ "->" +:+ target));
  _ ← lift (_require_sha (JStr evidence_sha256) "transition evidence");
  previous ← lift (last_transition (cc_transitions self));
  let body := transition_body (cc_state self) target at_unix evidence_sha256 previous in
  set_this (push_transition (B := B) (seal "transition_sha256" body) target).

(** One capability of the state document in the loop of [contain]. *)
Definition revoke_one (at_unix : Z) (acc : list string * list string) (cap : json)
    : M S (list string * list string) :=
  item ← lift (match cap with JObj d => Ok d | _ => fail AttributeError "get" end);
  if negb (is_str (dict_get_none item "status") "active") then mret acc
  else
    id ← lift (dict_item item "capability_id");
    match id with
    | JStr cap_id =>
        decided ← attempt (on_broker (op_revoke cap_id at_unix));
        mret (match decided with
              | inr decision =>
                  if is_str (dict_get_none decision "decision") "ALLOW"
                  then (fst acc ++ [cap_id], snd acc)
                  else (fst acc, snd acc ++ ["revoke_blocked:" +:+ cap_id])
              | inl exc => (fst acc, failed ("revoke:" +:+ cap_id) exc (snd acc))
              end)
    | _ => raise TypeError "capability_id"
    end.

Definition document_capabilities (doc : dict) : result (list json) :=
  match dict_get_or doc "capabilities" (JList []) with
  | JList l => Ok l
  | _ => fail TypeError "capabilities"
  end.

(** The [try] block around the quiescence hook. *)
Definition quiesced (hook : M S dict) : M S (string * bool) :=
  raw ← hook; lift (_validate_quiescence_receipt raw).

(** The quiescence hook: its digest and the failures. *)
Definition quiesce_step (failures : list string) : M S (string * list string) :=
  match quiesce_runtime (S := S) with
  | None => mret (canonical_sha256 (JObj [("mode", JStr "not_configured")]), failures)
  | Some hook =>
      r ← attempt (quiesced hook);
      mret (match r : exn + (string * bool) with
            | inr (sha, complete) =>
                (sha, if complete then failures else failures ++ ["runtime_quiescence_incomplete"])
            | inl exc => (ZERO_SHA256, failed "runtime_quiescence" exc failures)
            end)
  end.

Definition seal_step (failures : list string) : M S (string * list string) :=
  r ← attempt (v ← seal_trace; lift (_require_sha v "sealed trace"));
  mret (match r with
        | inr sealed => (sealed, failures)
        | inl exc => (ZERO_SHA256, failed "seal" exc failures)
        end).

Definition snapshot_step (failures : list string) : M S (string * list string) :=
  r ← attempt (v ← snapshot_forensics; _ ← lift (_validate_snapshot v); mret (canonical_sha256 (JObj v)));
  mret (match r with
        | inr sha => (sha, failures)
        | inl exc => (ZERO_SHA256, failed "snapshot" exc failures)
        end).

(** [try: callback()  except Exception as exc: failures.append(...)]. *)
Definition callback_step (kind : string) (callback : M S unit) (failures : list string)
    : M S (list string) :=
  r ← attempt callback;
  mret (match r with inr _ => failures | inl exc => failed kind exc failures end).

(** The part of [contain] after the revocations. *)
Definition conclude (incident_id : string) (at_unix : Z) (phase3_sha : string)
    (revoked failures : list string) : M S dict :=
  _ ← _step "REVOKE" at_unix (canonical_sha256 (jstrs (sorted_str revoked)));
  '(quiescence_sha, failures) ← quiesce_step failures;
  '(sealed, failures) ← seal_step failures;
  _ ← _step "SEAL" at_unix
        (canonical_sha256 (JObj [("sealed", JStr sealed); ("runtime_quiescence", JStr quiescence_sha)]));
  '(snapshot_sha, failures) ← snapshot_step failures;
  _ ← _step "SNAPSHOT" at_unix snapshot_sha;
  _ ← _step "REVIEW" at_unix (canonical_sha256 (jstrs failures));
  self ← coordinator;
  let incident := seal_incident {|
    ir_incident_id := incident_id; ir_phase3_receipt_sha256 := phase3_sha;
    ir_final_state := cc_state self;
    ir_transition_root_sha256 := transition_root (cc_transitions self);
    ir_revoked_capability_ids := sorted_str revoked;
    ir_runtime_quiescence_sha256 := quiescence_sha; ir_sealed_trace_sha256 := sealed;
    ir_snapshot_sha256 := snapshot_sha; ir_partial_failures := sorted_str failures;
    ir_human_release_id := None; ir_receipt_sha256 := "" |} in
  _ ← set_this (set_incident (B := B) incident);
  mret (IncidentReceipt_as_document incident).

Definition contain (phase3_receipt : dict) (incident_id : string) (at_unix : Z) : M S dict :=
  self ← coordinator;
  _ ← lift (raise_if (negb (String.eqb (cc_state self) "IDLE")) ContainmentBlocked
              "containment already started");
  phase3_sha ← lift (_validated_phase3_receipt phase3_receipt);
  _ ← _step "DETECT" at_unix phase3_sha;
  failures ← callback_step "freeze" freeze_runtime [];
  failures ← callback_step "egress" close_egress failures;
  _ ← _step "FREEZE" at_unix (canonical_sha256 (JObj [("failures", jstrs failures)]));
  self ← coordinator;
  doc ← lift (op_state_document (cc_broker self));
  caps ← lift (document_capabilities doc);
  '(revoked, failures) ← fold_m (revoke_one at_unix) ([], failures) caps;
  conclude incident_id at_unix phase3_sha revoked failures.

Definition release_of (incident : IncidentReceipt) (human_release_id : string) (transitions : list dict)
    : IncidentReceipt :=
  seal_incident {|
    ir_incident_id := ir_incident_id incident;
    ir_phase3_receipt_sha256 := ir_phase3_receipt_sha256 incident;
    ir_final_state := "RELEASED"; ir_transition_root_sha256 := transition_root transitions;
    ir_revoked_capability_ids := ir_revoked_capability_ids incident;
    ir_runtime_quiescence_sha256 := ir_runtime_quiescence_sha256 incident;
    ir_sealed_trace_sha256 := ir_sealed_trace_sha256 incident;
    ir_snapshot_sha256 := ir_snapshot_sha256 incident;
    ir_partial_failures := ir_partial_failures incident;
    ir_human_release_id := Some human_release_id; ir_receipt_sha256 := "" |}.

Definition release (human_release_id : string) (approved : bool) (at_unix : Z) : M S dict :=
  self ← coordinator;
  match cc_incident self with
  | None => raise ContainmentBlocked "release requires REVIEW state"
  | Some incident =>
      _ ← lift (raise_if (negb (String.eqb (cc_state self) "REVIEW")) ContainmentBlocked
                  "release requires REVIEW state");
      _ ← lift (raise_if (negb approved || String.eqb (py_strip human_release_id) "")
                  ContainmentBlocked "explicit human release approval is required");
      _ ← lift (raise_if (negb (bool_decide (ir_partial_failures incident = []))) ContainmentBlocked
                  "cannot release while containment has unresolved partial failures");
      _ ← _step "RELEASED" at_unix
            (canonical_sha256 (JObj [("human_release_id", JStr human_release_id)]));
      self ← coordinator;
      let released := release_of incident human_release_id (cc_transitions self) in
      _ ← set_this (set_incident (B := B) released);
      mret (IncidentReceipt_as_document released)
  end.

Definition replay : M S dict :=
  self ← coordinator;
  match cc_incident self with
  | None => raise ContainmentBlocked "no incident"
  | Some incident =>
      mret [("state", JStr (cc_state self));
            ("transition_root_sha256", JStr (transition_root (cc_transitions self)));
            ("incident_receipt_sha256", JStr (ir_receipt_sha256 incident))]
  end.
End host.
End containment.

(** ** Lemmas: the transition log *)
Definition target_of (t : dict) : json := dict_get_none t "to".

(** The states a coordinator in state [st] has entered. *)
Definition path_to (st : string) : list string :=
  if String.eqb st "DETECT" then ["DETECT"]
  else if String.eqb st "FREEZE" then ["DETECT"; "FREEZE"]
  else if String.eqb st "REVOKE" then ["DETECT"; "FREEZE"; "REVOKE"]
  else if String.eqb st "SEAL" then ["DETECT"; "FREEZE"; "REVOKE"; "SEAL"]
  else if String.eqb st "SNAPSHOT" then ["DETECT"; "FREEZE"; "REVOKE"; "SEAL"; "SNAPSHOT"]
  else if String.eqb st "REVIEW" then ["DETECT"; "FREEZE"; "REVOKE"; "SEAL"; "SNAPSHOT"; "REVIEW"]
  else if String.eqb st "RELEASED"
  then ["DETECT"; "FREEZE"; "REVOKE"; "SEAL"; "SNAPSHOT"; "REVIEW"; "RELEASED"]
  else [].

Lemma next_path st target : next_of STATES st = Ok target -> path_to target = path_to st ++ [target].
Proof.
  unfold STATES. cbn [next_of].
  repeat match goal with
  | |- context [String.eqb ?a st] => destruct (String.eqb_spec a st) as [<-|_]; [by intros [= <-]|]
  end. done.
Qed.

Section containment_lemmas.
Context {hash : Digest}.

(** [chain ts st h]: the log [ts] leads from IDLE to [st] one state at a time, each entry
    sealed and naming the digest of its predecessor; [h] is the digest of the last one. *)
Inductive chain : list dict -> string -> string -> Prop :=
  | chain_idle : chain [] "IDLE" ZERO_SHA256
  | chain_next ts st h target at_unix ev : chain ts st h ->
      next_of STATES st = Ok target -> re_sha ev = true ->
      chain (ts ++ [seal "transition_sha256" (transition_body st target at_unix ev (JStr h))]) target
        (canonical_sha256 (JObj (transition_body st target at_unix ev (JStr h)))).

Lemma chain_last ts st h : chain ts st h -> last_transition ts = Ok (JStr h).
Proof. destruct 1; [done|]. unfold last_transition. by rewrite last_snoc. Qed.

Lemma chain_targets ts st h : chain ts st h -> map target_of ts = map JStr (path_to st).
Proof.
  induction 1 as [|ts st h target t ev _ IH Hn _]; [done|]. rewrite map_app, IH.
  by rewrite (next_path _ _ Hn), map_app.
Qed.

Section run.
Context {S B : Type} {bops : BrokerOps B} {L : Lens S (ContainmentCoordinator B)}.
Context {host : ContainmentHost S}.
Implicit Types (c : ContainmentCoordinator B).

(** The log, the state and the incident agree; a released incident has no failures and
    names a human. *)
Definition incident_ok c : Prop :=
  match cc_incident c with
  | None => cc_state c <> "RELEASED"
  | Some r =>
      (cc_state c = "REVIEW" \/ cc_state c = "RELEASED")
      /\ ir_final_state r = cc_state c
      /\ ir_transition_root_sha256 r = transition_root (cc_transitions c)
      /\ ir_receipt_sha256 r = canonical_sha256 (JObj (IncidentReceipt_body r))
      /\ (cc_state c = "RELEASED" -> ir_partial_failures r = []
          /\ exists human, ir_human_release_id r = Some human /\ py_strip human <> "")
  end.

Definition coordinator_inv c : Prop :=
  (exists h, chain (cc_transitions c) (cc_state c) h) /\ incident_ok c.

Definition inv_kept (s s' : S) : Prop := coordinator_inv (lget s) -> coordinator_inv (lget s').

#[local] Instance inv_kept_preorder : PreOrder inv_kept.
Proof. split; [by intros s|]. intros s1 s2 s3 H1 H2 H. auto. Qed.

(** The callbacks may do anything, calls of the coordinator included, except assign its fields. *)
Record callbacks_keep : Prop := {
  keeps_freeze : evolves inv_kept (freeze_runtime (S := S));
  keeps_egress : evolves inv_kept (close_egress (S := S));
  keeps_seal : evolves inv_kept (seal_trace (S := S));
  keeps_snapshot : evolves inv_kept (snapshot_forensics (S := S));
  keeps_quiesce : forall hook, quiesce_runtime (S := S) = Some hook -> evolves inv_kept hook
}.

(** What [_step] does when it succeeds. *)
Definition entered (target : string) (at_unix : Z) (ev : string) c : ContainmentCoordinator B :=
  push_transition (seal "transition_sha256" (transition_body (cc_state c) target at_unix ev
    (from_ok JNull (last_transition (cc_transitions c))))) target c.

Lemma step_cases target at_unix ev s :
  match _step target at_unix ev s with
  | (Ok _, s') => s' = lput (entered target at_unix ev (lget s)) s
      /\ next_of STATES (cc_state (lget s)) = Ok target /\ re_sha ev = true
  | (Err _, s') => s' = s
  end.
Proof.
  unfold _step, coordinator. M_go.
  destruct (next_of STATES (cc_state (lget s))) as [expected|e] eqn:Hn; [|done]. M_go.
  destruct (String.eqb_spec target expected) as [->|]; [|done]. cbn [negb raise_if].
  unfold _require_sha, check_sha. destruct (re_sha ev) eqn:He; [|done].
  destruct (last_transition (cc_transitions (lget s))) as [p|e] eqn:Hp; [|done].
  cbn. unfold entered. by rewrite Hp.
Qed.

Lemma step_ok ts st h target at_unix ev s :
  cc_transitions (lget s) = ts -> cc_state (lget s) = st -> chain ts st h ->
  next_of STATES st = Ok target -> re_sha ev = true ->
  _step target at_unix ev s = (Ok tt, lput (entered target at_unix ev (lget s)) s).
Proof.
  intros <- <- Hc Hn He. unfold _step, coordinator. M_go. rewrite Hn. M_go. rewrite String.eqb_refl. cbn [negb raise_if].
  unfold _require_sha, check_sha. rewrite He, (chain_last _ _ _ Hc).
  unfold entered. by rewrite (chain_last _ _ _ Hc).
Qed.

Lemma entered_chain target at_unix ev c :
  next_of STATES (cc_state c) = Ok target -> re_sha ev = true ->
  (exists h, chain (cc_transitions c) (cc_state c) h) ->
  exists h, chain (cc_transitions (entered target at_unix ev c)) (cc_state (entered target at_unix ev c)) h.
Proof.
  intros Hn He [h Hc]. eexists. cbn. rewrite (chain_last _ _ _ Hc). by apply chain_next.
Qed.

(** States in which no incident can exist yet. *)
Definition early (st : string) : bool := mem st ["IDLE"; "DETECT"; "FREEZE"; "REVOKE"; "SEAL"; "SNAPSHOT"].

Lemma early_none c : incident_ok c -> early (cc_state c) = true -> cc_incident c = None.
Proof. unfold incident_ok. destruct (cc_incident c) as [r|]; [|done]. by intros [[-> | ->] _]. Qed.

(** A step up to REVIEW keeps the invariant. *)
Lemma step_kept target at_unix ev : target <> "RELEASED" -> evolves inv_kept (_step target at_unix ev).
Proof.
  intros Ht s. pose proof (step_cases target at_unix ev s) as H.
  destruct (_step target at_unix ev s) as [[u|e] s']; cbn; [|subst s'; reflexivity].
  destruct H as (-> & Hn & He). intros [Hc Hi]. rewrite lget_lput. split; [by apply entered_chain|].
  assert (cc_incident (lget s) = None) as Hnone.
  { apply early_none; [done|]. revert Hn. unfold STATES. cbn [next_of].
    repeat match goal with |- context [String.eqb ?a (cc_state (lget s))] =>
      destruct (String.eqb_spec a (cc_state (lget s))) as [<-|_]; [first [done|by intros [= <-]]|] end. done. }
  unfold incident_ok. cbn. by rewrite Hnone.
Qed.

Lemma coordinator_evolves R `{!Reflexive R} : evolves R (coordinator (S := S) (B := B)).
Proof. intros s. cbn. reflexivity. Qed.

Lemma broker_kept {A} (m : M B A) : evolves inv_kept (on_broker m).
Proof.
  intros s. unfold on_broker, on, zoom. destruct (m (cc_broker (lget s))) as [r b]. cbn.
  unfold inv_kept. by rewrite lget_lput.
Qed.

Lemma callback_kept kind m failures : evolves inv_kept m -> evolves inv_kept (callback_step kind m failures).
Proof.
  intros Hm. unfold callback_step. apply evolves_bind; [typeclasses eauto|by apply evolves_attempt|].
  intros r. apply evolves_ret. typeclasses eauto.
Qed.

Lemma quiesce_kept failures : callbacks_keep -> evolves inv_kept (quiesce_step failures).
Proof.
  intros Hc. unfold quiesce_step. destruct quiesce_runtime as [hook|] eqn:Eq; repeat evolve_step.
  by apply Hc.
Qed.

Lemma seal_kept failures : callbacks_keep -> evolves inv_kept (seal_step failures).
Proof. intros Hc. unfold seal_step. repeat evolve_step. apply Hc. Qed.

Lemma snapshot_kept failures : callbacks_keep -> evolves inv_kept (snapshot_step failures).
Proof. intros Hc. unfold snapshot_step. repeat evolve_step. apply Hc. Qed.

Lemma revoke_kept at_unix acc cap : evolves inv_kept (revoke_one at_unix acc cap).
Proof.
  unfold revoke_one. apply evolves_bind; [typeclasses eauto|apply evolves_lift; typeclasses eauto|]. intros item.
  destruct (negb _); [apply evolves_ret; typeclasses eauto|].
  apply evolves_bind; [typeclasses eauto|apply evolves_lift; typeclasses eauto|]. intros id.
  destruct id; try (apply evolves_raise; typeclasses eauto).
  apply evolves_bind; [typeclasses eauto|apply evolves_attempt, broker_kept|]. intros r.
  apply evolves_ret. typeclasses eauto.
Qed.

(** The incident recorded on entering REVIEW. *)
Lemma review_kept at_unix ev (f : ContainmentCoordinator B -> IncidentReceipt) :
  (forall c, cc_state c = "REVIEW" -> ir_final_state (f c) = "REVIEW"
     /\ ir_transition_root_sha256 (f c) = transition_root (cc_transitions c)
     /\ ir_receipt_sha256 (f c) = canonical_sha256 (JObj (IncidentReceipt_body (f c)))) ->
  evolves inv_kept (_ ← _step "REVIEW" at_unix ev; self ← coordinator;
    _ ← set_this (set_incident (B := B) (f self)); mret (IncidentReceipt_as_document (f self))).
Proof.
  intros Hf s. rewrite M_bind_eq. pose proof (step_cases "REVIEW" at_unix ev s) as H.
  destruct (_step "REVIEW" at_unix ev s) as [[u|e] s']; [|subst s'; cbn; reflexivity].
  destruct H as (-> & Hn & He). unfold coordinator. M_go. intros [Hc _]. cbn. rewrite !lget_lput.
  destruct (Hf (entered "REVIEW" at_unix ev (lget s)) eq_refl) as (H1 & H2 & H3).
  split; [exact (entered_chain "REVIEW" at_unix ev (lget s) Hn He Hc)|].
  unfold incident_ok. cbn [set_incident cc_incident cc_state cc_transitions].
  split; [by left|]. split; [by rewrite H1|]. split; [done|]. split; [done|]. done.
Qed.

(** Reduce an invariance goal at the first step of a method. *)
Ltac first_step tac := apply evolves_bind; [typeclasses eauto|tac|intros ?].

Lemma lift_kept {A} (r : result A) : evolves inv_kept (lift r).
Proof. apply evolves_lift. typeclasses eauto. Qed.

Lemma conclude_kept incident at_unix sha revoked failures : callbacks_keep ->
  evolves inv_kept (conclude incident at_unix sha revoked failures).
Proof.
  intros Hc. unfold conclude. first_step ltac:(by apply step_kept).
  apply evolves_bind; [typeclasses eauto|by apply quiesce_kept|intros [? ?]].
  apply evolves_bind; [typeclasses eauto|by apply seal_kept|intros [? ?]].
  first_step ltac:(by apply step_kept).
  apply evolves_bind; [typeclasses eauto|by apply snapshot_kept|intros [? ?]].
  first_step ltac:(by apply step_kept).
  cbv zeta. refine (review_kept at_unix _ (fun self => seal_incident _) _).
  intros c Hs. by rewrite <- Hs.
Qed.

Lemma contain_kept phase3 incident at_unix : callbacks_keep -> evolves inv_kept (contain phase3 incident at_unix).
Proof.
  intros Hc. unfold contain.
  first_step ltac:(apply coordinator_evolves; typeclasses eauto).
  do 2 first_step ltac:(apply lift_kept).
  first_step ltac:(by apply step_kept).
  do 2 first_step ltac:(by apply callback_kept, Hc).
  first_step ltac:(by apply step_kept).
  first_step ltac:(apply coordinator_evolves; typeclasses eauto).
  do 2 first_step ltac:(apply lift_kept).
  apply evolves_bind; [typeclasses eauto|apply evolves_fold; [typeclasses eauto|intros; apply revoke_kept]|].
  intros [? ?]. by apply conclude_kept.
Qed.

Lemma release_kept human approved at_unix : evolves inv_kept (release human approved at_unix).
Proof.
  intros s. unfold release, coordinator. M_go. destruct (cc_incident (lget s)) as [incident|] eqn:Ei;
    [|cbn; reflexivity].
  rewrite M_lift. destruct (String.eqb_spec (cc_state (lget s)) "REVIEW") as [Hs|]; [|cbn; reflexivity].
  cbn [negb raise_if]. rewrite M_lift. destruct (negb approved || _) eqn:Ha; [cbn; reflexivity|].
  cbn [raise_if]. rewrite M_lift. case_bool_decide as Hf; [|cbn; reflexivity]. cbn [negb raise_if].
  rewrite M_bind_eq.
  match goal with |- context [_step "RELEASED" at_unix ?ev s] =>
    pose proof (step_cases "RELEASED" at_unix ev s) as H; destruct (_step "RELEASED" at_unix ev s) as [[u|e] s'];
    [|subst s'; cbn; reflexivity]; destruct H as (-> & Hn & He) end.
  M_go. intros [Hc Hi]. cbn. rewrite !lget_lput. split; [exact (entered_chain _ _ _ _ Hn He Hc)|].
  unfold incident_ok. cbn. split; [by right|]. do 3 (split; [done|]). intros _. split; [done|].
  exists human. split; [done|]. apply orb_false_iff in Ha as [_ Ha]. by apply String.eqb_neq.
Qed.

(** A host: the calls of the coordinator's methods, and its own work between them. *)
Inductive containment_step : S -> S -> Prop :=
  | step_contain phase3 incident at_unix s : containment_step s (snd (contain phase3 incident at_unix s))
  | step_release human approved at_unix s : containment_step s (snd (release human approved at_unix s))
  | step_host s s' : inv_kept s s' -> containment_step s s'.

Lemma containment_steps_kept s s' : callbacks_keep -> star containment_step s s' -> inv_kept s s'.
Proof.
  intros Hc H. induction H as [s|s1 s2 s3 _ IH Hstep]; [reflexivity|]. etrans; [exact IH|].
  destruct Hstep; [by apply contain_kept|apply release_kept|done].
Qed.

Lemma init_coordinator_inv (b : B) : coordinator_inv (ContainmentCoordinator_init b).
Proof. split; [|done]. exists ZERO_SHA256. apply chain_idle. Qed.
End run.

(** *** A containment that runs to REVIEW *)
Section concludes.
Context {S B : Type} {bops : BrokerOps B} {blaws : BrokerLaws B}.
Context {L : Lens S (ContainmentCoordinator B)} {host : ContainmentHost S}.
Implicit Types (c : ContainmentCoordinator B).

(** The callback leaves the coordinator's own bookkeeping alone, and does not make
    capabilities of its broker active. *)
Definition quiet (s s' : S) : Prop :=
  cc_state (lget s') = cc_state (lget s) /\ cc_transitions (lget s') = cc_transitions (lget s)
  /\ cc_incident (lget s') = cc_incident (lget s)
  /\ no_new_authority (cc_broker (lget s)) (cc_broker (lget s')).

Record callbacks_quiet : Prop := {
  quiet_freeze : evolves quiet (freeze_runtime (S := S));
  quiet_egress : evolves quiet (close_egress (S := S));
  quiet_seal : evolves quiet (seal_trace (S := S));
  quiet_snapshot : evolves quiet (snapshot_forensics (S := S));
  quiet_quiesce : forall hook, quiesce_runtime (S := S) = Some hook -> evolves quiet hook
}.

#[local] Instance quiet_preorder : PreOrder quiet.
Proof.
  split; [by intros s|]. intros s1 s2 s3 (? & ? & ? & ?) (? & ? & ? & ?).
  split_and!; [congruence..|by transitivity (cc_broker (lget s2))].
Qed.

(** The coordinator is in state [st] with a sound log; its broker lost authority at most. *)
Definition stage (b0 : B) (st : string) (s : S) : Prop :=
  cc_state (lget s) = st /\ (exists h, chain (cc_transitions (lget s)) st h)
  /\ no_new_authority b0 (cc_broker (lget s)).

(** A revocation of [id] that raised is named in the failures. *)
Definition revoke_failure (id : string) (failures : list string) : Prop :=
  exists name, ("revoke:" +:+ id) +:+ ":" +:+ name ∈ failures.

(** Capability [id] was revoked or its failed revocation is reported. *)
Definition handled (b : B) (id : string) (failures : list string) : Prop :=
  ~ capability_active b id \/ revoke_failure id failures.

Lemma quiet_stage b0 st s s' : quiet s s' -> stage b0 st s -> stage b0 st s'.
Proof.
  intros (H1 & H2 & _ & H4) (K1 & K2 & K3). split_and!; [congruence|by rewrite H2|].
  by transitivity (cc_broker (lget s)).
Qed.

Definition never {A} (_ : A) (_ : S) : Prop := False.

Lemma quiet_hoare {A} b0 st (m : M S A) : evolves quiet m ->
  hoare (stage b0 st) m (fun _ => stage b0 st) (fun _ => stage b0 st).
Proof. intros Hm. apply (hoare_stable quiet); [done|]. intros s s'. apply quiet_stage. Qed.

Lemma step_stage b0 st target at_unix ev E : next_of STATES st = Ok target -> re_sha ev = true ->
  hoare (stage b0 st) (_step target at_unix ev) (fun _ => stage b0 target) E.
Proof.
  intros Hn He s (Hs & [h Hc] & Hb). rewrite (step_ok _ st h target at_unix ev s eq_refl Hs Hc Hn He).
  unfold stage. rewrite lget_lput. split; [done|]. split; [|done].
  subst st. apply entered_chain; [done..|by exists h].
Qed.

(** A [try] block around a callback never raises; what it leaves satisfies [Φ]. *)
Lemma attempt_stage {A C} b0 st (m : M S A) (k : exn + A -> C) (Ψ : A -> Prop) (Φ : C -> Prop) E :
  evolves quiet m -> returns Ψ m ->
  (forall e, Φ (k (inl e))) -> (forall a, Ψ a -> Φ (k (inr a))) ->
  hoare (stage b0 st) (r ← attempt m; mret (k r)) (fun p s => stage b0 st s /\ Φ p) E.
Proof.
  intros Hm Hr Hl Hk s Hs. rewrite M_attempt. pose proof (quiet_hoare b0 st m Hm s Hs) as H.
  destruct (m s) as [[a|e] s'] eqn:Es; (split; [exact H|]); [eapply Hk, Hr, Es|apply Hl].
Qed.

Lemma failed_subset kind e failures : failures ⊆ failed kind e failures.
Proof. unfold failed. intros x Hx. apply elem_of_app. by left. Qed.

Lemma hoare_lift_value {A C} (P : S -> Prop) (a : A) (f : A -> M S C) Q E :
  hoare P (f a) Q E -> hoare P (lift (Ok a) ≫= f) Q E.
Proof. intros Hf s Hs. rewrite M_lift. by apply Hf. Qed.

Lemma returns_true {A} (m : M S A) : returns (fun _ => True) m.
Proof. done. Qed.

Lemma callback_stage b0 st kind m failures E : evolves quiet m ->
  hoare (stage b0 st) (callback_step kind m failures) (fun fs s => stage b0 st s /\ failures ⊆ fs) E.
Proof.
  intros Hm. apply (attempt_stage b0 st m _ (fun _ => True)); [done|apply returns_true| |done].
  intros e. apply failed_subset.
Qed.

Lemma quiesce_stage b0 st failures E : callbacks_quiet ->
  hoare (stage b0 st) (quiesce_step failures) (fun p s => stage b0 st s /\ failures ⊆ p.2) E.
Proof.
  intros Hc. unfold quiesce_step. destruct quiesce_runtime as [hook|] eqn:Eq.
  - apply (attempt_stage b0 st _ _ (fun _ => True)); [|apply returns_true| |].
    + unfold quiesced. repeat evolve_step. by apply Hc.
    + intros e. apply failed_subset.
    + intros [sha []] _; cbn; [done|]. intros x Hx. apply elem_of_app. by left.
  - intros s Hs. done.
Qed.

Lemma seal_stage b0 st failures E : callbacks_quiet ->
  hoare (stage b0 st) (seal_step failures) (fun p s => stage b0 st s /\ failures ⊆ p.2) E.
Proof.
  intros Hc. apply (attempt_stage b0 st _ _ (fun _ => True)); [|apply returns_true| |done].
  - repeat evolve_step. apply Hc.
  - intros e. apply failed_subset.
Qed.

Lemma snapshot_stage b0 st failures E : callbacks_quiet ->
  hoare (stage b0 st) (snapshot_step failures)
    (fun p s => stage b0 st s /\ (re_sha p.1 = true /\ failures ⊆ p.2)) E.
Proof.
  intros Hc. apply (attempt_stage b0 st _ _ (fun sha => re_sha sha = true)).
  - repeat evolve_step. apply Hc.
  - do 2 (apply returns_bind; intros ?). apply returns_ret, canonical_sha256_sha.
  - intros e. split; [apply zero_sha|apply failed_subset].
  - intros a Ha. done.
Qed.

(** *** The revocations *)
Lemma broker_run {A} (m : M B A) (s : S) :
  on_broker m s = let '(r, b) := m (cc_broker (lget s)) in (r, lput (set_broker b (lget s)) s).
Proof. unfold on_broker, on, zoom. by destruct (m (cc_broker (lget s))) as [r b]. Qed.

(** A revocation keeps the stage; the capability is inactive or the failure is reported. *)
Lemma revoke_stage b0 at_unix st item id status acc E : lists id status item -> broker_valid b0 ->
  hoare (stage b0 st) (revoke_one at_unix acc (JObj item))
    (fun acc' s => stage b0 st s /\ snd acc ⊆ snd acc'
       /\ (status = "active" -> handled (cc_broker (lget s)) id (snd acc'))) E.
Proof.
  intros [Hid Hst] Hv s Hs. unfold revoke_one. rewrite M_lift.
  unfold dict_get_none, dict_get_or. rewrite Hst. cbn [is_str].
  destruct (String.eqb_spec status "active") as [->|Hne]; cbn [negb]; [|by split_and!].
  rewrite M_lift, (proj2 (dict_item_ok item "capability_id" (JStr id)) Hid), M_attempt, broker_run.
  destruct Hs as (Hs & Hc & Hb). destruct (Hb Hv) as [Hv' _].
  pose proof (law_revoke id at_unix (cc_broker (lget s))) as Hn.
  destruct (op_revoke id at_unix (cc_broker (lget s))) as [[doc|e] b1] eqn:Er; cbn [snd] in Hn.
  - split; [unfold stage; rewrite lget_lput; split_and!; [done|done|by transitivity (cc_broker (lget s))]|].
    rewrite lget_lput. split.
    + destruct (is_str _ _); [done|]. intros x Hx. apply elem_of_app. by left.
    + intros _. left. exact (law_revoke_inactive id at_unix _ doc b1 Hv' Er).
  - split; [unfold stage; rewrite lget_lput; split_and!; [done|done|by transitivity (cc_broker (lget s))]|].
    cbn [snd]. split; [apply failed_subset|]. intros _. right. exists (exn_name (exn_cls e)).
    apply elem_of_app. right. by apply list_elem_of_singleton.
Qed.

Lemma handled_mono b b' id fs fs' : broker_valid b -> no_new_authority b b' -> fs ⊆ fs' ->
  handled b id fs -> handled b' id fs'.
Proof.
  intros Hv Hn Hf [Ha|[x Hx]]; [left|right; exists x; by apply Hf].
  intros H. by apply Ha, Hn.
Qed.

Lemma revoke_all_stage b0 at_unix st items acc E : broker_valid b0 ->
  Forall (fun item => exists id status, lists id status item) items ->
  hoare (stage b0 st) (fold_m (revoke_one at_unix) acc (map JObj items))
    (fun acc' s => stage b0 st s /\ snd acc ⊆ snd acc'
       /\ forall id, Exists (lists id "active") items -> handled (cc_broker (lget s)) id (snd acc')) E.
Proof.
  intros Hv Hl. revert b0 acc Hv. induction Hl as [|item items (id & status & Hitem) _ IH]; intros b0 acc Hv s Hs.
  - split; [done|]. split; [done|]. intros id Hx. inversion Hx.
  - cbn [map fold_m]. rewrite M_bind_eq.
    pose proof (revoke_stage b0 at_unix st item id status acc E Hitem Hv s Hs) as H1.
    destruct (revoke_one at_unix acc (JObj item) s) as [[acc1|e] s1]; [|done].
    destruct H1 as ((Hst & Hc & Hb) & Hsub & Hh). destruct (Hb Hv) as [Hv1 _].
    assert (stage (cc_broker (lget s1)) st s1) as Hs1 by (split_and!; [done|done|reflexivity]).
    specialize (IH (cc_broker (lget s1)) acc1 Hv1 s1 Hs1).
    destruct (fold_m (revoke_one at_unix) acc1 (map JObj items) s1) as [[acc2|e] s2]; [|done].
    destruct IH as ((Hst2 & Hc2 & Hb2) & Hsub2 & Hh2).
    split; [split_and!; [done|done|by transitivity (cc_broker (lget s1))]|].
    split; [by transitivity (snd acc1)|]. intros id' Hx. inversion Hx as [? ? [Hid' Hst']|]; subst; [|by apply Hh2].
    destruct Hitem as [Hid Hstatus]. rewrite Hid in Hid'. injection Hid' as <-.
    rewrite Hstatus in Hst'. injection Hst' as ->. eapply handled_mono; [exact Hv1|exact Hb2|exact Hsub2|by apply Hh].
Qed.

Lemma conclude_stage b0 incident_id at_unix sha revoked failures E : callbacks_quiet ->
  hoare (stage b0 "FREEZE") (conclude incident_id at_unix sha revoked failures)
    (fun doc s => stage b0 "REVIEW" s /\ exists r, cc_incident (lget s) = Some r
       /\ doc = IncidentReceipt_as_document r /\ failures ⊆ ir_partial_failures r) E.
Proof.
  intros Hq. unfold conclude.
  eapply hoare_bind; [apply step_stage; [done|apply canonical_sha256_sha]|]. intros ?. cbn beta.
  eapply hoare_bind_pure; [by apply quiesce_stage|]. intros [qsha f1] H1. cbn [snd] in H1.
  eapply hoare_bind_pure; [by apply seal_stage|]. intros [sealed f2] H2. cbn [snd] in H2.
  eapply hoare_bind; [apply step_stage; [done|apply canonical_sha256_sha]|]. intros ?. cbn beta.
  eapply hoare_bind_pure; [by apply snapshot_stage|]. intros [ssha f3] [Hsha H3]. cbn [snd fst] in H3, Hsha.
  eapply hoare_bind; [by apply step_stage|]. intros ?. cbn beta.
  eapply hoare_bind; [apply step_stage; [done|apply canonical_sha256_sha]|]. intros ? s (Hs & Hc & Hb).
  unfold coordinator. M_go. cbn -[sorted_str transition_root]. unfold stage. rewrite lget_lput.
  split; [done|]. eexists. split; [reflexivity|]. split; [reflexivity|].
  cbn -[sorted_str]. intros x Hx. rewrite elem_of_sorted_str. auto.
Qed.

Lemma capability_documents doc items : capability_items doc = Ok items ->
  document_capabilities doc = Ok (map JObj items).
Proof.
  unfold capability_items, document_capabilities. destruct (dict_get_or _ _ _) as [| | | |l|]; try done.
  intros H%map_r_ok. f_equal. induction H as [|v d l items Hv _ IH]; [done|]. cbn. rewrite IH.
  destruct v; try done. by injection Hv as ->.
Qed.

Lemma contain_stage b0 phase3 sha incident_id at_unix : callbacks_quiet -> broker_valid b0 ->
  _validated_phase3_receipt phase3 = Ok sha ->
  hoare (stage b0 "IDLE") (contain phase3 incident_id at_unix)
    (fun doc s => stage b0 "REVIEW" s /\ exists r, cc_incident (lget s) = Some r
       /\ doc = IncidentReceipt_as_document r
       /\ forall id, capability_active (cc_broker (lget s)) id -> revoke_failure id (ir_partial_failures r))
    (fun _ s => cc_state (lget s) = "FREEZE" /\ is_ok (op_state_document (cc_broker (lget s))) = false).
Proof.
  intros Hq Hv Hsha. unfold contain.
  apply (hoare_bind_pure _ _ _ (fun self => cc_state self = "IDLE")); [by intros s [Hs ?]|].
  intros self Hidle. rewrite Hidle. apply hoare_lift_value. rewrite Hsha. apply hoare_lift_value.
  eapply hoare_bind; [apply step_stage; [done|]|].
  { unfold _validated_phase3_receipt in Hsha. apply bind_ok in Hsha as (? & _ & Hsha).
    by apply check_sha_ok in Hsha as [_ ?]. }
  intros ?. cbn beta. eapply hoare_bind_pure; [apply callback_stage, Hq|]. intros f1 _.
  eapply hoare_bind_pure; [apply callback_stage, Hq|]. intros f2 _.
  eapply hoare_bind; [apply step_stage; [done|apply canonical_sha256_sha]|]. intros ? s1 Hs1. cbn beta in Hs1.
  unfold coordinator. rewrite M_this, M_lift.
  destruct (op_state_document (cc_broker (lget s1))) as [doc|e] eqn:Edoc;
    [|split; [apply Hs1|by rewrite Edoc]].
  destruct Hs1 as (Hst1 & Hc1 & Hb1). destruct (Hb1 Hv) as [Hv1 Ha1].
  destruct (law_document _ _ Hv1 Edoc) as (items & Hitems & Hl & Hact).
  rewrite (capability_documents _ _ Hitems), M_lift, M_bind_eq.
  pose proof (revoke_all_stage (cc_broker (lget s1)) at_unix "FREEZE" items ([], f2)
    (fun _ _ => False) Hv1 Hl s1) as Hrev.
  assert (stage (cc_broker (lget s1)) "FREEZE" s1) as Hs1 by (split_and!; [done|done|reflexivity]).
  specialize (Hrev Hs1). destruct (fold_m _ _ _ s1) as [[[revoked f3]|e] s2]; [|done].
  destruct Hrev as ((Hst2 & Hc2 & Hb2) & _ & Hh). destruct (Hb2 Hv1) as [Hv2 Ha2].
  pose proof (conclude_stage (cc_broker (lget s2)) incident_id at_unix sha revoked f3
    (fun _ _ => False) Hq s2) as Hend.
  assert (stage (cc_broker (lget s2)) "FREEZE" s2) as Hs2 by (split_and!; [done|done|reflexivity]).
  specialize (Hend Hs2). destruct (conclude _ _ _ _ _ s2) as [[doc'|e] s3]; [|done].
  destruct Hend as ((Hst3 & Hc3 & Hb3) & r & Hr & -> & Hsub).
  split; [split_and!; [done|done|]; transitivity (cc_broker (lget s1)); [done|by transitivity (cc_broker (lget s2))]|].
  exists r. split; [done|]. split; [done|]. intros id Hid.
  destruct (Hb3 Hv2) as [_ Ha3]. destruct (Hh id (Hact id (Ha2 id (Ha3 id Hid)))) as [Hno|[x Hx]].
  - by destruct Hno; apply Ha3.
  - exists x. by apply Hsub.
Qed.
End concludes.
End containment_lemmas.

(** ** An example incident: the freeze callback fails, the broker holds one capability *)
#[local] Existing Instance checksum_digest.

Definition ExampleCoordinator : Type := ContainmentCoordinator CapabilityBroker.CapabilityBroker.

Definition example_coordinator : ExampleCoordinator :=
  ContainmentCoordinator_init CapabilityBroker.example_broker.

Definition example_hooks : ContainmentHost ExampleCoordinator := {|
  freeze_runtime := raise (HostException "RuntimeError") "frozen";
  close_egress := mret tt;
  seal_trace := mret (JStr ZERO_SHA256);
  snapshot_forensics := mret [("event_count", JInt 1)];
  quiesce_runtime := None |}.

Definition example_phase3 : dict :=
  [("decision", JStr "CONTAIN"); ("receipt_sha256", JStr ZERO_SHA256)].

Definition example_contained : result dict * ExampleCoordinator :=
  contain (host := example_hooks) example_phase3 "incident-1" 100 example_coordinator.

Lemma example_quiet : callbacks_quiet (host := example_hooks).
Proof. by split; first [done|intros s; unfold quiet; cbn; split_and!]. Qed.

Lemma example_hooks_keep : callbacks_keep (host := example_hooks).
Proof. by split; first [done|intros s; unfold inv_kept; cbn]. Qed.

Lemma example_broker_inv : CapabilityBroker.broker_inv CapabilityBroker.example_broker.
Proof. apply CapabilityBroker.admit_ok, CapabilityBroker.fresh_inv. Qed.

Lemma example_contained_path :
  star (containment_step (host := example_hooks)) example_coordinator (snd example_contained).
Proof. unfold example_contained. eapply star_step; [apply star_refl|apply step_contain]. Qed.

(** ** Properties *)

(** C24: a containment always concludes. Whatever the callbacks raise or return, [contain]
    of an idle coordinator with a CONTAIN receipt walks through all six states and ends in
    REVIEW with an incident, and every capability that is still active afterwards has its
    failed revocation among the partial failures. The only other outcomes are a refusal
    that changes nothing, and a broker that cannot produce its state document: then the
    coordinator is left in FREEZE. *)
Theorem contain_concludes `{hash : Digest} {S B : Type} `{bops : BrokerOps B} {blaws : BrokerLaws B}
    {L : Lens S (ContainmentCoordinator B)} {host : ContainmentHost S}
    (phase3 : dict) (incident_id : string) (at_unix : Z) (s : S)
    (Hq : callbacks_quiet) (Hv : broker_valid (cc_broker (lget s))) (Hi : coordinator_inv (lget s)) :
  match contain phase3 incident_id at_unix s with
  | (Ok doc, s') =>
      cc_state (lget s') = "REVIEW"
      /\ map target_of (cc_transitions (lget s'))
         = map JStr ["DETECT"; "FREEZE"; "REVOKE"; "SEAL"; "SNAPSHOT"; "REVIEW"]
      /\ exists r, cc_incident (lget s') = Some r /\ doc = IncidentReceipt_as_document r
         /\ forall id, capability_active (cc_broker (lget s')) id ->
              revoke_failure id (ir_partial_failures r)
  | (Err e, s') =>
      s' = s /\ (cc_state (lget s) <> "IDLE" \/ is_ok (_validated_phase3_receipt phase3) = false)
      \/ cc_state (lget s') = "FREEZE" /\ is_ok (op_state_document (cc_broker (lget s'))) = false
  end.
Proof.
  destruct (String.eqb_spec (cc_state (lget s)) "IDLE") as [Hidle|Hne].
  2: { unfold contain, coordinator. rewrite M_this, M_lift, (proj2 (String.eqb_neq _ _) Hne). left. auto. }
  destruct (_validated_phase3_receipt phase3) as [sha|e] eqn:Hsha.
  2: { unfold contain, coordinator. rewrite M_this, M_lift, Hidle. cbn [String.eqb negb raise_if].
       rewrite M_lift, Hsha. left. auto. }
  pose proof (contain_stage (cc_broker (lget s)) phase3 sha incident_id at_unix Hq Hv Hsha s) as H.
  assert (stage (cc_broker (lget s)) "IDLE" s) as Hs.
  { split; [done|]. split; [rewrite <- Hidle; apply Hi|reflexivity]. }
  specialize (H Hs). destruct (contain phase3 incident_id at_unix s) as [[doc|e] s']; [|by right].
  destruct H as ((Hst & [h Hc] & _) & r & Hr & -> & Hact). split; [done|].
  split; [by rewrite (chain_targets _ _ _ Hc)|]. exists r. auto.
Qed.

Lemma contain_concludes_witness :
  is_ok (fst example_contained) = true
  /\ match example_contained with
     | (Ok doc, s') => cc_state s' = "REVIEW" /\ exists r, cc_incident s' = Some r
         /\ forall id, stored_active (cc_broker s') id -> revoke_failure id (ir_partial_failures r)
     | (Err _, _) => True
     end.
Proof.
  split; [vm_compute; reflexivity|].
  pose proof (@contain_concludes checksum_digest ExampleCoordinator CapabilityBroker.CapabilityBroker _ _ _
    example_hooks example_phase3 "incident-1" 100 example_coordinator example_quiet
    example_broker_inv (init_coordinator_inv CapabilityBroker.example_broker)) as H.
  change (contain example_phase3 "incident-1" 100 example_coordinator) with example_contained in H.
  destruct example_contained as [[doc|e] s']; [|exact I].
  destruct H as (Hs & _ & r & Hr & _ & Hact). split; [exact Hs|]. exists r. split; [exact Hr|exact Hact].
Defined.

(** In every state a host can reach, the coordinator's log is the chain of transitions
    from IDLE to its current state, each one sealed and naming its predecessor, and the
    incident states that log and that state; a coordinator that was released has an
    incident without partial failures and with the name of a human. The callbacks are
    arbitrary host code, and may call the coordinator again. *)
Theorem containment_log_sound `{hash : Digest} {S B : Type} `{bops : BrokerOps B}
    {L : Lens S (ContainmentCoordinator B)} {host : ContainmentHost S} (b : B) (s0 s : S)
    (Hc : callbacks_keep) (Hinit : lget s0 = ContainmentCoordinator_init b)
    (Hsteps : star containment_step s0 s) :
  (exists h, chain (cc_transitions (lget s)) (cc_state (lget s)) h)
  /\ map target_of (cc_transitions (lget s)) = map JStr (path_to (cc_state (lget s)))
  /\ match cc_incident (lget s) with
     | None => cc_state (lget s) <> "RELEASED"
     | Some r =>
         ir_final_state r = cc_state (lget s)
         /\ ir_transition_root_sha256 r = transition_root (cc_transitions (lget s))
         /\ ir_receipt_sha256 r = canonical_sha256 (JObj (IncidentReceipt_body r))
         /\ (cc_state (lget s) = "RELEASED" -> ir_partial_failures r = []
             /\ exists human, ir_human_release_id r = Some human /\ py_strip human <> "")
     end.
Proof.
  pose proof (containment_steps_kept s0 s Hc Hsteps) as Hk. unfold inv_kept in Hk.
  rewrite Hinit in Hk. destruct (Hk (init_coordinator_inv b)) as [[h Hchain] Hinc].
  split; [by exists h|]. split; [by eapply chain_targets|].
  unfold incident_ok in Hinc. destruct (cc_incident (lget s)); [|done]. by destruct Hinc as (_ & ? & ? & ? & ?).
Qed.

Lemma containment_log_sound_witness : exists s : ExampleCoordinator,
  cc_state s = "REVIEW" /\ map target_of (cc_transitions s) = map JStr (path_to "REVIEW").
Proof.
  assert (cc_state (snd example_contained) = "REVIEW") as H by (vm_compute; reflexivity).
  pose proof (@containment_log_sound checksum_digest ExampleCoordinator CapabilityBroker.CapabilityBroker
    _ lens_id example_hooks CapabilityBroker.example_broker example_coordinator (snd example_contained)
    example_hooks_keep eq_refl example_contained_path) as (_ & Htargets & _).
  exists (snd example_contained). split; [exact H|]. rewrite <- H. exact Htargets.
Defined.
