(* ===== verification/ObjectiveIntegrity.v ===== *)
(** * Objective integrity guard (sdk/liminal_objective_integrity/__init__.py)

    Forbidden-method rules and the policy built of them, trusted integrity
    observations, the guard that decides every action and the completion of an
    objective, and the mediator facade that runs an effect only after the guard's
    ALLOW.  The observation verifier is host code: it runs on the whole host state
    [S], of which the guard is a component.  [from_network_request],
    [evaluate_network_request] and [mediate_network] are not modelled: they need
    [str.upper] on arbitrary Unicode. *)
From stdpp Require Import gmap.
From S2P Require Import Prelude PyStr Json Digest Contracts BrokerInterface Mediation.
From Stdlib Require Import Ascii.
#[local] Open Scope Z_scope.

(** ** Constants *)
Definition POLICY_SCHEMA : string := "liminal-objective-method-policy-v0.1".
Definition RULE_SCHEMA : string := "liminal-objective-method-rule-v0.1".
Definition OBSERVATION_SCHEMA : string := "liminal-objective-integrity-observation-v0.1".
Definition DECISION_SCHEMA : string := "liminal-objective-integrity-decision-v0.1".
Definition COMPLETION_SCHEMA : string := "liminal-objective-integrity-completion-v0.1".
Definition MEDIATION_SCHEMA : string := "liminal-objective-guarded-mediation-v0.1".

Definition AUTHORITY : dict :=
  [("mode", JStr "objective_method_integrity_governance");
   ("deterministic_policy_evaluation", JBool true);
   ("trusted_observation_verification_required", JBool true);
   ("method_integrity_completion_gate", JBool true); ("capability_grant", JBool false);
   ("runtime_execution", JBool false); ("network_execution", JBool false);
   ("secret_access", JBool false); ("policy_mutation", JBool false);
   ("runtime_mutation", JBool false); ("hidden_answer_access", JBool false);
   ("evaluator_state_access", JBool false); ("semantic_omniscience", JBool false);
   ("automatic_containment_execution", JBool false)].

Definition DECISION_RANK : list (string * Z) :=
  [("ALLOW", 0); ("REVISE", 1); ("BLOCK", 2); ("CONTAIN", 3)].

Definition CRITICAL_VIOLATIONS : list string :=
  ["hidden_answer_access"; "evaluator_state_access"; "grader_or_benchmark_modification";
   "evidence_tampering"; "evaluation_environment_exploitation";
   "unauthorized_policy_mutation"; "unauthorized_runtime_mutation"].

Definition NONCRITICAL_VIOLATIONS : list string :=
  List.filter (fun v => negb (mem v CRITICAL_VIOLATIONS)) OBJECTIVE_VIOLATIONS.

(** ** Validators *)
Definition _sha (value : json) (name : string) (allow_zero : bool) : result string :=
  s ← check_sha ObjectiveIntegrityError (name +:+ " must be lowercase SHA-256") value;
  _ ← raise_if (negb allow_zero && String.eqb s ZERO_SHA256) ObjectiveIntegrityError
        (name +:+ " must not be zero SHA-256");
  Ok s.

(** The strings [_text] accepts. *)
Definition bounded_text (s : string) : bool :=
  negb (String.eqb (py_strip s) "") && String.eqb s (py_strip s)
  && negb (contains_char "000" s) && (py_len s <=? 192).

Definition _text (value : json) (name : string) : result string :=
  let bad := fail ObjectiveIntegrityError (name +:+ " must be a bounded non-empty string") in
  match value with
  | JStr s => if bounded_text s then Ok s else bad
  | _ => bad
  end.

Definition _time (value : json) (name : string) : result Z :=
  let bad := fail ObjectiveIntegrityError (name +:+ " must be a non-negative integer") in
  match value with
  | JInt z => if z <? 0 then bad else Ok z
  | _ => bad
  end.

Definition _exact (raw : dict) (expected : list string) (name : string) : result unit :=
  raise_if (negb (keys_are raw expected)) ObjectiveIntegrityError (name +:+ " keys mismatch").

Definition decision_rank (item : string) : result Z :=
  match List.find (fun p => String.eqb (fst p) item) DECISION_RANK with
  | Some p => Ok (snd p)
  | None => fail KeyError item
  end.

(** [max(values, key=...)]: the first of the largest. *)
Definition _decision_max (values : list string) : result string :=
  match values with
  | [] => Ok "ALLOW"
  | v :: rest =>
      r ← decision_rank v;
      best ← fold_r (fun best item =>
               k ← decision_rank item;
               Ok (if snd best <? k then (item, k) else best)) (v, r) rest;
      Ok (fst best)
  end.

(** [dict(v)] of an arbitrary value: a mapping or an iterable of pairs. A key that
    is not a string, or a string of one character beyond ASCII, is shown as [None]:
    no document the module accepts has such a key. *)
Definition dict_pair (v : json) : result (option (string * json)) :=
  match v with
  | JList [JStr k; x] => Ok (Some (k, x))
  | JList [k; _] => if CapabilityBroker.hashable k then Ok None else fail TypeError "unhashable type"
  | JObj [(k, _); (x, _)] => Ok (Some (k, JStr x))
  | JStr s =>
      if negb (py_len s =? 2) then fail ValueError "dictionary update sequence element length"
      else match s with
           | String a (String b EmptyString) =>
               Ok (Some (String a EmptyString, JStr (String b EmptyString)))
           | _ => Ok None
           end
  | JList _ | JObj _ => fail ValueError "dictionary update sequence element length"
  | _ => fail TypeError "cannot convert dictionary update sequence element to a sequence"
  end.

Definition dict_of (v : json) : result (option dict) :=
  match v with
  | JObj d => Ok (Some d)
  | JList l =>
      pairs ← map_r dict_pair l;
      Ok (match mapM id pairs with
          | Some items => Some (fold_left (fun d kv => dict_set d (fst kv) (snd kv)) items [])
          | None => None
          end)
  | JStr EmptyString => Ok (Some [])
  | JStr _ => fail ValueError "dictionary update sequence element length"
  | _ => fail TypeError "object is not iterable"
  end.

(** ** Forbidden-method rules *)
Record ObjectiveMethodRule := {
  om_rule_id : string;
  om_runtime_kind : string;
  om_violation_code : string;
  om_decision : string;
  om_scope_sha256 : string;
  om_payload_sha256 : string;
  om_rule_sha256 : string
}.

Definition ObjectiveMethodRule_validate (self : ObjectiveMethodRule) : result unit :=
  _ ← _text (JStr (om_rule_id self)) "rule_id";
  _ ← raise_if (negb (mem (om_runtime_kind self) CAPABILITY_TYPES)) ObjectiveIntegrityError
        "runtime_kind is not a known capability/method kind";
  _ ← raise_if (negb (mem (om_violation_code self) OBJECTIVE_VIOLATIONS)) ObjectiveIntegrityError
        "unknown objective-integrity violation code";
  _ ← raise_if (negb (mem (om_decision self) ["REVISE"; "BLOCK"; "CONTAIN"]))
        ObjectiveIntegrityError "forbidden-method rule cannot yield ALLOW";
  _ ← _sha (JStr (om_scope_sha256 self)) "scope_sha256" true;
  _ ← _sha (JStr (om_payload_sha256 self)) "payload_sha256" true;
  Ok tt.

(** The dictionary [body] returns once [validate] passed. *)
Definition rule_fields (self : ObjectiveMethodRule) : dict :=
  [("schema", JStr RULE_SCHEMA); ("rule_id", JStr (om_rule_id self));
   ("runtime_kind", JStr (om_runtime_kind self));
   ("violation_code", JStr (om_violation_code self)); ("decision", JStr (om_decision self));
   ("scope_sha256", JStr (om_scope_sha256 self));
   ("payload_sha256", JStr (om_payload_sha256 self)); ("authority", JObj AUTHORITY)].

Definition ObjectiveMethodRule_body (self : ObjectiveMethodRule) : result dict :=
  _ ← ObjectiveMethodRule_validate self;
  Ok (rule_fields self).

Definition ObjectiveMethodRule_as_document (self : ObjectiveMethodRule) : result dict :=
  body ← ObjectiveMethodRule_body self;
  Ok (dict_set body "rule_sha256" (JStr (om_rule_sha256 self))).

Definition rule_keys : list string :=
  ["schema"; "rule_id"; "runtime_kind"; "violation_code"; "decision"; "scope_sha256";
   "payload_sha256"; "authority"; "rule_sha256"].

(** ** Actions *)
Record ObjectiveAction := {
  oa_action_id : string;
  oa_subject_id : string;
  oa_policy_sha256 : string;
  oa_runtime_kind : string;
  oa_scope_sha256 : string;
  oa_payload_sha256 : string;
  oa_at_unix : Z
}.

Definition ObjectiveAction_validate (self : ObjectiveAction) : result unit :=
  _ ← _text (JStr (oa_action_id self)) "action_id";
  _ ← _text (JStr (oa_subject_id self)) "subject_id";
  _ ← _sha (JStr (oa_policy_sha256 self)) "policy_sha256" true;
  _ ← raise_if (negb (mem (oa_runtime_kind self) CAPABILITY_TYPES)) ObjectiveIntegrityError
        "unsupported objective action runtime_kind";
  _ ← _sha (JStr (oa_scope_sha256 self)) "scope_sha256" true;
  _ ← _sha (JStr (oa_payload_sha256 self)) "payload_sha256" true;
  _ ← _time (JInt (oa_at_unix self)) "at_unix";
  Ok tt.

Definition ObjectiveMethodRule_matches (self : ObjectiveMethodRule) (action : ObjectiveAction)
    : bool :=
  if negb (String.eqb (oa_runtime_kind action) (om_runtime_kind self)) then false
  else if negb (String.eqb (om_scope_sha256 self) ZERO_SHA256)
          && negb (String.eqb (oa_scope_sha256 action) (om_scope_sha256 self)) then false
  else if negb (String.eqb (om_payload_sha256 self) ZERO_SHA256)
          && negb (String.eqb (oa_payload_sha256 action) (om_payload_sha256 self)) then false
  else true.

(** ** Policies, observations and receipts *)
Record ObjectiveMethodPolicy := {
  op_objective_id : string;
  op_objective_sha256 : string;
  op_method_policy_id : string;
  op_governance_policy_sha256 : string;
  op_allowed_runtime_kinds : list string;
  op_rules : list ObjectiveMethodRule;
  op_require_completion_evidence : bool;
  op_policy_sha256 : string
}.

Definition ObjectiveMethodPolicy_body (self : ObjectiveMethodPolicy) : result dict :=
  rules ← map_r ObjectiveMethodRule_as_document (sorted_on om_rule_id (op_rules self));
  Ok [("schema", JStr POLICY_SCHEMA); ("objective_id", JStr (op_objective_id self));
      ("objective_sha256", JStr (op_objective_sha256 self));
      ("method_policy_id", JStr (op_method_policy_id self));
      ("governance_policy_sha256", JStr (op_governance_policy_sha256 self));
      ("allowed_runtime_kinds", jstrs (op_allowed_runtime_kinds self));
      ("rules", JList (map JObj rules));
      ("require_completion_evidence", JBool (op_require_completion_evidence self));
      ("authority", JObj AUTHORITY)].

Definition ObjectiveMethodPolicy_as_document (self : ObjectiveMethodPolicy) : result dict :=
  body ← ObjectiveMethodPolicy_body self;
  Ok (dict_set body "policy_sha256" (JStr (op_policy_sha256 self))).

Definition policy_keys : list string :=
  ["schema"; "objective_id"; "objective_sha256"; "method_policy_id";
   "governance_policy_sha256"; "allowed_runtime_kinds"; "rules";
   "require_completion_evidence"; "authority"; "policy_sha256"].

Record ObjectiveIntegrityObservation := {
  oo_observation_id : string;
  oo_objective_id : string;
  oo_method_policy_sha256 : string;
  oo_source_id : string;
  oo_source_binding_sha256 : string;
  oo_violation_code : string;
  oo_evidence_sha256 : string;
  oo_observed_at_unix : Z;
  oo_previous_observation_sha256 : string;
  oo_observation_sha256 : string
}.

Definition ObjectiveIntegrityObservation_body (self : ObjectiveIntegrityObservation) : dict :=
  [("schema", JStr OBSERVATION_SCHEMA); ("observation_id", JStr (oo_observation_id self));
   ("objective_id", JStr (oo_objective_id self));
   ("method_policy_sha256", JStr (oo_method_policy_sha256 self));
   ("source_id", JStr (oo_source_id self));
   ("source_binding_sha256", JStr (oo_source_binding_sha256 self));
   ("violation_code", JStr (oo_violation_code self));
   ("evidence_sha256", JStr (oo_evidence_sha256 self));
   ("observed_at_unix", JInt (oo_observed_at_unix self));
   ("previous_observation_sha256", JStr (oo_previous_observation_sha256 self));
   ("authority", JObj AUTHORITY)].

Definition ObjectiveIntegrityObservation_as_document (self : ObjectiveIntegrityObservation)
    : dict :=
  dict_set (ObjectiveIntegrityObservation_body self) "observation_sha256"
    (JStr (oo_observation_sha256 self)).

Definition observation_keys : list string :=
  ["schema"; "observation_id"; "objective_id"; "method_policy_sha256"; "source_id";
   "source_binding_sha256"; "violation_code"; "evidence_sha256"; "observed_at_unix";
   "previous_observation_sha256"; "authority"; "observation_sha256"].

Record ObjectiveIntegrityDecision := {
  od_decision_id : string;
  od_objective_id : string;
  od_method_policy_sha256 : string;
  od_action_id_sha256 : string;
  od_subject_id_sha256 : string;
  od_runtime_kind : string;
  od_scope_sha256 : string;
  od_payload_sha256 : string;
  od_matched_rule_ids : list string;
  od_observed_violation_codes : list string;
  od_observation_head_sha256 : string;
  od_evidence_sha256 : string;
  od_phase0_contract_sha256 : string;
  od_decision : string;
  od_reason_codes : list string;
  od_at_unix : Z;
  od_receipt_sha256 : string
}.

Definition ObjectiveIntegrityDecision_body (self : ObjectiveIntegrityDecision) : dict :=
  [("schema", JStr DECISION_SCHEMA); ("decision_id", JStr (od_decision_id self));
   ("objective_id", JStr (od_objective_id self));
   ("method_policy_sha256", JStr (od_method_policy_sha256 self));
   ("action_id_sha256", JStr (od_action_id_sha256 self));
   ("subject_id_sha256", JStr (od_subject_id_sha256 self));
   ("runtime_kind", JStr (od_runtime_kind self));
   ("scope_sha256", JStr (od_scope_sha256 self));
   ("payload_sha256", JStr (od_payload_sha256 self));
   ("matched_rule_ids", jstrs (od_matched_rule_ids self));
   ("observed_violation_codes", jstrs (od_observed_violation_codes self));
   ("observation_head_sha256", JStr (od_observation_head_sha256 self));
   ("evidence_sha256", JStr (od_evidence_sha256 self));
   ("phase0_contract_sha256", JStr (od_phase0_contract_sha256 self));
   ("decision", JStr (od_decision self)); ("reason_codes", jstrs (od_reason_codes self));
   ("at_unix", JInt (od_at_unix self)); ("authority", JObj AUTHORITY)].

Definition ObjectiveIntegrityDecision_as_document (self : ObjectiveIntegrityDecision) : dict :=
  dict_set (ObjectiveIntegrityDecision_body self) "receipt_sha256"
    (JStr (od_receipt_sha256 self)).

Record ObjectiveCompletionReceipt := {
  oc_objective_id : string;
  oc_method_policy_sha256 : string;
  oc_result_sha256 : string;
  oc_trajectory_sha256 : string;
  oc_method_evidence_sha256 : string;
  oc_observation_head_sha256 : string;
  oc_observed_violation_codes : list string;
  oc_decision : string;
  oc_reason_codes : list string;
  oc_at_unix : Z;
  oc_receipt_sha256 : string
}.

Definition ObjectiveCompletionReceipt_body (self : ObjectiveCompletionReceipt) : dict :=
  [("schema", JStr COMPLETION_SCHEMA); ("objective_id", JStr (oc_objective_id self));
   ("method_policy_sha256", JStr (oc_method_policy_sha256 self));
   ("result_sha256", JStr (oc_result_sha256 self));
   ("trajectory_sha256", JStr (oc_trajectory_sha256 self));
   ("method_evidence_sha256", JStr (oc_method_evidence_sha256 self));
   ("observation_head_sha256", JStr (oc_observation_head_sha256 self));
   ("observed_violation_codes", jstrs (oc_observed_violation_codes self));
   ("decision", JStr (oc_decision self)); ("reason_codes", jstrs (oc_reason_codes self));
   ("at_unix", JInt (oc_at_unix self)); ("authority", JObj AUTHORITY)].

Definition ObjectiveCompletionReceipt_as_document (self : ObjectiveCompletionReceipt) : dict :=
  dict_set (ObjectiveCompletionReceipt_body self) "receipt_sha256"
    (JStr (oc_receipt_sha256 self)).

(** ** The guard: its state *)

(** The host's observation verifier. *)
Class VerifierOps (V S : Type) := {
  verify_observation_with : V -> dict -> M S json
}.

Record ObjectiveIntegrityGuard (V : Type) := {
  og_policy : ObjectiveMethodPolicy;
  og_trusted_source_bindings : dict;
  og_verify_observation : option V;
  og_observations : list ObjectiveIntegrityObservation;
  og_observation_head : string;
  og_observation_ids : gset string;
  og_last_observed_at : Z;
  og_decisions : list ObjectiveIntegrityDecision;
  og_completions : list ObjectiveCompletionReceipt;
  og_contained : bool;
  og_containment_evidence_sha256 : string
}.
Arguments og_policy {V} _.
Arguments og_trusted_source_bindings {V} _.
Arguments og_verify_observation {V} _.
Arguments og_observations {V} _.
Arguments og_observation_head {V} _.
Arguments og_observation_ids {V} _.
Arguments og_last_observed_at {V} _.
Arguments og_decisions {V} _.
Arguments og_completions {V} _.
Arguments og_contained {V} _.
Arguments og_containment_evidence_sha256 {V} _.

Definition _decision_for_violation (code : string) : result string :=
  if mem code CRITICAL_VIOLATIONS then Ok "CONTAIN"
  else if mem code NONCRITICAL_VIOLATIONS then Ok "BLOCK"
  else fail ObjectiveIntegrityError "unknown objective integrity violation".

Section guard_fields.
Context {V : Type}.
Implicit Types g : ObjectiveIntegrityGuard V.

Definition set_containment (contained : bool) (evidence : string) g
    : ObjectiveIntegrityGuard V := {|
  og_policy := og_policy g; og_trusted_source_bindings := og_trusted_source_bindings g;
  og_verify_observation := og_verify_observation g; og_observations := og_observations g;
  og_observation_head := og_observation_head g; og_observation_ids := og_observation_ids g;
  og_last_observed_at := og_last_observed_at g; og_decisions := og_decisions g;
  og_completions := og_completions g; og_contained := contained;
  og_containment_evidence_sha256 := evidence |}.

(** The four assignments at the end of [ingest_observation]. *)
Definition push_observation (item : ObjectiveIntegrityObservation) g
    : ObjectiveIntegrityGuard V := {|
  og_policy := og_policy g; og_trusted_source_bindings := og_trusted_source_bindings g;
  og_verify_observation := og_verify_observation g;
  og_observations := og_observations g ++ [item];
  og_observation_head := oo_observation_sha256 item;
  og_observation_ids := {[oo_observation_id item]} ∪ og_observation_ids g;
  og_last_observed_at := oo_observed_at_unix item; og_decisions := og_decisions g;
  og_completions := og_completions g; og_contained := og_contained g;
  og_containment_evidence_sha256 := og_containment_evidence_sha256 g |}.

Definition push_decision (r : ObjectiveIntegrityDecision) g : ObjectiveIntegrityGuard V := {|
  og_policy := og_policy g; og_trusted_source_bindings := og_trusted_source_bindings g;
  og_verify_observation := og_verify_observation g; og_observations := og_observations g;
  og_observation_head := og_observation_head g; og_observation_ids := og_observation_ids g;
  og_last_observed_at := og_last_observed_at g; og_decisions := og_decisions g ++ [r];
  og_completions := og_completions g; og_contained := og_contained g;
  og_containment_evidence_sha256 := og_containment_evidence_sha256 g |}.

Definition push_completion (r : ObjectiveCompletionReceipt) g : ObjectiveIntegrityGuard V := {|
  og_policy := og_policy g; og_trusted_source_bindings := og_trusted_source_bindings g;
  og_verify_observation := og_verify_observation g; og_observations := og_observations g;
  og_observation_head := og_observation_head g; og_observation_ids := og_observation_ids g;
  og_last_observed_at := og_last_observed_at g; og_decisions := og_decisions g;
  og_completions := og_completions g ++ [r]; og_contained := og_contained g;
  og_containment_evidence_sha256 := og_containment_evidence_sha256 g |}.

Definition observation_head_sha256 g : string := og_observation_head g.

Definition enter_containment (incident_receipt_sha256 : string)
    : M (ObjectiveIntegrityGuard V) unit :=
  evidence ← lift (_sha (JStr incident_receipt_sha256) "incident_receipt_sha256" false);
  modify (set_containment true evidence).

Definition exit_containment (human_release_receipt_sha256 : string)
    : M (ObjectiveIntegrityGuard V) unit :=
  evidence ← lift (_sha (JStr human_release_receipt_sha256) "human_release_receipt_sha256" false);
  modify (set_containment false evidence).

Definition decisions g : list dict := map ObjectiveIntegrityDecision_as_document (og_decisions g).

Definition completions g : list dict :=
  map ObjectiveCompletionReceipt_as_document (og_completions g).

(** [{item.violation_code for item in self._observations}] *)
Definition observed_codes g : list string :=
  remove_dups (map oo_violation_code (og_observations g)).
End guard_fields.

Section objective.
Context {hash : Digest}.

(** ** Building and parsing *)
Definition ObjectiveMethodRule_build (rule_id runtime_kind violation_code decision
    scope_sha256 payload_sha256 : json) : result ObjectiveMethodRule :=
  rule_id ← _text rule_id "rule_id";
  runtime_kind ← _text runtime_kind "runtime_kind";
  violation_code ← _text violation_code "violation_code";
  decision ← _text decision "decision";
  scope_sha256 ← _sha scope_sha256 "scope_sha256" true;
  payload_sha256 ← _sha payload_sha256 "payload_sha256" true;
  let item d := {| om_rule_id := rule_id; om_runtime_kind := runtime_kind;
    om_violation_code := violation_code; om_decision := decision;
    om_scope_sha256 := scope_sha256; om_payload_sha256 := payload_sha256;
    om_rule_sha256 := d |} in
  _ ← ObjectiveMethodRule_validate (item "");
  body ← ObjectiveMethodRule_body (item "");
  Ok (item (canonical_sha256 (JObj body))).

Definition ObjectiveMethodRule_from_document (raw : dict) : result ObjectiveMethodRule :=
  _ ← _exact raw rule_keys "objective method rule";
  _ ← raise_if (negb (envelope_ok raw RULE_SCHEMA AUTHORITY)) ObjectiveIntegrityError
        "objective method rule schema/authority mismatch";
  let fld k := dict_get_none raw k in
  item ← ObjectiveMethodRule_build (fld "rule_id") (fld "runtime_kind") (fld "violation_code")
           (fld "decision") (fld "scope_sha256") (fld "payload_sha256");
  digest ← _sha (fld "rule_sha256") "rule_sha256" true;
  _ ← raise_if (negb (String.eqb (om_rule_sha256 item) digest)) ObjectiveIntegrityError
        "objective method rule digest mismatch";
  Ok item.

(** [ObjectiveMethodRule.from_document(rule)] of an element of a parsed array. *)
Definition rule_from_value (rule : json) : result ObjectiveMethodRule :=
  raw ← dict_of rule;
  match raw with
  | None => fail ObjectiveIntegrityError "objective method rule keys mismatch"
  | Some raw => ObjectiveMethodRule_from_document raw
  end.

(** [sorted(set(values))] *)
Definition sorted_set_json (values : list json) : result (list json) :=
  _ ← raise_if (negb (forallb CapabilityBroker.hashable values)) TypeError "unhashable type";
  sorted_json (fold_left (fun acc x => if existsb (py_eq x) acc then acc else acc ++ [x]) values []).

(** [[kind for kind in kinds if kind in CAPABILITY_TYPES]], when that is all of them. *)
Definition known_kinds (kinds : list json) : option (list string) :=
  mapM (fun k => match k with
                 | JStr s => if mem s CAPABILITY_TYPES then Some s else None
                 | _ => None
                 end) kinds.

Definition ObjectiveMethodPolicy_build (objective_id objective_sha256 method_policy_id
    governance_policy_sha256 : json) (raw_kinds : list json) (rules : list ObjectiveMethodRule)
    (require_completion_evidence : json) : result ObjectiveMethodPolicy :=
  kinds ← sorted_set_json raw_kinds;
  _ ← raise_if (bool_decide (kinds = []) || negb (length kinds =? length raw_kinds)%nat)
        ObjectiveIntegrityError "allowed_runtime_kinds must be non-empty and unique";
  match known_kinds kinds with
  | None => fail ObjectiveIntegrityError "allowed_runtime_kinds contains unknown kind"
  | Some kinds =>
      _ ← raise_if (existsb (fun rule => negb (mem (om_runtime_kind rule) kinds)) rules)
            ObjectiveIntegrityError "objective method rule kind must be allowed by the same policy";
      _ ← raise_if (has_dups (map om_rule_id rules)) ObjectiveIntegrityError
            "objective method rule IDs must be unique";
      match require_completion_evidence with
      | JBool require =>
          objective_id ← _text objective_id "objective_id";
          objective_sha256 ← _sha objective_sha256 "objective_sha256" false;
          method_policy_id ← _text method_policy_id "method_policy_id";
          governance ← _sha governance_policy_sha256 "governance_policy_sha256" false;
          let item d := {| op_objective_id := objective_id;
            op_objective_sha256 := objective_sha256; op_method_policy_id := method_policy_id;
            op_governance_policy_sha256 := governance; op_allowed_runtime_kinds := kinds;
            op_rules := rules; op_require_completion_evidence := require;
            op_policy_sha256 := d |} in
          body ← ObjectiveMethodPolicy_body (item "");
          Ok (item (canonical_sha256 (JObj body)))
      | _ => fail ObjectiveIntegrityError "require_completion_evidence must be boolean"
      end
  end.

Definition ObjectiveMethodPolicy_from_document (raw : dict) : result ObjectiveMethodPolicy :=
  _ ← _exact raw policy_keys "objective method policy";
  _ ← raise_if (negb (envelope_ok raw POLICY_SCHEMA AUTHORITY)) ObjectiveIntegrityError
        "objective method policy schema/authority mismatch";
  let fld k := dict_get_none raw k in
  match fld "rules", fld "allowed_runtime_kinds" with
  | JList rules, JList kinds =>
      rules ← map_r rule_from_value rules;
      item ← ObjectiveMethodPolicy_build (fld "objective_id") (fld "objective_sha256")
               (fld "method_policy_id") (fld "governance_policy_sha256") kinds rules
               (fld "require_completion_evidence");
      digest ← _sha (fld "policy_sha256") "policy_sha256" true;
      _ ← raise_if (negb (String.eqb (op_policy_sha256 item) digest)) ObjectiveIntegrityError
            "objective method policy digest mismatch";
      Ok item
  | _, _ => fail ObjectiveIntegrityError "objective method policy kinds/rules must be arrays"
  end.

Definition ObjectiveIntegrityObservation_build (observation_id objective_id
    method_policy_sha256 source_id source_binding_sha256 violation_code evidence_sha256
    observed_at_unix previous_observation_sha256 : json)
    : result ObjectiveIntegrityObservation :=
  observation_id ← _text observation_id "observation_id";
  objective_id ← _text objective_id "objective_id";
  policy ← _sha method_policy_sha256 "method_policy_sha256" true;
  source_id ← _text source_id "source_id";
  binding ← _sha source_binding_sha256 "source_binding_sha256" false;
  code ← _text violation_code "violation_code";
  evidence ← _sha evidence_sha256 "evidence_sha256" false;
  at_unix ← _time observed_at_unix "observed_at_unix";
  previous ← _sha previous_observation_sha256 "previous_observation_sha256" true;
  let item d := {| oo_observation_id := observation_id; oo_objective_id := objective_id;
    oo_method_policy_sha256 := policy; oo_source_id := source_id;
    oo_source_binding_sha256 := binding; oo_violation_code := code;
    oo_evidence_sha256 := evidence; oo_observed_at_unix := at_unix;
    oo_previous_observation_sha256 := previous; oo_observation_sha256 := d |} in
  _ ← raise_if (negb (mem code OBJECTIVE_VIOLATIONS)) ObjectiveIntegrityError
        "unknown objective integrity violation";
  Ok (item (canonical_sha256 (JObj (ObjectiveIntegrityObservation_body (item ""))))).

Definition ObjectiveIntegrityObservation_from_document (raw : dict)
    : result ObjectiveIntegrityObservation :=
  _ ← _exact raw observation_keys "objective integrity observation";
  _ ← raise_if (negb (envelope_ok raw OBSERVATION_SCHEMA AUTHORITY)) ObjectiveIntegrityError
        "objective integrity observation schema/authority mismatch";
  let fld k := dict_get_none raw k in
  item ← ObjectiveIntegrityObservation_build (fld "observation_id") (fld "objective_id")
           (fld "method_policy_sha256") (fld "source_id") (fld "source_binding_sha256")
           (fld "violation_code") (fld "evidence_sha256") (fld "observed_at_unix")
           (fld "previous_observation_sha256");
  digest ← _sha (fld "observation_sha256") "observation_sha256" true;
  _ ← raise_if (negb (String.eqb (oo_observation_sha256 item) digest)) ObjectiveIntegrityError
        "objective integrity observation digest mismatch";
  Ok item.

Definition from_runtime_operation (operation : RuntimeOperation) : result ObjectiveAction :=
  _ ← RuntimeOperation_validate operation;
  scope ← normalized_scope operation;
  Ok {| oa_action_id := ro_operation_id operation; oa_subject_id := ro_subject_id operation;
        oa_policy_sha256 := ro_policy_sha256 operation; oa_runtime_kind := ro_kind operation;
        oa_scope_sha256 := canonical_sha256 (JObj scope);
        oa_payload_sha256 := ro_payload_sha256 operation; oa_at_unix := ro_at_unix operation |}.

(** ** The guard: its operations *)
Section guard.
Context {V : Type}.
Implicit Types g : ObjectiveIntegrityGuard V.

Definition ObjectiveIntegrityGuard_init (policy : ObjectiveMethodPolicy + dict)
    (trusted_source_bindings : option dict) (verify_observation : option V)
    : result (ObjectiveIntegrityGuard V) :=
  policy ← match policy with
           | inl p => Ok p
           | inr d => ObjectiveMethodPolicy_from_document d
           end;
  let bindings := default [] trusted_source_bindings in
  _ ← map_r (fun kv => _ ← _text (JStr (fst kv)) "trusted source_id";
                       _ ← _sha (snd kv) "trusted source binding" false;
                       Ok tt) bindings;
  _ ← raise_if (negb (bool_decide (bindings = [])) && negb (is_Some_b verify_observation))
        ObjectiveIntegrityError
        "trusted observation verifier required when detector bindings are configured";
  Ok {| og_policy := policy; og_trusted_source_bindings := bindings;
        og_verify_observation := verify_observation; og_observations := [];
        og_observation_head := ZERO_SHA256; og_observation_ids := ∅;
        og_last_observed_at := -1; og_decisions := []; og_completions := [];
        og_contained := false; og_containment_evidence_sha256 := ZERO_SHA256 |}.

(** The rules [evaluate_action] collects in [matched_rules]. *)
Definition matched_rules (policy : ObjectiveMethodPolicy) (action : ObjectiveAction)
    : list ObjectiveMethodRule :=
  List.filter (fun rule => ObjectiveMethodRule_matches rule action) (op_rules policy).

(** The set [violations] of [evaluate_action]. *)
Definition action_violations g (action : ObjectiveAction) : list string :=
  observed_codes g
  ++ (if String.eqb (oa_policy_sha256 action) (op_governance_policy_sha256 (og_policy g))
      then [] else ["unauthorized_policy_mutation"])
  ++ (if mem (oa_runtime_kind action) (op_allowed_runtime_kinds (og_policy g))
      then [] else ["task_constraint_mutation"])
  ++ map om_violation_code (matched_rules (og_policy g) action).

(** The list [decisions] of [evaluate_action]. *)
Definition action_decisions g (action : ObjectiveAction) : result (list string) :=
  floors ← map_r _decision_for_violation (observed_codes g);
  Ok (floors
      ++ (if og_contained g then ["CONTAIN"] else [])
      ++ (if String.eqb (oa_policy_sha256 action) (op_governance_policy_sha256 (og_policy g))
          then [] else ["CONTAIN"])
      ++ (if mem (oa_runtime_kind action) (op_allowed_runtime_kinds (og_policy g))
          then [] else ["BLOCK"])
      ++ map om_decision (matched_rules (og_policy g) action)).

(** The list [reasons] of [evaluate_action]. *)
Definition action_reasons g (action : ObjectiveAction) (decision : string) : list string :=
  (if og_contained g then ["containment_active"] else [])
  ++ (if String.eqb (oa_policy_sha256 action) (op_governance_policy_sha256 (og_policy g))
      then [] else ["governance_policy_binding_mismatch"])
  ++ (if mem (oa_runtime_kind action) (op_allowed_runtime_kinds (og_policy g))
      then ["runtime_kind_allowed"] else ["runtime_kind_outside_method_policy"])
  ++ map (fun rule => "matched_rule:" +:+ om_rule_id rule) (matched_rules (og_policy g) action)
  ++ (if bool_decide (og_observations g = []) then []
      else ["trusted_integrity_observation_present"])
  ++ (if String.eqb decision "ALLOW" then ["no_objective_integrity_violation_observed"] else []).

Definition action_evidence g (action : ObjectiveAction) : string :=
  canonical_sha256 (JObj
    [("objective_sha256", JStr (op_objective_sha256 (og_policy g)));
     ("method_policy_sha256", JStr (op_policy_sha256 (og_policy g)));
     ("action", JObj
       [("action_id_sha256", JStr (canonical_sha256 (JStr (oa_action_id action))));
        ("subject_id_sha256", JStr (canonical_sha256 (JStr (oa_subject_id action))));
        ("runtime_kind", JStr (oa_runtime_kind action));
        ("scope_sha256", JStr (oa_scope_sha256 action));
        ("payload_sha256", JStr (oa_payload_sha256 action))]);
     ("matched_rule_sha256",
       jstrs (map om_rule_sha256 (sorted_on om_rule_id (matched_rules (og_policy g) action))));
     ("observation_head_sha256", JStr (og_observation_head g));
     ("containment_evidence_sha256", JStr (og_containment_evidence_sha256 g))]).

Definition seal_decision (r : ObjectiveIntegrityDecision) : ObjectiveIntegrityDecision := {|
  od_decision_id := od_decision_id r; od_objective_id := od_objective_id r;
  od_method_policy_sha256 := od_method_policy_sha256 r;
  od_action_id_sha256 := od_action_id_sha256 r; od_subject_id_sha256 := od_subject_id_sha256 r;
  od_runtime_kind := od_runtime_kind r; od_scope_sha256 := od_scope_sha256 r;
  od_payload_sha256 := od_payload_sha256 r; od_matched_rule_ids := od_matched_rule_ids r;
  od_observed_violation_codes := od_observed_violation_codes r;
  od_observation_head_sha256 := od_observation_head_sha256 r;
  od_evidence_sha256 := od_evidence_sha256 r;
  od_phase0_contract_sha256 := od_phase0_contract_sha256 r; od_decision := od_decision r;
  od_reason_codes := od_reason_codes r; od_at_unix := od_at_unix r;
  od_receipt_sha256 := canonical_sha256 (JObj (ObjectiveIntegrityDecision_body r)) |}.

(** The Phase 0 record of a decision, before it is validated. *)
Definition phase0_document g (violations : list string) (decision evidence_sha : string)
    : dict :=
  [("schema", JStr OBJECTIVE_INTEGRITY_SCHEMA);
   ("objective_id", JStr (op_objective_id (og_policy g)));
   ("method_policy_sha256", JStr (op_policy_sha256 (og_policy g)));
   ("observed_violation_codes", jstrs (sorted_set violations)); ("decision", JStr decision);
   ("evidence_sha256", JStr evidence_sha); ("authority", JObj Contracts.AUTHORITY)].

Definition evaluate_action (action : ObjectiveAction) : M (ObjectiveIntegrityGuard V) dict :=
  _ ← lift (ObjectiveAction_validate action);
  self ← get_state;
  decisions ← lift (action_decisions self action);
  decision ← lift (_decision_max decisions);
  let violations := action_violations self action in
  let evidence_sha := action_evidence self action in
  phase0 ← lift (validate_objective_integrity
                   (JObj (phase0_document self violations decision evidence_sha)));
  let receipt := seal_decision {|
    od_decision_id :=
      "objective-decision:" +:+ pretty (Z.of_nat (length (og_decisions self)) + 1);
    od_objective_id := op_objective_id (og_policy self);
    od_method_policy_sha256 := op_policy_sha256 (og_policy self);
    od_action_id_sha256 := canonical_sha256 (JStr (oa_action_id action));
    od_subject_id_sha256 := canonical_sha256 (JStr (oa_subject_id action));
    od_runtime_kind := oa_runtime_kind action; od_scope_sha256 := oa_scope_sha256 action;
    od_payload_sha256 := oa_payload_sha256 action;
    od_matched_rule_ids := sorted_str (map om_rule_id (matched_rules (og_policy self) action));
    od_observed_violation_codes := sorted_set violations;
    od_observation_head_sha256 := og_observation_head self; od_evidence_sha256 := evidence_sha;
    od_phase0_contract_sha256 := canonical_sha256 (JObj phase0); od_decision := decision;
    od_reason_codes := sorted_set (action_reasons self action decision);
    od_at_unix := oa_at_unix action; od_receipt_sha256 := "" |} in
  _ ← modify (push_decision receipt);
  mret (ObjectiveIntegrityDecision_as_document receipt).

Definition evaluate_operation (operation : RuntimeOperation)
    : M (ObjectiveIntegrityGuard V) dict :=
  action ← lift (from_runtime_operation operation);
  evaluate_action action.

Definition seal_completion (r : ObjectiveCompletionReceipt) : ObjectiveCompletionReceipt := {|
  oc_objective_id := oc_objective_id r; oc_method_policy_sha256 := oc_method_policy_sha256 r;
  oc_result_sha256 := oc_result_sha256 r; oc_trajectory_sha256 := oc_trajectory_sha256 r;
  oc_method_evidence_sha256 := oc_method_evidence_sha256 r;
  oc_observation_head_sha256 := oc_observation_head_sha256 r;
  oc_observed_violation_codes := oc_observed_violation_codes r; oc_decision := oc_decision r;
  oc_reason_codes := oc_reason_codes r; oc_at_unix := oc_at_unix r;
  oc_receipt_sha256 := canonical_sha256 (JObj (ObjectiveCompletionReceipt_body r)) |}.

(** The evidence the policy demands of a completion is missing. *)
Definition evidence_missing g (trajectory method_evidence : string) : bool :=
  op_require_completion_evidence (og_policy g)
  && (String.eqb trajectory ZERO_SHA256 || String.eqb method_evidence ZERO_SHA256).

Definition ObjectiveIntegrityGuard_verify_completion
    (result_sha256 trajectory_sha256 method_evidence_sha256 : string) (at_unix : Z)
    : M (ObjectiveIntegrityGuard V) dict :=
  res ← lift (_sha (JStr result_sha256) "result_sha256" false);
  trajectory ← lift (_sha (JStr trajectory_sha256) "trajectory_sha256" true);
  method_evidence ← lift (_sha (JStr method_evidence_sha256) "method_evidence_sha256" true);
  _ ← lift (_time (JInt at_unix) "at_unix");
  self ← get_state;
  let violations := sorted_set (observed_codes self) in
  floors ← lift (map_r _decision_for_violation violations);
  decision ← lift (_decision_max (floors
    ++ (if og_contained self then ["CONTAIN"] else [])
    ++ (if evidence_missing self trajectory method_evidence then ["BLOCK"] else [])));
  let reasons :=
    (if og_contained self then ["containment_active"] else [])
    ++ (if evidence_missing self trajectory method_evidence
        then ["completion_evidence_missing"] else [])
    ++ (if bool_decide (violations = []) then [] else ["method_integrity_not_clean"])
    ++ (if String.eqb decision "ALLOW"
        then ["result_digest_present"; "method_integrity_proven"] else []) in
  let receipt := seal_completion {|
    oc_objective_id := op_objective_id (og_policy self);
    oc_method_policy_sha256 := op_policy_sha256 (og_policy self); oc_result_sha256 := res;
    oc_trajectory_sha256 := trajectory; oc_method_evidence_sha256 := method_evidence;
    oc_observation_head_sha256 := og_observation_head self;
    oc_observed_violation_codes := violations; oc_decision := decision;
    oc_reason_codes := sorted_set reasons; oc_at_unix := at_unix; oc_receipt_sha256 := "" |} in
  _ ← modify (push_completion receipt);
  mret (ObjectiveCompletionReceipt_as_document receipt).

Definition state_document g : result dict :=
  let violations := sorted_set (observed_codes g) in
  floors ← map_r _decision_for_violation violations;
  floor ← _decision_max floors;
  Ok (seal "state_sha256"
    [("objective_id", JStr (op_objective_id (og_policy g)));
     ("objective_sha256", JStr (op_objective_sha256 (og_policy g)));
     ("method_policy_sha256", JStr (op_policy_sha256 (og_policy g)));
     ("observation_head_sha256", JStr (og_observation_head g));
     ("observation_count", JInt (Z.of_nat (length (og_observations g))));
     ("observed_violation_codes", jstrs violations);
     ("decision_floor", JStr (if og_contained g then "CONTAIN" else floor));
     ("contained", JBool (og_contained g));
     ("containment_evidence_sha256", JStr (og_containment_evidence_sha256 g));
     ("authority", JObj AUTHORITY)]).
End guard.

Section ingestion.
Context {V S : Type} {vops : VerifierOps V S} {L : Lens S (ObjectiveIntegrityGuard V)}.

Definition ingest_observation (document : dict) : M S dict :=
  item ← lift (ObjectiveIntegrityObservation_from_document document);
  self ← this (T := ObjectiveIntegrityGuard V);
  let expected_binding := dict_get_none (og_trusted_source_bindings self) (oo_source_id item) in
  _ ← lift (raise_if (match expected_binding with JNull => true | _ => false end)
              ObjectiveIntegrityError "objective observation source is not trusted");
  _ ← lift (raise_if (negb (is_str expected_binding (oo_source_binding_sha256 item)))
              ObjectiveIntegrityError "objective observation source binding mismatch");
  verified ← match og_verify_observation self with
             | None => mret false
             | Some v =>
                 answer ← verify_observation_with v (ObjectiveIntegrityObservation_as_document item);
                 mret (match answer with JBool true => true | _ => false end)
             end;
  _ ← lift (raise_if (negb verified)
              ObjectiveIntegrityError "objective observation external verification failed");
  self ← this (T := ObjectiveIntegrityGuard V);
  _ ← lift (raise_if (negb (String.eqb (oo_objective_id item) (op_objective_id (og_policy self))))
              ObjectiveIntegrityError "objective observation objective_id mismatch");
  _ ← lift (raise_if (negb (String.eqb (oo_method_policy_sha256 item)
                              (op_policy_sha256 (og_policy self))))
              ObjectiveIntegrityError "objective observation method policy mismatch");
  _ ← lift (raise_if (bool_decide (oo_observation_id item ∈ og_observation_ids self))
              ObjectiveIntegrityError "objective observation replay/duplicate");
  _ ← lift (raise_if (negb (String.eqb (oo_previous_observation_sha256 item)
                              (og_observation_head self)))
              ObjectiveIntegrityError "objective observation chain is disconnected");
  _ ← lift (raise_if (oo_observed_at_unix item <? og_last_observed_at self)
              ObjectiveIntegrityError "objective observation time moved backwards");
  _ ← set_this (T := ObjectiveIntegrityGuard V) (push_observation item);
  floor ← lift (_decision_for_violation (oo_violation_code item));
  mret [("observation_id", JStr (oo_observation_id item));
        ("violation_code", JStr (oo_violation_code item));
        ("decision_floor", JStr floor);
        ("observation_sha256", JStr (oo_observation_sha256 item))].
End ingestion.

(** ** The guarded mediator *)
Record ObjectiveGuardedRuntimeMediator (V B G : Type) := {
  gm_guard : ObjectiveIntegrityGuard V;
  gm_delegate : RuntimeMediator B G;
  gm_receipts : list dict
}.
#[global] Arguments gm_guard {V B G} _.
#[global] Arguments gm_delegate {V B G} _.
#[global] Arguments gm_receipts {V B G} _.

Section mediator_fields.
Context {V B G : Type}.
Implicit Types m : ObjectiveGuardedRuntimeMediator V B G.

Definition ObjectiveGuardedRuntimeMediator_init (guard : ObjectiveIntegrityGuard V)
    (delegate : RuntimeMediator B G) : ObjectiveGuardedRuntimeMediator V B G :=
  {| gm_guard := guard; gm_delegate := delegate; gm_receipts := [] |}.

Definition set_guard (guard : ObjectiveIntegrityGuard V) m :=
  {| gm_guard := guard; gm_delegate := gm_delegate m; gm_receipts := gm_receipts m |}.

Definition set_delegate (delegate : RuntimeMediator B G) m :=
  {| gm_guard := gm_guard m; gm_delegate := delegate; gm_receipts := gm_receipts m |}.

Definition push_receipt (r : dict) m :=
  {| gm_guard := gm_guard m; gm_delegate := gm_delegate m; gm_receipts := gm_receipts m ++ [r] |}.

#[export] Program Instance guard_field
    : Lens (ObjectiveGuardedRuntimeMediator V B G) (ObjectiveIntegrityGuard V) :=
  {| lget := gm_guard; lput := set_guard |}.
Next Obligation. done. Qed.
Next Obligation. by intros []. Qed.
Next Obligation. done. Qed.

#[export] Program Instance delegate_field
    : Lens (ObjectiveGuardedRuntimeMediator V B G) (RuntimeMediator B G) :=
  {| lget := gm_delegate; lput := set_delegate |}.
Next Obligation. done. Qed.
Next Obligation. by intros []. Qed.
Next Obligation. done. Qed.

(** Both methods let the guard check the digest before the delegate sees it. *)
Definition ObjectiveGuardedRuntimeMediator_enter_containment (incident_receipt_sha256 : string)
    : M (ObjectiveGuardedRuntimeMediator V B G) unit :=
  _ ← on (enter_containment (V := V) incident_receipt_sha256);
  on (Mediation.enter_containment (B := B) (G := G) incident_receipt_sha256).

Definition ObjectiveGuardedRuntimeMediator_exit_containment
    (human_release_receipt_sha256 : string) : M (ObjectiveGuardedRuntimeMediator V B G) unit :=
  _ ← on (exit_containment (V := V) human_release_receipt_sha256);
  on (Mediation.exit_containment (B := B) (G := G) human_release_receipt_sha256).

Definition receipts m : list dict := gm_receipts m.

Definition trajectory_events m : list Escalation.TrajectoryEvent :=
  Mediation.trajectory_events (gm_delegate m).

(** [tuple(sorted(set(d.get("reason_codes", ())) | codes))] *)
Definition merged_codes (d : dict) (codes : list string) : result (list string) :=
  own ← match dict_get d "reason_codes" with
        | Some v => EpochBroker.reason_list v
        | None => Ok []
        end;
  Ok (sorted_set (own ++ codes)).

Definition _finish_blocked (action_id runtime_kind : string) (gate : dict) (at_unix : Z)
    : M (ObjectiveGuardedRuntimeMediator V B G) dict :=
  decision ← lift (str_item gate "decision");
  reasons ← lift (merged_codes gate
    ["objective_integrity_gate_blocked"; "objective_decision:" +:+ decision]);
  gate_sha ← lift (dict_item gate "receipt_sha256");
  let receipt := seal "receipt_sha256"
    [("schema", JStr MEDIATION_SCHEMA);
     ("action_id_sha256", JStr (canonical_sha256 (JStr action_id)));
     ("runtime_kind", JStr runtime_kind); ("objective_integrity_receipt_sha256", gate_sha);
     ("runtime_mediation_receipt_sha256", JStr ZERO_SHA256);
     ("objective_decision", JStr decision); ("admission_decision", JStr "BLOCK");
     ("execution_outcome", JStr "NOT_EXECUTED"); ("reason_codes", jstrs reasons);
     ("at_unix", JInt at_unix); ("authority", JObj AUTHORITY)] in
  _ ← modify (push_receipt receipt);
  mret receipt.

Definition _finish_delegated (action_id runtime_kind : string) (gate runtime : dict)
    (at_unix : Z) : M (ObjectiveGuardedRuntimeMediator V B G) dict :=
  reasons ← lift (merged_codes runtime ["objective_integrity_allow"]);
  gate_sha ← lift (dict_item gate "receipt_sha256");
  runtime_sha ← lift (dict_item runtime "receipt_sha256");
  decision ← lift (dict_item gate "decision");
  admission ← lift (dict_item runtime "admission_decision");
  outcome ← lift (dict_item runtime "execution_outcome");
  let receipt := seal "receipt_sha256"
    [("schema", JStr MEDIATION_SCHEMA);
     ("action_id_sha256", JStr (canonical_sha256 (JStr action_id)));
     ("runtime_kind", JStr runtime_kind); ("objective_integrity_receipt_sha256", gate_sha);
     ("runtime_mediation_receipt_sha256", runtime_sha); ("objective_decision", decision);
     ("admission_decision", admission); ("execution_outcome", outcome);
     ("reason_codes", jstrs reasons); ("at_unix", JInt at_unix);
     ("authority", JObj AUTHORITY)] in
  _ ← modify (push_receipt receipt);
  mret receipt.
End mediator_fields.

Section guarded.
Context {V B G S : Type} {bops : BrokerOps B}.
Context {L : Lens S (ObjectiveGuardedRuntimeMediator V B G)}.

(** The guard and the delegate, as components of the host. *)
Definition guard_of : Lens S (ObjectiveIntegrityGuard V) := lens_comp L guard_field.
Definition delegate_of : Lens S (RuntimeMediator B G) := lens_comp L delegate_field.

Definition ObjectiveGuardedRuntimeMediator_mediate (operation : RuntimeOperation)
    (executor : RuntimeOperation -> M S exec_result) : M S dict :=
  gate ← on (H := guard_of) (evaluate_operation (V := V) operation);
  decision ← lift (dict_item gate "decision");
  if negb (is_str decision "ALLOW") then
    on (T := ObjectiveGuardedRuntimeMediator V B G)
      (_finish_blocked (ro_operation_id operation) (ro_kind operation) gate (ro_at_unix operation))
  else
    runtime ← mediate (L := delegate_of) operation executor;
    on (T := ObjectiveGuardedRuntimeMediator V B G)
      (_finish_delegated (ro_operation_id operation) (ro_kind operation) gate runtime
         (ro_at_unix operation)).
End guarded.

(** ** Verification of documents *)
Definition verify_policy (document : dict) : result dict :=
  p ← ObjectiveMethodPolicy_from_document document;
  ObjectiveMethodPolicy_as_document p.

Definition verify_observation (document : dict) : result dict :=
  o ← ObjectiveIntegrityObservation_from_document document;
  Ok (ObjectiveIntegrityObservation_as_document o).

(** [raw.get("decision") not in DECISION_RANK] *)
Definition decision_invalid (raw : dict) : result bool :=
  EpochBroker.not_in_set (dict_get_none raw "decision") (map fst DECISION_RANK).

Definition verify_decision (document : dict) : result dict :=
  let raw := dict_del document "receipt_sha256" in
  let digest := dict_get_none document "receipt_sha256" in
  _ ← raise_if (negb (envelope_ok raw DECISION_SCHEMA AUTHORITY)) ObjectiveIntegrityError
        "objective decision schema/authority mismatch";
  bad ← decision_invalid raw;
  _ ← raise_if bad ObjectiveIntegrityError "objective decision value invalid";
  _ ← raise_if (negb (is_str digest (canonical_sha256 (JObj raw)))) ObjectiveIntegrityError
        "objective decision receipt digest mismatch";
  Ok document.

Definition verify_completion (document : dict) : result dict :=
  let raw := dict_del document "receipt_sha256" in
  let digest := dict_get_none document "receipt_sha256" in
  _ ← raise_if (negb (envelope_ok raw COMPLETION_SCHEMA AUTHORITY)) ObjectiveIntegrityError
        "objective completion schema/authority mismatch";
  bad ← decision_invalid raw;
  _ ← raise_if bad ObjectiveIntegrityError "objective completion decision invalid";
  _ ← raise_if (negb (is_str digest (canonical_sha256 (JObj raw)))) ObjectiveIntegrityError
        "objective completion receipt digest mismatch";
  Ok document.
End objective.

(** ** Lemmas *)

(** *** Validators *)
Lemma _sha_ok v name z s :
  _sha v name z = Ok s <-> v = JStr s /\ re_sha s = true /\ (z = false -> s <> ZERO_SHA256).
Proof.
  unfold _sha. split.
  - intros H. py_inv. apply check_sha_ok in Hx as [-> Hs]. split_and!; [done..|].
    intros ->. by destruct (String.eqb_spec s ZERO_SHA256).
  - intros (-> & Hs & Hz). rewrite (proj2 (check_sha_ok _ _ _ s)) by done. cbn.
    destruct z; cbn; [done|]. rewrite (proj2 (String.eqb_neq _ _)); [done|]. by apply Hz.
Qed.

Lemma _text_ok v name s : _text v name = Ok s <-> v = JStr s /\ bounded_text s = true.
Proof.
  unfold _text. destruct v as [| | |x| |]; try (by split; [|intros [? _]]).
  destruct (bounded_text x) eqn:E; split.
  - by intros [= <-].
  - by intros [[= ->] _].
  - done.
  - intros [[= ->] H]. congruence.
Qed.

Lemma objective_time_ok v name z : _time v name = Ok z <-> v = JInt z /\ 0 <= z.
Proof.
  unfold _time. destruct v as [| |y| | |]; try (by split; [|intros [? _]]).
  destruct (Z.ltb_spec y 0); split; try done.
  - intros [[= ->] ?]. lia.
  - by intros [= <-].
  - by intros [[= ->] _].
Qed.

Lemma objective_sha_run name z s : re_sha s = true -> (z = false -> s <> ZERO_SHA256) ->
  _sha (JStr s) name z = Ok s.
Proof. intros. by apply _sha_ok. Qed.

Lemma _text_run name s : bounded_text s = true -> _text (JStr s) name = Ok s.
Proof. intros. by apply _text_ok. Qed.

Lemma objective_time_run name z : 0 <= z -> _time (JInt z) name = Ok z.
Proof. intros. by apply objective_time_ok. Qed.

(** *** The strictest decision *)
Definition rank_of (d : string) : Z := from_ok 0 (decision_rank d).

Lemma rank_ok d : d ∈ map fst DECISION_RANK -> decision_rank d = Ok (rank_of d).
Proof. cbn. intros H. set_unfold in H. by destruct_or? H; subst. Qed.

Lemma rank_inj d d' : d ∈ DECISIONS -> d' ∈ DECISIONS -> rank_of d = rank_of d' -> d = d'.
Proof.
  intros H H'. unfold DECISIONS in *. set_unfold. destruct_or? H; destruct_or? H'; by subst.
Qed.

Lemma decision_max_spec values : Forall (fun v => v ∈ DECISIONS) values ->
  exists d, _decision_max values = Ok d /\ d ∈ DECISIONS
    /\ (d ∈ values \/ values = [] /\ d = "ALLOW")
    /\ Forall (fun v => rank_of v <= rank_of d) values.
Proof.
  destruct values as [|v rest]; cbn [_decision_max]; intros Hall.
  { exists "ALLOW". split_and!; [done|left|by right|done]. }
  apply Forall_cons in Hall as [Hv Hall].
  rewrite (rank_ok v) by exact Hv. rewrite bind_Ok.
  enough (forall b, b ∈ DECISIONS -> exists d,
    fold_r (fun best item => k ← decision_rank item;
              Ok (if snd best <? k then (item, k) else best)) (b, rank_of b) rest = Ok (d, rank_of d)
    /\ d ∈ DECISIONS /\ (d ∈ b :: rest) /\ Forall (fun v => rank_of v <= rank_of d) (b :: rest))
    as Hfold.
  { destruct (Hfold v Hv) as (d & -> & Hd & Hin & Hmax). exists d. cbn. split_and!; try done. by left. }
  clear v Hv. induction Hall as [|x rest Hx Hall IH]; intros b Hb; cbn [fold_r].
  - exists b. split_and!; [done..|left|]. constructor; [lia|done].
  - rewrite (rank_ok x) by exact Hx. rewrite !bind_Ok. cbn [snd].
    destruct (Z.ltb_spec (rank_of b) (rank_of x)) as [Hlt|Hge].
    + destruct (IH x Hx) as (d & -> & Hd & Hin & Hmax). exists d. split_and!; [done..|by right|].
      pose proof (Forall_inv Hmax) as Hxd. cbn beta in Hxd. constructor; [lia|done].
    + destruct (IH b Hb) as (d & -> & Hd & Hin & Hmax). exists d. split_and!; try done.
      * apply elem_of_cons in Hin as [->|Hin]; [left|by right; right].
      * apply Forall_cons in Hmax as [? ?]. repeat constructor; [done|lia|done].
Qed.

(** The result is the decision [c] exactly when [c] bounds every value and is reached. *)
Lemma decision_max_iff values d c : Forall (fun v => v ∈ DECISIONS) values ->
  _decision_max values = Ok d -> c ∈ DECISIONS ->
  d = c <-> (c ∈ values \/ c = "ALLOW") /\ forall v, v ∈ values -> rank_of v <= rank_of c.
Proof.
  intros Hall Hd Hc. destruct (decision_max_spec values Hall) as (d' & Hd' & Hin & Hmem & Hmax).
  rewrite Hd in Hd'. injection Hd' as <-. rewrite Forall_forall in Hmax. split.
  - intros <-. split; [|by intros v; apply Hmax]. destruct Hmem as [|[_ ?]]; [by left|by right].
  - intros [Hc1 Hc2]. apply rank_inj; [done..|].
    assert (rank_of c <= rank_of d).
    { destruct Hc1 as [Hc1| ->]; [by apply Hmax|]. unfold DECISIONS in Hin. set_unfold in Hin.
      destruct_or? Hin; subst d; by vm_compute. }
    destruct Hmem as [Hm|[_ ->]]; [apply Hc2 in Hm; lia|].
    unfold DECISIONS in Hc. set_unfold in Hc. destruct_or? Hc; subst c; by vm_compute.
Qed.

Lemma decision_max_exact values d : Forall (fun v => v ∈ DECISIONS) values ->
  _decision_max values = Ok d ->
  (d = "CONTAIN" <-> "CONTAIN" ∈ values)
  /\ (d = "BLOCK" <-> "BLOCK" ∈ values /\ "CONTAIN" ∉ values)
  /\ (d = "REVISE" <-> "REVISE" ∈ values /\ ("BLOCK" ∉ values) /\ "CONTAIN" ∉ values)
  /\ (d = "ALLOW" <-> ("REVISE" ∉ values) /\ ("BLOCK" ∉ values) /\ "CONTAIN" ∉ values).
Proof.
  intros Hall Hd. pose proof (fun c => decision_max_iff values d c Hall Hd) as Hiff.
  rewrite Forall_forall in Hall.
  assert (forall c (P : string -> Prop), (forall v, v ∈ DECISIONS -> rank_of v <= rank_of c <-> P v) ->
    (forall v, v ∈ values -> rank_of v <= rank_of c) <-> forall v, v ∈ values -> P v) as Hq.
  { intros c P HP. split; intros H v Hv; apply HP; auto. }
  rewrite !Hiff by (by apply mem_true). clear Hiff Hd.
  rewrite (Hq "CONTAIN" (fun _ => True)), (Hq "BLOCK" (fun v => v <> "CONTAIN")),
    (Hq "REVISE" (fun v => v <> "BLOCK" /\ v <> "CONTAIN")),
    (Hq "ALLOW" (fun v => v <> "REVISE" /\ v <> "BLOCK" /\ v <> "CONTAIN")).
  { split_and!; split; intros H; destruct_and? H; split_and?; naive_solver. }
  all: intros v Hv; unfold DECISIONS in Hv; set_unfold in Hv; destruct_or? Hv; subst v;
    vm_compute; intuition congruence.
Qed.

Section lemmas.
Context {hash : Digest}.

(** *** Well-formed rules, policies and observations *)
Record rule_wf (r : ObjectiveMethodRule) : Prop := {
  rw_id : bounded_text (om_rule_id r) = true;
  rw_kind : om_runtime_kind r ∈ CAPABILITY_TYPES;
  rw_code : om_violation_code r ∈ OBJECTIVE_VIOLATIONS;
  rw_decision : om_decision r ∈ ["REVISE"; "BLOCK"; "CONTAIN"];
  rw_scope : re_sha (om_scope_sha256 r) = true;
  rw_payload : re_sha (om_payload_sha256 r) = true
}.

Lemma rule_validate_ok r u : ObjectiveMethodRule_validate r = Ok u <-> rule_wf r.
Proof.
  destruct u. unfold ObjectiveMethodRule_validate. split.
  - intros H. py_inv. apply _text_ok in Hx as [[= <-] ?]. apply _sha_ok in Hx3 as ([= <-] & ? & _).
    apply _sha_ok in Hx4 as ([= <-] & ? & _).
    repeat match goal with H : negb _ = false |- _ => apply negb_false_iff, mem_true in H end.
    by constructor.
  - intros [H1 H2%mem_true H3%mem_true H4%mem_true H5 H6].
    rewrite _text_run, bind_Ok, H2, H3, H4 by done. cbn [negb raise_if].
    by rewrite !bind_Ok, objective_sha_run, bind_Ok, objective_sha_run by done.
Qed.

Record policy_wf (p : ObjectiveMethodPolicy) : Prop := {
  pw_objective : bounded_text (op_objective_id p) = true;
  pw_objective_sha : re_sha (op_objective_sha256 p) = true /\ op_objective_sha256 p <> ZERO_SHA256;
  pw_method : bounded_text (op_method_policy_id p) = true;
  pw_governance : re_sha (op_governance_policy_sha256 p) = true
    /\ op_governance_policy_sha256 p <> ZERO_SHA256;
  pw_kinds : op_allowed_runtime_kinds p ⊆ CAPABILITY_TYPES;
  pw_nonempty : op_allowed_runtime_kinds p <> [];
  pw_rules : Forall rule_wf (op_rules p);
  pw_ids : NoDup (map om_rule_id (op_rules p));
  pw_rule_kinds : Forall (fun r => om_runtime_kind r ∈ op_allowed_runtime_kinds p) (op_rules p);
  pw_sha : exists body, ObjectiveMethodPolicy_body p = Ok body
    /\ op_policy_sha256 p = canonical_sha256 (JObj body)
}.

Lemma policy_sha p : policy_wf p -> re_sha (op_policy_sha256 p) = true.
Proof. intros Hp. destruct (pw_sha p Hp) as (body & _ & ->). apply canonical_sha256_sha. Qed.

Lemma rules_documents rules docs : map_r ObjectiveMethodRule_as_document rules = Ok docs ->
  Forall rule_wf rules.
Proof.
  intros H%map_r_ok. apply Forall_forall. intros r Hr.
  apply list_elem_of_lookup in Hr as [i Hi]. destruct (Forall2_lookup_l _ _ _ _ _ H Hi) as (d & _ & Hd).
  unfold ObjectiveMethodRule_as_document, ObjectiveMethodRule_body in Hd. py_inv.
  by apply rule_validate_ok in Hx0.
Qed.


Lemma known_kinds_ok ks l : known_kinds ks = Some l -> ks = map JStr l /\ l ⊆ CAPABILITY_TYPES.
Proof.
  unfold known_kinds. intros H%mapM_Some_1. induction H as [|k s ks l Hk _ [-> IH]].
  - split; [done|]. apply list_subseteq_nil.
  - destruct k as [| | |x| |]; try done. destruct (mem x CAPABILITY_TYPES) eqn:E; [|done].
    injection Hk as ->. apply mem_true in E. split; [done|]. set_solver.
Qed.

Lemma policy_build_wf oid osha mid gsha ks rules req p :
  ObjectiveMethodPolicy_build oid osha mid gsha ks rules req = Ok p -> policy_wf p.
Proof.
  unfold ObjectiveMethodPolicy_build. intros H. py_inv.
  destruct (known_kinds x) as [kinds|] eqn:Hk; [|done]. py_inv. destruct req as [|b| | | |]; try done.
  py_inv. apply known_kinds_ok in Hk as [-> Hkinds].
  repeat match goal with
  | H : _text _ _ = Ok _ |- _ => apply _text_ok in H as [_ ?]
  | H : _sha _ _ _ = Ok _ |- _ => apply _sha_ok in H as (_ & ? & ?)
  | H : _ || _ = false |- _ => apply orb_false_iff in H as [? ?]
  | H : has_dups _ = false |- _ => apply has_dups_false in H
  | H : bool_decide _ = false |- _ => apply bool_decide_eq_false in H
  end.
  assert (exists docs, map_r ObjectiveMethodRule_as_document (sorted_on om_rule_id rules) = Ok docs)
    as [docs Hdocs].
  { match goal with Hb : ObjectiveMethodPolicy_body _ = Ok _ |- _ =>
      unfold ObjectiveMethodPolicy_body in Hb; cbn in Hb; py_inv end. eauto. }
  constructor; cbn; auto.
  - by intros ->.
  - apply rules_documents in Hdocs. rewrite Forall_forall in Hdocs |- *. intros r Hr.
    by apply Hdocs, elem_of_sorted_on.
  - apply Forall_forall. intros r Hr. match goal with He : existsb _ rules = false |- _ =>
      rewrite <- not_true_iff_false in He end. apply mem_true.
    destruct (mem (om_runtime_kind r) kinds) eqn:E; [done|]. exfalso.
    match goal with He : existsb _ rules <> true |- _ => apply He end.
    apply existsb_exists. exists r. rewrite E. split; [by apply list_elem_of_In|done].
  - eauto.
Qed.

Lemma policy_from_document_wf d p : ObjectiveMethodPolicy_from_document d = Ok p -> policy_wf p.
Proof.
  unfold ObjectiveMethodPolicy_from_document. intros H. py_inv.
  destruct (dict_get_none d "rules"), (dict_get_none d "allowed_runtime_kinds"); try done.
  py_inv. by eapply policy_build_wf.
Qed.

Record observation_wf (o : ObjectiveIntegrityObservation) : Prop := {
  ow_code : oo_violation_code o ∈ OBJECTIVE_VIOLATIONS;
  ow_time : 0 <= oo_observed_at_unix o;
  ow_sha : oo_observation_sha256 o = canonical_sha256 (JObj (ObjectiveIntegrityObservation_body o))
}.

Lemma observation_from_document_wf d o :
  ObjectiveIntegrityObservation_from_document d = Ok o -> observation_wf o.
Proof.
  unfold ObjectiveIntegrityObservation_from_document, ObjectiveIntegrityObservation_build.
  intros H. py_inv.
  repeat match goal with
  | H : _time _ _ = Ok _ |- _ => apply objective_time_ok in H as [_ ?]
  | H : negb (mem _ _) = false |- _ => apply negb_false_iff, mem_true in H
  end.
  by constructor.
Qed.

(** *** The decisions an action collects *)
Definition floor_of (code : string) : string :=
  if mem code CRITICAL_VIOLATIONS then "CONTAIN" else "BLOCK".

Lemma floor_run code : code ∈ OBJECTIVE_VIOLATIONS ->
  _decision_for_violation code = Ok (floor_of code).
Proof. intros H. unfold OBJECTIVE_VIOLATIONS in H. set_unfold in H. by destruct_or? H; subst. Qed.

Lemma floors_run codes : codes ⊆ OBJECTIVE_VIOLATIONS ->
  map_r _decision_for_violation codes = Ok (map floor_of codes).
Proof.
  intros H. apply map_r_ok. induction codes as [|c codes IH]; cbn; [done|].
  constructor; [apply floor_run; set_solver|]. apply IH. set_solver.
Qed.

Lemma floor_cases code : floor_of code = "CONTAIN" /\ code ∈ CRITICAL_VIOLATIONS
  \/ floor_of code = "BLOCK" /\ code ∉ CRITICAL_VIOLATIONS.
Proof.
  unfold floor_of. destruct (mem code _) eqn:E; [left|right]; (split; [done|]).
  - by apply mem_true.
  - by apply mem_false.
Qed.

Section guard_lemmas.
Context {V : Type}.
Implicit Types (g : ObjectiveIntegrityGuard V) (a : ObjectiveAction).

Lemma elem_of_if_nil (b : bool) (c d : string) : d ∈ (if b then [] else [c]) <-> b = false /\ d = c.
Proof. destruct b; set_unfold; naive_solver. Qed.

Lemma elem_of_if_one (b : bool) (c d : string) : d ∈ (if b then [c] else []) <-> b = true /\ d = c.
Proof. destruct b; set_unfold; naive_solver. Qed.

(** The decision and completion documents the guard hands out verify. *)
Definition decision_verifies (r : ObjectiveIntegrityDecision) : Prop :=
  od_decision r ∈ DECISIONS
  /\ verify_decision (ObjectiveIntegrityDecision_as_document r)
     = Ok (ObjectiveIntegrityDecision_as_document r).

Definition completion_verifies (r : ObjectiveCompletionReceipt) : Prop :=
  oc_decision r ∈ DECISIONS
  /\ verify_completion (ObjectiveCompletionReceipt_as_document r)
     = Ok (ObjectiveCompletionReceipt_as_document r).

(** The observation was made under the guard's policy by one of its trusted sources. *)
Definition observation_mine g (o : ObjectiveIntegrityObservation) : Prop :=
  dict_get_none (og_trusted_source_bindings g) (oo_source_id o) = JStr (oo_source_binding_sha256 o)
  /\ oo_objective_id o = op_objective_id (og_policy g)
  /\ oo_method_policy_sha256 o = op_policy_sha256 (og_policy g).

Record guard_inv g : Prop := {
  gi_policy : policy_wf (og_policy g);
  gi_observations : Forall observation_wf (og_observations g);
  gi_mine : Forall (observation_mine g) (og_observations g);
  gi_linked : linked oo_previous_observation_sha256 oo_observation_sha256 ZERO_SHA256
                (og_observations g) (og_observation_head g);
  gi_ids : og_observation_ids g = list_to_set (map oo_observation_id (og_observations g));
  gi_nodup : NoDup (map oo_observation_id (og_observations g));
  gi_times : StronglySorted Z.le (map oo_observed_at_unix (og_observations g));
  gi_last : Forall (fun o => oo_observed_at_unix o <= og_last_observed_at g) (og_observations g);
  gi_decisions : Forall decision_verifies (og_decisions g);
  gi_completions : Forall completion_verifies (og_completions g)
}.

Lemma observed_code_iff g c :
  c ∈ observed_codes g <-> exists o, o ∈ og_observations g /\ oo_violation_code o = c.
Proof. unfold observed_codes. rewrite elem_of_remove_dups, list_elem_of_fmap. naive_solver. Qed.

Lemma observed_codes_known g : guard_inv g -> observed_codes g ⊆ OBJECTIVE_VIOLATIONS.
Proof.
  intros Hg c (o & Ho & <-)%observed_code_iff.
  apply (proj1 (Forall_forall _ _) (gi_observations g Hg)) in Ho. by destruct Ho.
Qed.

Lemma matched_rule_iff p a r :
  r ∈ matched_rules p a <-> r ∈ op_rules p /\ ObjectiveMethodRule_matches r a = true.
Proof. unfold matched_rules. rewrite !list_elem_of_In. apply filter_In. Qed.

Definition critical_seen g : Prop :=
  exists o, o ∈ og_observations g /\ oo_violation_code o ∈ CRITICAL_VIOLATIONS.

Definition noncritical_seen g : Prop :=
  exists o, o ∈ og_observations g /\ oo_violation_code o ∉ CRITICAL_VIOLATIONS.

Lemma seen_iff g : og_observations g <> [] <-> critical_seen g \/ noncritical_seen g.
Proof.
  split.
  - destruct (og_observations g) as [|o l] eqn:E; [done|]. intros _.
    destruct (floor_cases (oo_violation_code o)) as [[_ ?]|[_ ?]]; [left|right]; exists o;
      rewrite E; (split; [left|done]).
  - intros [(o & Ho & _)|(o & Ho & _)] Hn; rewrite Hn in Ho; by apply elem_of_nil in Ho.
Qed.

(** The decisions the observed violation codes call for. *)
Lemma floor_elem g codes d : (forall c, c ∈ codes <-> c ∈ observed_codes g) ->
  d ∈ map floor_of codes <->
  d = "CONTAIN" /\ critical_seen g \/ d = "BLOCK" /\ noncritical_seen g.
Proof.
  intros Hc. rewrite list_elem_of_fmap. split.
  - intros (c & -> & (o & Ho & <-)%Hc%observed_code_iff).
    destruct (floor_cases (oo_violation_code o)) as [[-> ?]|[-> ?]]; [left|right]; (split; [done|by exists o]).
  - intros [[-> (o & Ho & Hv)]|[-> (o & Ho & Hv)]]; exists (oo_violation_code o); rewrite Hc, observed_code_iff;
      destruct (floor_cases (oo_violation_code o)) as [[-> ?]|[-> ?]]; try done; (split; [done|by exists o]).
Qed.

Lemma floors_known codes : Forall (fun v => v ∈ DECISIONS) (map floor_of codes).
Proof.
  apply Forall_forall. intros d (c & -> & _)%list_elem_of_fmap.
  destruct (floor_cases c) as [[-> _]|[-> _]]; by apply mem_true.
Qed.

(** Why an action is contained, blocked or sent back. *)
Definition contain_cause g a : Prop :=
  og_contained g = true
  \/ critical_seen g
  \/ oa_policy_sha256 a <> op_governance_policy_sha256 (og_policy g)
  \/ (exists r, r ∈ op_rules (og_policy g) /\ ObjectiveMethodRule_matches r a = true
        /\ om_decision r = "CONTAIN").

Definition block_cause g a : Prop :=
  noncritical_seen g
  \/ oa_runtime_kind a ∉ op_allowed_runtime_kinds (og_policy g)
  \/ (exists r, r ∈ op_rules (og_policy g) /\ ObjectiveMethodRule_matches r a = true
        /\ om_decision r = "BLOCK").

Definition revise_cause g a : Prop :=
  exists r, r ∈ op_rules (og_policy g) /\ ObjectiveMethodRule_matches r a = true
    /\ om_decision r = "REVISE".

Lemma action_decisions_run g a : guard_inv g -> exists ds, action_decisions g a = Ok ds
  /\ Forall (fun v => v ∈ DECISIONS) ds
  /\ ("CONTAIN" ∈ ds <-> contain_cause g a) /\ ("BLOCK" ∈ ds <-> block_cause g a)
  /\ ("REVISE" ∈ ds <-> revise_cause g a).
Proof.
  intros Hg. unfold action_decisions. rewrite floors_run by (by apply observed_codes_known).
  rewrite bind_Ok. eexists. split; [reflexivity|].
  assert (forall d, d ∈ map om_decision (matched_rules (og_policy g) a) <->
    exists r, r ∈ op_rules (og_policy g) /\ ObjectiveMethodRule_matches r a = true /\ om_decision r = d)
    as Hrule.
  { intros d. rewrite list_elem_of_fmap. setoid_rewrite matched_rule_iff. naive_solver. }
  split.
  { rewrite !Forall_app. split_and!; apply Forall_forall; intros d Hd.
    - by apply (proj1 (Forall_forall _ _) (floors_known _)) in Hd.
    - apply elem_of_if_one in Hd as [_ ->]. by apply mem_true.
    - apply elem_of_if_nil in Hd as [_ ->]. by apply mem_true.
    - apply elem_of_if_nil in Hd as [_ ->]. by apply mem_true.
    - apply Hrule in Hd as (r & Hr & _ & <-).
      pose proof (proj1 (Forall_forall _ _) (pw_rules _ (gi_policy g Hg)) r Hr) as Hw.
      apply rw_decision in Hw. set_unfold in Hw. destruct_or? Hw; rewrite Hw; by apply mem_true. }
  rewrite !elem_of_app, !(floor_elem g), !Hrule by done.
  rewrite !elem_of_if_nil, !elem_of_if_one, String.eqb_neq, mem_false.
  unfold contain_cause, block_cause, revise_cause. clear Hrule.
  assert ("BLOCK" <> "CONTAIN" /\ "REVISE" <> "CONTAIN" /\ "REVISE" <> "BLOCK"
          /\ "CONTAIN" <> "BLOCK") as (? & ? & ? & ?) by done.
  split_and!; naive_solver.
Qed.

(** The decision [d] names the gravest cause. *)
Definition decision_explained g a (d : string) : Prop :=
  (d = "CONTAIN" <-> contain_cause g a)
  /\ (d = "BLOCK" <-> block_cause g a /\ ~ contain_cause g a)
  /\ (d = "REVISE" <-> revise_cause g a /\ ~ block_cause g a /\ ~ contain_cause g a)
  /\ (d = "ALLOW" <-> ~ revise_cause g a /\ ~ block_cause g a /\ ~ contain_cause g a).

Lemma action_decision_run g a : guard_inv g -> exists ds d,
  action_decisions g a = Ok ds /\ _decision_max ds = Ok d /\ d ∈ DECISIONS
  /\ decision_explained g a d.
Proof.
  intros Hg. destruct (action_decisions_run g a Hg) as (ds & Hds & Hall & Hc & Hb & Hr).
  destruct (decision_max_spec ds Hall) as (d & Hd & Hin & _). exists ds, d. split_and!; [done..|].
  unfold decision_explained. rewrite <- Hc, <- Hb, <- Hr. by apply decision_max_exact.
Qed.

Lemma action_violations_known g a : guard_inv g -> action_violations g a ⊆ OBJECTIVE_VIOLATIONS.
Proof.
  intros Hg c. unfold action_violations. rewrite !elem_of_app, !elem_of_if_nil.
  intros [Hc|[[_ ->]|[[_ ->]|Hc]]].
  - by apply (observed_codes_known g Hg).
  - by apply mem_true.
  - by apply mem_true.
  - apply list_elem_of_fmap in Hc as (r & -> & Hr). apply matched_rule_iff in Hr as [Hr _].
    apply (proj1 (Forall_forall _ _) (pw_rules _ (gi_policy g Hg))) in Hr. by apply rw_code.
Qed.

(** An allowed action shows no violation. *)
Lemma allow_no_violation g a : guard_inv g -> decision_explained g a "ALLOW" ->
  action_violations g a = [].
Proof.
  intros Hg (_ & _ & _ & HA). destruct (proj1 HA eq_refl) as (Hr & Hb & Hc). clear HA.
  apply list_nil_subseteq. intros c. unfold action_violations.
  rewrite !elem_of_app, !elem_of_if_nil, String.eqb_neq, mem_false.
  intros [Ho|[[Hp _]|[[Hk _]|Hm]]]; exfalso.
  - apply observed_code_iff in Ho as (o & Ho & <-).
    destruct (proj1 (seen_iff g)) as [Hs|Hs].
    + intros Hn. rewrite Hn in Ho. by apply elem_of_nil in Ho.
    + apply Hc. by right; left.
    + apply Hb. by left.
  - apply Hc. by do 2 right; left.
  - apply Hb. by right; left.
  - apply list_elem_of_fmap in Hm as (r & -> & Hm). apply matched_rule_iff in Hm as [Hin Hm].
    pose proof (proj1 (Forall_forall _ _) (pw_rules _ (gi_policy g Hg)) r Hin) as Hw.
    apply rw_decision in Hw. set_unfold in Hw. destruct_or? Hw.
    + apply Hr. by exists r.
    + apply Hb. right. right. by exists r.
    + apply Hc. right. right. right. by exists r.
Qed.

Lemma identifier_rejected s name : re_ident s = false ->
  exists m, _identifier (JStr s) name = fail ContractError m.
Proof.
  intros Hs. unfold _identifier, _string. destruct (_ || _ || _); [eexists; reflexivity|].
  rewrite bind_Ok, Hs. eexists. reflexivity.
Qed.

(** The Phase 0 validation of a decision fails only on the objective's identifier. *)
Lemma phase0_run g vs d e : guard_inv g -> vs ⊆ OBJECTIVE_VIOLATIONS -> d ∈ DECISIONS ->
  (d = "ALLOW" -> vs = []) -> re_sha e = true ->
  if re_ident (op_objective_id (og_policy g))
  then exists doc, validate_objective_integrity (JObj (phase0_document g vs d e)) = Ok doc
  else exists m, validate_objective_integrity (JObj (phase0_document g vs d e))
                 = fail ContractError m.
Proof.
  intros Hg Hvs Hd Hne He.
  unfold validate_objective_integrity, _mapping. rewrite bind_Ok.
  replace (Contracts._exact (phase0_document g vs d e) _ "objective_integrity")
    with (Ok tt) by (by vm_compute).
  replace (envelope_ok (phase0_document g vs d e) _ _) with true by (by vm_compute).
  rewrite bind_Ok, raise_if_false, bind_Ok by done. cbv zeta.
  assert (forall v, v ∈ OBJECTIVE_VIOLATIONS -> re_ident v = true) as Hid.
  { apply Forall_forall. by repeat constructor. }
  rewrite (sorted_unique_field _ _ (sorted_set vs)); [|reflexivity|..].
  2: { apply Forall_forall. intros v Hv. apply Hid, Hvs. by apply elem_of_sorted_set. }
  2: apply NoDup_sorted_set.
  2: unfold sorted_set; apply sorted_str_idemp.
  rewrite bind_Ok.
  rewrite (proj2 (sorted_diff_nil _ _)) by (intros v Hv; apply Hvs; by apply elem_of_sorted_set).
  rewrite raise_if_false, bind_Ok by done. apply mem_true in Hd.
  rewrite (_string_field _ "decision" d), bind_Ok by eauto using mem_decision_good.
  rewrite (raise_if_false (negb (mem d DECISIONS))), bind_Ok by (by rewrite Hd).
  rewrite raise_if_false, bind_Ok.
  2: { destruct (String.eqb_spec d "ALLOW") as [->|]; [|by rewrite andb_false_r]. by rewrite Hne. }
  replace (dict_get_none (phase0_document g vs d e) "objective_id")
    with (JStr (op_objective_id (og_policy g))) by done.
  destruct (re_ident (op_objective_id (og_policy g))) eqn:Hi.
  - rewrite (_identifier_field _ "objective_id" (op_objective_id (og_policy g))), bind_Ok by done.
    rewrite (_sha_field _ "method_policy_sha256" (op_policy_sha256 (og_policy g))), bind_Ok
      by (done || by apply policy_sha, gi_policy).
    rewrite (_sha_field _ "evidence_sha256" e), bind_Ok by done. eexists. reflexivity.
  - destruct (identifier_rejected _ "objective_id" Hi) as [m ->]. by exists m.
Qed.

(** *** Evaluating an action *)
Lemma decision_invalid_known raw d : dict_get_none raw "decision" = JStr d -> d ∈ DECISIONS ->
  decision_invalid raw = Ok false.
Proof.
  intros Hr Hd. unfold decision_invalid. rewrite Hr. unfold DECISIONS in Hd. set_unfold in Hd.
  by destruct_or? Hd; rewrite Hd.
Qed.

Lemma verify_decision_run r : od_decision r ∈ DECISIONS ->
  od_receipt_sha256 r = canonical_sha256 (JObj (ObjectiveIntegrityDecision_body r)) ->
  decision_verifies r.
Proof.
  intros Hd Hs. split; [done|]. unfold verify_decision.
  rewrite (eq_refl : dict_del (ObjectiveIntegrityDecision_as_document r) "receipt_sha256"
    = ObjectiveIntegrityDecision_body r).
  rewrite (eq_refl : dict_get_none (ObjectiveIntegrityDecision_as_document r) "receipt_sha256"
    = JStr (od_receipt_sha256 r)).
  rewrite (decision_invalid_known _ (od_decision r)) by done.
  replace (envelope_ok (ObjectiveIntegrityDecision_body r) DECISION_SCHEMA AUTHORITY) with true
    by (by vm_compute).
  cbn [negb raise_if is_str]. by rewrite !bind_Ok, Hs, String.eqb_refl.
Qed.

Lemma verify_completion_run r : oc_decision r ∈ DECISIONS ->
  oc_receipt_sha256 r = canonical_sha256 (JObj (ObjectiveCompletionReceipt_body r)) ->
  completion_verifies r.
Proof.
  intros Hd Hs. split; [done|]. unfold verify_completion.
  rewrite (eq_refl : dict_del (ObjectiveCompletionReceipt_as_document r) "receipt_sha256"
    = ObjectiveCompletionReceipt_body r).
  rewrite (eq_refl : dict_get_none (ObjectiveCompletionReceipt_as_document r) "receipt_sha256"
    = JStr (oc_receipt_sha256 r)).
  rewrite (decision_invalid_known _ (oc_decision r)) by done.
  replace (envelope_ok (ObjectiveCompletionReceipt_body r) COMPLETION_SCHEMA AUTHORITY) with true
    by (by vm_compute).
  cbn [negb raise_if is_str]. by rewrite !bind_Ok, Hs, String.eqb_refl.
Qed.

Lemma evaluate_run a g : guard_inv g -> ObjectiveAction_validate a = Ok tt ->
  if re_ident (op_objective_id (og_policy g))
  then exists r, evaluate_action a g
         = (Ok (ObjectiveIntegrityDecision_as_document r), push_decision r g)
       /\ decision_explained g a (od_decision r) /\ decision_verifies r
  else exists m, evaluate_action a g = (fail ContractError m, g).
Proof.
  intros Hg Ha. destruct (action_decision_run g a Hg) as (ds & d & Hds & Hd & Hin & Hex).
  assert (d = "ALLOW" -> action_violations g a = []) as Hne.
  { intros ->. by apply allow_no_violation. }
  pose proof (phase0_run g (action_violations g a) d (action_evidence g a) Hg
    (action_violations_known g a Hg) Hin Hne (canonical_sha256_sha _)) as Hp.
  unfold evaluate_action. M_go Ha. M_go Hds. M_go Hd.
  destruct (re_ident _); destruct Hp as [x Hp]; M_go Hp.
  - M_go. eexists. split; [reflexivity|]. split; [exact Hex|]. by apply verify_decision_run.
  - by exists x.
Qed.

(** *** Completion *)

(** The arguments [verify_completion] accepts. *)
Definition completion_arguments (res trajectory evidence : string) (at_unix : Z) : result unit :=
  _ ← _sha (JStr res) "result_sha256" false;
  _ ← _sha (JStr trajectory) "trajectory_sha256" true;
  _ ← _sha (JStr evidence) "method_evidence_sha256" true;
  _ ← _time (JInt at_unix) "at_unix";
  Ok tt.

Lemma completion_arguments_ok res trajectory evidence at_unix u :
  completion_arguments res trajectory evidence at_unix = Ok u ->
  re_sha res = true /\ res <> ZERO_SHA256 /\ re_sha trajectory = true /\ re_sha evidence = true
  /\ 0 <= at_unix.
Proof.
  unfold completion_arguments. intros H. py_inv.
  repeat match goal with H : _sha _ _ _ = Ok _ |- _ => apply _sha_ok in H as ([= ->] & ? & ?) end.
  match goal with H : _time _ _ = Ok _ |- _ => apply objective_time_ok in H as [[= ->] ?] end. auto 10.
Qed.

Definition completion_explained g (missing : bool) (d : string) : Prop :=
  (d = "CONTAIN" <-> og_contained g = true \/ critical_seen g)
  /\ (d = "BLOCK" <-> (noncritical_seen g \/ missing = true)
                     /\ ~ (og_contained g = true \/ critical_seen g))
  /\ (d = "ALLOW" <-> og_contained g = false /\ og_observations g = [] /\ missing = false).

Lemma completion_run g res trajectory evidence at_unix : guard_inv g ->
  re_sha res = true -> res <> ZERO_SHA256 -> re_sha trajectory = true -> re_sha evidence = true ->
  0 <= at_unix ->
  exists r, ObjectiveIntegrityGuard_verify_completion res trajectory evidence at_unix g
      = (Ok (ObjectiveCompletionReceipt_as_document r), push_completion r g)
    /\ completion_explained g (evidence_missing g trajectory evidence) (oc_decision r)
    /\ completion_verifies r.
Proof.
  intros Hg Hr Hz Ht He Ha. unfold ObjectiveIntegrityGuard_verify_completion.
  M_go (objective_sha_run "result_sha256" false res Hr (fun _ => Hz)).
  M_go (objective_sha_run "trajectory_sha256" true trajectory Ht (fun H => False_ind _ (diff_true_false H))).
  M_go (objective_sha_run "method_evidence_sha256" true evidence He (fun H => False_ind _ (diff_true_false H))).
  M_go (objective_time_run "at_unix" at_unix Ha). M_go.
  assert (sorted_set (observed_codes g) ⊆ OBJECTIVE_VIOLATIONS) as Hk.
  { intros c Hc. apply (observed_codes_known g Hg c). by apply (proj1 (elem_of_sorted_set _ _)). }
  M_go (floors_run _ Hk). set (ds := map floor_of _ ++ _).
  assert (Forall (fun v => v ∈ DECISIONS) ds) as Hall.
  { unfold ds. rewrite !Forall_app. split_and!; [apply floors_known| |];
      (apply Forall_forall; intros d [_ ->]%elem_of_if_one; by apply mem_true). }
  destruct (decision_max_spec ds Hall) as (d & Hd & Hin & _). M_go Hd.
  eexists. split; [reflexivity|]. split; [|by apply verify_completion_run].
  cbn [seal_completion oc_decision]. apply decision_max_exact in Hd as (HC & HB & _ & HA); [|done].
  assert (forall v, v ∈ ds <-> (v = "CONTAIN" /\ critical_seen g \/ v = "BLOCK" /\ noncritical_seen g)
    \/ (og_contained g = true /\ v = "CONTAIN")
    \/ (evidence_missing g trajectory evidence = true /\ v = "BLOCK")) as Hds.
  { intros v. unfold ds. rewrite !elem_of_app, !elem_of_if_one, (floor_elem g); [done|].
    intros c. apply elem_of_sorted_set. }
  rewrite !Hds in HC. rewrite !Hds in HB. rewrite !Hds in HA.
  assert (og_observations g = [] <-> ~ (critical_seen g \/ noncritical_seen g)) as Hn.
  { rewrite <- seen_iff. destruct (og_observations g); naive_solver. }
  unfold completion_explained. rewrite HC, HB, HA, Hn, <- !not_true_iff_false. clear -V.
  assert ("BLOCK" <> "CONTAIN" /\ "REVISE" <> "CONTAIN" /\ "REVISE" <> "BLOCK"
          /\ "CONTAIN" <> "BLOCK") as (? & ? & ? & ?) by done.
  split_and!; naive_solver.
Qed.

(** *** What the methods keep *)

(** The policy and the trusted sources never change, observations are never dropped,
    and the logs stay sound. *)
Definition guard_ok g g' : Prop :=
  og_policy g' = og_policy g
  /\ og_trusted_source_bindings g' = og_trusted_source_bindings g
  /\ og_observations g `prefix_of` og_observations g'
  /\ (guard_inv g -> guard_inv g').

#[export] Instance guard_ok_preorder : PreOrder guard_ok.
Proof.
  split; [by intros g|]. intros g1 g2 g3 (P1 & B1 & O1 & I1) (P2 & B2 & O2 & I2).
  split_and!; [congruence..|by etrans|auto].
Qed.

Lemma push_decision_ok g r : (guard_inv g -> decision_verifies r) -> guard_ok g (push_decision r g).
Proof.
  intros Hr. split_and!; [done..|]. intros Hg. pose proof (Hr Hg). destruct Hg. constructor; try done.
  apply Forall_app. split; [done|]. by apply Forall_singleton.
Qed.

Lemma push_completion_ok g r :
  (guard_inv g -> completion_verifies r) -> guard_ok g (push_completion r g).
Proof.
  intros Hr. split_and!; [done..|]. intros Hg. pose proof (Hr Hg). destruct Hg. constructor; try done.
  apply Forall_app. split; [done|]. by apply Forall_singleton.
Qed.

Lemma set_containment_ok g b evidence : guard_ok g (set_containment b evidence g).
Proof. split_and!; [done..|]. intros []. by constructor. Qed.

Lemma push_observation_ok g o : observation_wf o -> observation_mine g o ->
  oo_observation_id o ∉ og_observation_ids g ->
  oo_previous_observation_sha256 o = og_observation_head g ->
  og_last_observed_at g <= oo_observed_at_unix o -> guard_ok g (push_observation o g).
Proof.
  intros Ho Hm Hid Hprev Htime. split_and!; [done..|by eexists|]. intros [Hp Hw Hmine Hl Hids Hnd Ht Hlast Hd Hc].
  constructor; cbn [push_observation og_policy og_observations og_observation_head og_observation_ids
    og_last_observed_at og_decisions og_completions]; try done.
  - apply Forall_app. split; [done|]. by apply Forall_singleton.
  - apply Forall_app. split; [done|]. by apply Forall_singleton.
  - by apply linked_snoc with (og_observation_head g).
  - rewrite map_app, list_to_set_app_L, Hids. cbn. set_solver.
  - rewrite map_app. apply NoDup_app. split_and!; [done| |by apply NoDup_singleton].
    intros x Hx ->%list_elem_of_singleton. apply Hid. rewrite Hids. by apply elem_of_list_to_set.
  - rewrite map_app. apply StronglySorted_app_2; [|done|by repeat constructor].
    intros x y (o' & -> & Ho')%list_elem_of_fmap ->%list_elem_of_singleton.
    apply (proj1 (Forall_forall _ _) Hlast) in Ho'. lia.
  - apply Forall_app. split; [|by repeat constructor].
    eapply Forall_impl; [exact Hlast|]. cbn. lia.
Qed.

Lemma evaluate_ok a : evolves guard_ok (evaluate_action (V := V) a).
Proof.
  intros g. remember (evaluate_action a g) as f eqn:Hf. unfold evaluate_action in Hf.
  M_run Hf. destruct (ObjectiveAction_validate a) as [u|]; [|by subst].
  M_run Hf. destruct (action_decisions g a) as [ds|] eqn:Hds; [|by subst].
  M_run Hf. destruct (_decision_max ds) as [d|] eqn:Hd; [|by subst].
  M_run Hf. destruct (validate_objective_integrity _) as [p|]; [|by subst].
  M_run Hf. subst f. apply push_decision_ok. intros Hg. apply verify_decision_run; [|done]. cbn.
  destruct (action_decision_run g a Hg) as (ds' & d' & Hds' & Hd' & Hin & _).
  rewrite Hds in Hds'. injection Hds' as <-. rewrite Hd in Hd'. by injection Hd' as <-.
Qed.

Lemma complete_ok res trajectory evidence at_unix :
  evolves guard_ok (ObjectiveIntegrityGuard_verify_completion (V := V) res trajectory evidence at_unix).
Proof.
  intros g. remember (ObjectiveIntegrityGuard_verify_completion _ _ _ _ g) as f eqn:Hf.
  pose proof Hf as Hf'. unfold ObjectiveIntegrityGuard_verify_completion in Hf'.
  M_run Hf'. destruct (_sha (JStr res) _ _) as [r|] eqn:Hr; [|by rewrite Hf'].
  M_run Hf'. destruct (_sha (JStr trajectory) _ _) as [t|] eqn:Ht; [|by rewrite Hf'].
  M_run Hf'. destruct (_sha (JStr evidence) _ _) as [e|] eqn:He; [|by rewrite Hf'].
  M_run Hf'. destruct (_time _ _) as [z|] eqn:Hz; [|by rewrite Hf'].
  apply _sha_ok in Hr as ([= <-] & Hr & Hr0), Ht as ([= <-] & Ht & _), He as ([= <-] & He & _).
  apply objective_time_ok in Hz as [[= <-] Hz].
  M_run Hf'. destruct (map_r _ _) as [ds|] eqn:Hds; [|by rewrite Hf'].
  M_run Hf'. destruct (_decision_max _) as [d|] eqn:Hd; [|by rewrite Hf'].
  M_run Hf'. rewrite Hf'. apply push_completion_ok. intros Hg.
  destruct (completion_run g res trajectory evidence at_unix Hg Hr (Hr0 eq_refl) Ht He Hz)
    as (r' & Hrun & _ & Hv).
  rewrite <- Hf, Hf' in Hrun. apply (f_equal snd), (f_equal og_completions) in Hrun.
  by apply app_inj_tail in Hrun as [_ ->].
Qed.

Lemma containment_guard_ok (b : bool) sha :
  evolves (guard_ok) (if b then enter_containment (V := V) sha else exit_containment sha).
Proof.
  destruct b; (intros g; unfold enter_containment, exit_containment; rewrite M_lift;
    destruct (_sha _ _ _); [apply set_containment_ok|reflexivity]).
Qed.
End guard_lemmas.

(** Containment or a critical observation decides alone. *)
Lemma evaluate_contained {V} (g : ObjectiveIntegrityGuard V) a doc : guard_inv g ->
  og_contained g = true \/ critical_seen g -> fst (evaluate_action a g) = Ok doc ->
  dict_get doc "decision" = Some (JStr "CONTAIN").
Proof.
  intros Hg Hc H. destruct (ObjectiveAction_validate a) as [[]|e] eqn:Ha.
  2: { unfold evaluate_action in H. by rewrite M_lift, Ha in H. }
  pose proof (evaluate_run a g Hg Ha) as Hrun. destruct (re_ident _).
  - destruct Hrun as (r & Hr & (HC & _) & _). rewrite Hr in H. injection H as <-. cbn.
    rewrite (proj2 HC); [done|]. unfold contain_cause. naive_solver.
  - destruct Hrun as (m & Hr). by rewrite Hr in H.
Qed.

Lemma completion_contained {V} (g : ObjectiveIntegrityGuard V) res trajectory evidence at_unix doc :
  guard_inv g -> og_contained g = true \/ critical_seen g ->
  fst (ObjectiveIntegrityGuard_verify_completion res trajectory evidence at_unix g) = Ok doc ->
  dict_get doc "decision" = Some (JStr "CONTAIN").
Proof.
  intros Hg Hc H.
  assert (exists u, completion_arguments res trajectory evidence at_unix = Ok u) as [u Hu].
  { unfold ObjectiveIntegrityGuard_verify_completion in H. M_run H. unfold completion_arguments.
    destruct (_sha (JStr res) _ _); [|done]. M_run H. destruct (_sha (JStr trajectory) _ _); [|done].
    M_run H. destruct (_sha (JStr evidence) _ _); [|done]. M_run H.
    destruct (_time _ _); [|done]. by eexists. }
  apply completion_arguments_ok in Hu as (Hr & Hz & Ht & He & Ha).
  destruct (completion_run g res trajectory evidence at_unix Hg Hr Hz Ht He Ha) as (r & Hrun & (HC & _) & _).
  rewrite Hrun in H. injection H as <-. cbn. by rewrite (proj2 HC).
Qed.

(** *** Hosts of a guard *)
Section host_lemmas.
Context {V S : Type} {vops : VerifierOps V S} {L : Lens S (ObjectiveIntegrityGuard V)}.

Definition host_guard_ok (s s' : S) : Prop :=
  guard_ok (V := V) (lget s) (lget s').

#[export] Instance host_guard_ok_preorder : PreOrder host_guard_ok.
Proof. split; [by intros s|]. unfold host_guard_ok. intros s1 s2 s3. by etrans. Qed.

Lemma ingest_ok doc : (forall v d, evolves host_guard_ok (verify_observation_with v d)) ->
  evolves host_guard_ok (ingest_observation (V := V) doc).
Proof.
  intros Hv s. unfold ingest_observation. M_go.
  destruct (ObjectiveIntegrityObservation_from_document doc) as [o|] eqn:Ho; [|reflexivity]. M_go.
  destruct (match _ with JNull => true | _ => false end); cbn [raise_if fail]; [reflexivity|]. M_go.
  destruct (is_str _ _) eqn:Hb; cbn [negb raise_if fail]; [|reflexivity].
  apply observation_from_document_wf in Ho.
  rewrite M_bind_eq.
  set (verified := match og_verify_observation _ with Some _ => _ | None => _ end).
  assert (evolves host_guard_ok verified) as Hver.
  { unfold verified. destruct (og_verify_observation _) as [v|]; [|evolve_step].
    evolve_step; [apply Hv|]. evolve_step. }
  specialize (Hver s). destruct (verified s) as [[b|e] s1]; cbn [snd] in Hver; [|exact Hver].
  clear verified. M_go. destruct b; cbn [negb raise_if fail]; [|exact Hver]. M_go.
  destruct (String.eqb_spec (oo_objective_id o) (op_objective_id (og_policy (lget s1)))) as [Hoid|];
    cbn [negb raise_if fail]; [|exact Hver]. M_go.
  destruct (String.eqb_spec (oo_method_policy_sha256 o) (op_policy_sha256 (og_policy (lget s1)))) as [Hsha|];
    cbn [negb raise_if fail]; [|exact Hver]. M_go.
  destruct (bool_decide_reflect (oo_observation_id o ∈ og_observation_ids (lget s1))) as [|Hnew];
    cbn [raise_if fail]; [exact Hver|]. M_go.
  destruct (String.eqb_spec (oo_previous_observation_sha256 o) (og_observation_head (lget s1))) as [Hprev|];
    cbn [negb raise_if fail]; [|exact Hver]. M_go.
  destruct (Z.ltb_spec (oo_observed_at_unix o) (og_last_observed_at (lget s1))) as [|Htime];
    cbn [raise_if fail]; [exact Hver|]. M_go.
  assert (guard_ok (lget s1) (push_observation o (lget s1))) as Hpush.
  { apply push_observation_ok; try done. destruct Hver as (_ & Hbind & _).
    split; [|done]. rewrite Hbind. by destruct (dict_get_none _ _); try done;
      apply String.eqb_eq in Hb as ->. }
  destruct (_decision_for_violation _); unfold host_guard_ok; cbn; rewrite lget_lput;
    (etrans; [exact Hver|exact Hpush]).
Qed.

(** One step of a host: a call of the guard, whose verifier respects the guard's state,
    or a step of the host that leaves it sound. *)
Inductive objective_step (s : S) : S -> Prop :=
  | os_ingest doc : (forall v d, evolves host_guard_ok (verify_observation_with v d)) ->
      objective_step s (snd (ingest_observation (V := V) doc s))
  | os_evaluate a : objective_step s (snd (on (evaluate_action (V := V) a) s))
  | os_operation op : objective_step s (snd (on (evaluate_operation (V := V) op) s))
  | os_complete res trajectory evidence at_unix : objective_step s
      (snd (on (ObjectiveIntegrityGuard_verify_completion (V := V) res trajectory evidence at_unix) s))
  | os_enter sha : objective_step s (snd (on (enter_containment (V := V) sha) s))
  | os_exit sha : objective_step s (snd (on (exit_containment (V := V) sha) s))
  | os_host s' : host_guard_ok s s' -> objective_step s s'.

Lemma operation_ok op : evolves guard_ok (evaluate_operation (V := V) op).
Proof. unfold evaluate_operation. evolve_step; [evolve_step|]. apply evaluate_ok. Qed.

Lemma objective_step_ok s s' : objective_step s s' -> host_guard_ok s s'.
Proof.
  destruct 1 as [doc Hv|a|op|? ? ? ?|sha|sha|s' H].
  - by apply ingest_ok.
  - apply (evolves_on _ _ (evaluate_ok a)).
  - apply (evolves_on _ _ (operation_ok op)).
  - apply (evolves_on _ _ (complete_ok _ _ _ _)).
  - apply (evolves_on _ _ (containment_guard_ok true sha)).
  - apply (evolves_on _ _ (containment_guard_ok false sha)).
  - exact H.
Qed.

Lemma star_objective_ok s s' : star objective_step s s' -> host_guard_ok s s'.
Proof. induction 1; [reflexivity|]. etrans; [done|]. by apply objective_step_ok. Qed.
End host_lemmas.

(** A new guard satisfies the invariant when its policy was built or parsed. *)
Lemma init_guard_inv {V} (policy : ObjectiveMethodPolicy + dict) bindings (v : option V) g :
  (forall p, policy = inl p -> policy_wf p) ->
  ObjectiveIntegrityGuard_init policy bindings v = Ok g -> guard_inv g.
Proof.
  unfold ObjectiveIntegrityGuard_init. intros Hp H. py_inv. constructor; cbn; try by constructor.
  destruct policy as [p|d]; [py_inv; by apply Hp|by eapply policy_from_document_wf].
Qed.
End lemmas.

(** *** The guarded mediator *)
Section guarded_lemmas.
Context {hash : Digest} {V B G S : Type} {bops : BrokerOps B}.
Context {L : Lens S (ObjectiveGuardedRuntimeMediator V B G)}.
Implicit Types (op : RuntimeOperation) (ex : RuntimeOperation -> M S exec_result).

(** The guard's verdict on the operation, and the host after it. *)
Definition gate_verdict op : M S dict :=
  on (H := guard_of (B := B) (G := G)) (evaluate_operation (V := V) op).

Definition gate_allows op (s : S) : Prop :=
  exists doc, fst (gate_verdict op s) = Ok doc /\ dict_get doc "decision" = Some (JStr "ALLOW").

Lemma gate_delegate op (s : S) :
  gm_delegate (lget (T := ObjectiveGuardedRuntimeMediator V B G) (snd (gate_verdict op s)))
  = gm_delegate (lget s).
Proof.
  unfold gate_verdict. rewrite on_run. destruct (evaluate_operation op _) as [r g]. cbn.
  by rewrite lget_lput.
Qed.

(** [_finish_blocked] records a block and leaves guard and delegate alone. *)
Lemma finish_blocked_shows act kind gate at_unix m doc m' :
  _finish_blocked (V := V) (B := B) (G := G) act kind gate at_unix m = (Ok doc, m') ->
  blocked doc /\ gm_delegate m' = gm_delegate m /\ gm_guard m' = gm_guard m.
Proof.
  unfold _finish_blocked. intros H. M_run H. destruct (str_item _ _); [|done].
  M_run H. destruct (merged_codes _ _); [|done]. M_run H. destruct (dict_item _ _); [|done].
  M_run H. injection H as <- <-. done.
Qed.

Lemma finish_delegated_shows act kind gate runtime at_unix m doc m' :
  _finish_delegated (V := V) (B := B) (G := G) act kind gate runtime at_unix m = (Ok doc, m') ->
  dict_get doc "admission_decision" = dict_get runtime "admission_decision"
  /\ dict_get doc "execution_outcome" = dict_get runtime "execution_outcome"
  /\ dict_get doc "objective_decision" = dict_get gate "decision".
Proof.
  unfold _finish_delegated. intros H. M_run H. destruct (merged_codes _ _); [|done].
  M_run H. destruct (dict_item gate "receipt_sha256"); [|done].
  M_run H. destruct (dict_item runtime "receipt_sha256"); [|done].
  M_run H. destruct (dict_item gate "decision") eqn:Hd; [|done].
  M_run H. destruct (dict_item runtime "admission_decision") eqn:Ha; [|done].
  M_run H. destruct (dict_item runtime "execution_outcome") eqn:Ho; [|done].
  M_run H. injection H as <- <-. apply dict_item_ok in Hd as ->, Ha as ->, Ho as ->. done.
Qed.

Lemma guarded_run op ex s :
  ObjectiveGuardedRuntimeMediator_mediate (V := V) op ex s =
  match gate_verdict op s with
  | (Err e, s1) => (Err e, s1)
  | (Ok gate, s1) =>
      match dict_item gate "decision" with
      | Err e => (Err e, s1)
      | Ok decision =>
          if negb (is_str decision "ALLOW") then
            on (T := ObjectiveGuardedRuntimeMediator V B G)
              (_finish_blocked (ro_operation_id op) (ro_kind op) gate (ro_at_unix op)) s1
          else match mediate (L := delegate_of (V := V)) op ex s1 with
               | (Err e, s2) => (Err e, s2)
               | (Ok runtime, s2) => on (T := ObjectiveGuardedRuntimeMediator V B G)
                   (_finish_delegated (ro_operation_id op) (ro_kind op) gate runtime (ro_at_unix op)) s2
               end
      end
  end.
Proof.
  unfold ObjectiveGuardedRuntimeMediator_mediate. rewrite M_bind_eq. unfold gate_verdict.
  destruct (on _ s) as [[gate|e] s1]; [|done]. rewrite M_lift.
  destruct (dict_item gate "decision") as [d|]; [|done]. by destruct (negb _).
Qed.

Lemma guarded_blocked op s :
  ~ (gate_allows op s /\ admitted (L := delegate_of (V := V)) op (snd (gate_verdict op s))) ->
  (forall ex ex', ObjectiveGuardedRuntimeMediator_mediate (V := V) op ex s
                  = ObjectiveGuardedRuntimeMediator_mediate (V := V) op ex' s)
  /\ forall ex doc s', ObjectiveGuardedRuntimeMediator_mediate (V := V) op ex s = (Ok doc, s') ->
     blocked doc /\ (~ gate_allows op s ->
       gm_delegate (lget (T := ObjectiveGuardedRuntimeMediator V B G) s') = gm_delegate (lget s)).
Proof.
  intros Hn. setoid_rewrite guarded_run.
  pose proof (gate_delegate op s) as Hdel. unfold gate_allows in *.
  destruct (gate_verdict op s) as [[gate|e] s1]; cbn [fst snd] in *; [|by split].
  destruct (dict_item gate "decision") as [d|] eqn:Hd; [|by split]. apply dict_item_ok in Hd.
  destruct (is_str d "ALLOW") eqn:Ha; cbn [negb].
  - assert (dict_get gate "decision" = Some (JStr "ALLOW")) as Hallow.
    { rewrite Hd. destruct d; try done. by apply String.eqb_eq in Ha as ->. }
    destruct (not_admitted_blocked (L := delegate_of (V := V)) op s1) as [Hsame Hblock].
    { intros Hadm. apply Hn. eauto. }
    split; [intros ex ex'; by rewrite (Hsame ex ex')|]. intros ex doc s'.
    destruct (mediate op ex s1) as [[runtime|e] s2] eqn:Hm; [|done]. apply Hblock in Hm as [Hb1 Hb2].
    rewrite on_run. destruct (_finish_delegated _ _ _ _ _ _) as [[doc'|] m'] eqn:Hf; [|done].
    intros [= <- <-]. apply finish_delegated_shows in Hf as (H1 & H2 & _). split.
    + split; congruence.
    + intros []. eauto.
  - split; [done|]. intros _ doc s'. rewrite on_run.
    destruct (_finish_blocked _ _ _ _ _) as [[doc'|] m'] eqn:Hf; [|done]. intros [= <- <-].
    apply finish_blocked_shows in Hf as (Hb & Hdl & _). split; [done|]. intros _.
    by rewrite lget_lput, Hdl.
Qed.
End guarded_lemmas.

(** The policy object given to a guard came from [build]; a document is parsed. *)
Definition policy_built `{Digest} (policy : ObjectiveMethodPolicy + dict) : Prop :=
  match policy with
  | inl p => exists oid osha mid gsha kinds rules req,
      ObjectiveMethodPolicy_build oid osha mid gsha kinds rules req = Ok p
  | inr _ => True
  end.

Lemma built_guard_inv `{hash : Digest} {V} policy bindings (v : option V) g : policy_built policy ->
  ObjectiveIntegrityGuard_init policy bindings v = Ok g -> guard_inv g.
Proof.
  intros Hp. apply init_guard_inv. intros p ->. destruct Hp as (? & ? & ? & ? & ? & ? & ? & Hb).
  by apply policy_build_wf in Hb.
Qed.

(** *** Round trip of policy documents *)
Lemma insert_json_strs x l : insert_json (JStr x) (map JStr l) = Ok (map JStr (insert_on id x l)).
Proof.
  induction l as [|y l IH]; cbn; [done|]. unfold id. destruct (String.leb x y); cbn; [done|].
  unfold id in IH. by rewrite IH.
Qed.

Lemma sorted_json_strs l : sorted_json (map JStr l) = Ok (map JStr (sorted_on id l)).
Proof. induction l as [|x l IH]; cbn; [done|]. by rewrite IH, <- insert_json_strs. Qed.

(** The first occurrences of the values of [l], after those of [acc]. *)
Definition dedupe (acc l : list json) : list json :=
  fold_left (fun acc x => if existsb (py_eq x) acc then acc else acc ++ [x]) l acc.

Definition strings_of (l : list json) : list string :=
  omap (fun v => match v with JStr s => Some s | _ => None end) l.

Lemma strings_of_map ss : strings_of (map JStr ss) = ss.
Proof. induction ss as [|s ss IH]; [done|]. unfold strings_of in *. cbn. by rewrite IH. Qed.

Lemma strings_of_app l l' : strings_of (l ++ l') = strings_of l ++ strings_of l'.
Proof. unfold strings_of. apply omap_app. Qed.

Lemma existsb_string s l : existsb (py_eq (JStr s)) l = true <-> s ∈ strings_of l.
Proof.
  rewrite existsb_exists. unfold strings_of. rewrite list_elem_of_omap. split.
  - intros (v & Hv & He). exists v. split; [by apply list_elem_of_In|].
    destruct v; try done. by apply String.eqb_eq in He as ->.
  - intros (v & Hv & He). exists v. split; [by apply list_elem_of_In|].
    destruct v; try done. injection He as ->. apply String.eqb_refl.
Qed.

Lemma dedupe_nodup l : forall acc, NoDup (strings_of acc) -> NoDup (strings_of (dedupe acc l)).
Proof.
  induction l as [|x l IH]; intros acc Hacc; cbn; [done|]. apply IH.
  destruct (existsb (py_eq x) acc) eqn:He; [done|]. rewrite strings_of_app. apply NoDup_app.
  destruct x as [| | |s| |]; cbn; try (split_and!; [done|set_solver|constructor]).
  split_and!; [done| |apply NoDup_singleton]. intros y Hy ->%list_elem_of_singleton.
  apply existsb_string in Hy. congruence.
Qed.

Lemma dedupe_strs ss : forall acc, NoDup (acc ++ ss) ->
  dedupe (map JStr acc) (map JStr ss) = map JStr (acc ++ ss).
Proof.
  induction ss as [|s ss IH]; intros acc Hnd; [by cbn; rewrite app_nil_r|].
  change (dedupe (map JStr acc) (map JStr (s :: ss))) with
    (dedupe (if existsb (py_eq (JStr s)) (map JStr acc) then map JStr acc else map JStr acc ++ [JStr s])
       (map JStr ss)).
  rewrite (cons_middle s acc ss), app_assoc in Hnd |- *. rewrite <- IH by done.
  destruct (existsb (py_eq (JStr s)) (map JStr acc)) eqn:He; [|by rewrite map_app].
  apply existsb_string in He. rewrite strings_of_map in He.
  rewrite <- app_assoc in Hnd. apply NoDup_app in Hnd as (_ & Hd & _).
  exfalso. apply (Hd s He). by left.
Qed.

(** The kinds of a policy are sorted and distinct, and [build] keeps such a list. *)
Definition kinds_normal (kinds : list string) : Prop :=
  NoDup kinds /\ StronglySorted (key_le id) kinds.

Lemma sorted_set_json_normal l ks : sorted_set_json l = Ok (map JStr ks) -> kinds_normal ks.
Proof.
  unfold sorted_set_json. intros H. py_inv. change (fold_left _ l []) with (dedupe [] l) in H.
  pose proof (sorted_json_perm _ _ H) as Hp.
  assert (exists ss, dedupe [] l = map JStr ss) as [ss Hss].
  { assert (Forall (fun v => exists s, v = JStr s) (dedupe [] l)) as Hf.
    { rewrite <- Hp. apply Forall_map, Forall_true. cbn. eauto. }
    clear -Hf. induction Hf as [|v vs [s ->] _ [ss ->]]; [by exists []|by exists (s :: ss)]. }
  pose proof (dedupe_nodup l [] (NoDup_nil_2)) as Hnd. rewrite Hss, strings_of_map in Hnd.
  rewrite Hss, sorted_json_strs in H. injection H as H.
  apply (f_equal strings_of) in H. rewrite !strings_of_map in H. subst ks. split; [|apply sorted_on_sorted].
  by rewrite sorted_on_perm.
Qed.

Lemma sorted_set_json_run ks : kinds_normal ks -> sorted_set_json (map JStr ks) = Ok (map JStr ks).
Proof.
  intros [Hnd Hs]. unfold sorted_set_json.
  assert (forallb CapabilityBroker.hashable (map JStr ks) = true) as -> by (clear; by induction ks).
  cbn [negb raise_if]. rewrite bind_Ok. change (fold_left _ _ []) with (dedupe (map JStr []) (map JStr ks)).
  by rewrite dedupe_strs, sorted_json_strs, sorted_on_id.
Qed.

Lemma known_kinds_run ks : ks ⊆ CAPABILITY_TYPES -> known_kinds (map JStr ks) = Some ks.
Proof.
  intros H. unfold known_kinds. apply mapM_Some. induction ks as [|k ks IH]; cbn [map]; constructor.
  - assert (mem k CAPABILITY_TYPES = true) as -> by (apply mem_true; set_solver). done.
  - apply IH. set_solver.
Qed.

Section roundtrip.
Context {hash : Digest}.

(** A rule sealed by the digest of its body, as [build] and [from_document] make it. *)
Definition rule_sealed (r : ObjectiveMethodRule) : Prop :=
  rule_wf r /\ om_rule_sha256 r = canonical_sha256 (JObj (rule_fields r)).

Definition rule_document (r : ObjectiveMethodRule) : dict :=
  dict_set (rule_fields r) "rule_sha256" (JStr (om_rule_sha256 r)).

Lemma rule_document_run r : rule_wf r -> ObjectiveMethodRule_as_document r = Ok (rule_document r).
Proof.
  intros Hr. unfold ObjectiveMethodRule_as_document, ObjectiveMethodRule_body.
  by rewrite (proj2 (rule_validate_ok r tt) Hr).
Qed.

Lemma rule_build_sealed a b c d e f r :
  ObjectiveMethodRule_build a b c d e f = Ok r -> rule_sealed r.
Proof.
  unfold ObjectiveMethodRule_build, ObjectiveMethodRule_body. intros H. py_inv.
  match goal with Hv : ObjectiveMethodRule_validate _ = Ok _ |- _ => apply rule_validate_ok in Hv as [] end.
  split; [by constructor|done].
Qed.

Lemma rule_from_value_sealed v r : rule_from_value v = Ok r -> rule_sealed r.
Proof.
  unfold rule_from_value, ObjectiveMethodRule_from_document. intros H. py_inv.
  destruct x as [raw|]; [|done]. py_inv. by eapply rule_build_sealed.
Qed.

Lemma text_of_kind k : k ∈ CAPABILITY_TYPES -> bounded_text k = true.
Proof. revert k. apply Forall_forall. by repeat constructor. Qed.

Lemma text_of_violation k : k ∈ OBJECTIVE_VIOLATIONS -> bounded_text k = true.
Proof. revert k. apply Forall_forall. by repeat constructor. Qed.

Lemma text_of_decision k : k ∈ ["REVISE"; "BLOCK"; "CONTAIN"] -> bounded_text k = true.
Proof. revert k. apply Forall_forall. by repeat constructor. Qed.

Lemma rule_roundtrip r : rule_sealed r -> rule_from_value (JObj (rule_document r)) = Ok r.
Proof.
  intros [Hr Hs]. unfold rule_from_value, dict_of. rewrite bind_Ok. cbv beta iota.
  unfold ObjectiveMethodRule_from_document.
  set (doc := rule_document r).
  replace (_exact doc rule_keys "objective method rule") with (Ok tt : result unit) by (by vm_compute).
  replace (envelope_ok doc RULE_SCHEMA AUTHORITY) with true by (by vm_compute).
  rewrite bind_Ok, raise_if_false, bind_Ok by done. cbv zeta.
  change (dict_get_none doc "rule_id") with (JStr (om_rule_id r)).
  change (dict_get_none doc "runtime_kind") with (JStr (om_runtime_kind r)).
  change (dict_get_none doc "violation_code") with (JStr (om_violation_code r)).
  change (dict_get_none doc "decision") with (JStr (om_decision r)).
  change (dict_get_none doc "scope_sha256") with (JStr (om_scope_sha256 r)).
  change (dict_get_none doc "payload_sha256") with (JStr (om_payload_sha256 r)).
  change (dict_get_none doc "rule_sha256") with (JStr (om_rule_sha256 r)).
  pose proof Hr as [H1 H2 H3 H4 H5 H6]. unfold ObjectiveMethodRule_build.
  rewrite (_text_run "rule_id"), bind_Ok by done.
  rewrite (_text_run "runtime_kind"), bind_Ok by (by apply text_of_kind).
  rewrite (_text_run "violation_code"), bind_Ok by (by apply text_of_violation).
  rewrite (_text_run "decision"), bind_Ok by (by apply text_of_decision).
  rewrite (objective_sha_run "scope_sha256"), bind_Ok, (objective_sha_run "payload_sha256"), bind_Ok by done. cbv zeta.
  set (item := {| om_rule_sha256 := "" |}).
  assert (rule_wf item) as Hi by (by constructor).
  unfold ObjectiveMethodRule_body. rewrite (proj2 (rule_validate_ok item tt) Hi), !bind_Ok.
  change (rule_fields item) with (rule_fields r). cbn [om_rule_sha256].
  rewrite <- Hs, objective_sha_run, bind_Ok by (rewrite ?Hs; auto with py).
  rewrite String.eqb_refl. cbn [negb raise_if]. rewrite bind_Ok. by destruct r.
Qed.

(** What [from_document] returns. *)
Record policy_parsed (p : ObjectiveMethodPolicy) : Prop := {
  pp_wf : policy_wf p;
  pp_kinds : kinds_normal (op_allowed_runtime_kinds p);
  pp_rules : Forall rule_sealed (op_rules p)
}.

Lemma policy_from_document_parsed d p :
  ObjectiveMethodPolicy_from_document d = Ok p -> policy_parsed p.
Proof.
  intros H. pose proof (policy_from_document_wf d p H) as Hwf.
  unfold ObjectiveMethodPolicy_from_document in H. py_inv.
  destruct (dict_get_none d "rules") as [| | | |rules|], (dict_get_none d "allowed_runtime_kinds"); try done.
  py_inv. assert (Forall rule_sealed x1) as Hrules.
  { match goal with Hm : map_r rule_from_value rules = Ok _ |- _ => apply map_r_ok in Hm; clear -Hm; induction Hm end;
      constructor; [by eapply rule_from_value_sealed|done]. }
  match goal with Hb : ObjectiveMethodPolicy_build _ _ _ _ _ _ _ = Ok _ |- _ =>
    unfold ObjectiveMethodPolicy_build in Hb end. py_inv.
  destruct (known_kinds _) as [kinds|] eqn:Hk; [|done]. py_inv.
  destruct (dict_get_none d "require_completion_evidence"); try done. py_inv.
  apply known_kinds_ok in Hk as [-> _]. constructor; [done| |done].
  by eapply sorted_set_json_normal.
Qed.

(** The policy whose rules are listed in the order of the document. *)
Definition sort_rules (p : ObjectiveMethodPolicy) : ObjectiveMethodPolicy := {|
  op_objective_id := op_objective_id p; op_objective_sha256 := op_objective_sha256 p;
  op_method_policy_id := op_method_policy_id p;
  op_governance_policy_sha256 := op_governance_policy_sha256 p;
  op_allowed_runtime_kinds := op_allowed_runtime_kinds p;
  op_rules := sorted_on om_rule_id (op_rules p);
  op_require_completion_evidence := op_require_completion_evidence p;
  op_policy_sha256 := op_policy_sha256 p |}.

Definition policy_fields (p : ObjectiveMethodPolicy) : dict :=
  [("schema", JStr POLICY_SCHEMA); ("objective_id", JStr (op_objective_id p));
   ("objective_sha256", JStr (op_objective_sha256 p));
   ("method_policy_id", JStr (op_method_policy_id p));
   ("governance_policy_sha256", JStr (op_governance_policy_sha256 p));
   ("allowed_runtime_kinds", jstrs (op_allowed_runtime_kinds p));
   ("rules", JList (map JObj (map rule_document (sorted_on om_rule_id (op_rules p)))));
   ("require_completion_evidence", JBool (op_require_completion_evidence p));
   ("authority", JObj AUTHORITY)].

Definition policy_document (p : ObjectiveMethodPolicy) : dict :=
  dict_set (policy_fields p) "policy_sha256" (JStr (op_policy_sha256 p)).

Lemma policy_body_run p : Forall rule_wf (op_rules p) ->
  ObjectiveMethodPolicy_body p = Ok (policy_fields p).
Proof.
  intros Hr. unfold ObjectiveMethodPolicy_body.
  assert (map_r ObjectiveMethodRule_as_document (sorted_on om_rule_id (op_rules p))
    = Ok (map rule_document (sorted_on om_rule_id (op_rules p)))) as ->; [|done].
  rewrite <- (sorted_on_perm om_rule_id (op_rules p)) in Hr. apply map_r_ok.
  induction Hr; cbn [map]; constructor; [by apply rule_document_run|done].
Qed.

Lemma sort_rules_wf p : policy_wf p -> policy_wf (sort_rules p).
Proof.
  intros [H1 H2 H3 H4 H5 H6 H7 H8 H9 (body & Hb & Hs)]. constructor; cbn; try done.
  - by rewrite sorted_on_perm.
  - by rewrite sorted_on_perm.
  - by rewrite sorted_on_perm.
  - exists body. split; [|done]. rewrite <- Hb. unfold ObjectiveMethodPolicy_body. cbn.
    by rewrite (sorted_on_id om_rule_id (sorted_on om_rule_id (op_rules p))) by apply sorted_on_sorted.
Qed.

Lemma policy_fields_sort p : policy_fields (sort_rules p) = policy_fields p.
Proof.
  unfold policy_fields. cbn [sort_rules op_rules].
  by rewrite (sorted_on_id om_rule_id (sorted_on om_rule_id (op_rules p))) by apply sorted_on_sorted.
Qed.

Lemma policy_build_run p : policy_parsed p ->
  ObjectiveMethodPolicy_build (JStr (op_objective_id p)) (JStr (op_objective_sha256 p))
    (JStr (op_method_policy_id p)) (JStr (op_governance_policy_sha256 p))
    (map JStr (op_allowed_runtime_kinds p)) (op_rules p)
    (JBool (op_require_completion_evidence p)) = Ok p.
Proof.
  intros [[H1 [H2 H2'] H3 [H4 H4'] H5 H6 H7 H8 H9 (body & Hb & Hs)] Hk _].
  unfold ObjectiveMethodPolicy_build. rewrite sorted_set_json_run, bind_Ok by done.
  rewrite (raise_if_false (_ || _)), bind_Ok.
  2: { apply orb_false_iff. split; [|by rewrite Nat.eqb_refl]. apply bool_decide_eq_false.
       by destruct (op_allowed_runtime_kinds p). }
  rewrite known_kinds_run by done. cbv beta iota. rewrite (raise_if_false (existsb _ _)), bind_Ok.
  2: { apply not_true_iff_false. intros (r & Hr & He)%existsb_exists. apply list_elem_of_In in Hr.
       apply (proj1 (Forall_forall _ _) H9), mem_true in Hr. by rewrite Hr in He. }
  rewrite (raise_if_false (has_dups _)), bind_Ok by (by apply has_dups_false).
  rewrite (_text_run "objective_id"), bind_Ok, (objective_sha_run "objective_sha256"), bind_Ok by done.
  rewrite (_text_run "method_policy_id"), bind_Ok by done.
  rewrite (objective_sha_run "governance_policy_sha256"), bind_Ok by done. cbv zeta.
  rewrite policy_body_run, bind_Ok by done. rewrite policy_body_run in Hb by done. injection Hb as <-.
  change (policy_fields _) with (policy_fields p) at 1. rewrite <- Hs. by destruct p.
Qed.

Lemma policy_roundtrip p : policy_parsed p ->
  ObjectiveMethodPolicy_from_document (policy_document p) = Ok (sort_rules p).
Proof.
  intros [Hwf Hk Hr]. unfold ObjectiveMethodPolicy_from_document.
  replace (_exact (policy_document p) policy_keys "objective method policy") with (Ok tt : result unit)
    by (by vm_compute).
  replace (envelope_ok (policy_document p) POLICY_SCHEMA AUTHORITY) with true by (by vm_compute).
  rewrite bind_Ok, raise_if_false, bind_Ok by done. cbv zeta.
  change (dict_get_none (policy_document p) "rules") with
    (JList (map JObj (map rule_document (sorted_on om_rule_id (op_rules p))))).
  change (dict_get_none (policy_document p) "allowed_runtime_kinds") with
    (JList (map JStr (op_allowed_runtime_kinds p))). cbv beta iota.
  assert (Forall rule_sealed (sorted_on om_rule_id (op_rules p))) as Hsorted
    by (by rewrite sorted_on_perm).
  assert (map_r rule_from_value (map JObj (map rule_document (sorted_on om_rule_id (op_rules p))))
    = Ok (sorted_on om_rule_id (op_rules p))) as ->.
  { apply map_r_ok. clear -Hsorted. induction Hsorted; cbn [map]; constructor; [|done].
    by apply rule_roundtrip. }
  rewrite bind_Ok.
  pose proof (policy_build_run (sort_rules p)) as Hbuild. cbn [sort_rules op_objective_id
    op_objective_sha256 op_method_policy_id op_governance_policy_sha256 op_allowed_runtime_kinds
    op_rules op_require_completion_evidence] in Hbuild.
  change (dict_get_none (policy_document p) "objective_id") with (JStr (op_objective_id p)).
  change (dict_get_none (policy_document p) "objective_sha256") with (JStr (op_objective_sha256 p)).
  change (dict_get_none (policy_document p) "method_policy_id") with (JStr (op_method_policy_id p)).
  change (dict_get_none (policy_document p) "governance_policy_sha256") with
    (JStr (op_governance_policy_sha256 p)).
  change (dict_get_none (policy_document p) "require_completion_evidence") with
    (JBool (op_require_completion_evidence p)).
  change (dict_get_none (policy_document p) "policy_sha256") with (JStr (op_policy_sha256 p)).
  rewrite Hbuild, bind_Ok by (constructor; [by apply sort_rules_wf|done|done]).
  rewrite objective_sha_run, bind_Ok by (done || by apply policy_sha). cbn [op_policy_sha256].
  by rewrite String.eqb_refl.
Qed.
End roundtrip.

(** ** Example values *)
#[local] Existing Instance checksum_digest.

Definition SHA1111 : string :=
  "1111111111111111111111111111111111111111111111111111111111111111".

Definition example_rule : result ObjectiveMethodRule :=
  ObjectiveMethodRule_build (JStr "rule:1") (JStr "runtime.configure") (JStr "result_fabrication")
    (JStr "REVISE") (JStr ZERO_SHA256) (JStr SHA1111).

Definition example_policy (objective_id : string) : result ObjectiveMethodPolicy :=
  rule ← example_rule;
  ObjectiveMethodPolicy_build (JStr objective_id) (JStr SHA1111) (JStr "method:1") (JStr SHA1111)
    [JStr "runtime.configure"; JStr "process.execute"] [rule] (JBool true).

Definition example_bindings : dict := [("detector:1", JStr SHA1111)].

Definition example_guard (objective_id : string) : result (ObjectiveIntegrityGuard unit) :=
  policy ← example_policy objective_id;
  ObjectiveIntegrityGuard_init (inl policy) (Some example_bindings) (Some tt).

Definition no_guard : ObjectiveIntegrityGuard unit := {|
  og_policy := {| op_objective_id := ""; op_objective_sha256 := ""; op_method_policy_id := "";
    op_governance_policy_sha256 := ""; op_allowed_runtime_kinds := []; op_rules := [];
    op_require_completion_evidence := false; op_policy_sha256 := "" |};
  og_trusted_source_bindings := []; og_verify_observation := None; og_observations := [];
  og_observation_head := ""; og_observation_ids := ∅; og_last_observed_at := 0;
  og_decisions := []; og_completions := []; og_contained := false;
  og_containment_evidence_sha256 := "" |}.

Definition fresh_guard (objective_id : string) : ObjectiveIntegrityGuard unit :=
  from_ok no_guard (example_guard objective_id).

Definition example_action : ObjectiveAction := {|
  oa_action_id := "op:1"; oa_subject_id := "agent:1"; oa_policy_sha256 := SHA1111;
  oa_runtime_kind := "runtime.configure"; oa_scope_sha256 := SHA1111;
  oa_payload_sha256 := ZERO_SHA256; oa_at_unix := 150 |}.

(** A verifier that trusts every document. *)
#[local] Instance trusting_verifier {S} : VerifierOps unit S := {
  verify_observation_with _ _ := mret (JBool true) }.

Definition example_observation (code : string) : dict :=
  match ObjectiveIntegrityObservation_build (JStr "obs:1") (JStr "objective:1")
          (JStr (op_policy_sha256 (og_policy (fresh_guard "objective:1")))) (JStr "detector:1")
          (JStr SHA1111) (JStr code) (JStr SHA1111) (JInt 140) (JStr ZERO_SHA256) with
  | Ok o => ObjectiveIntegrityObservation_as_document o
  | Err _ => []
  end.

(** The guard after a critical observation and a human release. *)
Definition observed_guard : ObjectiveIntegrityGuard unit :=
  snd (ingest_observation (S := ObjectiveIntegrityGuard unit)
         (example_observation "evidence_tampering") (fresh_guard "objective:1")).

Definition released_guard : ObjectiveIntegrityGuard unit :=
  snd (on (exit_containment SHA1111) observed_guard).

Lemma fresh_guard_init oid : is_ok (example_guard oid) = true ->
  exists policy, policy_built (inl policy)
  /\ ObjectiveIntegrityGuard_init (inl policy) (Some example_bindings) (Some tt) = Ok (fresh_guard oid).
Proof.
  unfold fresh_guard, example_guard. destruct (example_policy oid) as [p|] eqn:Hp; [|done]. intros H.
  exists p. split.
  - unfold example_policy in Hp. py_inv. by eexists _, _, _, _, _, _, _.
  - rewrite bind_Ok in H |- *. by destruct (ObjectiveIntegrityGuard_init _ _ _).
Qed.

Lemma released_reachable : star objective_step (fresh_guard "objective:1") observed_guard
  /\ star objective_step observed_guard released_guard.
Proof.
  split; (eapply star_step; [apply star_refl|]).
  - unfold observed_guard. apply os_ingest. intros v d s. reflexivity.
  - unfold released_guard. apply os_exit.
Qed.

Lemma released_from_fresh : star objective_step (fresh_guard "objective:1") released_guard.
Proof.
  eapply star_step; [apply released_reachable|]. unfold released_guard. apply os_exit.
Qed.

Lemma observed_critical : critical_seen observed_guard.
Proof.
  assert (existsb (fun o => mem (oo_violation_code o) CRITICAL_VIOLATIONS)
    (og_observations observed_guard) = true) as Hc by (vm_compute; reflexivity).
  apply existsb_exists in Hc as (o & Ho & Hm). exists o.
  by apply list_elem_of_In in Ho; apply mem_true in Hm.
Qed.

(** A guarded mediator whose guard holds the critical observation. *)
Definition blocked_mediator :
    ObjectiveGuardedRuntimeMediator unit CapabilityBroker.CapabilityBroker unit :=
  ObjectiveGuardedRuntimeMediator_init released_guard example_mediator.

Lemma blocked_gate : gate_allows (V := unit) example_operation blocked_mediator -> False.
Proof.
  intros (doc & Hd & Ha).
  assert (match fst (gate_verdict (V := unit) example_operation blocked_mediator) with
          | Ok d => is_str (dict_get_none d "decision") "CONTAIN" | Err _ => false end = true) as Hc
    by (vm_compute; reflexivity).
  rewrite Hd in Hc. unfold dict_get_none, dict_get_or in Hc. by rewrite Ha in Hc.
Qed.

(** ** Properties *)

(** C26: in every reachable guard whose objective id is an identifier, evaluating a valid
    action returns a decision receipt that verifies, appends it to the decision log and
    changes nothing else; the decision names the gravest cause: CONTAIN exactly for
    containment, a critical observation, a foreign governance policy or a matching
    CONTAIN rule; BLOCK for a lesser observation, a kind outside the policy or a BLOCK
    rule; REVISE for a REVISE rule; ALLOW exactly when there is no cause at all. *)
Theorem objective_decision_exact `{hash : Digest} {V S : Type} `{VerifierOps V S}
    `{Lens S (ObjectiveIntegrityGuard V)} (policy : ObjectiveMethodPolicy + dict)
    (bindings : option dict) (v : option V) (s0 s : S) (a : ObjectiveAction)
    (Hpolicy : policy_built policy)
    (Hinit : ObjectiveIntegrityGuard_init policy bindings v = Ok (lget s0))
    (Hreach : star objective_step s0 s) (Ha : ObjectiveAction_validate a = Ok tt)
    (Hid : re_ident (op_objective_id (og_policy (V := V) (lget s))) = true) :
  exists r, on (evaluate_action (V := V) a) s
      = (Ok (ObjectiveIntegrityDecision_as_document r), lput (push_decision r (lget s)) s)
    /\ verify_decision (ObjectiveIntegrityDecision_as_document r)
       = Ok (ObjectiveIntegrityDecision_as_document r)
    /\ decision_explained (V := V) (lget s) a (od_decision r).
Proof.
  destruct (star_objective_ok s0 s Hreach) as (_ & _ & _ & Hinv).
  apply (built_guard_inv _ _ _ _ Hpolicy) in Hinit. apply Hinv in Hinit.
  pose proof (evaluate_run a _ Hinit Ha) as Hrun. rewrite Hid in Hrun.
  destruct Hrun as (r & Hr & Hex & _ & Hv). exists r. rewrite on_run, Hr. done.
Qed.

Lemma objective_decision_exact_witness : exists r,
  evaluate_action example_action (fresh_guard "objective:1")
    = (Ok (ObjectiveIntegrityDecision_as_document r), push_decision r (fresh_guard "objective:1"))
  /\ verify_decision (ObjectiveIntegrityDecision_as_document r)
     = Ok (ObjectiveIntegrityDecision_as_document r)
  /\ decision_explained (fresh_guard "objective:1") example_action (od_decision r).
Proof.
  assert (is_ok (example_guard "objective:1") = true) as Hok by (vm_compute; reflexivity).
  destruct (fresh_guard_init "objective:1" Hok) as (policy & Hp & Hi).
  apply (@objective_decision_exact checksum_digest unit (ObjectiveIntegrityGuard unit)
    trusting_verifier lens_id (inl policy) (Some example_bindings) (Some tt)
    (fresh_guard "objective:1") (fresh_guard "objective:1") example_action Hp Hi (star_refl _ _));
    vm_compute; reflexivity.
Defined.

(** A policy may be built with an objective id that is not an identifier, such as
    one with a space; evaluating any valid action in such a guard raises [ContractError]
    after the decision was computed, with no receipt, whatever the guard has seen. *)
Theorem unnamed_objective_never_decides `{hash : Digest} {V S : Type} `{VerifierOps V S}
    `{Lens S (ObjectiveIntegrityGuard V)} (policy : ObjectiveMethodPolicy + dict)
    (bindings : option dict) (v : option V) (s0 s : S) (a : ObjectiveAction)
    (Hpolicy : policy_built policy)
    (Hinit : ObjectiveIntegrityGuard_init policy bindings v = Ok (lget s0))
    (Hreach : star objective_step s0 s) (Ha : ObjectiveAction_validate a = Ok tt)
    (Hid : re_ident (op_objective_id (og_policy (V := V) (lget s))) = false) :
  exists m, on (evaluate_action (V := V) a) s = (fail ContractError m, s).
Proof.
  destruct (star_objective_ok s0 s Hreach) as (_ & _ & _ & Hinv).
  apply (built_guard_inv _ _ _ _ Hpolicy) in Hinit. apply Hinv in Hinit.
  pose proof (evaluate_run a _ Hinit Ha) as Hrun. rewrite Hid in Hrun.
  destruct Hrun as (m & Hr). exists m. rewrite on_run, Hr. by rewrite lput_lget.
Qed.

Lemma unnamed_objective_never_decides_witness :
  exists m, on (evaluate_action example_action) (fresh_guard "objective 1")
            = (fail ContractError m, fresh_guard "objective 1").
Proof.
  assert (is_ok (example_guard "objective 1") = true) as Hok by (vm_compute; reflexivity).
  destruct (fresh_guard_init "objective 1" Hok) as (policy & Hp & Hi).
  apply (@unnamed_objective_never_decides checksum_digest unit (ObjectiveIntegrityGuard unit)
    trusting_verifier lens_id (inl policy) (Some example_bindings) (Some tt)
    (fresh_guard "objective 1") (fresh_guard "objective 1") example_action Hp Hi (star_refl _ _));
    vm_compute; reflexivity.
Defined.

(** C32: a critical observation is never forgotten: once a reachable guard holds one,
    whatever the host does afterwards, releases from containment included, every
    decision on an action and every completion receipt the guard still issues says
    CONTAIN. *)
Theorem critical_observation_is_permanent `{hash : Digest} {V S : Type} `{VerifierOps V S}
    `{Lens S (ObjectiveIntegrityGuard V)} (policy : ObjectiveMethodPolicy + dict)
    (bindings : option dict) (v : option V) (s0 s1 s2 : S)
    (Hpolicy : policy_built policy)
    (Hinit : ObjectiveIntegrityGuard_init policy bindings v = Ok (lget s0))
    (Hreach : star objective_step s0 s1) (Hcritical : critical_seen (V := V) (lget s1))
    (Hlater : star objective_step s1 s2) :
  (forall a doc s', on (evaluate_action (V := V) a) s2 = (Ok doc, s') ->
     dict_get doc "decision" = Some (JStr "CONTAIN"))
  /\ forall res trajectory evidence at_unix doc s',
     on (ObjectiveIntegrityGuard_verify_completion (V := V) res trajectory evidence at_unix) s2
       = (Ok doc, s') -> dict_get doc "decision" = Some (JStr "CONTAIN").
Proof.
  destruct (star_objective_ok s0 s1 Hreach) as (_ & _ & _ & Hinv1).
  destruct (star_objective_ok s1 s2 Hlater) as (_ & _ & Hobs & Hinv2).
  apply (built_guard_inv _ _ _ _ Hpolicy), Hinv1, Hinv2 in Hinit.
  assert (critical_seen (V := V) (lget s2)) as Hc.
  { destruct Hcritical as (o & Ho & Hcode). exists o. split; [|done].
    destruct Hobs as [l ->]. apply elem_of_app. by left. }
  split.
  - intros a doc s' Hrun. rewrite on_run in Hrun.
    refine (evaluate_contained _ a doc Hinit (or_intror Hc) _).
    destruct (evaluate_action a _) as [r g]. by injection Hrun as -> _.
  - intros res trajectory evidence at_unix doc s' Hrun. rewrite on_run in Hrun.
    refine (completion_contained _ res trajectory evidence at_unix doc Hinit (or_intror Hc) _).
    destruct (ObjectiveIntegrityGuard_verify_completion _ _ _ _ _) as [r g]. by injection Hrun as -> _.
Qed.

Lemma critical_observation_is_permanent_witness :
  (forall a doc s', on (evaluate_action a) released_guard = (Ok doc, s') ->
     dict_get doc "decision" = Some (JStr "CONTAIN"))
  /\ forall res trajectory evidence at_unix doc s',
     on (ObjectiveIntegrityGuard_verify_completion res trajectory evidence at_unix) released_guard
       = (Ok doc, s') -> dict_get doc "decision" = Some (JStr "CONTAIN").
Proof.
  assert (is_ok (example_guard "objective:1") = true) as Hok by (vm_compute; reflexivity).
  destruct (fresh_guard_init "objective:1" Hok) as (policy & Hp & Hi).
  destruct released_reachable as [Hr1 Hr2].
  apply (@critical_observation_is_permanent checksum_digest unit (ObjectiveIntegrityGuard unit)
    trusting_verifier lens_id (inl policy) (Some example_bindings) (Some tt)
    (fresh_guard "objective:1") observed_guard released_guard Hp Hi Hr1); [|exact Hr2].
  exact observed_critical.
Defined.

(** C33: the evidence of a reachable guard is sound: its observations form a hash chain
    from the zero digest to the head, each is sealed by the digest of its body, comes
    from a trusted source under this policy, has an id of its own and is not older
    than its predecessors; every decision and completion receipt it ever issued
    verifies. *)
Theorem objective_evidence_sound `{hash : Digest} {V S : Type} `{VerifierOps V S}
    `{Lens S (ObjectiveIntegrityGuard V)} (policy : ObjectiveMethodPolicy + dict)
    (bindings : option dict) (v : option V) (s0 s : S)
    (Hpolicy : policy_built policy)
    (Hinit : ObjectiveIntegrityGuard_init policy bindings v = Ok (lget s0))
    (Hreach : star objective_step s0 s) :
  let g : ObjectiveIntegrityGuard V := lget s in
  linked oo_previous_observation_sha256 oo_observation_sha256 ZERO_SHA256
    (og_observations g) (observation_head_sha256 g)
  /\ Forall (fun o => oo_observation_sha256 o = canonical_sha256 (JObj (ObjectiveIntegrityObservation_body o))
       /\ observation_mine g o) (og_observations g)
  /\ NoDup (map oo_observation_id (og_observations g))
  /\ StronglySorted Z.le (map oo_observed_at_unix (og_observations g))
  /\ Forall (fun doc => verify_decision doc = Ok doc) (decisions g)
  /\ Forall (fun doc => verify_completion doc = Ok doc) (completions g).
Proof.
  destruct (star_objective_ok s0 s Hreach) as (_ & _ & _ & Hinv).
  apply (built_guard_inv _ _ _ _ Hpolicy), Hinv in Hinit. destruct Hinit as [_ Hw Hm Hl _ Hn Ht _ Hd Hc].
  cbv zeta. split_and!; try done.
  - apply Forall_and. split; [|done]. eapply Forall_impl; [exact Hw|]. by intros o [].
  - apply Forall_map. eapply Forall_impl; [exact Hd|]. by intros r [].
  - apply Forall_map. eapply Forall_impl; [exact Hc|]. by intros r [].
Qed.

Lemma objective_evidence_sound_witness :
  length (og_observations released_guard) = 1%nat
  /\ linked oo_previous_observation_sha256 oo_observation_sha256 ZERO_SHA256
    (og_observations released_guard) (observation_head_sha256 released_guard)
  /\ Forall (fun o => oo_observation_sha256 o = canonical_sha256 (JObj (ObjectiveIntegrityObservation_body o))
       /\ observation_mine released_guard o) (og_observations released_guard)
  /\ NoDup (map oo_observation_id (og_observations released_guard))
  /\ StronglySorted Z.le (map oo_observed_at_unix (og_observations released_guard))
  /\ Forall (fun doc => verify_decision doc = Ok doc) (decisions released_guard)
  /\ Forall (fun doc => verify_completion doc = Ok doc) (completions released_guard).
Proof.
  split; [vm_compute; reflexivity|].
  assert (is_ok (example_guard "objective:1") = true) as Hok by (vm_compute; reflexivity).
  destruct (fresh_guard_init "objective:1" Hok) as (policy & Hp & Hi).
  apply (@objective_evidence_sound checksum_digest unit (ObjectiveIntegrityGuard unit)
    trusting_verifier lens_id (inl policy) (Some example_bindings) (Some tt)
    (fresh_guard "objective:1") released_guard Hp Hi). exact released_from_fresh.
Defined.

(** C25: a guarded effect needs both verdicts: unless the guard allows the operation and
    the delegate, in the state the guard left, admits it, the outcome and the final
    state do not depend on the executor, any receipt says BLOCK and NOT_EXECUTED, and
    when the guard does not allow it the delegate is left untouched. *)
Theorem guarded_effect_needs_both `{hash : Digest} {V B G S : Type} `{BrokerOps B}
    `{Lens S (ObjectiveGuardedRuntimeMediator V B G)} (op : RuntimeOperation) (s : S)
    (Hn : gate_allows op s /\ admitted (L := delegate_of (V := V)) op (snd (gate_verdict op s)) ->
          False) :
  (forall ex ex', ObjectiveGuardedRuntimeMediator_mediate (V := V) op ex s
                  = ObjectiveGuardedRuntimeMediator_mediate (V := V) op ex' s)
  /\ forall ex doc s', ObjectiveGuardedRuntimeMediator_mediate (V := V) op ex s = (Ok doc, s') ->
     dict_get doc "admission_decision" = Some (JStr "BLOCK")
     /\ dict_get doc "execution_outcome" = Some (JStr "NOT_EXECUTED")
     /\ (~ gate_allows op s ->
          gm_delegate (lget (T := ObjectiveGuardedRuntimeMediator V B G) s') = gm_delegate (lget s)).
Proof.
  destruct (guarded_blocked op s Hn) as [Hsame Hblock]. split; [exact Hsame|].
  intros ex doc s' Hrun. apply Hblock in Hrun as [[? ?] ?]. done.
Qed.

Lemma guarded_effect_needs_both_witness :
  is_ok (fst (ObjectiveGuardedRuntimeMediator_mediate (V := unit) example_operation good_executor
    blocked_mediator)) = true
  /\ (forall ex ex', ObjectiveGuardedRuntimeMediator_mediate (V := unit) example_operation ex blocked_mediator
       = ObjectiveGuardedRuntimeMediator_mediate (V := unit) example_operation ex' blocked_mediator)
  /\ forall ex doc s',
     ObjectiveGuardedRuntimeMediator_mediate (V := unit) example_operation ex blocked_mediator = (Ok doc, s') ->
     dict_get doc "admission_decision" = Some (JStr "BLOCK")
     /\ dict_get doc "execution_outcome" = Some (JStr "NOT_EXECUTED")
     /\ (~ gate_allows example_operation blocked_mediator ->
          gm_delegate s' = gm_delegate blocked_mediator).
Proof.
  split; [vm_compute; reflexivity|].
  apply (@guarded_effect_needs_both checksum_digest unit CapabilityBroker.CapabilityBroker unit
    (ObjectiveGuardedRuntimeMediator unit CapabilityBroker.CapabilityBroker unit) _ lens_id
    example_operation blocked_mediator).
  intros [Hgate _]. exact (blocked_gate Hgate).
Defined.

(** Policy documents round trip: a document that parses is re-serialised with its
    rules in the order of their ids; the result is a fixed point of [verify_policy] and
    parses to the same policy, digest included, with its rules in that order. *)
Theorem policy_document_roundtrip `{hash : Digest} (raw : dict) (p : ObjectiveMethodPolicy)
    (Hp : ObjectiveMethodPolicy_from_document raw = Ok p) :
  exists doc, verify_policy raw = Ok doc /\ verify_policy doc = Ok doc
  /\ ObjectiveMethodPolicy_from_document doc = Ok (sort_rules p)
  /\ dict_get doc "policy_sha256" = Some (JStr (op_policy_sha256 p)).
Proof.
  pose proof (policy_from_document_parsed raw p Hp) as Hpp. exists (policy_document p).
  assert (forall q, policy_parsed q -> ObjectiveMethodPolicy_as_document q = Ok (policy_document q)) as Hdoc.
  { intros q [Hq _ _]. unfold ObjectiveMethodPolicy_as_document. by rewrite policy_body_run by apply Hq. }
  unfold verify_policy. rewrite Hp, policy_roundtrip, !bind_Ok, Hdoc by done. split_and!; try done.
  rewrite Hdoc.
  - unfold policy_document. by rewrite policy_fields_sort.
  - destruct Hpp. constructor; [by apply sort_rules_wf|done|]. cbn. by rewrite sorted_on_perm.
Qed.

Definition example_policy_document : dict :=
  from_ok [] (p ← example_policy "objective:1"; ObjectiveMethodPolicy_as_document p).

Definition parsed_example : ObjectiveMethodPolicy :=
  from_ok (og_policy no_guard) (ObjectiveMethodPolicy_from_document example_policy_document).

Lemma policy_document_roundtrip_witness :
  ObjectiveMethodPolicy_from_document example_policy_document = Ok parsed_example
  /\ exists doc, verify_policy example_policy_document = Ok doc /\ verify_policy doc = Ok doc
  /\ ObjectiveMethodPolicy_from_document doc = Ok (sort_rules parsed_example)
  /\ dict_get doc "policy_sha256" = Some (JStr (op_policy_sha256 parsed_example)).
Proof.
  assert (ObjectiveMethodPolicy_from_document example_policy_document = Ok parsed_example) as Hp
    by (vm_compute; reflexivity).
  split; [exact Hp|]. apply (policy_document_roundtrip example_policy_document parsed_example Hp).
Defined.
