(* ===== verification/ObjectiveEffectCommit.v ===== *)
(** * Objective-bound effect commit (sdk/liminal_objective_effect_commit/__init__.py)

    An outer one-time lease binds an objective ALLOW decision, and the guard state it
    was made in, to the inner lease of the epoch-bound effect broker.  The outer broker
    holds its guard and its delegate; it is a component of the host state [S], and so,
    through it, are they.  [FencedObjectiveIntegrityGuard] only wraps the guard's
    methods in the re-entrant commit fence: a call made by one thread runs exactly as
    without it, so the fenced guard is the guard of ObjectiveIntegrity.v. *)
From stdpp Require Import gmap.
From S2P Require Import Prelude PyStr Json Digest Contracts BrokerInterface Mediation EffectCommit ObjectiveIntegrity.
#[local] Open Scope Z_scope.

(** ** Constants *)
Definition LEASE_SCHEMA : string := "liminal-objective-bound-effect-lease-v0.1".
Definition COMMIT_SCHEMA : string := "liminal-objective-bound-effect-commit-v0.1".
Definition STATE_SCHEMA : string := "liminal-objective-bound-effect-state-v0.1".

Definition AUTHORITY : dict :=
  [("mode", JStr "objective_bound_effect_commit_composition");
   ("objective_head_binding", JBool true); ("objective_policy_binding", JBool true);
   ("objective_state_recheck", JBool true); ("shared_objective_runtime_fence", JBool true);
   ("one_time_outer_lease", JBool true); ("inner_epoch_effect_lease_required", JBool true);
   ("capability_grant", JBool false); ("objective_policy_mutation", JBool false);
   ("trusted_observation_fabrication", JBool false); ("runtime_mutation", JBool false);
   ("network_authority", JBool false); ("credential_authority", JBool false);
   ("hidden_answer_access", JBool false); ("evaluator_state_access", JBool false);
   ("kernel_enforcement", JBool false)].

(** [raise ObjectiveEffectCommitError(code)] when [b]. *)
Definition refuse_if (b : bool) (code : string) : result unit :=
  raise_if b ObjectiveEffectCommitError code.

Definition _sha (value : json) (name : string) : result string :=
  check_sha ObjectiveEffectCommitError ("invalid_" +:+ name) value.

Definition _time (value : json) (name : string) : result Z :=
  match value with
  | JInt z => if z <? 0 then fail ObjectiveEffectCommitError ("invalid_" +:+ name) else Ok z
  | _ => fail ObjectiveEffectCommitError ("invalid_" +:+ name)
  end.

(** ** Receipts *)
Record ObjectiveEffectAuthorizationReceipt := {
  oa_operation_id : string;
  oa_outer_lease_id_sha256 : string;
  oa_objective_id : string;
  oa_method_policy_sha256 : string;
  oa_objective_decision_receipt_sha256 : string;
  oa_objective_observation_head_sha256 : string;
  oa_objective_state_sha256 : string;
  oa_objective_decision : string;
  oa_runtime_kind : string;
  oa_scope_sha256 : string;
  oa_payload_sha256 : string;
  oa_capability_receipt_sha256 : string;
  oa_inner_authorization_receipt_sha256 : string;
  oa_issued_at_unix : Z;
  oa_expires_at_unix : Z;
  oa_receipt_sha256 : string
}.

Definition ObjectiveEffectAuthorizationReceipt_body (r : ObjectiveEffectAuthorizationReceipt)
    : dict :=
  [("schema", JStr LEASE_SCHEMA); ("operation_id", JStr (oa_operation_id r));
   ("outer_lease_id_sha256", JStr (oa_outer_lease_id_sha256 r));
   ("objective_id", JStr (oa_objective_id r));
   ("method_policy_sha256", JStr (oa_method_policy_sha256 r));
   ("objective_decision_receipt_sha256", JStr (oa_objective_decision_receipt_sha256 r));
   ("objective_observation_head_sha256", JStr (oa_objective_observation_head_sha256 r));
   ("objective_state_sha256", JStr (oa_objective_state_sha256 r));
   ("objective_decision", JStr (oa_objective_decision r));
   ("runtime_kind", JStr (oa_runtime_kind r)); ("scope_sha256", JStr (oa_scope_sha256 r));
   ("payload_sha256", JStr (oa_payload_sha256 r));
   ("capability_receipt_sha256", JStr (oa_capability_receipt_sha256 r));
   ("inner_authorization_receipt_sha256", JStr (oa_inner_authorization_receipt_sha256 r));
   ("issued_at_unix", JInt (oa_issued_at_unix r));
   ("expires_at_unix", JInt (oa_expires_at_unix r)); ("authority", JObj AUTHORITY)].

Definition ObjectiveEffectAuthorizationReceipt_as_document
    (r : ObjectiveEffectAuthorizationReceipt) : dict :=
  dict_set (ObjectiveEffectAuthorizationReceipt_body r) "receipt_sha256"
    (JStr (oa_receipt_sha256 r)).

Record ObjectiveEffectCommitReceipt := {
  oc_operation_id : string;
  oc_authorization_receipt_sha256 : string;
  oc_outer_lease_id_sha256 : string;
  oc_objective_id : string;
  oc_method_policy_sha256 : string;
  oc_objective_observation_head_sha256 : string;
  oc_objective_state_sha256 : string;
  oc_inner_authorization_receipt_sha256 : string;
  oc_inner_commit_receipt_sha256 : string;
  oc_committed_at_unix : Z;
  oc_effect_outcome : string;
  oc_result_sha256 : string;
  oc_reason_codes : list string;
  oc_receipt_sha256 : string
}.

Definition ObjectiveEffectCommitReceipt_body (r : ObjectiveEffectCommitReceipt) : dict :=
  [("schema", JStr COMMIT_SCHEMA); ("operation_id", JStr (oc_operation_id r));
   ("authorization_receipt_sha256", JStr (oc_authorization_receipt_sha256 r));
   ("outer_lease_id_sha256", JStr (oc_outer_lease_id_sha256 r));
   ("objective_id", JStr (oc_objective_id r));
   ("method_policy_sha256", JStr (oc_method_policy_sha256 r));
   ("objective_observation_head_sha256", JStr (oc_objective_observation_head_sha256 r));
   ("objective_state_sha256", JStr (oc_objective_state_sha256 r));
   ("inner_authorization_receipt_sha256", JStr (oc_inner_authorization_receipt_sha256 r));
   ("inner_commit_receipt_sha256", JStr (oc_inner_commit_receipt_sha256 r));
   ("committed_at_unix", JInt (oc_committed_at_unix r));
   ("effect_outcome", JStr (oc_effect_outcome r)); ("result_sha256", JStr (oc_result_sha256 r));
   ("reason_codes", jstrs (oc_reason_codes r)); ("authority", JObj AUTHORITY)].

Definition ObjectiveEffectCommitReceipt_as_document (r : ObjectiveEffectCommitReceipt) : dict :=
  dict_set (ObjectiveEffectCommitReceipt_body r) "receipt_sha256" (JStr (oc_receipt_sha256 r)).

(** ** The broker: its state *)
Record _ObjectiveLease := {
  ol_outer_lease_id : string;
  ol_inner_lease_id : string;
  ol_operation : RuntimeOperation;
  ol_objective_id : string;
  ol_method_policy_sha256 : string;
  ol_objective_decision_receipt_sha256 : string;
  ol_observation_head_sha256 : string;
  ol_objective_state_sha256 : string;
  ol_capability_receipt_sha256 : string;
  ol_inner_authorization_receipt_sha256 : string;
  ol_authorization_receipt_sha256 : string;
  ol_issued_at_unix : Z;
  ol_expires_at_unix : Z;
  ol_consumed : bool
}.

Record ObjectiveBoundEffectCommitBroker (V : Type) := {
  ob_guard : ObjectiveIntegrityGuard V;
  ob_delegate : EffectCommitBroker;
  ob_leases : gmap string _ObjectiveLease;
  ob_authorizations : list ObjectiveEffectAuthorizationReceipt;
  ob_commits : list ObjectiveEffectCommitReceipt
}.
Arguments ob_guard {V} _.
Arguments ob_delegate {V} _.
Arguments ob_leases {V} _.
Arguments ob_authorizations {V} _.
Arguments ob_commits {V} _.

(** [lease.consumed = True] *)
Definition burn_outer (l : _ObjectiveLease) : _ObjectiveLease := {|
  ol_outer_lease_id := ol_outer_lease_id l; ol_inner_lease_id := ol_inner_lease_id l;
  ol_operation := ol_operation l; ol_objective_id := ol_objective_id l;
  ol_method_policy_sha256 := ol_method_policy_sha256 l;
  ol_objective_decision_receipt_sha256 := ol_objective_decision_receipt_sha256 l;
  ol_observation_head_sha256 := ol_observation_head_sha256 l;
  ol_objective_state_sha256 := ol_objective_state_sha256 l;
  ol_capability_receipt_sha256 := ol_capability_receipt_sha256 l;
  ol_inner_authorization_receipt_sha256 := ol_inner_authorization_receipt_sha256 l;
  ol_authorization_receipt_sha256 := ol_authorization_receipt_sha256 l;
  ol_issued_at_unix := ol_issued_at_unix l; ol_expires_at_unix := ol_expires_at_unix l;
  ol_consumed := true |}.

Section broker_fields.
Context {V : Type}.
Implicit Types b : ObjectiveBoundEffectCommitBroker V.

Definition ObjectiveBoundEffectCommitBroker_init (guard : ObjectiveIntegrityGuard V)
    (delegate : EffectCommitBroker) : ObjectiveBoundEffectCommitBroker V :=
  {| ob_guard := guard; ob_delegate := delegate; ob_leases := ∅; ob_authorizations := [];
     ob_commits := [] |}.

Definition set_guard (guard : ObjectiveIntegrityGuard V) b : ObjectiveBoundEffectCommitBroker V :=
  {| ob_guard := guard; ob_delegate := ob_delegate b; ob_leases := ob_leases b;
     ob_authorizations := ob_authorizations b; ob_commits := ob_commits b |}.

Definition set_delegate (delegate : EffectCommitBroker) b : ObjectiveBoundEffectCommitBroker V :=
  {| ob_guard := ob_guard b; ob_delegate := delegate; ob_leases := ob_leases b;
     ob_authorizations := ob_authorizations b; ob_commits := ob_commits b |}.

Definition consume_outer (outer_lease_id : string) b : ObjectiveBoundEffectCommitBroker V :=
  {| ob_guard := ob_guard b; ob_delegate := ob_delegate b;
     ob_leases := alter burn_outer outer_lease_id (ob_leases b);
     ob_authorizations := ob_authorizations b; ob_commits := ob_commits b |}.

(** [self._authorizations.append(receipt); self._leases[outer_lease_id] = lease] *)
Definition add_outer (r : ObjectiveEffectAuthorizationReceipt) (l : _ObjectiveLease) b
    : ObjectiveBoundEffectCommitBroker V :=
  {| ob_guard := ob_guard b; ob_delegate := ob_delegate b;
     ob_leases := <[ol_outer_lease_id l := l]> (ob_leases b);
     ob_authorizations := ob_authorizations b ++ [r]; ob_commits := ob_commits b |}.

Definition push_outer_commit (r : ObjectiveEffectCommitReceipt) b
    : ObjectiveBoundEffectCommitBroker V :=
  {| ob_guard := ob_guard b; ob_delegate := ob_delegate b; ob_leases := ob_leases b;
     ob_authorizations := ob_authorizations b; ob_commits := ob_commits b ++ [r] |}.

#[export] Program Instance outer_guard
    : Lens (ObjectiveBoundEffectCommitBroker V) (ObjectiveIntegrityGuard V) :=
  {| lget := ob_guard; lput := set_guard |}.
Next Obligation. done. Qed.
Next Obligation. by intros []. Qed.
Next Obligation. done. Qed.

#[export] Program Instance outer_delegate
    : Lens (ObjectiveBoundEffectCommitBroker V) EffectCommitBroker :=
  {| lget := ob_delegate; lput := set_delegate |}.
Next Obligation. done. Qed.
Next Obligation. by intros []. Qed.
Next Obligation. done. Qed.

Definition authorization_receipts b : list dict :=
  map ObjectiveEffectAuthorizationReceipt_as_document (ob_authorizations b).

Definition commit_receipts b : list dict :=
  map ObjectiveEffectCommitReceipt_as_document (ob_commits b).

Definition consumed_outer b : gmap string _ObjectiveLease :=
  filter (fun p => ol_consumed (snd p) = true) (ob_leases b).
End broker_fields.

(** [self.clock] of the outer broker: the one it was given, or its delegate's. *)
Class OuterClock (S : Type) := { outer_clock : M S Z }.

Section objective_effect.
Context {hash : Digest}.

Definition seal_outer_authorization (r : ObjectiveEffectAuthorizationReceipt)
    : ObjectiveEffectAuthorizationReceipt := {|
  oa_operation_id := oa_operation_id r; oa_outer_lease_id_sha256 := oa_outer_lease_id_sha256 r;
  oa_objective_id := oa_objective_id r; oa_method_policy_sha256 := oa_method_policy_sha256 r;
  oa_objective_decision_receipt_sha256 := oa_objective_decision_receipt_sha256 r;
  oa_objective_observation_head_sha256 := oa_objective_observation_head_sha256 r;
  oa_objective_state_sha256 := oa_objective_state_sha256 r;
  oa_objective_decision := oa_objective_decision r; oa_runtime_kind := oa_runtime_kind r;
  oa_scope_sha256 := oa_scope_sha256 r; oa_payload_sha256 := oa_payload_sha256 r;
  oa_capability_receipt_sha256 := oa_capability_receipt_sha256 r;
  oa_inner_authorization_receipt_sha256 := oa_inner_authorization_receipt_sha256 r;
  oa_issued_at_unix := oa_issued_at_unix r; oa_expires_at_unix := oa_expires_at_unix r;
  oa_receipt_sha256 := canonical_sha256 (JObj (ObjectiveEffectAuthorizationReceipt_body r)) |}.

Definition seal_outer_commit (r : ObjectiveEffectCommitReceipt) : ObjectiveEffectCommitReceipt := {|
  oc_operation_id := oc_operation_id r;
  oc_authorization_receipt_sha256 := oc_authorization_receipt_sha256 r;
  oc_outer_lease_id_sha256 := oc_outer_lease_id_sha256 r; oc_objective_id := oc_objective_id r;
  oc_method_policy_sha256 := oc_method_policy_sha256 r;
  oc_objective_observation_head_sha256 := oc_objective_observation_head_sha256 r;
  oc_objective_state_sha256 := oc_objective_state_sha256 r;
  oc_inner_authorization_receipt_sha256 := oc_inner_authorization_receipt_sha256 r;
  oc_inner_commit_receipt_sha256 := oc_inner_commit_receipt_sha256 r;
  oc_committed_at_unix := oc_committed_at_unix r; oc_effect_outcome := oc_effect_outcome r;
  oc_result_sha256 := oc_result_sha256 r; oc_reason_codes := oc_reason_codes r;
  oc_receipt_sha256 := canonical_sha256 (JObj (ObjectiveEffectCommitReceipt_body r)) |}.

(** [f"objective-effect-lease:{len(self._leases)+1}:{canonical_sha256({...})[:20]}"] *)
Definition outer_lease_id_of (count : nat) (objective_sha inner_sha operation_id : string) : string :=
  "objective-effect-lease:" +:+ pretty (Z.of_nat count + 1) +:+ ":" +:+
  String.substring 0 20 (canonical_sha256 (JObj
    [("objective", JStr objective_sha); ("inner", JStr inner_sha);
     ("operation", JStr operation_id)])).

(** The dictionary [expected] of [_verify_objective_allow]. *)
Definition expected_action (operation : RuntimeOperation) : result dict :=
  scope ← normalized_scope operation;
  Ok [("action_id_sha256", JStr (canonical_sha256 (JStr (ro_operation_id operation))));
      ("subject_id_sha256", JStr (canonical_sha256 (JStr (ro_subject_id operation))));
      ("runtime_kind", JStr (ro_kind operation));
      ("scope_sha256", JStr (canonical_sha256 (JObj scope)));
      ("payload_sha256", JStr (ro_payload_sha256 operation))].

(** [a.get(key) != b.get(key)] *)
Definition differs (a b : dict) (key : string) : bool :=
  negb (py_eq (dict_get_none a key) (dict_get_none b key)).

Definition not_false (v : json) : bool := match v with JBool false => false | _ => true end.

Definition _verify_objective_allow (operation : RuntimeOperation) (decision state : dict)
    (governance_policy_sha256 : string) : result unit :=
  _ ← refuse_if (negb (is_str (dict_get_none decision "decision") "ALLOW"))
        "objective_decision_not_allow";
  _ ← refuse_if (negb (is_str (dict_get_none state "decision_floor") "ALLOW")
                 || not_false (dict_get_none state "contained")) "objective_state_not_allow";
  _ ← refuse_if (differs decision state "objective_id") "objective_id_mismatch";
  _ ← refuse_if (differs decision state "method_policy_sha256") "objective_policy_mismatch";
  _ ← refuse_if (differs decision state "observation_head_sha256")
        "stale_objective_observation_head";
  _ ← refuse_if (negb (String.eqb (ro_policy_sha256 operation) governance_policy_sha256))
        "governance_policy_mismatch";
  expected ← expected_action operation;
  refuse_if (existsb (fun kv => negb (py_eq (dict_get_none decision (fst kv)) (snd kv))) expected)
    "objective_decision_action_mismatch".

Definition _objective_mismatch (lease : _ObjectiveLease) (state : dict) : option string :=
  if negb (is_str (dict_get_none state "objective_id") (ol_objective_id lease))
  then Some "objective_id_changed"
  else if negb (is_str (dict_get_none state "method_policy_sha256") (ol_method_policy_sha256 lease))
  then Some "objective_policy_changed"
  else if not_false (dict_get_none state "contained") then Some "objective_containment_active"
  else if negb (is_str (dict_get_none state "decision_floor") "ALLOW")
  then Some "objective_decision_floor_changed"
  else if negb (is_str (dict_get_none state "observation_head_sha256")
                  (ol_observation_head_sha256 lease)) then Some "stale_objective_observation_head"
  else if negb (is_str (dict_get_none state "state_sha256") (ol_objective_state_sha256 lease))
  then Some "objective_state_changed"
  else None.

(** The receipt [_append_commit] builds, or the error of its checks. *)
Definition outer_commit_of (lease : _ObjectiveLease) (state : dict) (committed_at_unix : Z)
    (outcome result_sha256 inner_commit_sha256 : string) (reasons : list string)
    : result ObjectiveEffectCommitReceipt :=
  head ← _sha (dict_get_or state "observation_head_sha256" (JStr (ol_observation_head_sha256 lease)))
           "objective_observation_head_sha256";
  state_sha ← _sha (dict_get_or state "state_sha256" (JStr (ol_objective_state_sha256 lease)))
                "objective_state_sha256";
  inner_sha ← _sha (JStr inner_commit_sha256) "inner_commit_receipt_sha256";
  at_unix ← _time (JInt committed_at_unix) "committed_at_unix";
  result_sha ← _sha (JStr result_sha256) "result_sha256";
  Ok (seal_outer_commit {|
    oc_operation_id := ro_operation_id (ol_operation lease);
    oc_authorization_receipt_sha256 := ol_authorization_receipt_sha256 lease;
    oc_outer_lease_id_sha256 := canonical_sha256 (JStr (ol_outer_lease_id lease));
    oc_objective_id := ol_objective_id lease;
    oc_method_policy_sha256 := ol_method_policy_sha256 lease;
    oc_objective_observation_head_sha256 := head; oc_objective_state_sha256 := state_sha;
    oc_inner_authorization_receipt_sha256 := ol_inner_authorization_receipt_sha256 lease;
    oc_inner_commit_receipt_sha256 := inner_sha; oc_committed_at_unix := at_unix;
    oc_effect_outcome := outcome; oc_result_sha256 := result_sha;
    oc_reason_codes := sorted_set reasons; oc_receipt_sha256 := "" |}).

(** ** The broker: its methods *)
Section host.
Context {V S : Type} {L : Lens S (ObjectiveBoundEffectCommitBroker V)}.
Context {env : EffectEnv S} {clock : OuterClock S}.

Definition guard_in : Lens S (ObjectiveIntegrityGuard V) := lens_comp L outer_guard.
Definition delegate_in : Lens S EffectCommitBroker := lens_comp L outer_delegate.

Definition self_broker : M S (ObjectiveBoundEffectCommitBroker V) :=
  this (T := ObjectiveBoundEffectCommitBroker V).

Definition set_broker
    (f : ObjectiveBoundEffectCommitBroker V -> ObjectiveBoundEffectCommitBroker V) : M S unit :=
  set_this (T := ObjectiveBoundEffectCommitBroker V) f.

(** [self.guard.state_document()] *)
Definition guard_state : M S dict :=
  self ← self_broker;
  lift (ObjectiveIntegrity.state_document (ob_guard self)).

Definition enter_containment (incident_receipt_sha256 : string) : M S unit :=
  _ ← on (H := guard_in) (ObjectiveIntegrity.enter_containment incident_receipt_sha256);
  EffectCommit.enter_containment (L := delegate_in) incident_receipt_sha256.

Definition exit_containment (human_release_receipt_sha256 : string) : M S unit :=
  _ ← EffectCommit.exit_containment (L := delegate_in) human_release_receipt_sha256;
  on (H := guard_in) (ObjectiveIntegrity.exit_containment human_release_receipt_sha256).

Definition _now : M S Z :=
  value ← outer_clock;
  lift (_time (JInt value) "trusted_clock").

Definition _append_commit (lease : _ObjectiveLease) (state : dict) (committed_at_unix : Z)
    (outcome result_sha256 inner_commit_sha256 : string) (reasons : list string) : M S unit :=
  receipt ← lift (outer_commit_of lease state committed_at_unix outcome result_sha256
                    inner_commit_sha256 reasons);
  set_broker (push_outer_commit receipt).

Definition _latest_inner_commit (before_count : nat) : M S string :=
  self ← self_broker;
  let commits := EffectCommit.commit_receipts (ob_delegate self) in
  if (length commits <=? before_count)%nat then mret ZERO_SHA256
  else
    receipt ← lift (match last commits with Some d => Ok d | None => fail KeyError "-1" end);
    sha ← lift (dict_item receipt "receipt_sha256");
    lift (_sha sha "inner_commit_receipt_sha256").

Definition _require_live_lease (outer_lease_id : string) : M S _ObjectiveLease :=
  _ ← lift (refuse_if (String.eqb outer_lease_id "") "unknown_outer_lease");
  self ← self_broker;
  lease ← lift (match ob_leases self !! outer_lease_id with
                | Some l => Ok l
                | None => fail ObjectiveEffectCommitError "unknown_outer_lease"
                end);
  _ ← lift (refuse_if (ol_consumed lease) "outer_lease_replayed");
  mret lease.

Definition _invalidate_and_raise {A} (lease : _ObjectiveLease) (now : Z) (reason : string)
    (state : option dict) : M S A :=
  _ ← set_broker (consume_outer (ol_outer_lease_id lease));
  current ← match state with Some d => mret d | None => guard_state end;
  _ ← _append_commit lease current now "NOT_EXECUTED" ZERO_SHA256 ZERO_SHA256
        ["outer_lease_consumed"; reason];
  raise ObjectiveEffectCommitError reason.

Definition issue_for_trusted_adapter (operation : RuntimeOperation)
    (capability_decision objective_decision : dict) : M S (string * dict) :=
  _ ← lift (RuntimeOperation_validate operation);
  decision ← lift (verify_decision objective_decision);
  state ← guard_state;
  self ← self_broker;
  _ ← lift (_verify_objective_allow operation decision state
              (op_governance_policy_sha256 (og_policy (ob_guard self))));
  capability_sha ← lift (_sha (dict_get_none capability_decision "receipt_sha256")
                           "capability_receipt_sha256");
  inner ← EffectCommit.issue_for_trusted_adapter (L := delegate_in) operation capability_decision;
  let '(inner_lease_id, inner_auth) := inner in
  _ ← lift (EffectCommit.verify_authorization_receipt inner_auth);
  issued_raw ← lift (dict_item inner_auth "issued_at_unix");
  issued ← lift (_time issued_raw "issued_at_unix");
  expires_raw ← lift (dict_item inner_auth "expires_at_unix");
  expires ← lift (_time expires_raw "expires_at_unix");
  decision_sha ← lift (str_item decision "receipt_sha256");
  inner_sha ← lift (str_item inner_auth "receipt_sha256");
  objective_id ← lift (str_item state "objective_id");
  method_policy ← lift (str_item state "method_policy_sha256");
  head ← lift (str_item state "observation_head_sha256");
  state_sha ← lift (str_item state "state_sha256");
  scope ← lift (normalized_scope operation);
  self ← self_broker;
  let outer_lease_id :=
    outer_lease_id_of (size (ob_leases self)) decision_sha inner_sha (ro_operation_id operation) in
  let receipt := seal_outer_authorization {|
    oa_operation_id := ro_operation_id operation;
    oa_outer_lease_id_sha256 := canonical_sha256 (JStr outer_lease_id);
    oa_objective_id := objective_id; oa_method_policy_sha256 := method_policy;
    oa_objective_decision_receipt_sha256 := decision_sha;
    oa_objective_observation_head_sha256 := head; oa_objective_state_sha256 := state_sha;
    oa_objective_decision := "ALLOW"; oa_runtime_kind := ro_kind operation;
    oa_scope_sha256 := canonical_sha256 (JObj scope);
    oa_payload_sha256 := ro_payload_sha256 operation;
    oa_capability_receipt_sha256 := capability_sha;
    oa_inner_authorization_receipt_sha256 := inner_sha; oa_issued_at_unix := issued;
    oa_expires_at_unix := expires; oa_receipt_sha256 := "" |} in
  _ ← set_broker (add_outer receipt {|
    ol_outer_lease_id := outer_lease_id; ol_inner_lease_id := inner_lease_id;
    ol_operation := operation; ol_objective_id := objective_id;
    ol_method_policy_sha256 := method_policy;
    ol_objective_decision_receipt_sha256 := decision_sha; ol_observation_head_sha256 := head;
    ol_objective_state_sha256 := state_sha; ol_capability_receipt_sha256 := capability_sha;
    ol_inner_authorization_receipt_sha256 := inner_sha;
    ol_authorization_receipt_sha256 := oa_receipt_sha256 receipt; ol_issued_at_unix := issued;
    ol_expires_at_unix := expires; ol_consumed := false |});
  mret (outer_lease_id, ObjectiveEffectAuthorizationReceipt_as_document receipt).

(** What [consume_for_trusted_adapter] knows when it burns the outer lease. *)
Record OuterRecheck := { or_now : Z; or_lease : _ObjectiveLease; or_state : dict }.

(** The part of [consume_for_trusted_adapter] before the outer lease is burned. *)
Definition outer_recheck (outer_lease_id : string) : M S OuterRecheck :=
  lease ← _require_live_lease outer_lease_id;
  now ← _now;
  if now <? ol_issued_at_unix lease then _invalidate_and_raise lease now "clock_regression" None
  else if ol_expires_at_unix lease <? now then _invalidate_and_raise lease now "lease_expired" None
  else
    state ← guard_state;
    match _objective_mismatch lease state with
    | Some reason => _invalidate_and_raise lease now reason (Some state)
    | None => mret {| or_now := now; or_lease := lease; or_state := state |}
    end.

(** The part of [consume_for_trusted_adapter] after it: the inner consumption and the
    outer commit receipt. *)
Definition run_inner (c : OuterRecheck) (adapter_token : string)
    (executor : RuntimeOperation -> M S exec_result) : M S ExecutionObservation :=
  self ← self_broker;
  let before_commits := length (EffectCommit.commit_receipts (ob_delegate self)) in
  outcome ← attempt (EffectCommit.consume_for_trusted_adapter (L := delegate_in)
                       (ol_inner_lease_id (or_lease c)) adapter_token executor);
  inner_sha ← _latest_inner_commit before_commits;
  match outcome with
  | inl exc =>
      _ ← _append_commit (or_lease c) (or_state c) (or_now c) "FAILED"
            (canonical_sha256 (JObj [("error_type", JStr (exn_name (exn_cls exc)))])) inner_sha
            ["outer_lease_consumed"; "inner_effect_commit_failed"];
      if decide (exn_cls exc = ObjectiveEffectCommitError) then lift (Err exc)
      else raise ObjectiveEffectCommitError "inner_effect_commit_failed"
  | inr observation =>
      _ ← _append_commit (or_lease c) (or_state c) (or_now c) "SUCCEEDED"
            (eo_result_sha256 observation) inner_sha
            ["objective_policy_rechecked"; "objective_head_rechecked";
             "objective_decision_floor_allow"; "outer_lease_consumed";
             "inner_epoch_effect_committed"; "effect_committed_under_shared_fence"];
      mret observation
  end.

Definition consume_for_trusted_adapter (outer_lease_id adapter_token : string)
    (executor : RuntimeOperation -> M S exec_result) : M S ExecutionObservation :=
  checked ← outer_recheck outer_lease_id;
  _ ← set_broker (consume_outer outer_lease_id);
  run_inner checked adapter_token executor.

Definition commit_authorized_effect (operation : RuntimeOperation)
    (capability_decision objective_decision : dict) (adapter_token : string)
    (executor : RuntimeOperation -> M S exec_result) : M S ExecutionObservation :=
  issued ← issue_for_trusted_adapter operation capability_decision objective_decision;
  consume_for_trusted_adapter (fst issued) adapter_token executor.

Definition state_document (b : ObjectiveBoundEffectCommitBroker V) : result dict :=
  objective_state ← ObjectiveIntegrity.state_document (ob_guard b);
  objective_id ← dict_item objective_state "objective_id";
  method_policy ← dict_item objective_state "method_policy_sha256";
  head ← dict_item objective_state "observation_head_sha256";
  floor ← dict_item objective_state "decision_floor";
  Ok (seal "state_sha256"
    [("schema", JStr STATE_SCHEMA); ("objective_id", objective_id);
     ("method_policy_sha256", method_policy); ("objective_observation_head_sha256", head);
     ("objective_decision_floor", floor);
     ("lease_count", JInt (Z.of_nat (size (ob_leases b))));
     ("consumed_count", JInt (Z.of_nat (size (consumed_outer b))));
     ("authorization_count", JInt (Z.of_nat (length (ob_authorizations b))));
     ("commit_count", JInt (Z.of_nat (length (ob_commits b)))); ("authority", JObj AUTHORITY)]).
End host.

(** ** The objective-bound mediator *)
Record ObjectiveBoundEffectRuntimeMediator (V B G : Type) := {
  om_base : RuntimeMediator B G;
  om_objective_effect_broker : ObjectiveBoundEffectCommitBroker V;
  om_adapter_token : string
}.
#[global] Arguments om_base {V B G} _.
#[global] Arguments om_objective_effect_broker {V B G} _.
#[global] Arguments om_adapter_token {V B G} _.

Section mediator_fields.
Context {V B G : Type}.

(** The constructor of the base class and the check of the token. *)
Definition ObjectiveBoundEffectRuntimeMediator_init (broker : B) (egress_gateway : option G)
    (objective_effect_broker : ObjectiveBoundEffectCommitBroker V) (adapter_token : string)
    : result (ObjectiveBoundEffectRuntimeMediator V B G) :=
  _ ← refuse_if (String.eqb adapter_token "") "adapter_token_required";
  Ok {| om_base := RuntimeMediator_init broker egress_gateway;
        om_objective_effect_broker := objective_effect_broker; om_adapter_token := adapter_token |}.

Definition set_base (base : RuntimeMediator B G) (m : ObjectiveBoundEffectRuntimeMediator V B G)
    : ObjectiveBoundEffectRuntimeMediator V B G :=
  {| om_base := base; om_objective_effect_broker := om_objective_effect_broker m;
     om_adapter_token := om_adapter_token m |}.

Definition set_effect_broker (b : ObjectiveBoundEffectCommitBroker V)
    (m : ObjectiveBoundEffectRuntimeMediator V B G) : ObjectiveBoundEffectRuntimeMediator V B G :=
  {| om_base := om_base m; om_objective_effect_broker := b;
     om_adapter_token := om_adapter_token m |}.

#[export] Program Instance base_field
    : Lens (ObjectiveBoundEffectRuntimeMediator V B G) (RuntimeMediator B G) :=
  {| lget := om_base; lput := set_base |}.
Next Obligation. done. Qed.
Next Obligation. by intros []. Qed.
Next Obligation. done. Qed.

#[export] Program Instance effect_broker_field
    : Lens (ObjectiveBoundEffectRuntimeMediator V B G) (ObjectiveBoundEffectCommitBroker V) :=
  {| lget := om_objective_effect_broker; lput := set_effect_broker |}.
Next Obligation. done. Qed.
Next Obligation. by intros []. Qed.
Next Obligation. done. Qed.
End mediator_fields.

Section mediator.
Context {V B G S : Type} {bops : BrokerOps B} {env : EffectEnv S} {clock : OuterClock S}.
Context {L : Lens S (ObjectiveBoundEffectRuntimeMediator V B G)}.

Definition base_in : Lens S (RuntimeMediator B G) := lens_comp L base_field.
Definition broker_in : Lens S (ObjectiveBoundEffectCommitBroker V) :=
  lens_comp L effect_broker_field.
Definition mediator_guard : Lens S (ObjectiveIntegrityGuard V) := guard_in (L := broker_in).

Definition ObjectiveBoundEffectRuntimeMediator_enter_containment
    (incident_receipt_sha256 : string) : M S unit :=
  _ ← on (H := base_in) (Mediation.enter_containment incident_receipt_sha256);
  enter_containment (L := broker_in) incident_receipt_sha256.

Definition ObjectiveBoundEffectRuntimeMediator_exit_containment
    (human_release_receipt_sha256 : string) : M S unit :=
  _ ← exit_containment (L := broker_in) human_release_receipt_sha256;
  on (H := base_in) (Mediation.exit_containment human_release_receipt_sha256).

(** [self._finish(...)] of the base class. *)
Definition finish_base (operation : RuntimeOperation) (capability_receipt_sha admission outcome
    result_sha : string) (reasons : list string) (capability_id : option string)
    (scope_sha : string) : M S dict :=
  on (H := base_in) (Mediation._finish operation capability_receipt_sha admission outcome
    result_sha reasons capability_id scope_sha None).

(** [self.broker.authorize(...)] with the action bound to the objective decision. *)
Definition request_bound_capability (operation : RuntimeOperation) (scope gate : dict)
    : M S dict :=
  capability_type ← lift (table_item OPERATION_TO_CAPABILITY (ro_kind operation));
  gate_sha ← lift (dict_item gate "receipt_sha256");
  gate_head ← lift (dict_item gate "observation_head_sha256");
  on (H := base_in) (on_broker (op_authorize (ro_subject_id operation) capability_type
    (ro_policy_sha256 operation) scope
    (action_document operation (canonical_sha256 (JObj scope))
     ++ [("objective_decision_receipt_sha256", gate_sha);
         ("objective_observation_head_sha256", gate_head)])
    (ro_at_unix operation) None None)).

(** The part of [mediate] after the broker's ALLOW. *)
Definition commit_admitted (operation : RuntimeOperation)
    (executor : RuntimeOperation -> M S exec_result) (gate capability : dict) (scope_sha : string)
    : M S dict :=
  host ← get_state;
  outcome ← attempt (commit_authorized_effect (L := broker_in) operation capability gate
                       (om_adapter_token (lget host)) executor);
  sha ← lift (str_item capability "receipt_sha256");
  capability_id ← lift (opt_str capability "capability_id");
  match outcome with
  | inl exc =>
      finish_base operation sha "ALLOW" "FAILED"
        (canonical_sha256 (JObj [("error_type", JStr (exn_name (exn_cls exc)))]))
        ["objective_bound_effect_commit_failed"] capability_id scope_sha
  | inr observation =>
      finish_base operation sha "ALLOW" "SUCCEEDED" (eo_result_sha256 observation)
        ["objective_integrity_allow"; "capability_admitted";
         "objective_bound_effect_lease_consumed"; "host_executor_succeeded"] capability_id scope_sha
  end.

Definition ObjectiveBoundEffectRuntimeMediator_mediate (operation : RuntimeOperation)
    (executor : RuntimeOperation -> M S exec_result) : M S dict :=
  _ ← lift (RuntimeOperation_validate operation);
  scope ← lift (normalized_scope operation);
  let scope_sha := canonical_sha256 (JObj scope) in
  host ← get_state;
  if rm_contained (om_base (lget (T := ObjectiveBoundEffectRuntimeMediator V B G) host)) then
    finish_base operation ZERO_SHA256 "BLOCK" "NOT_EXECUTED" ZERO_SHA256
      ["containment_active"; "objective_bound_effect_blocked"] None scope_sha
  else
    gate ← on (H := mediator_guard) (evaluate_operation operation);
    decision ← lift (str_item gate "decision");
    if negb (String.eqb decision "ALLOW") then
      finish_base operation ZERO_SHA256 "BLOCK" "NOT_EXECUTED" ZERO_SHA256
        ["objective_integrity_gate_blocked"; "objective_decision:" +:+ decision] None scope_sha
    else
      capability ← request_bound_capability operation scope gate;
      verdict ← lift (dict_item capability "decision");
      if negb (is_str verdict "ALLOW") then
        sha ← lift (str_item capability "receipt_sha256");
        codes ← lift (codes_item capability "reason_codes");
        finish_base operation sha "BLOCK" "NOT_EXECUTED" ZERO_SHA256 codes None scope_sha
      else
        commit_admitted operation executor gate capability scope_sha.
End mediator.

(** ** Verification of receipts *)
Definition verify_authorization_receipt (document : dict) : result dict :=
  let raw := dict_del document "receipt_sha256" in
  let digest := dict_get_none document "receipt_sha256" in
  _ ← refuse_if (negb (envelope_ok raw LEASE_SCHEMA AUTHORITY))
        "authorization_receipt_schema_mismatch";
  _ ← refuse_if (negb (is_str (dict_get_none raw "objective_decision") "ALLOW"))
        "authorization_receipt_not_allow";
  _ ← refuse_if (negb (is_str digest (canonical_sha256 (JObj raw))))
        "authorization_receipt_digest_mismatch";
  Ok document.

Definition verify_commit_receipt (document : dict) : result dict :=
  let raw := dict_del document "receipt_sha256" in
  let digest := dict_get_none document "receipt_sha256" in
  _ ← refuse_if (negb (envelope_ok raw COMMIT_SCHEMA AUTHORITY)) "commit_receipt_schema_mismatch";
  bad ← EpochBroker.not_in_set (dict_get_none raw "effect_outcome")
          ["SUCCEEDED"; "FAILED"; "NOT_EXECUTED"];
  _ ← refuse_if bad "commit_receipt_outcome_invalid";
  _ ← refuse_if (negb (is_str digest (canonical_sha256 (JObj raw))))
        "commit_receipt_digest_mismatch";
  Ok document.
End objective_effect.

(** ** Lemmas *)
Lemma outer_sha_ok v name s : _sha v name = Ok s <-> v = JStr s /\ re_sha s = true.
Proof. apply check_sha_ok. Qed.

Lemma outer_sha_run name s : re_sha s = true -> _sha (JStr s) name = Ok s.
Proof. intros Hs. by apply outer_sha_ok. Qed.

Lemma outer_time_ok v name z : _time v name = Ok z <-> v = JInt z /\ 0 <= z.
Proof.
  unfold _time. destruct v; try (split; [done|by intros [? _]]).
  destruct (Z.ltb_spec z0 0); split; try done; intros H'; [|by injection H' as <-|];
    destruct H' as [[= <-] ?]; [lia|done].
Qed.

Lemma outer_time_run name z : 0 <= z -> _time (JInt z) name = Ok z.
Proof. intros Hz. by apply outer_time_ok. Qed.

Lemma str_item_ok d key s : str_item d key = Ok s -> dict_get d key = Some (JStr s).
Proof.
  unfold str_item. intros H. destruct (dict_item d key) as [v|] eqn:Hv; [|done].
  apply dict_item_ok in Hv. rewrite Hv. destruct v; try done. by injection H as <-.
Qed.

Lemma burn_outer_burn l : burn_outer (burn_outer l) = burn_outer l.
Proof. done. Qed.

Lemma burn_outer_consumed l : ol_consumed l = true -> burn_outer l = l.
Proof. destruct l. cbn. by intros ->. Qed.

(** *** What the guard's state document says *)
Section guard_documents.
Context {hash : Digest} {V : Type}.
Implicit Types g : ObjectiveIntegrityGuard V.

Lemma guard_head_sha g : guard_inv g -> re_sha (og_observation_head g) = true.
Proof.
  intros Hg. pose proof (gi_linked g Hg) as Hl. pose proof (gi_observations g Hg) as Hw. revert Hl Hw.
  generalize (og_observations g) as l. intros l. generalize (og_observation_head g) as h'.
  assert (re_sha ZERO_SHA256 = true) as Hz by done. revert Hz. generalize ZERO_SHA256 as h.
  induction l as [|o l IH]; cbn; [by intros h Hh h' ->|].
  intros h _ h' [_ Hl] [Ho Hw]%Forall_cons. eapply IH; [|exact Hl|exact Hw].
  rewrite (ow_sha _ Ho). apply canonical_sha256_sha.
Qed.

(** The document, with the decision floor [floor] of the observations. *)
Record guard_document g (d : dict) : Prop := {
  gd_objective : dict_get d "objective_id" = Some (JStr (op_objective_id (og_policy g)));
  gd_policy : dict_get d "method_policy_sha256" = Some (JStr (op_policy_sha256 (og_policy g)));
  gd_head : dict_get d "observation_head_sha256" = Some (JStr (og_observation_head g));
  gd_contained : dict_get d "contained" = Some (JBool (og_contained g));
  gd_floor : dict_get d "decision_floor" = Some (JStr "ALLOW")
             <-> og_contained g = false /\ og_observations g = [];
  gd_sha : exists sha, dict_get d "state_sha256" = Some (JStr sha) /\ re_sha sha = true
}.

Lemma guard_state_run g : guard_inv g -> exists d,
  ObjectiveIntegrity.state_document g = Ok d /\ guard_document g d.
Proof.
  intros Hg. pose proof (observed_codes_known g Hg) as Hk.
  assert (forall c, c ∈ sorted_set (observed_codes g) <-> c ∈ observed_codes g) as Hin
    by (intros c; apply elem_of_sorted_set).
  destruct (decision_max_spec (map floor_of (sorted_set (observed_codes g))) (floors_known _))
    as (floor & Hfloor & _).
  pose proof (decision_max_exact _ _ (floors_known _) Hfloor) as (_ & _ & _ & Hallow).
  unfold ObjectiveIntegrity.state_document. rewrite floors_run by (intros c Hc; apply Hk, Hin, Hc).
  rewrite bind_Ok, Hfloor, bind_Ok. eexists. split; [reflexivity|]. constructor; try reflexivity.
  - cbn. destruct (og_contained g); [by split; [|intros []]|].
    assert (floor = "ALLOW" <-> og_observations g = []) as <-.
    { rewrite Hallow, !(floor_elem g) by exact Hin. pose proof (seen_iff g) as Hs.
      destruct (og_observations g) as [|o l] eqn:E.
      - split; [done|intros _]. assert (~ (critical_seen g \/ noncritical_seen g)) as Hno
          by (rewrite <- Hs; congruence). split_and!; intros [[? ?]|[? ?]]; naive_solver.
      - split; [|done]. assert (critical_seen g \/ noncritical_seen g) as [?|?] by (by apply Hs);
          intros (_ & H1 & H2); exfalso; naive_solver. }
    split; [by intros [= ->]|by intros [_ ->]].
  - eexists. split; [reflexivity|]. apply canonical_sha256_sha.
Qed.
End guard_documents.

(** *** Commit receipts *)
Section outer_commits.
Context {hash : Digest} {V : Type}.
Implicit Types (g : ObjectiveIntegrityGuard V) (l : _ObjectiveLease).

(** The receipt is one of the lease. *)
Record outer_receipt_of l (c : ObjectiveEffectCommitReceipt) : Prop := {
  oo_authorization : oc_authorization_receipt_sha256 c = ol_authorization_receipt_sha256 l;
  oo_lease : oc_outer_lease_id_sha256 c = canonical_sha256 (JStr (ol_outer_lease_id l));
  oo_operation : oc_operation_id c = ro_operation_id (ol_operation l);
  oo_objective : oc_objective_id c = ol_objective_id l;
  oo_policy : oc_method_policy_sha256 c = ol_method_policy_sha256 l;
  oo_inner : oc_inner_authorization_receipt_sha256 c = ol_inner_authorization_receipt_sha256 l;
  oo_outcome : oc_effect_outcome c ∈ ["SUCCEEDED"; "FAILED"; "NOT_EXECUTED"];
  oo_digest : oc_receipt_sha256 c = canonical_sha256 (JObj (ObjectiveEffectCommitReceipt_body c))
}.

Lemma outer_commit_run l g d now outcome result inner reasons : guard_document g d -> 0 <= now ->
  re_sha (og_observation_head g) = true -> re_sha result = true -> re_sha inner = true ->
  outcome ∈ ["SUCCEEDED"; "FAILED"; "NOT_EXECUTED"] ->
  exists c, outer_commit_of l d now outcome result inner reasons = Ok c /\ outer_receipt_of l c
    /\ oc_effect_outcome c = outcome /\ oc_result_sha256 c = result
    /\ oc_inner_commit_receipt_sha256 c = inner /\ oc_committed_at_unix c = now
    /\ oc_objective_observation_head_sha256 c = og_observation_head g
    /\ dict_get d "state_sha256" = Some (JStr (oc_objective_state_sha256 c)).
Proof.
  intros Hd Hnow Hhead Hres Hinner Hout. destruct (gd_sha _ _ Hd) as (sha & Hsha & Hre).
  unfold outer_commit_of, dict_get_or. rewrite (gd_head _ _ Hd), Hsha. cbn [default from_option].
  eexists. split; [|split].
  - rewrite (outer_sha_run "objective_observation_head_sha256"), bind_Ok by done.
    rewrite (outer_sha_run "objective_state_sha256"), bind_Ok by done.
    rewrite (outer_sha_run "inner_commit_receipt_sha256"), bind_Ok by done.
    rewrite outer_time_run, bind_Ok by done.
    by rewrite (outer_sha_run "result_sha256"), bind_Ok by done.
  - by constructor.
  - done.
Qed.

Lemma outer_commit_verifies l c : outer_receipt_of l c ->
  verify_commit_receipt (ObjectiveEffectCommitReceipt_as_document c)
  = Ok (ObjectiveEffectCommitReceipt_as_document c).
Proof.
  intros Hc. unfold verify_commit_receipt. cbv zeta.
  change (dict_del (ObjectiveEffectCommitReceipt_as_document c) "receipt_sha256")
    with (ObjectiveEffectCommitReceipt_body c).
  replace (envelope_ok _ COMMIT_SCHEMA AUTHORITY) with true by (by vm_compute). unfold refuse_if.
  cbn [negb raise_if]. rewrite bind_Ok.
  change (dict_get_none (ObjectiveEffectCommitReceipt_body c) "effect_outcome")
    with (JStr (oc_effect_outcome c)).
  assert (EpochBroker.not_in_set (JStr (oc_effect_outcome c)) ["SUCCEEDED"; "FAILED"; "NOT_EXECUTED"]
          = Ok false) as ->.
  { pose proof (oo_outcome _ _ Hc) as Ho. set_unfold in Ho. by destruct_or? Ho; rewrite Ho. }
  rewrite bind_Ok. cbn [raise_if]. rewrite bind_Ok.
  change (dict_get_none (ObjectiveEffectCommitReceipt_as_document c) "receipt_sha256")
    with (JStr (oc_receipt_sha256 c)).
  rewrite (oo_digest _ _ Hc). cbn [is_str]. by rewrite String.eqb_refl.
Qed.

(** The authorization describes the lease. *)
Record outer_authorization_of l (a : ObjectiveEffectAuthorizationReceipt) : Prop := {
  oz_receipt : oa_receipt_sha256 a = ol_authorization_receipt_sha256 l;
  oz_lease : oa_outer_lease_id_sha256 a = canonical_sha256 (JStr (ol_outer_lease_id l));
  oz_operation : oa_operation_id a = ro_operation_id (ol_operation l);
  oz_payload : oa_payload_sha256 a = ro_payload_sha256 (ol_operation l);
  oz_objective : oa_objective_id a = ol_objective_id l;
  oz_policy : oa_method_policy_sha256 a = ol_method_policy_sha256 l;
  oz_head : oa_objective_observation_head_sha256 a = ol_observation_head_sha256 l;
  oz_state : oa_objective_state_sha256 a = ol_objective_state_sha256 l;
  oz_decision : oa_objective_decision_receipt_sha256 a = ol_objective_decision_receipt_sha256 l;
  oz_inner : oa_inner_authorization_receipt_sha256 a = ol_inner_authorization_receipt_sha256 l;
  oz_issued : oa_issued_at_unix a = ol_issued_at_unix l;
  oz_expires : oa_expires_at_unix a = ol_expires_at_unix l
}.

Definition outer_authorization_good (a : ObjectiveEffectAuthorizationReceipt) : Prop :=
  oa_objective_decision a = "ALLOW"
  /\ oa_receipt_sha256 a = canonical_sha256 (JObj (ObjectiveEffectAuthorizationReceipt_body a)).

Lemma outer_authorization_verifies a : outer_authorization_good a ->
  verify_authorization_receipt (ObjectiveEffectAuthorizationReceipt_as_document a)
  = Ok (ObjectiveEffectAuthorizationReceipt_as_document a).
Proof.
  intros [Hallow Hd]. unfold verify_authorization_receipt. cbv zeta.
  change (dict_del (ObjectiveEffectAuthorizationReceipt_as_document a) "receipt_sha256")
    with (ObjectiveEffectAuthorizationReceipt_body a).
  replace (envelope_ok _ LEASE_SCHEMA AUTHORITY) with true by (by vm_compute). unfold refuse_if.
  cbn [negb raise_if]. rewrite bind_Ok.
  change (dict_get_none (ObjectiveEffectAuthorizationReceipt_body a) "objective_decision")
    with (JStr (oa_objective_decision a)). rewrite Hallow. cbn [is_str].
  change (String.eqb "ALLOW" "ALLOW") with true. cbn [negb raise_if]. rewrite bind_Ok.
  change (dict_get_none (ObjectiveEffectAuthorizationReceipt_as_document a) "receipt_sha256")
    with (JStr (oa_receipt_sha256 a)).
  rewrite Hd. cbn [is_str]. by rewrite String.eqb_refl.
Qed.
End outer_commits.

(** *** The recheck of an outer lease *)
Section outer_recheck_lemmas.
Context {hash : Digest} {V S : Type} {L : Lens S (ObjectiveBoundEffectCommitBroker V)}.
Context {env : EffectEnv S} {clock : OuterClock S}.
Implicit Types (s : S) (b : ObjectiveBoundEffectCommitBroker V) (l : _ObjectiveLease).

Definition outer (s : S) : ObjectiveBoundEffectCommitBroker V := lget s.

(** A call that leaves the outer broker, and so its guard and its delegate, alone. *)
Definition outer_silent {A} (m : M S A) : Prop := evolves (fun s s' => outer s' = outer s) m.

Lemma outer_put b s : outer (lput b s) = b.
Proof. apply lget_lput. Qed.

#[export] Instance outer_same_preorder : PreOrder (fun s s' : S => outer s' = outer s).
Proof. split; [by intros s|]. intros s1 s2 s3 H1 H2. congruence. Qed.

(** The clocks and providers answer; they do not call the brokers. *)
Record outer_silent_env : Prop := {
  so_outer : outer_silent outer_clock;
  so_clock : outer_silent env_clock;
  so_world : outer_silent env_world;
  so_session operation_id : outer_silent (env_session operation_id);
  so_capabilities : outer_silent env_capabilities
}.

Lemma delegate_silent : outer_silent_env -> silent_env (L := delegate_in (V := V)).
Proof.
  intros [_ H1 H2 H3 H4].
  constructor; intros; intros s; cbn; unfold outer_silent, evolves, outer in *;
    by rewrite ?H1, ?H2, ?H3, ?H4.
Qed.

(** What is known when the outer lease is burned: the lease is unused and in time, and
    the guard is not contained, has seen no violation, and has the objective, the
    policy, the observation head and the state the lease was issued in. *)
Record outer_rechecked (outer_lease_id : string) b (c : OuterRecheck) : Prop := {
  ok_known : ob_leases b !! outer_lease_id = Some (or_lease c);
  ok_unused : ol_consumed (or_lease c) = false;
  ok_now : 0 <= or_now c;
  ok_time : ol_issued_at_unix (or_lease c) <= or_now c <= ol_expires_at_unix (or_lease c);
  ok_state : ObjectiveIntegrity.state_document (ob_guard b) = Ok (or_state c);
  ok_clean : og_contained (ob_guard b) = false /\ og_observations (ob_guard b) = [];
  ok_objective : op_objective_id (og_policy (ob_guard b)) = ol_objective_id (or_lease c);
  ok_policy : op_policy_sha256 (og_policy (ob_guard b)) = ol_method_policy_sha256 (or_lease c);
  ok_head : og_observation_head (ob_guard b) = ol_observation_head_sha256 (or_lease c);
  ok_same : dict_get (or_state c) "state_sha256" = Some (JStr (ol_objective_state_sha256 (or_lease c)))
}.

(** The lease is burned without running anything, and the refusal is on record. *)
Definition refused_outer (outer_lease_id : string) b b' : Prop :=
  exists l c, ob_leases b !! outer_lease_id = Some l /\ ol_consumed l = false
    /\ outer_receipt_of l c /\ oc_effect_outcome c = "NOT_EXECUTED"
    /\ b' = push_outer_commit c (consume_outer outer_lease_id b).

Lemma invalidate_run {A} l now reason st s : guard_inv (ob_guard (outer s)) -> 0 <= now ->
  match st with
  | Some d => guard_document (ob_guard (outer s)) d
  | None => True
  end ->
  exists c, outer_receipt_of l c /\ oc_effect_outcome c = "NOT_EXECUTED"
  /\ _invalidate_and_raise (A := A) l now reason st s
     = (Err (Exn ObjectiveEffectCommitError reason),
        lput (push_outer_commit c (consume_outer (ol_outer_lease_id l) (outer s))) s).
Proof.
  intros Hg Hnow Hst. unfold outer in *. pose proof (guard_head_sha _ Hg) as Hhead.
  unfold _invalidate_and_raise, set_broker. rewrite M_set_this.
  assert (exists d, guard_document (ob_guard (lget s)) d
    /\ forall f : dict -> M S A, ((match st with Some d => mret d | None => guard_state end) ≫= f)
         (lput (consume_outer (ol_outer_lease_id l) (lget s)) s)
       = f d (lput (consume_outer (ol_outer_lease_id l) (lget s)) s)) as (d & Hd & Hrun).
  { destruct st as [d|]; [by exists d|]. destruct (guard_state_run _ Hg) as (d & Hd & Hdoc).
    exists d. split; [done|]. intros f. rewrite M_bind_eq. unfold guard_state, self_broker.
    rewrite M_this, lget_lput. cbn [consume_outer ob_guard]. by rewrite Hd. }
  destruct (outer_commit_run l _ d now "NOT_EXECUTED" ZERO_SHA256 ZERO_SHA256
    ["outer_lease_consumed"; reason] Hd Hnow Hhead eq_refl eq_refl) as (c & Hc & Hof & Hout & _).
  { by apply mem_true. }
  exists c. split_and!; [done..|]. rewrite Hrun. unfold _append_commit. rewrite M_bind_eq, M_lift, Hc.
  unfold set_broker, set_this, modify. cbn. by rewrite lget_lput, lput_lput.
Qed.

Lemma same_document v x : negb (is_str v x) = false -> v = JStr x.
Proof. intros H%negb_false_iff. destruct v; try done. by apply String.eqb_eq in H as ->. Qed.

Lemma mismatch_none (g : ObjectiveIntegrityGuard V) d l : guard_document g d -> _objective_mismatch l d = None ->
  og_contained g = false /\ og_observations g = []
  /\ op_objective_id (og_policy g) = ol_objective_id l
  /\ op_policy_sha256 (og_policy g) = ol_method_policy_sha256 l
  /\ og_observation_head g = ol_observation_head_sha256 l
  /\ dict_get d "state_sha256" = Some (JStr (ol_objective_state_sha256 l)).
Proof.
  intros [Ho Hp Hh Hc Hf (sha & Hs & _)] Hm. unfold _objective_mismatch in Hm.
  unfold dict_get_none, dict_get_or in Hm. rewrite Ho, Hp, Hh, Hc, Hs in Hm.
  repeat match type of Hm with (if ?c then _ else _) = None =>
    let E := fresh "E" in destruct c eqn:E; [done|] end.
  apply same_document in E, E0, E2, E3, E4.
  injection E as E. injection E0 as E0. injection E3 as E3. injection E4 as E4.
  assert (og_contained g = false /\ og_observations g = []) as [? ?].
  { apply Hf. destruct (dict_get d "decision_floor"); congruence. }
  rewrite Hs, E4. done.
Qed.

Lemma outer_recheck_cases id s : outer_silent_env -> guard_inv (ob_guard (outer s)) ->
  (forall l, ob_leases (outer s) !! id = Some l -> ol_outer_lease_id l = id) ->
  (exists e s', outer_recheck id s = (Err e, s')
     /\ (outer s' = outer s \/ refused_outer id (outer s) (outer s')))
  \/ exists c s', outer_recheck id s = (Ok c, s') /\ outer s' = outer s /\ outer_rechecked id (outer s) c.
Proof.
  intros He Hg Hid. remember (outer_recheck id s) as f eqn:Hf. unfold outer_recheck in Hf.
  rewrite M_bind_eq in Hf. unfold _require_live_lease, self_broker in Hf.
  rewrite M_lift in Hf. destruct (refuse_if (String.eqb id "") _) as [[]|e]; [|left; subst f; eauto].
  rewrite M_this, M_lift in Hf. destruct (ob_leases (lget s) !! id) as [l|] eqn:Hl; [|left; subst f; eauto].
  rewrite M_lift in Hf. unfold refuse_if at 1 in Hf.
  destruct (ol_consumed l) eqn:Hu; cbn [raise_if] in Hf; [left; subst f; eauto 6|].
  cbn [mret M_ret] in Hf. rewrite M_bind_eq in Hf. unfold _now in Hf. rewrite M_bind_eq in Hf.
  pose proof (so_outer He s) as Hs1. destruct (outer_clock s) as [[now|e] s1]; cbn in Hs1;
    [|left; subst f; eauto 6].
  cbn [lift] in Hf. destruct (_time (JInt now) _) as [z|e] eqn:Ht; [|left; subst f; eauto 6].
  apply outer_time_ok in Ht as [[= <-] Hnow].
  assert (forall reason st, match st with Some d => guard_document (ob_guard (outer s)) d | None => True end ->
    exists e s', _invalidate_and_raise (A := OuterRecheck) l now reason st s1 = (Err e, s')
     /\ (outer s' = outer s \/ refused_outer id (outer s) (outer s'))) as Hinv.
  { intros reason st Hst. destruct (invalidate_run (A := OuterRecheck) l now reason st s1)
      as (c & Hc & Hout & Hrun); [by rewrite Hs1|done|by rewrite Hs1|].
    rewrite Hrun. do 2 eexists. split; [reflexivity|]. right. unfold outer in *. rewrite lget_lput, Hs1.
    exists l, c. split_and!; [done..|]. by rewrite (Hid l). }
  destruct (Z.ltb_spec now (ol_issued_at_unix l)); [left; rewrite Hf; by apply Hinv|].
  destruct (Z.ltb_spec (ol_expires_at_unix l) now); [left; rewrite Hf; by apply Hinv|].
  rewrite M_bind_eq in Hf. unfold guard_state, self_broker in Hf. rewrite M_this in Hf.
  destruct (guard_state_run _ Hg) as (d & Hd & Hdoc).
  unfold outer in Hs1. rewrite Hs1 in Hf. unfold outer in Hd. rewrite Hd in Hf. cbn [lift] in Hf.
  destruct (_objective_mismatch l d) as [reason|] eqn:Hm; [left; rewrite Hf; by apply Hinv|].
  destruct (mismatch_none _ _ _ Hdoc Hm) as (? & ? & ? & ? & ? & ?).
  right. eexists _, s1. split; [exact Hf|]. split; [done|].
  unfold outer in *. by constructor.
Qed.

Lemma outer_consume_cases id s : outer_silent_env -> guard_inv (ob_guard (outer s)) ->
  (forall l, ob_leases (outer s) !! id = Some l -> ol_outer_lease_id l = id) ->
  (exists e s', (outer s' = outer s \/ refused_outer id (outer s) (outer s'))
     /\ forall token executor, consume_for_trusted_adapter id token executor s = (Err e, s'))
  \/ exists c s', outer s' = consume_outer id (outer s) /\ outer_rechecked id (outer s) c
     /\ forall token executor, consume_for_trusted_adapter id token executor s
                               = run_inner c token executor s'.
Proof.
  intros He Hg Hid.
  destruct (outer_recheck_cases id s He Hg Hid) as [(e & s' & Hr & Hs)|(c & s' & Hr & Hs & Hc)].
  - left. exists e, s'. split; [done|]. intros token executor. unfold consume_for_trusted_adapter.
    by rewrite M_bind_eq, Hr.
  - right. exists c, (lput (consume_outer id (lget s')) s'). unfold outer in *. rewrite lget_lput, Hs.
    split_and!; [done|done|]. intros token executor. unfold consume_for_trusted_adapter, set_broker.
    by rewrite M_bind_eq, Hr, M_set_this, Hs.
Qed.
End outer_recheck_lemmas.

(** *** Frames

    As for the inner broker: what every update of the outer broker and every host call
    respects, a whole call of the outer broker respects. *)
Section outer_frames.
Context {hash : Digest} {V S : Type} {L : Lens S (ObjectiveBoundEffectCommitBroker V)}.
Context {env : EffectEnv S} {clock : OuterClock S}.
Context (R : S -> S -> Prop) `{!PreOrder R}.
Context (Hset : forall f, evolves R (set_this (T := ObjectiveBoundEffectCommitBroker V) f)).
Context (Houter : evolves R outer_clock).
Context (Hclock : evolves R env_clock) (Hworld : evolves R env_world).
Context (Hsession : forall op, evolves R (env_session op)) (Hcaps : evolves R env_capabilities).

Lemma set_inner_frame f : evolves R (set_this (H := delegate_in (V := V)) f).
Proof. intros s. exact (Hset (fun b => set_delegate (f (ob_delegate b)) b) s). Qed.

Lemma on_guard_frame {A} (m : M (ObjectiveIntegrityGuard V) A) : evolves R (on (H := guard_in) m).
Proof.
  intros s. specialize (Hset (fun b => set_guard (snd (m (ob_guard b))) b) s). rewrite on_run.
  cbn in Hset |- *. by destruct (m (ob_guard (lget s))).
Qed.

Ltac outer_step_frame := first
  [ evolve_step | apply Hset | apply Houter
  | match goal with |- evolves _ (match ?x with _ => _ end) => destruct x end ].

Lemma outer_issue_frame op cap decision : evolves R (issue_for_trusted_adapter op cap decision).
Proof.
  unfold issue_for_trusted_adapter, guard_state, self_broker, set_broker.
  repeat first [apply (issue_frame (L := delegate_in)); [done|apply set_inner_frame|done..] | outer_step_frame].
Qed.

Lemma outer_consume_frame id token (executor : RuntimeOperation -> M S exec_result) :
  (forall op, evolves R (executor op)) -> evolves R (consume_for_trusted_adapter id token executor).
Proof.
  intros Hex. unfold consume_for_trusted_adapter, outer_recheck, run_inner, _require_live_lease, _now,
    _invalidate_and_raise, _latest_inner_commit, _append_commit, guard_state, self_broker, set_broker.
  repeat first [apply (consume_frame (L := delegate_in)); [done|apply set_inner_frame|done..] | outer_step_frame].
Qed.

Lemma outer_containment_frame (c : bool) sha :
  evolves R (if c then enter_containment sha else exit_containment sha).
Proof.
  destruct c; unfold enter_containment, exit_containment; (evolve_step; [|]).
  - apply on_guard_frame.
  - apply (containment_frame (L := delegate_in) R set_inner_frame true).
  - apply (containment_frame (L := delegate_in) R set_inner_frame false).
  - apply on_guard_frame.
Qed.
End outer_frames.

(** *** The outer broker's invariant *)
Section outer_invariant.
Context {hash : Digest} {V : Type}.
Implicit Types (b : ObjectiveBoundEffectCommitBroker V) (l : _ObjectiveLease).

(** The inner lease the outer one stands for: the same operation, in the same time. *)
Definition inner_lease (delegate : EffectCommitBroker) l : Prop :=
  exists il, eb_leases delegate !! ol_inner_lease_id l = Some il
    /\ ls_operation il = ol_operation l
    /\ ls_authorization_receipt_sha256 il = ol_inner_authorization_receipt_sha256 l
    /\ ls_issued_at_unix il = ol_issued_at_unix l /\ ls_expires_at_unix il = ol_expires_at_unix l.

Definition numbered_outer (count : nat) (outer_lease_id : string) : Prop :=
  exists n rest, 1 <= n <= Z.of_nat count
    /\ outer_lease_id = "objective-effect-lease:" +:+ pretty n +:+ ":" +:+ rest.

Definition outer_lease_good b (id : string) l : Prop :=
  ol_outer_lease_id l = id /\ numbered_outer (size (ob_leases b)) id /\ inner_lease (ob_delegate b) l
  /\ exists a, a ∈ ob_authorizations b /\ outer_authorization_of l a.

(** A success is backed by the inner broker's commit of the same operation and result,
    and was made in the lease's time, under the lease's observation head and state. *)
Definition success_backed (delegate : EffectCommitBroker) l (c : ObjectiveEffectCommitReceipt) : Prop :=
  ol_issued_at_unix l <= oc_committed_at_unix c <= ol_expires_at_unix l
  /\ oc_objective_observation_head_sha256 c = ol_observation_head_sha256 l
  /\ oc_objective_state_sha256 c = ol_objective_state_sha256 l
  /\ exists ic, ic ∈ eb_commits delegate /\ ec_effect_outcome ic = "SUCCEEDED"
     /\ ec_operation_id ic = oc_operation_id c /\ ec_result_sha256 ic = oc_result_sha256 c
     /\ ec_receipt_sha256 ic = oc_inner_commit_receipt_sha256 c.

Definition outer_commit_backed b (c : ObjectiveEffectCommitReceipt) : Prop :=
  exists id l, ob_leases b !! id = Some l /\ ol_consumed l = true /\ outer_receipt_of l c
    /\ (oc_effect_outcome c = "SUCCEEDED" -> success_backed (ob_delegate b) l c).

Record outer_inv b : Prop := {
  ov_guard : guard_inv (ob_guard b);
  ov_delegate : effect_inv (ob_delegate b);
  ov_leases : map_Forall (outer_lease_good b) (ob_leases b);
  ov_authorizations : Forall outer_authorization_good (ob_authorizations b);
  ov_commits : Forall (outer_commit_backed b) (ob_commits b)
}.

Definition outer_lease_grows l (o : option _ObjectiveLease) : Prop :=
  o = Some l \/ o = Some (burn_outer l).

Record outer_grows b b' : Prop := {
  ow_guard : guard_ok (ob_guard b) (ob_guard b');
  ow_delegate : effect_grows (ob_delegate b) (ob_delegate b');
  ow_leases : map_Forall (fun id l => outer_lease_grows l (ob_leases b' !! id)) (ob_leases b);
  ow_authorizations : ob_authorizations b `prefix_of` ob_authorizations b';
  ow_commits : ob_commits b `prefix_of` ob_commits b'
}.

(** Consumed outer leases without a commit receipt. *)
Definition unsettled_outer b : Z :=
  Z.of_nat (size (consumed_outer b)) - Z.of_nat (length (ob_commits b)).

(** What a whole call does: the invariant is kept, nothing is undone, and each lease it
    consumes, outer or inner, gets one commit receipt. *)
Definition outer_keeps b b' : Prop :=
  outer_inv b -> outer_inv b' /\ outer_grows b b' /\ unsettled_outer b' = unsettled_outer b
    /\ unsettled (ob_delegate b') = unsettled (ob_delegate b).

Lemma outer_grows_refl b : outer_grows b b.
Proof. constructor; try done; [apply effect_grows_refl|]. intros id l Hl. by left. Qed.

Lemma outer_grows_trans b1 b2 b3 : outer_grows b1 b2 -> outer_grows b2 b3 -> outer_grows b1 b3.
Proof.
  intros [A1 A2 A3 A4 A5] [B1 B2 B3 B4 B5].
  constructor; [by etrans|by eapply effect_grows_trans| |by etrans|by etrans].
  intros id l Hl. destruct (A3 id l Hl) as [H2|H2]; destruct (B3 id _ H2) as [H3|H3];
    [by left|by right|by right|right; by rewrite burn_outer_burn in H3].
Qed.

#[export] Instance outer_keeps_preorder : PreOrder outer_keeps.
Proof.
  split; [intros b Hb; split; [done|]; split; [apply outer_grows_refl|done]|].
  intros b1 b2 b3 H12 H23 H1.
  destruct (H12 H1) as (H2 & G12 & U12 & D12). destruct (H23 H2) as (H3 & G23 & U23 & D23).
  split; [done|]. split; [by eapply outer_grows_trans|]. split; congruence.
Qed.

Lemma outer_grows_lookup b b' id l : outer_grows b b' -> ob_leases b !! id = Some l ->
  exists l', ob_leases b' !! id = Some l' /\ (ol_consumed l = true -> l' = l)
    /\ (l' = l \/ l' = burn_outer l).
Proof.
  intros Hg Hl. destruct (ow_leases _ _ Hg id l Hl) as [H'|H']; eexists; (split; [exact H'|]).
  - by split; [|left].
  - split; [apply burn_outer_consumed|by right].
Qed.

(** *** Stability under growth *)
Lemma inner_lease_grows d d' l : effect_grows d d' -> inner_lease d l -> inner_lease d' l.
Proof.
  intros Hg (il & Hl & Hop & Ha & Hi & Hx). destruct (grows_lookup _ _ _ _ Hg Hl) as (il' & Hl' & _ & Hsame).
  exists il'. split; [done|]. by destruct Hsame as [->| ->].
Qed.

Lemma success_backed_grows d d' l c : effect_grows d d' -> success_backed d l c -> success_backed d' l c.
Proof.
  intros Hg (Ht & Hh & Hs & ic & Hic & Hrest). do 3 (split; [done|]).
  exists ic. split; [|done].
  destruct (eg_commits _ _ Hg) as (more & ->). apply elem_of_app. by left.
Qed.

Lemma outer_backed_grows b b' c : outer_grows b b' -> outer_commit_backed b c -> outer_commit_backed b' c.
Proof.
  intros Hg (id & l & Hl & Hc & Hr & Hs).
  destruct (outer_grows_lookup _ _ _ _ Hg Hl) as (l' & Hl' & Hsame & _). rewrite (Hsame Hc) in Hl'.
  exists id, l. split_and!; [done..|]. intros Hout.
  eapply success_backed_grows; [apply (ow_delegate _ _ Hg)|]. by apply Hs.
Qed.

Lemma numbered_outer_weaken n m id : (n <= m)%nat -> numbered_outer n id -> numbered_outer m id.
Proof. intros Hnm (k & rest & Hk & ->). exists k, rest. split; [lia|done]. Qed.

Lemma outer_lease_good_grows b b' id l : outer_grows b b' ->
  (size (ob_leases b) <= size (ob_leases b'))%nat -> outer_lease_good b id l -> outer_lease_good b' id l.
Proof.
  intros Hg Hsz (Hid & Hn & Hi & a & Ha & Hla). split; [done|].
  split; [by eapply numbered_outer_weaken|].
  split; [eapply inner_lease_grows; [apply (ow_delegate _ _ Hg)|done]|].
  exists a. split; [|done]. destruct (ow_authorizations _ _ Hg) as (more & ->). apply elem_of_app. by left.
Qed.

(** Only guard and delegate change. *)
Lemma parts_keep b b' : ob_leases b' = ob_leases b -> ob_authorizations b' = ob_authorizations b ->
  ob_commits b' = ob_commits b -> guard_ok (ob_guard b) (ob_guard b') ->
  effect_inv (ob_delegate b') -> effect_grows (ob_delegate b) (ob_delegate b') ->
  outer_inv b -> outer_inv b' /\ outer_grows b b' /\ unsettled_outer b' = unsettled_outer b.
Proof.
  intros Hl Ha Hc Hg Hd Hgd Hb.
  assert (outer_grows b b') as Hgrow.
  { constructor; try done; [|by rewrite Ha|by rewrite Hc]. intros id l Hid. left. by rewrite Hl. }
  split; [|split; [done|by unfold unsettled_outer, consumed_outer; rewrite Hl, Hc]].
  destruct Hb as [H1 H2 H3 H4 H5]. constructor; [by apply Hg|done| |by rewrite Ha|].
  - rewrite Hl. eapply map_Forall_impl; [exact H3|]. intros id l. apply outer_lease_good_grows; [done|].
    by rewrite Hl.
  - rewrite Hc. eapply Forall_impl; [exact H5|]. intros c. by apply outer_backed_grows.
Qed.

Lemma set_guard_keeps g b : guard_ok (ob_guard b) g -> outer_keeps b (set_guard g b).
Proof.
  intros Hg Hb. destruct (parts_keep b (set_guard g b)) as (H1 & H2 & H3); try done; try apply Hb.
  apply effect_grows_refl.
Qed.

Lemma set_delegate_keeps d b : effect_keeps (ob_delegate b) d -> outer_keeps b (set_delegate d b).
Proof.
  intros Hd Hb. destruct (Hd (ov_delegate _ Hb)) as (Hi & Hg & Hu).
  destruct (parts_keep b (set_delegate d b)) as (H1 & H2 & H3); done.
Qed.

(** *** The broker's own steps *)
Lemma outer_id_fresh b osha isha op : outer_inv b ->
  ob_leases b !! outer_lease_id_of (size (ob_leases b)) osha isha op = None.
Proof.
  intros Hb. destruct (_ !! _) as [l|] eqn:Hl; [|done]. exfalso.
  destruct (ov_leases _ Hb _ _ Hl) as (_ & (n & rest & Hn & Heq) & _).
  unfold outer_lease_id_of in Heq. apply numbered_injective in Heq. lia.
Qed.

Lemma add_outer_keeps b a l : ol_consumed l = false ->
  ob_leases b !! ol_outer_lease_id l = None -> numbered_outer (S (size (ob_leases b))) (ol_outer_lease_id l) ->
  inner_lease (ob_delegate b) l -> outer_authorization_of l a -> outer_authorization_good a ->
  outer_keeps b (add_outer a l b).
Proof.
  intros Hcons Hfresh Hnum Hin Hof Hgood Hb.
  assert (outer_grows b (add_outer a l b)) as Hg.
  { constructor; try done; [apply effect_grows_refl| |by eexists]. intros id l' Hl'. left. cbn.
    rewrite lookup_insert_ne; [done|]. intros <-. congruence. }
  assert (size (ob_leases (add_outer a l b)) = S (size (ob_leases b))) as Hsz
    by (cbn; by rewrite map_size_insert_None).
  destruct Hb as [H1 H2 H3 H4 H5]. split; [|split; [done|split; [|done]]].
  - constructor; try done.
    + cbn [add_outer ob_leases]. apply map_Forall_insert_2.
      * split; [done|]. rewrite Hsz. split; [done|]. split; [done|].
        exists a. split; [|done]. apply elem_of_app. right. by left.
      * intros id l' Hl'. eapply outer_lease_good_grows; [done|lia|]. by apply H3.
    + cbn. apply Forall_app. by split; [|constructor].
    + eapply Forall_impl; [exact H5|]. intros c. by apply outer_backed_grows.
  - unfold unsettled_outer, consumed_outer. cbn. rewrite map_filter_insert_not'; [done|cbn; congruence|].
    intros y Hy. congruence.
Qed.

Lemma consume_outer_insert b id l : ob_leases b !! id = Some l ->
  ob_leases (consume_outer id b) = <[id := burn_outer l]> (ob_leases b).
Proof.
  intros Hl. cbn. apply map_eq. intros j. destruct (decide (id = j)) as [<-|Hne].
  - by rewrite lookup_alter_eq, Hl, lookup_insert_eq.
  - by rewrite lookup_alter_ne, lookup_insert_ne.
Qed.

Lemma consume_outer_ok b id l : outer_inv b -> ob_leases b !! id = Some l -> ol_consumed l = false ->
  outer_inv (consume_outer id b) /\ outer_grows b (consume_outer id b)
  /\ unsettled_outer (consume_outer id b) = unsettled_outer b + 1.
Proof.
  intros Hb Hl Hc. pose proof (consume_outer_insert b id l Hl) as Hins.
  assert (outer_grows b (consume_outer id b)) as Hg.
  { constructor; try done; [apply effect_grows_refl|]. intros id' l' Hl'. rewrite Hins.
    destruct (decide (id = id')) as [<-|Hne].
    - right. rewrite lookup_insert_eq. congruence.
    - left. by rewrite lookup_insert_ne. }
  assert (size (ob_leases (consume_outer id b)) = size (ob_leases b)) as Hsz
    by (rewrite Hins; by apply map_size_insert_Some).
  destruct Hb as [H1 H2 H3 H4 H5]. split; [|split; [done|]].
  - constructor; try done.
    + rewrite Hins. apply map_Forall_insert_2; [|intros id' l' Hl'].
      * eapply outer_lease_good_grows in Hg as Hg'; [|lia|exact (H3 id l Hl)].
        destruct Hg' as (? & ? & ? & a & Ha & Hr). split_and!; [done..|].
        exists a. split; [done|]. destruct Hr; by constructor.
      * eapply outer_lease_good_grows; [done|lia|]. by apply H3.
    + eapply Forall_impl; [exact H5|]. intros c. by apply outer_backed_grows.
  - unfold unsettled_outer, consumed_outer. rewrite Hins, map_filter_insert_True by done.
    rewrite map_size_insert_None; [cbn; lia|]. apply map_lookup_filter_None. right.
    intros x Hx. cbn. congruence.
Qed.

Lemma push_outer_ok b c : outer_inv b -> outer_commit_backed b c ->
  outer_inv (push_outer_commit c b) /\ outer_grows b (push_outer_commit c b)
  /\ unsettled_outer (push_outer_commit c b) = unsettled_outer b - 1.
Proof.
  intros Hb Hc. assert (outer_grows b (push_outer_commit c b)) as Hg.
  { constructor; try done; [apply effect_grows_refl| |by eexists]. intros id l Hl. by left. }
  destruct Hb as [H1 H2 H3 H4 H5]. split; [|split; [done|]].
  - constructor; try done. cbn. apply Forall_app. split; [|constructor; [done|constructor]]; done.
  - unfold unsettled_outer, consumed_outer. cbn. rewrite length_app. cbn. lia.
Qed.

(** *** Receipts and the leases they are for *)

(** The receipt is for a consumed outer lease of the broker. *)
Definition commit_of_consumed b (c : ObjectiveEffectCommitReceipt) : Prop :=
  exists id l, ob_leases b !! id = Some l /\ ol_consumed l = true
    /\ oc_outer_lease_id_sha256 c = canonical_sha256 (JStr id)
    /\ oc_authorization_receipt_sha256 c = ol_authorization_receipt_sha256 l
    /\ oc_operation_id c = ro_operation_id (ol_operation l).

Lemma commits_of_consumed b : outer_inv b -> Forall (commit_of_consumed b) (ob_commits b).
Proof.
  intros [_ _ Hl _ Hc]. eapply Forall_impl; [exact Hc|]. intros c (id & l & Hlook & Hu & Hr & _).
  exists id, l. destruct (Hl id l Hlook) as [<- _]. split; [done|]. split; [done|]. split_and!; apply Hr.
Qed.

(** The receipt is for a consumed inner lease. *)
Definition inner_of_consumed (delegate : EffectCommitBroker) (c : EffectCommitReceipt) : Prop :=
  exists id il, eb_leases delegate !! id = Some il /\ ls_consumed il = true
    /\ ec_lease_id_sha256 c = canonical_sha256 (JStr id)
    /\ ec_authorization_receipt_sha256 c = ls_authorization_receipt_sha256 il
    /\ ec_operation_id c = ro_operation_id (ls_operation il).

Lemma inner_commits_of_consumed delegate : effect_inv delegate ->
  Forall (inner_of_consumed delegate) (eb_commits delegate).
Proof.
  intros [_ Hl _ Hc]. eapply Forall_impl; [exact Hc|]. intros c (id & il & Hlook & Hu & Hr).
  exists id, il. destruct (Hl id il Hlook) as [<- _]. split; [done|]. split; [done|]. split_and!; apply Hr.
Qed.

(** A refusal burns one lease and leaves one receipt. *)
Lemma refused_outer_keeps id b b' : refused_outer id b b' -> outer_keeps b b'.
Proof.
  intros (l & c & Hl & Hu & Hc & Hout & ->) Hb.
  destruct (consume_outer_ok b id l Hb Hl Hu) as (H1 & G1 & U1).
  destruct (push_outer_ok (consume_outer id b) c H1) as (H2 & G2 & U2).
  { exists id, (burn_outer l). rewrite (consume_outer_insert b id l Hl), lookup_insert_eq.
    split_and!; [done..| |by rewrite Hout]. destruct Hc. by constructor. }
  split; [done|]. split; [by eapply outer_grows_trans|]. split; [lia|done].
Qed.
End outer_invariant.

(** *** Calls of the outer broker *)
Section outer_calls.
Context {hash : Digest} {V S : Type} {L : Lens S (ObjectiveBoundEffectCommitBroker V)}.
Context {env : EffectEnv S} {clock : OuterClock S}.
Implicit Types (s : S) (b : ObjectiveBoundEffectCommitBroker V) (l : _ObjectiveLease).
Implicit Types (executor : RuntimeOperation -> M S exec_result).

(** What the host's code must respect: the brokers are changed by their own methods. *)
Definition host_outer_keeps s s' : Prop := outer_keeps (outer s) (outer s').

#[export] Instance host_outer_keeps_preorder : PreOrder host_outer_keeps.
Proof.
  split; [intros s; exact (reflexivity (R:=outer_keeps) (outer s))|].
  intros s1 s2 s3 H1 H2. exact (transitivity (R:=outer_keeps) H1 H2).
Qed.

(** Nothing but the delegate changed. *)
Definition only_delegate s s' : Prop := outer s' = set_delegate (ob_delegate (outer s')) (outer s).

#[export] Instance only_delegate_preorder : PreOrder only_delegate.
Proof.
  split; [intros s; unfold only_delegate; by destruct (outer s)|]. intros s1 s2 s3 H1 H2.
  unfold only_delegate in *. rewrite H2. cbn. rewrite H1. done.
Qed.

Lemma set_inner_only f : evolves only_delegate (set_this (H := delegate_in) f).
Proof. intros s. unfold only_delegate, outer. cbn. by rewrite lget_lput. Qed.

Lemma silent_only {A} (m : M S A) : outer_silent m -> evolves only_delegate m.
Proof. intros Hm s. unfold only_delegate. rewrite Hm. by destruct (outer s). Qed.

Lemma inner_issue_only op cap : outer_silent_env ->
  evolves only_delegate (EffectCommit.issue_for_trusted_adapter (L := delegate_in) op cap).
Proof.
  intros [_ H1 H2 H3 H4]. apply issue_frame; [typeclasses eauto|apply set_inner_only|..]; intros;
    apply silent_only; auto.
Qed.

Lemma inner_recheck_only id : outer_silent_env ->
  evolves only_delegate (recheck (L := delegate_in) id).
Proof.
  intros [_ H1 H2 H3 H4]. apply recheck_frame; [typeclasses eauto|..]; intros;
    apply silent_only; auto.
Qed.

(** What is known of an outer lease when it is issued. *)
Record outer_issued b (op : RuntimeOperation) (decision : dict)
    (a : ObjectiveEffectAuthorizationReceipt) l (il : _Lease) : Prop := {
  oi_decision : verify_decision decision = Ok decision;
  oi_state : exists d, ObjectiveIntegrity.state_document (ob_guard b) = Ok d
    /\ _verify_objective_allow op decision d (op_governance_policy_sha256 (og_policy (ob_guard b))) = Ok tt
    /\ dict_get d "observation_head_sha256" = Some (JStr (ol_observation_head_sha256 l))
    /\ dict_get d "state_sha256" = Some (JStr (ol_objective_state_sha256 l));
  oi_operation : ol_operation l = op;
  oi_unused : ol_consumed l = false;
  oi_id : exists osha isha,
    ol_outer_lease_id l = outer_lease_id_of (size (ob_leases b)) osha isha (ro_operation_id op);
  oi_receipt : outer_authorization_of l a;
  oi_good : outer_authorization_good a;
  oi_inner : ol_inner_lease_id l = ls_lease_id il /\ ls_operation il = op
    /\ ls_authorization_receipt_sha256 il = ol_inner_authorization_receipt_sha256 l
    /\ ls_issued_at_unix il = ol_issued_at_unix l /\ ls_expires_at_unix il = ol_expires_at_unix l
}.

Lemma verify_decision_same d d' : verify_decision d = Ok d' -> d' = d.
Proof. unfold verify_decision. cbv zeta. intros H. by py_inv. Qed.

Lemma outer_issue_spec op cap decision s : outer_silent_env -> outer_inv (outer s) ->
  match issue_for_trusted_adapter op cap decision s with
  | (Ok r, s') => exists a l il ia,
      outer s' = add_outer a l (set_delegate (add_lease ia il (ob_delegate (outer s))) (outer s))
      /\ issued (env := env) (ob_delegate (outer s)) op ia il
      /\ outer_issued (outer s) op decision a l il
      /\ r = (ol_outer_lease_id l, ObjectiveEffectAuthorizationReceipt_as_document a)
  | (Err _, s') => outer_keeps (outer s) (outer s')
  end.
Proof.
  intros He Hb. pose proof (reflexivity (R:=outer_keeps) (outer s)) as Hrefl.
  remember (issue_for_trusted_adapter op cap decision s) as f eqn:Hf.
  unfold issue_for_trusted_adapter, guard_state, self_broker, set_broker in Hf.
  M_run Hf. destruct (RuntimeOperation_validate op); [|by subst f].
  M_run Hf. destruct (verify_decision decision) as [dec|] eqn:Hdec; [|by subst f].
  pose proof (verify_decision_same _ _ Hdec) as ->.
  rewrite M_assoc in Hf. M_run Hf. destruct (guard_state_run _ (ov_guard _ Hb)) as (d & Hd & Hdoc).
  unfold outer in Hd. rewrite Hd in Hf. M_run Hf.
  destruct (_verify_objective_allow _ _ _ _) as [[]|] eqn:Hallow; [|by subst f].
  M_run Hf. destruct (_sha (dict_get_none cap _) _) as [csha|]; [|by subst f].
  rewrite M_bind_eq in Hf.
  pose proof (issue_spec (L := delegate_in) (ob_delegate (outer s)) op cap (delegate_silent He) s eq_refl) as Hin.
  pose proof (inner_issue_only op cap He s) as Honly.
  destruct (EffectCommit.issue_for_trusted_adapter op cap s) as [[r|e] s1]; cbn [snd] in Honly.
  2: { subst f. rewrite Honly. apply set_delegate_keeps. unfold holds in Hin. cbn in Hin.
       unfold outer. rewrite Hin. apply (reflexivity (R:=effect_keeps)). }
  destruct Hin as (ia & il & Hl & His & ->). cbn in Hl. fold (outer s1) in Hl. unfold only_delegate in Honly. rewrite Hl in Honly.
  assert (outer_keeps (outer s) (outer s1)) as Hkeep.
  { rewrite Honly. apply set_delegate_keeps. intros Hei. by apply (issued_keeps _ op ia il). }
  M_run Hf. destruct (EffectCommit.verify_authorization_receipt _); [|by subst f].
  M_run Hf.
  change (dict_item (EffectCommitAuthorizationReceipt_as_document ia) "issued_at_unix")
    with (Ok (JInt (ea_issued_at_unix ia))) in Hf. M_run Hf.
  destruct (_time (JInt (ea_issued_at_unix ia)) _) as [zi|] eqn:Hzi; [|by subst f]. M_run Hf.
  change (dict_item (EffectCommitAuthorizationReceipt_as_document ia) "expires_at_unix")
    with (Ok (JInt (ea_expires_at_unix ia))) in Hf. M_run Hf.
  destruct (_time (JInt (ea_expires_at_unix ia)) _) as [ze|] eqn:Hze; [|by subst f].
  apply outer_time_ok in Hzi as [[= <-] _], Hze as [[= <-] _]. M_run Hf.
  destruct (str_item decision "receipt_sha256") as [dsha|]; [|by subst f]. M_run Hf.
  change (str_item (EffectCommitAuthorizationReceipt_as_document ia) "receipt_sha256")
    with (Ok (ea_receipt_sha256 ia)) in Hf. M_run Hf.
  destruct (str_item d "objective_id") as [oid|]; [|by subst f]. M_run Hf.
  destruct (str_item d "method_policy_sha256") as [pol|]; [|by subst f]. M_run Hf.
  destruct (str_item d "observation_head_sha256") as [head|] eqn:Hhead; [|by subst f]. M_run Hf.
  destruct (str_item d "state_sha256") as [ssha|] eqn:Hssha; [|by subst f]. M_run Hf.
  destruct (normalized_scope op) as [scope|]; [|by subst f]. M_run Hf.
  subst f. cbv zeta. unfold mret, M_ret.
  eexists _, _, il, ia. unfold outer in *. rewrite lget_lput, Honly.
  split; [reflexivity|]. split; [done|]. split; [|reflexivity].
  constructor; try done.
  - exists d. split_and!; [done..| |].
    + by apply str_item_ok in Hhead.
    + by apply str_item_ok in Hssha.
  - by eexists _, _.
  - destruct His as [_ Hop _ _ [] _ _ _ _ _]. by split_and!.
Qed.

Lemma outer_issued_keeps b op decision a l il ia : outer_inv b ->
  issued (env := env) (ob_delegate b) op ia il -> outer_issued b op decision a l il ->
  outer_keeps b (add_outer a l (set_delegate (add_lease ia il (ob_delegate b)) b)).
Proof.
  intros Hb His Ho.
  refine (transitivity (R:=outer_keeps) (y:=set_delegate (add_lease ia il (ob_delegate b)) b) _ _).
  - apply set_delegate_keeps. intros Hei. by apply (issued_keeps _ op ia il).
  - destruct (oi_id _ _ _ _ _ _ Ho) as (osha & isha & Hid).
    apply add_outer_keeps; try apply Ho.
    + cbn. rewrite Hid. by apply outer_id_fresh.
    + rewrite Hid. eexists (Z.of_nat (size (ob_leases b)) + 1), _. cbn. split; [lia|reflexivity].
    + destruct (oi_inner _ _ _ _ _ _ Ho) as (Hil & Hop & Hrest).
      exists il. cbn. rewrite Hil, lookup_insert_eq, (oi_operation _ _ _ _ _ _ Ho). done.
Qed.

Lemma outer_issue_keeps op cap decision : outer_silent_env ->
  evolves host_outer_keeps (issue_for_trusted_adapter op cap decision).
Proof.
  intros He s Hb. pose proof (outer_issue_spec op cap decision s He Hb) as Hs.
  destruct (issue_for_trusted_adapter op cap decision s) as [[r|e] s']; cbn [snd]; [|by apply Hs].
  destruct Hs as (a & l & il & ia & -> & His & Ho & _). by eapply outer_issued_keeps.
Qed.

(** The inner commit of a call that returned [o]. *)
Definition inner_success s s' (inner_id : string) (o : ExecutionObservation) : Prop :=
  exists il pre ic, eb_leases (ob_delegate (outer s)) !! inner_id = Some il
    /\ eb_commits (ob_delegate (outer s')) = pre ++ [ic]
    /\ eb_commits (ob_delegate (outer s)) `prefix_of` pre
    /\ ec_operation_id ic = ro_operation_id (ls_operation il) /\ ec_effect_outcome ic = "SUCCEEDED"
    /\ ec_result_sha256 ic = eo_result_sha256 o /\ re_sha (eo_result_sha256 o) = true.

(** The executor's run between the burning of the inner lease and its commit receipt. *)
Lemma inner_run_spec id c executor s : (forall op, evolves host_outer_keeps (executor op)) ->
  outer_inv (outer s) -> rechecked (env := env) id (ob_delegate (outer s)) c ->
  forall s1, outer s1 = set_delegate (consume id (ob_delegate (outer s))) (outer s) ->
  let '(r, s') := run_effect (L := delegate_in) c executor s1 in
  outer_keeps (outer s) (outer s') /\ forall o, r = Ok o -> inner_success s s' id o.
Proof.
  intros Hex Hb Hc s1 Hs1. set (d := ob_delegate (outer s)) in *.
  destruct (consume_ok d id (rk_lease c) (ov_delegate _ Hb) (rc_known _ _ _ Hc) (rc_unused _ _ _ Hc))
    as (I1 & G1 & U1).
  destruct (parts_keep (outer s) (outer s1)) as (J1 & K1 & W1);
    [by rewrite Hs1..|by rewrite Hs1; cbn; reflexivity|by rewrite Hs1|by rewrite Hs1|done|].
  destruct (run_effect_run (L := delegate_in) c executor s1) as (out & sha & rs & Hsnd & Hsha & Hok).
  cbv zeta in *. set (s2 := snd (executor _ s1)) in *.
  destruct (Hex (ls_operation (rk_lease c)) s1 J1) as (J2 & K2 & W2 & D2). fold s2 in J2, K2, W2, D2.
  set (ic := commit_of _ _ _ _ _ _ _) in *. set (d2 := ob_delegate (outer s2)) in *.
  assert (commit_backed d2 ic) as Hback.
  { assert (eb_leases (ob_delegate (outer s1)) !! id = Some (burn (rk_lease c))) as Hl.
    { rewrite Hs1. cbn. rewrite (consume_insert d id (rk_lease c) (rc_known _ _ _ Hc)) at 1.
      apply lookup_insert_eq. }
    destruct (grows_lookup _ _ _ _ (ow_delegate _ _ K2) Hl) as (l' & Hl' & Hsame & _).
    rewrite (Hsame eq_refl) in Hl'. exists id, (burn (rk_lease c)). split_and!; [done|done|].
    by eapply commit_of_receipt. }
  destruct (push_commit_ok d2 ic (ov_delegate _ J2) Hback) as (I3 & G3 & U3).
  destruct (run_effect c executor s1) as [r s'] eqn:Hrun. cbn [fst snd] in *.
  assert (outer s' = set_delegate (push_commit ic d2) (outer s2)) as Hs'.
  { rewrite Hsnd. unfold outer. cbn. by rewrite lget_lput. }
  destruct (parts_keep (outer s2) (outer s')) as (J3 & K3 & W3);
    [by rewrite Hs'..|by rewrite Hs'; cbn; reflexivity|by rewrite Hs'|by rewrite Hs'|done|].
  split.
  - intros _. split; [done|]. split; [by eapply outer_grows_trans; [exact K1|]; eapply outer_grows_trans|].
    split; [congruence|]. rewrite Hs1 in D2. change (unsettled d2 = unsettled (consume id d)) in D2.
    rewrite Hs'. change (unsettled (push_commit ic d2) = unsettled d). lia.
  - intros o ->. destruct (Hok o eq_refl) as [-> ->].
    exists (rk_lease c), (eb_commits d2), ic. rewrite Hs'. cbn [set_delegate ob_delegate push_commit eb_commits].
    split_and!; try done; [apply Hc|]. etrans; [exact (eg_commits _ _ G1)|].
    pose proof (eg_commits _ _ (ow_delegate _ _ K2)) as Hp. rewrite Hs1 in Hp. exact Hp.
Qed.

Lemma inner_consume_spec id token executor s : outer_silent_env ->
  (forall op, evolves host_outer_keeps (executor op)) -> outer_inv (outer s) ->
  let '(r, s') := EffectCommit.consume_for_trusted_adapter (L := delegate_in) id token executor s in
  outer_keeps (outer s) (outer s') /\ forall o, r = Ok o -> inner_success s s' id o.
Proof.
  intros He Hex Hb. pose proof (reflexivity (R:=outer_keeps) (outer s)) as Hrefl.
  unfold EffectCommit.consume_for_trusted_adapter. rewrite M_lift. destruct (reject_if _ _); [|done].
  rewrite M_this, M_lift. destruct (reject_if _ _); [|done].
  unfold _commit. rewrite M_bind_eq. pose proof (inner_recheck_only id He s) as Honly.
  destruct (recheck_cases (L := delegate_in) id s (delegate_silent He)) as [(e & s' & Hr & Hs)|(c & s' & Hr & Hs & Hc)];
    rewrite Hr in *; unfold only_delegate in Honly; cbn [snd] in Honly; cbn in Hs; fold (outer s') in Hs;
    fold (outer s) in Hs.
  - rewrite Honly, Hs. split; [|done]. by destruct (outer s).
  - rewrite M_set_this. apply (inner_run_spec id c executor s Hex Hb Hc).
    unfold outer in *. cbn. rewrite lget_lput, Hs. rewrite Hs in Honly. rewrite Honly. done.
Qed.

Lemma latest_inner_run n s : outer_inv (outer s) -> exists sha,
  (forall A (f : string -> M S A), (_latest_inner_commit n ≫= f) s = f sha s) /\ re_sha sha = true
  /\ forall pre ic, eb_commits (ob_delegate (outer s)) = pre ++ [ic] -> (n <= length pre)%nat ->
     sha = ec_receipt_sha256 ic.
Proof.
  intros Hb. pose proof (ei_commits _ (ov_delegate _ Hb)) as Hc.
  destruct (length (EffectCommit.commit_receipts (ob_delegate (outer s))) <=? n)%nat eqn:Hn.
  - exists ZERO_SHA256. split_and!; [|done|].
    + intros A f. unfold _latest_inner_commit, self_broker. rewrite M_assoc, M_this. cbv zeta.
      unfold outer in Hn. by rewrite Hn.
    + intros pre ic Heq Hlen. apply Nat.leb_le in Hn.
      unfold EffectCommit.commit_receipts in Hn. rewrite length_map, Heq, length_app in Hn. cbn in Hn. lia.
  - apply Nat.leb_gt in Hn as Hgt. unfold EffectCommit.commit_receipts in Hgt. rewrite length_map in Hgt.
    destruct (eb_commits (ob_delegate (outer s))) as [|ic0 pre0 _] eqn:Hlast using rev_ind; [cbn in Hgt; lia|].
    apply Forall_app in Hc as [_ Hc%Forall_inv]. destruct Hc as (id & l & _ & _ & Hr).
    exists (ec_receipt_sha256 ic0).
    assert (re_sha (ec_receipt_sha256 ic0) = true) as Hsha
      by (rewrite (cr_digest _ _ Hr); apply canonical_sha256_sha).
    split_and!; [|done|].
    + intros A f. unfold _latest_inner_commit, self_broker. rewrite M_assoc, M_this. cbv zeta.
      unfold outer in Hn, Hlast. rewrite Hn. unfold EffectCommit.commit_receipts. rewrite Hlast, map_app.
      cbn [map]. rewrite last_snoc, !M_assoc, M_lift.
      change (dict_item (EffectCommitReceipt_as_document ic0) "receipt_sha256")
        with (Ok (JStr (ec_receipt_sha256 ic0))).
      rewrite !M_assoc, M_lift, M_lift. by rewrite outer_sha_run.
    + intros pre ic Heq _. by apply app_inj_tail in Heq as [_ ->].
Qed.

Lemma append_outer_run l d now outcome result inner reasons s c :
  outer_commit_of l d now outcome result inner reasons = Ok c -> forall A (f : unit -> M S A),
  (_append_commit l d now outcome result inner reasons ≫= f) s
  = f tt (lput (push_outer_commit c (outer s)) s).
Proof.
  intros Hc A f. unfold _append_commit. rewrite M_assoc, M_lift, Hc. unfold set_broker.
  by rewrite M_set_this.
Qed.

(** The inner consumption is followed by exactly one outer commit receipt. *)
Lemma run_inner_run id b c token executor s : outer_silent_env ->
  (forall op, evolves host_outer_keeps (executor op)) -> outer_inv b -> outer_rechecked id b c ->
  outer s = consume_outer id b ->
  let s2 := snd (EffectCommit.consume_for_trusted_adapter (L := delegate_in)
                   (ol_inner_lease_id (or_lease c)) token executor s) in
  exists oc, snd (run_inner c token executor s) = lput (push_outer_commit oc (outer s2)) s2
    /\ outer_keeps (outer s) (outer s2) /\ outer_receipt_of (or_lease c) oc
    /\ (oc_effect_outcome oc = "SUCCEEDED" -> success_backed (ob_delegate (outer s2)) (or_lease c) oc)
    /\ forall o, fst (run_inner c token executor s) = Ok o ->
         oc_effect_outcome oc = "SUCCEEDED" /\ oc_result_sha256 oc = eo_result_sha256 o
         /\ re_sha (eo_result_sha256 o) = true.
Proof.
  intros He Hex Hb Hc Hs. cbv zeta.
  destruct (consume_outer_ok b id _ Hb (ok_known _ _ _ Hc) (ok_unused _ _ _ Hc)) as (I1 & G1 & _).
  rewrite <- Hs in I1, G1.
  pose proof (inner_consume_spec (ol_inner_lease_id (or_lease c)) token executor s He Hex I1) as Hin.
  assert (guard_document (ob_guard b) (or_state c)) as Hdoc.
  { destruct (guard_state_run _ (ov_guard _ Hb)) as (d & Hd & Hg). rewrite (ok_state _ _ _ Hc) in Hd.
    by injection Hd as ->. }
  pose proof (guard_head_sha _ (ov_guard _ Hb)) as Hhead.
  unfold run_inner, self_broker. rewrite M_this. cbv zeta. rewrite M_attempt.
  set (n := length (EffectCommit.commit_receipts (ob_delegate (lget s)))).
  destruct (EffectCommit.consume_for_trusted_adapter _ token executor s) as [[o|e] s2];
    destruct Hin as [Hk Hok]; destruct (Hk I1) as (I2 & G2 & _); cbn [snd fst];
    destruct (latest_inner_run n s2 I2) as (sha & Hrun & Hsha & Hlast); rewrite Hrun.
  - destruct (Hok o eq_refl) as (il & pre & ic & Hil & Hcs & Hpre & Hop & Hout & Hres & Hre).
    destruct (outer_commit_run (or_lease c) _ _ (or_now c) "SUCCEEDED" (eo_result_sha256 o) sha
      ["objective_policy_rechecked"; "objective_head_rechecked"; "objective_decision_floor_allow";
       "outer_lease_consumed"; "inner_epoch_effect_committed"; "effect_committed_under_shared_fence"]
      Hdoc (ok_now _ _ _ Hc) Hhead Hre Hsha) as (oc & Hoc & Hof & Ho & Hores & Hinner & Hat & Hoh & Host).
    { by apply mem_true. }
    rewrite (append_outer_run _ _ _ _ _ _ _ _ _ Hoc). exists oc. split_and!; try done.
    + intros _. split; [rewrite Hat; apply Hc|]. split; [rewrite Hoh; apply Hc|].
      split; [pose proof (ok_same _ _ _ Hc); congruence|].
      exists ic. rewrite Hcs. split; [apply elem_of_app; right; by left|].
      assert (inner_lease (ob_delegate (outer s)) (or_lease c)) as (il' & Hil' & Hop' & _).
      { rewrite Hs. apply (ov_leases _ Hb _ _ (ok_known _ _ _ Hc)). }
      rewrite Hil in Hil'. injection Hil' as <-. rewrite (oo_operation _ _ Hof), <- Hop', Hores, Hinner.
      split_and!; try done. symmetry. eapply Hlast; [exact Hcs|].
      apply prefix_length in Hpre. unfold n, EffectCommit.commit_receipts. by rewrite length_map.
    + intros o' [= <-]. done.
  - destruct (outer_commit_run (or_lease c) _ _ (or_now c) "FAILED"
      (canonical_sha256 (JObj [("error_type", JStr (exn_name (exn_cls e)))])) sha
      ["outer_lease_consumed"; "inner_effect_commit_failed"]
      Hdoc (ok_now _ _ _ Hc) Hhead (canonical_sha256_sha _) Hsha)
      as (oc & Hoc & Hof & Ho & _).
    { by apply mem_true. }
    rewrite (append_outer_run _ _ _ _ _ _ _ _ _ Hoc). exists oc.
    split; [destruct (decide _); reflexivity|]. split_and!; try done.
    + rewrite Ho. done.
    + by destruct (decide _).
Qed.

Lemma run_inner_keeps id b c token executor s : outer_silent_env ->
  (forall op, evolves host_outer_keeps (executor op)) -> outer_inv b -> outer_rechecked id b c ->
  outer s = consume_outer id b ->
  let b' := outer (snd (run_inner c token executor s)) in
  outer_inv b' /\ outer_grows b b' /\ unsettled_outer b' = unsettled_outer b
  /\ unsettled (ob_delegate b') = unsettled (ob_delegate b).
Proof.
  intros He Hex Hb Hc Hs. cbv zeta.
  destruct (run_inner_run id b c token executor s He Hex Hb Hc Hs) as (oc & -> & Hk & Hof & Hsucc & _).
  rewrite outer_put. set (s2 := snd _) in *.
  destruct (consume_outer_ok b id _ Hb (ok_known _ _ _ Hc) (ok_unused _ _ _ Hc)) as (I1 & G1 & U1).
  rewrite <- Hs in I1, G1, U1. destruct (Hk I1) as (I2 & G2 & U2 & D2).
  assert (ob_leases (outer s) !! id = Some (burn_outer (or_lease c))) as Hl.
  { rewrite Hs, (consume_outer_insert b id _ (ok_known _ _ _ Hc)). apply lookup_insert_eq. }
  destruct (outer_grows_lookup _ _ _ _ G2 Hl) as (l' & Hl' & Hsame & _). rewrite (Hsame eq_refl) in Hl'.
  destruct (push_outer_ok (outer s2) oc I2) as (I3 & G3 & U3).
  { exists id, (burn_outer (or_lease c)). split_and!; [done|done| |done]. destruct Hof. by constructor. }
  split; [done|]. split; [by eapply outer_grows_trans; [exact G1|]; eapply outer_grows_trans|].
  split; [lia|]. change (unsettled (ob_delegate (outer s2)) = unsettled (ob_delegate b)).
  by rewrite D2, Hs.
Qed.

Lemma outer_id_ok b id l : outer_inv b -> ob_leases b !! id = Some l -> ol_outer_lease_id l = id.
Proof. intros Hb Hl. apply (ov_leases _ Hb _ _ Hl). Qed.

Lemma outer_consume_keeps id token executor : outer_silent_env ->
  (forall op, evolves host_outer_keeps (executor op)) ->
  evolves host_outer_keeps (consume_for_trusted_adapter id token executor).
Proof.
  intros He Hex s Hb.
  destruct (outer_consume_cases id s He (ov_guard _ Hb) (fun l => outer_id_ok _ id l Hb))
    as [(e & s' & Hs & Hrun)|(c & s' & Hs & Hc & Hrun)]; rewrite Hrun.
  - cbn [snd]. destruct Hs as [->|Hr]; [by apply (reflexivity (R:=outer_keeps) (outer s))|].
    by eapply refused_outer_keeps.
  - by eapply run_inner_keeps.
Qed.

Lemma outer_commit_keeps op cap decision token executor : outer_silent_env ->
  (forall op, evolves host_outer_keeps (executor op)) ->
  evolves host_outer_keeps (commit_authorized_effect op cap decision token executor).
Proof.
  intros He Hex. apply evolves_bind; [typeclasses eauto|by apply outer_issue_keeps|]. intros issued.
  by apply outer_consume_keeps.
Qed.

Lemma on_guard_keeps {A} (m : M (ObjectiveIntegrityGuard V) A) : evolves guard_ok m ->
  evolves host_outer_keeps (on (H := guard_in) m).
Proof.
  intros Hm s. unfold host_outer_keeps. specialize (Hm (ob_guard (outer s))). rewrite on_run. cbn.
  fold (outer s). destruct (m (ob_guard (outer s))) as [r g]. cbn in *. rewrite outer_put.
  by apply set_guard_keeps.
Qed.

Lemma on_delegate_keeps {A} (m : M S A) : evolves only_delegate m ->
  evolves (fun s s' => effect_keeps (ob_delegate (outer s)) (ob_delegate (outer s'))) m ->
  evolves host_outer_keeps m.
Proof.
  intros H1 H2 s. specialize (H1 s). specialize (H2 s). unfold host_outer_keeps. rewrite H1.
  by apply set_delegate_keeps.
Qed.

Lemma outer_containment_keeps (c : bool) sha :
  evolves host_outer_keeps (if c then enter_containment sha else exit_containment sha).
Proof.
  assert (forall c : bool, evolves host_outer_keeps (if c then EffectCommit.enter_containment (L := delegate_in) sha
    else EffectCommit.exit_containment (L := delegate_in) sha)) as Hin.
  { intros c'. apply on_delegate_keeps; [|exact (containment_keeps (L := delegate_in) c' sha)].
    apply containment_frame; [typeclasses eauto|apply set_inner_only]. }
  destruct c; (evolve_step; [|]).
  - apply on_guard_keeps, (containment_guard_ok true).
  - apply (Hin true).
  - apply (Hin false).
  - apply on_guard_keeps, (containment_guard_ok false).
Qed.

(** One step of a host: a call of the outer broker with executors that leave the brokers
    to their own methods, or host code that does (calls of the guard and of the inner
    broker included). *)
Inductive outer_step (s : S) : S -> Prop :=
  | us_issue op cap decision : outer_step s (snd (issue_for_trusted_adapter op cap decision s))
  | us_consume id token executor : (forall op, evolves host_outer_keeps (executor op)) ->
      outer_step s (snd (consume_for_trusted_adapter id token executor s))
  | us_commit op cap decision token executor : (forall op, evolves host_outer_keeps (executor op)) ->
      outer_step s (snd (commit_authorized_effect op cap decision token executor s))
  | us_enter sha : outer_step s (snd (enter_containment sha s))
  | us_exit sha : outer_step s (snd (exit_containment sha s))
  | us_host s' : host_outer_keeps s s' -> outer_step s s'.

Lemma outer_step_keeps s s' : outer_silent_env -> outer_step s s' -> host_outer_keeps s s'.
Proof.
  intros He. destruct 1 as [op cap d|id token ex Hex|op cap d token ex Hex|sha|sha|s' Hk].
  - by apply outer_issue_keeps.
  - by apply outer_consume_keeps.
  - by apply outer_commit_keeps.
  - apply (outer_containment_keeps true sha).
  - apply (outer_containment_keeps false sha).
  - done.
Qed.

Lemma outer_steps_keep s s' : outer_silent_env -> star outer_step s s' -> host_outer_keeps s s'.
Proof.
  intros He. induction 1 as [s|s1 s2 s3 _ IH Hstep]; [exact (reflexivity (R:=outer_keeps) _)|].
  refine (transitivity (R:=outer_keeps) IH _). by apply outer_step_keeps.
Qed.
(** The commit of a call that returns an observation. *)
Definition outer_committed s s' (op : RuntimeOperation) (o : ExecutionObservation) : Prop :=
  exists pre c, ob_commits (outer s') = pre ++ [c] /\ ob_commits (outer s) `prefix_of` pre
    /\ oc_operation_id c = ro_operation_id op /\ oc_effect_outcome c = "SUCCEEDED"
    /\ oc_result_sha256 c = eo_result_sha256 o /\ re_sha (eo_result_sha256 o) = true
    /\ exists ic, ic ∈ eb_commits (ob_delegate (outer s')) /\ ec_effect_outcome ic = "SUCCEEDED"
       /\ ec_operation_id ic = ro_operation_id op /\ ec_result_sha256 ic = eo_result_sha256 o
       /\ ec_receipt_sha256 ic = oc_inner_commit_receipt_sha256 c.

Lemma outer_consume_success id token executor s o s' : outer_silent_env ->
  (forall op, evolves host_outer_keeps (executor op)) -> outer_inv (outer s) ->
  consume_for_trusted_adapter id token executor s = (Ok o, s') ->
  exists l, ob_leases (outer s) !! id = Some l /\ outer_committed s s' (ol_operation l) o.
Proof.
  intros He Hex Hb Hrun.
  destruct (outer_consume_cases id s He (ov_guard _ Hb) (fun l => outer_id_ok _ id l Hb))
    as [(e & s1 & _ & Hr)|(c & s1 & Hs & Hc & Hr)]; rewrite Hr in Hrun; [done|].
  exists (or_lease c). split; [apply Hc|].
  destruct (run_inner_run id _ c token executor s1 He Hex Hb Hc Hs) as (oc & Hsnd & Hk & Hof & Hsucc & Hok).
  rewrite Hrun in Hsnd, Hok. cbn [fst snd] in Hsnd, Hok. destruct (Hok o eq_refl) as (Hout & Hres & Hre).
  destruct (Hsucc Hout) as (_ & _ & _ & ic & Hic & Hicout & Hicop & Hicres & Hicsha).
  destruct (consume_outer_ok _ id _ Hb (ok_known _ _ _ Hc) (ok_unused _ _ _ Hc)) as (I1 & G1 & _).
  rewrite <- Hs in I1, G1. destruct (Hk I1) as (_ & G2 & _).
  set (s2 := snd _) in *. unfold outer_committed. rewrite Hsnd, outer_put.
  exists (ob_commits (outer s2)), oc. split; [done|].
  split; [etrans; [apply (ow_commits _ _ G1)|apply (ow_commits _ _ G2)]|].
  rewrite Hres in Hicres. rewrite (oo_operation _ _ Hof) in *. split_and!; try done. by exists ic.
Qed.

Lemma outer_commit_success op cap decision token executor s o s' : outer_silent_env ->
  (forall op, evolves host_outer_keeps (executor op)) -> outer_inv (outer s) ->
  commit_authorized_effect op cap decision token executor s = (Ok o, s') -> outer_committed s s' op o.
Proof.
  intros He Hex Hb. unfold commit_authorized_effect. rewrite M_bind_eq.
  pose proof (outer_issue_spec op cap decision s He Hb) as Hs.
  destruct (issue_for_trusted_adapter op cap decision s) as [[r|e] s1]; [|done].
  destruct Hs as (a & l & il & ia & Hs1 & His & Ho & ->). cbn [fst]. intros Hrun.
  destruct (outer_issued_keeps _ op decision a l il ia Hb His Ho Hb) as (Hb1 & G1 & _).
  rewrite <- Hs1 in Hb1, G1.
  destruct (outer_consume_success _ _ _ _ _ _ He Hex Hb1 Hrun) as (l' & Hl' & pre & c & Hc & Hpre & Hrest).
  rewrite Hs1 in Hl'. cbn in Hl'. rewrite lookup_insert_eq in Hl'. injection Hl' as <-.
  rewrite (oi_operation _ _ _ _ _ _ Ho) in Hrest. exists pre, c.
  split; [done|]. split; [etrans; [apply (ow_commits _ _ G1)|done]|done].
Qed.

End outer_calls.

(** *** The mediator *)
Section outer_mediated.
Context {hash : Digest} {V B G S : Type} {bops : BrokerOps B} {env : EffectEnv S} {clock : OuterClock S}.
Context {L : Lens S (ObjectiveBoundEffectRuntimeMediator V B G)}.
Implicit Types s : S.

Let LO : Lens S (ObjectiveBoundEffectCommitBroker V) := broker_in (B := B) (G := G).
#[local] Existing Instance LO.

(** The guard's verdict on the operation, and the host after it. *)
Definition objective_verdict op : M S dict :=
  on (H := mediator_guard (V := V) (B := B) (G := G)) (evaluate_operation (V := V) op).

Definition objective_allows op s : Prop :=
  exists doc, fst (objective_verdict op s) = Ok doc /\ dict_get doc "decision" = Some (JStr "ALLOW").

(** A call of the base mediator leaves the effect broker alone. *)
Lemma base_silent {A} (m : M (RuntimeMediator B G) A) :
  outer_silent (on (H := base_in (V := V)) m).
Proof. intros s. rewrite on_run. destruct (m _) as [r t]. unfold outer. cbn. by rewrite lget_lput. Qed.

Lemma finish_base_shows op csha adm out rsha rs cid ssha :
  returns (fun doc => shows out rsha doc /\ dict_get doc "admission_decision" = Some (JStr adm))
    (finish_base (V := V) (B := B) (G := G) op csha adm out rsha rs cid ssha : M S dict).
Proof.
  apply returns_on. unfold Mediation._finish. do 5 (apply returns_bind; intros ?). by apply returns_ret.
Qed.

Lemma request_bound_silent op scope gate : outer_silent (request_bound_capability (V := V) (B := B) (G := G) op scope gate).
Proof.
  unfold request_bound_capability. do 3 (evolve_step; [evolve_step|]). apply base_silent.
Qed.

Lemma verdict_keeps op s : outer_keeps (outer s) (outer (snd (objective_verdict op s))).
Proof. exact (on_guard_keeps (evaluate_operation op) (operation_ok op) s). Qed.

Lemma objective_mediate_blocked op s :
  rm_contained (om_base (lget (T := ObjectiveBoundEffectRuntimeMediator V B G) s)) = true
    \/ ~ objective_allows op s ->
  (forall ex ex', ObjectiveBoundEffectRuntimeMediator_mediate op ex s
                  = ObjectiveBoundEffectRuntimeMediator_mediate op ex' s)
  /\ forall ex doc s', ObjectiveBoundEffectRuntimeMediator_mediate op ex s = (Ok doc, s') ->
     blocked doc /\ ob_delegate (outer s') = ob_delegate (outer s)
     /\ ob_leases (outer s') = ob_leases (outer s).
Proof.
  intros Hno. unfold ObjectiveBoundEffectRuntimeMediator_mediate.
  setoid_rewrite M_lift. destruct (RuntimeOperation_validate op); [|by split].
  setoid_rewrite M_lift. destruct (normalized_scope op) as [scope|]; [|by split]. cbv zeta.
  setoid_rewrite M_get. destruct (rm_contained _) eqn:Hcont.
  - split; [done|]. intros _ doc s' Hrun.
    pose proof (base_silent (Mediation._finish op ZERO_SHA256 "BLOCK" "NOT_EXECUTED" ZERO_SHA256
      ["containment_active"; "objective_bound_effect_blocked"] None
      (canonical_sha256 (JObj scope)) None) s) as Hsil.
    apply finish_base_shows in Hrun as Hd. unfold finish_base in Hrun. rewrite Hrun in Hsil.
    cbn [snd] in Hsil. rewrite Hsil. destruct Hd as [[? ?] ?]. by split_and!.
  - assert (~ objective_allows op s) as Hn by (by destruct Hno). clear Hno.
    setoid_rewrite M_bind_eq. unfold objective_allows in Hn. fold (objective_verdict op).
    assert (ob_delegate (outer (snd (objective_verdict op s))) = ob_delegate (outer s)
      /\ ob_leases (outer (snd (objective_verdict op s))) = ob_leases (outer s)) as [Hd1 Hd2].
    { unfold objective_verdict. rewrite on_run. destruct (evaluate_operation _ _). unfold outer. cbn.
      by rewrite !lget_lput. }
    destruct (objective_verdict op s) as [[gate|e] s1]; [|by split].
    cbn [fst snd] in *. setoid_rewrite M_lift. destruct (str_item gate "decision") as [d|] eqn:Hd; [|by split].
    apply str_item_ok in Hd. destruct (String.eqb d "ALLOW") eqn:Ha.
    { apply String.eqb_eq in Ha as ->. destruct Hn. by exists gate. }
    split; [done|]. intros ex doc s' Hrun. cbn [negb] in Hrun. clear ex.
    pose proof (base_silent (Mediation._finish op ZERO_SHA256 "BLOCK" "NOT_EXECUTED" ZERO_SHA256
      ["objective_integrity_gate_blocked"; "objective_decision:" +:+ d] None
      (canonical_sha256 (JObj scope)) None) s1) as Hsil.
    apply finish_base_shows in Hrun as Hd'. unfold finish_base in Hrun. rewrite Hrun in Hsil.
    cbn [snd] in Hsil. rewrite Hsil. destruct Hd' as [[? ?] ?]. by split_and!.
Qed.

Lemma objective_mediate_success op executor s doc s' : outer_silent_env ->
  (forall op, evolves host_outer_keeps (executor op)) -> outer_inv (outer s) ->
  ObjectiveBoundEffectRuntimeMediator_mediate op executor s = (Ok doc, s') ->
  dict_get doc "execution_outcome" = Some (JStr "SUCCEEDED") ->
  objective_allows op s
  /\ exists o, outer_committed s s' op o /\ dict_get doc "result_sha256" = Some (JStr (eo_result_sha256 o)).
Proof.
  intros He Hex Hb Hrun Hout.
  unfold ObjectiveBoundEffectRuntimeMediator_mediate in Hrun.
  M_run Hrun. destruct (RuntimeOperation_validate op); [|done].
  M_run Hrun. destruct (normalized_scope op) as [scope|]; [|done]. cbv zeta in Hrun. M_run Hrun.
  destruct (rm_contained _); [apply finish_base_shows in Hrun as [[Ho _] _]; congruence|].
  rewrite M_bind_eq in Hrun. unfold objective_allows. fold (objective_verdict op) in Hrun.
  pose proof (verdict_keeps op s Hb) as Hk1.
  destruct (objective_verdict op s) as [[gate|e] s1]; [|done]. cbn [fst snd] in *. M_run Hrun.
  destruct (str_item gate "decision") as [d|] eqn:Hd; [|done]. apply str_item_ok in Hd.
  destruct (String.eqb d "ALLOW") eqn:Ha; cbn [negb] in Hrun;
    [|apply finish_base_shows in Hrun as [[Ho _] _]; congruence].
  apply String.eqb_eq in Ha as ->. split; [by exists gate|].
  rewrite M_bind_eq in Hrun. pose proof (request_bound_silent op scope gate s1) as Hs2.
  destruct (request_bound_capability op scope gate s1) as [[cap|e] s2]; [|done]. cbn [snd] in Hs2.
  M_run Hrun. destruct (dict_item cap "decision") as [v|]; [|done]. destruct (is_str v "ALLOW"); cbn [negb] in Hrun.
  2: { M_run Hrun. destruct (str_item _ _); [|done]. M_run Hrun. destruct (codes_item _ _); [|done].
       apply finish_base_shows in Hrun as [[Ho _] _]. congruence. }
  unfold commit_admitted in Hrun. M_run Hrun. rewrite M_attempt in Hrun.
  destruct Hk1 as (Hb1 & G1 & _). rewrite <- Hs2 in Hb1, G1.
  destruct (commit_authorized_effect op cap gate _ executor s2) as [[o|e] s3] eqn:Hcommit;
    M_run Hrun; (destruct (str_item _ _); [|done]); M_run Hrun; (destruct (opt_str _ _); [|done]);
    pose proof (finish_base_shows _ _ _ _ _ _ _ _ _ _ _ Hrun) as [[Ho Hres] _]; [|congruence].
  exists o. split; [|done].
  match type of Hrun with finish_base ?a ?b ?c ?d ?e ?f ?g ?h _ = _ =>
    pose proof (base_silent (Mediation._finish a b c d e f g h None) s3) as Hs' end.
  unfold finish_base in Hrun. rewrite Hrun in Hs'. cbn [snd] in Hs'.
  destruct (outer_commit_success op cap gate _ executor s2 o s3 He Hex Hb1 Hcommit) as (pre & c & Hc & Hpre & Hrest).
  exists pre, c. rewrite Hs'. split; [done|]. split; [|done]. etrans; [apply (ow_commits _ _ G1)|done].
Qed.
End outer_mediated.

Section outer_init.
Context {hash : Digest} {V : Type}.

(** A new broker over a guard and an inner broker that satisfy their invariants. *)
Lemma outer_init_inv (guard : ObjectiveIntegrityGuard V) delegate : guard_inv guard ->
  effect_inv delegate -> outer_inv (ObjectiveBoundEffectCommitBroker_init guard delegate)
  /\ unsettled_outer (ObjectiveBoundEffectCommitBroker_init guard delegate) = 0.
Proof.
  intros Hg Hd. split; [|done]. by constructor.
Qed.

(** How the parts of a new broker were made. *)
Definition outer_built (policy : ObjectiveMethodPolicy + dict) (bindings : option dict)
    (verifier : option V) (host token : string) (ttl : Z) b : Prop :=
  exists guard delegate, policy_built policy
    /\ ObjectiveIntegrityGuard_init policy bindings verifier = Ok guard
    /\ EffectCommitBroker_init host token ttl = Ok delegate
    /\ b = ObjectiveBoundEffectCommitBroker_init guard delegate.

Lemma outer_built_inv policy bindings verifier host token ttl b :
  outer_built policy bindings verifier host token ttl b ->
  outer_inv b /\ unsettled_outer b = 0 /\ unsettled (ob_delegate b) = 0.
Proof.
  intros (guard & delegate & Hp & Hg & Hd & ->). destruct (effect_init_inv _ _ _ _ Hd) as [Hi Hu].
  pose proof (built_guard_inv _ _ _ _ Hp Hg) as Hgi.
  destruct (outer_init_inv guard delegate Hgi Hi) as [? ?]. done.
Qed.
End outer_init.

(** ** Example values *)
#[local] Existing Instance checksum_digest.

(** A policy that allows configuration, and a capability contract under it. *)
Definition objective_policy : result ObjectiveMethodPolicy :=
  rule ← ObjectiveMethodRule_build (JStr "rule:1") (JStr "process.execute") (JStr "result_fabrication")
           (JStr "REVISE") (JStr ZERO_SHA256) (JStr SHA1111);
  ObjectiveMethodPolicy_build (JStr "objective:1") (JStr SHA1111) (JStr "method:1") (JStr SHA1111)
    [JStr "runtime.configure"; JStr "process.execute"] [rule] (JBool true).

Definition objective_guard : ObjectiveIntegrityGuard unit :=
  from_ok no_guard (policy ← objective_policy; ObjectiveIntegrityGuard_init (inl policy) None None).

Definition objective_contract : dict :=
  from_ok [] (contract ← EpochBroker.EpochBoundCapabilityContract_build
                (seal "contract_sha256"
                   (provisional_body CAPABILITY_SCHEMA Contracts.AUTHORITY
                      (dict_set config_kwargs "policy_sha256" (JStr SHA1111)))) 3 ZERO_SHA256;
              Ok (EpochBroker.EpochBoundCapabilityContract_as_document contract)).

Definition objective_epoch_host : EpochHost := {|
  eh_broker := snd (EpochBroker.admit_contract (Ok runtime_document) objective_contract 100
                      EpochBroker.fresh_epoch_broker);
  eh_runtime := Ok runtime_document |}.

Definition objective_operation : RuntimeOperation := {|
  ro_operation_id := "op:1"; ro_subject_id := "agent:1"; ro_policy_sha256 := SHA1111;
  ro_kind := "runtime.configure"; ro_scope := [("setting_keys", jstrs ["debug"])];
  ro_payload_sha256 := ZERO_SHA256; ro_at_unix := 150; ro_privilege_level_before := 0;
  ro_privilege_level_after := 1 |}.

Definition OuterHost : Type := ObjectiveBoundEffectRuntimeMediator unit EpochHost unit.

Definition outer_lens : Lens OuterHost (ObjectiveBoundEffectCommitBroker unit) :=
  broker_in (L := lens_id).

#[local] Instance outer_env : EffectEnv OuterHost := {
  env_clock s := (Ok 150, s);
  env_world s := (Ok runtime_document, s);
  env_session op s := (build_session_document op ZERO_SHA256 ZERO_SHA256 true, s);
  env_capabilities s := (op_state_document (rm_broker (om_base s)), s) }.

#[local] Instance outer_host_clock : OuterClock OuterHost := { outer_clock s := (Ok 150, s) }.

Definition outer_host : OuterHost := {|
  om_base := RuntimeMediator_init objective_epoch_host None;
  om_objective_effect_broker :=
    ObjectiveBoundEffectCommitBroker_init objective_guard example_commit_broker;
  om_adapter_token := "token" |}.

Definition outer_mediated : result dict * OuterHost :=
  @ObjectiveBoundEffectRuntimeMediator_mediate checksum_digest unit EpochHost unit OuterHost _ outer_env
    outer_host_clock (@lens_id OuterHost) objective_operation (@good_executor OuterHost) outer_host.

Lemma outer_mediated_run :
  ObjectiveBoundEffectRuntimeMediator_mediate (S := OuterHost) (L := @lens_id OuterHost)
    objective_operation (@good_executor OuterHost) outer_host = outer_mediated.
Proof.
  exact (@eq_refl _ (ObjectiveBoundEffectRuntimeMediator_mediate (S := OuterHost) (L := @lens_id OuterHost)
    objective_operation (@good_executor OuterHost) outer_host)).
Qed.

Example outer_mediated_succeeds :
  (doc ← fst outer_mediated; dict_item doc "execution_outcome") = Ok (JStr "SUCCEEDED").
Proof. vm_compute. reflexivity. Qed.

(** The guard's decision, the lease it is bound to and its consumption. *)
Definition outer_decided : result dict * OuterHost :=
  objective_verdict (L := lens_id) objective_operation outer_host.

Definition outer_issue : result (string * dict) * OuterHost :=
  issue_for_trusted_adapter (L := outer_lens) objective_operation example_decision
    (from_ok [] (fst outer_decided)) (snd outer_decided).

Definition outer_example_id : string := fst (from_ok ("", []) (fst outer_issue)).

Definition outer_consumed : result ExecutionObservation * OuterHost :=
  consume_for_trusted_adapter (L := outer_lens) outer_example_id "token" good_executor (snd outer_issue).

Lemma outer_example_silent : outer_silent_env (L := outer_lens).
Proof. constructor; intros; intros s; reflexivity. Qed.

Lemma outer_good_executor op : evolves (host_outer_keeps (L := outer_lens)) (good_executor op).
Proof. intros s. exact (reflexivity (R:=outer_keeps) (outer (L := outer_lens) s)). Qed.

Lemma outer_host_built : exists policy,
  outer_built (inl policy) None None ZERO_SHA256 (sha256_hex "token") 10 (outer (L := outer_lens) outer_host).
Proof.
  assert (is_ok (policy ← objective_policy; ObjectiveIntegrityGuard_init (V := unit) (inl policy) None None) = true) as Hok
    by (vm_compute; reflexivity).
  assert (is_ok (EffectCommitBroker_init ZERO_SHA256 (sha256_hex "token") 10) = true) as Hok'
    by (vm_compute; reflexivity).
  unfold outer_built, outer_host, outer, outer_lens. cbn [lget broker_in lens_comp lens_id effect_broker_field
    om_objective_effect_broker]. unfold objective_guard, example_commit_broker.
  destruct objective_policy as [p|] eqn:Hp; [|discriminate Hok]. rewrite bind_Ok in *.
  destruct (ObjectiveIntegrityGuard_init (V := unit) (inl p) None None) as [g|] eqn:Hg; [|discriminate Hok].
  destruct (EffectCommitBroker_init _ _ _) as [d|] eqn:Hd; [|discriminate Hok'].
  exists p, g, d. split_and!; try done. unfold objective_policy in Hp. py_inv.
  by eexists _, _, _, _, _, _, _.
Qed.

Lemma outer_host_inv : outer_inv (outer (L := outer_lens) outer_host).
Proof. destruct outer_host_built as [p Hb]. by apply outer_built_inv in Hb as [? _]. Qed.

Lemma outer_issue_reachable : star (outer_step (L := outer_lens)) outer_host (snd outer_issue).
Proof.
  apply (star_step _ outer_host (snd outer_decided)).
  - apply (star_step _ outer_host outer_host); [apply star_refl|].
    exact (us_host (L := outer_lens) outer_host (snd outer_decided)
             (verdict_keeps (L := lens_id) objective_operation outer_host)).
  - exact (us_issue (L := outer_lens) (snd outer_decided) objective_operation example_decision
             (from_ok [] (fst outer_decided))).
Qed.

Lemma outer_consumed_reachable : star (outer_step (L := outer_lens)) outer_host (snd outer_consumed).
Proof.
  eapply star_step; [apply outer_issue_reachable|]. unfold outer_consumed. apply us_consume.
  apply outer_good_executor.
Qed.

Lemma outer_issue_inv : outer_inv (outer (L := outer_lens) (snd outer_issue)).
Proof.
  destruct (outer_steps_keep (L := outer_lens) outer_host (snd outer_issue) outer_example_silent
    outer_issue_reachable outer_host_inv) as [H _]. exact H.
Qed.

Example outer_consumed_succeeds : is_ok (fst outer_consumed) = true.
Proof. vm_compute. reflexivity. Qed.

(** ** Properties *)

(** C6: consuming an objective-bound lease either raises without touching the executor,
    with the broker unchanged or with the lease burned and the refusal on record, or it
    has rechecked that the lease is unused and in time and that the guard is not
    contained, has seen no violation and is in the very state (objective, policy,
    observation head, state digest) the lease was issued in; then the inner broker and
    the executor run in a state where the outer lease is already burned. *)
Theorem objective_commit_rechecks_then_burns `{hash : Digest} {V S : Type}
    `{L : Lens S (ObjectiveBoundEffectCommitBroker V)} `{env : EffectEnv S} `{clock : OuterClock S}
    (outer_lease_id : string) (s : S) (Henv : outer_silent_env) (Hinv : outer_inv (outer s)) :
  (exists e s', (outer s' = outer s \/ refused_outer outer_lease_id (outer s) (outer s'))
     /\ forall token executor, consume_for_trusted_adapter outer_lease_id token executor s = (Err e, s'))
  \/ exists c s', outer s' = consume_outer outer_lease_id (outer s)
     /\ outer_rechecked outer_lease_id (outer s) c
     /\ forall token executor, consume_for_trusted_adapter outer_lease_id token executor s
                               = run_inner c token executor s'.
Proof.
  apply outer_consume_cases; [done|by apply Hinv|]. intros l. by apply outer_id_ok.
Qed.

Lemma objective_commit_rechecks_then_burns_witness :
  let s := snd outer_issue in
  (exists e s', (outer (L := outer_lens) s' = outer (L := outer_lens) s
      \/ refused_outer outer_example_id (outer (L := outer_lens) s) (outer (L := outer_lens) s'))
     /\ forall token executor,
          consume_for_trusted_adapter (L := outer_lens) outer_example_id token executor s = (Err e, s'))
  \/ exists c s', outer (L := outer_lens) s' = consume_outer outer_example_id (outer (L := outer_lens) s)
     /\ outer_rechecked outer_example_id (outer (L := outer_lens) s) c
     /\ forall token executor,
          consume_for_trusted_adapter (L := outer_lens) outer_example_id token executor s
          = run_inner (L := outer_lens) c token executor s'.
Proof.
  exact (@objective_commit_rechecks_then_burns checksum_digest unit OuterHost outer_lens outer_env
    outer_host_clock outer_example_id (snd outer_issue) outer_example_silent outer_issue_inv).
Defined.

(** C31: an objective-bound lease is used at most once. In every reachable state each commit
    receipt of the outer broker is for a consumed lease (it carries the digest of its
    identifier, its authorization receipt and its operation), and there are as many receipts
    as consumed leases; the same holds of the inner broker. An outer lease once consumed
    stays as it is and is refused for ever, whatever the executor, with the broker
    unchanged. *)
Theorem outer_lease_used_at_most_once `{hash : Digest} {V S : Type}
    `{L : Lens S (ObjectiveBoundEffectCommitBroker V)} `{env : EffectEnv S} `{clock : OuterClock S}
    (policy : ObjectiveMethodPolicy + dict) (bindings : option dict) (verifier : option V)
    (host token : string) (ttl : Z) (s0 s1 s2 : S) (id : string) (l : _ObjectiveLease)
    (Henv : outer_silent_env) (Hbuilt : outer_built policy bindings verifier host token ttl (outer s0))
    (Hreach1 : star outer_step s0 s1) (Hreach2 : star outer_step s1 s2)
    (Hlease : ob_leases (outer s1) !! id = Some l) (Hused : ol_consumed l = true) :
  Forall (commit_of_consumed (outer s1)) (ob_commits (outer s1))
  /\ length (ob_commits (outer s1)) = size (consumed_outer (outer s1))
  /\ Forall (inner_of_consumed (ob_delegate (outer s1))) (eb_commits (ob_delegate (outer s1)))
  /\ length (eb_commits (ob_delegate (outer s1))) = size (consumed_leases (ob_delegate (outer s1)))
  /\ ob_leases (outer s2) !! id = Some l
  /\ exists e s', outer s' = outer s2
     /\ forall token' executor, consume_for_trusted_adapter id token' executor s2 = (Err e, s').
Proof.
  destruct (outer_built_inv _ _ _ _ _ _ _ Hbuilt) as (Hi0 & Hu0 & Hd0).
  destruct (outer_steps_keep _ _ Henv Hreach1 Hi0) as (Hi1 & _ & Hu1 & Hd1).
  destruct (outer_steps_keep _ _ Henv Hreach2 Hi1) as (Hi2 & G2 & _).
  destruct (outer_grows_lookup _ _ _ _ G2 Hlease) as (l' & Hl' & Hsame & _). rewrite (Hsame Hused) in Hl'.
  split; [by apply commits_of_consumed|]. split; [unfold unsettled_outer in *; lia|].
  split; [by apply inner_commits_of_consumed, ov_delegate|]. split; [unfold unsettled in *; lia|]. split; [done|].
  destruct (outer_consume_cases id s2 Henv (ov_guard _ Hi2) (fun l0 => outer_id_ok _ id l0 Hi2))
    as [(e & s' & [Hs|Hr] & Hrun)|(c & s' & _ & Hc & _)].
  - by exists e, s'.
  - destruct Hr as (l0 & c & Hl0 & Hu & _). congruence.
  - destruct Hc as [Hk Hn]. congruence.
Qed.

Lemma outer_lease_used_at_most_once_witness :
  let s := snd outer_consumed in
  exists l, Forall (commit_of_consumed (outer (L := outer_lens) s)) (ob_commits (outer (L := outer_lens) s))
  /\ length (ob_commits (outer (L := outer_lens) s)) = size (consumed_outer (outer (L := outer_lens) s))
  /\ Forall (inner_of_consumed (ob_delegate (outer (L := outer_lens) s)))
       (eb_commits (ob_delegate (outer (L := outer_lens) s)))
  /\ length (eb_commits (ob_delegate (outer (L := outer_lens) s)))
     = size (consumed_leases (ob_delegate (outer (L := outer_lens) s)))
  /\ ob_leases (outer (L := outer_lens) s) !! outer_example_id = Some l
  /\ exists e s', outer (L := outer_lens) s' = outer (L := outer_lens) s
     /\ forall token executor,
          consume_for_trusted_adapter (L := outer_lens) outer_example_id token executor s = (Err e, s').
Proof.
  assert ((ol_consumed <$> ob_leases (outer (L := outer_lens) (snd outer_consumed)) !! outer_example_id)
          = Some true) as Hl by (vm_compute; reflexivity).
  cbv zeta. destruct (ob_leases (outer (L := outer_lens) (snd outer_consumed)) !! outer_example_id) as [l|] eqn:E; [|discriminate Hl].
  injection Hl as Hl. exists l. destruct outer_host_built as [p Hb].
  pose proof (@outer_lease_used_at_most_once checksum_digest unit OuterHost outer_lens outer_env outer_host_clock
    (inl p) None None ZERO_SHA256 (sha256_hex "token") 10 outer_host (snd outer_consumed)
    (snd outer_consumed) outer_example_id l outer_example_silent Hb outer_consumed_reachable
    (star_refl _ _) E Hl) as H. rewrite E in H. exact H.
Defined.

(** In every reachable state each outer commit receipt verifies and is backed by an
    ALLOW authorization receipt that verifies too, for the same lease, operation,
    objective and policy. A success moreover lies in the time of the authorization, under
    its observation head and guard state, and is the inner broker's commit of the same
    operation with the same result. *)
Theorem objective_commits_are_bound `{hash : Digest} {V S : Type}
    `{L : Lens S (ObjectiveBoundEffectCommitBroker V)} `{env : EffectEnv S} `{clock : OuterClock S}
    (policy : ObjectiveMethodPolicy + dict) (bindings : option dict) (verifier : option V)
    (host token : string) (ttl : Z) (s0 s : S) (c : ObjectiveEffectCommitReceipt)
    (Henv : outer_silent_env) (Hbuilt : outer_built policy bindings verifier host token ttl (outer s0))
    (Hreach : star outer_step s0 s) (Hc : c ∈ ob_commits (outer s)) :
  verify_commit_receipt (ObjectiveEffectCommitReceipt_as_document c)
  = Ok (ObjectiveEffectCommitReceipt_as_document c)
  /\ exists a, a ∈ ob_authorizations (outer s)
     /\ verify_authorization_receipt (ObjectiveEffectAuthorizationReceipt_as_document a)
        = Ok (ObjectiveEffectAuthorizationReceipt_as_document a)
     /\ oc_authorization_receipt_sha256 c = oa_receipt_sha256 a
     /\ oc_outer_lease_id_sha256 c = oa_outer_lease_id_sha256 a
     /\ oc_operation_id c = oa_operation_id a /\ oc_objective_id c = oa_objective_id a
     /\ oc_method_policy_sha256 c = oa_method_policy_sha256 a
     /\ oc_inner_authorization_receipt_sha256 c = oa_inner_authorization_receipt_sha256 a
     /\ (oc_effect_outcome c = "SUCCEEDED" ->
         oa_issued_at_unix a <= oc_committed_at_unix c <= oa_expires_at_unix a
         /\ oc_objective_observation_head_sha256 c = oa_objective_observation_head_sha256 a
         /\ oc_objective_state_sha256 c = oa_objective_state_sha256 a
         /\ exists ic, ic ∈ eb_commits (ob_delegate (outer s)) /\ ec_effect_outcome ic = "SUCCEEDED"
            /\ ec_operation_id ic = oc_operation_id c /\ ec_result_sha256 ic = oc_result_sha256 c
            /\ ec_receipt_sha256 ic = oc_inner_commit_receipt_sha256 c).
Proof.
  destruct (outer_built_inv _ _ _ _ _ _ _ Hbuilt) as (Hi0 & _).
  destruct (outer_steps_keep _ _ Henv Hreach Hi0) as ([_ _ Hl Ha Hcs] & _).
  rewrite Forall_forall in Hcs. destruct (Hcs c Hc) as (id & l & Hlook & _ & Hr & Hs).
  split; [by eapply outer_commit_verifies|].
  destruct (Hl id l Hlook) as (_ & _ & _ & a & Hin & Hla). exists a. split; [done|].
  rewrite Forall_forall in Ha. split; [by apply outer_authorization_verifies, Ha|].
  destruct Hr, Hla. do 6 (split; [congruence|]). intros Hout.
  destruct (Hs Hout) as (Ht & Hh & Hst & Hic). split; [lia|]. do 2 (split; [congruence|]). exact Hic.
Qed.

Lemma objective_commits_are_bound_witness :
  let s := snd outer_consumed in
  exists c a, c ∈ ob_commits (outer (L := outer_lens) s)
  /\ verify_commit_receipt (ObjectiveEffectCommitReceipt_as_document c)
     = Ok (ObjectiveEffectCommitReceipt_as_document c)
  /\ a ∈ ob_authorizations (outer (L := outer_lens) s)
  /\ oc_authorization_receipt_sha256 c = oa_receipt_sha256 a
  /\ exists ic, ic ∈ eb_commits (ob_delegate (outer (L := outer_lens) s))
     /\ ec_receipt_sha256 ic = oc_inner_commit_receipt_sha256 c.
Proof.
  assert (map (fun c => String.eqb (oc_effect_outcome c) "SUCCEEDED")
    (ob_commits (outer (L := outer_lens) (snd outer_consumed))) = [true]) as Hl by (vm_compute; reflexivity).
  cbv zeta. destruct (ob_commits (outer (L := outer_lens) (snd outer_consumed))) as [|c l] eqn:E; [discriminate Hl|].
  injection Hl as Hout _. apply String.eqb_eq in Hout.
  assert (c ∈ ob_commits (outer (L := outer_lens) (snd outer_consumed))) as Hc by (rewrite E; left).
  destruct outer_host_built as [p Hb].
  destruct (@objective_commits_are_bound checksum_digest unit OuterHost outer_lens outer_env outer_host_clock
    (inl p) None None ZERO_SHA256 (sha256_hex "token") 10 outer_host (snd outer_consumed) c
    outer_example_silent Hb outer_consumed_reachable Hc) as (Hv & a & Ha & _ & Hauth & _ & _ & _ & _ & _ & Hs).
  destruct (Hs Hout) as (_ & _ & _ & ic & Hic & _ & _ & _ & Hsha).
  exists c, a. split; [left|]. split; [exact Hv|]. split; [exact Ha|]. split; [exact Hauth|].
  exists ic. split; [exact Hic|exact Hsha].
Defined.

(** C7: an objective-bound mediation that reports SUCCEEDED went through the whole chain:
    the guard allowed the operation, the call ends with a commit receipt of the outer
    broker for it, SUCCEEDED and with the result the mediation receipt names, and that
    receipt names a commit of the inner broker for the same operation and result. *)
Theorem objective_success_goes_through_every_gate `{hash : Digest} {V B G S : Type} `{BrokerOps B}
    `{env : EffectEnv S} `{clock : OuterClock S} {L : Lens S (ObjectiveBoundEffectRuntimeMediator V B G)}
    (op : RuntimeOperation) (executor : RuntimeOperation -> M S exec_result) (s s' : S) (doc : dict)
    (Henv : outer_silent_env (L := broker_in (V := V) (B := B) (G := G)))
    (Hex : forall op, evolves (host_outer_keeps (L := broker_in (V := V) (B := B) (G := G))) (executor op))
    (Hinv : outer_inv (outer (L := broker_in (V := V) (B := B) (G := G)) s))
    (Hrun : ObjectiveBoundEffectRuntimeMediator_mediate op executor s = (Ok doc, s'))
    (Hout : dict_get doc "execution_outcome" = Some (JStr "SUCCEEDED")) :
  objective_allows (V := V) (B := B) (G := G) op s
  /\ exists o, outer_committed (L := broker_in (V := V) (B := B) (G := G)) s s' op o
     /\ dict_get doc "result_sha256" = Some (JStr (eo_result_sha256 o)).
Proof. by eapply objective_mediate_success. Qed.

Lemma objective_success_goes_through_every_gate_witness :
  objective_allows (L := lens_id) objective_operation outer_host
  /\ exists o, outer_committed (L := outer_lens) outer_host (snd outer_mediated) objective_operation o
     /\ dict_get (from_ok [] (fst outer_mediated)) "result_sha256" = Some (JStr (eo_result_sha256 o)).
Proof.
  apply (@objective_success_goes_through_every_gate checksum_digest unit EpochHost unit OuterHost _
    outer_env outer_host_clock lens_id objective_operation good_executor outer_host
    (snd outer_mediated) (from_ok [] (fst outer_mediated)) outer_example_silent outer_good_executor
    outer_host_inv).
  - assert (is_ok (fst outer_mediated) = true) as Hok by (vm_compute; reflexivity).
    rewrite outer_mediated_run. destruct outer_mediated as [[doc|e] s']; [reflexivity|discriminate Hok].
  - vm_compute. reflexivity.
Defined.

(** When the mediator is contained or the guard does not allow the operation, the
    executor is irrelevant: the call has the same outcome whatever it is, blocks with
    nothing executed, and leaves the leases and the inner broker as they were. *)
Theorem objective_gate_blocks `{hash : Digest} {V B G S : Type} `{BrokerOps B}
    `{env : EffectEnv S} `{clock : OuterClock S} {L : Lens S (ObjectiveBoundEffectRuntimeMediator V B G)}
    (op : RuntimeOperation) (s : S)
    (Hno : rm_contained (om_base (lget (T := ObjectiveBoundEffectRuntimeMediator V B G) s)) = true
           \/ ~ objective_allows (V := V) (B := B) (G := G) op s) :
  (forall ex ex', ObjectiveBoundEffectRuntimeMediator_mediate op ex s
                  = ObjectiveBoundEffectRuntimeMediator_mediate op ex' s)
  /\ forall ex doc s', ObjectiveBoundEffectRuntimeMediator_mediate op ex s = (Ok doc, s') ->
     blocked doc
     /\ ob_delegate (outer (L := broker_in (V := V) (B := B) (G := G)) s')
        = ob_delegate (outer (L := broker_in (V := V) (B := B) (G := G)) s)
     /\ ob_leases (outer (L := broker_in (V := V) (B := B) (G := G)) s')
        = ob_leases (outer (L := broker_in (V := V) (B := B) (G := G)) s).
Proof. by apply objective_mediate_blocked. Qed.

(** The host with its mediator contained. *)
Definition contained_host : OuterHost :=
  snd (ObjectiveBoundEffectRuntimeMediator_enter_containment (L := lens_id) SHA1111 outer_host).

Lemma objective_gate_blocks_witness :
  rm_contained (om_base contained_host) = true
  /\ forall ex ex',
       ObjectiveBoundEffectRuntimeMediator_mediate (L := lens_id) objective_operation ex contained_host
       = ObjectiveBoundEffectRuntimeMediator_mediate (L := lens_id) objective_operation ex' contained_host.
Proof.
  assert (rm_contained (om_base contained_host) = true) as Hc by (vm_compute; reflexivity).
  split; [exact Hc|].
  apply (@objective_gate_blocks checksum_digest unit EpochHost unit OuterHost _ outer_env outer_host_clock
    lens_id objective_operation contained_host (or_introl Hc)).
Defined.
