(* ===== verification/CausalEffectCommit.v ===== *)
(** * Causal-bound effect commit (sdk/liminal_causal_effect_commit/__init__.py)

    A ledger keeps the verified trajectory; a one-time lease over the objective-bound
    broker binds an effect to the exact head of that trajectory and to the analysis of
    the trajectory extended by the proposed event, and the committed event is appended.
    The event verifier and the proposal factory are host code; the commit fence is
    re-entrant and has no term. *)
From stdpp Require Import gmap.
From S2P Require Import Prelude PyStr Json Digest Contracts Escalation BrokerInterface Mediation EffectCommit ObjectiveIntegrity ObjectiveEffectCommit.
#[local] Open Scope Z_scope.

(** ** Constants *)
Definition LEDGER_SCHEMA : string := "liminal-fenced-trajectory-risk-ledger-v0.1".
Definition LEASE_SCHEMA : string := "liminal-causal-bound-effect-lease-v0.1".
Definition COMMIT_SCHEMA : string := "liminal-causal-bound-effect-commit-v0.1".
Definition STATE_SCHEMA : string := "liminal-causal-bound-effect-state-v0.1".

Definition AUTHORITY : dict :=
  [("mode", JStr "causal_trajectory_bound_effect_commit_composition");
   ("trajectory_head_binding", JBool true); ("projected_trajectory_gate", JBool true);
   ("shared_causal_effect_fence", JBool true); ("one_time_causal_lease", JBool true);
   ("objective_bound_inner_effect_required", JBool true);
   ("append_committed_event_on_success", JBool true);
   ("trusted_event_verification_required", JBool true); ("capability_grant", JBool false);
   ("causal_evidence_fabrication", JBool false); ("runtime_mutation", JBool false);
   ("network_authority", JBool false); ("credential_authority", JBool false);
   ("containment_execution", JBool false); ("kernel_enforcement", JBool false)].

(** [raise CausalEffectCommitError(code)] when [b]. *)
Definition causal_if (b : bool) (code : string) : result unit :=
  raise_if b CausalEffectCommitError code.

Definition _sha (value : json) (name : string) (allow_zero : bool) : result string :=
  digest ← check_sha CausalEffectCommitError ("invalid_" +:+ name) value;
  _ ← causal_if (negb allow_zero && String.eqb digest ZERO_SHA256) ("zero_" +:+ name);
  Ok digest.

Definition _time (value : json) (name : string) : result Z :=
  match value with
  | JInt z => if z <? 0 then fail CausalEffectCommitError ("invalid_" +:+ name) else Ok z
  | _ => fail CausalEffectCommitError ("invalid_" +:+ name)
  end.

(** ** Events *)
Definition event_keys : list string :=
  ["event_id"; "sequence"; "observed_at_unix"; "kind"; "decision"; "subject_id"; "capability_id";
   "privilege_level_before"; "privilege_level_after"; "metadata_sha256"; "previous_event_sha256";
   "event_sha256"].

(** ** The ledger: its state *)
Record FencedTrajectoryRiskLedger (W : Type) := {
  tl_verify_event : W;
  tl_events : list TrajectoryEvent;
  tl_event_ids : gset string
}.
Arguments tl_verify_event {W} _.
Arguments tl_events {W} _.
Arguments tl_event_ids {W} _.

(** [self._verify_event(document)]: host code. *)
Class EventVerifier (W S : Type) := { verify_event_with : W -> dict -> M S json }.

Section ledger_fields.
Context {W : Type}.
Implicit Types g : FencedTrajectoryRiskLedger W.

Definition FencedTrajectoryRiskLedger_init (verify_event : W) : FencedTrajectoryRiskLedger W :=
  {| tl_verify_event := verify_event; tl_events := []; tl_event_ids := ∅ |}.

Definition head_sha256 g : string :=
  match last (tl_events g) with Some e => te_event_sha256 e | None => ZERO_SHA256 end.

Definition event_count g : Z := Z.of_nat (length (tl_events g)).

(** [self._events.append(event); self._event_ids.add(event.event_id)] *)
Definition push_event (e : TrajectoryEvent) g : FencedTrajectoryRiskLedger W :=
  {| tl_verify_event := tl_verify_event g; tl_events := tl_events g ++ [e];
     tl_event_ids := {[ te_event_id e ]} ∪ tl_event_ids g |}.

Definition events g : list dict := map event_document (tl_events g).
End ledger_fields.

(** ** Receipts *)
Record CausalEffectAuthorizationReceipt := {
  ka_operation_id : string;
  ka_causal_lease_id_sha256 : string;
  ka_trajectory_head_sha256 : string;
  ka_trajectory_graph_sha256 : string;
  ka_trajectory_decision_receipt_sha256 : string;
  ka_trajectory_state_sha256 : string;
  ka_trajectory_decision : string;
  ka_projected_event_sha256 : string;
  ka_projected_graph_sha256 : string;
  ka_projected_decision_receipt_sha256 : string;
  ka_projected_decision : string;
  ka_runtime_kind : string;
  ka_scope_sha256 : string;
  ka_payload_sha256 : string;
  ka_capability_receipt_sha256 : string;
  ka_objective_authorization_receipt_sha256 : string;
  ka_issued_at_unix : Z;
  ka_expires_at_unix : Z;
  ka_receipt_sha256 : string
}.

Definition CausalEffectAuthorizationReceipt_body (r : CausalEffectAuthorizationReceipt) : dict :=
  [("schema", JStr LEASE_SCHEMA); ("operation_id", JStr (ka_operation_id r));
   ("causal_lease_id_sha256", JStr (ka_causal_lease_id_sha256 r));
   ("trajectory_head_sha256", JStr (ka_trajectory_head_sha256 r));
   ("trajectory_graph_sha256", JStr (ka_trajectory_graph_sha256 r));
   ("trajectory_decision_receipt_sha256", JStr (ka_trajectory_decision_receipt_sha256 r));
   ("trajectory_state_sha256", JStr (ka_trajectory_state_sha256 r));
   ("trajectory_decision", JStr (ka_trajectory_decision r));
   ("projected_event_sha256", JStr (ka_projected_event_sha256 r));
   ("projected_graph_sha256", JStr (ka_projected_graph_sha256 r));
   ("projected_decision_receipt_sha256", JStr (ka_projected_decision_receipt_sha256 r));
   ("projected_decision", JStr (ka_projected_decision r));
   ("runtime_kind", JStr (ka_runtime_kind r)); ("scope_sha256", JStr (ka_scope_sha256 r));
   ("payload_sha256", JStr (ka_payload_sha256 r));
   ("capability_receipt_sha256", JStr (ka_capability_receipt_sha256 r));
   ("objective_authorization_receipt_sha256", JStr (ka_objective_authorization_receipt_sha256 r));
   ("issued_at_unix", JInt (ka_issued_at_unix r));
   ("expires_at_unix", JInt (ka_expires_at_unix r)); ("authority", JObj AUTHORITY)].

Definition CausalEffectAuthorizationReceipt_as_document (r : CausalEffectAuthorizationReceipt)
    : dict :=
  dict_set (CausalEffectAuthorizationReceipt_body r) "receipt_sha256" (JStr (ka_receipt_sha256 r)).

Record CausalEffectCommitReceipt := {
  kc_operation_id : string;
  kc_authorization_receipt_sha256 : string;
  kc_causal_lease_id_sha256 : string;
  kc_trajectory_head_before_sha256 : string;
  kc_projected_event_sha256 : string;
  kc_trajectory_head_after_sha256 : string;
  kc_objective_authorization_receipt_sha256 : string;
  kc_objective_commit_receipt_sha256 : string;
  kc_committed_at_unix : Z;
  kc_effect_outcome : string;
  kc_result_sha256 : string;
  kc_reason_codes : list string;
  kc_receipt_sha256 : string
}.

Definition CausalEffectCommitReceipt_body (r : CausalEffectCommitReceipt) : dict :=
  [("schema", JStr COMMIT_SCHEMA); ("operation_id", JStr (kc_operation_id r));
   ("authorization_receipt_sha256", JStr (kc_authorization_receipt_sha256 r));
   ("causal_lease_id_sha256", JStr (kc_causal_lease_id_sha256 r));
   ("trajectory_head_before_sha256", JStr (kc_trajectory_head_before_sha256 r));
   ("projected_event_sha256", JStr (kc_projected_event_sha256 r));
   ("trajectory_head_after_sha256", JStr (kc_trajectory_head_after_sha256 r));
   ("objective_authorization_receipt_sha256", JStr (kc_objective_authorization_receipt_sha256 r));
   ("objective_commit_receipt_sha256", JStr (kc_objective_commit_receipt_sha256 r));
   ("committed_at_unix", JInt (kc_committed_at_unix r));
   ("effect_outcome", JStr (kc_effect_outcome r)); ("result_sha256", JStr (kc_result_sha256 r));
   ("reason_codes", jstrs (kc_reason_codes r)); ("authority", JObj AUTHORITY)].

Definition CausalEffectCommitReceipt_as_document (r : CausalEffectCommitReceipt) : dict :=
  dict_set (CausalEffectCommitReceipt_body r) "receipt_sha256" (JStr (kc_receipt_sha256 r)).

(** ** The broker: its state *)
Record _CausalLease := {
  kl_causal_lease_id : string;
  kl_objective_lease_id : string;
  kl_operation : RuntimeOperation;
  kl_proposal : dict;
  kl_trajectory_head_sha256 : string;
  kl_trajectory_graph_sha256 : string;
  kl_trajectory_decision_receipt_sha256 : string;
  kl_trajectory_state_sha256 : string;
  kl_projected_graph_sha256 : string;
  kl_projected_decision_receipt_sha256 : string;
  kl_capability_receipt_sha256 : string;
  kl_objective_authorization_receipt_sha256 : string;
  kl_authorization_receipt_sha256 : string;
  kl_issued_at_unix : Z;
  kl_expires_at_unix : Z;
  kl_consumed : bool
}.

Record CausalBoundEffectCommitBroker (V W : Type) := {
  kb_ledger : FencedTrajectoryRiskLedger W;
  kb_delegate : ObjectiveBoundEffectCommitBroker V;
  kb_leases : gmap string _CausalLease;
  kb_authorizations : list CausalEffectAuthorizationReceipt;
  kb_commits : list CausalEffectCommitReceipt
}.
Arguments kb_ledger {V W} _.
Arguments kb_delegate {V W} _.
Arguments kb_leases {V W} _.
Arguments kb_authorizations {V W} _.
Arguments kb_commits {V W} _.

(** [lease.consumed = True] *)
Definition burn_causal (l : _CausalLease) : _CausalLease := {|
  kl_causal_lease_id := kl_causal_lease_id l; kl_objective_lease_id := kl_objective_lease_id l;
  kl_operation := kl_operation l; kl_proposal := kl_proposal l;
  kl_trajectory_head_sha256 := kl_trajectory_head_sha256 l;
  kl_trajectory_graph_sha256 := kl_trajectory_graph_sha256 l;
  kl_trajectory_decision_receipt_sha256 := kl_trajectory_decision_receipt_sha256 l;
  kl_trajectory_state_sha256 := kl_trajectory_state_sha256 l;
  kl_projected_graph_sha256 := kl_projected_graph_sha256 l;
  kl_projected_decision_receipt_sha256 := kl_projected_decision_receipt_sha256 l;
  kl_capability_receipt_sha256 := kl_capability_receipt_sha256 l;
  kl_objective_authorization_receipt_sha256 := kl_objective_authorization_receipt_sha256 l;
  kl_authorization_receipt_sha256 := kl_authorization_receipt_sha256 l;
  kl_issued_at_unix := kl_issued_at_unix l; kl_expires_at_unix := kl_expires_at_unix l;
  kl_consumed := true |}.

Section broker_fields.
Context {V W : Type}.
Implicit Types b : CausalBoundEffectCommitBroker V W.

Definition CausalBoundEffectCommitBroker_init (ledger : FencedTrajectoryRiskLedger W)
    (delegate : ObjectiveBoundEffectCommitBroker V) : CausalBoundEffectCommitBroker V W :=
  {| kb_ledger := ledger; kb_delegate := delegate; kb_leases := ∅; kb_authorizations := [];
     kb_commits := [] |}.

Definition set_ledger (ledger : FencedTrajectoryRiskLedger W) b
    : CausalBoundEffectCommitBroker V W :=
  {| kb_ledger := ledger; kb_delegate := kb_delegate b; kb_leases := kb_leases b;
     kb_authorizations := kb_authorizations b; kb_commits := kb_commits b |}.

Definition set_objective (delegate : ObjectiveBoundEffectCommitBroker V) b
    : CausalBoundEffectCommitBroker V W :=
  {| kb_ledger := kb_ledger b; kb_delegate := delegate; kb_leases := kb_leases b;
     kb_authorizations := kb_authorizations b; kb_commits := kb_commits b |}.

Definition consume_causal (causal_lease_id : string) b : CausalBoundEffectCommitBroker V W :=
  {| kb_ledger := kb_ledger b; kb_delegate := kb_delegate b;
     kb_leases := alter burn_causal causal_lease_id (kb_leases b);
     kb_authorizations := kb_authorizations b; kb_commits := kb_commits b |}.

(** [self._authorizations.append(receipt); self._leases[causal_lease_id] = lease] *)
Definition add_causal (r : CausalEffectAuthorizationReceipt) (l : _CausalLease) b
    : CausalBoundEffectCommitBroker V W :=
  {| kb_ledger := kb_ledger b; kb_delegate := kb_delegate b;
     kb_leases := <[kl_causal_lease_id l := l]> (kb_leases b);
     kb_authorizations := kb_authorizations b ++ [r]; kb_commits := kb_commits b |}.

Definition push_causal_commit (r : CausalEffectCommitReceipt) b
    : CausalBoundEffectCommitBroker V W :=
  {| kb_ledger := kb_ledger b; kb_delegate := kb_delegate b; kb_leases := kb_leases b;
     kb_authorizations := kb_authorizations b; kb_commits := kb_commits b ++ [r] |}.

#[export] Program Instance causal_ledger
    : Lens (CausalBoundEffectCommitBroker V W) (FencedTrajectoryRiskLedger W) :=
  {| lget := kb_ledger; lput := set_ledger |}.
Next Obligation. done. Qed.
Next Obligation. by intros []. Qed.
Next Obligation. done. Qed.

#[export] Program Instance causal_delegate
    : Lens (CausalBoundEffectCommitBroker V W) (ObjectiveBoundEffectCommitBroker V) :=
  {| lget := kb_delegate; lput := set_objective |}.
Next Obligation. done. Qed.
Next Obligation. by intros []. Qed.
Next Obligation. done. Qed.

Definition authorization_receipts b : list dict :=
  map CausalEffectAuthorizationReceipt_as_document (kb_authorizations b).

Definition commit_receipts b : list dict :=
  map CausalEffectCommitReceipt_as_document (kb_commits b).

Definition consumed_causal b : gmap string _CausalLease :=
  filter (fun p => kl_consumed (snd p) = true) (kb_leases b).
End broker_fields.

(** [self.clock] of the causal broker: the one it was given, or its delegate's. *)
Class CausalClock (S : Type) := { causal_clock : M S Z }.

Section causal_effect.
Context {hash : Digest}.

(** [TrajectoryEvent(...)] of a document whose keys are right; as in [event_of_dict],
    the values have the annotated types or the event is refused. *)
Definition _parse_event (document : dict) : result TrajectoryEvent :=
  _ ← causal_if (negb (keys_are document event_keys)) "trajectory_event_keys_mismatch";
  item ← match event_of_dict document with
         | Ok e => Ok e
         | Err _ => fail CausalEffectCommitError "trajectory_event_invalid"
         end;
  _ ← causal_if (negb (String.eqb (canonical_sha256 (JObj (TrajectoryEvent_body item)))
                         (te_event_sha256 item))) "trajectory_event_digest_mismatch";
  Ok item.

(** The metadata of the event that stands for an operation. *)
Definition effect_metadata (operation : RuntimeOperation) (capability_receipt : string)
    : result dict :=
  scope ← normalized_scope operation;
  Ok [("operation_id_sha256", JStr (canonical_sha256 (JStr (ro_operation_id operation))));
      ("runtime_kind", JStr (ro_kind operation));
      ("scope_sha256", JStr (canonical_sha256 (JObj scope)));
      ("payload_sha256", JStr (ro_payload_sha256 operation));
      ("capability_receipt_sha256", JStr capability_receipt)].

(** The capability the decision grants. *)
Definition granted_capability (capability_decision : dict) : result string :=
  match dict_get_none capability_decision "capability_id" with
  | JStr capability_id =>
      _ ← causal_if (negb (is_str (dict_get_none capability_decision "decision") "ALLOW")
                     || String.eqb capability_id "") "capability_decision_not_allow";
      Ok capability_id
  | _ => fail CausalEffectCommitError "capability_decision_not_allow"
  end.

Definition build_effect_trajectory_event (operation : RuntimeOperation) (capability_decision : dict)
    (sequence : Z) (previous_event_sha256 : string) (event_id : option string) : result dict :=
  _ ← RuntimeOperation_validate operation;
  capability_receipt ← _sha (dict_get_none capability_decision "receipt_sha256")
                         "capability_receipt_sha256" false;
  capability_id ← granted_capability capability_decision;
  metadata ← effect_metadata operation capability_receipt;
  kind ← table_item PHASE3_KIND (ro_kind operation);
  previous ← _sha (JStr previous_event_sha256) "previous_event_sha256" true;
  let default_id := "effect-proposal:" +:+ ro_operation_id operation in
  event ← TrajectoryEvent_build
            (match event_id with
             | Some e => if String.eqb e "" then default_id else e
             | None => default_id
             end) sequence (ro_at_unix operation) kind "ALLOW" (ro_subject_id operation)
            (Some capability_id) (ro_privilege_level_before operation)
            (ro_privilege_level_after operation) metadata previous;
  Ok (event_document event).

(** ** The ledger: its methods *)
Definition _analyze (events : list TrajectoryEvent) : result dict :=
  match analyze_trajectory events with
  | Ok decision => Ok decision
  | Err e => if decide (exn_cls e = EscalationError)
             then fail CausalEffectCommitError "trajectory_chain_invalid" else Err e
  end.

Definition ledger_document {W} (g : FencedTrajectoryRiskLedger W) : result dict :=
  decision ← _analyze (tl_events g);
  graph ← dict_item decision "graph_sha256";
  receipt ← dict_item decision "receipt_sha256";
  verdict ← dict_item decision "decision";
  score ← dict_item decision "risk_score";
  rules ← dict_item decision "matched_rules";
  Ok (seal "state_sha256"
    [("schema", JStr LEDGER_SCHEMA); ("event_count", JInt (event_count g));
     ("trajectory_head_sha256", JStr (head_sha256 g)); ("graph_sha256", graph);
     ("decision_receipt_sha256", receipt); ("decision", verdict); ("risk_score", score);
     ("matched_rules", rules);
     ("causal_authority_sha256", JStr (canonical_sha256 (JObj Escalation.AUTHORITY)));
     ("authority", JObj AUTHORITY)]).

(** The document of [project_verified_event] for the analysis of the extended trajectory. *)
Definition projection_of {W} (g : FencedTrajectoryRiskLedger W) (event : TrajectoryEvent)
    (decision : dict) : result dict :=
  graph ← dict_item decision "graph_sha256";
  receipt ← dict_item decision "receipt_sha256";
  verdict ← dict_item decision "decision";
  score ← dict_item decision "risk_score";
  Ok (seal "projection_sha256"
    [("schema", JStr "liminal-trajectory-projection-v0.1");
     ("trajectory_head_sha256", JStr (head_sha256 g)); ("event_count_before", JInt (event_count g));
     ("proposed_event_sha256", JStr (te_event_sha256 event)); ("projected_graph_sha256", graph);
     ("projected_decision_receipt_sha256", receipt); ("projected_decision", verdict);
     ("projected_risk_score", score); ("authority", JObj AUTHORITY)]).

(** What [append_verified_event] answers. *)
Definition appended_of (event : TrajectoryEvent) (decision : dict) : result dict :=
  verdict ← dict_item decision "decision";
  receipt ← dict_item decision "receipt_sha256";
  score ← dict_item decision "risk_score";
  Ok [("event_sha256", JStr (te_event_sha256 event));
      ("trajectory_head_sha256", JStr (te_event_sha256 event)); ("trajectory_decision", verdict);
      ("trajectory_decision_receipt_sha256", receipt); ("risk_score", score)].

Section ledger.
Context {W S : Type} {L : Lens S (FencedTrajectoryRiskLedger W)} {verifier : EventVerifier W S}.

Definition _verified_event (document : dict) : M S TrajectoryEvent :=
  event ← lift (_parse_event document);
  self ← this (T := FencedTrajectoryRiskLedger W);
  verified ← attempt (verify_event_with (tl_verify_event self) document);
  match verified with
  | inr (JBool true) => mret event
  | _ => raise CausalEffectCommitError "trusted_event_verification_failed"
  end.

(** The verified event, not seen before, and the analysis of the trajectory it extends. *)
Definition extended_analysis (document : dict) : M S (TrajectoryEvent * dict) :=
  event ← _verified_event document;
  self ← this (T := FencedTrajectoryRiskLedger W);
  _ ← lift (causal_if (bool_decide (te_event_id event ∈ tl_event_ids self)) "trajectory_event_replay");
  decision ← lift (_analyze (tl_events self ++ [event]));
  mret (event, decision).

Definition append_verified_event (document : dict) : M S dict :=
  extended ← extended_analysis document;
  let '(event, decision) := extended in
  _ ← set_this (T := FencedTrajectoryRiskLedger W) (push_event event);
  lift (appended_of event decision).

Definition project_verified_event (document : dict) : M S dict :=
  extended ← extended_analysis document;
  let '(event, decision) := extended in
  self ← this (T := FencedTrajectoryRiskLedger W);
  lift (projection_of self event decision).

Definition ledger_state : M S dict :=
  self ← this (T := FencedTrajectoryRiskLedger W);
  lift (ledger_document self).
End ledger.

Definition seal_causal_authorization (r : CausalEffectAuthorizationReceipt)
    : CausalEffectAuthorizationReceipt := {|
  ka_operation_id := ka_operation_id r; ka_causal_lease_id_sha256 := ka_causal_lease_id_sha256 r;
  ka_trajectory_head_sha256 := ka_trajectory_head_sha256 r;
  ka_trajectory_graph_sha256 := ka_trajectory_graph_sha256 r;
  ka_trajectory_decision_receipt_sha256 := ka_trajectory_decision_receipt_sha256 r;
  ka_trajectory_state_sha256 := ka_trajectory_state_sha256 r;
  ka_trajectory_decision := ka_trajectory_decision r;
  ka_projected_event_sha256 := ka_projected_event_sha256 r;
  ka_projected_graph_sha256 := ka_projected_graph_sha256 r;
  ka_projected_decision_receipt_sha256 := ka_projected_decision_receipt_sha256 r;
  ka_projected_decision := ka_projected_decision r; ka_runtime_kind := ka_runtime_kind r;
  ka_scope_sha256 := ka_scope_sha256 r; ka_payload_sha256 := ka_payload_sha256 r;
  ka_capability_receipt_sha256 := ka_capability_receipt_sha256 r;
  ka_objective_authorization_receipt_sha256 := ka_objective_authorization_receipt_sha256 r;
  ka_issued_at_unix := ka_issued_at_unix r; ka_expires_at_unix := ka_expires_at_unix r;
  ka_receipt_sha256 := canonical_sha256 (JObj (CausalEffectAuthorizationReceipt_body r)) |}.

Definition seal_causal_commit (r : CausalEffectCommitReceipt) : CausalEffectCommitReceipt := {|
  kc_operation_id := kc_operation_id r;
  kc_authorization_receipt_sha256 := kc_authorization_receipt_sha256 r;
  kc_causal_lease_id_sha256 := kc_causal_lease_id_sha256 r;
  kc_trajectory_head_before_sha256 := kc_trajectory_head_before_sha256 r;
  kc_projected_event_sha256 := kc_projected_event_sha256 r;
  kc_trajectory_head_after_sha256 := kc_trajectory_head_after_sha256 r;
  kc_objective_authorization_receipt_sha256 := kc_objective_authorization_receipt_sha256 r;
  kc_objective_commit_receipt_sha256 := kc_objective_commit_receipt_sha256 r;
  kc_committed_at_unix := kc_committed_at_unix r; kc_effect_outcome := kc_effect_outcome r;
  kc_result_sha256 := kc_result_sha256 r; kc_reason_codes := kc_reason_codes r;
  kc_receipt_sha256 := canonical_sha256 (JObj (CausalEffectCommitReceipt_body r)) |}.

(** [f"causal-effect-lease:{len(self._leases)+1}:{canonical_sha256({...})[:20]}"] *)
Definition causal_lease_id_of (count : nat) (head projection_sha inner_sha : string) : string :=
  "causal-effect-lease:" +:+ pretty (Z.of_nat count + 1) +:+ ":" +:+
  String.substring 0 20 (canonical_sha256 (JObj
    [("head", JStr head); ("projection", JStr projection_sha); ("inner", JStr inner_sha)])).

Definition _verify_proposal_binding (operation : RuntimeOperation) (capability_decision : dict)
    (event : TrajectoryEvent) (state : dict) : result unit :=
  capability_receipt ← _sha (dict_get_none capability_decision "receipt_sha256")
                         "capability_receipt_sha256" false;
  capability_id ← granted_capability capability_decision;
  count ← dict_item state "event_count";
  _ ← causal_if (negb (match count with JInt n => te_sequence event =? n + 1 | _ => false end))
        "proposal_sequence_mismatch";
  head ← dict_item state "trajectory_head_sha256";
  _ ← causal_if (negb (is_str head (te_previous_event_sha256 event))) "proposal_head_mismatch";
  kind ← table_item PHASE3_KIND (ro_kind operation);
  _ ← causal_if (negb (String.eqb (te_kind event) kind) || negb (mem (te_kind event) EVENT_KINDS))
        "proposal_kind_mismatch";
  _ ← causal_if (negb (String.eqb (te_decision event) "ALLOW")) "proposal_decision_not_allow";
  _ ← causal_if (negb (String.eqb (te_subject_id event) (ro_subject_id operation))
                 || negb (bool_decide (te_capability_id event = Some capability_id)))
        "proposal_authority_binding_mismatch";
  _ ← causal_if (negb (te_observed_at_unix event =? ro_at_unix operation)) "proposal_time_mismatch";
  _ ← causal_if (negb (te_privilege_level_before event =? ro_privilege_level_before operation)
                 || negb (te_privilege_level_after event =? ro_privilege_level_after operation))
        "proposal_privilege_binding_mismatch";
  metadata ← effect_metadata operation capability_receipt;
  causal_if (negb (String.eqb (te_metadata_sha256 event) (canonical_sha256 (JObj metadata))))
    "proposal_action_binding_mismatch".

Definition _trajectory_mismatch (lease : _CausalLease) (state : dict) : option string :=
  if negb (is_str (dict_get_none state "decision") "ALLOW") then Some "trajectory_state_not_allow"
  else if negb (is_str (dict_get_none state "trajectory_head_sha256") (kl_trajectory_head_sha256 lease))
  then Some "stale_trajectory_head"
  else if negb (is_str (dict_get_none state "graph_sha256") (kl_trajectory_graph_sha256 lease))
  then Some "trajectory_graph_changed"
  else if negb (is_str (dict_get_none state "decision_receipt_sha256")
                  (kl_trajectory_decision_receipt_sha256 lease)) then Some "trajectory_decision_changed"
  else if negb (is_str (dict_get_none state "state_sha256") (kl_trajectory_state_sha256 lease))
  then Some "trajectory_state_changed"
  else None.

(** The checks of [consume_for_trusted_adapter] on the projection. *)
Definition projection_mismatch (lease : _CausalLease) (projection : dict)
    : result (option string) :=
  verdict ← dict_item projection "projected_decision";
  graph ← dict_item projection "projected_graph_sha256";
  receipt ← dict_item projection "projected_decision_receipt_sha256";
  Ok (if negb (is_str verdict "ALLOW") then Some "projected_trajectory_not_allow"
      else if negb (is_str graph (kl_projected_graph_sha256 lease)) then Some "projected_graph_changed"
      else if negb (is_str receipt (kl_projected_decision_receipt_sha256 lease))
      then Some "projected_decision_changed"
      else None).

(** The receipt [_append_commit] builds, or the error of its checks. *)
Definition causal_commit_of (lease : _CausalLease) (head_after objective_commit_sha256 : string)
    (committed_at_unix : Z) (outcome result_sha256 : string) (reasons : list string)
    : result CausalEffectCommitReceipt :=
  event_sha ← dict_item (kl_proposal lease) "event_sha256";
  event ← _sha event_sha "projected_event_sha256" true;
  after ← _sha (JStr head_after) "trajectory_head_after_sha256" true;
  objective ← _sha (JStr objective_commit_sha256) "objective_commit_receipt_sha256" true;
  at_unix ← _time (JInt committed_at_unix) "committed_at_unix";
  result_sha ← _sha (JStr result_sha256) "result_sha256" true;
  Ok (seal_causal_commit {|
    kc_operation_id := ro_operation_id (kl_operation lease);
    kc_authorization_receipt_sha256 := kl_authorization_receipt_sha256 lease;
    kc_causal_lease_id_sha256 := canonical_sha256 (JStr (kl_causal_lease_id lease));
    kc_trajectory_head_before_sha256 := kl_trajectory_head_sha256 lease;
    kc_projected_event_sha256 := event; kc_trajectory_head_after_sha256 := after;
    kc_objective_authorization_receipt_sha256 := kl_objective_authorization_receipt_sha256 lease;
    kc_objective_commit_receipt_sha256 := objective; kc_committed_at_unix := at_unix;
    kc_effect_outcome := outcome; kc_result_sha256 := result_sha;
    kc_reason_codes := sorted_set reasons; kc_receipt_sha256 := "" |}).

(** ** The broker: its methods *)
Section host.
Context {V W S : Type} {L : Lens S (CausalBoundEffectCommitBroker V W)}.
Context {env : EffectEnv S} {clock : OuterClock S} {kclock : CausalClock S}.
Context {verifier : EventVerifier W S}.

Definition ledger_in : Lens S (FencedTrajectoryRiskLedger W) := lens_comp L causal_ledger.
Definition objective_in : Lens S (ObjectiveBoundEffectCommitBroker V) := lens_comp L causal_delegate.

Definition self_causal : M S (CausalBoundEffectCommitBroker V W) :=
  this (T := CausalBoundEffectCommitBroker V W).

Definition set_causal
    (f : CausalBoundEffectCommitBroker V W -> CausalBoundEffectCommitBroker V W) : M S unit :=
  set_this (T := CausalBoundEffectCommitBroker V W) f.

Definition enter_containment (incident_receipt_sha256 : string) : M S unit :=
  ObjectiveEffectCommit.enter_containment (L := objective_in) incident_receipt_sha256.

Definition exit_containment (human_release_receipt_sha256 : string) : M S unit :=
  ObjectiveEffectCommit.exit_containment (L := objective_in) human_release_receipt_sha256.

Definition _now : M S Z :=
  value ← causal_clock;
  lift (_time (JInt value) "trusted_clock").

Definition _append_commit (lease : _CausalLease) (head_after objective_commit_sha256 : string)
    (committed_at_unix : Z) (outcome result_sha256 : string) (reasons : list string) : M S unit :=
  receipt ← lift (causal_commit_of lease head_after objective_commit_sha256 committed_at_unix
                    outcome result_sha256 reasons);
  set_causal (push_causal_commit receipt).

Definition _latest_objective_commit (before_count : nat) : M S string :=
  self ← self_causal;
  let commits := ObjectiveEffectCommit.commit_receipts (kb_delegate self) in
  if (length commits <=? before_count)%nat then mret ZERO_SHA256
  else
    receipt ← lift (match last commits with Some d => Ok d | None => fail KeyError "-1" end);
    sha ← lift (dict_item receipt "receipt_sha256");
    lift (_sha sha "objective_commit_receipt_sha256" true).

Definition _require_live_lease (causal_lease_id : string) : M S _CausalLease :=
  _ ← lift (causal_if (String.eqb causal_lease_id "") "unknown_causal_lease");
  self ← self_causal;
  lease ← lift (match kb_leases self !! causal_lease_id with
                | Some l => Ok l
                | None => fail CausalEffectCommitError "unknown_causal_lease"
                end);
  _ ← lift (causal_if (kl_consumed lease) "causal_lease_replayed");
  mret lease.

Definition _invalidate_and_raise {A} (lease : _CausalLease) (now : Z) (reason : string)
    (state : option dict) : M S A :=
  _ ← set_causal (consume_causal (kl_causal_lease_id lease));
  current ← match state with Some d => mret d | None => ledger_state (L := ledger_in) end;
  head ← lift (str_item current "trajectory_head_sha256");
  _ ← _append_commit lease head ZERO_SHA256 now "NOT_EXECUTED" ZERO_SHA256
        ["causal_lease_consumed"; reason];
  raise CausalEffectCommitError reason.

(** The part of [issue_for_trusted_adapter] before the delegate issues its lease. *)
Definition check_proposal (operation : RuntimeOperation) (capability_decision proposal : dict)
    : M S (dict * TrajectoryEvent * dict) :=
  state ← ledger_state (L := ledger_in);
  verdict ← lift (dict_item state "decision");
  _ ← lift (causal_if (negb (is_str verdict "ALLOW")) "trajectory_state_not_allow");
  event ← lift (_parse_event proposal);
  _ ← lift (_verify_proposal_binding operation capability_decision event state);
  projection ← project_verified_event (L := ledger_in) proposal;
  projected ← lift (dict_item projection "projected_decision");
  _ ← lift (causal_if (negb (is_str projected "ALLOW")) "projected_trajectory_not_allow");
  mret (state, event, projection).

Definition issue_for_trusted_adapter (operation : RuntimeOperation)
    (capability_decision objective_decision proposed_event : dict) : M S (string * dict) :=
  _ ← lift (RuntimeOperation_validate operation);
  checked ← check_proposal operation capability_decision proposed_event;
  let '(state, event, projection) := checked in
  inner ← ObjectiveEffectCommit.issue_for_trusted_adapter (L := objective_in) operation
            capability_decision objective_decision;
  let '(objective_lease_id, objective_auth) := inner in
  _ ← lift (ObjectiveEffectCommit.verify_authorization_receipt objective_auth);
  issued_raw ← lift (dict_item objective_auth "issued_at_unix");
  issued ← lift (_time issued_raw "issued_at_unix");
  expires_raw ← lift (dict_item objective_auth "expires_at_unix");
  expires ← lift (_time expires_raw "expires_at_unix");
  capability_sha ← lift (_sha (dict_get_none capability_decision "receipt_sha256")
                           "capability_receipt_sha256" false);
  head ← lift (str_item state "trajectory_head_sha256");
  projection_sha ← lift (str_item projection "projection_sha256");
  objective_sha ← lift (str_item objective_auth "receipt_sha256");
  graph ← lift (str_item state "graph_sha256");
  decision_sha ← lift (str_item state "decision_receipt_sha256");
  state_sha ← lift (str_item state "state_sha256");
  projected_graph ← lift (str_item projection "projected_graph_sha256");
  projected_sha ← lift (str_item projection "projected_decision_receipt_sha256");
  scope ← lift (normalized_scope operation);
  self ← self_causal;
  let causal_lease_id :=
    causal_lease_id_of (size (kb_leases self)) head projection_sha objective_sha in
  let receipt := seal_causal_authorization {|
    ka_operation_id := ro_operation_id operation;
    ka_causal_lease_id_sha256 := canonical_sha256 (JStr causal_lease_id);
    ka_trajectory_head_sha256 := head; ka_trajectory_graph_sha256 := graph;
    ka_trajectory_decision_receipt_sha256 := decision_sha; ka_trajectory_state_sha256 := state_sha;
    ka_trajectory_decision := "ALLOW"; ka_projected_event_sha256 := te_event_sha256 event;
    ka_projected_graph_sha256 := projected_graph;
    ka_projected_decision_receipt_sha256 := projected_sha; ka_projected_decision := "ALLOW";
    ka_runtime_kind := ro_kind operation; ka_scope_sha256 := canonical_sha256 (JObj scope);
    ka_payload_sha256 := ro_payload_sha256 operation; ka_capability_receipt_sha256 := capability_sha;
    ka_objective_authorization_receipt_sha256 := objective_sha; ka_issued_at_unix := issued;
    ka_expires_at_unix := expires; ka_receipt_sha256 := "" |} in
  _ ← set_causal (add_causal receipt {|
    kl_causal_lease_id := causal_lease_id; kl_objective_lease_id := objective_lease_id;
    kl_operation := operation; kl_proposal := proposed_event; kl_trajectory_head_sha256 := head;
    kl_trajectory_graph_sha256 := graph; kl_trajectory_decision_receipt_sha256 := decision_sha;
    kl_trajectory_state_sha256 := state_sha; kl_projected_graph_sha256 := projected_graph;
    kl_projected_decision_receipt_sha256 := projected_sha;
    kl_capability_receipt_sha256 := capability_sha;
    kl_objective_authorization_receipt_sha256 := objective_sha;
    kl_authorization_receipt_sha256 := ka_receipt_sha256 receipt; kl_issued_at_unix := issued;
    kl_expires_at_unix := expires; kl_consumed := false |});
  mret (causal_lease_id, CausalEffectAuthorizationReceipt_as_document receipt).

(** What [consume_for_trusted_adapter] knows when it burns the causal lease. *)
Record CausalRecheck := { cr_now : Z; cr_lease : _CausalLease; cr_state : dict }.

(** The part of [consume_for_trusted_adapter] before the causal lease is burned. *)
Definition causal_recheck (causal_lease_id : string) : M S CausalRecheck :=
  lease ← _require_live_lease causal_lease_id;
  now ← _now;
  if now <? kl_issued_at_unix lease then _invalidate_and_raise lease now "clock_regression" None
  else if kl_expires_at_unix lease <? now then _invalidate_and_raise lease now "lease_expired" None
  else
    state ← ledger_state (L := ledger_in);
    match _trajectory_mismatch lease state with
    | Some reason => _invalidate_and_raise lease now reason (Some state)
    | None =>
        projection ← project_verified_event (L := ledger_in) (kl_proposal lease);
        mismatch ← lift (projection_mismatch lease projection);
        match mismatch with
        | Some reason => _invalidate_and_raise lease now reason (Some state)
        | None => mret {| cr_now := now; cr_lease := lease; cr_state := state |}
        end
    end.

(** The part after the effect: the proposed event joins the trajectory. *)
Definition append_effect (c : CausalRecheck) (before_commits : nat)
    (observation : ExecutionObservation) : M S ExecutionObservation :=
  appended ← attempt (append_verified_event (L := ledger_in) (kl_proposal (cr_lease c)));
  match appended with
  | inl _ =>
      head ← lift (str_item (cr_state c) "trajectory_head_sha256");
      objective_sha ← _latest_objective_commit before_commits;
      _ ← _append_commit (cr_lease c) head objective_sha (cr_now c)
            "EFFECT_SUCCEEDED_EVIDENCE_FAILED" (eo_result_sha256 observation)
            ["causal_lease_consumed"; "effect_succeeded"; "trajectory_append_failed"];
      raise CausalEffectCommitError "trajectory_append_failed_after_effect"
  | inr document =>
      head ← lift (str_item document "trajectory_head_sha256");
      objective_sha ← _latest_objective_commit before_commits;
      _ ← _append_commit (cr_lease c) head objective_sha (cr_now c) "SUCCEEDED"
            (eo_result_sha256 observation)
            ["trajectory_head_rechecked"; "trajectory_state_allow"; "projected_trajectory_allow";
             "causal_lease_consumed"; "objective_runtime_effect_committed"; "committed_event_appended";
             "effect_committed_under_shared_fence"];
      mret observation
  end.

(** The part of [consume_for_trusted_adapter] after the causal lease is burned. *)
Definition run_objective (c : CausalRecheck) (adapter_token : string)
    (executor : RuntimeOperation -> M S exec_result) : M S ExecutionObservation :=
  self ← self_causal;
  let before_commits := length (ObjectiveEffectCommit.commit_receipts (kb_delegate self)) in
  outcome ← attempt (ObjectiveEffectCommit.consume_for_trusted_adapter (L := objective_in)
                       (kl_objective_lease_id (cr_lease c)) adapter_token executor);
  match outcome with
  | inl exc =>
      head ← lift (str_item (cr_state c) "trajectory_head_sha256");
      objective_sha ← _latest_objective_commit before_commits;
      _ ← _append_commit (cr_lease c) head objective_sha (cr_now c) "FAILED"
            (canonical_sha256 (JObj [("error_type", JStr (exn_name (exn_cls exc)))]))
            ["causal_lease_consumed"; "objective_bound_effect_failed"];
      raise CausalEffectCommitError "objective_bound_effect_failed"
  | inr observation => append_effect c before_commits observation
  end.

Definition consume_for_trusted_adapter (causal_lease_id adapter_token : string)
    (executor : RuntimeOperation -> M S exec_result) : M S ExecutionObservation :=
  checked ← causal_recheck causal_lease_id;
  _ ← set_causal (consume_causal causal_lease_id);
  run_objective checked adapter_token executor.

Definition commit_authorized_effect (operation : RuntimeOperation)
    (capability_decision objective_decision proposed_event : dict) (adapter_token : string)
    (executor : RuntimeOperation -> M S exec_result) : M S ExecutionObservation :=
  issued ← issue_for_trusted_adapter operation capability_decision objective_decision proposed_event;
  consume_for_trusted_adapter (fst issued) adapter_token executor.

Definition state_document (b : CausalBoundEffectCommitBroker V W) : result dict :=
  trajectory ← ledger_document (kb_ledger b);
  head ← dict_item trajectory "trajectory_head_sha256";
  verdict ← dict_item trajectory "decision";
  score ← dict_item trajectory "risk_score";
  Ok (seal "state_sha256"
    [("schema", JStr STATE_SCHEMA); ("trajectory_head_sha256", head);
     ("trajectory_decision", verdict); ("trajectory_risk_score", score);
     ("lease_count", JInt (Z.of_nat (size (kb_leases b))));
     ("consumed_count", JInt (Z.of_nat (size (consumed_causal b))));
     ("authorization_count", JInt (Z.of_nat (length (kb_authorizations b))));
     ("commit_count", JInt (Z.of_nat (length (kb_commits b)))); ("authority", JObj AUTHORITY)]).
End host.

(** ** The causal-bound mediator *)
Record CausalBoundEffectRuntimeMediator (V W P B G : Type) := {
  km_base : RuntimeMediator B G;
  km_causal_effect_broker : CausalBoundEffectCommitBroker V W;
  km_adapter_token : string;
  km_proposal_factory : P
}.
#[global] Arguments km_base {V W P B G} _.
#[global] Arguments km_causal_effect_broker {V W P B G} _.
#[global] Arguments km_adapter_token {V W P B G} _.
#[global] Arguments km_proposal_factory {V W P B G} _.

(** [self.proposal_factory(operation, capability, ledger)]: host code, which reaches the
    ledger through the host. *)
Class ProposalFactory (P S : Type) := {
  propose_with : P -> RuntimeOperation -> dict -> M S dict
}.

Section mediator_fields.
Context {V W P B G : Type}.

(** The constructor of the base class and the check of the token. *)
Definition CausalBoundEffectRuntimeMediator_init (broker : B) (egress_gateway : option G)
    (causal_effect_broker : CausalBoundEffectCommitBroker V W) (adapter_token : string)
    (proposal_factory : P) : result (CausalBoundEffectRuntimeMediator V W P B G) :=
  _ ← causal_if (String.eqb adapter_token "") "adapter_token_required";
  Ok {| km_base := RuntimeMediator_init broker egress_gateway;
        km_causal_effect_broker := causal_effect_broker; km_adapter_token := adapter_token;
        km_proposal_factory := proposal_factory |}.

Definition set_km_base (base : RuntimeMediator B G) (m : CausalBoundEffectRuntimeMediator V W P B G)
    : CausalBoundEffectRuntimeMediator V W P B G :=
  {| km_base := base; km_causal_effect_broker := km_causal_effect_broker m;
     km_adapter_token := km_adapter_token m; km_proposal_factory := km_proposal_factory m |}.

Definition set_km_broker (b : CausalBoundEffectCommitBroker V W)
    (m : CausalBoundEffectRuntimeMediator V W P B G) : CausalBoundEffectRuntimeMediator V W P B G :=
  {| km_base := km_base m; km_causal_effect_broker := b; km_adapter_token := km_adapter_token m;
     km_proposal_factory := km_proposal_factory m |}.

#[export] Program Instance km_base_field
    : Lens (CausalBoundEffectRuntimeMediator V W P B G) (RuntimeMediator B G) :=
  {| lget := km_base; lput := set_km_base |}.
Next Obligation. done. Qed.
Next Obligation. by intros []. Qed.
Next Obligation. done. Qed.

#[export] Program Instance km_broker_field
    : Lens (CausalBoundEffectRuntimeMediator V W P B G) (CausalBoundEffectCommitBroker V W) :=
  {| lget := km_causal_effect_broker; lput := set_km_broker |}.
Next Obligation. done. Qed.
Next Obligation. by intros []. Qed.
Next Obligation. done. Qed.
End mediator_fields.

Section mediator.
Context {V W P B G S : Type} {bops : BrokerOps B}.
Context {env : EffectEnv S} {clock : OuterClock S} {kclock : CausalClock S}.
Context {verifier : EventVerifier W S} {factory : ProposalFactory P S}.
Context {L : Lens S (CausalBoundEffectRuntimeMediator V W P B G)}.

Definition causal_base_in : Lens S (RuntimeMediator B G) := lens_comp L km_base_field.
Definition causal_in : Lens S (CausalBoundEffectCommitBroker V W) := lens_comp L km_broker_field.
Definition causal_guard_in : Lens S (ObjectiveIntegrityGuard V) :=
  guard_in (L := objective_in (L := causal_in)).

Definition CausalBoundEffectRuntimeMediator_enter_containment
    (incident_receipt_sha256 : string) : M S unit :=
  _ ← on (H := causal_base_in) (Mediation.enter_containment incident_receipt_sha256);
  enter_containment (L := causal_in) incident_receipt_sha256.

Definition CausalBoundEffectRuntimeMediator_exit_containment
    (human_release_receipt_sha256 : string) : M S unit :=
  _ ← exit_containment (L := causal_in) human_release_receipt_sha256;
  on (H := causal_base_in) (Mediation.exit_containment human_release_receipt_sha256).

(** [self._finish(...)] of the base class. *)
Definition finish_causal (operation : RuntimeOperation) (capability_receipt_sha admission outcome
    result_sha : string) (reasons : list string) (capability_id : option string)
    (scope_sha : string) : M S dict :=
  on (H := causal_base_in) (Mediation._finish operation capability_receipt_sha admission outcome
    result_sha reasons capability_id scope_sha None).

(** [self.broker.authorize(...)] with the action bound to the objective decision. *)
Definition request_causal_capability (operation : RuntimeOperation) (scope gate : dict)
    : M S dict :=
  capability_type ← lift (table_item OPERATION_TO_CAPABILITY (ro_kind operation));
  gate_sha ← lift (dict_item gate "receipt_sha256");
  gate_head ← lift (dict_item gate "observation_head_sha256");
  on (H := causal_base_in) (on_broker (op_authorize (ro_subject_id operation) capability_type
    (ro_policy_sha256 operation) scope
    (action_document operation (canonical_sha256 (JObj scope))
     ++ [("objective_decision_receipt_sha256", gate_sha);
         ("objective_observation_head_sha256", gate_head)])
    (ro_at_unix operation) None None)).

(** The part of [mediate] after the broker's ALLOW. *)
Definition commit_proposed (operation : RuntimeOperation)
    (executor : RuntimeOperation -> M S exec_result) (gate capability : dict) (scope_sha : string)
    : M S dict :=
  host ← get_state;
  let self : CausalBoundEffectRuntimeMediator V W P B G := lget host in
  outcome ← attempt (
    proposal ← propose_with (km_proposal_factory self) operation capability;
    commit_authorized_effect (L := causal_in) operation capability gate proposal
      (km_adapter_token self) executor);
  sha ← lift (str_item capability "receipt_sha256");
  capability_id ← lift (opt_str capability "capability_id");
  match outcome with
  | inl exc =>
      finish_causal operation sha "ALLOW" "FAILED"
        (canonical_sha256 (JObj [("error_type", JStr (exn_name (exn_cls exc)))]))
        ["causal_bound_effect_commit_failed"] capability_id scope_sha
  | inr observation =>
      finish_causal operation sha "ALLOW" "SUCCEEDED" (eo_result_sha256 observation)
        ["objective_integrity_allow"; "capability_admitted"; "causal_projection_allow";
         "causal_bound_effect_lease_consumed"; "host_executor_succeeded"] capability_id scope_sha
  end.

Definition CausalBoundEffectRuntimeMediator_mediate (operation : RuntimeOperation)
    (executor : RuntimeOperation -> M S exec_result) : M S dict :=
  _ ← lift (RuntimeOperation_validate operation);
  scope ← lift (normalized_scope operation);
  let scope_sha := canonical_sha256 (JObj scope) in
  host ← get_state;
  if rm_contained (km_base (lget (T := CausalBoundEffectRuntimeMediator V W P B G) host)) then
    finish_causal operation ZERO_SHA256 "BLOCK" "NOT_EXECUTED" ZERO_SHA256
      ["containment_active"; "causal_bound_effect_blocked"] None scope_sha
  else
    gate ← on (H := causal_guard_in) (evaluate_operation operation);
    decision ← lift (str_item gate "decision");
    if negb (String.eqb decision "ALLOW") then
      finish_causal operation ZERO_SHA256 "BLOCK" "NOT_EXECUTED" ZERO_SHA256
        ["objective_integrity_gate_blocked"; "objective_decision:" +:+ decision] None scope_sha
    else
      capability ← request_causal_capability operation scope gate;
      verdict ← lift (dict_item capability "decision");
      if negb (is_str verdict "ALLOW") then
        sha ← lift (str_item capability "receipt_sha256");
        codes ← lift (codes_item capability "reason_codes");
        finish_causal operation sha "BLOCK" "NOT_EXECUTED" ZERO_SHA256 codes None scope_sha
      else
        commit_proposed operation executor gate capability scope_sha.
End mediator.

(** ** Verification of receipts *)
Definition verify_authorization_receipt (document : dict) : result dict :=
  let raw := dict_del document "receipt_sha256" in
  let digest := dict_get_none document "receipt_sha256" in
  _ ← causal_if (negb (envelope_ok raw LEASE_SCHEMA AUTHORITY))
        "authorization_receipt_schema_mismatch";
  _ ← causal_if (negb (is_str (dict_get_none raw "trajectory_decision") "ALLOW")
                 || negb (is_str (dict_get_none raw "projected_decision") "ALLOW"))
        "authorization_receipt_not_allow";
  _ ← causal_if (negb (is_str digest (canonical_sha256 (JObj raw))))
        "authorization_receipt_digest_mismatch";
  Ok document.

Definition verify_commit_receipt (document : dict) : result dict :=
  let raw := dict_del document "receipt_sha256" in
  let digest := dict_get_none document "receipt_sha256" in
  _ ← causal_if (negb (envelope_ok raw COMMIT_SCHEMA AUTHORITY)) "commit_receipt_schema_mismatch";
  bad ← EpochBroker.not_in_set (dict_get_none raw "effect_outcome")
          ["SUCCEEDED"; "FAILED"; "NOT_EXECUTED"; "EFFECT_SUCCEEDED_EVIDENCE_FAILED"];
  _ ← causal_if bad "commit_receipt_outcome_invalid";
  _ ← causal_if (negb (is_str digest (canonical_sha256 (JObj raw)))) "commit_receipt_digest_mismatch";
  Ok document.
End causal_effect.

(** ** Lemmas *)
Lemma causal_sha_ok v name z s :
  _sha v name z = Ok s <-> v = JStr s /\ re_sha s = true /\ (z = false -> s <> ZERO_SHA256).
Proof.
  unfold _sha. split.
  - intros H. py_inv. apply check_sha_ok in Hx as [-> Hs]. split_and!; [done..|].
    intros -> ->. cbn in Hx0. discriminate Hx0.
  - intros (-> & Hs & Hz). rewrite (proj2 (check_sha_ok _ _ _ _) (conj eq_refl Hs)), bind_Ok.
    destruct z; [done|]. cbn [negb andb]. by rewrite (proj2 (String.eqb_neq _ _) (Hz eq_refl)).
Qed.

Lemma causal_sha_run name s : re_sha s = true -> _sha (JStr s) name true = Ok s.
Proof. intros Hs. by apply causal_sha_ok. Qed.

Lemma causal_time_ok v name z : _time v name = Ok z <-> v = JInt z /\ 0 <= z.
Proof.
  unfold _time. destruct v; try (split; [done|by intros [? _]]).
  destruct (Z.ltb_spec z0 0); split; try done; intros H'; [|by injection H' as <-|];
    destruct H' as [[= <-] ?]; [lia|done].
Qed.

Lemma causal_time_run name z : 0 <= z -> _time (JInt z) name = Ok z.
Proof. intros Hz. by apply causal_time_ok. Qed.

Lemma burn_causal_burn l : burn_causal (burn_causal l) = burn_causal l.
Proof. done. Qed.

Lemma burn_causal_consumed l : kl_consumed l = true -> burn_causal l = l.
Proof. destruct l. cbn. by intros ->. Qed.

(** *** Events and trajectories *)
Section trajectories.
Context {hash : Digest}.

(** The trajectory verifies from its beginning. *)
Definition trajectory_ok (l : list TrajectoryEvent) : Prop := trajectory_valid 1 ZERO_SHA256 (-1) l.

Lemma analyze_run l d :
  _analyze l = Ok d <-> trajectory_ok l /\ d = EscalationDecision_as_document (analysis l).
Proof.
  unfold trajectory_ok. rewrite <- (analyze_ok l d). unfold _analyze. destruct (analyze_trajectory l) as [d'|e]; [done|].
  by destruct (decide _).
Qed.

Lemma parse_event_digest d e : _parse_event d = Ok e ->
  te_event_sha256 e = canonical_sha256 (JObj (TrajectoryEvent_body e))
  /\ dict_get d "event_sha256" = Some (JStr (te_event_sha256 e)).
Proof.
  unfold _parse_event, causal_if. intros H. py_inv.
  destruct (event_of_dict d) as [e'|] eqn:He; [|done]. py_inv.
  match goal with Hb : negb _ = false |- _ => apply negb_false_iff, String.eqb_eq in Hb end.
  split; [done|].
  unfold event_of_dict in He. py_inv. cbn.
  unfold dict_get_none, dict_get_or in *. destruct (dict_get d "event_sha256") as [[]|]; try done.
  by py_inv.
Qed.

Lemma parse_event_sha d e : _parse_event d = Ok e -> re_sha (te_event_sha256 e) = true.
Proof. intros [-> _]%parse_event_digest. apply canonical_sha256_sha. Qed.

(** The head of a trajectory. *)
Definition head_of (l : list TrajectoryEvent) : string :=
  from_option te_event_sha256 ZERO_SHA256 (last l).

Lemma head_of_sha l : trajectory_ok l -> re_sha (head_of l) = true.
Proof.
  intros Hl. destruct l as [|e l _] using rev_ind; [done|].
  apply trajectory_snoc in Hl as (_ & _ & _ & He). unfold head_of. rewrite last_snoc. cbn.
  rewrite He. apply canonical_sha256_sha.
Qed.

(** Two trajectories extended by the same event have the same length. *)
Lemma extension_length l l' e : trajectory_ok (l ++ [e]) -> trajectory_ok (l' ++ [e]) ->
  length l = length l'.
Proof.
  intros (_ & H & _)%trajectory_snoc (_ & H' & _)%trajectory_snoc. lia.
Qed.

Lemma extension_same l l' e : trajectory_ok (l ++ [e]) -> trajectory_ok (l' ++ [e]) ->
  l `prefix_of` l' -> l' = l.
Proof.
  intros H H' [more ->]. pose proof (extension_length _ _ _ H H') as Hlen. rewrite length_app in Hlen.
  destruct more; [by rewrite app_nil_r|cbn in Hlen; lia].
Qed.
End trajectories.

(** *** The ledger *)
Section ledger_lemmas.
Context {hash : Digest} {W : Type}.
Implicit Types g : FencedTrajectoryRiskLedger W.

Record ledger_inv g : Prop := {
  li_trajectory : trajectory_ok (tl_events g);
  li_ids : tl_event_ids g = list_to_set (map te_event_id (tl_events g));
  li_nodup : NoDup (map te_event_id (tl_events g))
}.

Record ledger_grows g g' : Prop := {
  lg_verifier : tl_verify_event g' = tl_verify_event g;
  lg_events : tl_events g `prefix_of` tl_events g'
}.

#[export] Instance ledger_grows_preorder : PreOrder ledger_grows.
Proof.
  split; [by intros g|]. intros g1 g2 g3 [V1 E1] [V2 E2]. constructor; [congruence|by etrans].
Qed.

Lemma head_of_ledger g : head_sha256 g = head_of (tl_events g).
Proof. unfold head_sha256, head_of. by destruct (last (tl_events g)). Qed.

Lemma push_event_inv g e : ledger_inv g -> te_event_id e ∉ tl_event_ids g ->
  trajectory_ok (tl_events g ++ [e]) -> ledger_inv (push_event e g) /\ ledger_grows g (push_event e g).
Proof.
  intros [Ht Hi Hn] Hid Hok. split; [|split; [done|by eexists]]. constructor; cbn.
  - done.
  - rewrite Hi, map_app, list_to_set_app_L. cbn. set_solver.
  - rewrite map_app. apply NoDup_app. split_and!; [done| |by apply NoDup_singleton].
    intros x Hx ->%list_elem_of_singleton. apply Hid. rewrite Hi. by apply elem_of_list_to_set.
Qed.

(** The ledger's document is the analysis of its trajectory. *)
Record ledger_described g (d : dict) : Prop := {
  ld_count : dict_get d "event_count" = Some (JInt (event_count g));
  ld_head : dict_get d "trajectory_head_sha256" = Some (JStr (head_of (tl_events g)));
  ld_graph : dict_get d "graph_sha256" = Some (JStr (ed_graph_sha256 (analysis (tl_events g))));
  ld_receipt : dict_get d "decision_receipt_sha256"
               = Some (JStr (ed_receipt_sha256 (analysis (tl_events g))));
  ld_decision : dict_get d "decision" = Some (JStr (ed_decision (analysis (tl_events g))));
  ld_state : exists sha, dict_get d "state_sha256" = Some (JStr sha)
}.

Lemma ledger_document_run g : ledger_inv g -> exists d, ledger_document g = Ok d /\ ledger_described g d.
Proof.
  intros Hg. unfold ledger_document. rewrite (proj2 (analyze_run _ _) (conj (li_trajectory g Hg) eq_refl)).
  rewrite bind_Ok. set (a := analysis (tl_events g)).
  change (dict_item (EscalationDecision_as_document a) "graph_sha256") with (Ok (JStr (ed_graph_sha256 a))).
  rewrite bind_Ok.
  change (dict_item (EscalationDecision_as_document a) "receipt_sha256") with (Ok (JStr (ed_receipt_sha256 a))).
  rewrite bind_Ok.
  change (dict_item (EscalationDecision_as_document a) "decision") with (Ok (JStr (ed_decision a))).
  rewrite bind_Ok.
  change (dict_item (EscalationDecision_as_document a) "risk_score") with (Ok (JInt (ed_risk_score a))).
  rewrite bind_Ok.
  change (dict_item (EscalationDecision_as_document a) "matched_rules") with (Ok (jstrs (ed_matched_rules a))).
  rewrite bind_Ok. eexists. split; [reflexivity|]. rewrite head_of_ledger.
  constructor; try reflexivity. by eexists.
Qed.

(** The projection of an event is the analysis of the extended trajectory. *)
Record projection_described g (e : TrajectoryEvent) (d : dict) : Prop := {
  pd_decision : dict_get d "projected_decision"
                = Some (JStr (ed_decision (analysis (tl_events g ++ [e]))));
  pd_graph : dict_get d "projected_graph_sha256"
             = Some (JStr (ed_graph_sha256 (analysis (tl_events g ++ [e]))));
  pd_receipt : dict_get d "projected_decision_receipt_sha256"
               = Some (JStr (ed_receipt_sha256 (analysis (tl_events g ++ [e]))))
}.

Lemma projection_run g e : exists d,
  projection_of g e (EscalationDecision_as_document (analysis (tl_events g ++ [e]))) = Ok d
  /\ projection_described g e d.
Proof.
  unfold projection_of. set (a := analysis _).
  change (dict_item (EscalationDecision_as_document a) "graph_sha256") with (Ok (JStr (ed_graph_sha256 a))).
  rewrite bind_Ok.
  change (dict_item (EscalationDecision_as_document a) "receipt_sha256") with (Ok (JStr (ed_receipt_sha256 a))).
  rewrite bind_Ok.
  change (dict_item (EscalationDecision_as_document a) "decision") with (Ok (JStr (ed_decision a))).
  rewrite bind_Ok.
  change (dict_item (EscalationDecision_as_document a) "risk_score") with (Ok (JInt (ed_risk_score a))).
  rewrite bind_Ok. eexists. by split.
Qed.

Lemma appended_run e l : exists d,
  appended_of e (EscalationDecision_as_document (analysis l)) = Ok d
  /\ dict_get d "trajectory_head_sha256" = Some (JStr (te_event_sha256 e)).
Proof. eexists. by split. Qed.
End ledger_lemmas.

(** *** Receipts *)
Section causal_receipts.
Context {hash : Digest}.
Implicit Types l : _CausalLease.

(** The receipt is one of the lease, whose proposal is the event [e]. *)
Record causal_receipt_of l (e : TrajectoryEvent) (c : CausalEffectCommitReceipt) : Prop := {
  kr_authorization : kc_authorization_receipt_sha256 c = kl_authorization_receipt_sha256 l;
  kr_lease : kc_causal_lease_id_sha256 c = canonical_sha256 (JStr (kl_causal_lease_id l));
  kr_operation : kc_operation_id c = ro_operation_id (kl_operation l);
  kr_head : kc_trajectory_head_before_sha256 c = kl_trajectory_head_sha256 l;
  kr_event : kc_projected_event_sha256 c = te_event_sha256 e;
  kr_objective : kc_objective_authorization_receipt_sha256 c = kl_objective_authorization_receipt_sha256 l;
  kr_outcome : kc_effect_outcome c
    ∈ ["SUCCEEDED"; "FAILED"; "NOT_EXECUTED"; "EFFECT_SUCCEEDED_EVIDENCE_FAILED"];
  kr_digest : kc_receipt_sha256 c = canonical_sha256 (JObj (CausalEffectCommitReceipt_body c))
}.

Lemma causal_commit_run l e head objective now outcome result reasons :
  _parse_event (kl_proposal l) = Ok e -> 0 <= now -> re_sha head = true -> re_sha objective = true ->
  re_sha result = true ->
  outcome ∈ ["SUCCEEDED"; "FAILED"; "NOT_EXECUTED"; "EFFECT_SUCCEEDED_EVIDENCE_FAILED"] ->
  exists c, causal_commit_of l head objective now outcome result reasons = Ok c
    /\ causal_receipt_of l e c /\ kc_effect_outcome c = outcome /\ kc_result_sha256 c = result
    /\ kc_trajectory_head_after_sha256 c = head /\ kc_objective_commit_receipt_sha256 c = objective
    /\ kc_committed_at_unix c = now.
Proof.
  intros He Hnow Hhead Hobj Hres Hout. pose proof (parse_event_sha _ _ He) as Hsha.
  apply parse_event_digest in He as [_ He]. unfold causal_commit_of.
  rewrite (proj2 (dict_item_ok _ _ _) He), bind_Ok. eexists. split; [|split].
  - rewrite (causal_sha_run "projected_event_sha256"), bind_Ok by done.
    rewrite (causal_sha_run "trajectory_head_after_sha256"), bind_Ok by done.
    rewrite (causal_sha_run "objective_commit_receipt_sha256"), bind_Ok by done.
    rewrite causal_time_run, bind_Ok by done.
    by rewrite (causal_sha_run "result_sha256"), bind_Ok by done.
  - by constructor.
  - done.
Qed.

Lemma causal_commit_verifies l e c : causal_receipt_of l e c ->
  verify_commit_receipt (CausalEffectCommitReceipt_as_document c)
  = Ok (CausalEffectCommitReceipt_as_document c).
Proof.
  intros Hc. unfold verify_commit_receipt. cbv zeta.
  change (dict_del (CausalEffectCommitReceipt_as_document c) "receipt_sha256")
    with (CausalEffectCommitReceipt_body c).
  replace (envelope_ok _ COMMIT_SCHEMA AUTHORITY) with true by (by vm_compute). unfold causal_if.
  cbn [negb raise_if]. rewrite bind_Ok.
  change (dict_get_none (CausalEffectCommitReceipt_body c) "effect_outcome")
    with (JStr (kc_effect_outcome c)).
  assert (EpochBroker.not_in_set (JStr (kc_effect_outcome c))
    ["SUCCEEDED"; "FAILED"; "NOT_EXECUTED"; "EFFECT_SUCCEEDED_EVIDENCE_FAILED"] = Ok false) as ->.
  { pose proof (kr_outcome _ _ _ Hc) as Ho. set_unfold in Ho. by destruct_or? Ho; rewrite Ho. }
  rewrite bind_Ok. cbn [raise_if]. rewrite bind_Ok.
  change (dict_get_none (CausalEffectCommitReceipt_as_document c) "receipt_sha256")
    with (JStr (kc_receipt_sha256 c)).
  rewrite (kr_digest _ _ _ Hc). cbn [is_str]. by rewrite String.eqb_refl.
Qed.

(** The authorization describes the lease, whose proposal is the event [e]. *)
Record causal_authorization_of l (e : TrajectoryEvent) (a : CausalEffectAuthorizationReceipt) : Prop := {
  kz_receipt : ka_receipt_sha256 a = kl_authorization_receipt_sha256 l;
  kz_lease : ka_causal_lease_id_sha256 a = canonical_sha256 (JStr (kl_causal_lease_id l));
  kz_operation : ka_operation_id a = ro_operation_id (kl_operation l);
  kz_payload : ka_payload_sha256 a = ro_payload_sha256 (kl_operation l);
  kz_head : ka_trajectory_head_sha256 a = kl_trajectory_head_sha256 l;
  kz_state : ka_trajectory_state_sha256 a = kl_trajectory_state_sha256 l;
  kz_event : ka_projected_event_sha256 a = te_event_sha256 e;
  kz_objective : ka_objective_authorization_receipt_sha256 a = kl_objective_authorization_receipt_sha256 l;
  kz_issued : ka_issued_at_unix a = kl_issued_at_unix l;
  kz_expires : ka_expires_at_unix a = kl_expires_at_unix l
}.

Definition causal_authorization_good (a : CausalEffectAuthorizationReceipt) : Prop :=
  ka_trajectory_decision a = "ALLOW" /\ ka_projected_decision a = "ALLOW"
  /\ ka_receipt_sha256 a = canonical_sha256 (JObj (CausalEffectAuthorizationReceipt_body a)).

Lemma causal_authorization_verifies a : causal_authorization_good a ->
  verify_authorization_receipt (CausalEffectAuthorizationReceipt_as_document a)
  = Ok (CausalEffectAuthorizationReceipt_as_document a).
Proof.
  intros (Hallow & Hproj & Hd). unfold verify_authorization_receipt. cbv zeta.
  change (dict_del (CausalEffectAuthorizationReceipt_as_document a) "receipt_sha256")
    with (CausalEffectAuthorizationReceipt_body a).
  replace (envelope_ok _ LEASE_SCHEMA AUTHORITY) with true by (by vm_compute). unfold causal_if.
  cbn [negb raise_if]. rewrite bind_Ok.
  change (dict_get_none (CausalEffectAuthorizationReceipt_body a) "trajectory_decision")
    with (JStr (ka_trajectory_decision a)).
  change (dict_get_none (CausalEffectAuthorizationReceipt_body a) "projected_decision")
    with (JStr (ka_projected_decision a)). rewrite Hallow, Hproj. cbn [is_str].
  change (String.eqb "ALLOW" "ALLOW") with true. cbn [negb orb raise_if]. rewrite bind_Ok.
  change (dict_get_none (CausalEffectAuthorizationReceipt_as_document a) "receipt_sha256")
    with (JStr (ka_receipt_sha256 a)).
  rewrite Hd. cbn [is_str]. by rewrite String.eqb_refl.
Qed.
End causal_receipts.

(** *** The broker's own invariant

    What the causal broker keeps of its own: its ledger, leases and receipts. *)
Section causal_invariant.
Context {hash : Digest} {V W : Type}.
Implicit Types (b : CausalBoundEffectCommitBroker V W) (l : _CausalLease).

Definition numbered_causal (count : nat) (causal_lease_id : string) : Prop :=
  exists n rest, 1 <= n <= Z.of_nat count
    /\ causal_lease_id = "causal-effect-lease:" +:+ pretty n +:+ ":" +:+ rest.

(** The proposal of the lease is the event [e], which extends the head of the lease. *)
Definition proposes l (e : TrajectoryEvent) : Prop :=
  _parse_event (kl_proposal l) = Ok e /\ te_previous_event_sha256 e = kl_trajectory_head_sha256 l.

Definition causal_lease_good b (id : string) l : Prop :=
  kl_causal_lease_id l = id /\ numbered_causal (size (kb_leases b)) id
  /\ exists e a, proposes l e /\ a ∈ kb_authorizations b /\ causal_authorization_of l e a.

(** The committed event is in the trajectory, at the head it was proposed for, and the
    trajectory up to it is one the analysis allows. *)
Definition in_trajectory (events : list TrajectoryEvent) (e : TrajectoryEvent)
    (c : CausalEffectCommitReceipt) : Prop :=
  exists pre post, events = pre ++ e :: post
    /\ kc_trajectory_head_before_sha256 c = head_of pre
    /\ kc_trajectory_head_after_sha256 c = te_event_sha256 e
    /\ ed_decision (analysis (pre ++ [e])) = "ALLOW".

Definition causal_commit_backed b (c : CausalEffectCommitReceipt) : Prop :=
  exists id l e, kb_leases b !! id = Some l /\ kl_consumed l = true /\ proposes l e
    /\ causal_receipt_of l e c
    /\ (kc_effect_outcome c = "SUCCEEDED" ->
        kl_issued_at_unix l <= kc_committed_at_unix c <= kl_expires_at_unix l
        /\ in_trajectory (tl_events (kb_ledger b)) e c).

Record causal_inv b : Prop := {
  kv_ledger : ledger_inv (kb_ledger b);
  kv_leases : map_Forall (causal_lease_good b) (kb_leases b);
  kv_authorizations : Forall causal_authorization_good (kb_authorizations b);
  kv_commits : Forall (causal_commit_backed b) (kb_commits b)
}.

Definition causal_lease_grows l (o : option _CausalLease) : Prop :=
  o = Some l \/ o = Some (burn_causal l).

Record causal_grows b b' : Prop := {
  kg_ledger : ledger_grows (kb_ledger b) (kb_ledger b');
  kg_leases : map_Forall (fun id l => causal_lease_grows l (kb_leases b' !! id)) (kb_leases b);
  kg_authorizations : kb_authorizations b `prefix_of` kb_authorizations b';
  kg_commits : kb_commits b `prefix_of` kb_commits b'
}.

(** Consumed causal leases without a commit receipt. *)
Definition unsettled_causal b : Z :=
  Z.of_nat (size (consumed_causal b)) - Z.of_nat (length (kb_commits b)).

Definition causal_ok b b' : Prop := causal_inv b -> causal_inv b' /\ causal_grows b b'.

Definition causal_keeps b b' : Prop :=
  causal_inv b -> causal_inv b' /\ causal_grows b b' /\ unsettled_causal b' = unsettled_causal b.

Lemma causal_grows_refl b : causal_grows b b.
Proof. constructor; try done. intros id l Hl. by left. Qed.

Lemma causal_grows_trans b1 b2 b3 : causal_grows b1 b2 -> causal_grows b2 b3 -> causal_grows b1 b3.
Proof.
  intros [A1 A2 A3 A4] [B1 B2 B3 B4]. constructor; [by etrans| |by etrans|by etrans].
  intros id l Hl. destruct (A2 id l Hl) as [H2|H2]; destruct (B2 id _ H2) as [H3|H3];
    [by left|by right|by right|right; by rewrite burn_causal_burn in H3].
Qed.

#[export] Instance causal_keeps_preorder : PreOrder causal_keeps.
Proof.
  split; [intros b Hb; split; [done|]; split; [apply causal_grows_refl|done]|].
  intros b1 b2 b3 H12 H23 H1.
  destruct (H12 H1) as (H2 & G12 & U12). destruct (H23 H2) as (H3 & G23 & U23).
  split; [done|]. split; [by eapply causal_grows_trans|congruence].
Qed.

Lemma causal_grows_lookup b b' id l : causal_grows b b' -> kb_leases b !! id = Some l ->
  exists l', kb_leases b' !! id = Some l' /\ (kl_consumed l = true -> l' = l)
    /\ (l' = l \/ l' = burn_causal l).
Proof.
  intros Hg Hl. destruct (kg_leases _ _ Hg id l Hl) as [H'|H']; eexists; (split; [exact H'|]).
  - by split; [|left].
  - split; [apply burn_causal_consumed|by right].
Qed.

Lemma in_trajectory_grows events more e c : in_trajectory events e c ->
  in_trajectory (events ++ more) e c.
Proof. intros (pre & post & -> & H). exists pre, (post ++ more). by rewrite <- app_assoc. Qed.

Lemma causal_backed_grows b b' c : causal_grows b b' -> causal_commit_backed b c ->
  causal_commit_backed b' c.
Proof.
  intros Hg (id & l & e & Hl & Hc & He & Hr & Hs).
  destruct (causal_grows_lookup _ _ _ _ Hg Hl) as (l' & Hl' & Hsame & _). rewrite (Hsame Hc) in Hl'.
  exists id, l, e. split_and!; [done..|]. intros Hout. destruct (Hs Hout) as [Ht Hin]. split; [done|].
  destruct (lg_events _ _ (kg_ledger _ _ Hg)) as [more ->]. by apply in_trajectory_grows.
Qed.

Lemma numbered_causal_weaken n m id : (n <= m)%nat -> numbered_causal n id -> numbered_causal m id.
Proof. intros Hnm (k & rest & Hk & ->). exists k, rest. split; [lia|done]. Qed.

Lemma causal_lease_good_grows b b' id l : causal_grows b b' ->
  (size (kb_leases b) <= size (kb_leases b'))%nat -> causal_lease_good b id l -> causal_lease_good b' id l.
Proof.
  intros Hg Hsz (Hid & Hn & e & a & He & Ha & Hla). split; [done|].
  split; [by eapply numbered_causal_weaken|]. exists e, a. split; [done|]. split; [|done].
  destruct (kg_authorizations _ _ Hg) as (more & ->). apply elem_of_app. by left.
Qed.

(** Another delegate, or a longer ledger. *)
Lemma ledger_keeps b b' : kb_leases b' = kb_leases b -> kb_authorizations b' = kb_authorizations b ->
  kb_commits b' = kb_commits b -> ledger_grows (kb_ledger b) (kb_ledger b') ->
  (ledger_inv (kb_ledger b) -> ledger_inv (kb_ledger b')) -> causal_keeps b b'.
Proof.
  intros Hl Ha Hc Hg Hi Hb.
  assert (causal_grows b b') as Hgrow.
  { constructor; [done| |by rewrite Ha|by rewrite Hc]. intros id l Hid. left. by rewrite Hl. }
  split; [|split; [done|by unfold unsettled_causal, consumed_causal; rewrite Hl, Hc]].
  destruct Hb as [H1 H2 H3 H4]. constructor; [by apply Hi| |by rewrite Ha|].
  - rewrite Hl. eapply map_Forall_impl; [exact H2|]. intros id l. apply causal_lease_good_grows; [done|].
    by rewrite Hl.
  - rewrite Hc. eapply Forall_impl; [exact H4|]. intros c. by apply causal_backed_grows.
Qed.

Lemma set_objective_keeps d b : causal_keeps b (set_objective d b).
Proof. by apply ledger_keeps. Qed.

Lemma causal_id_fresh b head psha isha : causal_inv b ->
  kb_leases b !! causal_lease_id_of (size (kb_leases b)) head psha isha = None.
Proof.
  intros Hb. destruct (_ !! _) as [l|] eqn:Hl; [|done]. exfalso.
  destruct (kv_leases _ Hb _ _ Hl) as (_ & (n & rest & Hn & Heq) & _).
  unfold causal_lease_id_of in Heq. apply numbered_injective in Heq. lia.
Qed.

Lemma add_causal_keeps b a l e : kl_consumed l = false ->
  kb_leases b !! kl_causal_lease_id l = None ->
  numbered_causal (S (size (kb_leases b))) (kl_causal_lease_id l) ->
  proposes l e -> causal_authorization_of l e a -> causal_authorization_good a ->
  causal_keeps b (add_causal a l b).
Proof.
  intros Hcons Hfresh Hnum He Hof Hgood Hb.
  assert (causal_grows b (add_causal a l b)) as Hg.
  { constructor; try done; [|by eexists]. intros id l' Hl'. left. cbn.
    rewrite lookup_insert_ne; [done|]. intros <-. congruence. }
  assert (size (kb_leases (add_causal a l b)) = S (size (kb_leases b))) as Hsz
    by (cbn; by rewrite map_size_insert_None).
  destruct Hb as [H1 H2 H3 H4]. split; [|split; [done|]].
  - constructor; try done.
    + cbn [add_causal kb_leases]. apply map_Forall_insert_2.
      * split; [done|]. rewrite Hsz. split; [done|]. exists e, a. split; [done|]. split; [|done].
        apply elem_of_app. right. by left.
      * intros id l' Hl'. eapply causal_lease_good_grows; [done|lia|]. by apply H2.
    + cbn. apply Forall_app. by split; [|constructor].
    + eapply Forall_impl; [exact H4|]. intros c. by apply causal_backed_grows.
  - unfold unsettled_causal, consumed_causal. cbn. rewrite map_filter_insert_not'; [done|cbn; congruence|].
    intros y Hy. congruence.
Qed.

Lemma consume_causal_insert b id l : kb_leases b !! id = Some l ->
  kb_leases (consume_causal id b) = <[id := burn_causal l]> (kb_leases b).
Proof.
  intros Hl. cbn. apply map_eq. intros j. destruct (decide (id = j)) as [<-|Hne].
  - by rewrite lookup_alter_eq, Hl, lookup_insert_eq.
  - by rewrite lookup_alter_ne, lookup_insert_ne.
Qed.

Lemma consume_causal_ok b id l : causal_inv b -> kb_leases b !! id = Some l -> kl_consumed l = false ->
  causal_inv (consume_causal id b) /\ causal_grows b (consume_causal id b)
  /\ unsettled_causal (consume_causal id b) = unsettled_causal b + 1.
Proof.
  intros Hb Hl Hc. pose proof (consume_causal_insert b id l Hl) as Hins.
  assert (causal_grows b (consume_causal id b)) as Hg.
  { constructor; try done. intros id' l' Hl'. rewrite Hins.
    destruct (decide (id = id')) as [<-|Hne].
    - right. rewrite lookup_insert_eq. congruence.
    - left. by rewrite lookup_insert_ne. }
  assert (size (kb_leases (consume_causal id b)) = size (kb_leases b)) as Hsz
    by (rewrite Hins; by apply map_size_insert_Some).
  destruct Hb as [H1 H2 H3 H4]. split; [|split; [done|]].
  - constructor; try done.
    + rewrite Hins. apply map_Forall_insert_2; [|intros id' l' Hl'].
      * eapply causal_lease_good_grows in Hg as Hg'; [|lia|exact (H2 id l Hl)].
        destruct Hg' as (? & ? & e & a & He & Ha & Hr). split; [done|]. split; [done|].
        exists e, a. split; [done|]. split; [done|]. destruct Hr; by constructor.
      * eapply causal_lease_good_grows; [done|lia|]. by apply H2.
    + eapply Forall_impl; [exact H4|]. intros c. by apply causal_backed_grows.
  - unfold unsettled_causal, consumed_causal. rewrite Hins, map_filter_insert_True by done.
    rewrite map_size_insert_None; [cbn; lia|]. apply map_lookup_filter_None. right.
    intros x Hx. cbn. congruence.
Qed.

Lemma push_causal_ok b c : causal_inv b -> causal_commit_backed b c ->
  causal_inv (push_causal_commit c b) /\ causal_grows b (push_causal_commit c b)
  /\ unsettled_causal (push_causal_commit c b) = unsettled_causal b - 1.
Proof.
  intros Hb Hc. assert (causal_grows b (push_causal_commit c b)) as Hg.
  { constructor; try done; [|by eexists]. intros id l Hl. by left. }
  destruct Hb as [H1 H2 H3 H4]. split; [|split; [done|]].
  - constructor; try done. cbn. apply Forall_app. split; [|constructor; [done|constructor]]; done.
  - unfold unsettled_causal, consumed_causal. cbn. rewrite length_app. cbn. lia.
Qed.

(** The lease is burned without running anything, and the refusal is on record. *)
Definition refused_causal (causal_lease_id : string) b b' : Prop :=
  exists l e c, kb_leases b !! causal_lease_id = Some l /\ kl_consumed l = false /\ proposes l e
    /\ causal_receipt_of l e c /\ kc_effect_outcome c = "NOT_EXECUTED"
    /\ b' = push_causal_commit c (consume_causal causal_lease_id b).

Lemma refused_causal_keeps id b b' : refused_causal id b b' -> causal_keeps b b'.
Proof.
  intros (l & e & c & Hl & Hu & He & Hc & Hout & ->) Hb.
  destruct (consume_causal_ok b id l Hb Hl Hu) as (H1 & G1 & U1).
  destruct (push_causal_ok (consume_causal id b) c H1) as (H2 & G2 & U2).
  { exists id, (burn_causal l), e. rewrite (consume_causal_insert b id l Hl), lookup_insert_eq.
    split_and!; [done..| |by rewrite Hout]. destruct Hc. by constructor. }
  split; [done|]. split; [by eapply causal_grows_trans|]. lia.
Qed.
End causal_invariant.

(** *** Calls of the causal broker *)
Section causal_calls.
Context {hash : Digest} {V W S : Type} {L : Lens S (CausalBoundEffectCommitBroker V W)}.
Context {env : EffectEnv S} {clock : OuterClock S} {kclock : CausalClock S}.
Context {verifier : EventVerifier W S}.
Implicit Types (s : S) (b : CausalBoundEffectCommitBroker V W) (l : _CausalLease).
Implicit Types (executor : RuntimeOperation -> M S exec_result).

Definition causal (s : S) : CausalBoundEffectCommitBroker V W := lget s.

Lemma causal_put b s : causal (lput b s) = b.
Proof. apply lget_lput. Qed.

(** A call that leaves the causal broker, and so its ledger and its delegate, alone. *)
Definition causal_silent {A} (m : M S A) : Prop := evolves (fun s s' => causal s' = causal s) m.

#[export] Instance causal_same_preorder : PreOrder (fun s s' : S => causal s' = causal s).
Proof. split; [by intros s|]. intros s1 s2 s3 H1 H2. congruence. Qed.

(** The clocks, the providers and the event verifier answer; they do not call the brokers. *)
Record causal_silent_env : Prop := {
  sk_causal : causal_silent causal_clock;
  sk_verify w d : causal_silent (verify_event_with w d);
  sk_outer : causal_silent outer_clock;
  sk_clock : causal_silent env_clock;
  sk_world : causal_silent env_world;
  sk_session operation_id : causal_silent (env_session operation_id);
  sk_capabilities : causal_silent env_capabilities
}.

Lemma objective_silent : causal_silent_env -> outer_silent_env (L := objective_in (V := V) (W := W)).
Proof.
  intros [_ _ H0 H1 H2 H3 H4]. constructor; intros; intros s; unfold outer; cbn;
    unfold causal_silent, evolves, causal in *; by rewrite ?H0, ?H1, ?H2, ?H3, ?H4.
Qed.

Lemma ledger_lget s : lget (Lens := ledger_in (V := V)) s = kb_ledger (causal s).
Proof. done. Qed.

Lemma objective_outer s : outer (L := objective_in (V := V) (W := W)) s = kb_delegate (causal s).
Proof. done. Qed.

(** A verified event, new to the ledger and chained on it, and the analysis it leads to. *)
Lemma extended_analysis_run doc s : causal_silent_env ->
  let '(r, s') := extended_analysis (L := ledger_in (V := V)) doc s in
  causal s' = causal s /\ forall e d, r = Ok (e, d) ->
    _parse_event doc = Ok e /\ te_event_id e ∉ tl_event_ids (kb_ledger (causal s))
    /\ trajectory_ok (tl_events (kb_ledger (causal s)) ++ [e])
    /\ d = EscalationDecision_as_document (analysis (tl_events (kb_ledger (causal s)) ++ [e])).
Proof.
  intros He. unfold extended_analysis, _verified_event. rewrite !M_assoc, M_lift.
  destruct (_parse_event doc) as [e|] eqn:Hp; [|by split].
  rewrite M_assoc, M_this, M_assoc, M_attempt, ledger_lget.
  pose proof (sk_verify He (tl_verify_event (kb_ledger (causal s))) doc s) as Hs1.
  destruct (verify_event_with _ doc s) as [[[| [] | | | |]|e'] s1]; cbn [snd] in Hs1; try by split.
  rewrite M_bind_eq. cbn [mret M_ret]. rewrite M_this, M_lift, ledger_lget, Hs1.
  destruct (bool_decide _) eqn:Hid; [by split|]. cbn [causal_if raise_if]. rewrite M_lift.
  apply bool_decide_eq_false in Hid.
  destruct (_analyze _) as [d|] eqn:Ha; [|by split]. apply analyze_run in Ha as [Ht ->].
  split; [done|]. by intros e' d' [= <- <-].
Qed.

Lemma project_run doc s : causal_silent_env ->
  let '(r, s') := project_verified_event (L := ledger_in (V := V)) doc s in
  causal s' = causal s /\ forall d, r = Ok d -> exists e,
    _parse_event doc = Ok e /\ te_event_id e ∉ tl_event_ids (kb_ledger (causal s))
    /\ trajectory_ok (tl_events (kb_ledger (causal s)) ++ [e])
    /\ projection_described (kb_ledger (causal s)) e d.
Proof.
  intros He. unfold project_verified_event. rewrite M_bind_eq.
  pose proof (extended_analysis_run doc s He) as Hr.
  destruct (extended_analysis doc s) as [[[e d]|e'] s1]; destruct Hr as [Hs Hr]; [|by split].
  destruct (Hr e d eq_refl) as (Hp & Hid & Ht & ->). rewrite M_this, ledger_lget, Hs.
  destruct (projection_run (kb_ledger (causal s)) e) as (d & -> & Hd).
  split; [done|]. intros d' [= <-]. by exists e.
Qed.

(** Appending extends the ledger by the event, or changes nothing. *)
Lemma append_run doc s : causal_silent_env ->
  let '(r, s') := append_verified_event (L := ledger_in (V := V)) doc s in
  match r with
  | Ok d => exists e, _parse_event doc = Ok e /\ te_event_id e ∉ tl_event_ids (kb_ledger (causal s))
      /\ trajectory_ok (tl_events (kb_ledger (causal s)) ++ [e])
      /\ causal s' = set_ledger (push_event e (kb_ledger (causal s))) (causal s)
      /\ dict_get d "trajectory_head_sha256" = Some (JStr (te_event_sha256 e))
  | Err _ => causal s' = causal s
  end.
Proof.
  intros He. unfold append_verified_event. rewrite M_bind_eq.
  pose proof (extended_analysis_run doc s He) as Hr.
  destruct (extended_analysis doc s) as [[[e d]|e'] s1]; destruct Hr as [Hs Hr]; [|done].
  destruct (Hr e d eq_refl) as (Hp & Hid & Ht & ->). rewrite M_set_this.
  destruct (appended_run e (tl_events (kb_ledger (causal s)) ++ [e])) as (d & Hd & Hhead). cbn [lift].
  unfold lift. rewrite Hd. exists e. split_and!; try done. unfold causal in *. cbn.
  by rewrite lget_lput, Hs.
Qed.

(** What is known when the causal lease is burned: the lease is unused and in time, the
    trajectory is allowed and in the state the lease was issued in, and the proposed
    event extends it to a trajectory that is allowed as well. *)
Record causal_rechecked (causal_lease_id : string) b (c : CausalRecheck) (e : TrajectoryEvent) : Prop := {
  ck_known : kb_leases b !! causal_lease_id = Some (cr_lease c);
  ck_unused : kl_consumed (cr_lease c) = false;
  ck_now : 0 <= cr_now c;
  ck_time : kl_issued_at_unix (cr_lease c) <= cr_now c <= kl_expires_at_unix (cr_lease c);
  ck_state : ledger_document (kb_ledger b) = Ok (cr_state c);
  ck_allow : ed_decision (analysis (tl_events (kb_ledger b))) = "ALLOW";
  ck_head : head_of (tl_events (kb_ledger b)) = kl_trajectory_head_sha256 (cr_lease c);
  ck_graph : ed_graph_sha256 (analysis (tl_events (kb_ledger b))) = kl_trajectory_graph_sha256 (cr_lease c);
  ck_same : dict_get (cr_state c) "state_sha256" = Some (JStr (kl_trajectory_state_sha256 (cr_lease c)));
  ck_event : _parse_event (kl_proposal (cr_lease c)) = Ok e;
  ck_fresh : te_event_id e ∉ tl_event_ids (kb_ledger b);
  ck_extends : trajectory_ok (tl_events (kb_ledger b) ++ [e]);
  ck_projected : ed_decision (analysis (tl_events (kb_ledger b) ++ [e])) = "ALLOW";
  ck_projected_graph : ed_graph_sha256 (analysis (tl_events (kb_ledger b) ++ [e]))
                       = kl_projected_graph_sha256 (cr_lease c)
}.

Lemma causal_invalidate_run {A} l e now reason st s : ledger_inv (kb_ledger (causal s)) -> 0 <= now ->
  proposes l e ->
  match st with
  | Some d => ledger_described (kb_ledger (causal s)) d
  | None => True
  end ->
  exists c, causal_receipt_of l e c /\ kc_effect_outcome c = "NOT_EXECUTED"
  /\ _invalidate_and_raise (A := A) l now reason st s
     = (Err (Exn CausalEffectCommitError reason),
        lput (push_causal_commit c (consume_causal (kl_causal_lease_id l) (causal s))) s).
Proof.
  intros Hg Hnow [Hp Hprev] Hst. unfold _invalidate_and_raise, set_causal. rewrite M_set_this.
  assert (exists d, ledger_described (kb_ledger (causal s)) d
    /\ forall f : dict -> M S A, ((match st with Some d => mret d | None => ledger_state (L := ledger_in) end) ≫= f)
         (lput (consume_causal (kl_causal_lease_id l) (lget s)) s)
       = f d (lput (consume_causal (kl_causal_lease_id l) (lget s)) s)) as (d & Hd & Hrun).
  { destruct st as [d|]; [by exists d|]. destruct (ledger_document_run _ Hg) as (d & Hd & Hdoc).
    exists d. split; [done|]. intros f. rewrite M_bind_eq. unfold ledger_state.
    rewrite M_this, ledger_lget, causal_put. cbn [consume_causal kb_ledger]. unfold causal in Hd. by rewrite Hd. }
  destruct (causal_commit_run l e (head_of (tl_events (kb_ledger (causal s)))) ZERO_SHA256 now
    "NOT_EXECUTED" ZERO_SHA256 ["causal_lease_consumed"; reason] Hp Hnow
    (head_of_sha _ (li_trajectory _ Hg)) eq_refl eq_refl) as (c & Hc & Hof & Hout & _).
  { by apply mem_true. }
  exists c. split_and!; [done..|]. rewrite Hrun. unfold str_item, dict_item at 1. rewrite (ld_head _ _ Hd).
  cbn [from_option]. rewrite bind_Ok, M_lift. unfold _append_commit, set_causal.
  rewrite M_assoc, M_lift, Hc, M_set_this. unfold causal. by rewrite lget_lput, lput_lput.
Qed.

Lemma trajectory_mismatch_none g d l : ledger_described g d -> _trajectory_mismatch l d = None ->
  ed_decision (analysis (tl_events (W := W) g)) = "ALLOW"
  /\ head_of (tl_events g) = kl_trajectory_head_sha256 l
  /\ ed_graph_sha256 (analysis (tl_events g)) = kl_trajectory_graph_sha256 l
  /\ dict_get d "state_sha256" = Some (JStr (kl_trajectory_state_sha256 l)).
Proof.
  intros [_ Hh Hg Hr Hd [sha Hs]] Hm. unfold _trajectory_mismatch in Hm.
  unfold dict_get_none, dict_get_or in Hm. rewrite Hh, Hg, Hr, Hd, Hs in Hm.
  repeat match type of Hm with (if ?c then _ else _) = None =>
    let E := fresh "E" in destruct c eqn:E; [done|] end.
  apply same_document in E, E0, E1, E2, E3. rewrite Hs. split_and!; congruence.
Qed.

Lemma projection_mismatch_none g e d l : projection_described (W := W) g e d ->
  exists o, projection_mismatch l d = Ok o /\ (o = None ->
    ed_decision (analysis (tl_events g ++ [e])) = "ALLOW"
    /\ ed_graph_sha256 (analysis (tl_events g ++ [e])) = kl_projected_graph_sha256 l).
Proof.
  intros [Hd Hg Hr]. unfold projection_mismatch.
  rewrite (proj2 (dict_item_ok _ _ _) Hd), (proj2 (dict_item_ok _ _ _) Hg), (proj2 (dict_item_ok _ _ _) Hr),
    !bind_Ok.
  eexists. split; [reflexivity|]. intros Ho.
  repeat match type of Ho with (if ?c then _ else _) = None =>
    let E := fresh "E" in destruct c eqn:E; [done|] end.
  apply same_document in E, E0. split; congruence.
Qed.

Lemma causal_recheck_cases id s : causal_silent_env -> causal_inv (causal s) ->
  (exists e s', causal_recheck id s = (Err e, s')
     /\ (causal s' = causal s \/ refused_causal id (causal s) (causal s')))
  \/ exists c e s', causal_recheck id s = (Ok c, s') /\ causal s' = causal s
     /\ causal_rechecked id (causal s) c e.
Proof.
  intros He Hb. remember (causal_recheck id s) as f eqn:Hf. unfold causal_recheck in Hf.
  rewrite M_bind_eq in Hf. unfold _require_live_lease, self_causal in Hf.
  rewrite M_lift in Hf. destruct (causal_if (String.eqb id "") _) as [[]|e0]; [|left; subst f; eauto].
  rewrite M_this, M_lift in Hf. destruct (kb_leases (lget s) !! id) as [l|] eqn:Hl; [|left; subst f; eauto].
  rewrite M_lift in Hf. unfold causal_if at 1 in Hf.
  destruct (kl_consumed l) eqn:Hu; cbn [raise_if] in Hf; [left; subst f; eauto 6|].
  cbn [mret M_ret] in Hf. rewrite M_bind_eq in Hf. unfold _now in Hf. rewrite M_bind_eq in Hf.
  pose proof (sk_causal He s) as Hs1. destruct (causal_clock s) as [[now|e0] s1]; cbn in Hs1;
    [|left; subst f; eauto 6].
  cbn [lift] in Hf. destruct (_time (JInt now) _) as [z|e0] eqn:Ht; [|left; subst f; eauto 6].
  apply causal_time_ok in Ht as [[= <-] Hnow].
  destruct (kv_leases _ Hb id l Hl) as (Hid & _ & e & _ & Hprop & _).
  assert (forall reason st s2, causal s2 = causal s ->
    match st with Some d => ledger_described (kb_ledger (causal s)) d | None => True end ->
    exists e0 s', _invalidate_and_raise (A := CausalRecheck) l now reason st s2 = (Err e0, s')
     /\ (causal s' = causal s \/ refused_causal id (causal s) (causal s'))) as Hinv.
  { intros reason st s2 Hs2 Hst. destruct (causal_invalidate_run (A := CausalRecheck) l e now reason st s2)
      as (c & Hc & Hout & Hrun); [by rewrite Hs2; apply Hb|done|done|by rewrite Hs2|].
    rewrite Hrun. do 2 eexists. split; [reflexivity|]. right. rewrite causal_put, Hs2, Hid.
    by exists l, e, c. }
  destruct (Z.ltb_spec now (kl_issued_at_unix l)); [left; rewrite Hf; by apply Hinv|].
  destruct (Z.ltb_spec (kl_expires_at_unix l) now); [left; rewrite Hf; by apply Hinv|].
  rewrite M_bind_eq in Hf. unfold ledger_state in Hf. rewrite M_this, ledger_lget in Hf.
  destruct (ledger_document_run _ (kv_ledger _ Hb)) as (d & Hd & Hdoc).
  rewrite Hs1, Hd in Hf. cbn [lift] in Hf.
  destruct (_trajectory_mismatch l d) as [reason|] eqn:Hm; [left; rewrite Hf; by apply Hinv|].
  destruct (trajectory_mismatch_none _ _ _ Hdoc Hm) as (? & ? & ? & ?).
  rewrite M_bind_eq in Hf. pose proof (project_run (kl_proposal l) s1 He) as Hp.
  destruct (project_verified_event _ s1) as [[p|e0] s2]; destruct Hp as [Hs2 Hp];
    [|left; subst f; do 2 eexists; split; [reflexivity|left; congruence]].
  destruct (Hp p eq_refl) as (e' & He' & Hfresh & Hext & Hpd). destruct Hprop as [Hparse _].
  rewrite Hparse in He'. injection He' as <-. rewrite Hs1 in Hfresh, Hext, Hpd.
  destruct (projection_mismatch_none _ e p l Hpd) as (o & Ho & Hnone).
  rewrite M_lift, Ho in Hf. destruct o as [reason|]; [left; rewrite Hf; apply Hinv; [congruence|done]|].
  destruct (Hnone eq_refl) as [? ?]. right. eexists _, e, s2. split; [exact Hf|].
  split; [congruence|]. by constructor.
Qed.

Lemma causal_consume_cases id s : causal_silent_env -> causal_inv (causal s) ->
  (exists e s', (causal s' = causal s \/ refused_causal id (causal s) (causal s'))
     /\ forall token executor, consume_for_trusted_adapter id token executor s = (Err e, s'))
  \/ exists c e s', causal s' = consume_causal id (causal s) /\ causal_rechecked id (causal s) c e
     /\ forall token executor, consume_for_trusted_adapter id token executor s
                               = run_objective c token executor s'.
Proof.
  intros He Hb. destruct (causal_recheck_cases id s He Hb) as [(e & s' & Hr & Hs)|(c & e & s' & Hr & Hs & Hc)].
  - left. exists e, s'. split; [done|]. intros token executor. unfold consume_for_trusted_adapter.
    by rewrite M_bind_eq, Hr.
  - right. exists c, e, (lput (consume_causal id (lget s')) s'). rewrite causal_put. unfold causal in *.
    rewrite Hs. split_and!; [done|done|]. intros token executor. unfold consume_for_trusted_adapter, set_causal.
    by rewrite M_bind_eq, Hr, M_set_this, Hs.
Qed.

(** What the host's code must respect: the brokers are changed by their own methods. *)
Definition host_causal_keeps s s' : Prop :=
  causal_keeps (causal s) (causal s') /\ outer_keeps (kb_delegate (causal s)) (kb_delegate (causal s')).

#[export] Instance host_causal_keeps_preorder : PreOrder host_causal_keeps.
Proof.
  split; [intros s; split; [exact (reflexivity (R:=causal_keeps) _)|exact (reflexivity (R:=outer_keeps) _)]|].
  intros s1 s2 s3 [H1 O1] [H2 O2].
  split; [exact (transitivity (R:=causal_keeps) H1 H2)|exact (transitivity (R:=outer_keeps) O1 O2)].
Qed.

Lemma silent_keeps s s' : causal s' = causal s -> host_causal_keeps s s'.
Proof.
  intros E. split; rewrite E; [exact (reflexivity (R:=causal_keeps) _)|exact (reflexivity (R:=outer_keeps) _)].
Qed.

(** A change of the broker that leaves the delegate alone. *)
Lemma own_change s b : kb_delegate b = kb_delegate (causal s) -> causal_keeps (causal s) b ->
  host_causal_keeps s (lput b s).
Proof.
  intros Hd Hk. split; rewrite causal_put; [done|]. rewrite Hd. exact (reflexivity (R:=outer_keeps) _).
Qed.

(** Nothing but the delegate changed. *)
Definition only_objective s s' : Prop := causal s' = set_objective (kb_delegate (causal s')) (causal s).

#[export] Instance only_objective_preorder : PreOrder only_objective.
Proof.
  split; [intros s; unfold only_objective; by destruct (causal s)|]. intros s1 s2 s3 H1 H2.
  unfold only_objective in *. rewrite H2. cbn. rewrite H1. done.
Qed.

Lemma set_objective_only f : evolves only_objective (set_this (H := objective_in) f).
Proof. intros s. unfold only_objective, causal. cbn. by rewrite lget_lput. Qed.

Lemma causal_silent_only {A} (m : M S A) : causal_silent m -> evolves only_objective m.
Proof. intros Hm s. unfold only_objective. rewrite Hm. by destruct (causal s). Qed.

Lemma objective_issue_only op cap decision : causal_silent_env ->
  evolves only_objective (ObjectiveEffectCommit.issue_for_trusted_adapter (L := objective_in) op cap decision).
Proof.
  intros [_ _ H0 H1 H2 H3 H4]. apply outer_issue_frame; [typeclasses eauto|apply set_objective_only|..];
    intros; apply causal_silent_only; auto.
Qed.

(** Only the delegate changes, as its own methods change it. *)
Lemma only_objective_keeps s s' : only_objective s s' ->
  outer_keeps (kb_delegate (causal s)) (kb_delegate (causal s')) -> host_causal_keeps s s'.
Proof. intros Ho Hk. split; [rewrite Ho; apply set_objective_keeps|done]. Qed.

(** The lease that stands for a checked proposal. *)
Record causal_issued b (op : RuntimeOperation) (proposal : dict) (e : TrajectoryEvent)
    (a : CausalEffectAuthorizationReceipt) l : Prop := {
  ci_operation : kl_operation l = op;
  ci_unused : kl_consumed l = false;
  ci_proposal : kl_proposal l = proposal /\ proposes l e;
  ci_event : te_subject_id e = ro_subject_id op /\ te_decision e = "ALLOW"
             /\ te_observed_at_unix e = ro_at_unix op;
  ci_head : kl_trajectory_head_sha256 l = head_of (tl_events (kb_ledger b));
  ci_allow : ed_decision (analysis (tl_events (kb_ledger b))) = "ALLOW";
  ci_projected : ed_decision (analysis (tl_events (kb_ledger b) ++ [e])) = "ALLOW";
  ci_id : exists head psha isha, kl_causal_lease_id l = causal_lease_id_of (size (kb_leases b)) head psha isha;
  ci_receipt : causal_authorization_of l e a;
  ci_good : causal_authorization_good a
}.

Lemma binding_facts op cap e g d : ledger_described (W := W) g d ->
  _verify_proposal_binding op cap e d = Ok tt ->
  te_previous_event_sha256 e = head_of (tl_events g) /\ te_subject_id e = ro_subject_id op
  /\ te_decision e = "ALLOW" /\ te_observed_at_unix e = ro_at_unix op
  /\ te_sequence e = event_count g + 1.
Proof.
  intros Hd H. unfold _verify_proposal_binding, causal_if in H. py_inv.
  match goal with Hc : dict_item d "event_count" = Ok _ |- _ =>
    apply dict_item_ok in Hc; rewrite (ld_count _ _ Hd) in Hc; injection Hc as <- end.
  match goal with Hc : dict_item d "trajectory_head_sha256" = Ok _ |- _ =>
    apply dict_item_ok in Hc; rewrite (ld_head _ _ Hd) in Hc; injection Hc as <- end.
  repeat match goal with
  | Hb : _ || _ = false |- _ => apply orb_false_iff in Hb as [? ?]
  | Hb : negb _ = false |- _ => apply negb_false_iff in Hb
  | Hb : (_ =? _)%Z = true |- _ => apply Z.eqb_eq in Hb
  | Hb : is_str _ _ = true |- _ => cbn [is_str] in Hb
  | Hb : String.eqb _ _ = true |- _ => apply String.eqb_eq in Hb
  end. split_and!; congruence.
Qed.

Lemma check_proposal_run op cap doc s : causal_silent_env -> ledger_inv (kb_ledger (causal s)) ->
  let '(r, s') := check_proposal op cap doc s in
  causal s' = causal s /\ forall d e p, r = Ok (d, e, p) ->
    _parse_event doc = Ok e /\ ledger_described (kb_ledger (causal s)) d
    /\ ed_decision (analysis (tl_events (kb_ledger (causal s)))) = "ALLOW"
    /\ _verify_proposal_binding op cap e d = Ok tt
    /\ te_event_id e ∉ tl_event_ids (kb_ledger (causal s))
    /\ trajectory_ok (tl_events (kb_ledger (causal s)) ++ [e])
    /\ projection_described (kb_ledger (causal s)) e p
    /\ ed_decision (analysis (tl_events (kb_ledger (causal s)) ++ [e])) = "ALLOW".
Proof.
  intros He Hg. unfold check_proposal, ledger_state. rewrite M_assoc, M_this, ledger_lget.
  destruct (ledger_document_run _ Hg) as (d & Hd & Hdoc). rewrite M_lift, Hd, M_lift.
  rewrite (proj2 (dict_item_ok _ _ _) (ld_decision _ _ Hdoc)), M_lift.
  unfold causal_if at 1. destruct (is_str (JStr (ed_decision _)) "ALLOW") eqn:Hallow; cbn [negb raise_if]; [|by split].
  rewrite M_lift. destruct (_parse_event doc) as [e|] eqn:Hp; [|by split].
  rewrite M_lift. destruct (_verify_proposal_binding op cap e d) as [[]|] eqn:Hbind; [|by split].
  rewrite M_bind_eq. pose proof (project_run doc s He) as Hr.
  destruct (project_verified_event doc s) as [[p|e0] s1]; destruct Hr as [Hs1 Hr]; [|by split].
  destruct (Hr p eq_refl) as (e' & He' & Hfresh & Hext & Hpd). rewrite Hp in He'. injection He' as <-.
  rewrite M_lift, (proj2 (dict_item_ok _ _ _) (pd_decision _ _ _ Hpd)), M_lift. unfold causal_if.
  destruct (is_str (JStr (ed_decision (analysis (_ ++ _)))) "ALLOW") eqn:Hproj; cbn [negb raise_if]; [|by split].
  split; [done|]. intros d' e' p' [= <- <- <-]. cbn [is_str] in Hallow, Hproj.
  apply String.eqb_eq in Hallow, Hproj. done.
Qed.

Lemma causal_issue_spec op cap decision doc s : causal_silent_env -> causal_inv (causal s) ->
  outer_inv (kb_delegate (causal s)) ->
  match issue_for_trusted_adapter op cap decision doc s with
  | (Ok r, s') => exists a l e d ol,
      causal s' = add_causal a l (set_objective d (causal s))
      /\ outer_keeps (kb_delegate (causal s)) d
      /\ causal_issued (causal s) op doc e a l
      /\ ob_leases d !! kl_objective_lease_id l = Some ol /\ ol_operation ol = op
      /\ r = (kl_causal_lease_id l, CausalEffectAuthorizationReceipt_as_document a)
  | (Err _, s') => host_causal_keeps s s'
  end.
Proof.
  intros He Hb Hob. pose proof (reflexivity (R:=host_causal_keeps) s) as Hrefl.
  remember (issue_for_trusted_adapter op cap decision doc s) as f eqn:Hf.
  unfold issue_for_trusted_adapter, self_causal, set_causal in Hf.
  M_run Hf. destruct (RuntimeOperation_validate op); [|by subst f].
  M_run Hf. rewrite M_bind_eq in Hf. pose proof (check_proposal_run op cap doc s He (kv_ledger _ Hb)) as Hc.
  destruct (check_proposal op cap doc s) as [[[[d e] p]|e0] s1]; destruct Hc as [Hs1 Hc];
    [|subst f; by apply silent_keeps].
  destruct (Hc d e p eq_refl) as (Hp & Hdoc & Hallow & Hbind & Hfresh & Hext & Hpd & Hproj).
  destruct (binding_facts _ _ _ _ _ Hdoc Hbind) as (Hprev & Hsub & Hdec & Htime & _).
  rewrite M_bind_eq in Hf.
  pose proof (outer_issue_spec (L := objective_in) op cap decision s1 (objective_silent He)) as Hin.
  rewrite objective_outer, Hs1 in Hin. specialize (Hin Hob).
  pose proof (outer_issue_keeps (L := objective_in) op cap decision (objective_silent He) s1) as Hkeep.
  unfold host_outer_keeps in Hkeep. rewrite !objective_outer, Hs1 in Hkeep.
  pose proof (objective_issue_only op cap decision He s1) as Honly. unfold only_objective in Honly.
  rewrite Hs1 in Honly.
  destruct (ObjectiveEffectCommit.issue_for_trusted_adapter op cap decision s1) as [[r|e0] s2];
    cbn [snd] in Honly, Hkeep;
    (assert (host_causal_keeps s s2) as Hk2
       by (apply only_objective_keeps; [unfold only_objective; congruence|exact Hkeep]));
    [|subst f; exact Hk2].
  destruct Hin as (oa & ol & il & ia & Hol & His & Ho & ->). rewrite objective_outer in Hol.
  M_run Hf. destruct (ObjectiveEffectCommit.verify_authorization_receipt _); [|by subst f].
  M_run Hf.
  change (dict_item (ObjectiveEffectAuthorizationReceipt_as_document oa) "issued_at_unix")
    with (Ok (JInt (oa_issued_at_unix oa))) in Hf. M_run Hf.
  destruct (_time (JInt (oa_issued_at_unix oa)) _) as [zi|] eqn:Hzi; [|by subst f]. M_run Hf.
  change (dict_item (ObjectiveEffectAuthorizationReceipt_as_document oa) "expires_at_unix")
    with (Ok (JInt (oa_expires_at_unix oa))) in Hf. M_run Hf.
  destruct (_time (JInt (oa_expires_at_unix oa)) _) as [ze|] eqn:Hze; [|by subst f].
  apply causal_time_ok in Hzi as [[= <-] _], Hze as [[= <-] _]. M_run Hf.
  destruct (_sha (dict_get_none cap _) _ _) as [csha|]; [|by subst f]. M_run Hf.
  unfold str_item at 1 in Hf. rewrite (proj2 (dict_item_ok _ _ _) (ld_head _ _ Hdoc)), bind_Ok in Hf. M_run Hf.
  destruct (str_item p "projection_sha256") as [psha|]; [|by subst f]. M_run Hf.
  change (str_item (ObjectiveEffectAuthorizationReceipt_as_document oa) "receipt_sha256")
    with (Ok (oa_receipt_sha256 oa)) in Hf. M_run Hf.
  destruct (str_item d "graph_sha256") as [graph|]; [|by subst f]. M_run Hf.
  destruct (str_item d "decision_receipt_sha256") as [dsha|]; [|by subst f]. M_run Hf.
  destruct (str_item d "state_sha256") as [ssha|]; [|by subst f]. M_run Hf.
  destruct (str_item p "projected_graph_sha256") as [pgraph|]; [|by subst f]. M_run Hf.
  destruct (str_item p "projected_decision_receipt_sha256") as [prsha|]; [|by subst f]. M_run Hf.
  destruct (normalized_scope op) as [scope|]; [|by subst f]. M_run Hf.
  subst f. cbv zeta. unfold mret, M_ret. fold (causal s2).
  remember (kb_delegate (causal s2)) as dl eqn:Hdl. rewrite Honly. rewrite causal_put.
  eexists _, _, e, dl, ol. split; [reflexivity|]. split; [exact Hkeep|].
  split; [|split; [|split; [|reflexivity]]].
  - constructor; try done. by eexists _, _, _.
  - cbn [kl_objective_lease_id]. rewrite Hol. cbn. by rewrite lookup_insert_eq.
  - apply (oi_operation _ _ _ _ _ _ Ho).
Qed.

Lemma causal_issued_keeps b d op doc e a l : causal_inv b -> causal_issued b op doc e a l ->
  causal_keeps b (add_causal a l (set_objective d b)).
Proof.
  intros Hb Hi.
  refine (transitivity (R:=causal_keeps) (y:=set_objective d b) (set_objective_keeps d b) _).
  destruct (ci_id _ _ _ _ _ _ Hi) as (head & psha & isha & Hid).
  apply (add_causal_keeps _ a l e); try apply Hi.
  - rewrite Hid. exact (causal_id_fresh b head psha isha Hb).
  - rewrite Hid. eexists (Z.of_nat (size (kb_leases b)) + 1), _. cbn. split; [lia|reflexivity].
Qed.

Lemma causal_issue_keeps op cap decision doc : causal_silent_env ->
  evolves (fun s s' => causal_inv (causal s) -> outer_inv (kb_delegate (causal s)) -> host_causal_keeps s s')
    (issue_for_trusted_adapter op cap decision doc).
Proof.
  intros He s Hb Hob. pose proof (causal_issue_spec op cap decision doc s He Hb Hob) as Hs.
  destruct (issue_for_trusted_adapter op cap decision doc s) as [[r|e] s']; cbn [snd]; [|done].
  destruct Hs as (a & l & e & d & ol & Hs' & Hd & Hi & _). split; rewrite Hs'; [|exact Hd].
  by eapply causal_issued_keeps.
Qed.

(** *** The effect and the event that records it *)
#[export] Instance causal_part_preorder : PreOrder (fun s s' : S => causal_keeps (causal s) (causal s')).
Proof.
  split; [intros s; exact (reflexivity (R:=causal_keeps) _)|].
  intros s1 s2 s3 H1 H2. exact (transitivity (R:=causal_keeps) H1 H2).
Qed.

Lemma silent_part {A} (m : M S A) : causal_silent m ->
  evolves (fun s s' => causal_keeps (causal s) (causal s')) m.
Proof. intros Hm s. rewrite Hm. exact (reflexivity (R:=causal_keeps) _). Qed.

Lemma objective_consume_keeps id token executor : causal_silent_env ->
  (forall op, evolves host_causal_keeps (executor op)) ->
  evolves host_causal_keeps
    (ObjectiveEffectCommit.consume_for_trusted_adapter (L := objective_in) id token executor).
Proof.
  intros He Hex s. split.
  - destruct He as [_ _ H0 H1 H2 H3 H4].
    apply (outer_consume_frame (fun s s' => causal_keeps (causal s) (causal s'))); try typeclasses eauto;
      try solve [intros; apply silent_part; auto].
    + intros f s'. unfold causal. cbn. rewrite lget_lput. apply set_objective_keeps.
    + intros op s'. apply (Hex op s').
  - apply (outer_consume_keeps (L := objective_in)); [by apply objective_silent|].
    intros op s'. apply (Hex op s').
Qed.

Lemma latest_objective_run n s : outer_inv (kb_delegate (causal s)) -> exists sha,
  (forall A (f : string -> M S A), (_latest_objective_commit n ≫= f) s = f sha s) /\ re_sha sha = true.
Proof.
  intros Hb. pose proof (ov_commits _ Hb) as Hc.
  destruct (length (ObjectiveEffectCommit.commit_receipts (kb_delegate (causal s))) <=? n)%nat eqn:Hn.
  - exists ZERO_SHA256. split; [|done]. intros A f. unfold _latest_objective_commit, self_causal.
    rewrite M_assoc, M_this. cbv zeta. unfold causal in Hn. by rewrite Hn.
  - apply Nat.leb_gt in Hn as Hgt. unfold ObjectiveEffectCommit.commit_receipts in Hgt. rewrite length_map in Hgt.
    destruct (ob_commits (kb_delegate (causal s))) as [|c0 pre0 _] eqn:Hlast using rev_ind; [cbn in Hgt; lia|].
    apply Forall_app in Hc as [_ Hc%Forall_inv]. destruct Hc as (id & l & _ & _ & Hr & _).
    exists (oc_receipt_sha256 c0).
    assert (re_sha (oc_receipt_sha256 c0) = true) as Hsha
      by (rewrite (oo_digest _ _ Hr); apply canonical_sha256_sha).
    split; [|done]. intros A f. unfold _latest_objective_commit, self_causal. rewrite M_assoc, M_this.
    cbv zeta. unfold causal in Hn, Hlast. rewrite Hn. unfold ObjectiveEffectCommit.commit_receipts.
    rewrite Hlast, map_app. cbn [map]. rewrite last_snoc, !M_assoc, M_lift.
    change (dict_item (ObjectiveEffectCommitReceipt_as_document c0) "receipt_sha256")
      with (Ok (JStr (oc_receipt_sha256 c0))).
    rewrite !M_assoc, M_lift, M_lift. by rewrite causal_sha_run.
Qed.

Lemma append_causal_run l head objective now outcome result reasons s c :
  causal_commit_of l head objective now outcome result reasons = Ok c -> forall A (f : unit -> M S A),
  (_append_commit l head objective now outcome result reasons ≫= f) s
  = f tt (lput (push_causal_commit c (causal s)) s).
Proof.
  intros Hc A f. unfold _append_commit. rewrite M_assoc, M_lift, Hc. unfold set_causal.
  by rewrite M_set_this.
Qed.

(** The outcome of the effect, as the receipt and the ledger record it. *)
Inductive effect_recorded (events : list TrajectoryEvent) (doc : dict) (e : TrajectoryEvent) s2 s3
    (c : CausalEffectCommitReceipt) : result ExecutionObservation -> result ExecutionObservation -> Prop :=
  | recorded_failure exc : kc_effect_outcome c = "FAILED" -> causal s3 = causal s2 ->
      effect_recorded events doc e s2 s3 c (Err exc)
        (Err (Exn CausalEffectCommitError "objective_bound_effect_failed"))
  | recorded_success o : kc_effect_outcome c = "SUCCEEDED" -> kc_result_sha256 c = eo_result_sha256 o ->
      tl_events (kb_ledger (causal s2)) = events ->
      causal s3 = set_ledger (push_event e (kb_ledger (causal s2))) (causal s2) ->
      effect_recorded events doc e s2 s3 c (Ok o) (Ok o)
  | recorded_without_evidence o : kc_effect_outcome c = "EFFECT_SUCCEEDED_EVIDENCE_FAILED" ->
      kc_result_sha256 c = eo_result_sha256 o -> causal s3 = causal s2 ->
      (exists exc, append_verified_event (L := ledger_in (V := V)) doc s2 = (Err exc, s3)) ->
      effect_recorded events doc e s2 s3 c (Ok o)
        (Err (Exn CausalEffectCommitError "trajectory_append_failed_after_effect")).

(** The effect is followed by exactly one commit receipt. *)
Lemma run_objective_run id b c e token executor s : causal_silent_env ->
  (forall op, evolves host_causal_keeps (executor op)) -> causal_inv b -> outer_inv (kb_delegate b) ->
  causal_rechecked id b c e -> causal s = consume_causal id b ->
  let '(inner, s2) := ObjectiveEffectCommit.consume_for_trusted_adapter (L := objective_in)
                        (kl_objective_lease_id (cr_lease c)) token executor s in
  exists s3 kc r, run_objective c token executor s = (r, lput (push_causal_commit kc (causal s3)) s3)
    /\ host_causal_keeps s s3 /\ causal_receipt_of (cr_lease c) e kc /\ kc_committed_at_unix kc = cr_now c
    /\ (kc_effect_outcome kc = "SUCCEEDED" -> in_trajectory (tl_events (kb_ledger (causal s3))) e kc)
    /\ effect_recorded (tl_events (kb_ledger b)) (kl_proposal (cr_lease c)) e s2 s3 kc inner r.
Proof.
  intros He Hex Hb Hob Hc Hs.
  destruct (consume_causal_ok b id _ Hb (ck_known _ _ _ _ Hc) (ck_unused _ _ _ _ Hc)) as (I1 & G1 & _).
  rewrite <- Hs in I1, G1. assert (outer_inv (kb_delegate (causal s))) as O1 by (by rewrite Hs).
  pose proof (objective_consume_keeps (kl_objective_lease_id (cr_lease c)) token executor He Hex s) as Hk.
  destruct (kv_leases _ Hb _ _ (ck_known _ _ _ _ Hc)) as (_ & _ & e' & _ & [Hp Hprev] & _).
  rewrite (ck_event _ _ _ _ Hc) in Hp. injection Hp as <-.
  destruct (ledger_document_run _ (kv_ledger _ Hb)) as (d & Hd & Hdoc). rewrite (ck_state _ _ _ _ Hc) in Hd.
  injection Hd as <-.
  assert (str_item (cr_state c) "trajectory_head_sha256" = Ok (head_of (tl_events (kb_ledger b)))) as Hhead.
  { unfold str_item. by rewrite (proj2 (dict_item_ok _ _ _) (ld_head _ _ Hdoc)). }
  pose proof (head_of_sha _ (li_trajectory _ (kv_ledger _ Hb))) as Hhsha.
  unfold run_objective, self_causal. rewrite M_this. cbv zeta. rewrite M_attempt.
  set (n := length (ObjectiveEffectCommit.commit_receipts (kb_delegate (lget s)))).
  pose proof (fun o s2 => outer_consume_success (L := objective_in) (kl_objective_lease_id (cr_lease c)) token
    executor s o s2 (objective_silent He) (fun op s' => proj2 (Hex op s')) O1) as Hsucc.
  destruct (ObjectiveEffectCommit.consume_for_trusted_adapter _ token executor s) as [[o|exc] s2];
    cbn [snd] in Hk; destruct Hk as [Hk1 Hk2]; destruct (Hk1 I1) as (I2 & G2 & _); destruct (Hk2 O1) as (O2 & _).
  - destruct (Hsucc o s2 eq_refl) as (ol & _ & _ & _ & _ & _ & _ & _ & _ & Hre & _).
    unfold append_effect. rewrite M_attempt. pose proof (append_run (kl_proposal (cr_lease c)) s2 He) as Ha.
    destruct (append_verified_event _ s2) as [[a|ae] s3] eqn:Happ.
    + destruct Ha as (e' & He' & Hfresh & Hext & Hs3 & Hahead). rewrite (ck_event _ _ _ _ Hc) in He'.
      injection He' as <-.
      assert (tl_events (kb_ledger (causal s2)) = tl_events (kb_ledger b)) as Hsame.
      { apply (extension_same _ _ e (ck_extends _ _ _ _ Hc) Hext).
        etrans; [apply (lg_events _ _ (kg_ledger _ _ G1))|apply (lg_events _ _ (kg_ledger _ _ G2))]. }
      rewrite M_lift. unfold str_item. rewrite (proj2 (dict_item_ok _ _ _) Hahead), bind_Ok.
      destruct (latest_objective_run n s3) as (sha & Hrun & Hsha); [by rewrite Hs3|]. rewrite Hrun.
      destruct (causal_commit_run (cr_lease c) e (te_event_sha256 e) sha (cr_now c) "SUCCEEDED"
        (eo_result_sha256 o) ["trajectory_head_rechecked"; "trajectory_state_allow"; "projected_trajectory_allow";
         "causal_lease_consumed"; "objective_runtime_effect_committed"; "committed_event_appended";
         "effect_committed_under_shared_fence"] (ck_event _ _ _ _ Hc) (ck_now _ _ _ _ Hc)
        (parse_event_sha _ _ (ck_event _ _ _ _ Hc)) Hsha Hre) as (kc & Hkc & Hof & Hout & Hres & Hafter & _ & Hat).
      { by apply mem_true. }
      rewrite (append_causal_run _ _ _ _ _ _ _ _ _ Hkc). exists s3, kc, (Ok o). split; [done|].
      split; [|split; [done|split; [done|split]]].
      * split; rewrite Hs3; [|exact Hk2].
        refine (transitivity (R:=causal_keeps) Hk1 _).
        destruct (push_event_inv _ e (kv_ledger _ I2) Hfresh Hext) as [Hpi Hpg]. by apply ledger_keeps.
      * intros _. rewrite Hs3. cbn. rewrite Hsame. exists (tl_events (kb_ledger b)), [].
        split; [done|]. split; [|split; [done|apply (ck_projected _ _ _ _ Hc)]].
        rewrite (kr_head _ _ _ Hof). symmetry. apply (ck_head _ _ _ _ Hc).
      * by constructor.
    + rewrite Hhead, M_lift. destruct (latest_objective_run n s3) as (sha & Hrun & Hsha); [by rewrite Ha|].
      rewrite Hrun.
      destruct (causal_commit_run (cr_lease c) e (head_of (tl_events (kb_ledger b))) sha (cr_now c)
        "EFFECT_SUCCEEDED_EVIDENCE_FAILED" (eo_result_sha256 o)
        ["causal_lease_consumed"; "effect_succeeded"; "trajectory_append_failed"]
        (ck_event _ _ _ _ Hc) (ck_now _ _ _ _ Hc) Hhsha Hsha Hre)
        as (kc & Hkc & Hof & Hout & Hres & _ & _ & Hat).
      { by apply mem_true. }
      rewrite (append_causal_run _ _ _ _ _ _ _ _ _ Hkc). eexists s3, kc, _. split; [reflexivity|].
      split; [split; by rewrite Ha|]. split; [done|]. split; [done|]. split; [by rewrite Hout|].
      apply recorded_without_evidence; eauto.
  - rewrite Hhead, M_lift. destruct (latest_objective_run n s2 O2) as (sha & Hrun & Hsha). rewrite Hrun.
    destruct (causal_commit_run (cr_lease c) e (head_of (tl_events (kb_ledger b))) sha (cr_now c) "FAILED"
      (canonical_sha256 (JObj [("error_type", JStr (exn_name (exn_cls exc)))]))
      ["causal_lease_consumed"; "objective_bound_effect_failed"]
      (ck_event _ _ _ _ Hc) (ck_now _ _ _ _ Hc) Hhsha Hsha (canonical_sha256_sha _))
      as (kc & Hkc & Hof & Hout & _ & _ & _ & Hat).
    { by apply mem_true. }
    rewrite (append_causal_run _ _ _ _ _ _ _ _ _ Hkc). eexists s2, kc, _. split; [reflexivity|].
    split; [done|]. split; [done|]. split; [done|]. split; [by rewrite Hout|by constructor].
Qed.

Lemma run_objective_keeps id b c e token executor s : causal_silent_env ->
  (forall op, evolves host_causal_keeps (executor op)) -> causal_inv b -> outer_inv (kb_delegate b) ->
  causal_rechecked id b c e -> causal s = consume_causal id b ->
  let b' := causal (snd (run_objective c token executor s)) in
  (causal_inv b' /\ causal_grows b b' /\ unsettled_causal b' = unsettled_causal b)
  /\ outer_keeps (kb_delegate b) (kb_delegate b').
Proof.
  intros He Hex Hb Hob Hc Hs. cbv zeta.
  pose proof (run_objective_run id b c e token executor s He Hex Hb Hob Hc Hs) as Hr.
  destruct (ObjectiveEffectCommit.consume_for_trusted_adapter _ token executor s) as [inner s2].
  destruct Hr as (s3 & kc & r & -> & [Hk Hko] & Hof & Hat & Hin & Hrec). cbn [snd]. rewrite causal_put.
  destruct (consume_causal_ok b id _ Hb (ck_known _ _ _ _ Hc) (ck_unused _ _ _ _ Hc)) as (I1 & G1 & U1).
  rewrite <- Hs in I1, G1, U1. destruct (Hk I1) as (I2 & G2 & U2).
  assert (kb_leases (causal s) !! id = Some (burn_causal (cr_lease c))) as Hl.
  { rewrite Hs, (consume_causal_insert b id _ (ck_known _ _ _ _ Hc)). apply lookup_insert_eq. }
  destruct (causal_grows_lookup _ _ _ _ G2 Hl) as (l' & Hl' & Hsame & _). rewrite (Hsame eq_refl) in Hl'.
  destruct (kv_leases _ Hb _ _ (ck_known _ _ _ _ Hc)) as (_ & _ & e' & _ & [Hp Hprev] & _).
  rewrite (ck_event _ _ _ _ Hc) in Hp. injection Hp as <-.
  destruct (push_causal_ok (causal s3) kc I2) as (I3 & G3 & U3).
  { exists id, (burn_causal (cr_lease c)), e. split; [done|]. split; [done|].
    split; [split; [apply (ck_event _ _ _ _ Hc)|exact Hprev]|].
    split; [destruct Hof; by constructor|]. intros Hout. split; [|by apply Hin].
    rewrite Hat. apply (ck_time _ _ _ _ Hc). }
  split.
  - split; [done|]. split; [by eapply causal_grows_trans; [exact G1|]; eapply causal_grows_trans|]. lia.
  - change (outer_keeps (kb_delegate b) (kb_delegate (causal s3))). by rewrite Hs in Hko.
Qed.

Lemma causal_consume_keeps id token executor : causal_silent_env ->
  (forall op, evolves host_causal_keeps (executor op)) ->
  evolves (fun s s' => causal_inv (causal s) -> outer_inv (kb_delegate (causal s)) -> host_causal_keeps s s')
    (consume_for_trusted_adapter id token executor).
Proof.
  intros He Hex s Hb Hob.
  destruct (causal_consume_cases id s He Hb) as [(e & s' & Hs & Hrun)|(c & e & s' & Hs & Hc & Hrun)];
    rewrite Hrun.
  - cbn [snd]. destruct Hs as [Hs|Hr]; [by apply silent_keeps|].
    split; [by eapply refused_causal_keeps|]. destruct Hr as (l & e' & c & _ & _ & _ & _ & _ & ->).
    exact (reflexivity (R:=outer_keeps) _).
  - destruct (run_objective_keeps id _ c e token executor s' He Hex Hb Hob Hc Hs) as [H1 H2].
    split; [by intros _|exact H2].
Qed.

Lemma causal_containment_keeps (c : bool) sha :
  evolves host_causal_keeps (if c then enter_containment sha else exit_containment sha).
Proof.
  intros s. apply only_objective_keeps.
  - assert (evolves only_objective (if c then ObjectiveEffectCommit.enter_containment (L := objective_in) sha
      else ObjectiveEffectCommit.exit_containment (L := objective_in) sha)) as Hf.
    { apply outer_containment_frame; [typeclasses eauto|apply set_objective_only]. }
    specialize (Hf s). by destruct c.
  - pose proof (outer_containment_keeps (L := objective_in) c sha s) as Hk. by destruct c.
Qed.

Lemma ledger_append_keeps doc : causal_silent_env ->
  evolves host_causal_keeps (append_verified_event (L := ledger_in (V := V)) doc).
Proof.
  intros He s. pose proof (append_run doc s He) as Ha.
  destruct (append_verified_event doc s) as [[d|e] s']; cbn [snd]; [|by apply silent_keeps].
  destruct Ha as (e & _ & Hfresh & Hext & Hs & _). split; rewrite Hs; [|exact (reflexivity (R:=outer_keeps) _)].
  intros Hb. destruct (push_event_inv _ e (kv_ledger _ Hb) Hfresh Hext) as [? ?]. by apply ledger_keeps.
Qed.

(** One step of a host: a call of the causal broker or of its ledger, with executors that
    leave the brokers to their own methods, or host code that does. *)
Inductive causal_step (s : S) : S -> Prop :=
  | ks_append doc : causal_step s (snd (append_verified_event (L := ledger_in (V := V)) doc s))
  | ks_issue op cap decision doc : causal_step s (snd (issue_for_trusted_adapter op cap decision doc s))
  | ks_consume id token executor : (forall op, evolves host_causal_keeps (executor op)) ->
      causal_step s (snd (consume_for_trusted_adapter id token executor s))
  | ks_enter sha : causal_step s (snd (enter_containment sha s))
  | ks_exit sha : causal_step s (snd (exit_containment sha s))
  | ks_host s' : host_causal_keeps s s' -> causal_step s s'.

Definition both_inv s : Prop := causal_inv (causal s) /\ outer_inv (kb_delegate (causal s)).

Lemma causal_step_keeps s s' : causal_silent_env -> causal_step s s' -> both_inv s ->
  host_causal_keeps s s'.
Proof.
  intros He Hstep [Hb Hob]. destruct Hstep as [doc|op cap d doc|id token ex Hex|sha|sha|s' Hk].
  - by apply ledger_append_keeps.
  - by apply causal_issue_keeps.
  - by apply causal_consume_keeps.
  - apply (causal_containment_keeps true sha).
  - apply (causal_containment_keeps false sha).
  - done.
Qed.

Lemma causal_steps_keep s s' : causal_silent_env -> star causal_step s s' -> both_inv s ->
  host_causal_keeps s s' /\ both_inv s'.
Proof.
  intros He. induction 1 as [s|s1 s2 s3 _ IH Hstep]; intros Hb.
  - split; [reflexivity|done].
  - destruct (IH Hb) as [H12 Hb2]. pose proof (causal_step_keeps _ _ He Hstep Hb2) as H23.
    split; [by etrans|]. destruct Hb2 as [A O], H23 as [H1 H2].
    split; [by apply H1|by apply H2].
Qed.

(** The event [e] extends the trajectory [earlier] to one that is allowed, and the effect
    is on record with the causal and with the objective broker. *)
Definition causal_committed (earlier : list TrajectoryEvent) (e : TrajectoryEvent) s s'
    (op : RuntimeOperation) (o : ExecutionObservation) : Prop :=
  tl_events (kb_ledger (causal s')) = earlier ++ [e]
  /\ ed_decision (analysis (earlier ++ [e])) = "ALLOW"
  /\ te_subject_id e = ro_subject_id op /\ te_decision e = "ALLOW" /\ te_observed_at_unix e = ro_at_unix op
  /\ exists pre kc, kb_commits (causal s') = pre ++ [kc] /\ kb_commits (causal s) `prefix_of` pre
     /\ kc_operation_id kc = ro_operation_id op /\ kc_effect_outcome kc = "SUCCEEDED"
     /\ kc_result_sha256 kc = eo_result_sha256 o /\ kc_projected_event_sha256 kc = te_event_sha256 e
     /\ exists oc, oc ∈ ob_commits (kb_delegate (causal s')) /\ oc_operation_id oc = ro_operation_id op
        /\ oc_effect_outcome oc = "SUCCEEDED" /\ oc_result_sha256 oc = eo_result_sha256 o.

Lemma causal_commit_success op cap decision doc token executor s o s' : causal_silent_env ->
  (forall op, evolves host_causal_keeps (executor op)) -> both_inv s ->
  commit_authorized_effect op cap decision doc token executor s = (Ok o, s') ->
  exists e, _parse_event doc = Ok e /\ causal_committed (tl_events (kb_ledger (causal s))) e s s' op o.
Proof.
  intros He Hex [Hb Hob]. unfold commit_authorized_effect. rewrite M_bind_eq.
  pose proof (causal_issue_spec op cap decision doc s He Hb Hob) as Hs.
  destruct (issue_for_trusted_adapter op cap decision doc s) as [[r|e0] s1]; [|done].
  destruct Hs as (a & l & e & d & ol & Hs1 & Hd & Hi & Hol & Holop & ->). cbn [fst]. intros Hrun.
  destruct (causal_issued_keeps _ d op doc e a l Hb Hi Hb) as (Hb1 & G1 & _). rewrite <- Hs1 in Hb1, G1.
  assert (outer_inv (kb_delegate (causal s1))) as Hob1 by (rewrite Hs1; by apply Hd).
  destruct (causal_consume_cases (kl_causal_lease_id l) s1 He Hb1)
    as [(e0 & s2 & _ & Hr)|(c & e' & s2 & Hs2 & Hc & Hr)]; rewrite Hr in Hrun; [done|].
  assert (cr_lease c = l) as Hlease.
  { pose proof (ck_known _ _ _ _ Hc) as Hk. rewrite Hs1 in Hk. cbn in Hk. rewrite lookup_insert_eq in Hk.
    by injection Hk. }
  destruct (ci_proposal _ _ _ _ _ _ Hi) as [Hdoc [Hparse _]].
  assert (e' = e) as ->.
  { pose proof (ck_event _ _ _ _ Hc) as Hk. rewrite Hlease in Hk. congruence. }
  pose proof (run_objective_run _ _ c e token executor s2 He Hex Hb1 Hob1 Hc Hs2) as Hrec.
  pose proof (fun s3 => outer_consume_success (L := objective_in) (kl_objective_lease_id (cr_lease c)) token
    executor s2 o s3 (objective_silent He) (fun op s' => proj2 (Hex op s'))) as Hsucc.
  rewrite objective_outer, Hs2 in Hsucc. specialize (fun s3 => Hsucc s3 Hob1).
  destruct (ObjectiveEffectCommit.consume_for_trusted_adapter _ token executor s2) as [inner s3].
  destruct Hrec as (s4 & kc & r & Hrun' & [Hk4 Hko4] & Hof & _ & _ & Hrec). rewrite Hrun' in Hrun.
  injection Hrun as -> <-.
  inversion Hrec as [|o' Hout Hres Hsame Hs4|]; subst o'; subst inner.
  destruct (Hsucc s3 eq_refl) as (ol' & Hol' & pre & oc & Hocs & _ & Hocop & Hocout & Hocres & _).
  rewrite Hs1, Hlease in Hol'. cbn in Hol'. rewrite Hol in Hol'. injection Hol' as <-.
  assert (tl_events (kb_ledger (causal s4)) = tl_events (kb_ledger (causal s)) ++ [e]) as Hev.
  { rewrite Hs4. cbn. by rewrite Hsame, Hs1. }
  exists e. split; [congruence|]. unfold causal_committed. rewrite causal_put.
  cbn [push_causal_commit kb_ledger kb_commits kb_delegate].
  split; [exact Hev|]. split; [apply (ci_projected _ _ _ _ _ _ Hi)|].
  do 3 (split; [apply (ci_event _ _ _ _ _ _ Hi)|]).
  exists (kb_commits (causal s4)), kc. split; [done|].
  split.
  { etrans; [apply (kg_commits _ _ G1)|].
    destruct (consume_causal_ok _ _ _ Hb1 (ck_known _ _ _ _ Hc) (ck_unused _ _ _ _ Hc)) as (I2 & G2 & _).
    rewrite <- Hs2 in I2, G2. etrans; [apply (kg_commits _ _ G2)|]. by apply kg_commits, Hk4. }
  split; [rewrite (kr_operation _ _ _ Hof), Hlease, (ci_operation _ _ _ _ _ _ Hi); done|].
  split; [done|]. split; [done|]. split; [apply (kr_event _ _ _ Hof)|]. exists oc. rewrite Hs4. cbn.
  unfold outer in Hocs. cbn in Hocs. fold (causal s3) in Hocs. rewrite Hocs.
  split; [apply elem_of_app; right; by left|]. rewrite Hocop, Holop. done.
Qed.
End causal_calls.

(** *** Evidence of an effect *)
Section evidence.
Context {hash : Digest} {V W S : Type} {L : Lens S (CausalBoundEffectCommitBroker V W)}.
Context {env : EffectEnv S} {clock : OuterClock S} {kclock : CausalClock S}.
Context {verifier : EventVerifier W S}.
Implicit Types s : S.

(** The verifier answers [True] for the document. *)
Definition accepts (w : W) (doc : dict) : Prop :=
  forall s, exists s', verify_event_with w doc s = (Ok (JBool true), s').

Lemma append_accepted doc e s : causal_silent_env -> _parse_event doc = Ok e ->
  accepts (tl_verify_event (kb_ledger (causal s))) doc ->
  te_event_id e ∉ tl_event_ids (kb_ledger (causal s)) ->
  trajectory_ok (tl_events (kb_ledger (causal s)) ++ [e]) ->
  exists d, fst (append_verified_event (L := ledger_in (V := V)) doc s) = Ok d.
Proof.
  intros He Hp Hacc Hfresh Hok. unfold append_verified_event, extended_analysis, _verified_event.
  rewrite !M_assoc, M_lift, Hp, !M_assoc, M_this, !M_assoc, M_attempt, ledger_lget.
  pose proof (sk_verify He (tl_verify_event (kb_ledger (causal s))) doc s) as Hs1.
  destruct (Hacc s) as (s1 & Hv). rewrite Hv in Hs1 |- *. cbn [snd] in Hs1.
  rewrite M_bind_eq. cbn [mret M_ret]. rewrite M_assoc, M_this, M_assoc, M_lift, ledger_lget, Hs1.
  rewrite bool_decide_eq_false_2 by done. cbn [causal_if raise_if].
  rewrite M_assoc, M_lift, (proj2 (analyze_run _ _) (conj Hok eq_refl)), M_bind_eq. cbn [mret M_ret].
  rewrite M_set_this. destruct (appended_run e (tl_events (kb_ledger (causal s)) ++ [e])) as (d & Hd & _).
  exists d. unfold lift. by rewrite Hd.
Qed.

(** An effect that was committed: its event is appended exactly when the trajectory is
    still the one the lease was rechecked on. *)
Lemma evidence_exact id b c e token executor s o s2 : causal_silent_env ->
  (forall op, evolves host_causal_keeps (executor op)) -> causal_inv b -> outer_inv (kb_delegate b) ->
  causal_rechecked id b c e -> causal s = consume_causal id b ->
  accepts (tl_verify_event (kb_ledger b)) (kl_proposal (cr_lease c)) ->
  ObjectiveEffectCommit.consume_for_trusted_adapter (L := objective_in)
    (kl_objective_lease_id (cr_lease c)) token executor s = (Ok o, s2) ->
  let '(r, s') := run_objective c token executor s in
  exists pre kc, kb_commits (causal s') = pre ++ [kc] /\ kc_result_sha256 kc = eo_result_sha256 o
  /\ (tl_events (kb_ledger (causal s2)) = tl_events (kb_ledger b) ->
      r = Ok o /\ kc_effect_outcome kc = "SUCCEEDED"
      /\ tl_events (kb_ledger (causal s')) = tl_events (kb_ledger b) ++ [e])
  /\ (tl_events (kb_ledger (causal s2)) <> tl_events (kb_ledger b) ->
      r = Err (Exn CausalEffectCommitError "trajectory_append_failed_after_effect")
      /\ kc_effect_outcome kc = "EFFECT_SUCCEEDED_EVIDENCE_FAILED"
      /\ tl_events (kb_ledger (causal s')) = tl_events (kb_ledger (causal s2))).
Proof.
  intros He Hex Hb Hob Hc Hs Hacc Hinner.
  pose proof (run_objective_run id b c e token executor s He Hex Hb Hob Hc Hs) as Hr. rewrite Hinner in Hr.
  destruct Hr as (s3 & kc & r & Hrun & _ & _ & _ & _ & Hrec). rewrite Hrun.
  exists (kb_commits (causal s3)), kc. rewrite causal_put. split; [done|].
  inversion Hrec as [|o' Hout Hres Hsame Hs3|o' Hout Hres Hs3 [ae Happ]]; subst o'; subst r.
  - split; [done|]. split; [|done]. intros _. split; [done|]. split; [done|]. cbn. rewrite Hs3. cbn.
    by rewrite Hsame.
  - split; [done|]. split; [|intros _; split; [done|]; split; [done|]; cbn; by rewrite Hs3].
    intros Hsame. exfalso.
    destruct (consume_causal_ok b id _ Hb (ck_known _ _ _ _ Hc) (ck_unused _ _ _ _ Hc)) as (I1 & G1 & _).
    rewrite <- Hs in I1, G1.
    pose proof (objective_consume_keeps (kl_objective_lease_id (cr_lease c)) token executor He Hex s) as Hk.
    rewrite Hinner in Hk. cbn [snd] in Hk. destruct (proj1 Hk I1) as (I2 & G2 & _).
    destruct (append_accepted (kl_proposal (cr_lease c)) e s2 He (ck_event _ _ _ _ Hc)) as (d & Hd).
    + rewrite (lg_verifier _ _ (kg_ledger _ _ G2)), (lg_verifier _ _ (kg_ledger _ _ G1)). exact Hacc.
    + rewrite (li_ids _ (kv_ledger _ I2)), Hsame, <- (li_ids _ (kv_ledger _ Hb)). apply (ck_fresh _ _ _ _ Hc).
    + rewrite Hsame. apply (ck_extends _ _ _ _ Hc).
    + by rewrite Happ in Hd.
Qed.
End evidence.

(** *** The mediator *)
Section causal_mediated.
Context {hash : Digest} {V W P B G S : Type} {bops : BrokerOps B}.
Context {env : EffectEnv S} {clock : OuterClock S} {kclock : CausalClock S}.
Context {verifier : EventVerifier W S} {factory : ProposalFactory P S}.
Context {L : Lens S (CausalBoundEffectRuntimeMediator V W P B G)}.
Implicit Types s : S.

Let LK : Lens S (CausalBoundEffectCommitBroker V W) := causal_in (P := P) (B := B) (G := G).
#[local] Existing Instance LK.

(** The guard's verdict on the operation, and the host after it. *)
Definition causal_verdict op : M S dict :=
  on (H := causal_guard_in (V := V) (W := W) (P := P) (B := B) (G := G)) (evaluate_operation (V := V) op).

Definition causal_allows op s : Prop :=
  exists doc, fst (causal_verdict op s) = Ok doc /\ dict_get doc "decision" = Some (JStr "ALLOW").

(** A call of the base mediator leaves the effect brokers alone. *)
Lemma causal_base_silent {A} (m : M (RuntimeMediator B G) A) :
  causal_silent (on (H := causal_base_in (V := V) (W := W) (P := P)) m).
Proof. intros s. rewrite on_run. destruct (m _) as [r t]. unfold causal. cbn. by rewrite lget_lput. Qed.

Lemma finish_causal_shows op csha adm out rsha rs cid ssha :
  returns (fun doc => shows out rsha doc /\ dict_get doc "admission_decision" = Some (JStr adm))
    (finish_causal (V := V) (W := W) (P := P) (B := B) (G := G) op csha adm out rsha rs cid ssha : M S dict).
Proof.
  apply returns_on. unfold Mediation._finish. do 5 (apply returns_bind; intros ?). by apply returns_ret.
Qed.

Lemma request_causal_silent op scope gate :
  causal_silent (request_causal_capability (V := V) (W := W) (P := P) (B := B) (G := G) op scope gate).
Proof.
  unfold request_causal_capability. do 3 (evolve_step; [evolve_step|]). apply causal_base_silent.
Qed.

Lemma causal_verdict_keeps op s : host_causal_keeps s (snd (causal_verdict op s)).
Proof.
  apply only_objective_keeps.
  - unfold causal_verdict, only_objective. rewrite on_run. destruct (evaluate_operation op _) as [r t].
    unfold causal. cbn. by rewrite lget_lput.
  - exact (on_guard_keeps (L := objective_in) (evaluate_operation op) (operation_ok op) s).
Qed.

Lemma causal_mediate_success op executor s doc s' : causal_silent_env ->
  (forall op, evolves host_causal_keeps (executor op)) ->
  (forall p op cap, evolves host_causal_keeps (propose_with (P := P) p op cap)) -> both_inv s ->
  CausalBoundEffectRuntimeMediator_mediate op executor s = (Ok doc, s') ->
  dict_get doc "execution_outcome" = Some (JStr "SUCCEEDED") ->
  causal_allows op s
  /\ exists earlier e o, tl_events (kb_ledger (causal s)) `prefix_of` earlier
     /\ causal_committed earlier e s s' op o
     /\ dict_get doc "result_sha256" = Some (JStr (eo_result_sha256 o)).
Proof.
  intros He Hex Hprop Hb Hrun Hout.
  unfold CausalBoundEffectRuntimeMediator_mediate in Hrun.
  M_run Hrun. destruct (RuntimeOperation_validate op); [|done].
  M_run Hrun. destruct (normalized_scope op) as [scope|]; [|done]. cbv zeta in Hrun. M_run Hrun.
  destruct (rm_contained _); [apply finish_causal_shows in Hrun as [[Ho _] _]; congruence|].
  rewrite M_bind_eq in Hrun. unfold causal_allows. fold (causal_verdict op) in Hrun.
  pose proof (causal_verdict_keeps op s) as Hk1.
  destruct (causal_verdict op s) as [[gate|e] s1]; [|done]. cbn [fst snd] in *. M_run Hrun.
  destruct (str_item gate "decision") as [d|] eqn:Hd; [|done]. apply str_item_ok in Hd.
  destruct (String.eqb d "ALLOW") eqn:Ha; cbn [negb] in Hrun;
    [|apply finish_causal_shows in Hrun as [[Ho _] _]; congruence].
  apply String.eqb_eq in Ha as ->. split; [by exists gate|].
  rewrite M_bind_eq in Hrun. pose proof (request_causal_silent op scope gate s1) as Hs2.
  destruct (request_causal_capability op scope gate s1) as [[cap|e] s2]; [|done]. cbn [snd] in Hs2.
  M_run Hrun. destruct (dict_item cap "decision") as [v|]; [|done]. destruct (is_str v "ALLOW"); cbn [negb] in Hrun.
  2: { M_run Hrun. destruct (str_item _ _); [|done]. M_run Hrun. destruct (codes_item _ _); [|done].
       apply finish_causal_shows in Hrun as [[Ho _] _]. congruence. }
  unfold commit_proposed in Hrun. M_run Hrun. rewrite M_attempt, (M_bind_eq (propose_with _ _ _)) in Hrun.
  match type of Hrun with context [propose_with ?p op cap s2] =>
    pose proof (Hprop p op cap s2) as Hk3; destruct (propose_with p op cap s2) as [[proposal|e] s3] end.
  2: { M_run Hrun. destruct (str_item _ _); [|done]. M_run Hrun. destruct (opt_str _ _); [|done].
       apply finish_causal_shows in Hrun as [[Ho _] _]. congruence. }
  cbn [snd] in Hk3.
  pose proof (transitivity (R:=host_causal_keeps) Hk1 (transitivity (R:=host_causal_keeps) (silent_keeps _ _ Hs2) Hk3)) as [Hk Hko].
  destruct Hb as [Hb Hob]. destruct (Hk Hb) as (Hb3 & G3 & _). destruct (Hko Hob) as (Hob3 & _).
  destruct (commit_authorized_effect op cap gate proposal _ executor s3) as [[o|e] s4] eqn:Hcommit;
    M_run Hrun; (destruct (str_item _ _); [|done]); M_run Hrun; (destruct (opt_str _ _); [|done]);
    pose proof (finish_causal_shows _ _ _ _ _ _ _ _ _ _ _ Hrun) as [[Ho Hres] _]; [|congruence].
  match type of Hrun with finish_causal ?a ?b ?c ?d ?e ?f ?g ?h _ = _ =>
    pose proof (causal_base_silent (Mediation._finish a b c d e f g h None) s4) as Hs' end.
  unfold finish_causal in Hrun. rewrite Hrun in Hs'. cbn [snd] in Hs'.
  destruct (causal_commit_success op cap gate proposal _ executor s3 o s4 He Hex (conj Hb3 Hob3) Hcommit)
    as (e & _ & Hev & Hallow & H1 & H2 & H3 & pre & kc & Hkc & Hpre & Hrest).
  exists (tl_events (kb_ledger (causal s3))), e, o. split; [apply (lg_events _ _ (kg_ledger _ _ G3))|].
  split; [|done]. unfold causal_committed. rewrite Hs'. do 5 (split; [done|]).
  exists pre, kc. split; [done|]. split; [etrans; [apply (kg_commits _ _ G3)|done]|done].
Qed.
End causal_mediated.

Section causal_init.
Context {hash : Digest} {V W : Type}.

(** A broker over an empty ledger and an objective broker built by the constructors. *)
Definition causal_built (verify_event : W) (policy : ObjectiveMethodPolicy + dict)
    (bindings : option dict) (verifier : option V) (host token : string) (ttl : Z)
    (b : CausalBoundEffectCommitBroker V W) : Prop :=
  exists delegate, outer_built policy bindings verifier host token ttl delegate
    /\ b = CausalBoundEffectCommitBroker_init (FencedTrajectoryRiskLedger_init verify_event) delegate.

Lemma causal_built_inv verify_event policy bindings verifier host token ttl b :
  causal_built verify_event policy bindings verifier host token ttl b ->
  causal_inv b /\ outer_inv (kb_delegate b) /\ unsettled_causal b = 0
  /\ unsettled_outer (kb_delegate b) = 0.
Proof.
  intros (d & Hd & ->). destruct (outer_built_inv _ _ _ _ _ _ _ Hd) as (Hi & Hu & _).
  split; [|done]. constructor; cbn; [|done|constructor|constructor].
  constructor; [by apply verify_from_spec|done|by apply NoDup_nil_2].
Qed.
End causal_init.

(** ** Example values *)
#[local] Existing Instance checksum_digest.

Definition CausalHost : Type := CausalBoundEffectRuntimeMediator unit unit unit EpochHost unit.

Definition causal_lens : Lens CausalHost (CausalBoundEffectCommitBroker unit unit) :=
  causal_in (L := lens_id).

#[local] Instance causal_env : EffectEnv CausalHost := {
  env_clock s := (Ok 150, s);
  env_world s := (Ok runtime_document, s);
  env_session op s := (build_session_document op ZERO_SHA256 ZERO_SHA256 true, s);
  env_capabilities s := (op_state_document (rm_broker (km_base s)), s) }.

#[local] Instance causal_host_outer_clock : OuterClock CausalHost := { outer_clock s := (Ok 150, s) }.
#[local] Instance causal_host_clock : CausalClock CausalHost := { causal_clock s := (Ok 150, s) }.

(** A verifier that accepts every document, and a factory that proposes the next event. *)
#[local] Instance trusting : EventVerifier unit CausalHost := {
  verify_event_with _ _ s := (Ok (JBool true), s) }.

#[local] Instance next_event : ProposalFactory unit CausalHost := {
  propose_with _ op cap s :=
    (build_effect_trajectory_event op cap (event_count (lget (Lens := ledger_in (L := causal_lens)) s) + 1)
       (head_sha256 (lget (Lens := ledger_in (L := causal_lens)) s)) None, s) }.

Definition causal_host : CausalHost := {|
  km_base := RuntimeMediator_init objective_epoch_host None;
  km_causal_effect_broker := CausalBoundEffectCommitBroker_init (FencedTrajectoryRiskLedger_init tt)
    (ObjectiveBoundEffectCommitBroker_init objective_guard example_commit_broker);
  km_adapter_token := "token"; km_proposal_factory := tt |}.

Definition causal_mediated : result dict * CausalHost :=
  @CausalBoundEffectRuntimeMediator_mediate checksum_digest unit unit unit EpochHost unit CausalHost _ causal_env
    causal_host_outer_clock causal_host_clock trusting next_event (@lens_id CausalHost) objective_operation
    (@good_executor CausalHost) causal_host.

Example causal_mediated_succeeds :
  (doc ← fst causal_mediated; dict_item doc "execution_outcome") = Ok (JStr "SUCCEEDED").
Proof. vm_compute. reflexivity. Qed.

(** A decision that grants a capability, and the event proposed under it. *)
Definition causal_decision : dict := dict_set example_decision "receipt_sha256" (JStr SHA1111).

Definition causal_proposal (event_id : option string) : dict :=
  from_ok [] (build_effect_trajectory_event objective_operation causal_decision 1 ZERO_SHA256 event_id).

Definition causal_decided : result dict * CausalHost :=
  causal_verdict (L := lens_id) objective_operation causal_host.

Definition causal_issue : result (string * dict) * CausalHost :=
  issue_for_trusted_adapter (L := causal_lens) objective_operation causal_decision
    (from_ok [] (fst causal_decided)) (causal_proposal None) (snd causal_decided).

Definition causal_example_id : string := fst (from_ok ("", []) (fst causal_issue)).

Definition causal_consumed : result ExecutionObservation * CausalHost :=
  consume_for_trusted_adapter (L := causal_lens) causal_example_id "token" good_executor (snd causal_issue).

Example causal_consumed_succeeds : is_ok (fst causal_consumed) = true.
Proof. vm_compute. reflexivity. Qed.

Lemma causal_example_silent : causal_silent_env (L := causal_lens).
Proof. constructor; intros; intros s; reflexivity. Qed.

Lemma causal_good_executor op : evolves (host_causal_keeps (L := causal_lens)) (good_executor op).
Proof. intros s. apply silent_keeps. reflexivity. Qed.

Lemma causal_proposes p op cap :
  evolves (host_causal_keeps (L := causal_lens)) (propose_with (P := unit) p op cap).
Proof. intros s. apply silent_keeps. reflexivity. Qed.

Lemma causal_host_built : exists policy,
  causal_built tt (inl policy) None None ZERO_SHA256 (sha256_hex "token") 10
    (causal (L := causal_lens) causal_host).
Proof.
  destruct outer_host_built as [p Hp]. exists p. by eexists.
Qed.

Lemma causal_host_inv : both_inv (L := causal_lens) causal_host.
Proof. destruct causal_host_built as [p Hb]. by apply causal_built_inv in Hb as (? & ? & _). Qed.

Lemma causal_issue_reachable : star (causal_step (L := causal_lens)) causal_host (snd causal_issue).
Proof.
  apply (star_step _ causal_host (snd causal_decided)).
  - apply (star_step _ causal_host causal_host); [apply star_refl|].
    exact (ks_host (L := causal_lens) causal_host (snd causal_decided)
             (causal_verdict_keeps (L := lens_id) objective_operation causal_host)).
  - exact (ks_issue (L := causal_lens) (snd causal_decided) objective_operation causal_decision
             (from_ok [] (fst causal_decided)) (causal_proposal None)).
Qed.

Lemma causal_consumed_reachable : star (causal_step (L := causal_lens)) causal_host (snd causal_consumed).
Proof.
  eapply star_step; [apply causal_issue_reachable|]. unfold causal_consumed. apply ks_consume.
  apply causal_good_executor.
Qed.

Lemma causal_issue_inv : both_inv (L := causal_lens) (snd causal_issue).
Proof.
  destruct (causal_steps_keep (L := causal_lens) causal_host (snd causal_issue) causal_example_silent
    causal_issue_reachable causal_host_inv) as [_ H]. exact H.
Qed.

(** The recheck of the issued lease, and the host in which the lease is then burned. *)
Definition causal_example_recheck : result CausalRecheck * CausalHost :=
  causal_recheck (L := causal_lens) causal_example_id (snd causal_issue).

Definition causal_burned : CausalHost :=
  lput (Lens := causal_lens) (consume_causal causal_example_id
    (causal (L := causal_lens) (snd causal_example_recheck))) (snd causal_example_recheck).

Lemma causal_example_recheck_run :
  causal_recheck (L := causal_lens) causal_example_id (snd causal_issue) = causal_example_recheck.
Proof. exact (@eq_refl _ (causal_recheck (L := causal_lens) causal_example_id (snd causal_issue))). Qed.

Lemma causal_example_rechecked : exists c e, fst causal_example_recheck = Ok c
  /\ causal (L := causal_lens) (snd causal_example_recheck) = causal (L := causal_lens) (snd causal_issue)
  /\ causal_rechecked causal_example_id (causal (L := causal_lens) (snd causal_issue)) c e.
Proof.
  assert (is_ok (fst causal_example_recheck) = true) as Hok by (vm_compute; reflexivity).
  pose proof (causal_recheck_cases (L := causal_lens) causal_example_id (snd causal_issue) causal_example_silent
    (proj1 causal_issue_inv)) as Hcases.
  rewrite causal_example_recheck_run in Hcases.
  destruct causal_example_recheck as [r s'']. cbn [fst snd] in *.
  destruct Hcases as [(e & s' & Hr & _)|(c & e & s' & Hr & Hs & Hc)]; injection Hr as -> ->;
    [discriminate Hok|].
  exists c, e. split_and!; [reflexivity|exact Hs|exact Hc].
Qed.

(** An executor that reports success and meanwhile lets another event into the ledger. *)
Definition meddling_executor (op : RuntimeOperation) : M CausalHost exec_result :=
  _ ← append_verified_event (L := ledger_in (L := causal_lens)) (causal_proposal (Some "event:other"));
  good_executor op.

Lemma meddling_keeps op : evolves (host_causal_keeps (L := causal_lens)) (meddling_executor op).
Proof.
  unfold meddling_executor. generalize (causal_proposal (Some "event:other")). intros doc.
  evolve_step; [exact (ledger_append_keeps (L := causal_lens) doc causal_example_silent)|].
  apply causal_good_executor.
Qed.

Definition meddled (checked : result CausalRecheck) : result ExecutionObservation * CausalHost :=
  match checked with
  | Ok c => ObjectiveEffectCommit.consume_for_trusted_adapter (L := objective_in (L := causal_lens))
              (kl_objective_lease_id (cr_lease c)) "token" meddling_executor causal_burned
  | Err e => (Err e, causal_burned)
  end.

Example meddled_succeeds : is_ok (fst (meddled (fst causal_example_recheck))) = true.
Proof. vm_compute. reflexivity. Qed.

(** ** Properties *)

(** C8: consuming a causal lease either raises without touching the executor, with the
    broker unchanged or with the lease burned and the refusal on record, or it has
    rechecked that the lease is unused and in time, that the trajectory is allowed and has
    the head, the graph and the state the lease was issued in, and that the proposed event
    is new and extends it to a trajectory that is allowed as well; then the objective
    broker and the executor run in a state where the causal lease is already burned. *)
Theorem causal_commit_rechecks_then_records `{hash : Digest} {V W S : Type}
    `{L : Lens S (CausalBoundEffectCommitBroker V W)} `{env : EffectEnv S} `{clock : OuterClock S}
    `{kclock : CausalClock S} `{verifier : EventVerifier W S}
    (causal_lease_id : string) (s : S) (Henv : causal_silent_env) (Hinv : causal_inv (causal s)) :
  (exists e s', (causal s' = causal s \/ refused_causal causal_lease_id (causal s) (causal s'))
     /\ forall token executor, consume_for_trusted_adapter causal_lease_id token executor s = (Err e, s'))
  \/ exists c e s', causal s' = consume_causal causal_lease_id (causal s)
     /\ causal_rechecked causal_lease_id (causal s) c e
     /\ forall token executor, consume_for_trusted_adapter causal_lease_id token executor s
                               = run_objective c token executor s'.
Proof. by apply causal_consume_cases. Qed.

Lemma causal_commit_rechecks_then_records_witness :
  let s := snd causal_issue in
  (exists e s', (causal (L := causal_lens) s' = causal (L := causal_lens) s
      \/ refused_causal causal_example_id (causal (L := causal_lens) s) (causal (L := causal_lens) s'))
     /\ forall token executor,
          consume_for_trusted_adapter (L := causal_lens) causal_example_id token executor s = (Err e, s'))
  \/ exists c e s', causal (L := causal_lens) s' = consume_causal causal_example_id (causal (L := causal_lens) s)
     /\ causal_rechecked causal_example_id (causal (L := causal_lens) s) c e
     /\ forall token executor,
          consume_for_trusted_adapter (L := causal_lens) causal_example_id token executor s
          = run_objective (L := causal_lens) c token executor s'.
Proof.
  exact (@causal_commit_rechecks_then_records checksum_digest unit unit CausalHost causal_lens causal_env
    causal_host_outer_clock causal_host_clock trusting causal_example_id (snd causal_issue)
    causal_example_silent (proj1 causal_issue_inv)).
Defined.

(** C9: a causal-bound mediation that reports SUCCEEDED went through the whole chain: the
    guard allowed the operation, the trajectory ends with one event more, which stands for
    the operation (its subject and its time) and under which the analysis still allows the
    trajectory, and the effect is on record as SUCCEEDED, with the result the mediation
    receipt names, at the causal broker and at the objective broker. *)
Theorem causal_success_extends_the_trajectory `{hash : Digest} {V W P B G S : Type} `{BrokerOps B}
    `{env : EffectEnv S} `{clock : OuterClock S} `{kclock : CausalClock S}
    `{verifier : EventVerifier W S} `{factory : ProposalFactory P S}
    {L : Lens S (CausalBoundEffectRuntimeMediator V W P B G)}
    (op : RuntimeOperation) (executor : RuntimeOperation -> M S exec_result) (s s' : S) (doc : dict)
    (Henv : causal_silent_env (L := causal_in (V := V) (W := W) (P := P) (B := B) (G := G)))
    (Hex : forall op, evolves (host_causal_keeps
             (L := causal_in (V := V) (W := W) (P := P) (B := B) (G := G))) (executor op))
    (Hprop : forall p op cap, evolves (host_causal_keeps
               (L := causal_in (V := V) (W := W) (P := P) (B := B) (G := G))) (propose_with (P := P) p op cap))
    (Hinv : both_inv (L := causal_in (V := V) (W := W) (P := P) (B := B) (G := G)) s)
    (Hrun : CausalBoundEffectRuntimeMediator_mediate op executor s = (Ok doc, s'))
    (Hout : dict_get doc "execution_outcome" = Some (JStr "SUCCEEDED")) :
  causal_allows (V := V) (W := W) (P := P) (B := B) (G := G) op s
  /\ exists earlier e o,
       tl_events (kb_ledger (causal (L := causal_in (V := V) (W := W) (P := P) (B := B) (G := G)) s))
       `prefix_of` earlier
     /\ causal_committed (L := causal_in (V := V) (W := W) (P := P) (B := B) (G := G)) earlier e s s' op o
     /\ dict_get doc "result_sha256" = Some (JStr (eo_result_sha256 o)).
Proof. by eapply causal_mediate_success. Qed.

Lemma causal_mediated_run :
  CausalBoundEffectRuntimeMediator_mediate (S := CausalHost) (L := @lens_id CausalHost)
    objective_operation (@good_executor CausalHost) causal_host = causal_mediated.
Proof.
  exact (@eq_refl _ (CausalBoundEffectRuntimeMediator_mediate (S := CausalHost) (L := @lens_id CausalHost)
    objective_operation (@good_executor CausalHost) causal_host)).
Qed.

Lemma causal_success_extends_the_trajectory_witness :
  causal_allows (L := lens_id) objective_operation causal_host
  /\ exists earlier e o,
       tl_events (kb_ledger (causal (L := causal_lens) causal_host)) `prefix_of` earlier
     /\ causal_committed (L := causal_lens) earlier e causal_host (snd causal_mediated) objective_operation o
     /\ dict_get (from_ok [] (fst causal_mediated)) "result_sha256" = Some (JStr (eo_result_sha256 o)).
Proof.
  apply (@causal_success_extends_the_trajectory checksum_digest unit unit unit EpochHost unit CausalHost _
    causal_env causal_host_outer_clock causal_host_clock trusting next_event lens_id objective_operation
    good_executor causal_host (snd causal_mediated) (from_ok [] (fst causal_mediated))
    causal_example_silent causal_good_executor causal_proposes causal_host_inv).
  - assert (is_ok (fst causal_mediated) = true) as Hok by (vm_compute; reflexivity).
    rewrite causal_mediated_run. destruct causal_mediated as [[doc|e] s']; [reflexivity|discriminate Hok].
  - vm_compute. reflexivity.
Defined.

(** A causal lease is used at most once: in every reachable state each consumed causal
    lease has exactly one commit receipt, and so has each consumed lease of the objective
    broker; a causal lease once consumed is refused for ever with the broker unchanged. *)
Theorem causal_lease_used_at_most_once `{hash : Digest} {V W S : Type}
    `{L : Lens S (CausalBoundEffectCommitBroker V W)} `{env : EffectEnv S} `{clock : OuterClock S}
    `{kclock : CausalClock S} `{verifier : EventVerifier W S}
    (verify_event : W) (policy : ObjectiveMethodPolicy + dict) (bindings : option dict)
    (attestation : option V) (host token : string) (ttl : Z) (s0 s1 s2 : S) (id : string) (l : _CausalLease)
    (Henv : causal_silent_env)
    (Hbuilt : causal_built verify_event policy bindings attestation host token ttl (causal s0))
    (Hreach1 : star causal_step s0 s1) (Hreach2 : star causal_step s1 s2)
    (Hlease : kb_leases (causal s1) !! id = Some l) (Hused : kl_consumed l = true) :
  length (kb_commits (causal s1)) = size (consumed_causal (causal s1))
  /\ length (ob_commits (kb_delegate (causal s1))) = size (consumed_outer (kb_delegate (causal s1)))
  /\ kb_leases (causal s2) !! id = Some l
  /\ exists e s', causal s' = causal s2
     /\ forall token' executor, consume_for_trusted_adapter id token' executor s2 = (Err e, s').
Proof.
  destruct (causal_built_inv _ _ _ _ _ _ _ _ Hbuilt) as (Hi0 & Ho0 & Hu0 & Hv0).
  destruct (causal_steps_keep _ _ Henv Hreach1 (conj Hi0 Ho0)) as ([K1 O1] & Hb1).
  destruct (K1 Hi0) as (_ & _ & Hu1). destruct (O1 Ho0) as (_ & _ & Hv1 & _).
  destruct (causal_steps_keep _ _ Henv Hreach2 Hb1) as ([K2 _] & Hb2).
  destruct (K2 (proj1 Hb1)) as (_ & G2 & _).
  destruct (causal_grows_lookup _ _ _ _ G2 Hlease) as (l' & Hl' & Hsame & _). rewrite (Hsame Hused) in Hl'.
  split; [unfold unsettled_causal in *; lia|]. split; [unfold unsettled_outer in *; lia|]. split; [done|].
  destruct (causal_consume_cases id s2 Henv (proj1 Hb2))
    as [(e & s' & [Hs|Hr] & Hrun)|(c & e & s' & _ & Hc & _)].
  - by exists e, s'.
  - destruct Hr as (l0 & e0 & c & Hl0 & Hu & _). congruence.
  - pose proof (ck_known _ _ _ _ Hc). pose proof (ck_unused _ _ _ _ Hc). congruence.
Qed.

Lemma causal_lease_used_at_most_once_witness :
  let s := snd causal_consumed in
  exists l, length (kb_commits (causal (L := causal_lens) s)) = size (consumed_causal (causal (L := causal_lens) s))
  /\ length (ob_commits (kb_delegate (causal (L := causal_lens) s)))
     = size (consumed_outer (kb_delegate (causal (L := causal_lens) s)))
  /\ kb_leases (causal (L := causal_lens) s) !! causal_example_id = Some l
  /\ exists e s', causal (L := causal_lens) s' = causal (L := causal_lens) s
     /\ forall token executor,
          consume_for_trusted_adapter (L := causal_lens) causal_example_id token executor s = (Err e, s').
Proof.
  assert ((kl_consumed <$> kb_leases (causal (L := causal_lens) (snd causal_consumed)) !! causal_example_id)
          = Some true) as Hl by (vm_compute; reflexivity).
  cbv zeta. destruct (kb_leases (causal (L := causal_lens) (snd causal_consumed)) !! causal_example_id) as [l|] eqn:E; [|discriminate Hl].
  injection Hl as Hl. exists l. destruct causal_host_built as [p Hb].
  pose proof (@causal_lease_used_at_most_once checksum_digest unit unit CausalHost causal_lens causal_env
    causal_host_outer_clock causal_host_clock trusting tt (inl p) None None ZERO_SHA256 (sha256_hex "token") 10
    causal_host (snd causal_consumed) (snd causal_consumed) causal_example_id l causal_example_silent Hb
    causal_consumed_reachable (star_refl _ _) E Hl) as H. rewrite E in H. exact H.
Defined.

(** C23: in every reachable state the trajectory verifies and has no event twice, and each
    causal commit receipt verifies and is backed by an authorization receipt that verifies
    too, for the same lease, operation, trajectory head and projected event. The event of a
    success moreover is in the trajectory, right after the head it was authorized for, the
    trajectory up to it is one the analysis allows, and the commit lies in the time of the
    authorization. *)
Theorem causal_commits_are_in_the_trajectory `{hash : Digest} {V W S : Type}
    `{L : Lens S (CausalBoundEffectCommitBroker V W)} `{env : EffectEnv S} `{clock : OuterClock S}
    `{kclock : CausalClock S} `{verifier : EventVerifier W S}
    (verify_event : W) (policy : ObjectiveMethodPolicy + dict) (bindings : option dict)
    (attestation : option V) (host token : string) (ttl : Z) (s0 s : S) (c : CausalEffectCommitReceipt)
    (Henv : causal_silent_env)
    (Hbuilt : causal_built verify_event policy bindings attestation host token ttl (causal s0))
    (Hreach : star causal_step s0 s) (Hc : c ∈ kb_commits (causal s)) :
  trajectory_ok (tl_events (kb_ledger (causal s)))
  /\ NoDup (map te_event_id (tl_events (kb_ledger (causal s))))
  /\ verify_commit_receipt (CausalEffectCommitReceipt_as_document c)
     = Ok (CausalEffectCommitReceipt_as_document c)
  /\ exists a e, a ∈ kb_authorizations (causal s)
     /\ verify_authorization_receipt (CausalEffectAuthorizationReceipt_as_document a)
        = Ok (CausalEffectAuthorizationReceipt_as_document a)
     /\ kc_authorization_receipt_sha256 c = ka_receipt_sha256 a
     /\ kc_causal_lease_id_sha256 c = ka_causal_lease_id_sha256 a
     /\ kc_operation_id c = ka_operation_id a
     /\ kc_trajectory_head_before_sha256 c = ka_trajectory_head_sha256 a
     /\ kc_projected_event_sha256 c = te_event_sha256 e /\ ka_projected_event_sha256 a = te_event_sha256 e
     /\ (kc_effect_outcome c = "SUCCEEDED" ->
         ka_issued_at_unix a <= kc_committed_at_unix c <= ka_expires_at_unix a
         /\ in_trajectory (tl_events (kb_ledger (causal s))) e c).
Proof.
  destruct (causal_built_inv _ _ _ _ _ _ _ _ Hbuilt) as (Hi0 & Ho0 & _).
  destruct (causal_steps_keep _ _ Henv Hreach (conj Hi0 Ho0)) as (_ & [[Ht _ Hn] Hl Ha Hcs] & _).
  split; [done|]. split; [done|].
  rewrite Forall_forall in Hcs. destruct (Hcs c Hc) as (id & l & e & Hlook & _ & [Hp _] & Hr & Hs).
  split; [by eapply causal_commit_verifies|].
  destruct (Hl id l Hlook) as (_ & _ & e' & a & [Hp' _] & Hin & Hof). rewrite Hp in Hp'. injection Hp' as <-.
  exists a, e. split; [done|].
  rewrite Forall_forall in Ha. split; [by apply causal_authorization_verifies, Ha|].
  destruct Hr, Hof. do 6 (split; [congruence|]). intros Hout.
  destruct (Hs Hout) as (Hin1 & Hin2). split; [lia|done].
Qed.

Lemma causal_commits_are_in_the_trajectory_witness :
  let s := snd causal_consumed in
  exists c a e, c ∈ kb_commits (causal (L := causal_lens) s)
  /\ verify_commit_receipt (CausalEffectCommitReceipt_as_document c)
     = Ok (CausalEffectCommitReceipt_as_document c)
  /\ a ∈ kb_authorizations (causal (L := causal_lens) s)
  /\ kc_authorization_receipt_sha256 c = ka_receipt_sha256 a
  /\ in_trajectory (tl_events (kb_ledger (causal (L := causal_lens) s))) e c.
Proof.
  assert (map (fun c => String.eqb (kc_effect_outcome c) "SUCCEEDED")
    (kb_commits (causal (L := causal_lens) (snd causal_consumed))) = [true]) as Hl by (vm_compute; reflexivity).
  cbv zeta. destruct (kb_commits (causal (L := causal_lens) (snd causal_consumed))) as [|c l] eqn:E; [discriminate Hl|].
  injection Hl as Hout _. apply String.eqb_eq in Hout.
  assert (c ∈ kb_commits (causal (L := causal_lens) (snd causal_consumed))) as Hc by (rewrite E; left).
  destruct causal_host_built as [p Hb].
  destruct (@causal_commits_are_in_the_trajectory checksum_digest unit unit CausalHost causal_lens causal_env
    causal_host_outer_clock causal_host_clock trusting tt (inl p) None None ZERO_SHA256 (sha256_hex "token") 10
    causal_host (snd causal_consumed) c causal_example_silent Hb causal_consumed_reachable Hc)
    as (_ & _ & Hv & a & e & Ha & _ & Hauth & _ & _ & _ & _ & _ & Hs).
  destruct (Hs Hout) as (_ & Hin).
  exists c, a, e. split; [left|]. split; [exact Hv|]. split; [exact Ha|]. split; [exact Hauth|exact Hin].
Defined.

(** C10: once the objective broker has committed the effect and the verifier accepts the
    proposed event, the evidence is recorded exactly when the trajectory did not move
    meanwhile: then the call returns the observation, the commit is SUCCEEDED and the event
    is appended; otherwise it raises, the trajectory is left as it was found and the commit
    says that the effect succeeded and its evidence failed. Either way the commit receipt
    names the result of the effect. *)
Theorem effect_evidence_exact `{hash : Digest} {V W S : Type}
    `{L : Lens S (CausalBoundEffectCommitBroker V W)} `{env : EffectEnv S} `{clock : OuterClock S}
    `{kclock : CausalClock S} `{verifier : EventVerifier W S}
    (id : string) (b : CausalBoundEffectCommitBroker V W) (c : CausalRecheck) (e : TrajectoryEvent)
    (token : string) (executor : RuntimeOperation -> M S exec_result) (s s2 s' : S) (o : ExecutionObservation)
    (r : result ExecutionObservation)
    (Henv : causal_silent_env) (Hex : forall op, evolves host_causal_keeps (executor op))
    (Hinv : causal_inv b) (Hobj : outer_inv (kb_delegate b)) (Hchecked : causal_rechecked id b c e)
    (Hburned : causal s = consume_causal id b)
    (Hacc : accepts (tl_verify_event (kb_ledger b)) (kl_proposal (cr_lease c)))
    (Heffect : ObjectiveEffectCommit.consume_for_trusted_adapter (L := objective_in (V := V) (W := W))
                 (kl_objective_lease_id (cr_lease c)) token executor s = (Ok o, s2))
    (Hrun : run_objective c token executor s = (r, s')) :
  exists pre kc, kb_commits (causal s') = pre ++ [kc] /\ kc_result_sha256 kc = eo_result_sha256 o
  /\ (tl_events (kb_ledger (causal s2)) = tl_events (kb_ledger b) ->
      r = Ok o /\ kc_effect_outcome kc = "SUCCEEDED"
      /\ tl_events (kb_ledger (causal s')) = tl_events (kb_ledger b) ++ [e])
  /\ (tl_events (kb_ledger (causal s2)) <> tl_events (kb_ledger b) ->
      r = Err (Exn CausalEffectCommitError "trajectory_append_failed_after_effect")
      /\ kc_effect_outcome kc = "EFFECT_SUCCEEDED_EVIDENCE_FAILED"
      /\ tl_events (kb_ledger (causal s')) = tl_events (kb_ledger (causal s2))).
Proof.
  pose proof (evidence_exact id b c e token executor s o s2 Henv Hex Hinv Hobj Hchecked Hburned Hacc Heffect) as H.
  rewrite Hrun in H. exact H.
Qed.

Lemma effect_evidence_exact_witness : exists c kc r s', fst causal_example_recheck = Ok c
  /\ run_objective (L := causal_lens) c "token" meddling_executor causal_burned = (r, s')
  /\ r = Err (Exn CausalEffectCommitError "trajectory_append_failed_after_effect")
  /\ last (kb_commits (causal (L := causal_lens) s')) = Some kc
  /\ kc_effect_outcome kc = "EFFECT_SUCCEEDED_EVIDENCE_FAILED".
Proof.
  pose proof meddled_succeeds as Hok.
  assert (length (tl_events (kb_ledger (causal (L := causal_lens) (snd (meddled (fst causal_example_recheck))))))
          <> length (tl_events (kb_ledger (causal (L := causal_lens) (snd causal_issue))))) as Hmoved
    by (vm_compute; discriminate).
  destruct causal_example_rechecked as (c & e & Hrun & Hsame & Hc). rewrite Hrun in Hok, Hmoved.
  cbn [meddled] in Hok, Hmoved. exists c.
  destruct (ObjectiveEffectCommit.consume_for_trusted_adapter (L := objective_in (L := causal_lens))
    (kl_objective_lease_id (cr_lease c)) "token" meddling_executor causal_burned) as [[o|x] s2] eqn:Heff;
    [|discriminate Hok]. cbn [snd] in Hmoved.
  assert (causal (L := causal_lens) causal_burned
          = consume_causal causal_example_id (causal (L := causal_lens) (snd causal_issue))) as Hburned.
  { unfold causal_burned. rewrite causal_put. exact (f_equal (consume_causal causal_example_id) Hsame). }
  pose (f := run_objective (L := causal_lens) c "token" meddling_executor causal_burned).
  destruct (@effect_evidence_exact checksum_digest unit unit CausalHost causal_lens causal_env
    causal_host_outer_clock causal_host_clock trusting causal_example_id
    (causal (L := causal_lens) (snd causal_issue)) c e "token" meddling_executor causal_burned s2 (snd f) o
    (fst f) causal_example_silent meddling_keeps (proj1 causal_issue_inv) (proj2 causal_issue_inv) Hc Hburned
    (fun s => ex_intro _ s eq_refl) Heff (surjective_pairing f)) as (pre & kc & Hkc & _ & _ & Hno).
  destruct Hno as (Hr & Hout & _); [intros E; apply Hmoved; exact (f_equal length E)|].
  exists kc, (fst f), (snd f). split; [exact Hrun|]. split; [exact (surjective_pairing f)|].
  split; [exact Hr|]. split; [|exact Hout]. clearbody f. rewrite Hkc. apply last_snoc.
Defined.
