(* ===== verification/MultiAgent.v ===== *)
(** * Multi-agent delegation (sdk/liminal_multi_agent/__init__.py)

    Root grants, their monotonic delegation across subjects, use decisions, the
    revocation of a grant with everything delegated from it, and the analysis of a
    trajectory that several agents share. Grant documents carry values of the annotated
    types; others are refused when they are parsed. *)
From stdpp Require Import gmap.
From Stdlib Require Import Ascii.
From S2P Require Import Prelude PyStr Json Digest CapabilityBroker Escalation.
#[local] Open Scope Z_scope.

(** ** Constants *)
Definition SCHEMA : string := "liminal-multi-agent-governance-v0.1".

Definition AUTHORITY : dict :=
  [("mode", JStr "delegation_governance_only"); ("autonomous_agent_spawn", JBool false);
   ("execution", JBool false); ("credential_access", JBool false); ("deployment", JBool false);
   ("payments", JBool false); ("automatic_release", JBool false)].

(** [if b: raise MultiAgentError(msg)] *)
Definition agent_if (b : bool) (msg : string) : result unit := raise_if b MultiAgentError msg.

(** ** State *)
Record Grant := {
  gr_capability_id : string;
  gr_subject_id : string;
  gr_capability_type : string;
  gr_scope : dict;
  gr_issued_at_unix : Z;
  gr_expires_at_unix : Z;
  gr_max_uses : Z;
  gr_parent_capability_id : option string;
  gr_policy_sha256 : string;
  gr_status : string;
  gr_use_count : Z
}.

(** [Grant( **{**g.__dict__, "status": status, "use_count": use_count})] *)
Definition with_status (status : string) (g : Grant) : Grant := {|
  gr_capability_id := gr_capability_id g; gr_subject_id := gr_subject_id g;
  gr_capability_type := gr_capability_type g; gr_scope := gr_scope g;
  gr_issued_at_unix := gr_issued_at_unix g; gr_expires_at_unix := gr_expires_at_unix g;
  gr_max_uses := gr_max_uses g; gr_parent_capability_id := gr_parent_capability_id g;
  gr_policy_sha256 := gr_policy_sha256 g; gr_status := status; gr_use_count := gr_use_count g |}.

Definition with_use_count (use_count : Z) (g : Grant) : Grant := {|
  gr_capability_id := gr_capability_id g; gr_subject_id := gr_subject_id g;
  gr_capability_type := gr_capability_type g; gr_scope := gr_scope g;
  gr_issued_at_unix := gr_issued_at_unix g; gr_expires_at_unix := gr_expires_at_unix g;
  gr_max_uses := gr_max_uses g; gr_parent_capability_id := gr_parent_capability_id g;
  gr_policy_sha256 := gr_policy_sha256 g; gr_status := gr_status g; gr_use_count := use_count |}.

Record DelegationReceipt := {
  de_parent_capability_id : string;
  de_child_capability_id : string;
  de_parent_subject_id : string;
  de_child_subject_id : string;
  de_policy_sha256 : string;
  de_decision : string;
  de_reason_codes : list string;
  de_receipt_sha256 : string
}.

Definition DelegationReceipt_body (r : DelegationReceipt) : dict :=
  [("schema", JStr SCHEMA); ("parent_capability_id", JStr (de_parent_capability_id r));
   ("child_capability_id", JStr (de_child_capability_id r));
   ("parent_subject_id", JStr (de_parent_subject_id r));
   ("child_subject_id", JStr (de_child_subject_id r)); ("policy_sha256", JStr (de_policy_sha256 r));
   ("decision", JStr (de_decision r)); ("reason_codes", jstrs (de_reason_codes r));
   ("authority", JObj AUTHORITY)].

Definition DelegationReceipt_as_document (r : DelegationReceipt) : dict :=
  dict_set (DelegationReceipt_body r) "receipt_sha256" (JStr (de_receipt_sha256 r)).

Record MultiAgentGovernance := {
  mg_grants : gmap string Grant;
  mg_children : gmap string (gset string);
  mg_receipts : list DelegationReceipt
}.

Definition MultiAgentGovernance_init : MultiAgentGovernance :=
  {| mg_grants := ∅; mg_children := ∅; mg_receipts := [] |}.

(** [self._grants[g.capability_id] = g] *)
Definition put_grant (g : Grant) (m : MultiAgentGovernance) : MultiAgentGovernance :=
  {| mg_grants := <[gr_capability_id g := g]> (mg_grants m); mg_children := mg_children m;
     mg_receipts := mg_receipts m |}.

Definition children_of (m : MultiAgentGovernance) (id : string) : gset string :=
  default ∅ (mg_children m !! id).

(** [self._children.setdefault(id, set())] *)
Definition touch_children (id : string) (m : MultiAgentGovernance) : MultiAgentGovernance :=
  {| mg_grants := mg_grants m; mg_children := <[id := children_of m id]> (mg_children m);
     mg_receipts := mg_receipts m |}.

(** [self._children.setdefault(parent, set()).add(child)] *)
Definition add_child (parent child : string) (m : MultiAgentGovernance) : MultiAgentGovernance :=
  {| mg_grants := mg_grants m;
     mg_children := <[parent := {[child]} ∪ children_of m parent]> (mg_children m);
     mg_receipts := mg_receipts m |}.

Definition push_receipt (r : DelegationReceipt) (m : MultiAgentGovernance) : MultiAgentGovernance :=
  {| mg_grants := mg_grants m; mg_children := mg_children m; mg_receipts := mg_receipts m ++ [r] |}.

(** ** Helpers *)
Definition grant_keys : list string :=
  ["capability_id"; "subject_id"; "capability_type"; "scope"; "issued_at_unix"; "expires_at_unix";
   "max_uses"; "parent_capability_id"; "policy_sha256"].

Definition _parse (d : dict) : result Grant :=
  _ ← agent_if (negb (keys_are d grant_keys)) "grant schema mismatch";
  let str k := match dict_get_none d k with JStr s => Ok s | _ => fail TypeError k end in
  let int k := match dict_get_none d k with JInt z => Ok z | _ => fail TypeError k end in
  capability_id ← str "capability_id"; subject ← str "subject_id"; kind ← str "capability_type";
  scope ← (match dict_get_none d "scope" with JObj scope => Ok scope | _ => fail TypeError "scope" end);
  issued ← int "issued_at_unix"; expires ← int "expires_at_unix"; uses ← int "max_uses";
  parent ← (match dict_get_none d "parent_capability_id" with
            | JNull => Ok None | JStr s => Ok (Some s) | _ => fail TypeError "parent_capability_id" end);
  policy ← str "policy_sha256";
  Ok {| gr_capability_id := capability_id; gr_subject_id := subject; gr_capability_type := kind;
        gr_scope := scope; gr_issued_at_unix := issued; gr_expires_at_unix := expires;
        gr_max_uses := uses; gr_parent_capability_id := parent; gr_policy_sha256 := policy;
        gr_status := "active"; gr_use_count := 0 |}.

(** One iteration of the loop of [_scope_contains]. *)
Definition scope_value_contained (parent : dict) (k : string) (v : json) : result bool :=
  match dict_get parent k with
  | None => Ok false
  | Some pv => match v with
               | JList vs => match pv with JList pvs => list_subset vs pvs | _ => Ok false end
               | _ => Ok (py_eq pv v)
               end
  end.

Fixpoint _scope_contains (parent child : dict) : result bool :=
  match child with
  | [] => Ok true
  | (k, v) :: rest =>
      contained ← scope_value_contained parent k v;
      if contained : bool then _scope_contains parent rest else Ok false
  end.

(** The [while] loop of [_descendants], the top of the stack first; [None] when the fuel
    is spent. *)
Fixpoint descend (fuel : nat) (m : MultiAgentGovernance) (stack : list string) (seen : gset string)
    (out : list string) : option (result (list string)) :=
  match fuel with
  | O => None
  | S fuel' =>
      match stack with
      | [] => Some (Ok out)
      | cur :: stack' =>
          if bool_decide (cur ∈ seen) then Some (fail MultiAgentError "delegation cycle detected")
          else descend fuel' m (sorted_str (elements (children_of m cur)) ++ stack')
                 ({[cur]} ∪ seen) (out ++ [cur])
      end
  end.

(** The identifiers the loop can meet. *)
Definition known_ids (m : MultiAgentGovernance) (root : string) : gset string :=
  {[root]} ∪ ⋃ (snd <$> map_to_list (mg_children m)).

Definition _descendants (m : MultiAgentGovernance) (root : string) : result (list string) :=
  from_option id (fail ValueError "fuel")
    (descend (S (S (size (known_ids m root)))) m [root] ∅ []).

Definition _would_cycle (m : MultiAgentGovernance) (parent child : string) : result bool :=
  if bool_decide (is_Some (mg_grants m !! child)) then
    below ← _descendants m child;
    Ok (mem parent below)
  else Ok false.

(** ** Operations *)
Section multi_agent.
Context {hash : Digest}.

Definition seal_delegation (r : DelegationReceipt) : DelegationReceipt := {|
  de_parent_capability_id := de_parent_capability_id r;
  de_child_capability_id := de_child_capability_id r;
  de_parent_subject_id := de_parent_subject_id r; de_child_subject_id := de_child_subject_id r;
  de_policy_sha256 := de_policy_sha256 r; de_decision := de_decision r;
  de_reason_codes := de_reason_codes r;
  de_receipt_sha256 := canonical_sha256 (JObj (DelegationReceipt_body r)) |}.

Definition admit_root (document : dict) (at_unix : Z) : M MultiAgentGovernance dict :=
  g ← lift (_parse document);
  _ ← lift (agent_if (is_Some_b (gr_parent_capability_id g)) "root capability must not have a parent");
  _ ← lift (agent_if (negb ((gr_issued_at_unix g <=? at_unix) && (at_unix <? gr_expires_at_unix g)))
              "root outside validity window");
  _ ← modify (put_grant g);
  _ ← modify (touch_children (gr_capability_id g));
  mret [("decision", JStr "ALLOW"); ("capability_id", JStr (gr_capability_id g));
        ("reason_codes", jstrs ["root_admitted"])].

(** The grant a delegation is taken from. *)
Definition active_parent (m : MultiAgentGovernance) (child : Grant) : result Grant :=
  match gr_parent_capability_id child with
  | None => fail MultiAgentError "delegated capability requires parent"
  | Some id =>
      match mg_grants m !! id with
      | Some parent =>
          _ ← agent_if (negb (String.eqb (gr_status parent) "active")) "delegation parent is not active";
          Ok parent
      | None => fail MultiAgentError "delegation parent is not active"
      end
  end.

(** The checks of [delegate]. *)
Definition check_delegation (m : MultiAgentGovernance) (child : Grant) (at_unix : Z) : result Grant :=
  parent ← active_parent m child;
  _ ← agent_if (String.eqb (gr_capability_id child) (gr_capability_id parent))
        "self-delegation is forbidden";
  _ ← agent_if (String.eqb (gr_subject_id child) (gr_subject_id parent))
        "delegation must cross subjects";
  _ ← agent_if (negb (String.eqb (gr_capability_type child) (gr_capability_type parent))
                || negb (String.eqb (gr_policy_sha256 child) (gr_policy_sha256 parent)))
        "child authority differs from parent";
  _ ← agent_if ((gr_expires_at_unix parent <? gr_expires_at_unix child)
                || (gr_max_uses parent <? gr_max_uses child))
        "child validity or use bounds exceed parent";
  contained ← _scope_contains (gr_scope parent) (gr_scope child);
  _ ← agent_if (negb contained) "child scope exceeds parent";
  _ ← agent_if (negb ((gr_issued_at_unix child <=? at_unix) && (at_unix <? gr_expires_at_unix child)))
        "child outside validity window";
  cycle ← _would_cycle m (gr_capability_id parent) (gr_capability_id child);
  _ ← agent_if cycle "delegation cycle is forbidden";
  Ok parent.

Definition delegate (document : dict) (at_unix : Z) : M MultiAgentGovernance dict :=
  child ← lift (_parse document);
  self ← get_state;
  parent ← lift (check_delegation self child at_unix);
  _ ← modify (put_grant child);
  _ ← modify (add_child (gr_capability_id parent) (gr_capability_id child));
  _ ← modify (touch_children (gr_capability_id child));
  let item := seal_delegation {|
    de_parent_capability_id := gr_capability_id parent;
    de_child_capability_id := gr_capability_id child;
    de_parent_subject_id := gr_subject_id parent; de_child_subject_id := gr_subject_id child;
    de_policy_sha256 := gr_policy_sha256 child; de_decision := "ALLOW";
    de_reason_codes := ["monotonic_narrowing"; "delegation_admitted"]; de_receipt_sha256 := "" |} in
  _ ← modify (push_receipt item);
  mret (DelegationReceipt_as_document item).

(** [g] lets the subject use the scope now; the disjuncts in the order of the code. *)
Definition usable (g : Grant) (subject_id : string) (requested_scope : dict) (at_unix : Z) : result bool :=
  if negb (String.eqb (gr_status g) "active") || negb (String.eqb (gr_subject_id g) subject_id)
     || (gr_expires_at_unix g <=? at_unix) || (gr_max_uses g <=? gr_use_count g)
  then Ok false
  else _scope_contains (gr_scope g) requested_scope.

Definition default_deny : dict := [("decision", JStr "BLOCK"); ("reason_codes", jstrs ["default_deny"])].

Definition authorize (subject_id capability_id : string) (requested_scope : dict) (at_unix : Z)
    : M MultiAgentGovernance dict :=
  self ← get_state;
  match mg_grants self !! capability_id with
  | None => mret default_deny
  | Some g =>
      allowed ← lift (usable g subject_id requested_scope at_unix);
      if negb allowed then mret default_deny
      else
        _ ← modify (fun m => {| mg_grants := <[capability_id := with_use_count (gr_use_count g + 1) g]> (mg_grants m);
                                mg_children := mg_children m; mg_receipts := mg_receipts m |});
        mret [("decision", JStr "ALLOW"); ("reason_codes", jstrs ["delegated_scope_match"])]
  end.

(** One iteration of the loop of [revoke_tree]. *)
Definition revoke_one (out : list dict) (cid : string) : M MultiAgentGovernance (list dict) :=
  self ← get_state;
  g ← lift (match mg_grants self !! cid with Some g => Ok g | None => fail KeyError cid end);
  _ ← modify (fun m => {| mg_grants := <[cid := with_status "revoked" g]> (mg_grants m);
                          mg_children := mg_children m; mg_receipts := mg_receipts m |});
  mret (out ++ [[("capability_id", JStr cid); ("decision", JStr "ALLOW");
                 ("reason_codes", jstrs ["ancestor_revoke"])]]).

Definition revoke_tree (capability_id : string) (at_unix : Z) : M MultiAgentGovernance (list dict) :=
  self ← get_state;
  _ ← lift (agent_if (bool_decide (mg_grants self !! capability_id = None)) "unknown capability");
  below ← lift (_descendants self capability_id);
  fold_m revoke_one [] (rev below).

Definition analyze_collective (events : list TrajectoryEvent) : result dict :=
  let subjects := sorted_set (map te_subject_id events) in
  _ ← agent_if (length subjects <? 2)%nat "collective analysis requires at least two subjects";
  phase3 ← analyze_trajectory events;
  Ok (seal "receipt_sha256"
    [("schema", JStr "liminal-multi-agent-collective-decision-v0.1"); ("subjects", jstrs subjects);
     ("event_count", JInt (Z.of_nat (length events))); ("phase3", JObj phase3);
     ("authority", JObj AUTHORITY)]).
End multi_agent.

(** ** Lemmas *)

(** *** The traversal *)
Section traversal.
Implicit Types m : MultiAgentGovernance.

Lemma children_known m root x : children_of m x ⊆ known_ids m root.
Proof.
  intros c Hc. unfold children_of in Hc. destruct (mg_children m !! x) as [s|] eqn:Hs; [|by apply elem_of_empty in Hc].
  unfold known_ids. apply elem_of_union_r, elem_of_union_list. exists s. split; [|done].
  apply list_elem_of_fmap. exists (x, s). split; [done|]. by apply elem_of_map_to_list.
Qed.

(** Whatever the children are, the loop ends: each turn that goes on has seen one more of
    the known identifiers. *)
Lemma descend_terminates m root fuel stack seen out :
  Forall (fun x => x ∈ known_ids m root) stack -> (size (known_ids m root ∖ seen) < fuel)%nat ->
  is_Some (descend fuel m stack seen out).
Proof.
  revert stack seen out. induction fuel as [|fuel IH]; intros stack seen out Hst Hfuel; [lia|]. cbn.
  destruct stack as [|cur stack]; [by eexists|]. case_bool_decide as Hcur; [by eexists|].
  apply Forall_cons in Hst as [Hk Hst]. apply IH.
  - apply Forall_app. split; [|done]. apply Forall_forall. intros c Hc.
    apply elem_of_sorted_str, elem_of_elements in Hc. by eapply children_known.
  - assert (known_ids m root ∖ ({[cur]} ∪ seen) ⊂ known_ids m root ∖ seen) as Hlt%subset_size; [|lia].
    split; [set_solver|]. intros Hsub. specialize (Hsub cur). set_solver.
Qed.

Lemma descendants_total m root : exists r,
  descend (S (S (size (known_ids m root)))) m [root] ∅ [] = Some r /\ _descendants m root = r.
Proof.
  destruct (descend_terminates m root (S (S (size (known_ids m root)))) [root] ∅ []) as [r Hr].
  - constructor; [|constructor]. unfold known_ids. set_solver.
  - rewrite difference_empty_L. lia.
  - exists r. split; [done|]. unfold _descendants. by rewrite Hr.
Qed.

Lemma descend_more fuel extra m stack seen out r : descend fuel m stack seen out = Some r ->
  descend (fuel + extra) m stack seen out = Some r.
Proof.
  revert stack seen out. induction fuel as [|fuel IH]; intros stack seen out; cbn; [done|].
  destruct stack as [|cur stack]; [done|]. case_bool_decide; [done|]. apply IH.
Qed.

Lemma descendants_more_fuel m root extra :
  descend (S (S (size (known_ids m root))) + extra) m [root] ∅ [] = Some (_descendants m root).
Proof. destruct (descendants_total m root) as (r & Hr & ->). by apply descend_more. Qed.

(** What is delegated from a grant, directly or not, by the parents the grants name: the
    index of children that the traversal follows plays no part in it. *)
Inductive below m (root : string) : string -> Prop :=
  | below_root : below m root root
  | below_child p c g : below m root p -> mg_grants m !! c = Some g ->
      gr_parent_capability_id g = Some p -> below m root c.
End traversal.

(** *** The forest of grants *)

(** Each entry of the child's scope is one of the parent's: a list holds values of the
    parent's list, anything else is the parent's value. *)
Definition scope_within (parent child : dict) : Prop :=
  forall k v, (k, v) ∈ child -> exists pv, dict_get parent k = Some pv
    /\ match v with
       | JList vs => exists pvs, pv = JList pvs /\ forall x, x ∈ vs -> exists y, y ∈ pvs /\ py_eq x y = true
       | _ => py_eq pv v = true
       end.

Lemma scope_contains_within parent child : _scope_contains parent child = Ok true -> scope_within parent child.
Proof.
  induction child as [|[k0 v0] child IH]; intros H k v Hin; [by apply not_elem_of_nil in Hin|].
  cbn [_scope_contains] in H. apply bind_ok in H as ([] & Hv & H); [|done].
  apply elem_of_cons in Hin as [[= -> ->]|Hin]; [|by apply IH].
  unfold scope_value_contained in Hv. destruct (dict_get parent k0) as [pv|]; [|done]. exists pv. split; [done|].
  destruct v0 as [| | | |vs|]; try by injection Hv. destruct pv as [| | | |pvs|]; try done. exists pvs. split; [done|].
  unfold list_subset in Hv. apply bind_ok in Hv as ([] & _ & [= Hv]). intros w Hx.
  rewrite forallb_forall in Hv. apply list_elem_of_In, Hv, existsb_exists in Hx as (y & Hy & E).
  exists y. split; [by apply list_elem_of_In|done].
Qed.

(** The child's authority lies within its parent's. *)
Record within (parent child : Grant) : Prop := {
  wi_type : gr_capability_type child = gr_capability_type parent;
  wi_policy : gr_policy_sha256 child = gr_policy_sha256 parent;
  wi_subject : gr_subject_id child <> gr_subject_id parent;
  wi_expires : gr_expires_at_unix child <= gr_expires_at_unix parent;
  wi_uses : gr_max_uses child <= gr_max_uses parent;
  wi_scope : _scope_contains (gr_scope parent) (gr_scope child) = Ok true;
  wi_active : gr_status child = "active" -> gr_status parent = "active"
}.

Record forest (m : MultiAgentGovernance) : Prop := {
  fo_ids : forall id g, mg_grants m !! id = Some g -> gr_capability_id g = id;
  fo_children : forall p c, c ∈ children_of m p
    <-> exists g, mg_grants m !! c = Some g /\ gr_parent_capability_id g = Some p;
  fo_parent : forall c g p, mg_grants m !! c = Some g -> gr_parent_capability_id g = Some p ->
    exists gp, mg_grants m !! p = Some gp /\ within gp g;
  fo_rank : exists rank : string -> nat, forall c g p, mg_grants m !! c = Some g ->
    gr_parent_capability_id g = Some p -> (rank p < rank c)%nat;
  fo_uses : forall id g, mg_grants m !! id = Some g ->
    0 <= gr_use_count g /\ (gr_use_count g = 0 \/ gr_use_count g <= gr_max_uses g)
}.

(** The grant the state later has under the same identifier. *)
Record grant_grows (g g' : Grant) : Prop := {
  gg_same : g' = with_status (gr_status g') (with_use_count (gr_use_count g') g);
  gg_status : gr_status g' = gr_status g \/ gr_status g' = "revoked";
  gg_uses : gr_use_count g <= gr_use_count g'
}.

Definition grants_grow (m m' : MultiAgentGovernance) : Prop :=
  forall id g, mg_grants m !! id = Some g -> exists g', mg_grants m' !! id = Some g' /\ grant_grows g g'.

Lemma grant_grows_refl g : grant_grows g g.
Proof. constructor; [by destruct g|by left|lia]. Qed.

#[export] Instance grants_grow_preorder : PreOrder grants_grow.
Proof.
  split; [intros m id g Hg; exists g; split; [done|apply grant_grows_refl]|].
  intros m1 m2 m3 H12 H23 id g Hg. destruct (H12 id g Hg) as (g2 & H2 & [A1 B1 C1]).
  destruct (H23 id g2 H2) as (g3 & H3 & [A2 B2 C2]). exists g3. split; [done|]. constructor.
  - rewrite A2, A1. by destruct g, g2, g3.
  - destruct B2 as [->| ->]; [done|by right].
  - lia.
Qed.

Section forest_lemmas.
Implicit Types m : MultiAgentGovernance.

Lemma below_known m root x : forest m -> is_Some (mg_grants m !! root) -> below m root x ->
  is_Some (mg_grants m !! x).
Proof.
  intros _ Hr Hx. destruct Hx as [|p c g _ Hg _]; [done|]. by eexists.
Qed.

(** Authority never widens on the way down, and only live grants have live descendants. *)
Lemma below_within m root x g gr : forest m -> below m root x -> mg_grants m !! x = Some g ->
  mg_grants m !! root = Some gr ->
  gr_capability_type g = gr_capability_type gr /\ gr_policy_sha256 g = gr_policy_sha256 gr
  /\ gr_expires_at_unix g <= gr_expires_at_unix gr /\ gr_max_uses g <= gr_max_uses gr
  /\ (gr_status g = "active" -> gr_status gr = "active").
Proof.
  intros Hm Hx. revert g. induction Hx as [|p c g' Hp IH Hg' Hpar]; intros g Hg Hr.
  - rewrite Hr in Hg. injection Hg as <-. split_and!; [done|done|lia|lia|done].
  - rewrite Hg in Hg'. injection Hg' as <-.
    destruct (fo_parent _ Hm c g p Hg Hpar) as (gp & Hgp & [W1 W2 _ W4 W5 _ W7]).
    destruct (IH gp Hgp Hr) as (I1 & I2 & I3 & I4 & I5). split_and!; try congruence; try lia. auto.
Qed.

Lemma below_rank m root x rank : forest m ->
  (forall c g p, mg_grants m !! c = Some g -> gr_parent_capability_id g = Some p -> (rank p < rank c)%nat) ->
  below m root x -> (rank root <= rank x)%nat.
Proof.
  intros _ Hrank. induction 1 as [|p c g _ IH Hg Hp]; [done|]. specialize (Hrank c g p Hg Hp). lia.
Qed.

(** What the loop has done when [out] is listed and [stack] is still to visit. *)
Record visited m (root : string) (stack out : list string) : Prop := {
  vi_nodup : NoDup (out ++ stack);
  vi_below : forall x, x ∈ out ++ stack -> below m root x;
  vi_parent : forall x, x ∈ out ++ stack -> x = root
    \/ exists g p, mg_grants m !! x = Some g /\ gr_parent_capability_id g = Some p /\ p ∈ out;
  vi_closed : forall p c, p ∈ out -> c ∈ children_of m p -> c ∈ out ++ stack;
  vi_root : root ∈ out ++ stack
}.

Lemma visited_next m root cur stack out : forest m -> visited m root (cur :: stack) out ->
  visited m root (sorted_str (elements (children_of m cur)) ++ stack) (out ++ [cur]).
Proof.
  intros Hm [Hn Hb Hp Hc Hr]. set (ch := sorted_str _).
  assert (forall c, c ∈ ch <-> c ∈ children_of m cur) as Hch.
  { intros c. unfold ch. by rewrite elem_of_sorted_str, elem_of_elements. }
  assert (out ++ cur :: stack = (out ++ [cur]) ++ stack) as Happ by (by rewrite <- app_assoc).
  rewrite Happ in *. assert (below m root cur) as Hcur by (apply Hb; set_solver).
  assert (NoDup (out ++ [cur])) as Hnc by (by apply NoDup_app in Hn as (? & _)).
  assert (forall c, c ∈ ch -> c ∉ (out ++ [cur]) ++ stack) as Hnew.
  { intros c Hcc Hin. apply Hch, (fo_children _ Hm) in Hcc as (g & Hg & Hpar).
    destruct (Hp c Hin) as [->|(g' & p & Hg' & Hp' & Hpo)].
    - destruct (fo_rank _ Hm) as [rank Hrank]. pose proof (Hrank root g cur Hg Hpar).
      pose proof (below_rank m root cur rank Hm Hrank Hcur). lia.
    - rewrite Hg in Hg'. injection Hg' as <-. rewrite Hpar in Hp'. injection Hp' as <-.
      apply NoDup_app in Hnc as (_ & Hd & _). apply (Hd cur Hpo). by left. }
  constructor.
  - rewrite (Permutation_app_comm ch stack), app_assoc. apply NoDup_app. split; [done|].
    split; [|unfold ch; apply NoDup_sorted_str, NoDup_elements]. intros x Hx Hxc. by apply (Hnew x).
  - intros x Hx. destruct (decide (x ∈ ch)) as [Hxc|Hxc]; [|apply Hb; set_solver].
    apply Hch, (fo_children _ Hm) in Hxc as (g & Hg & Hpar). by apply (below_child m root cur x g).
  - intros x Hx. destruct (decide (x ∈ ch)) as [Hxc|Hxc].
    + apply Hch, (fo_children _ Hm) in Hxc as (g & Hg & Hpar). right. exists g, cur. set_solver.
    + destruct (Hp x) as [->|(g & p & Hg & Hpar & Hpo)]; [set_solver|by left|]. right. exists g, p. set_solver.
  - intros p c Hpo Hcc. apply elem_of_app in Hpo as [Hpo| ->%list_elem_of_singleton].
    + specialize (Hc p c Hpo Hcc). set_solver.
    + apply Hch in Hcc. set_solver.
  - set_solver.
Qed.

Lemma descend_visits m root fuel stack out r : forest m -> visited m root stack out ->
  descend fuel m stack (list_to_set out) out = Some r ->
  exists l, r = Ok l /\ NoDup l /\ forall x, x ∈ l <-> below m root x.
Proof.
  intros Hm. revert stack out. induction fuel as [|fuel IH]; intros stack out Hv; cbn; [done|].
  destruct stack as [|cur stack].
  - intros [= <-]. destruct Hv as [Hn Hb _ Hc Hr]. rewrite app_nil_r in *. exists out. split_and!; [done..|].
    intros x. split; [apply Hb|]. induction 1 as [|p c g _ Hp Hg Hpar]; [done|].
    apply (Hc p c Hp), (fo_children _ Hm). by exists g.
  - rewrite bool_decide_eq_false_2.
    + replace ({[cur]} ∪ list_to_set out) with (list_to_set (out ++ [cur]) : gset string)
        by (rewrite list_to_set_app_L; set_solver).
      apply IH. by apply visited_next.
    + rewrite elem_of_list_to_set. intros Hin. pose proof (vi_nodup _ _ _ _ Hv) as Hn.
      apply NoDup_app in Hn as (_ & Hd & _). apply (Hd cur Hin). by left.
Qed.

Lemma descendants_spec m root : forest m -> exists l, _descendants m root = Ok l /\ NoDup l
  /\ forall x, x ∈ l <-> below m root x.
Proof.
  intros Hm. destruct (descendants_total m root) as (r & Hr & ->).
  apply (descend_visits m root (S (S (size (known_ids m root)))) [root] [] r Hm); [|done]. constructor; cbn.
  - apply NoDup_singleton.
  - intros x ->%list_elem_of_singleton. apply below_root.
  - intros x ->%list_elem_of_singleton. by left.
  - intros p c Hp. by apply elem_of_nil in Hp.
  - by left.
Qed.
End forest_lemmas.

(** *** The operations keep the forest *)
Section operations.
Context {hash : Digest}.
Implicit Types m : MultiAgentGovernance.

Lemma parse_fresh d g : _parse d = Ok g -> gr_status g = "active" /\ gr_use_count g = 0.
Proof. unfold _parse, agent_if. intros H. py_inv. done. Qed.

Lemma admit_forest m m' g : forest m -> mg_grants m !! gr_capability_id g = None ->
  gr_use_count g = 0 -> mg_grants m' = <[gr_capability_id g := g]> (mg_grants m) ->
  (forall p c, c ∈ children_of m' p
     <-> c ∈ children_of m p \/ (c = gr_capability_id g /\ gr_parent_capability_id g = Some p)) ->
  (forall p, gr_parent_capability_id g = Some p -> exists gp, mg_grants m !! p = Some gp /\ within gp g) ->
  forest m' /\ grants_grow m m'.
Proof.
  intros Hm Hnew Hu Hg Hch Hpar. set (new := gr_capability_id g) in *.
  assert (forall c g', mg_grants m !! c = Some g' -> mg_grants m' !! c = Some g') as Hold.
  { intros c g' Hc. rewrite Hg, lookup_insert_ne; [done|]. intros <-. congruence. }
  split; [constructor|].
  - intros id g'. rewrite Hg. intros [[<- <-]|[_ H]]%lookup_insert_Some; [done|by apply (fo_ids _ Hm)].
  - intros p c. rewrite Hch, (fo_children _ Hm), Hg. split.
    + intros [(g' & Hc & Hp)|[-> Hp]]; [|exists g; by rewrite lookup_insert_eq].
      exists g'. split; [|done]. rewrite <- Hg. by apply Hold.
    + intros (g' & [[<- <-]|[_ H]]%lookup_insert_Some & Hp); [by right|]. left. by exists g'.
  - intros c g' p. rewrite Hg at 1. intros [[<- <-]|[_ H]]%lookup_insert_Some Hp.
    + destruct (Hpar p Hp) as (gp & Hgp & Hw). exists gp. by eauto.
    + destruct (fo_parent _ Hm c g' p H Hp) as (gp & Hgp & Hw). exists gp. by eauto.
  - destruct (fo_rank _ Hm) as [rank Hrank].
    exists (fun x => if decide (x = new) then match gr_parent_capability_id g with
                                             | Some p => S (rank p) | None => O end else rank x).
    intros c g' p. rewrite Hg. intros [[<- <-]|[Hne H]]%lookup_insert_Some Hp.
    + rewrite Hp, (decide_True (P := new = new)) by done. rewrite decide_False; [lia|]. intros ->.
      destruct (Hpar new Hp) as (gp & Hgp & _). congruence.
    + destruct (fo_parent _ Hm c g' p H Hp) as (gp & Hgp & _).
      rewrite !decide_False by congruence. by eapply Hrank.
  - intros id g'. rewrite Hg. intros [[<- <-]|[_ H]]%lookup_insert_Some; [lia|by eapply fo_uses].
  - intros id g' Hid. exists g'. split; [by apply Hold|apply grant_grows_refl].
Qed.

Lemma update_forest m m' : forest m -> mg_children m' = mg_children m -> grants_grow m m' ->
  (forall id g', mg_grants m' !! id = Some g' -> exists g, mg_grants m !! id = Some g /\ grant_grows g g'
     /\ (gr_use_count g' = gr_use_count g \/ 0 <= gr_use_count g' <= gr_max_uses g')) ->
  (forall c g p gp, mg_grants m' !! c = Some g -> gr_parent_capability_id g = Some p ->
     mg_grants m' !! p = Some gp -> gr_status g = "active" -> gr_status gp = "active") ->
  forest m'.
Proof.
  intros Hm Hch Hgrow Hback Hact. constructor.
  - intros id g' Hg'. destruct (Hback id g' Hg') as (g & Hg & [-> _ _] & _). cbn. by apply (fo_ids _ Hm).
  - intros p c. unfold children_of. rewrite Hch. fold (children_of m p). rewrite (fo_children _ Hm).
    split; intros (g & Hg & Hp).
    + destruct (Hgrow c g Hg) as (g' & Hg' & Hgg). exists g'. split; [done|]. by rewrite (gg_same _ _ Hgg).
    + destruct (Hback c g Hg) as (g0 & Hg0 & Hgg & _). exists g0. split; [done|].
      rewrite (gg_same _ _ Hgg) in Hp. done.
  - intros c g' p Hg' Hp. destruct (Hback c g' Hg') as (g & Hg & Hgg & _).
    assert (gr_parent_capability_id g = Some p) as Hp0 by (by rewrite (gg_same _ _ Hgg) in Hp).
    destruct (fo_parent _ Hm c g p Hg Hp0) as (gp & Hgp & [W1 W2 W3 W4 W5 W6 W7]).
    destruct (Hgrow p gp Hgp) as (gp' & Hgp' & Hggp). exists gp'. split; [done|].
    pose proof (Hact c g' p gp' Hg' Hp Hgp') as Ha.
    rewrite (gg_same _ _ Hgg), (gg_same _ _ Hggp) in *. by constructor.
  - destruct (fo_rank _ Hm) as [rank Hrank]. exists rank. intros c g' p Hg' Hp.
    destruct (Hback c g' Hg') as (g & Hg & Hgg & _). apply (Hrank c g p Hg).
    by rewrite (gg_same _ _ Hgg) in Hp.
  - intros id g' Hg'. destruct (Hback id g' Hg') as (g & Hg & Hgg & Hu).
    destruct (fo_uses _ Hm id g Hg) as [H0 H1]. destruct Hu as [Hu|Hu]; [|lia].
    rewrite Hu. split; [lia|]. destruct H1 as [H1|H1]; [by left|right].
    rewrite (gg_same _ _ Hgg). done.
Qed.

(** The document is not for a capability that is already known. *)
Definition fresh_document m (document : dict) : Prop :=
  forall g, _parse document = Ok g -> mg_grants m !! gr_capability_id g = None.

Definition keeps m m' : Prop := forest m -> forest m' /\ grants_grow m m'.

Lemma keeps_refl m : keeps m m.
Proof. by intros Hm. Qed.

Lemma children_touch id m p c : c ∈ children_of (touch_children id m) p <-> c ∈ children_of m p.
Proof.
  unfold children_of at 1, touch_children. cbn. destruct (decide (id = p)) as [->|Hne].
  - by rewrite lookup_insert_eq.
  - by rewrite lookup_insert_ne.
Qed.

Lemma children_add parent child m p c :
  c ∈ children_of (add_child parent child m) p <-> c ∈ children_of m p \/ (c = child /\ parent = p).
Proof.
  unfold children_of at 1, add_child. cbn. destruct (decide (parent = p)) as [->|Hne].
  - rewrite lookup_insert_eq. cbn. set_solver.
  - rewrite lookup_insert_ne by done. fold (children_of m p). set_solver.
Qed.

Lemma admit_root_keeps document at_unix m : fresh_document m document ->
  keeps m (snd (admit_root document at_unix m)).
Proof.
  intros Hf Hm. unfold admit_root, agent_if. rewrite M_lift.
  destruct (_parse document) as [g|e] eqn:Hp; [|by apply keeps_refl]. rewrite M_lift.
  destruct (gr_parent_capability_id g) as [p|] eqn:Hpar; cbn [is_Some_b raise_if]; [by apply keeps_refl|].
  rewrite M_lift. destruct (negb _); cbn [raise_if]; [by apply keeps_refl|]. rewrite !M_modify. cbn [snd mret M_ret].
  apply (admit_forest m _ g Hm); [by apply Hf|by eapply parse_fresh|done| |by rewrite Hpar].
  intros q c. rewrite children_touch. unfold children_of, put_grant. cbn. rewrite Hpar. naive_solver.
Qed.

Lemma check_delegation_within m child at_unix parent : check_delegation m child at_unix = Ok parent ->
  gr_status child = "active" -> exists id, gr_parent_capability_id child = Some id
  /\ mg_grants m !! id = Some parent /\ within parent child /\ gr_status parent = "active"
  /\ gr_issued_at_unix child <= at_unix < gr_expires_at_unix child.
Proof.
  unfold check_delegation, active_parent, agent_if. intros H Hact. py_inv.
  destruct (gr_parent_capability_id child) as [id|]; [|done]. exists id.
  destruct (mg_grants m !! id) as [gp|]; [|done]. py_inv.
  repeat match goal with
  | Hb : negb _ = false |- _ => apply negb_false_iff in Hb
  | Hb : _ || _ = false |- _ => apply orb_false_iff in Hb as [? ?]
  | Hb : _ && _ = true |- _ => apply andb_true_iff in Hb as [? ?]
  | Hb : String.eqb _ _ = true |- _ => apply String.eqb_eq in Hb
  | Hb : String.eqb _ _ = false |- _ => apply String.eqb_neq in Hb
  end; subst.
  split_and!; try done; try lia. constructor; try done; lia.
Qed.

Lemma delegate_keeps document at_unix m : fresh_document m document ->
  keeps m (snd (delegate document at_unix m)).
Proof.
  intros Hf Hm. unfold delegate. rewrite M_lift.
  destruct (_parse document) as [g|e] eqn:Hp; [|by apply keeps_refl]. rewrite M_get, M_lift.
  destruct (check_delegation m g at_unix) as [parent|e] eqn:Hc; [|by apply keeps_refl].
  rewrite !M_modify. cbn [snd mret M_ret].
  destruct (parse_fresh _ _ Hp) as [Ha Hu].
  destruct (check_delegation_within _ _ _ _ Hc Ha) as (id & Hpar & Hid & Hw & _).
  apply (admit_forest m _ g Hm); [by apply Hf|done|done| |].
  - intros q c. unfold push_receipt, children_of at 1. cbn. rewrite Hpar, (fo_ids _ Hm id parent Hid) in *.
    change (c ∈ children_of (touch_children (gr_capability_id g) (add_child id (gr_capability_id g) (put_grant g m))) q
            <-> c ∈ children_of m q \/ c = gr_capability_id g /\ Some id = Some q).
    rewrite children_touch, children_add. unfold children_of, put_grant. cbn. naive_solver.
  - intros q Hq. rewrite Hpar in Hq. injection Hq as <-. by exists parent.
Qed.

(** A delegation that returns adds the grant of its document, below the parent it names. *)
Lemma delegate_joins document at_unix m d m' : delegate document at_unix m = (Ok d, m') ->
  exists child parent, _parse document = Ok child /\ gr_parent_capability_id child = Some parent
  /\ mg_grants m' !! gr_capability_id child = Some child /\ below m' parent (gr_capability_id child).
Proof.
  unfold delegate. rewrite M_lift. destruct (_parse document) as [g|e] eqn:Hp; [|done]. rewrite M_get, M_lift.
  destruct (check_delegation m g at_unix) as [gp|e] eqn:Hc; [|done]. rewrite !M_modify. intros [= <- <-].
  destruct (parse_fresh _ _ Hp) as [Ha _]. destruct (check_delegation_within _ _ _ _ Hc Ha) as (id & Hpar & _).
  assert (<[gr_capability_id g := g]> (mg_grants m) !! gr_capability_id g = Some g) as Hg by apply lookup_insert_eq.
  exists g, id. split_and!; try done. by apply (below_child _ id id _ g); [apply below_root|..].
Qed.

(** What a use decision does: the same denial for everybody, or one more use. *)
Lemma agent_authorize_cases subject_id capability_id scope at_unix m :
  (exists r, authorize subject_id capability_id scope at_unix m = (r, m) /\ (forall d, r = Ok d -> d = default_deny))
  \/ exists g, mg_grants m !! capability_id = Some g /\ usable g subject_id scope at_unix = Ok true
     /\ authorize subject_id capability_id scope at_unix m
        = (Ok [("decision", JStr "ALLOW"); ("reason_codes", jstrs ["delegated_scope_match"])],
           {| mg_grants := <[capability_id := with_use_count (gr_use_count g + 1) g]> (mg_grants m);
              mg_children := mg_children m; mg_receipts := mg_receipts m |}).
Proof.
  unfold authorize. rewrite M_get. destruct (mg_grants m !! capability_id) as [g|].
  - rewrite M_lift. destruct (usable g subject_id scope at_unix) as [[]|e] eqn:Hu; cbn [negb].
    + right. by exists g.
    + left. eexists. split; [reflexivity|]. by intros d [= <-].
    + left. eexists. by split.
  - left. eexists. split; [reflexivity|]. by intros d [= <-].
Qed.

Lemma usable_true g subject_id scope at_unix : usable g subject_id scope at_unix = Ok true ->
  gr_status g = "active" /\ gr_subject_id g = subject_id /\ at_unix < gr_expires_at_unix g
  /\ gr_use_count g < gr_max_uses g /\ _scope_contains (gr_scope g) scope = Ok true.
Proof.
  unfold usable. destruct (_ || _) eqn:Hb; [done|]. intros Hs.
  repeat apply orb_false_iff in Hb as [Hb ?].
  repeat match goal with
  | Hb : negb _ = false |- _ => apply negb_false_iff, String.eqb_eq in Hb
  end. split_and!; [done|done|lia|lia|done].
Qed.

Lemma authorize_keeps subject_id capability_id scope at_unix m :
  keeps m (snd (authorize subject_id capability_id scope at_unix m)).
Proof.
  intros Hm. destruct (agent_authorize_cases subject_id capability_id scope at_unix m)
    as [(r & -> & _)|(g & Hg & Hu & ->)]; [by apply keeps_refl|]. cbn [snd].
  apply usable_true in Hu as (_ & _ & _ & Hlt & _). set (g1 := with_use_count _ g).
  destruct (fo_uses _ Hm _ _ Hg) as [H0 _].
  assert (grant_grows g g1) as Hgg by (constructor; [by destruct g|by left|cbn; lia]).
  assert (forall c g', <[capability_id := g1]> (mg_grants m) !! c = Some g' ->
    exists g0, mg_grants m !! c = Some g0 /\ gr_status g' = gr_status g0) as Hstat.
  { intros c g' [[<- <-]|[_ H]]%lookup_insert_Some; [by exists g|by exists g']. }
  match goal with |- forest ?x /\ _ => assert (grants_grow m x) as Hgrow end.
  { intros c g' Hc. cbn. destruct (decide (capability_id = c)) as [<-|Hne].
    - exists g1. rewrite lookup_insert_eq. split; [done|]. congruence.
    - exists g'. rewrite lookup_insert_ne by done. split; [done|apply grant_grows_refl]. }
  split; [|done].
  match goal with |- forest ?x => apply (update_forest m x Hm eq_refl Hgrow); cbn end.
  - intros c g' [[<- <-]|[_ H]]%lookup_insert_Some.
    + exists g. split; [done|]. split; [done|]. right. cbn. lia.
    + exists g'. split; [done|]. split; [apply grant_grows_refl|by left].
  - intros c g' p gp Hc Hp Hgp Ha. destruct (Hstat c g' Hc) as (g0 & Hg0 & E0).
    destruct (Hstat p gp Hgp) as (gp0 & Hgp0 & Ep). destruct (Hgrow c g0 Hg0) as (g2 & Hg2 & Hgg2).
    cbn in Hg2. rewrite Hc in Hg2. injection Hg2 as <-.
    rewrite (gg_same _ _ Hgg2) in Hp. cbn in Hp.
    destruct (fo_parent _ Hm c g0 p Hg0 Hp) as (gp1 & Hgp1 & Hw). rewrite Hgp0 in Hgp1. injection Hgp1 as <-.
    rewrite Ep. apply (wi_active _ _ Hw). congruence.
Qed.

Lemma revoke_one_run out cid g m : mg_grants m !! cid = Some g ->
  revoke_one out cid m
  = (Ok (out ++ [[("capability_id", JStr cid); ("decision", JStr "ALLOW");
                  ("reason_codes", jstrs ["ancestor_revoke"])]]),
     {| mg_grants := <[cid := with_status "revoked" g]> (mg_grants m); mg_children := mg_children m;
        mg_receipts := mg_receipts m |}).
Proof. intros Hg. unfold revoke_one. by rewrite M_get, M_lift, Hg, M_modify. Qed.

(** The loop of [revoke_tree] over known identifiers. *)
Lemma revoke_all l out m : (forall x, x ∈ l -> is_Some (mg_grants m !! x)) -> exists out' m',
  fold_m revoke_one out l m = (Ok out', m') /\ mg_children m' = mg_children m
  /\ map (fun d => dict_get d "capability_id") out'
     = map (fun d => dict_get d "capability_id") out ++ map (fun c => Some (JStr c)) l
  /\ forall x, mg_grants m' !! x = if decide (x ∈ l) then with_status "revoked" <$> mg_grants m !! x
                                   else mg_grants m !! x.
Proof.
  revert out m. induction l as [|cid l IH]; intros out m Hl; cbn [fold_m].
  - exists out, m. split; [done|]. split; [done|]. split; [by rewrite app_nil_r|]. intros x.
    rewrite decide_False; [done|apply not_elem_of_nil].
  - destruct (Hl cid) as [g Hg]; [by left|].
    rewrite M_bind_eq, (revoke_one_run out cid g m Hg). set (m1 := {| mg_grants := _ |}). set (out1 := out ++ _).
    destruct (IH out1 m1) as (out' & m' & Hrun & Hch & Hout & Hgr).
    { intros x Hx. cbn. destruct (decide (cid = x)) as [<-|Hne]; [rewrite lookup_insert_eq; by eexists|].
      rewrite lookup_insert_ne by done. apply Hl. by right. }
    exists out', m'. rewrite Hrun. split; [done|]. split; [done|]. split.
    + rewrite Hout. unfold out1. rewrite map_app, <- app_assoc. done.
    + intros x. rewrite Hgr. cbn [m1 mg_grants]. destruct (decide (cid = x)) as [<-|Hne].
      * rewrite lookup_insert_eq, Hg. rewrite (decide_True (P := cid ∈ cid :: l)) by (by left).
        by case_decide.
      * rewrite lookup_insert_ne by done. destruct (decide (x ∈ l)) as [Hx|Hx].
        -- by rewrite decide_True by (by right).
        -- rewrite decide_False; [done|]. intros [->|?]%elem_of_cons; done.
Qed.

Lemma revoke_tree_run capability_id at_unix m : forest m -> is_Some (mg_grants m !! capability_id) ->
  exists l docs m', NoDup l /\ (forall x, x ∈ l <-> below m capability_id x)
  /\ revoke_tree capability_id at_unix m = (Ok docs, m') /\ mg_children m' = mg_children m
  /\ map (fun d => dict_get d "capability_id") docs = map (fun c => Some (JStr c)) (rev l)
  /\ forall x, mg_grants m' !! x = if decide (x ∈ l) then with_status "revoked" <$> mg_grants m !! x
                                   else mg_grants m !! x.
Proof.
  intros Hm [g Hg]. destruct (descendants_spec m capability_id Hm) as (l & Hl & Hn & Hbelow).
  destruct (revoke_all (rev l) [] m) as (docs & m' & Hrun & Hch & Hdocs & Hgr).
  { intros x Hx. rewrite elem_of_rev in Hx. by eapply below_known, Hbelow. }
  exists l, docs, m'. split; [done|]. split; [done|]. split; [|split; [done|split; [done|]]].
  - unfold revoke_tree. rewrite M_get, M_lift, bool_decide_eq_false_2 by congruence.
    cbn [agent_if raise_if]. by rewrite M_lift, Hl.
  - intros x. rewrite Hgr. destruct (decide (x ∈ l)) as [Hx|Hx].
    + by rewrite decide_True by (by apply elem_of_rev).
    + rewrite decide_False; [done|]. by rewrite elem_of_rev.
Qed.

Lemma revoke_tree_keeps capability_id at_unix m : keeps m (snd (revoke_tree capability_id at_unix m)).
Proof.
  intros Hm. destruct (mg_grants m !! capability_id) as [g|] eqn:Hg.
  2: { unfold revoke_tree. rewrite M_get, M_lift, bool_decide_eq_true_2 by done. by apply keeps_refl. }
  destruct (revoke_tree_run capability_id at_unix m Hm) as (l & docs & m' & Hn & Hl & -> & Hch & _ & Hgr);
    [by eexists|]. cbn [snd].
  assert (grants_grow m m') as Hgrow.
  { intros c g' Hc. rewrite Hgr, Hc. destruct (decide (c ∈ l)) as [Hx|Hx]; eexists; (split; [reflexivity|]).
    - constructor; [by destruct g'|by right|cbn; lia].
    - apply grant_grows_refl. }
  split; [|done]. apply (update_forest m _ Hm Hch Hgrow).
  - intros c g' Hc. rewrite Hgr in Hc. destruct (decide (c ∈ l)) as [Hx|Hx].
    + apply fmap_Some in Hc as (g0 & Hg0 & ->). exists g0. split; [done|].
      split; [constructor; [by destruct g0|by right|cbn; lia]|by left].
    + exists g'. split; [done|]. split; [apply grant_grows_refl|by left].
  - intros c g' p gp Hc Hp Hgp Ha. rewrite Hgr in Hc, Hgp. destruct (decide (c ∈ l)) as [Hx|Hx].
    { apply fmap_Some in Hc as (g0 & _ & ->). discriminate Ha. }
    destruct (fo_parent _ Hm c g' p Hc Hp) as (gp0 & Hgp0 & Hw). rewrite decide_False in Hgp.
    + rewrite Hgp0 in Hgp. injection Hgp as <-. by apply (wi_active _ _ Hw).
    + intros Hpl. apply Hx, Hl, (below_child m capability_id p c g'); [by apply Hl|done|done].
Qed.

(** Calls that admit no capability twice. *)
Inductive agent_step m : MultiAgentGovernance -> Prop :=
  | as_root document at_unix : fresh_document m document ->
      agent_step m (snd (admit_root document at_unix m))
  | as_delegate document at_unix : fresh_document m document ->
      agent_step m (snd (delegate document at_unix m))
  | as_authorize subject_id capability_id scope at_unix :
      agent_step m (snd (authorize subject_id capability_id scope at_unix m))
  | as_revoke capability_id at_unix : agent_step m (snd (revoke_tree capability_id at_unix m)).

Lemma agent_step_keeps m m' : agent_step m m' -> keeps m m'.
Proof.
  intros [document at_unix Hf|document at_unix Hf|s c sc at_unix|c at_unix].
  - by apply admit_root_keeps.
  - by apply delegate_keeps.
  - apply authorize_keeps.
  - apply revoke_tree_keeps.
Qed.

Lemma agent_steps_keep m m' : star agent_step m m' -> keeps m m'.
Proof.
  induction 1 as [|m1 m2 m3 _ IH Hstep]; [apply keeps_refl|]. intros Hm.
  destruct (IH Hm) as [Hm2 G12]. destruct (agent_step_keeps _ _ Hstep Hm2) as [Hm3 G23].
  split; [done|by etrans].
Qed.

Lemma init_forest : forest MultiAgentGovernance_init.
Proof.
  constructor.
  - intros id g H. discriminate H.
  - intros p c. split; [intros H; by apply elem_of_empty in H|]. by intros (g & H & _).
  - intros c g p H. discriminate H.
  - exists (fun _ => O). intros c g p H. discriminate H.
  - intros id g H. discriminate H.
Qed.

(** A grant that is not active is denied to everybody. *)
Lemma inactive_denied m capability_id g subject_id scope at_unix :
  mg_grants m !! capability_id = Some g -> gr_status g <> "active" ->
  authorize subject_id capability_id scope at_unix m = (Ok default_deny, m).
Proof.
  intros Hg Hs. unfold authorize. rewrite M_get, Hg, M_lift. unfold usable.
  apply String.eqb_neq in Hs. by rewrite Hs.
Qed.
End operations.

(** ** Example values *)
#[local] Existing Instance checksum_digest.

Definition grant_document (id subject : string) (scope : list string) (parent : option string)
    (expires uses : Z) : dict :=
  [("capability_id", JStr id); ("subject_id", JStr subject); ("capability_type", JStr "process.execute");
   ("scope", JObj [("executables", jstrs scope)]); ("issued_at_unix", JInt 0);
   ("expires_at_unix", JInt expires); ("max_uses", JInt uses); ("parent_capability_id", jopt parent);
   ("policy_sha256", JStr ZERO_SHA256)].

Definition root_document : dict := grant_document "cap:root" "agent:1" ["git"; "make"] None 100 5.
Definition child_document : dict := grant_document "cap:child" "agent:2" ["git"] (Some "cap:root") 90 2.
Definition leaf_document : dict := grant_document "cap:leaf" "agent:3" ["git"] (Some "cap:child") 80 1.

Definition admitted : MultiAgentGovernance := snd (admit_root root_document 10 MultiAgentGovernance_init).
Definition delegated : MultiAgentGovernance := snd (delegate child_document 10 admitted).
Definition redelegated : MultiAgentGovernance := snd (delegate leaf_document 10 delegated).

Example redelegated_uses :
  fst (authorize "agent:3" "cap:leaf" [("executables", jstrs ["git"])] 20 redelegated)
  = Ok [("decision", JStr "ALLOW"); ("reason_codes", jstrs ["delegated_scope_match"])]
  /\ fst (authorize "agent:3" "cap:leaf" [("executables", jstrs ["make"])] 20 redelegated) = Ok default_deny.
Proof. vm_compute. split; reflexivity. Qed.

Lemma named_below m root p c : below m root p -> mg_grants m !! c ≫= gr_parent_capability_id = Some p ->
  below m root c.
Proof. intros Hp (g & Hg & Hpar)%bind_Some. by apply (below_child m root p c g). Qed.

Lemma leaf_below : below redelegated "cap:root" "cap:leaf".
Proof.
  apply (named_below _ _ "cap:child"); [apply (named_below _ _ "cap:root"); [apply below_root|]|];
    vm_compute; reflexivity.
Qed.

Lemma redelegated_reachable : star agent_step MultiAgentGovernance_init redelegated.
Proof.
  apply (star_step _ _ delegated); [apply (star_step _ _ admitted);
    [apply (star_step _ _ MultiAgentGovernance_init); [apply star_refl|]|]|].
  - apply as_root. intros g Hg. by vm_compute in Hg |- *.
  - apply as_delegate. intros g Hg. vm_compute in Hg. injection Hg as <-. by vm_compute.
  - apply as_delegate. intros g Hg. vm_compute in Hg. injection Hg as <-. by vm_compute.
Qed.

(** ** Properties *)



(** C11: as long as no capability is admitted twice, revoking a known capability always
    succeeds and reaches everything delegated from it, by the parents the grants name: the
    answer lists exactly the grants below it, each of them once, and from then on a use of any of them is denied to every
    subject, for every scope, with the state unchanged. *)
Theorem revocation_reaches_every_descendant `{hash : Digest} (m : MultiAgentGovernance)
    (capability_id : string) (at_unix : Z)
    (Hreach : star agent_step MultiAgentGovernance_init m)
    (Hknown : is_Some (mg_grants m !! capability_id)) :
  exists l docs m', NoDup l /\ (forall x, x ∈ l <-> below m capability_id x)
  /\ revoke_tree capability_id at_unix m = (Ok docs, m')
  /\ map (fun d => dict_get d "capability_id") docs = map (fun c => Some (JStr c)) (rev l)
  /\ forall m'' id subject_id scope at_unix', star agent_step m' m'' -> below m capability_id id ->
     authorize subject_id id scope at_unix' m'' = (Ok default_deny, m'').
Proof.
  destruct (agent_steps_keep _ _ Hreach init_forest) as [Hm _].
  destruct (revoke_tree_run capability_id at_unix m Hm Hknown) as (l & docs & m' & Hn & Hl & Hrun & _ & Hdocs & Hgr).
  exists l, docs, m'. do 4 (split; [done|]). intros m'' id subject_id scope at_unix' Hsteps Hid.
  pose proof (revoke_tree_keeps capability_id at_unix m Hm) as [Hm' _]. rewrite Hrun in Hm'. cbn [snd] in Hm'.
  destruct (agent_steps_keep _ _ Hsteps Hm') as [_ Hgrow].
  destruct (below_known m capability_id id Hm Hknown Hid) as [g Hg]. specialize (Hgr id).
  rewrite decide_True, Hg in Hgr by (by apply Hl).
  destruct (Hgrow id _ Hgr) as (g'' & Hg'' & Hgg). apply (inactive_denied m'' id g''); [done|].
  destruct (gg_status _ _ Hgg) as [-> | ->]; done.
Qed.

Lemma revocation_reaches_every_descendant_witness : exists l docs m',
  revoke_tree "cap:root" 30 redelegated = (Ok docs, m')
  /\ map (fun d => dict_get d "capability_id") docs = map (fun c => Some (JStr c)) (rev l)
  /\ authorize "agent:3" "cap:leaf" [("executables", jstrs ["git"])] 40 m' = (Ok default_deny, m').
Proof.
  assert (is_Some (mg_grants redelegated !! "cap:root")) as Hk by (vm_compute; by eexists).
  destruct (@revocation_reaches_every_descendant checksum_digest redelegated "cap:root" 30
    redelegated_reachable Hk) as (l & docs & m' & _ & _ & Hrun & Hdocs & Hdeny).
  exists l, docs, m'. split; [exact Hrun|]. split; [exact Hdocs|]. apply Hdeny; [apply star_refl|]. exact leaf_below.
Defined.

(** The traversal of the descendants ends in every state, whatever the delegations
    were: more fuel than one turn for every known identifier and two more never changes
    its answer. *)
Theorem descendants_end (m : MultiAgentGovernance) (root : string) (extra : nat) :
  descend (S (S (size (known_ids m root))) + extra) m [root] ∅ [] = Some (_descendants m root).
Proof. by apply descendants_more_fuel. Qed.

(** Nothing stops a capability from being admitted again under its identifier: a revoked
    capability comes back to life, and so does its authority. *)
Theorem revoked_capability_readmitted :
  let revoked := snd (revoke_tree "cap:root" 30 redelegated) in
  let use m := fst (authorize "agent:1" "cap:root" [("executables", jstrs ["git"])] 40 m) in
  use revoked = Ok default_deny
  /\ use (snd (admit_root root_document 35 revoked))
     = Ok [("decision", JStr "ALLOW"); ("reason_codes", jstrs ["delegated_scope_match"])].
Proof. vm_compute. split; reflexivity. Qed.

(** A capability delegated a second time, by another parent, is a child of both: the
    traversal from a common ancestor meets it twice, takes that for a cycle, and the
    ancestor can no longer be revoked. *)
Theorem second_parent_blocks_revocation :
  let other := snd (delegate (grant_document "cap:other" "agent:4" ["git"] (Some "cap:root") 90 2) 10 redelegated) in
  let twice := snd (delegate (grant_document "cap:leaf" "agent:3" ["git"] (Some "cap:other") 80 1) 10 other) in
  revoke_tree "cap:root" 30 twice = (Err (Exn MultiAgentError "delegation cycle detected"), twice)
  /\ fst (authorize "agent:3" "cap:leaf" [("executables", jstrs ["git"])] 40 twice)
     = Ok [("decision", JStr "ALLOW"); ("reason_codes", jstrs ["delegated_scope_match"])].
Proof. vm_compute. split; reflexivity. Qed.
