(* ===== verification/IsolatedExecution.v ===== *)
(** * Isolated execution (sdk/liminal_isolated_execution/__init__.py)

    The container profile, the execution plan with its path normalisation, and the broker
    that lets a trusted backend run exactly the plan a mediated operation is bound to. The
    backend is host code. *)
From stdpp Require Import gmap.
From Stdlib Require Import Ascii.
From S2P Require Import Prelude PyStr Json Digest CapabilityBroker BrokerInterface Escalation Mediation.
#[local] Open Scope Z_scope.

(** ** Constants *)
Definition SCHEMA : string := "liminal-isolated-execution-receipt-v0.1".
Definition PROFILE_SCHEMA : string := "liminal-container-isolation-profile-v0.1".

Definition AUTHORITY : dict :=
  [("mode", JStr "container_bound_process_execution_governance");
   ("runtime_mediation_required", JBool true); ("immutable_image_required", JBool true);
   ("workspace_read_only", JBool true); ("network_none", JBool true);
   ("drop_all_linux_capabilities", JBool true); ("no_new_privileges", JBool true);
   ("non_root_user", JBool true); ("trusted_backend_dispatch", JBool true);
   ("direct_host_subprocess_execution", JBool false); ("direct_docker_api_access", JBool false);
   ("direct_socket_creation", JBool false); ("direct_filesystem_mutation", JBool false);
   ("credential_material_access", JBool false); ("vm_isolation", JBool false);
   ("kernel_or_container_runtime_exploit_resistance", JBool false)].

(** [if b: raise IsolationError(msg)] *)
Definition isolation_if (b : bool) (msg : string) : result unit := raise_if b IsolationError msg.

(** [_IMAGE.fullmatch] *)
Definition image_match (s : string) : bool :=
  String.prefix "sha256:" s && re_sha (String.substring 7 (String.length s - 7) s).

(** ** Path normalisation (posixpath of the standard library) *)

(** The loop of [posixpath.normpath]; the components kept so far, the last one first. *)
Fixpoint normalize_components (rooted : bool) (kept comps : list string) : list string :=
  match comps with
  | [] => rev kept
  | comp :: rest =>
      if String.eqb comp "" || String.eqb comp "." then normalize_components rooted kept rest
      else if negb (String.eqb comp "..")
              || (negb rooted && bool_decide (kept = []))
              || (match kept with last :: _ => String.eqb last ".." | [] => false end)
      then normalize_components rooted (comp :: kept) rest
      else normalize_components rooted (tail kept) rest
  end.

Definition normpath (path : string) : string :=
  if String.eqb path "" then "." else
  let slashes := if String.prefix "///" path then "/"
                 else if String.prefix "//" path then "//"
                 else if String.prefix "/" path then "/" else "" in
  let normal := slashes +:+ join "/" (normalize_components (negb (String.eqb slashes "")) []
                                        (split_on "/" path)) in
  if String.eqb normal "" then "." else normal.

(** ** The profile *)
Record IsolationProfile := {
  ip_network_mode : string;
  ip_read_only_root : bool;
  ip_drop_all_capabilities : bool;
  ip_no_new_privileges : bool;
  ip_uid : Z;
  ip_gid : Z;
  ip_pids_limit : Z;
  ip_memory_mb : Z;
  ip_cpus : string;
  ip_tmpfs : string;
  ip_workspace_mode : string
}.

(** [IsolationProfile()] *)
Definition default_profile : IsolationProfile := {|
  ip_network_mode := "none"; ip_read_only_root := true; ip_drop_all_capabilities := true;
  ip_no_new_privileges := true; ip_uid := 65534; ip_gid := 65534; ip_pids_limit := 64;
  ip_memory_mb := 256; ip_cpus := "1.0"; ip_tmpfs := "/tmp:rw,nosuid,nodev,noexec,size=64m";
  ip_workspace_mode := "ro" |}.

Definition IsolationProfile_validate (p : IsolationProfile) : result unit :=
  _ ← isolation_if (negb (String.eqb (ip_network_mode p) "none")) "network_mode must be none";
  _ ← isolation_if (negb (ip_read_only_root p) || negb (ip_drop_all_capabilities p)
                    || negb (ip_no_new_privileges p)) "isolation hardening flags are mandatory";
  _ ← isolation_if (negb (String.eqb (ip_workspace_mode p) "ro"))
        "workspace must be read-only in this MVP";
  _ ← isolation_if ((ip_uid p =? 0) || (ip_gid p =? 0) || (ip_uid p <? 1) || (ip_gid p <? 1))
        "container must run as non-root uid/gid";
  _ ← isolation_if (negb ((1 <=? ip_pids_limit p) && (ip_pids_limit p <=? 256)))
        "pids_limit is outside bounded profile";
  _ ← isolation_if (negb ((32 <=? ip_memory_mb p) && (ip_memory_mb p <=? 1024)))
        "memory_mb is outside bounded profile";
  _ ← isolation_if (negb (mem (ip_cpus p) ["0.25"; "0.5"; "1.0"; "2.0"]))
        "cpus is outside bounded profile";
  isolation_if (negb (String.eqb (ip_tmpfs p) "/tmp:rw,nosuid,nodev,noexec,size=64m"))
    "tmpfs profile mismatch".

(** ** The plan *)
Record IsolatedExecutionPlan := {
  ie_operation_id : string;
  ie_image_id : string;
  ie_argv : list string;
  ie_host_workspace : string;
  ie_timeout_seconds : Z;
  ie_profile : IsolationProfile
}.

(** An argument of the command line, as the loop of [validate] wants it. *)
Definition argument_ok (arg : string) : bool :=
  negb (String.eqb arg "") && negb (contains_char "000" arg) && (py_len arg <=? 4096).

Definition IsolatedExecutionPlan_validate (p : IsolatedExecutionPlan) : result unit :=
  _ ← isolation_if (String.eqb (py_strip (ie_operation_id p)) "" || contains_char "000" (ie_operation_id p))
        "operation_id must be non-empty";
  _ ← isolation_if (negb (image_match (ie_image_id p)))
        "image_id must be immutable sha256:<64 lowercase hex>";
  _ ← isolation_if (bool_decide (ie_argv p = []) || (64 <? length (ie_argv p))%nat)
        "argv must contain 1..64 arguments";
  _ ← isolation_if (negb (forallb argument_ok (ie_argv p))) "argv contains an invalid argument";
  _ ← isolation_if (negb (String.prefix "/" (ie_host_workspace p))
                    || String.prefix "//" (ie_host_workspace p))
        "host_workspace must be one normalized absolute POSIX path";
  _ ← isolation_if (contains_char "000" (ie_host_workspace p) || contains_char "," (ie_host_workspace p)
                    || (4096 <? py_len (ie_host_workspace p)))
        "host_workspace contains unsupported characters";
  _ ← isolation_if (negb (String.eqb (ie_host_workspace p) (normpath (ie_host_workspace p))))
        "host_workspace must not contain dot, parent or redundant path segments";
  _ ← isolation_if (existsb (fun part => mem part ["."; ".."]) (split_on "/" (ie_host_workspace p)))
        "host_workspace contains forbidden relative path segments";
  _ ← isolation_if (negb ((1 <=? ie_timeout_seconds p) && (ie_timeout_seconds p <=? 120)))
        "timeout_seconds must be between 1 and 120";
  IsolationProfile_validate (ie_profile p).

Definition IsolatedExecutionPlan_build (operation_id image_id : string) (argv : list string)
    (host_workspace : string) (timeout_seconds : Z) (profile : option IsolationProfile)
    : result IsolatedExecutionPlan :=
  let item := {| ie_operation_id := operation_id; ie_image_id := image_id; ie_argv := argv;
                 ie_host_workspace := host_workspace; ie_timeout_seconds := timeout_seconds;
                 ie_profile := default default_profile profile |} in
  _ ← IsolatedExecutionPlan_validate item;
  Ok item.

(** ** Receipts *)
Record IsolatedExecutionReceipt := {
  ix_operation_id : string;
  ix_plan_sha256 : string;
  ix_isolation_profile_sha256 : string;
  ix_image_id : string;
  ix_mediation_receipt_sha256 : string;
  ix_admission_decision : string;
  ix_execution_outcome : string;
  ix_backend_invoked : bool;
  ix_receipt_sha256 : string
}.

Definition IsolatedExecutionReceipt_body (r : IsolatedExecutionReceipt) : dict :=
  [("schema", JStr SCHEMA); ("operation_id", JStr (ix_operation_id r));
   ("plan_sha256", JStr (ix_plan_sha256 r));
   ("isolation_profile_sha256", JStr (ix_isolation_profile_sha256 r));
   ("image_id", JStr (ix_image_id r));
   ("mediation_receipt_sha256", JStr (ix_mediation_receipt_sha256 r));
   ("admission_decision", JStr (ix_admission_decision r));
   ("execution_outcome", JStr (ix_execution_outcome r));
   ("backend_invoked", JBool (ix_backend_invoked r)); ("authority", JObj AUTHORITY)].

Definition IsolatedExecutionReceipt_as_document (r : IsolatedExecutionReceipt) : dict :=
  dict_set (IsolatedExecutionReceipt_body r) "receipt_sha256" (JStr (ix_receipt_sha256 r)).

(** ** The broker *)
Record IsolatedExecutionBroker (B G : Type) := {
  ib_mediator : RuntimeMediator B G;
  ib_receipts : list IsolatedExecutionReceipt
}.
Arguments ib_mediator {B G} _.
Arguments ib_receipts {B G} _.

Section broker_fields.
Context {B G : Type}.
Implicit Types b : IsolatedExecutionBroker B G.

Definition IsolatedExecutionBroker_init (mediator : RuntimeMediator B G)
    : IsolatedExecutionBroker B G :=
  {| ib_mediator := mediator; ib_receipts := [] |}.

Definition set_mediator (m : RuntimeMediator B G) b : IsolatedExecutionBroker B G :=
  {| ib_mediator := m; ib_receipts := ib_receipts b |}.

Definition push_receipt (r : IsolatedExecutionReceipt) b : IsolatedExecutionBroker B G :=
  {| ib_mediator := ib_mediator b; ib_receipts := ib_receipts b ++ [r] |}.

#[export] Program Instance mediator_field : Lens (IsolatedExecutionBroker B G) (RuntimeMediator B G) :=
  {| lget := ib_mediator; lput := set_mediator |}.
Next Obligation. done. Qed.
Next Obligation. by intros []. Qed.
Next Obligation. done. Qed.

Definition receipts b : list dict := map IsolatedExecutionReceipt_as_document (ib_receipts b).
End broker_fields.

Section isolated_execution.
Context {hash : Digest}.

Definition IsolationProfile_body (p : IsolationProfile) : result dict :=
  _ ← IsolationProfile_validate p;
  Ok [("schema", JStr PROFILE_SCHEMA); ("network_mode", JStr (ip_network_mode p));
      ("read_only_root", JBool (ip_read_only_root p));
      ("drop_all_capabilities", JBool (ip_drop_all_capabilities p));
      ("no_new_privileges", JBool (ip_no_new_privileges p)); ("uid", JInt (ip_uid p));
      ("gid", JInt (ip_gid p)); ("pids_limit", JInt (ip_pids_limit p));
      ("memory_mb", JInt (ip_memory_mb p)); ("cpus", JStr (ip_cpus p));
      ("tmpfs", JStr (ip_tmpfs p)); ("workspace_mode", JStr (ip_workspace_mode p))].

Definition profile_sha256 (p : IsolationProfile) : result string :=
  body ← IsolationProfile_body p;
  Ok (canonical_sha256 (JObj body)).

Definition safe_body (p : IsolatedExecutionPlan) : result dict :=
  _ ← IsolatedExecutionPlan_validate p;
  profile ← profile_sha256 (ie_profile p);
  Ok [("operation_id", JStr (ie_operation_id p)); ("image_id", JStr (ie_image_id p));
      ("argv_sha256", JStr (canonical_sha256 (jstrs (ie_argv p))));
      ("host_workspace_sha256", JStr (canonical_sha256 (JStr (ie_host_workspace p))));
      ("timeout_seconds", JInt (ie_timeout_seconds p)); ("profile_sha256", JStr profile)].

Definition plan_sha256 (p : IsolatedExecutionPlan) : result string :=
  body ← safe_body p;
  Ok (canonical_sha256 (JObj body)).

Definition payload_sha256 (p : IsolatedExecutionPlan) : result string :=
  sha ← plan_sha256 p;
  Ok (canonical_sha256 (JObj [("isolated_execution_plan_sha256", JStr sha)])).

Definition seal_isolated (r : IsolatedExecutionReceipt) : IsolatedExecutionReceipt := {|
  ix_operation_id := ix_operation_id r; ix_plan_sha256 := ix_plan_sha256 r;
  ix_isolation_profile_sha256 := ix_isolation_profile_sha256 r; ix_image_id := ix_image_id r;
  ix_mediation_receipt_sha256 := ix_mediation_receipt_sha256 r;
  ix_admission_decision := ix_admission_decision r; ix_execution_outcome := ix_execution_outcome r;
  ix_backend_invoked := ix_backend_invoked r;
  ix_receipt_sha256 := canonical_sha256 (JObj (IsolatedExecutionReceipt_body r)) |}.

(** [set(scope.get("executables", []))] holds the name. *)
Definition executable_in_scope (scope : dict) (name : string) : result bool :=
  match dict_get_or scope "executables" (JList []) with
  | JList items =>
      _ ← raise_if (negb (forallb hashable items)) TypeError "unhashable type";
      Ok (existsb (py_eq (JStr name)) items)
  | _ => fail TypeError "executables"
  end.

(** The checks of [execute] before the mediator is called. *)
Definition check_bound (operation : RuntimeOperation) (plan : IsolatedExecutionPlan) : result unit :=
  _ ← RuntimeOperation_validate operation;
  _ ← IsolatedExecutionPlan_validate plan;
  _ ← isolation_if (negb (String.eqb (ro_kind operation) "process.execute"))
        "isolated execution MVP only accepts process.execute";
  _ ← isolation_if (negb (String.eqb (ro_operation_id operation) (ie_operation_id plan)))
        "operation_id does not match isolated execution plan";
  scope ← normalized_scope operation;
  _ ← isolation_if (negb (is_str (dict_get_none scope "working_directory") "/workspace"))
        "isolated process working_directory must be /workspace";
  known ← match ie_argv plan with
          | executable :: _ => executable_in_scope scope executable
          | [] => fail (HostException "IndexError") "argv"
          end;
  _ ← isolation_if (negb known) "container executable is outside process capability scope";
  payload ← payload_sha256 plan;
  isolation_if (negb (String.eqb (ro_payload_sha256 operation) payload))
    "runtime payload is not bound to the isolated execution plan".

Section host.
Context {B G S : Type} {bops : BrokerOps B} {L : Lens S (IsolatedExecutionBroker B G)}.

Definition mediator_in : Lens S (RuntimeMediator B G) := lens_comp L mediator_field.

(** The part of [execute] after the mediation. *)
Definition record_execution (operation : RuntimeOperation) (plan : IsolatedExecutionPlan)
    (mediation : dict) : M S dict :=
  plan_sha ← lift (plan_sha256 plan);
  profile_sha ← lift (profile_sha256 (ie_profile plan));
  receipt_sha ← lift (str_item mediation "receipt_sha256");
  admission ← lift (str_item mediation "admission_decision");
  outcome ← lift (str_item mediation "execution_outcome");
  let receipt := seal_isolated {|
    ix_operation_id := ro_operation_id operation; ix_plan_sha256 := plan_sha;
    ix_isolation_profile_sha256 := profile_sha; ix_image_id := ie_image_id plan;
    ix_mediation_receipt_sha256 := receipt_sha; ix_admission_decision := admission;
    ix_execution_outcome := outcome; ix_backend_invoked := String.eqb admission "ALLOW";
    ix_receipt_sha256 := "" |} in
  _ ← set_this (T := IsolatedExecutionBroker B G) (push_receipt receipt);
  mret (IsolatedExecutionReceipt_as_document receipt).

Definition execute (backend : IsolatedExecutionPlan -> M S exec_result) (operation : RuntimeOperation)
    (plan : IsolatedExecutionPlan) : M S dict :=
  _ ← lift (check_bound operation plan);
  mediation ← mediate (L := mediator_in) operation (fun _ => backend plan);
  record_execution operation plan mediation.
End host.

Definition verify_receipt (document : dict) : result dict :=
  let raw := dict_del document "receipt_sha256" in
  let digest := dict_get_none document "receipt_sha256" in
  _ ← isolation_if (negb (is_str (dict_get_none raw "schema") SCHEMA)
                    || negb (py_eq (dict_get_none raw "authority") (JObj AUTHORITY)))
        "isolated execution receipt schema or authority mismatch";
  _ ← isolation_if (negb (is_str digest (canonical_sha256 (JObj raw))))
        "isolated execution receipt digest mismatch";
  Ok document.
End isolated_execution.

(** ** Lemmas *)

(** *** Paths *)
(** A component of a normal path. *)
Definition segment (comp : string) : Prop :=
  comp <> "" /\ comp <> "." /\ comp <> ".." /\ no_slash comp.

Lemma normalize_rooted kept comps : Forall segment kept -> Forall no_slash comps ->
  Forall segment (normalize_components true kept comps).
Proof.
  revert kept. induction comps as [|c comps IH]; intros kept Hk; cbn [normalize_components].
  - intros _. by apply Forall_rev.
  - intros [Hc Hcs]%Forall_cons.
    destruct (String.eqb_spec c ""), (String.eqb_spec c "."); cbn [orb]; try by apply IH.
    cbn [negb andb]. destruct (String.eqb_spec c "..") as [->|]; cbn [negb orb].
    + assert (match kept with [] => false | top :: _ => String.eqb top ".." end = false) as ->.
      { destruct kept as [|top kept]; [done|]. apply Forall_cons in Hk as [(_ & _ & Ht & _) _].
        by apply String.eqb_neq. }
      cbn [orb]. apply IH; [|done]. destruct kept; [done|]. by apply Forall_cons in Hk as [_ ?].
    + apply IH; [|done]. by constructor.
Qed.

Lemma normalize_segments kept comps : Forall segment comps ->
  normalize_components true kept comps = rev kept ++ comps.
Proof.
  revert kept. induction comps as [|c comps IH]; intros kept; cbn [normalize_components].
  - intros _. by rewrite app_nil_r.
  - intros [(H1 & H2 & H3 & _) Hc]%Forall_cons.
    apply String.eqb_neq in H1, H2, H3. rewrite H1, H2, H3. cbn [orb negb]. rewrite IH by done. cbn.
    by rewrite <- app_assoc.
Qed.

Lemma prefix_cons a p c s : String.prefix (String a p) (String c s)
  = if ascii_dec a c then String.prefix p s else false.
Proof. done. Qed.

Lemma normpath_rooted s : String.prefix "//" (String "/" s) = false ->
  normpath (String "/" s) = String "/" (join "/" (normalize_components true [] (split_on "/" s))).
Proof.
  intros H2. unfold normpath. replace (String.eqb (String "/" s) "") with false by done.
  assert (String.prefix "///" (String "/" s) = false) as ->.
  { rewrite !prefix_cons in *. destruct s as [|c s]; [done|]. rewrite prefix_cons in H2 |- *.
    destruct (ascii_dec "/" c); [by destruct s|done]. }
  rewrite H2. replace (String.prefix "/" (String "/" s)) with true by (by destruct s).
  cbv zeta. replace (String.eqb "/" "") with false by done. cbn [negb].
  replace (split_on "/" (String "/" s)) with ("" :: split_on "/" s) by done.
  cbn [normalize_components]. replace (String.eqb "" "") with true by done. done.
Qed.

(** An absolute path in normal form. *)
Definition normal_path (path : string) : Prop :=
  exists comps, Forall segment comps /\ path = String "/" (join "/" comps).

Lemma prefix_slash s : String.prefix "/" s = true <-> exists s', s = String "/" s'.
Proof.
  destruct s as [|c s]; [split; [done|]; by intros (? & ?)|]. rewrite prefix_cons.
  destruct (ascii_dec "/" c) as [<-|Hne].
  - split; [by exists s|]. by destruct s.
  - split; [done|]. by intros (s' & [= -> _]).
Qed.

Lemma join_segments_split comps : Forall segment comps ->
  split_on "/" (join "/" comps) = if decide (comps = []) then [""] else comps.
Proof.
  intros Hc. case_decide as H; [by rewrite H|]. apply split_join; [|done].
  eapply Forall_impl; [exact Hc|]. by intros c (_ & _ & _ & ?).
Qed.

(** The path checks of [validate] accept exactly the absolute paths in normal form. *)
Lemma workspace_accepted w :
  (String.prefix "/" w = true /\ String.prefix "//" w = false /\ w = normpath w
   /\ existsb (fun part => mem part ["."; ".."]) (split_on "/" w) = false) <-> normal_path w.
Proof.
  split.
  - intros ((s & ->)%prefix_slash & H2 & Hn & _). rewrite normpath_rooted in Hn by done. rewrite Hn.
    eexists. split; [|reflexivity]. apply normalize_rooted; [done|]. apply split_no_slash.
  - intros (comps & Hc & ->).
    assert (String.prefix "//" (String "/" (join "/" comps)) = false) as H2.
    { destruct comps as [|c comps]; [done|]. apply Forall_cons in Hc as [(H1 & _ & _ & Hs) _].
      destruct c as [|a c]; [done|]. apply no_slash_cons in Hs as [Hs _].
      rewrite prefix_cons. destruct comps as [|c' comps]; cbn [join]; rewrite ?str_cons_app, prefix_cons;
        by destruct (ascii_dec "/" a) as [<-|]. }
    split; [by apply prefix_slash; eexists|]. split; [done|]. split.
    + rewrite normpath_rooted, join_segments_split by done. case_decide as Hd; [by rewrite Hd|].
      by rewrite normalize_segments.
    + change (split_on "/" (String "/" (join "/" comps))) with ("" :: split_on "/" (join "/" comps)).
      rewrite join_segments_split by done. cbn [existsb mem]. case_decide as Hd; [done|]. cbn.
      apply not_true_is_false. intros (x & Hx & Hm)%existsb_exists. apply list_elem_of_In in Hx.
      rewrite Forall_forall in Hc. destruct (Hc x Hx) as (_ & Hx1 & Hx2 & _).
      change (mem x ["."; ".."] = true) in Hm. apply mem_true in Hm. set_solver.
Qed.

(** *** Plans *)
Record profile_ok (p : IsolationProfile) : Prop := {
  po_network : ip_network_mode p = "none";
  po_root : ip_read_only_root p = true;
  po_capabilities : ip_drop_all_capabilities p = true;
  po_privileges : ip_no_new_privileges p = true;
  po_workspace : ip_workspace_mode p = "ro";
  po_uid : 1 <= ip_uid p;
  po_gid : 1 <= ip_gid p;
  po_pids : 1 <= ip_pids_limit p <= 256;
  po_memory : 32 <= ip_memory_mb p <= 1024;
  po_cpus : ip_cpus p ∈ ["0.25"; "0.5"; "1.0"; "2.0"];
  po_tmpfs : ip_tmpfs p = "/tmp:rw,nosuid,nodev,noexec,size=64m"
}.

Record plan_ok (p : IsolatedExecutionPlan) : Prop := {
  pk_operation : py_strip (ie_operation_id p) <> "" /\ contains_char "000" (ie_operation_id p) = false;
  pk_image : image_match (ie_image_id p) = true;
  pk_argv : (1 <= length (ie_argv p) <= 64)%nat /\ Forall (fun arg => argument_ok arg = true) (ie_argv p);
  pk_workspace : normal_path (ie_host_workspace p);
  pk_characters : contains_char "000" (ie_host_workspace p) = false
    /\ contains_char "," (ie_host_workspace p) = false /\ py_len (ie_host_workspace p) <= 4096;
  pk_timeout : 1 <= ie_timeout_seconds p <= 120;
  pk_profile : profile_ok (ie_profile p)
}.

Lemma isolation_if_ok b msg : isolation_if b msg = Ok tt <-> b = false.
Proof. by destruct b. Qed.

Lemma profile_accepted p : IsolationProfile_validate p = Ok tt <-> profile_ok p.
Proof.
  unfold IsolationProfile_validate, isolation_if. rewrite !raise_if_bind, raise_if_ok.
  rewrite !negb_false_iff, !orb_false_iff, !negb_false_iff, !andb_true_iff, !String.eqb_eq, mem_true.
  split.
  - intros (H1 & H2 & H3 & H4 & H5 & H6 & H7 & H8). constructor; try done; try lia; apply H2.
  - intros []. split_and!; try done; lia.
Qed.

Lemma plan_accepted p : IsolatedExecutionPlan_validate p = Ok tt <-> plan_ok p.
Proof.
  unfold IsolatedExecutionPlan_validate, isolation_if. rewrite !raise_if_bind, profile_accepted.
  rewrite !negb_false_iff, !orb_false_iff, !negb_false_iff, andb_true_iff, forallb_forall, !String.eqb_eq.
  rewrite bool_decide_eq_false, Nat.ltb_ge. split.
  - intros ((H1 & H1') & H2 & (H3 & H3') & H4 & (H5 & H5') & ((H6 & H6') & H6'') & H7 & H8 & H9 & H10).
    constructor; try done.
    + split; [by apply String.eqb_neq|done].
    + split; [destruct (ie_argv p); [done|cbn in *; lia]|]. apply Forall_forall. intros x Hx.
      by apply H4, list_elem_of_In.
    + by apply workspace_accepted.
    + split_and!; [done|done|lia].
    + lia.
  - intros [[H1 H1'] H2 [H3 H4] H5 (H6 & H6' & H6'') H7 H8]. apply workspace_accepted in H5 as (W1 & W2 & W3 & W4).
    apply String.eqb_neq in H1. split_and!; try done; try lia.
    + intros E. rewrite E in H3. cbn in H3. lia.
    + intros x Hx. rewrite Forall_forall in H4. by apply H4, list_elem_of_In.
Qed.

(** *** Execution *)
Section execution.
Context {hash : Digest} {B G S : Type} {bops : BrokerOps B} {L : Lens S (IsolatedExecutionBroker B G)}.
Implicit Types (s : S) (op : RuntimeOperation) (plan : IsolatedExecutionPlan).
Implicit Types backend : IsolatedExecutionPlan -> M S exec_result.

Definition isolated s : IsolatedExecutionBroker B G := lget s.

(** The operation asks for exactly this plan. *)
Record bound_to op plan : Prop := {
  bd_plan : plan_ok plan;
  bd_kind : ro_kind op = "process.execute";
  bd_operation : ro_operation_id op = ie_operation_id plan;
  bd_scope : exists scope executable, normalized_scope op = Ok scope
    /\ dict_get scope "working_directory" = Some (JStr "/workspace")
    /\ head (ie_argv plan) = Some executable /\ executable_in_scope scope executable = Ok true;
  bd_payload : payload_sha256 plan = Ok (ro_payload_sha256 op)
}.

Lemma check_bound_ok op plan : check_bound op plan = Ok tt -> bound_to op plan.
Proof.
  unfold check_bound. intros H. py_inv.
  repeat match goal with
  | Hi : isolation_if _ _ = Ok ?u |- _ => destruct u; apply isolation_if_ok, negb_false_iff in Hi
  | u : unit |- _ => destruct u
  end.
  match goal with Hp : IsolatedExecutionPlan_validate _ = Ok _ |- _ => apply plan_accepted in Hp end.
  repeat match goal with Hi : String.eqb _ _ = true |- _ => apply String.eqb_eq in Hi end.
  destruct (ie_argv plan) as [|executable rest] eqn:Hargv; [done|].
  constructor; try done; [|congruence]. eexists _, executable. rewrite Hargv.
  split; [done|]. split; [by apply is_str_get|]. split; [done|congruence].
Qed.

(** Receipts of the broker, and what the calls keep. *)
Definition isolated_receipt_good (r : IsolatedExecutionReceipt) : Prop :=
  ix_receipt_sha256 r = canonical_sha256 (JObj (IsolatedExecutionReceipt_body r))
  /\ ix_backend_invoked r = String.eqb (ix_admission_decision r) "ALLOW".

Definition isolated_keeps s s' : Prop :=
  Forall isolated_receipt_good (ib_receipts (isolated s)) ->
  Forall isolated_receipt_good (ib_receipts (isolated s'))
  /\ ib_receipts (isolated s) `prefix_of` ib_receipts (isolated s').

#[export] Instance isolated_keeps_preorder : PreOrder isolated_keeps.
Proof.
  split; [by intros s|]. intros s1 s2 s3 H12 H23 H1. destruct (H12 H1) as [H2 P12].
  destruct (H23 H2) as [H3 P23]. split; [done|by etrans].
Qed.

Lemma isolated_verifies r : isolated_receipt_good r ->
  verify_receipt (IsolatedExecutionReceipt_as_document r) = Ok (IsolatedExecutionReceipt_as_document r).
Proof.
  intros [Hd _]. unfold verify_receipt. cbv zeta.
  change (dict_del (IsolatedExecutionReceipt_as_document r) "receipt_sha256")
    with (IsolatedExecutionReceipt_body r).
  assert (negb (is_str (dict_get_none (IsolatedExecutionReceipt_body r) "schema") SCHEMA)
    || negb (py_eq (dict_get_none (IsolatedExecutionReceipt_body r) "authority") (JObj AUTHORITY)) = false)
    as -> by (by vm_compute).
  cbn [isolation_if raise_if]. rewrite bind_Ok.
  change (dict_get_none (IsolatedExecutionReceipt_as_document r) "receipt_sha256")
    with (JStr (ix_receipt_sha256 r)). rewrite Hd. cbn [is_str]. by rewrite String.eqb_refl.
Qed.

(** A call of the mediator or of its broker leaves the receipts alone. *)
Lemma mediator_in_keeps {A} (m : M (RuntimeMediator B G) A) :
  evolves isolated_keeps (on (H := mediator_in) m).
Proof.
  intros s Hs. rewrite on_run. destruct (m _) as [r t]. unfold isolated in *. cbn.
  by rewrite lget_lput.
Qed.

Lemma isolated_mediate_keeps op ex : evolves isolated_keeps (ex op) ->
  evolves isolated_keeps (mediate (L := mediator_in) op ex).
Proof.
  apply mediate_rel; [typeclasses eauto|intros; apply mediator_in_keeps|].
  intros scope. unfold request_capability. evolve_step; [evolve_step|]. apply mediator_in_keeps.
Qed.

Lemma plan_digests plan : plan_ok plan -> exists sha psha, plan_sha256 plan = Ok sha
  /\ profile_sha256 (ie_profile plan) = Ok psha.
Proof.
  intros Hp. unfold plan_sha256, safe_body, profile_sha256, IsolationProfile_body.
  rewrite (proj2 (plan_accepted plan) Hp), (proj2 (profile_accepted _) (pk_profile _ Hp)).
  cbn. by eexists _, _.
Qed.

(** What is recorded of a mediation. *)
Lemma record_run op plan doc s : plan_ok plan -> mediation_doc doc -> exists r,
  record_execution op plan doc s
  = (Ok (IsolatedExecutionReceipt_as_document r), lput (push_receipt r (isolated s)) s)
  /\ isolated_receipt_good r /\ ix_operation_id r = ro_operation_id op /\ ix_image_id r = ie_image_id plan
  /\ plan_sha256 plan = Ok (ix_plan_sha256 r)
  /\ dict_get doc "admission_decision" = Some (JStr (ix_admission_decision r))
  /\ dict_get doc "execution_outcome" = Some (JStr (ix_execution_outcome r))
  /\ dict_get doc "receipt_sha256" = Some (JStr (ix_mediation_receipt_sha256 r)).
Proof.
  intros Hp (mr & -> & _). destruct (plan_digests plan Hp) as (sha & psha & Hsha & Hpsha).
  unfold record_execution. rewrite M_lift, Hsha, M_lift, Hpsha.
  rewrite M_lift. change (str_item (RuntimeMediationReceipt_as_document mr) "receipt_sha256")
    with (Ok (mr_receipt_sha256 mr)). cbv beta iota.
  rewrite M_lift. change (str_item (RuntimeMediationReceipt_as_document mr) "admission_decision")
    with (Ok (mr_admission_decision mr)). cbv beta iota.
  rewrite M_lift. change (str_item (RuntimeMediationReceipt_as_document mr) "execution_outcome")
    with (Ok (mr_execution_outcome mr)).
  cbv beta iota zeta. rewrite M_set_this. eexists. split; [reflexivity|]. by split.
Qed.

(** Either the call is refused whatever the backend is, or the operation is bound to the
    plan and the rest is the mediated run of the backend on this plan. *)
Lemma execute_cases op plan s :
  (exists e, forall backend, execute backend op plan s = (Err e, s))
  \/ (bound_to op plan /\ forall backend,
       execute backend op plan s
       = (mediate (L := mediator_in) op (fun _ => backend plan) ≫= record_execution op plan) s).
Proof.
  destruct (check_bound op plan) as [[]|e] eqn:Hc.
  - right. split; [by apply check_bound_ok|]. intros backend. unfold execute. by rewrite M_lift, Hc.
  - left. exists e. intros backend. unfold execute. by rewrite M_lift, Hc.
Qed.

Lemma execute_keeps backend op plan : evolves isolated_keeps (backend plan) ->
  evolves isolated_keeps (execute backend op plan).
Proof.
  intros Hback s. destruct (execute_cases op plan s) as [(e & He)|[Hb He]]; rewrite He.
  - exact (reflexivity (R:=isolated_keeps) s).
  - rewrite M_bind_eq. pose proof (isolated_mediate_keeps op (fun _ => backend plan) Hback s) as Hk.
    pose proof (mediate_returns (L := mediator_in) op (fun _ => backend plan) s) as Hr.
    destruct (mediate op _ s) as [[doc|e] s1]; [|exact Hk]. cbn [snd] in Hk.
    destruct (record_run op plan doc s1 (bd_plan _ _ Hb) (Hr doc s1 eq_refl)) as (r & -> & Hg & _).
    cbn [snd]. refine (transitivity (R:=isolated_keeps) Hk _). intros Hs. unfold isolated. rewrite lget_lput.
    split; [|by eexists]. cbn. apply Forall_app. split; [exact Hs|by constructor].
Qed.

Lemma execute_blocked op plan s : ~ admitted (L := mediator_in) op s ->
  (forall backend backend', execute backend op plan s = execute backend' op plan s)
  /\ forall backend doc s', execute backend op plan s = (Ok doc, s') ->
     dict_get doc "admission_decision" = Some (JStr "BLOCK")
     /\ dict_get doc "execution_outcome" = Some (JStr "NOT_EXECUTED")
     /\ dict_get doc "backend_invoked" = Some (JBool false).
Proof.
  intros Hn. destruct (not_admitted_blocked (L := mediator_in) op s Hn) as [Hsame Hblock].
  destruct (execute_cases op plan s) as [(e & He)|[Hb He]].
  - split; [intros; by rewrite !He|]. intros backend doc s'. by rewrite He.
  - split; [intros backend backend'; rewrite !He, !M_bind_eq; by rewrite (Hsame _ (fun _ => backend' plan))|].
    intros backend doc s'. rewrite He, M_bind_eq.
    destruct (mediate op _ s) as [[m|e] s1] eqn:Hm; [|done].
    destruct (Hblock _ _ _ Hm) as [Hadm Hout].
    destruct (record_run op plan m s1 (bd_plan _ _ Hb)) as (r & -> & Hg & _ & _ & _ & Ha & Ho & _).
    { exact (mediate_returns (L := mediator_in) op _ s m s1 Hm). }
    intros [= <- _]. rewrite Hadm in Ha. rewrite Hout in Ho. injection Ha as Ha. injection Ho as Ho.
    cbn. rewrite (proj2 Hg), <- Ha, <- Ho. done.
Qed.

(** Calls of the broker with any backend that leaves the receipts to it, or host code
    that does. *)
Inductive isolated_step s : S -> Prop :=
  | is_execute backend op plan : evolves isolated_keeps (backend plan) ->
      isolated_step s (snd (execute backend op plan s))
  | is_host s' : isolated_keeps s s' -> isolated_step s s'.

Lemma isolated_steps_keep s s' : star isolated_step s s' -> isolated_keeps s s'.
Proof.
  induction 1 as [s|s1 s2 s3 _ IH Hstep]; [exact (reflexivity (R:=isolated_keeps) s)|].
  refine (transitivity (R:=isolated_keeps) IH _). destruct Hstep as [backend op plan Hb|s' Hk]; [|done].
  by apply execute_keeps.
Qed.
End execution.

(** ** Example values *)
#[local] Existing Instance checksum_digest.

Definition process_scope : dict :=
  [("executables", jstrs ["make"]); ("working_directory", JStr "/workspace");
   ("argument_profile", JStr "build")].

Definition process_broker : CapabilityBroker :=
  snd (CapabilityBroker.admit_contract (seal "contract_sha256"
         (Contracts.provisional_body Contracts.CAPABILITY_SCHEMA Contracts.AUTHORITY
            (dict_set (dict_set config_kwargs "capability_type" (JStr "process.execute"))
               "scope" (JObj process_scope)))) 100 (CapabilityBroker.fresh_broker "broker:test")).

Definition example_plan : IsolatedExecutionPlan := {|
  ie_operation_id := "op:1";
  ie_image_id := "sha256:" +:+ ZERO_SHA256;
  ie_argv := ["make"; "test"]; ie_host_workspace := "/srv/work"; ie_timeout_seconds := 30;
  ie_profile := default_profile |}.

Definition process_operation : RuntimeOperation := {|
  ro_operation_id := "op:1"; ro_subject_id := "agent:1"; ro_policy_sha256 := ZERO_SHA256;
  ro_kind := "process.execute"; ro_scope := process_scope;
  ro_payload_sha256 := from_ok "" (payload_sha256 example_plan); ro_at_unix := 150;
  ro_privilege_level_before := 0; ro_privilege_level_after := 1 |}.

Definition IsolatedHost : Type := IsolatedExecutionBroker CapabilityBroker unit.

Definition isolated_host : IsolatedHost :=
  IsolatedExecutionBroker_init (RuntimeMediator_init process_broker None).

Definition good_backend (_ : IsolatedExecutionPlan) : M IsolatedHost exec_result :=
  mret (Observed (ExecutionObservation_success [])).

Definition isolated_run : result dict * IsolatedHost :=
  execute (L := lens_id) good_backend process_operation example_plan isolated_host.

Example isolated_run_succeeds :
  (doc ← fst isolated_run; dict_item doc "execution_outcome") = Ok (JStr "SUCCEEDED")
  /\ (doc ← fst isolated_run; dict_item doc "backend_invoked") = Ok (JBool true).
Proof. vm_compute. split; reflexivity. Qed.

Example unbound_plan_refused :
  fst (execute (L := lens_id) good_backend process_operation
         {| ie_operation_id := "op:1"; ie_image_id := ie_image_id example_plan; ie_argv := ["make"; "install"];
            ie_host_workspace := "/srv/work"; ie_timeout_seconds := 30; ie_profile := default_profile |}
         isolated_host)
  = Err (Exn IsolationError "runtime payload is not bound to the isolated execution plan").
Proof. vm_compute. reflexivity. Qed.

(** ** Properties *)

(** C21: a plan is accepted exactly when its identifier is not blank, its image is pinned by
    digest, it has 1 to 64 proper arguments, its workspace is an absolute path in normal
    form (a slash and components that are neither empty nor dots, whatever the stdlib's
    normalisation does), without comma and at most 4096 characters long, its timeout is 1
    to 120 seconds, and its profile has no network, a read-only root, no capabilities, no
    new privileges, a user and a group other than root and bounded resources. *)
Theorem plan_accepted_exactly (p : IsolatedExecutionPlan) :
  IsolatedExecutionPlan_validate p = Ok tt <-> plan_ok p.
Proof. exact (plan_accepted p). Qed.

(** C13: the backend runs nothing but the plan the operation is bound to: a call is either
    refused before the mediator, the backend being irrelevant and the state unchanged, or
    the plan is valid and the operation is a process execution with its identifier, its
    payload digest, its working directory and its executable, and the call is the mediated
    run of the backend on this very plan; and when the mediator does not admit the
    operation, the outcome is the same whatever the backend is, and the receipt says that
    it was not invoked. *)
Theorem backend_runs_only_the_bound_plan `{hash : Digest} {B G S : Type} `{BrokerOps B}
    `{L : Lens S (IsolatedExecutionBroker B G)} (op : RuntimeOperation) (plan : IsolatedExecutionPlan) (s : S) :
  ((exists e, forall backend, execute backend op plan s = (Err e, s))
   \/ (bound_to op plan /\ forall backend, execute backend op plan s
         = (mediate (L := mediator_in) op (fun _ => backend plan) ≫= record_execution op plan) s))
  /\ (~ admitted (L := mediator_in) op s ->
      (forall backend backend', execute backend op plan s = execute backend' op plan s)
      /\ forall backend doc s', execute backend op plan s = (Ok doc, s') ->
         dict_get doc "admission_decision" = Some (JStr "BLOCK")
         /\ dict_get doc "execution_outcome" = Some (JStr "NOT_EXECUTED")
         /\ dict_get doc "backend_invoked" = Some (JBool false)).
Proof. split; [apply execute_cases|apply execute_blocked]. Qed.

(** In every reachable state each receipt verifies and says that the backend was
    invoked exactly when the operation was admitted; no receipt is ever lost. *)
Theorem isolated_receipts_sound `{hash : Digest} {B G S : Type} `{BrokerOps B}
    `{L : Lens S (IsolatedExecutionBroker B G)} (mediator : RuntimeMediator B G) (s0 s1 s2 : S)
    (Hinit : isolated s0 = IsolatedExecutionBroker_init mediator)
    (Hreach1 : star isolated_step s0 s1) (Hreach2 : star isolated_step s1 s2) :
  Forall (fun doc => verify_receipt doc = Ok doc) (receipts (isolated s2))
  /\ Forall (fun r => ix_backend_invoked r = String.eqb (ix_admission_decision r) "ALLOW")
       (ib_receipts (isolated s2))
  /\ receipts (isolated s1) `prefix_of` receipts (isolated s2).
Proof.
  destruct (isolated_steps_keep s0 s1 Hreach1) as [H1 _]; [by rewrite Hinit|].
  destruct (isolated_steps_keep s1 s2 Hreach2 H1) as [H2 [more Hmore]]. split_and!.
  - apply Forall_map. eapply Forall_impl; [exact H2|]. apply isolated_verifies.
  - eapply Forall_impl; [exact H2|]. by intros r [_ ?].
  - unfold receipts. rewrite Hmore, map_app. by eexists.
Qed.

Lemma isolated_receipts_sound_witness :
  Forall (fun doc => verify_receipt doc = Ok doc) (receipts (isolated (L := lens_id) (snd isolated_run)))
  /\ length (receipts (isolated (L := lens_id) (snd isolated_run))) = 1%nat.
Proof.
  split; [|vm_compute; reflexivity].
  assert (isolated (L := lens_id) isolated_host
          = IsolatedExecutionBroker_init (RuntimeMediator_init process_broker None)) as Hi by reflexivity.
  assert (star (isolated_step (L := lens_id)) isolated_host (snd isolated_run)) as Hr.
  { eapply star_step; [apply star_refl|]. unfold isolated_run. apply is_execute. intros s.
    exact (reflexivity (R:=isolated_keeps) s). }
  destruct (@isolated_receipts_sound checksum_digest CapabilityBroker unit IsolatedHost _ lens_id
    (RuntimeMediator_init process_broker None) isolated_host (snd isolated_run) (snd isolated_run)
    Hi Hr (star_refl _ _)) as [H _]. exact H.
Defined.
