(* ===== verification/CapabilityUse.v ===== *)
(** * Brokers that lease a capability use

    What the file mutation, credential and package install brokers share: the loop of
    their [_capability_still_active], the ALLOW decisions a capability broker has on
    record ([admitted]), and the book of one-time leases they keep. *)
From stdpp Require Import gmap.
From S2P Require Import Prelude PyStr Json Digest Contracts CapabilityBroker BrokerInterface Mediation.
#[local] Open Scope Z_scope.

(** ** [for item in state["capabilities"]: ...] *)
Fixpoint listed_active (capability_id : string) (now : Z) (items : list json) : result bool :=
  match items with
  | [] => Ok false
  | JObj item :: rest =>
      id ← dict_item item "capability_id";
      if is_str id capability_id then
        status ← dict_item item "status";
        if is_str status "active" then
          expires ← dict_item item "expires_at_unix";
          py_lt (JInt now) expires
        else Ok false
      else listed_active capability_id now rest
  | _ :: _ => fail TypeError "capability item"
  end.

(** An [int | None] in a document. *)
Definition jopt_int (o : option Z) : json := match o with Some n => JInt n | None => JNull end.

(** ** The scopes these brokers request *)

(** A key whose value [validate_scope] keeps as it is: a string or an array of one. *)
Definition plain_entry (kv : string * json) : Prop :=
  mem (fst kv) ["repository"; "domains"; "ports"; "max_children"] = false
  /\ exists s, snd kv = JStr s \/ snd kv = jstrs [s].

Lemma plain_entry_kept kv w : plain_entry kv -> scope_item (fst kv) (snd kv) = Ok w -> w = snd kv.
Proof.
  destruct kv as [k v]. cbn [fst snd]. intros [Hk (s & Hv)] H. cbn [fst snd] in *. unfold scope_item in H.
  cbn [mem existsb] in Hk. rewrite !orb_false_iff in Hk. destruct Hk as (H1 & H2 & H3 & H4 & _).
  rewrite H1, H2, H3, H4 in H. destruct Hv as [-> | ->].
  - py_inv. unfold _string in Hx. destruct (_ || _); [done|]. by injection Hx as ->.
  - cbn [jstrs map] in H. py_inv. cbn [map_r] in Hx. py_inv. unfold _string in Hx1.
    destruct (_ || _); [done|]. by injection Hx1 as ->.
Qed.

Lemma plain_scope t rs scope : Forall plain_entry rs -> validate_scope t (JObj rs) = Ok scope ->
  scope = sorted_on fst rs.
Proof.
  intros Hp. unfold validate_scope. cbn [_mapping]. rewrite bind_Ok. destruct (allowed_by_type t); [|done].
  cbv zeta. intros H. py_inv. f_equal.
  match goal with Hm : map_r _ _ = Ok ?l |- _ => apply map_r_ok in Hm; rename Hm into Hl; clear - Hp Hl end.
  induction Hl as [|kv kv' l l' Hkv Hl IH]; [done|]. apply Forall_cons in Hp as [Hp1 Hp].
  f_equal; [|by apply IH]. py_inv. apply plain_entry_kept in Hx; [|done]. subst. by destruct kv.
Qed.

Section use.
Context {hash : Digest}.

Definition still_active (b : CapabilityBroker) (capability_id : string) (now : Z) : result bool :=
  capabilities ← dict_item (CapabilityBroker.state_document b) "capabilities";
  match capabilities with
  | JList items => listed_active capability_id now items
  | _ => fail TypeError "capabilities"
  end.

(** The stored capability is active and not expired. *)
Definition active_at (now : Z) (s : _State) : bool :=
  bool_decide (cs_status s = Active) && (now <? cc_expires_at_unix (cs_contract s)).

Lemma listed_active_entries id now l :
  listed_active id now (map (fun p => JObj (capability_entry (fst p) (snd p))) l)
  = Ok (match List.find (fun p => String.eqb (fst p) id) l with
        | Some p => active_at now (snd p)
        | None => false
        end).
Proof.
  induction l as [|[k s] l IH]; [done|]. cbn [map listed_active List.find fst snd].
  change (dict_item (capability_entry k s) "capability_id") with (Ok (JStr k)). rewrite bind_Ok.
  cbn [is_str]. destruct (String.eqb k id); [|exact IH].
  change (dict_item (capability_entry k s) "status") with (Ok (JStr (status_str (cs_status s)))).
  rewrite bind_Ok. unfold active_at. cbn [snd]. by destruct (cs_status s).
Qed.

Lemma find_lookup {A} (m : gmap string A) id :
  snd <$> List.find (fun p => String.eqb (fst p) id) (sorted_on fst (map_to_list m)) = m !! id.
Proof.
  destruct (List.find _ _) as [[k s]|] eqn:Hf; cbn.
  - apply find_some in Hf as [Hin Hk%String.eqb_eq]. cbn in Hk. subst k.
    apply list_elem_of_In in Hin. rewrite elem_of_sorted_on in Hin. symmetry. by apply elem_of_map_to_list.
  - destruct (m !! id) as [s|] eqn:Hs; [|done]. exfalso.
    apply elem_of_map_to_list in Hs. rewrite <- (elem_of_sorted_on fst), list_elem_of_In in Hs.
    pose proof (find_none _ _ Hf _ Hs) as Hne. cbn in Hne. by rewrite String.eqb_refl in Hne.
Qed.

(** The loop decides whether the stored capability is active and not expired. *)
Lemma still_active_exact b id now :
  still_active b id now = Ok (from_option (active_at now) false (cb_states b !! id)).
Proof.
  unfold still_active, CapabilityBroker.state_document.
  match goal with |- context [dict_item (seal _ (?a :: ?b :: ?c :: ?d :: ?e :: (?k, ?l) :: _)) _] =>
    change (dict_item (seal _ _) "capabilities") with (Ok l) end.
  rewrite bind_Ok, listed_active_entries, <- find_lookup. by destruct (List.find _ _).
Qed.

Lemma active_exact b id now : from_option (active_at now) false (cb_states b !! id) = true
  <-> exists s, cb_states b !! id = Some s /\ cs_status s = Active /\ now < cc_expires_at_unix (cs_contract s).
Proof.
  split.
  - destruct (cb_states b !! id) as [s|]; [|done]. cbn. unfold active_at.
    rewrite andb_true_iff, bool_decide_eq_true, Z.ltb_lt. intros []. by exists s.
  - intros (s & -> & Ha & Ht). cbn. unfold active_at. rewrite Ha. by apply Z.ltb_lt.
Qed.

(** ** Decisions on record *)

Lemma decision_item doc d dec : dict_item doc "decision" = Ok d -> is_str d dec = true ->
  dict_get_none doc "decision" = JStr dec.
Proof.
  intros Hd%dict_item_ok Hs. unfold dict_get_none, dict_get_or. rewrite Hd.
  destruct d as [| | |d| |]; try done. by apply String.eqb_eq in Hs as ->.
Qed.

(** The broker has allowed this use of capability [id] and its receipt is [sha]; the
    capability is still stored, and covers the scope. *)
Definition admitted (b : CapabilityBroker) (subj ct pol : string) (scope action : dict) (at_unix : Z)
    (id sha : string) : Prop :=
  (exists r, r ∈ cb_receipts b /\ dr_decision r = "ALLOW" /\ dr_capability_id r = Some id
     /\ dr_subject_id r = subj /\ dr_capability_type r = ct /\ dr_policy_sha256 r = pol
     /\ dr_requested_scope r = scope /\ dr_action_sha256 r = canonical_sha256 (JObj action)
     /\ dr_at_unix r = at_unix /\ dr_receipt_sha256 r = sha)
  /\ exists s, cb_states b !! id = Some s /\ cc_subject_id (cs_contract s) = subj
     /\ cc_capability_type (cs_contract s) = ct /\ cc_policy_sha256 (cs_contract s) = pol
     /\ scope_within ct scope (cc_scope (cs_contract s)).

Lemma admitted_later b b' subj ct pol scope action at_unix id sha : broker_le b b' ->
  admitted b subj ct pol scope action at_unix id sha -> admitted b' subj ct pol scope action at_unix id sha.
Proof.
  intros [_ Hst _ [l Hr]] [(r & Hin & H) (s & Hs & H')]. split.
  - exists r. split; [|done]. rewrite Hr. apply elem_of_app. by left.
  - destruct (Hst id s Hs) as (s' & Hs' & Hc & _). exists s'. by rewrite Hc.
Qed.

(** An ALLOW answer is on record. *)
Lemma authorize_admits b subj ct pol rs act at_unix rid rsha doc b' :
  broker_inv b -> CapabilityBroker.authorize subj ct pol rs act at_unix rid rsha b = (Ok doc, b') ->
  dict_get_none doc "decision" = JStr "ALLOW" ->
  exists scope id sha, validate_scope ct (JObj rs) = Ok scope
    /\ dict_get doc "capability_id" = Some (JStr id) /\ dict_get doc "receipt_sha256" = Some (JStr sha)
    /\ admitted b' subj ct pol scope act at_unix id sha.
Proof.
  intros Hb Ha Hdec. pose proof (authorize_allow_sound _ _ _ _ _ _ _ _ _ _ _ Hb Ha Hdec) as Hs.
  destruct (authorize_cases subj ct pol rs act at_unix rid rsha b) as [[x E]|(scope & Hsc & E)];
    rewrite E in Ha; [done|].
  destruct (use_first_cases (candidates b subj ct) [] subj ct pol (canonical_sha256 (JObj act))
    scope at_unix rid rsha b) as [(x & E2 & _)|[(l1 & u & l2 & _ & _ & _ & E2)|(rs' & _ & _ & E2)]];
    rewrite E2 in Ha; [done| |].
  - destruct (commit_use_cases u subj ct pol (canonical_sha256 (JObj act)) scope at_unix rid rsha b)
      as [[x E3]|(e & _ & E3)]; rewrite E3 in Ha; [done|]. injection Ha as <- <-.
    exists scope, (cc_capability_id (cs_contract u)). eexists. split; [done|].
    split; [reflexivity|]. split; [reflexivity|]. split.
    + eexists. split; [apply elem_of_app; right; by left|]. repeat split; reflexivity.
    + destruct Hs as (scope' & id & s & Hsc' & [Hst Hsub Hty _ _ Hpol _ Hsw] & Hid & Hm).
      rewrite Hsc in Hsc'. injection Hsc' as <-. injection Hid as <-.
      exists (use_state s). rewrite Hm, lookup_insert_eq. done.
  - destruct (deny_use_cases rs' subj ct pol (canonical_sha256 (JObj act)) scope at_unix rid rsha b)
      as [[x E3]|(e & ? & _ & E3)]; rewrite E3 in Ha; [done|]. by injection Ha as <- _.
Qed.
End use.

(** ** The book of one-time leases *)
Section book.
Context {Lease : Type} (used : Lease -> bool) (burn : Lease -> Lease).
Context (burn_used : forall l, used (burn l) = true).
Implicit Types m : gmap string Lease.

(** Leases stay on the book; all that happens to one is to be burned, once. *)
Definition book_le m m' : Prop := forall id l, m !! id = Some l ->
  exists l', m' !! id = Some l' /\ (l' = l \/ used l = false /\ l' = burn l).

#[export] Instance book_le_preorder : PreOrder book_le.
Proof.
  split; [intros m id l Hl; by eauto|]. intros m1 m2 m3 H12 H23 id l Hl.
  destruct (H12 id l Hl) as (l2 & Hl2 & [->|[Hu ->]]); [by apply H23|].
  destruct (H23 id _ Hl2) as (l3 & Hl3 & [->|[Hu' _]]); [by eauto|]. by rewrite burn_used in Hu'.
Qed.

Lemma book_add m id l : m !! id = None -> book_le m (<[id := l]> m).
Proof. intros Hn id' l' Hl'. exists l'. rewrite lookup_insert_ne by congruence. auto. Qed.

Lemma book_burn m id l : m !! id = Some l -> used l = false -> book_le m (<[id := burn l]> m).
Proof.
  intros Hl Hu id' l' Hl'. destruct (decide (id = id')) as [<-|Hne].
  - exists (burn l). rewrite lookup_insert_eq. rewrite Hl in Hl'. injection Hl' as <-. auto.
  - exists l'. rewrite lookup_insert_ne by done. auto.
Qed.

Lemma book_used m m' id l : book_le m m' -> m !! id = Some l -> used l = true -> m' !! id = Some l.
Proof. intros H Hl Hu. destruct (H id l Hl) as (l' & Hl' & [->|[Hn _]]); [done|congruence]. Qed.

(** The identifiers [kind n:...] carry the number the lease was issued under. *)
Definition numbered_book (kind : string) m : Prop := forall id l, m !! id = Some l ->
  exists (n : nat) rest, id = kind +:+ pretty (Z.of_nat n) +:+ ":" +:+ rest /\ (n <= size m)%nat.

Lemma next_fresh kind m rest : numbered_book kind m ->
  m !! (kind +:+ pretty (Z.of_nat (size m) + 1) +:+ ":" +:+ rest) = None.
Proof.
  intros H. apply eq_None_not_Some. intros [l Hl]. destruct (H _ _ Hl) as (n & r & E & Hn).
  apply numbered_injective in E. lia.
Qed.

Lemma numbered_add kind m rest l : numbered_book kind m ->
  numbered_book kind (<[kind +:+ pretty (Z.of_nat (size m) + 1) +:+ ":" +:+ rest := l]> m).
Proof.
  intros H id l' Hl'. rewrite map_size_insert_None by by apply next_fresh.
  apply lookup_insert_Some in Hl' as [[<- _]|[_ Hl']].
  - exists (S (size m)), rest. split; [|lia]. by rewrite Nat2Z.inj_succ, <- Z.add_1_r.
  - destruct (H id l' Hl') as (n & r & -> & Hn). exists n, r. split; [done|lia].
Qed.

Lemma numbered_burn kind m id l l' : numbered_book kind m -> m !! id = Some l ->
  numbered_book kind (<[id := l']> m).
Proof.
  intros H Hl id' l1 Hl1. rewrite map_size_insert_Some by done.
  apply lookup_insert_Some in Hl1 as [[<- _]|[_ Hl1]]; eauto.
Qed.
End book.

(** ** The state around the book

    The part of a lease broker the leases rest on, and what the broker's steps do to it. *)
Record LeaseBook (Lease Receipt : Type) := {
  bk_capabilities : CapabilityBroker;
  bk_leases : gmap string Lease;
  bk_seen : gset string;
  bk_receipts : list Receipt
}.
Arguments bk_capabilities {Lease Receipt} _.
Arguments bk_leases {Lease Receipt} _.
Arguments bk_seen {Lease Receipt} _.
Arguments bk_receipts {Lease Receipt} _.

(** The book grows: capabilities, call identifiers and receipts are never forgotten. *)
Record book_grows {Lease Receipt} (used : Lease -> bool) (burn : Lease -> Lease)
    (k k' : LeaseBook Lease Receipt) : Prop := {
  bg_capabilities : broker_le (bk_capabilities k) (bk_capabilities k');
  bg_leases : book_le used burn (bk_leases k) (bk_leases k');
  bg_seen : bk_seen k ⊆ bk_seen k';
  bg_receipts : bk_receipts k `prefix_of` bk_receipts k'
}.

(** What a broker tells about its leases: how they are named, for which call they were
    issued, what backs them ([lt_backed], stable while the book grows) and when a receipt
    is sealed. *)
Class LeaseTheory (Lease Receipt : Type) := {
  lt_kind : string;
  lt_call : Lease -> string;
  lt_used : Lease -> bool;
  lt_burn : Lease -> Lease;
  lt_sealed : Receipt -> Prop;
  lt_backed : LeaseBook Lease Receipt -> string -> Lease -> Prop;
  lt_burn_used l : lt_used (lt_burn l) = true;
  lt_burn_call l : lt_call (lt_burn l) = lt_call l;
  lt_backed_burn k id l : lt_backed k id l -> lt_backed k id (lt_burn l);
  lt_backed_seen k id l : lt_backed k id l -> lt_call l ∈ bk_seen k;
  lt_backed_later k k' id l : book_grows lt_used lt_burn k k' -> lt_backed k id l -> lt_backed k' id l
}.

Section lease_book.
Context {hash : Digest} {Lease Receipt : Type} {T : LeaseTheory Lease Receipt}.
Implicit Types k : LeaseBook Lease Receipt.

#[export] Instance lease_book_preorder : PreOrder (book_le lt_used lt_burn).
Proof. apply book_le_preorder, lt_burn_used. Qed.

#[export] Instance book_grows_preorder : PreOrder (book_grows (Receipt := Receipt) lt_used lt_burn).
Proof.
  split; [intros k; by constructor|]. intros k1 k2 k3 [? ? ? ?] [? ? ? ?]. constructor; by etrans.
Qed.

(** Every lease is backed and named by its number, and no two were issued for one call. *)
Record book_sound k : Prop := {
  bs_capabilities : broker_inv (bk_capabilities k);
  bs_leases : map_Forall (lt_backed k) (bk_leases k);
  bs_numbered : numbered_book lt_kind (bk_leases k);
  bs_calls : forall id l id' l', bk_leases k !! id = Some l -> bk_leases k !! id' = Some l' ->
    lt_call l = lt_call l' -> id = id';
  bs_receipts : Forall lt_sealed (bk_receipts k)
}.

Definition book_kept k k' : Prop := book_sound k -> book_sound k' /\ book_grows lt_used lt_burn k k'.

#[export] Instance book_kept_preorder : PreOrder book_kept.
Proof.
  split; [by intros k Hk|]. intros k1 k2 k3 H1 H2 Hk. destruct (H1 Hk) as [Hk2 ?].
  destruct (H2 Hk2) as [? ?]. split; [done|]. by etrans.
Qed.

(** A change that leaves the leases alone. *)
Lemma same_leases_kept k k' : bk_leases k' = bk_leases k -> book_grows lt_used lt_burn k k' ->
  (book_sound k -> broker_inv (bk_capabilities k')) ->
  (book_sound k -> Forall lt_sealed (bk_receipts k')) -> book_kept k k'.
Proof.
  intros Hl Hg Hb Hr Hk. split; [|done]. constructor; rewrite ?Hl; [by apply Hb| | | |by apply Hr].
  - intros id l H. apply (lt_backed_later k); [done|]. by apply (bs_leases k Hk).
  - apply Hk.
  - apply Hk.
Qed.

Lemma book_push k r : lt_sealed r -> book_kept k {| bk_capabilities := bk_capabilities k;
  bk_leases := bk_leases k; bk_seen := bk_seen k; bk_receipts := bk_receipts k ++ [r] |}.
Proof.
  intros Hr. apply same_leases_kept; [done| |by intros []|].
  - constructor; cbn; try reflexivity. by eexists.
  - intros []. apply Forall_app. by repeat constructor.
Qed.

Lemma book_see k call : book_kept k {| bk_capabilities := bk_capabilities k;
  bk_leases := bk_leases k; bk_seen := {[call]} ∪ bk_seen k; bk_receipts := bk_receipts k |}.
Proof.
  apply same_leases_kept; [done| |by intros []|by intros []]. constructor; cbn; try reflexivity. set_solver.
Qed.

Lemma book_capabilities k c : broker_ok (bk_capabilities k) c -> book_kept k {| bk_capabilities := c;
  bk_leases := bk_leases k; bk_seen := bk_seen k; bk_receipts := bk_receipts k |}.
Proof.
  intros Hc Hk. destruct (Hc (bs_capabilities k Hk)) as [Hinv Hle]. revert Hk.
  apply same_leases_kept; [done|by constructor|done|by intros []].
Qed.

Lemma book_burned k id l : bk_leases k !! id = Some l -> lt_used l = false ->
  book_kept k {| bk_capabilities := bk_capabilities k; bk_leases := <[id := lt_burn l]> (bk_leases k);
                 bk_seen := bk_seen k; bk_receipts := bk_receipts k |}.
Proof.
  intros Hl Hu Hk. match goal with |- book_sound ?k2 /\ _ => set (k' := k2) end.
  assert (book_grows lt_used lt_burn k k') as Hg.
  { constructor; cbn; try reflexivity. by apply book_burn. }
  split; [|done]. constructor; cbn; try apply Hk.
  - intros id' l' [[<- <-]|[_ Hl']]%lookup_insert_Some; apply (lt_backed_later k); try done;
      [apply lt_backed_burn|]; by apply (bs_leases k Hk).
  - eapply numbered_burn; [apply Hk|exact Hl].
  - assert (forall i x, (<[id := lt_burn l]> (bk_leases k)) !! i = Some x ->
      exists y, bk_leases k !! i = Some y /\ lt_call x = lt_call y) as Hsame.
    { intros i x [[<- <-]|[_ Hx]]%lookup_insert_Some; [|by eauto]. exists l. by rewrite lt_burn_call. }
    intros i x i' x' (y & Hy & ->)%Hsame (y' & Hy' & ->)%Hsame. by apply (bs_calls k Hk i y i' y').
Qed.

Lemma book_added k l rest :
  let id := lt_kind +:+ pretty (Z.of_nat (size (bk_leases k)) + 1) +:+ ":" +:+ rest in
  lt_backed k id l ->
  (forall i l', bk_leases k !! i = Some l' -> lt_call l' <> lt_call l) ->
  book_kept k {| bk_capabilities := bk_capabilities k; bk_leases := <[id := l]> (bk_leases k);
                 bk_seen := bk_seen k; bk_receipts := bk_receipts k |}.
Proof.
  intros id Hl Hcall Hk. pose proof (next_fresh lt_kind (bk_leases k) rest (bs_numbered k Hk)) as Hf.
  match goal with |- book_sound ?k2 /\ _ => set (k' := k2) end.
  assert (book_grows lt_used lt_burn k k') as Hg.
  { constructor; cbn; try reflexivity. by apply book_add. }
  split; [|done]. constructor; cbn; try apply Hk.
  - intros id' l' [[<- <-]|[_ Hl']]%lookup_insert_Some; apply (lt_backed_later k); try done.
    by apply (bs_leases k Hk).
  - by apply numbered_add, Hk.
  - intros i x i' x' [[<- <-]|[_ Hx]]%lookup_insert_Some [[<- <-]|[_ Hx']]%lookup_insert_Some E.
    + done.
    + by destruct (Hcall _ _ Hx').
    + by destruct (Hcall _ _ Hx).
    + by apply (bs_calls k Hk i x i' x').
Qed.

(** A call identifier not seen so far has no lease. *)
Lemma fresh_call k call : book_sound k -> call ∉ bk_seen k ->
  forall id l, bk_leases k !! id = Some l -> lt_call l <> call.
Proof. intros Hk Hn id l Hl <-. eapply Hn, lt_backed_seen, (bs_leases k Hk id l Hl). Qed.

(** A used lease stays used. *)
Lemma used_later k k' id l : book_grows lt_used lt_burn k k' -> bk_leases k !! id = Some l ->
  lt_used l = true -> bk_leases k' !! id = Some l.
Proof. intros Hg. eapply book_used, Hg. Qed.

Lemma book_empty cap : broker_inv cap ->
  book_sound {| bk_capabilities := cap; bk_leases := ∅; bk_seen := ∅; bk_receipts := [] |}.
Proof. intros Hcap. by constructor. Qed.
End lease_book.

(** ** A broker with one admitted capability, for examples *)
Definition use_document (id capability_type : string) (scope : dict) : dict :=
  @seal checksum_digest "contract_sha256" (provisional_body CAPABILITY_SCHEMA Contracts.AUTHORITY
    [("capability_id", JStr id); ("capability_type", JStr capability_type);
     ("subject_id", JStr "agent:1"); ("issuer_id", JStr "issuer:1"); ("scope", JObj scope);
     ("issued_at_unix", JInt 100); ("not_before_unix", JInt 100); ("expires_at_unix", JInt 200);
     ("max_uses", JInt 2); ("delegable", JBool false); ("parent_capability_id", JNull);
     ("policy_sha256", JStr ZERO_SHA256)]).

Definition use_broker (capability_type : string) (scope : dict) : CapabilityBroker :=
  snd (@CapabilityBroker.admit_contract checksum_digest (use_document "cap:1" capability_type scope) 100
         (fresh_broker "broker:test")).

Lemma use_broker_reachable capability_type scope :
  CapabilityBroker_init "broker:test" = Ok (fresh_broker "broker:test")
  /\ star (@broker_step checksum_digest) (fresh_broker "broker:test") (use_broker capability_type scope).
Proof. split; [done|]. eapply star_step; [apply star_refl|apply step_admit]. Qed.
