(* ===== verification/FileMutation.v ===== *)
(** * File mutation (sdk/liminal_file_mutation_broker/__init__.py)

    The broker that admits the replacement of one existing file under a logical root the
    host provisioned, and leases it once to a trusted adapter. A method gets the answer of
    [clock()] to its call as an argument. *)
From stdpp Require Import gmap.
From Stdlib Require Import Ascii.
From S2P Require Import Prelude PyStr Json Digest Contracts CapabilityBroker BrokerInterface Mediation CapabilityUse.
#[local] Open Scope Z_scope.

(** ** Constants *)
Definition AUTH_SCHEMA : string := "liminal-file-mutation-authorization-receipt-v0.1".
Definition BINDING_SCHEMA : string := "liminal-file-root-binding-v0.1".
Definition MAX_LEASE_TTL_SECONDS : Z := 30.
Definition MAX_CONTENT_BYTES : Z := 8 * 1024 * 1024.

Definition AUTHORITY : dict :=
  [("mode", JStr "file_mutation_governance_only"); ("binding_registration", JBool false);
   ("filesystem_access", JBool false); ("file_create", JBool false); ("file_delete", JBool false);
   ("file_rename", JBool false); ("existing_file_replace_admission", JBool true);
   ("opaque_lease_issue", JBool true); ("trusted_adapter_authentication", JBool true);
   ("network_authority", JBool false); ("process_authority", JBool false);
   ("deployment", JBool false)].

(** ** Checks *)

(** [if b: raise FileMutationError(msg)] *)
Definition file_if (b : bool) (msg : string) : result unit := raise_if b FileMutationError msg.

Definition _ident (value : json) (name : string) : result string :=
  match value with
  | JStr s =>
      _ ← file_if (String.eqb (py_strip s) "" || negb (String.eqb s (py_strip s))
                   || contains_char "000" s) ("invalid_" +:+ name);
      _ ← file_if (negb (re_ident s)) ("invalid_" +:+ name);
      Ok s
  | _ => fail FileMutationError ("invalid_" +:+ name)
  end.

Definition _sha (value : json) (name : string) : result string :=
  check_sha FileMutationError ("invalid_" +:+ name) value.

Definition _positive_int (value : json) (name : string) (maximum : option Z) : result Z :=
  match value with
  | JInt n =>
      _ ← file_if (n <? 1) ("invalid_" +:+ name);
      _ ← file_if (match maximum with Some top => top <? n | None => false end) ("invalid_" +:+ name);
      Ok n
  | _ => fail FileMutationError ("invalid_" +:+ name)
  end.

(** [_PREFIX.fullmatch] *)
Definition prefix_match (s : string) : bool :=
  match s with
  | EmptyString => false
  | String c rest => is_alnum c && str_all (fun x => ident_char x && negb (Ascii.eqb x "/")) rest
                     && (String.length rest <=? 95)%nat
  end.

Definition normalize_relative_path (value : string) : result string :=
  _ ← file_if (String.eqb value "" || negb (String.eqb value (py_strip value))
               || contains_char "000" value) "invalid_relative_path";
  _ ← file_if (String.prefix "/" value || contains_char backslash value || str_contains "//" value)
        "invalid_relative_path";
  let parts := split_on "/" value in
  _ ← file_if (existsb (fun part => mem part [""; "."; ".."]) parts) "invalid_relative_path";
  _ ← file_if ((64 <? length parts)%nat || (1024 <? String.length value)%nat) "invalid_relative_path";
  _ ← file_if (existsb (fun part => (255 <? String.length part)%nat) parts) "invalid_relative_path";
  Ok (join "/" parts).

(** ** Data *)
Record FileRootBinding := {
  fb_root_id : string;
  fb_logical_prefix : string;
  fb_max_content_bytes : Z;
  fb_binding_sha256 : string
}.

Definition FileRootBinding_body (b : FileRootBinding) : dict :=
  [("schema", JStr BINDING_SCHEMA); ("root_id", JStr (fb_root_id b));
   ("logical_prefix", JStr (fb_logical_prefix b));
   ("max_content_bytes", JInt (fb_max_content_bytes b)); ("authority", JObj AUTHORITY)].

Definition FileRootBinding_as_document (b : FileRootBinding) : dict :=
  dict_set (FileRootBinding_body b) "binding_sha256" (JStr (fb_binding_sha256 b)).

Record FileMutationRequest := {
  fq_call_id : string;
  fq_subject_id : string;
  fq_policy_sha256 : string;
  fq_root_id : string;
  fq_relative_path : string;
  fq_expected_before_sha256 : string;
  fq_desired_content_sha256 : string;
  fq_content_length : Z
}.

Definition normalized (r : FileMutationRequest) : result FileMutationRequest :=
  call_id ← _ident (JStr (fq_call_id r)) "call_id";
  subject_id ← _ident (JStr (fq_subject_id r)) "subject_id";
  policy_sha256 ← _sha (JStr (fq_policy_sha256 r)) "policy_sha256";
  root_id ← _ident (JStr (fq_root_id r)) "root_id";
  relative_path ← normalize_relative_path (fq_relative_path r);
  before ← _sha (JStr (fq_expected_before_sha256 r)) "expected_before_sha256";
  desired ← _sha (JStr (fq_desired_content_sha256 r)) "desired_content_sha256";
  content_length ← _positive_int (JInt (fq_content_length r)) "content_length" (Some MAX_CONTENT_BYTES);
  Ok {| fq_call_id := call_id; fq_subject_id := subject_id; fq_policy_sha256 := policy_sha256;
        fq_root_id := root_id; fq_relative_path := relative_path;
        fq_expected_before_sha256 := before; fq_desired_content_sha256 := desired;
        fq_content_length := content_length |}.

Record FileMutationAuthorizationReceipt := {
  fr_authorization_id : string;
  fr_call_id : string;
  fr_subject_id : string;
  fr_request_sha256 : string;
  fr_binding_sha256 : string;
  fr_logical_path_sha256 : string;
  fr_expected_before_sha256 : string;
  fr_desired_content_sha256 : string;
  fr_content_length : Z;
  fr_capability_receipt_sha256 : string;
  fr_decision : string;
  fr_reason_codes : list string;
  fr_lease_id : option string;
  fr_lease_expires_at_unix : option Z;
  fr_at_unix : Z;
  fr_receipt_sha256 : string
}.

Definition FileMutationAuthorizationReceipt_body (r : FileMutationAuthorizationReceipt) : dict :=
  [("schema", JStr AUTH_SCHEMA); ("authorization_id", JStr (fr_authorization_id r));
   ("call_id", JStr (fr_call_id r)); ("subject_id", JStr (fr_subject_id r));
   ("request_sha256", JStr (fr_request_sha256 r)); ("binding_sha256", JStr (fr_binding_sha256 r));
   ("logical_path_sha256", JStr (fr_logical_path_sha256 r));
   ("expected_before_sha256", JStr (fr_expected_before_sha256 r));
   ("desired_content_sha256", JStr (fr_desired_content_sha256 r));
   ("content_length", JInt (fr_content_length r));
   ("capability_receipt_sha256", JStr (fr_capability_receipt_sha256 r));
   ("decision", JStr (fr_decision r)); ("reason_codes", jstrs (fr_reason_codes r));
   ("lease_id", jopt (fr_lease_id r));
   ("lease_expires_at_unix", jopt_int (fr_lease_expires_at_unix r)); ("at_unix", JInt (fr_at_unix r));
   ("authority", JObj AUTHORITY)].

Definition FileMutationAuthorizationReceipt_as_document (r : FileMutationAuthorizationReceipt) : dict :=
  dict_set (FileMutationAuthorizationReceipt_body r) "receipt_sha256" (JStr (fr_receipt_sha256 r)).

Record _Lease := {
  fl_lease_id : string;
  fl_request : FileMutationRequest;
  fl_binding : FileRootBinding;
  fl_logical_path : string;
  fl_capability_id : string;
  fl_capability_receipt_sha256 : string;
  fl_authorization_receipt_sha256 : string;
  fl_issued_at_unix : Z;
  fl_expires_at_unix : Z;
  fl_consumed : bool
}.

Record TrustedFileMutationReference := {
  ft_lease_id : string;
  ft_root_id : string;
  ft_relative_path : string;
  ft_expected_before_sha256 : string;
  ft_desired_content_sha256 : string;
  ft_content_length : Z;
  ft_binding_sha256 : string;
  ft_authorization_receipt_sha256 : string
}.

(** [lease.consumed = True] *)
Definition burn (l : _Lease) : _Lease := {|
  fl_lease_id := fl_lease_id l; fl_request := fl_request l; fl_binding := fl_binding l;
  fl_logical_path := fl_logical_path l; fl_capability_id := fl_capability_id l;
  fl_capability_receipt_sha256 := fl_capability_receipt_sha256 l;
  fl_authorization_receipt_sha256 := fl_authorization_receipt_sha256 l;
  fl_issued_at_unix := fl_issued_at_unix l; fl_expires_at_unix := fl_expires_at_unix l;
  fl_consumed := true |}.

Definition reference_of (l : _Lease) : TrustedFileMutationReference := {|
  ft_lease_id := fl_lease_id l; ft_root_id := fq_root_id (fl_request l);
  ft_relative_path := fq_relative_path (fl_request l);
  ft_expected_before_sha256 := fq_expected_before_sha256 (fl_request l);
  ft_desired_content_sha256 := fq_desired_content_sha256 (fl_request l);
  ft_content_length := fq_content_length (fl_request l);
  ft_binding_sha256 := fb_binding_sha256 (fl_binding l);
  ft_authorization_receipt_sha256 := fl_authorization_receipt_sha256 l |}.

(** ** The broker *)
Record FileMutationBroker := {
  fm_capability_broker : CapabilityBroker;
  fm_lease_ttl_seconds : Z;
  fm_adapter_token_sha256 : string;
  fm_bindings : gmap string FileRootBinding;
  fm_leases : gmap string _Lease;
  fm_seen_call_ids : gset string;
  fm_receipts : list FileMutationAuthorizationReceipt;
  fm_contained : bool
}.

Section broker_fields.
Implicit Types b : FileMutationBroker.

Definition set_capability_broker (c : CapabilityBroker) b : FileMutationBroker := {|
  fm_capability_broker := c; fm_lease_ttl_seconds := fm_lease_ttl_seconds b;
  fm_adapter_token_sha256 := fm_adapter_token_sha256 b; fm_bindings := fm_bindings b;
  fm_leases := fm_leases b; fm_seen_call_ids := fm_seen_call_ids b; fm_receipts := fm_receipts b;
  fm_contained := fm_contained b |}.

Definition set_leases (m : gmap string _Lease) b : FileMutationBroker := {|
  fm_capability_broker := fm_capability_broker b; fm_lease_ttl_seconds := fm_lease_ttl_seconds b;
  fm_adapter_token_sha256 := fm_adapter_token_sha256 b; fm_bindings := fm_bindings b;
  fm_leases := m; fm_seen_call_ids := fm_seen_call_ids b; fm_receipts := fm_receipts b;
  fm_contained := fm_contained b |}.

Definition see_call (call_id : string) b : FileMutationBroker := {|
  fm_capability_broker := fm_capability_broker b; fm_lease_ttl_seconds := fm_lease_ttl_seconds b;
  fm_adapter_token_sha256 := fm_adapter_token_sha256 b; fm_bindings := fm_bindings b;
  fm_leases := fm_leases b; fm_seen_call_ids := {[call_id]} ∪ fm_seen_call_ids b;
  fm_receipts := fm_receipts b; fm_contained := fm_contained b |}.

Definition push_receipt (r : FileMutationAuthorizationReceipt) b : FileMutationBroker := {|
  fm_capability_broker := fm_capability_broker b; fm_lease_ttl_seconds := fm_lease_ttl_seconds b;
  fm_adapter_token_sha256 := fm_adapter_token_sha256 b; fm_bindings := fm_bindings b;
  fm_leases := fm_leases b; fm_seen_call_ids := fm_seen_call_ids b;
  fm_receipts := fm_receipts b ++ [r]; fm_contained := fm_contained b |}.

Definition set_contained (flag : bool) b : FileMutationBroker := {|
  fm_capability_broker := fm_capability_broker b; fm_lease_ttl_seconds := fm_lease_ttl_seconds b;
  fm_adapter_token_sha256 := fm_adapter_token_sha256 b; fm_bindings := fm_bindings b;
  fm_leases := fm_leases b; fm_seen_call_ids := fm_seen_call_ids b; fm_receipts := fm_receipts b;
  fm_contained := flag |}.

Definition receipts b : list dict := map FileMutationAuthorizationReceipt_as_document (fm_receipts b).
End broker_fields.

Section file_mutation.
Context {hash : Digest}.

Definition _adapter_digest (token : string) : result string :=
  _ ← file_if (String.eqb token "") "invalid_adapter_token";
  Ok (sha256_hex token).

Definition seal_binding (b : FileRootBinding) : FileRootBinding := {|
  fb_root_id := fb_root_id b; fb_logical_prefix := fb_logical_prefix b;
  fb_max_content_bytes := fb_max_content_bytes b;
  fb_binding_sha256 := canonical_sha256 (JObj (FileRootBinding_body b)) |}.

Definition FileRootBinding_build (root_id logical_prefix max_content_bytes : json)
    : result FileRootBinding :=
  root_id ← _ident root_id "root_id";
  prefix ← match logical_prefix with
           | JStr s => _ ← file_if (negb (prefix_match s)) "invalid_logical_prefix"; Ok s
           | _ => fail FileMutationError "invalid_logical_prefix"
           end;
  max_content_bytes ← _positive_int max_content_bytes "max_content_bytes" (Some MAX_CONTENT_BYTES);
  Ok (seal_binding {| fb_root_id := root_id; fb_logical_prefix := prefix;
                      fb_max_content_bytes := max_content_bytes; fb_binding_sha256 := "" |}).

Definition binding_keys : list string :=
  ["schema"; "root_id"; "logical_prefix"; "max_content_bytes"; "authority"; "binding_sha256"].

Definition FileRootBinding_from_document (raw : dict) : result FileRootBinding :=
  _ ← file_if (negb (keys_are raw binding_keys)
               || negb (is_str (dict_get_none raw "schema") BINDING_SCHEMA)
               || negb (py_eq (dict_get_none raw "authority") (JObj AUTHORITY)))
        "binding_schema_mismatch";
  root_id ← dict_item raw "root_id";
  prefix ← dict_item raw "logical_prefix";
  max_content_bytes ← dict_item raw "max_content_bytes";
  item ← FileRootBinding_build root_id prefix max_content_bytes;
  raw_sha ← dict_item raw "binding_sha256";
  sha ← _sha raw_sha "binding_sha256";
  _ ← file_if (negb (String.eqb (fb_binding_sha256 item) sha)) "binding_digest_mismatch";
  Ok item.

Definition FileMutationRequest_body (r : FileMutationRequest) : result dict :=
  r ← normalized r;
  Ok [("call_id", JStr (fq_call_id r)); ("subject_id", JStr (fq_subject_id r));
      ("policy_sha256", JStr (fq_policy_sha256 r)); ("root_id", JStr (fq_root_id r));
      ("relative_path_sha256", JStr (canonical_sha256 (JStr (fq_relative_path r))));
      ("expected_before_sha256", JStr (fq_expected_before_sha256 r));
      ("desired_content_sha256", JStr (fq_desired_content_sha256 r));
      ("content_length", JInt (fq_content_length r));
      ("operation", JStr "replace_existing_regular_file")].

Definition seal_receipt (r : FileMutationAuthorizationReceipt) : FileMutationAuthorizationReceipt := {|
  fr_authorization_id := fr_authorization_id r; fr_call_id := fr_call_id r;
  fr_subject_id := fr_subject_id r; fr_request_sha256 := fr_request_sha256 r;
  fr_binding_sha256 := fr_binding_sha256 r; fr_logical_path_sha256 := fr_logical_path_sha256 r;
  fr_expected_before_sha256 := fr_expected_before_sha256 r;
  fr_desired_content_sha256 := fr_desired_content_sha256 r; fr_content_length := fr_content_length r;
  fr_capability_receipt_sha256 := fr_capability_receipt_sha256 r; fr_decision := fr_decision r;
  fr_reason_codes := fr_reason_codes r; fr_lease_id := fr_lease_id r;
  fr_lease_expires_at_unix := fr_lease_expires_at_unix r; fr_at_unix := fr_at_unix r;
  fr_receipt_sha256 := canonical_sha256 (JObj (FileMutationAuthorizationReceipt_body r)) |}.

(** The loop of [__init__] over the parsed bindings. *)
Definition add_binding (by_id : gmap string FileRootBinding) (item : FileRootBinding)
    : result (gmap string FileRootBinding) :=
  _ ← file_if (is_Some_b (by_id !! fb_root_id item)) "duplicate_root_id";
  Ok (<[fb_root_id item := item]> by_id).

Definition FileMutationBroker_init (capability_broker : CapabilityBroker) (bindings : list dict)
    (adapter_token_sha256 : string) (lease_ttl_seconds : Z) : result FileMutationBroker :=
  ttl ← _positive_int (JInt lease_ttl_seconds) "lease_ttl_seconds" (Some MAX_LEASE_TTL_SECONDS);
  token ← _sha (JStr adapter_token_sha256) "adapter_token_sha256";
  parsed ← map_r FileRootBinding_from_document bindings;
  _ ← file_if (bool_decide (parsed = [])) "bindings_required";
  by_id ← fold_r add_binding ∅ parsed;
  Ok {| fm_capability_broker := capability_broker; fm_lease_ttl_seconds := ttl;
        fm_adapter_token_sha256 := token; fm_bindings := by_id; fm_leases := ∅;
        fm_seen_call_ids := ∅; fm_receipts := []; fm_contained := false |}.

Definition enter_containment (incident_receipt_sha256 : string) : M FileMutationBroker unit :=
  _ ← lift (_sha (JStr incident_receipt_sha256) "incident_receipt_sha256");
  modify (set_contained true).

Definition exit_containment (human_release_receipt_sha256 : string) : M FileMutationBroker unit :=
  _ ← lift (_sha (JStr human_release_receipt_sha256) "human_release_receipt_sha256");
  modify (set_contained false).

(** [self._now()] when the clock answers [clock]. *)
Definition _now (clock : result Z) : result Z :=
  value ← clock;
  _ ← file_if (value <? 0) "invalid_host_clock";
  Ok value.

Definition _capability_still_active (capability_id : string) (now : Z) (self : FileMutationBroker)
    : result bool := still_active (fm_capability_broker self) capability_id now.
(** The receipt [_receipt] appends. *)
Definition receipt_of (count : nat) (req : FileMutationRequest)
    (request_sha binding_sha logical_path_sha capability_receipt_sha decision : string)
    (reasons : list string) (lease_id : option string) (lease_expires : option Z) (now : Z)
    : FileMutationAuthorizationReceipt :=
  seal_receipt {|
    fr_authorization_id := "file-auth:" +:+ pretty (Z.of_nat count + 1);
    fr_call_id := fq_call_id req; fr_subject_id := fq_subject_id req;
    fr_request_sha256 := request_sha; fr_binding_sha256 := binding_sha;
    fr_logical_path_sha256 := logical_path_sha;
    fr_expected_before_sha256 := fq_expected_before_sha256 req;
    fr_desired_content_sha256 := fq_desired_content_sha256 req;
    fr_content_length := fq_content_length req;
    fr_capability_receipt_sha256 := capability_receipt_sha; fr_decision := decision;
    fr_reason_codes := sorted_set reasons; fr_lease_id := lease_id;
    fr_lease_expires_at_unix := lease_expires; fr_at_unix := now; fr_receipt_sha256 := "" |}.

Definition _receipt (req : FileMutationRequest)
    (request_sha binding_sha logical_path_sha capability_receipt_sha decision : string)
    (reasons : list string) (lease_id : option string) (lease_expires : option Z) (now : Z)
    : M FileMutationBroker dict :=
  self ← get_state;
  let receipt := receipt_of (length (fm_receipts self)) req request_sha binding_sha logical_path_sha
    capability_receipt_sha decision reasons lease_id lease_expires now in
  _ ← modify (push_receipt receipt);
  mret (FileMutationAuthorizationReceipt_as_document receipt).

(** [f"{binding.logical_prefix}/{req.relative_path}"] *)
Definition logical_path_of (binding : FileRootBinding) (req : FileMutationRequest) : string :=
  fb_logical_prefix binding +:+ "/" +:+ fq_relative_path req.

(** The [requested_scope] and the [action] of the capability decision. *)
Definition write_scope (logical_path : string) : dict := [("paths", jstrs [logical_path])].

Definition write_action (req : FileMutationRequest) (request_sha binding_sha logical_path_sha : string)
    : dict :=
  [("operation", JStr "replace_existing_regular_file"); ("call_id", JStr (fq_call_id req));
   ("request_sha256", JStr request_sha); ("binding_sha256", JStr binding_sha);
   ("logical_path_sha256", JStr logical_path_sha);
   ("expected_before_sha256", JStr (fq_expected_before_sha256 req));
   ("desired_content_sha256", JStr (fq_desired_content_sha256 req));
   ("content_length", JInt (fq_content_length req))].

Definition lease_id_of (count : nat) (call_id logical_path_sha : string) : string :=
  "file-lease:" +:+ pretty (Z.of_nat count + 1) +:+ ":"
  +:+ str_take 16 (canonical_sha256 (JObj [("call", JStr call_id); ("path", JStr logical_path_sha)])).

(** The end of [authorize], after the capability was admitted. *)
Definition issue_lease (req : FileMutationRequest) (request_sha : string) (binding : FileRootBinding)
    (logical_path logical_path_sha : string) (capability : dict) (now : Z)
    : M FileMutationBroker dict :=
  self ← get_state;
  let lease_id := lease_id_of (size (fm_leases self)) (fq_call_id req) logical_path_sha in
  let expires := now + fm_lease_ttl_seconds self in
  capability_sha ← lift (str_item capability "receipt_sha256");
  receipt ← _receipt req request_sha (fb_binding_sha256 binding) logical_path_sha capability_sha "ALLOW"
    ["root_binding_match"; "file_capability_admitted"; "opaque_lease_issued"]
    (Some lease_id) (Some expires) now;
  capability_id ← lift (str_item capability "capability_id");
  receipt_sha ← lift (str_item receipt "receipt_sha256");
  _ ← modify (fun b => set_leases (<[lease_id := {|
    fl_lease_id := lease_id; fl_request := req; fl_binding := binding;
    fl_logical_path := logical_path; fl_capability_id := capability_id;
    fl_capability_receipt_sha256 := capability_sha; fl_authorization_receipt_sha256 := receipt_sha;
    fl_issued_at_unix := now; fl_expires_at_unix := expires; fl_consumed := false |}]> (fm_leases b)) b);
  mret receipt.

(** The part of [authorize] that asks the capability broker. *)
Definition ask_capability (req : FileMutationRequest) (request_sha : string) (binding : FileRootBinding)
    (logical_path logical_path_sha : string) (now : Z) : M FileMutationBroker dict :=
  capability ← zoom fm_capability_broker set_capability_broker
    (CapabilityBroker.authorize (fq_subject_id req) "filesystem.write_outside_workspace"
       (fq_policy_sha256 req) (write_scope logical_path)
       (write_action req request_sha (fb_binding_sha256 binding) logical_path_sha) now None None);
  decision ← lift (dict_item capability "decision");
  if negb (is_str decision "ALLOW") then
    capability_sha ← lift (str_item capability "receipt_sha256");
    codes ← lift (codes_item capability "reason_codes");
    _receipt req request_sha (fb_binding_sha256 binding) logical_path_sha capability_sha "BLOCK" codes
      None None now
  else issue_lease req request_sha binding logical_path logical_path_sha capability now.

Definition authorize (clock : result Z) (request : FileMutationRequest) : M FileMutationBroker dict :=
  req ← lift (normalized request);
  now ← lift (_now clock);
  body ← lift (FileMutationRequest_body req);
  self ← get_state;
  let request_sha := canonical_sha256 (JObj body) in
  let binding := fm_bindings self !! fq_root_id req in
  let logical_path := match binding with Some b => logical_path_of b req | None => "" end in
  let logical_path_sha := if String.eqb logical_path "" then ZERO_SHA256
                          else canonical_sha256 (JStr logical_path) in
  if bool_decide (fq_call_id req ∈ fm_seen_call_ids self) then
    _receipt req request_sha ZERO_SHA256 logical_path_sha ZERO_SHA256 "BLOCK" ["replayed_call_id"]
      None None now
  else
    _ ← modify (see_call (fq_call_id req));
    if fm_contained self then
      _receipt req request_sha ZERO_SHA256 logical_path_sha ZERO_SHA256 "BLOCK" ["containment_active"]
        None None now
    else
      match binding with
      | None =>
          _receipt req request_sha ZERO_SHA256 ZERO_SHA256 ZERO_SHA256 "BLOCK" ["unknown_root_binding"]
            None None now
      | Some binding =>
          if fb_max_content_bytes binding <? fq_content_length req then
            _receipt req request_sha (fb_binding_sha256 binding) logical_path_sha ZERO_SHA256 "BLOCK"
              ["content_length_exceeds_binding"] None None now
          else ask_capability req request_sha binding logical_path logical_path_sha now
      end.

(** The checks of [consume_for_trusted_adapter]; the lease that may be used. *)
Definition check_lease (clock : result Z) (lease_id adapter_token : string) (self : FileMutationBroker)
    : result _Lease :=
  supplied ← _adapter_digest adapter_token;
  _ ← file_if (negb (String.eqb supplied (fm_adapter_token_sha256 self))) "adapter_auth_failed";
  now ← _now clock;
  _ ← file_if (fm_contained self) "containment_active";
  lease ← match fm_leases self !! lease_id with
          | Some lease => Ok lease
          | None => fail FileMutationError "unknown_lease"
          end;
  _ ← file_if (fl_consumed lease) "lease_replayed";
  _ ← file_if (fl_expires_at_unix lease <? now) "lease_expired";
  _ ← file_if (now <? fl_issued_at_unix lease) "clock_regression";
  active ← _capability_still_active (fl_capability_id lease) now self;
  _ ← file_if (negb active) "source_capability_inactive";
  Ok lease.

Definition consume_for_trusted_adapter (clock : result Z) (lease_id adapter_token : string)
    : M FileMutationBroker TrustedFileMutationReference :=
  self ← get_state;
  lease ← lift (check_lease clock lease_id adapter_token self);
  _ ← modify (set_leases (<[lease_id := burn lease]> (fm_leases self)));
  mret (reference_of lease).

Definition authorization_keys : list string :=
  ["schema"; "authorization_id"; "call_id"; "subject_id"; "request_sha256"; "binding_sha256";
   "logical_path_sha256"; "expected_before_sha256"; "desired_content_sha256"; "content_length";
   "capability_receipt_sha256"; "decision"; "reason_codes"; "lease_id"; "lease_expires_at_unix";
   "at_unix"; "authority"; "receipt_sha256"].

Definition verify_authorization_receipt (document : dict) : result dict :=
  _ ← file_if (negb (keys_are document authorization_keys)) "authorization_receipt_schema_mismatch";
  receipt_sha ← dict_item document "receipt_sha256";
  let raw := dict_del document "receipt_sha256" in
  _ ← file_if (negb (is_str (dict_get_none raw "schema") AUTH_SCHEMA)
               || negb (py_eq (dict_get_none raw "authority") (JObj AUTHORITY)))
        "authorization_receipt_schema_mismatch";
  _ ← file_if (negb (is_str receipt_sha (canonical_sha256 (JObj raw))))
        "authorization_receipt_digest_mismatch";
  Ok document.
End file_mutation.

(** ** Lemmas *)

(** *** Paths *)
Lemma double_slash_part v : str_contains "//" v = true -> "" ∈ tail (split_on "/" v).
Proof.
  induction v as [|c v IH]; [done|]. cbn [str_contains]. rewrite orb_true_iff. intros [Hp|Hc].
  - destruct v as [|c' v]; [by destruct c as [[] [] [] [] [] [] [] []]|].
    change (String.prefix "//" (String c (String c' v)))
      with (if ascii_dec "/" c then (if ascii_dec "/" c' then String.prefix "" v else false) else false) in Hp.
    destruct (ascii_dec "/" c) as [<-|]; [|done]. destruct (ascii_dec "/" c') as [<-|]; [|done].
    change (split_on "/" (String "/" (String "/" v))) with ("" :: "" :: split_on "/" v). by left.
  - specialize (IH Hc). cbn [split_on]. destruct (Ascii.eqb c "/"); cbn [tail].
    + destruct (split_on "/" v); [done|]. by right.
    + by destruct (split_on "/" v).
Qed.

(** What [normalize_relative_path] accepts: one to 64 named segments below the root. *)
Record safe_path (v : string) : Prop := {
  sp_parts : exists parts, v = join "/" parts /\ (1 <= length parts <= 64)%nat
    /\ Forall (fun part => part <> "" /\ part <> "." /\ part <> ".." /\ no_slash part
                          /\ (String.length part <= 255)%nat) parts;
  sp_length : (String.length v <= 1024)%nat;
  sp_trimmed : py_strip v = v;
  sp_characters : contains_char "000" v = false /\ contains_char backslash v = false
}.

Lemma path_accepted v p : normalize_relative_path v = Ok p <-> p = v /\ safe_path v.
Proof.
  unfold normalize_relative_path, file_if. cbv zeta. rewrite join_split_on, !raise_if_bind.
  rewrite !orb_false_iff, !Nat.ltb_ge, String.eqb_neq, negb_false_iff, String.eqb_eq. split.
  - intros (((_ & Ht) & Hn) & ((_ & Hb) & _) & Hd & (H64 & Hl) & H255 & [= <-]).
    split; [done|]. split; [|done|by symmetry|done].
    exists (split_on "/" v). rewrite join_split_on. split; [done|]. split.
    + split; [|done]. destruct v as [|c v]; [cbn; lia|]. cbn.
      destruct (Ascii.eqb c "/"); [cbn; lia|]. destruct (split_on "/" v); cbn; lia.
    + apply Forall_forall. intros part Hp. pose proof (split_no_slash v) as Hs. rewrite Forall_forall in Hs.
      assert (mem part [""; "."; ".."] = false) as Hm.
      { apply not_true_is_false. intros Hm. apply not_true_iff_false in Hd. apply Hd, existsb_exists.
        exists part. split; [by apply list_elem_of_In|done]. }
      apply mem_false in Hm. split_and!; [set_solver..|by apply Hs|].
      apply not_true_iff_false in H255. destruct (Nat.le_gt_cases (String.length part) 255); [done|].
      exfalso. apply H255, existsb_exists. exists part. split; [by apply list_elem_of_In|by apply Nat.ltb_lt].
  - intros [-> [(parts & Hv & [H1 H64] & Hp) Hl Ht [Hn Hb]]].
    assert (split_on "/" v = parts) as Hsplit.
    { rewrite Hv. apply split_join; [|by destruct parts; [cbn in H1; lia|]].
      eapply Forall_impl; [exact Hp|]. by intros x (_ & _ & _ & ? & _). }
    rewrite Hsplit. rewrite Forall_forall in Hp. split_and!; try done.
    + intros ->. cbn in Hsplit. subst parts. destruct (Hp "") as [? _]; [by left|done].
    + destruct v as [|c v]; [done|].
      change (String.prefix "/" (String c v)) with (if ascii_dec "/" c then String.prefix "" v else false).
      destruct (ascii_dec "/" c) as [<-|]; [|done].
      change (split_on "/" (String "/" v)) with ("" :: split_on "/" v) in Hsplit. exfalso.
      destruct (Hp "") as [? _]; [rewrite <- Hsplit; by left|done].
    + apply not_true_is_false. intros Hc%double_slash_part. rewrite Hsplit in Hc.
      destruct (Hp "") as [? _]; [|done]. by destruct parts; [inversion Hc|right].
    + apply not_true_is_false. intros (x & Hx & Hm)%existsb_exists.
      apply list_elem_of_In in Hx. destruct (Hp x Hx) as (? & ? & ? & _). apply mem_true in Hm. set_solver.
    + apply not_true_is_false. intros (x & Hx & Hm)%existsb_exists.
      apply list_elem_of_In in Hx. destruct (Hp x Hx) as (_ & _ & _ & _ & Hx'). apply Nat.ltb_lt in Hm. lia.
Qed.

(** The one error of the checks. *)
Lemma path_refused v :
  normalize_relative_path v = Ok v \/ normalize_relative_path v = fail FileMutationError "invalid_relative_path".
Proof.
  unfold normalize_relative_path, file_if. cbv zeta. rewrite join_split_on.
  repeat match goal with |- context [raise_if ?c] => destruct c; [by right|] end. by left.
Qed.

(** *** Requests *)
Lemma file_ident_accepted v name s : _ident v name = Ok s <-> v = JStr s /\ re_ident s = true.
Proof.
  destruct v as [| | |v| |]; try (split; [done|by intros []]). unfold _ident, file_if.
  rewrite !raise_if_bind, negb_false_iff. split; [by intros (_ & ? & [= <-])|]. intros [[= ->] Hs].
  destruct (re_ident_solid s Hs) as [Hsol Hne]. rewrite py_strip_solid, no_nul_solid, String.eqb_refl by done.
  split; [|done]. rewrite !orb_false_r. by apply String.eqb_neq.
Qed.

Lemma file_sha_accepted s name s' : _sha (JStr s) name = Ok s' <-> s' = s /\ re_sha s = true.
Proof. apply check_sha_str_ok. Qed.

Lemma ident_ok s name : re_ident s = true -> _ident (JStr s) name = Ok s.
Proof. intros H. by apply file_ident_accepted. Qed.

Lemma sha_ok s name : re_sha s = true -> _sha (JStr s) name = Ok s.
Proof. intros H. by apply file_sha_accepted. Qed.

Lemma positive_accepted n name top n' :
  _positive_int (JInt n) name (Some top) = Ok n' <-> n' = n /\ 1 <= n <= top.
Proof.
  unfold _positive_int, file_if. rewrite !raise_if_bind, !Z.ltb_ge.
  split; [intros (? & ? & [= <-]); by split_and!|]. by intros (-> & ? & ?).
Qed.

Record request_ok (r : FileMutationRequest) : Prop := {
  rq_call : re_ident (fq_call_id r) = true;
  rq_subject : re_ident (fq_subject_id r) = true;
  rq_policy : re_sha (fq_policy_sha256 r) = true;
  rq_root : re_ident (fq_root_id r) = true;
  rq_path : safe_path (fq_relative_path r);
  rq_before : re_sha (fq_expected_before_sha256 r) = true;
  rq_desired : re_sha (fq_desired_content_sha256 r) = true;
  rq_length : 1 <= fq_content_length r <= MAX_CONTENT_BYTES
}.

Lemma normalized_accepts r r' : normalized r = Ok r' <-> r' = r /\ request_ok r.
Proof.
  unfold normalized. split.
  - intros H. py_inv.
    repeat match goal with
    | Hi : _ident _ _ = Ok _ |- _ => apply file_ident_accepted in Hi as [[= <-] ?]
    | Hi : _sha _ _ = Ok _ |- _ => apply file_sha_accepted in Hi as [-> ?]
    | Hi : normalize_relative_path _ = Ok _ |- _ => apply path_accepted in Hi as [-> ?]
    | Hi : _positive_int _ _ _ = Ok _ |- _ => apply positive_accepted in Hi as [-> ?]
    end.
    by destruct r.
  - intros [-> [H1 H2 H3 H4 Hp H5 H6 Hn]].
    rewrite !ident_ok, !sha_ok by done. rewrite (proj2 (path_accepted _ _) (conj eq_refl Hp)).
    rewrite (proj2 (positive_accepted _ _ _ _) (conj eq_refl Hn)). by destruct r.
Qed.

Lemma file_now_accepts clock now : _now clock = Ok now <-> clock = Ok now /\ 0 <= now.
Proof.
  unfold _now, file_if. destruct clock as [v|e]; [|by split; [|intros []]].
  rewrite bind_Ok, raise_if_bind, Z.ltb_ge. split; [by intros [? [= <-]]|]. by intros [[= ->] ?].
Qed.

(** *** The invariant *)
Section invariant.
Context {hash : Digest}.
Implicit Types b : FileMutationBroker.

Lemma write_scope_valid lp scope :
  validate_scope "filesystem.write_outside_workspace" (JObj (write_scope lp)) = Ok scope ->
  scope = write_scope lp.
Proof.
  intros H. apply plain_scope in H; [done|]. repeat constructor. exists lp. by right.
Qed.

(** The digest of the request a lease was issued for. *)
Definition request_digest (r : FileMutationRequest) : string :=
  canonical_sha256 (JObj (from_ok [] (FileMutationRequest_body r))).

(** The authorization receipt of a lease. *)
Record authorizes (r : FileMutationAuthorizationReceipt) (l : _Lease) : Prop := {
  au_decision : fr_decision r = "ALLOW";
  au_lease : fr_lease_id r = Some (fl_lease_id l);
  au_expires : fr_lease_expires_at_unix r = Some (fl_expires_at_unix l);
  au_at : fr_at_unix r = fl_issued_at_unix l;
  au_call : fr_call_id r = fq_call_id (fl_request l);
  au_subject : fr_subject_id r = fq_subject_id (fl_request l);
  au_request : fr_request_sha256 r = request_digest (fl_request l);
  au_binding : fr_binding_sha256 r = fb_binding_sha256 (fl_binding l);
  au_path : fr_logical_path_sha256 r = canonical_sha256 (JStr (fl_logical_path l));
  au_before : fr_expected_before_sha256 r = fq_expected_before_sha256 (fl_request l);
  au_desired : fr_desired_content_sha256 r = fq_desired_content_sha256 (fl_request l);
  au_length : fr_content_length r = fq_content_length (fl_request l);
  au_capability : fr_capability_receipt_sha256 r = fl_capability_receipt_sha256 l;
  au_digest : fr_receipt_sha256 r = fl_authorization_receipt_sha256 l
}.

(** What backs a lease, given the lifetime and the roots the host configured: its request is
    well-formed and fits its root, its use of the capability was admitted for exactly its
    logical path, and its receipt is on record. *)
Record lease_ok (ttl : Z) (roots : gmap string FileRootBinding)
    (k : LeaseBook _Lease FileMutationAuthorizationReceipt) (id : string) (l : _Lease) : Prop := {
  lo_id : fl_lease_id l = id;
  lo_request : request_ok (fl_request l);
  lo_seen : fq_call_id (fl_request l) ∈ bk_seen k;
  lo_binding : roots !! fq_root_id (fl_request l) = Some (fl_binding l);
  lo_length : fq_content_length (fl_request l) <= fb_max_content_bytes (fl_binding l);
  lo_path : fl_logical_path l = logical_path_of (fl_binding l) (fl_request l);
  lo_expires : fl_expires_at_unix l = fl_issued_at_unix l + ttl;
  lo_admitted : admitted (bk_capabilities k) (fq_subject_id (fl_request l))
    "filesystem.write_outside_workspace" (fq_policy_sha256 (fl_request l))
    (write_scope (fl_logical_path l))
    (write_action (fl_request l) (request_digest (fl_request l)) (fb_binding_sha256 (fl_binding l))
       (canonical_sha256 (JStr (fl_logical_path l))))
    (fl_issued_at_unix l) (fl_capability_id l) (fl_capability_receipt_sha256 l);
  lo_receipt : Exists (fun r => authorizes r l) (bk_receipts k)
}.

Definition receipt_sealed (r : FileMutationAuthorizationReceipt) : Prop :=
  fr_receipt_sha256 r = canonical_sha256 (JObj (FileMutationAuthorizationReceipt_body r)).

(** A binding the host provisioned. *)
Record binding_ok (id : string) (bd : FileRootBinding) : Prop := {
  bo_id : fb_root_id bd = id;
  bo_prefix : prefix_match (fb_logical_prefix bd) = true;
  bo_max : 1 <= fb_max_content_bytes bd <= MAX_CONTENT_BYTES;
  bo_digest : fb_binding_sha256 bd = canonical_sha256 (JObj (FileRootBinding_body bd))
}.

#[local] Obligation Tactic := idtac.

#[export] Program Instance file_leases (ttl : Z) (roots : gmap string FileRootBinding) :
    LeaseTheory _Lease FileMutationAuthorizationReceipt := {
  lt_kind := "file-lease:"; lt_call l := fq_call_id (fl_request l); lt_used := fl_consumed;
  lt_burn := burn; lt_sealed := receipt_sealed; lt_backed := lease_ok ttl roots }.
Next Obligation. done. Qed.
Next Obligation. done. Qed.
Next Obligation.
  intros ttl roots k id l []. constructor; try done. eapply Exists_impl; [exact lo_receipt0|]. by intros r [].
Qed.
Next Obligation. intros ttl roots k id l. apply lo_seen. Qed.
Next Obligation.
  intros ttl roots k k' id l [Hbr _ Hs [rs Hr]] []. constructor; try done; [set_solver| |].
  - by eapply admitted_later.
  - rewrite Hr. apply Exists_app. by left.
Qed.

Definition book_of b : LeaseBook _Lease FileMutationAuthorizationReceipt := {|
  bk_capabilities := fm_capability_broker b; bk_leases := fm_leases b; bk_seen := fm_seen_call_ids b;
  bk_receipts := fm_receipts b |}.

(** What the host configured is fixed. *)
Definition configuration b : Z * string * gmap string FileRootBinding :=
  (fm_lease_ttl_seconds b, fm_adapter_token_sha256 b, fm_bindings b).

Definition theory_of b : LeaseTheory _Lease FileMutationAuthorizationReceipt :=
  file_leases (fm_lease_ttl_seconds b) (fm_bindings b).

Record file_inv b : Prop := {
  fi_ttl : 1 <= fm_lease_ttl_seconds b <= MAX_LEASE_TTL_SECONDS;
  fi_bindings : map_Forall binding_ok (fm_bindings b);
  fi_book : book_sound (T := theory_of b) (book_of b)
}.

(** The steps keep the configuration and the soundness of the book. *)
Definition file_ok b b' : Prop :=
  configuration b' = configuration b /\ book_kept (T := theory_of b) (book_of b) (book_of b').

#[export] Instance file_ok_preorder : PreOrder file_ok.
Proof.
  split; [by intros b|]. intros b1 b2 b3 [E1 H1] [E2 H2]. split; [congruence|].
  unfold theory_of in *. injection E1 as Et _ Eb. rewrite Et, Eb in H2. by etrans.
Qed.

Lemma file_ok_inv b b' : file_ok b b' -> file_inv b ->
  file_inv b' /\ book_grows fl_consumed burn (book_of b) (book_of b').
Proof.
  intros [E Hk] [Ht Hbd Hb]. destruct (Hk Hb) as [Hb' Hg]. split; [|exact Hg].
  injection E as Et _ Eb. constructor; rewrite ?Et, ?Eb; [done|done|]. unfold theory_of. by rewrite Et, Eb.
Qed.

Lemma file_push_ok b r : receipt_sealed r -> file_ok b (push_receipt r b).
Proof. intros Hr. split; [done|]. by apply (book_push (T := theory_of b)). Qed.

Lemma file_see_ok b call_id : file_ok b (see_call call_id b).
Proof. split; [done|]. apply (book_see (T := theory_of b)). Qed.

Lemma file_contained_ok b flag : file_ok b (set_contained flag b).
Proof. by split. Qed.

Lemma file_capability_ok b c : broker_ok (fm_capability_broker b) c -> file_ok b (set_capability_broker c b).
Proof. intros Hc. split; [done|]. by apply (book_capabilities (T := theory_of b)). Qed.

Lemma file_burn_ok b id l : fm_leases b !! id = Some l -> fl_consumed l = false ->
  file_ok b (set_leases (<[id := burn l]> (fm_leases b)) b).
Proof. intros Hl Hu. split; [done|]. by apply (book_burned (T := theory_of b)). Qed.

Lemma file_receipt_run req rsha bsha psha csha dec rs lid exp now b :
  let r := receipt_of (length (fm_receipts b)) req rsha bsha psha csha dec rs lid exp now in
  _receipt req rsha bsha psha csha dec rs lid exp now b
  = (Ok (FileMutationAuthorizationReceipt_as_document r), push_receipt r b).
Proof. reflexivity. Qed.

Lemma file_receipt_ok req rsha bsha psha csha dec rs lid exp now b :
  file_ok b (snd (_receipt req rsha bsha psha csha dec rs lid exp now b)).
Proof. rewrite file_receipt_run. by apply file_push_ok. Qed.

(** The lease and the receipt [issue_lease] makes. *)
Definition lease_for b (req : FileMutationRequest) (binding : FileRootBinding) (lp id csha : string)
    (now : Z) (r : FileMutationAuthorizationReceipt) : _Lease := {|
  fl_lease_id := lease_id_of (size (fm_leases b)) (fq_call_id req) (canonical_sha256 (JStr lp));
  fl_request := req; fl_binding := binding; fl_logical_path := lp; fl_capability_id := id;
  fl_capability_receipt_sha256 := csha; fl_authorization_receipt_sha256 := fr_receipt_sha256 r;
  fl_issued_at_unix := now; fl_expires_at_unix := now + fm_lease_ttl_seconds b; fl_consumed := false |}.

Definition grant_for b (req : FileMutationRequest) (binding : FileRootBinding) (lp csha : string)
    (now : Z) : FileMutationAuthorizationReceipt :=
  receipt_of (length (fm_receipts b)) req (request_digest req) (fb_binding_sha256 binding)
    (canonical_sha256 (JStr lp)) csha "ALLOW"
    ["root_binding_match"; "file_capability_admitted"; "opaque_lease_issued"]
    (Some (lease_id_of (size (fm_leases b)) (fq_call_id req) (canonical_sha256 (JStr lp))))
    (Some (now + fm_lease_ttl_seconds b)) now.

Definition add_lease (l : _Lease) b : FileMutationBroker :=
  set_leases (<[fl_lease_id l := l]> (fm_leases b)) b.

Lemma file_issue_run req binding lp doc now b id csha :
  dict_get doc "capability_id" = Some (JStr id) -> dict_get doc "receipt_sha256" = Some (JStr csha) ->
  let r := grant_for b req binding lp csha now in
  issue_lease req (request_digest req) binding lp (canonical_sha256 (JStr lp)) doc now b
  = (Ok (FileMutationAuthorizationReceipt_as_document r),
     add_lease (lease_for b req binding lp id csha now r) (push_receipt r b)).
Proof.
  intros Hid Hsha. unfold issue_lease. M_go.
  rewrite (str_item_get _ _ _ Hid), (str_item_get _ _ _ Hsha). M_go. rewrite M_bind_eq, file_receipt_run. M_go.
  change (str_item (FileMutationAuthorizationReceipt_as_document ?r) "receipt_sha256")
    with (Ok (fr_receipt_sha256 r)). by M_go.
Qed.

Lemma file_add_lease_ok b l rest : lease_ok (fm_lease_ttl_seconds b) (fm_bindings b) (book_of b) (fl_lease_id l) l ->
  fl_lease_id l = "file-lease:" +:+ pretty (Z.of_nat (size (fm_leases b)) + 1) +:+ ":" +:+ rest ->
  (forall id l', fm_leases b !! id = Some l' -> fq_call_id (fl_request l') <> fq_call_id (fl_request l)) ->
  file_ok b (add_lease l b).
Proof.
  intros Hl Hid Hcall. split; [done|]. unfold add_lease. rewrite Hid in *.
  by apply (book_added (T := theory_of b) (book_of b) l rest).
Qed.

Lemma file_ask_ok req binding now b : file_inv b -> request_ok req -> fq_call_id req ∈ fm_seen_call_ids b ->
  fm_bindings b !! fq_root_id req = Some binding ->
  fq_content_length req <= fb_max_content_bytes binding ->
  (forall id l, fm_leases b !! id = Some l -> fq_call_id (fl_request l) <> fq_call_id req) ->
  let lp := logical_path_of binding req in
  file_ok b (snd (ask_capability req (request_digest req) binding lp (canonical_sha256 (JStr lp)) now b)).
Proof.
  intros Hb Hreq Hseen Hbind Hlen Hcall lp. unfold ask_capability. rewrite M_bind_eq. unfold zoom.
  pose proof (authorize_ok (fq_subject_id req) "filesystem.write_outside_workspace" (fq_policy_sha256 req)
    (write_scope lp) (write_action req (request_digest req) (fb_binding_sha256 binding)
    (canonical_sha256 (JStr lp))) now None None (fm_capability_broker b)) as Hauth.
  destruct (CapabilityBroker.authorize _ _ _ _ _ _ _ _ _) as [[doc|e] c] eqn:Ha; cbn [snd] in Hauth;
    apply file_capability_ok in Hauth; [|exact Hauth].
  set (b1 := set_capability_broker c b) in *. rewrite M_lift. destruct (dict_item doc "decision") as [d|e] eqn:Hd;
    [|exact Hauth].
  destruct (is_str d "ALLOW") eqn:Hdec; cbn [negb].
  - destruct (authorize_admits _ _ _ _ _ _ _ _ _ _ _ (bs_capabilities _ (fi_book b Hb)) Ha
      (decision_item _ _ _ Hd Hdec)) as (scope & id & csha & Hscope & Hid & Hsha & Hadm).
    apply write_scope_valid in Hscope as ->. rewrite (file_issue_run _ _ _ _ _ _ id csha Hid Hsha). cbn [snd].
    set (r := grant_for b1 req binding lp csha now). etrans; [exact Hauth|]. etrans; [by apply (file_push_ok b1 r)|].
    eapply file_add_lease_ok; [|reflexivity|done]. constructor; try done.
    apply Exists_app. right. left. constructor; try reflexivity.
  - rewrite M_lift. destruct (str_item _ _); [|exact Hauth]. rewrite M_lift.
    destruct (codes_item _ _); [|exact Hauth].
    etrans; [exact Hauth|]. apply file_receipt_ok.
Qed.
Lemma logical_path_nonempty binding req : String.eqb (logical_path_of binding req) "" = false.
Proof. unfold logical_path_of. by destruct (fb_logical_prefix binding). Qed.

Lemma file_body_of_request req : request_ok req ->
  FileMutationRequest_body req = Ok (from_ok [] (FileMutationRequest_body req)).
Proof.
  intros Hr. unfold FileMutationRequest_body.
  by rewrite (proj2 (normalized_accepts req req) (conj eq_refl Hr)).
Qed.

Lemma file_authorize_ok clock request b : file_inv b -> file_ok b (snd (authorize clock request b)).
Proof.
  intros Hinv. unfold authorize. M_go. destruct (normalized request) as [req|e] eqn:Hn; [|reflexivity]. M_go.
  apply normalized_accepts in Hn as [-> Hreq].
  destruct (_now clock) as [now|e]; [|reflexivity]. M_go. rewrite (file_body_of_request request Hreq). M_go.
  case_bool_decide as Hseen; [apply file_receipt_ok|]. M_go.
  destruct (fm_contained b); [etrans; [apply file_see_ok|apply file_receipt_ok]|].
  destruct (fm_bindings b !! fq_root_id request) as [binding|] eqn:Hb; [|etrans; [apply file_see_ok|apply file_receipt_ok]].
  destruct (Z.ltb_spec (fb_max_content_bytes binding) (fq_content_length request)) as [?|Hlen];
    [etrans; [apply file_see_ok|apply file_receipt_ok]|].
  rewrite logical_path_nonempty. etrans; [apply file_see_ok|]. apply file_ask_ok; try done.
  - exact (proj1 (file_ok_inv _ _ (file_see_ok b _) Hinv)).
  - cbn. set_solver.
  - exact (fresh_call (T := theory_of b) (book_of b) _ (fi_book b Hinv) Hseen).
Qed.

(** *** Consumption *)

(** What [check_lease] requires. *)
Record usable (clock : result Z) (lease_id adapter_token : string) b (now : Z) (l : _Lease) : Prop := {
  us_adapter : adapter_token <> "" /\ sha256_hex adapter_token = fm_adapter_token_sha256 b;
  us_clock : clock = Ok now /\ 0 <= now;
  us_free : fm_contained b = false;
  us_known : fm_leases b !! lease_id = Some l;
  us_unused : fl_consumed l = false;
  us_time : fl_issued_at_unix l <= now <= fl_expires_at_unix l;
  us_source : exists s, cb_states (fm_capability_broker b) !! fl_capability_id l = Some s
    /\ cs_status s = Active /\ now < cc_expires_at_unix (cs_contract s)
}.

Lemma file_check_lease_exact clock lease_id token b l :
  check_lease clock lease_id token b = Ok l <-> exists now, usable clock lease_id token b now l.
Proof.
  unfold check_lease, _adapter_digest, _capability_still_active, file_if. split.
  - intros H. py_inv.
    match goal with Hx : _now _ = Ok _ |- _ => apply file_now_accepts in Hx end.
    match goal with Hx : still_active _ _ _ = Ok _ |- _ =>
      rewrite still_active_exact in Hx; injection Hx as Hx end.
    repeat match goal with Hx : negb _ = false |- _ => apply negb_false_iff in Hx
                      | Hx : (_ <? _) = false |- _ => apply Z.ltb_ge in Hx
                      | Hx : String.eqb _ _ = true |- _ => apply String.eqb_eq in Hx
                      | Hx : String.eqb _ _ = false |- _ => apply String.eqb_neq in Hx end.
    destruct (fm_leases b !! lease_id) as [l'|] eqn:Hl; [|done].
    match goal with Hx : Ok _ = Ok _ |- _ => injection Hx as <- end.
    eexists. constructor; try done. apply active_exact. congruence.
  - intros (now & [[Ht Hd] Hc Hf Hl Hu Htime Hs]). apply String.eqb_neq in Ht. rewrite Ht.
    apply file_now_accepts in Hc. apply active_exact in Hs. cbn [raise_if]. rewrite !bind_Ok.
    rewrite Hd, String.eqb_refl, Hc, Hf, Hl. cbn [negb raise_if]. rewrite !bind_Ok, Hu, still_active_exact, Hs.
    rewrite (proj2 (Z.ltb_ge _ _) (proj2 Htime)), (proj2 (Z.ltb_ge _ _) (proj1 Htime)). done.
Qed.

Lemma file_consume_run clock lease_id token b :
  consume_for_trusted_adapter clock lease_id token b =
  match check_lease clock lease_id token b with
  | Ok l => (Ok (reference_of l), set_leases (<[lease_id := burn l]> (fm_leases b)) b)
  | Err e => (Err e, b)
  end.
Proof. unfold consume_for_trusted_adapter. M_go. by destruct (check_lease _ _ _ _). Qed.

Lemma file_consume_ok clock lease_id token b :
  file_ok b (snd (consume_for_trusted_adapter clock lease_id token b)).
Proof.
  rewrite file_consume_run. destruct (check_lease clock lease_id token b) as [l|e] eqn:Hc; [|reflexivity].
  apply file_check_lease_exact in Hc as [now []]. by apply file_burn_ok.
Qed.

(** *** Reachable states *)

(** One call of the interface, returning or raising, or a step of the capability broker,
    which the host shares with other components. *)
Inductive file_step b : FileMutationBroker -> Prop :=
  | file_step_authorize clock request : file_step b (snd (authorize clock request b))
  | file_step_consume clock lease_id token :
      file_step b (snd (consume_for_trusted_adapter clock lease_id token b))
  | file_step_enter sha : file_step b (snd (enter_containment sha b))
  | file_step_exit sha : file_step b (snd (exit_containment sha b))
  | file_step_capability c : broker_step (fm_capability_broker b) c ->
      file_step b (set_capability_broker c b).

Lemma file_step_ok b b' : file_inv b -> file_step b b' -> file_ok b b'.
Proof.
  intros Hb. destruct 1.
  - by apply file_authorize_ok.
  - apply file_consume_ok.
  - unfold enter_containment. M_go. destruct (_sha _ _); [apply file_contained_ok|reflexivity].
  - unfold exit_containment. M_go. destruct (_sha _ _); [apply file_contained_ok|reflexivity].
  - by apply file_capability_ok, broker_step_ok.
Qed.

Lemma file_steps_ok b b' : file_inv b -> star file_step b b' -> file_ok b b'.
Proof.
  intros Hb. induction 1 as [|b1 b2 b3 H12 IH H23]; [reflexivity|]. specialize (IH Hb).
  etrans; [exact IH|]. apply file_step_ok; [|done]. by apply (file_ok_inv b1 b2).
Qed.

Lemma binding_parsed doc bd : FileRootBinding_from_document doc = Ok bd -> binding_ok (fb_root_id bd) bd.
Proof.
  unfold FileRootBinding_from_document. intros H. py_inv.
  match goal with Hx : FileRootBinding_build _ _ _ = Ok _ |- _ => rename Hx into Hbuild end.
  unfold FileRootBinding_build in Hbuild. py_inv.
  match goal with Hx : match ?v with _ => _ end = Ok _ |- _ => destruct v; try discriminate Hx; py_inv end.
  match goal with Hx : _positive_int ?v _ _ = Ok _ |- _ => destruct v; try discriminate Hx;
    apply positive_accepted in Hx as [-> ?] end.
  match goal with Hx : file_if (negb _) "invalid_logical_prefix" = Ok _ |- _ =>
    apply raise_if_ok, negb_false_iff in Hx end.
  constructor; done.
Qed.

Lemma add_bindings_ok (P : string -> FileRootBinding -> Prop) l m m' :
  Forall (fun bd => P (fb_root_id bd) bd) l ->
  map_Forall P m -> fold_r add_binding m l = Ok m' -> map_Forall P m'.
Proof.
  intros Hl. revert m. induction Hl as [|bd l Hbd Hl IH]; intros m Hm H; cbn in H; [by py_inv|]. py_inv.
  eapply IH; [|exact H]. match goal with Hx : add_binding _ _ = Ok _ |- _ => unfold add_binding in Hx; py_inv end.
  by apply map_Forall_insert_2.
Qed.

Lemma file_init_inv cap bindings token ttl b : broker_inv cap ->
  FileMutationBroker_init cap bindings token ttl = Ok b ->
  file_inv b /\ fm_adapter_token_sha256 b = token /\ fm_lease_ttl_seconds b = ttl.
Proof.
  intros Hcap H. unfold FileMutationBroker_init in H. py_inv.
  match goal with Hx : _positive_int _ _ _ = Ok _ |- _ => apply positive_accepted in Hx as [-> ?] end.
  match goal with Hx : _sha _ _ = Ok _ |- _ => apply file_sha_accepted in Hx as [-> _] end.
  split; [|done]. constructor; [done| |by apply (book_empty (T := file_leases _ _))]. cbn [fm_bindings].
  eapply add_bindings_ok; [|apply map_Forall_empty|done].
    match goal with Hx : map_r _ _ = Ok _ |- _ => apply map_r_ok in Hx; clear - Hx;
      induction Hx as [|? ? ? ? Hd]; constructor; [by eapply binding_parsed|done] end.
Qed.

(** The roots of a new broker are the documents the host passed, each under its own name. *)
Definition provisioned_by (documents : list dict) (root_id : string) (bd : FileRootBinding) : Prop :=
  fb_root_id bd = root_id /\ exists doc, doc ∈ documents /\ FileRootBinding_from_document doc = Ok bd.

Lemma file_init_bindings cap bindings token ttl b :
  FileMutationBroker_init cap bindings token ttl = Ok b ->
  map_Forall (provisioned_by bindings) (fm_bindings b).
Proof.
  intros H. unfold FileMutationBroker_init in H. py_inv. cbn [fm_bindings].
  match goal with Hx : map_r _ _ = Ok _ |- _ => apply map_r_ok in Hx; rename Hx into Hp end.
  eapply add_bindings_ok; [|apply map_Forall_empty|done].
  apply Forall_forall. intros bd Hin. split; [done|].
  apply list_elem_of_lookup_1 in Hin as [i Hi].
  destruct (Forall2_lookup_r _ _ _ _ _ Hp Hi) as (doc & Hdoc & Hok).
  exists doc. split; [by eapply list_elem_of_lookup_2|done].
Qed.
End invariant.

(** ** What a release rests on *)
Section release.
Context {hash : Digest}.
Implicit Types b : FileMutationBroker.

Lemma file_broker_inv broker_id c0 cap bindings token ttl b0 :
  CapabilityBroker_init broker_id = Ok c0 -> star broker_step c0 cap ->
  FileMutationBroker_init cap bindings token ttl = Ok b0 -> file_inv b0.
Proof.
  intros Hc Hr Hi. by destruct (file_init_inv _ _ _ _ _ (reachable_inv _ _ _ Hc Hr) Hi).
Qed.

Lemma file_reachable_inv broker_id c0 cap bindings token ttl b0 b :
  CapabilityBroker_init broker_id = Ok c0 -> star broker_step c0 cap ->
  FileMutationBroker_init cap bindings token ttl = Ok b0 -> star file_step b0 b ->
  file_inv b /\ fm_adapter_token_sha256 b = token.
Proof.
  intros Hc Hr Hi Hs. pose proof (reachable_inv _ _ _ Hc Hr) as Hcap.
  destruct (file_init_inv _ _ _ _ _ Hcap Hi) as (Hinv & <- & _).
  pose proof (file_steps_ok _ _ Hinv Hs) as Hok. split; [by apply (file_ok_inv b0 b)|].
  by destruct Hok as [[= _ -> _] _].
Qed.

Lemma file_sealed_verifies r : receipt_sealed r ->
  verify_authorization_receipt (FileMutationAuthorizationReceipt_as_document r)
  = Ok (FileMutationAuthorizationReceipt_as_document r).
Proof.
  intros Hr. unfold verify_authorization_receipt, file_if.
  change (keys_are (FileMutationAuthorizationReceipt_as_document r) authorization_keys) with true.
  change (dict_item (FileMutationAuthorizationReceipt_as_document r) "receipt_sha256")
    with (Ok (JStr (fr_receipt_sha256 r))).
  change (dict_del (FileMutationAuthorizationReceipt_as_document r) "receipt_sha256")
    with (FileMutationAuthorizationReceipt_body r).
  cbn [negb raise_if]. rewrite !bind_Ok. cbv zeta.
  replace (negb (is_str (dict_get_none (FileMutationAuthorizationReceipt_body r) "schema") AUTH_SCHEMA)
           || _) with false by (by vm_compute).
  cbn [raise_if]. rewrite bind_Ok, Hr. cbn [is_str]. by rewrite String.eqb_refl.
Qed.

(** The logical path is among the paths the capability grants. *)
Lemma path_granted lp scope :
  scope_within "filesystem.write_outside_workspace" (write_scope lp) scope ->
  exists paths, dict_get scope "paths" = Some (JList paths) /\ JStr lp ∈ paths.
Proof.
  intros [_ H]. destruct (H "paths" (jstrs [lp])) as (w & Hw & Hin); [by left|].
  destruct w as [| | | |paths|]; try done. exists paths. split; [done|]. apply Hin. by left.
Qed.

(** The specification of a release: what the adapter is given, and what it rests on. *)
Record released (clock : result Z) (lease_id adapter_token : string) b
    (reference : TrustedFileMutationReference) (now : Z) (l : _Lease) : Prop := {
  rl_usable : usable clock lease_id adapter_token b now l;
  rl_reference : reference = reference_of l;
  rl_lifetime : fl_expires_at_unix l <= fl_issued_at_unix l + MAX_LEASE_TTL_SECONDS;
  rl_path : safe_path (ft_relative_path reference);
  rl_provisioned : fm_bindings b !! ft_root_id reference = Some (fl_binding l);
  rl_root : binding_ok (ft_root_id reference) (fl_binding l)
    /\ ft_binding_sha256 reference = fb_binding_sha256 (fl_binding l)
    /\ 1 <= ft_content_length reference <= fb_max_content_bytes (fl_binding l);
  rl_receipt : exists r, r ∈ fm_receipts b /\ authorizes r l
    /\ verify_authorization_receipt (FileMutationAuthorizationReceipt_as_document r)
       = Ok (FileMutationAuthorizationReceipt_as_document r);
  rl_decision : exists d, d ∈ cb_receipts (fm_capability_broker b) /\ dr_decision d = "ALLOW"
    /\ dr_subject_id d = fq_subject_id (fl_request l)
    /\ dr_requested_scope d = write_scope (fl_logical_path l)
    /\ dr_receipt_sha256 d = fl_capability_receipt_sha256 l
    /\ dr_at_unix d = fl_issued_at_unix l;
  rl_granted : exists s paths, cb_states (fm_capability_broker b) !! fl_capability_id l = Some s
    /\ cs_status s = Active /\ now < cc_expires_at_unix (cs_contract s)
    /\ cc_subject_id (cs_contract s) = fq_subject_id (fl_request l)
    /\ cc_capability_type (cs_contract s) = "filesystem.write_outside_workspace"
    /\ dict_get (cc_scope (cs_contract s)) "paths" = Some (JList paths)
    /\ JStr (fb_logical_prefix (fl_binding l) +:+ "/" +:+ ft_relative_path reference) ∈ paths
}.

Lemma file_usable_released clock lease_id token b now l :
  file_inv b -> usable clock lease_id token b now l ->
  released clock lease_id token b (reference_of l) now l.
Proof.
  intros Hinv Hu. pose proof Hu as [_ _ _ Hl _ _ (s & Hs & Ha & Ht)].
  destruct (bs_leases _ (fi_book b Hinv) lease_id l Hl) as
    [Hid Hreq Hseen Hbind Hlen Hpath Hexp [(d & Hd & Hdec & _ & Hsub & _ & _ & Hsc & _ & Hat & Hsha)
      (s' & Hs' & Hsub' & Hty & Hpol & Hsw)] Hr].
  cbn in Hs'. rewrite Hs in Hs'. injection Hs' as <-. constructor; try done.
  - rewrite Hexp. pose proof (fi_ttl b Hinv). lia.
  - apply Hreq.
  - split; [by apply (fi_bindings b Hinv)|]. split; [done|]. split; [apply Hreq|done].
  - apply list.Exists_exists in Hr as (r & Hr & Hau). exists r. split; [done|]. split; [done|].
    apply file_sealed_verifies. pose proof (bs_receipts _ (fi_book b Hinv)) as Hall. rewrite Forall_forall in Hall. by apply Hall.
  - by exists d.
  - apply path_granted in Hsw as (paths & Hp & Hin). exists s, paths. rewrite Hpath in Hin. done.
Qed.

(** A burned lease is refused for ever. *)
Lemma file_burned_refused b b' lease_id l : star file_step b b' -> file_inv b ->
  fm_leases b !! lease_id = Some l -> fl_consumed l = true ->
  forall clock token, exists e, consume_for_trusted_adapter clock lease_id token b' = (Err e, b').
Proof.
  intros Hs Hinv Hl Hu clock token.
  destruct (file_ok_inv _ _ (file_steps_ok _ _ Hinv Hs) Hinv) as [_ Hg].
  pose proof (book_used _ _ _ _ _ _ (bg_leases _ _ _ _ Hg) Hl Hu) as Hl'. cbn in Hl'.
  rewrite file_consume_run. destruct (check_lease clock lease_id token b') as [l'|e] eqn:Hc; [|by exists e].
  apply file_check_lease_exact in Hc as (now & [_ _ _ Hk Hn _ _]). congruence.
Qed.
End release.

(** ** Examples *)
Definition example_binding : FileRootBinding :=
  @seal_binding checksum_digest {| fb_root_id := "root:site"; fb_logical_prefix := "site";
    fb_max_content_bytes := 4096; fb_binding_sha256 := "" |}.

Definition example_file_broker : FileMutationBroker :=
  from_ok {| fm_capability_broker := fresh_broker ""; fm_lease_ttl_seconds := 0;
             fm_adapter_token_sha256 := ""; fm_bindings := ∅; fm_leases := ∅; fm_seen_call_ids := ∅;
             fm_receipts := []; fm_contained := false |}
    (@FileMutationBroker_init checksum_digest
       (use_broker "filesystem.write_outside_workspace" [("paths", jstrs ["site/b.md"; "site/docs/a.md"])])
       [FileRootBinding_as_document example_binding] (@sha256_hex checksum_digest "token") 10).

Definition example_request : FileMutationRequest := {|
  fq_call_id := "call:1"; fq_subject_id := "agent:1"; fq_policy_sha256 := ZERO_SHA256;
  fq_root_id := "root:site"; fq_relative_path := "docs/a.md"; fq_expected_before_sha256 := ZERO_SHA256;
  fq_desired_content_sha256 := ZERO_SHA256; fq_content_length := 12 |}.

Definition example_authorized : result dict * FileMutationBroker :=
  @authorize checksum_digest (Ok 150) example_request example_file_broker.

(** The identifiers on the book after the request. *)
Definition example_lease : string :=
  @lease_id_of checksum_digest 0 "call:1" (@canonical_sha256 checksum_digest (JStr "site/docs/a.md")).

Definition example_released : result TrustedFileMutationReference * FileMutationBroker :=
  @consume_for_trusted_adapter checksum_digest (Ok 155) example_lease "token" (snd example_authorized).

Example request_allowed :
  (fun doc => dict_get_none doc "decision") <$> fst example_authorized = Ok (JStr "ALLOW").
Proof. vm_compute. reflexivity. Qed.

Example lease_released : ft_relative_path <$> fst example_released = Ok "docs/a.md".
Proof. vm_compute. reflexivity. Qed.

Example lease_not_released_twice :
  @consume_for_trusted_adapter checksum_digest (Ok 156) example_lease "token" (snd example_released)
  = (fail FileMutationError "lease_replayed", snd example_released).
Proof. vm_compute. reflexivity. Qed.

Example traversal_refused : is_ok (normalize_relative_path "docs/../../etc/passwd") = false.
Proof. reflexivity. Qed.

Lemma example_file_init :
  @FileMutationBroker_init checksum_digest
    (use_broker "filesystem.write_outside_workspace" [("paths", jstrs ["site/b.md"; "site/docs/a.md"])])
    [FileRootBinding_as_document example_binding] (@sha256_hex checksum_digest "token") 10
  = Ok example_file_broker.
Proof. vm_compute. reflexivity. Qed.

Lemma example_authorized_reachable :
  star (@file_step checksum_digest) example_file_broker (snd example_authorized).
Proof. eapply star_step; [apply star_refl|]. exact (file_step_authorize _ (Ok 150) example_request). Qed.

Lemma example_released_run :
  @consume_for_trusted_adapter checksum_digest (Ok 155) example_lease "token" (snd example_authorized)
  = example_released.
Proof.
  exact (@eq_refl _ (@consume_for_trusted_adapter checksum_digest (Ok 155) example_lease "token"
                       (snd example_authorized))).
Qed.

(** ** Properties *)

(** C22: a relative path is accepted exactly when it is one to 64 segments joined by slashes,
    none empty, dot, parent or longer than 255 bytes, at most 1024 bytes in all, without
    surrounding white space, NUL or backslash; it is then used unchanged, so a logical
    path never leaves the prefix of its root. Every other string raises the one error
    [invalid_relative_path]. *)
Theorem mutation_path_accepted_exactly (value path : string) :
  (normalize_relative_path value = Ok path <-> path = value /\ safe_path value)
  /\ (safe_path value \/ normalize_relative_path value = fail FileMutationError "invalid_relative_path").
Proof.
  split; [apply path_accepted|]. destruct (path_refused value) as [H|H]; [|by right].
  left. by apply (path_accepted value value).
Qed.

(** C14: from any state that calls of the broker and of its capability broker can reach, a
    reference is released to an adapter only for an unused lease in its time, with the
    broker not contained and the adapter authenticated, at most thirty seconds after an
    ALLOW receipt that verifies; the request is the receipt's, its path stays below the
    root it names, which is a binding the broker holds and was parsed from one of the
    documents the host passed when it made the broker; an ALLOW decision of the capability broker for exactly
    that logical path is on record, and the capability behind it is still active, not
    expired and grants that path. Afterwards the lease is refused for ever, with the
    broker unchanged. *)
Theorem released_write_was_admitted `{hash : Digest} (broker_id : string)
    (c0 cap : CapabilityBroker) (bindings : list dict) (token_sha256 : string) (ttl : Z)
    (b0 b1 b2 : FileMutationBroker) (clock : result Z) (lease_id adapter_token : string)
    (reference : TrustedFileMutationReference)
    (Hcap : CapabilityBroker_init broker_id = Ok c0) (Hshared : star broker_step c0 cap)
    (Hinit : FileMutationBroker_init cap bindings token_sha256 ttl = Ok b0)
    (Hreach : star file_step b0 b1)
    (Hrelease : consume_for_trusted_adapter clock lease_id adapter_token b1 = (Ok reference, b2)) :
  (exists now l, released clock lease_id adapter_token b1 reference now l
     /\ provisioned_by bindings (ft_root_id reference) (fl_binding l))
  /\ sha256_hex adapter_token = token_sha256
  /\ forall b3, star file_step b2 b3 -> forall clock' token',
     exists e, consume_for_trusted_adapter clock' lease_id token' b3 = (Err e, b3).
Proof.
  destruct (file_reachable_inv _ _ _ _ _ _ _ _ Hcap Hshared Hinit Hreach) as [Hinv Htok].
  destruct (file_ok_inv _ _ (file_consume_ok clock lease_id adapter_token b1) Hinv) as [Hinv2 _].
  rewrite Hrelease in Hinv2. cbn [snd] in Hinv2.
  rewrite file_consume_run in Hrelease. destruct (check_lease _ _ _ _) as [l|e] eqn:Hc; [|done].
  injection Hrelease as <- <-. apply file_check_lease_exact in Hc as (now & Hu). split; [|split].
  - exists now, l. pose proof (file_usable_released _ _ _ _ _ _ Hinv Hu) as Hrel. split; [done|].
    destruct (file_steps_ok _ _ (file_broker_inv _ _ _ _ _ _ _ Hcap Hshared Hinit) Hreach) as [[= _ _ Eb] _].
    pose proof (rl_provisioned _ _ _ _ _ _ _ Hrel) as Hbd. rewrite Eb in Hbd.
    exact (file_init_bindings _ _ _ _ _ Hinit _ _ Hbd).
  - rewrite <- Htok. apply Hu.
  - intros b3 Hs clock' token'. eapply (file_burned_refused _ b3 lease_id (burn l)); try done.
    apply lookup_insert_eq.
Qed.

Lemma released_write_was_admitted_witness :
  exists reference b2, example_released = (Ok reference, b2)
  /\ (exists now l, @released checksum_digest (Ok 155) example_lease "token" (snd example_authorized)
                      reference now l
        /\ @provisioned_by checksum_digest [FileRootBinding_as_document example_binding]
             (ft_root_id reference) (fl_binding l))
  /\ @sha256_hex checksum_digest "token" = @sha256_hex checksum_digest "token"
  /\ forall b3, star (@file_step checksum_digest) b2 b3 -> forall clock' token',
     exists e, @consume_for_trusted_adapter checksum_digest clock' example_lease token' b3 = (Err e, b3).
Proof.
  assert (is_ok (fst example_released) = true) as Hok by (vm_compute; reflexivity).
  destruct example_released as [[reference|e] b2] eqn:E; [|discriminate Hok].
  exists reference, b2. split; [reflexivity|]. pose proof example_released_run as Hrun. rewrite E in Hrun.
  apply (@released_write_was_admitted checksum_digest "broker:test" (fresh_broker "broker:test")
    (use_broker "filesystem.write_outside_workspace" [("paths", jstrs ["site/b.md"; "site/docs/a.md"])])
    [FileRootBinding_as_document example_binding] (@sha256_hex checksum_digest "token") 10
    example_file_broker (snd example_authorized) b2 (Ok 155) example_lease "token" reference).
  - exact (proj1 (use_broker_reachable "" [])).
  - exact (proj2 (use_broker_reachable _ _)).
  - exact example_file_init.
  - exact example_authorized_reachable.
  - exact Hrun.
Defined.
