(* ===== verification/Credential.v ===== *)
(** * Credential use (sdk/liminal_credential_broker/__init__.py)

    The broker that matches a request against the host's immutable credential bindings,
    asks the capability broker, and leases an opaque credential reference once to a trusted
    adapter. A method gets the answer of [clock()] to its call as an argument. *)
From stdpp Require Import gmap.
From Stdlib Require Import Ascii.
From S2P Require Import Prelude PyStr Json Digest Contracts CapabilityBroker BrokerInterface Mediation CapabilityUse.
#[local] Open Scope Z_scope.

(** ** Constants *)
Definition AUTH_SCHEMA : string := "liminal-credential-authorization-receipt-v0.1".
Definition BINDING_SCHEMA : string := "liminal-credential-binding-v0.1".
Definition MAX_LEASE_TTL_SECONDS : Z := 30.

Definition AUTHORITY : dict :=
  [("mode", JStr "credential_use_governance_only"); ("immutable_host_bindings", JBool true);
   ("credential_capability_admission", JBool true); ("opaque_lease_issue", JBool true);
   ("lease_consumption", JBool true); ("trusted_clock", JBool true);
   ("atomic_state_transitions", JBool true); ("secret_provider_access", JBool false);
   ("secret_material_export", JBool false); ("network_authority", JBool false);
   ("process_authority", JBool false); ("deployment", JBool false);
   ("automatic_release", JBool false)].

(** ** Checks *)

(** [if b: raise CredentialError(code)] *)
Definition credential_if (b : bool) (msg : string) : result unit := raise_if b CredentialError msg.

Definition _ident (value : json) (name : string) : result string :=
  match value with
  | JStr s => _ ← credential_if (negb (re_ident s)) ("invalid_" +:+ name); Ok s
  | _ => fail CredentialError ("invalid_" +:+ name)
  end.

Definition _sha (value : json) (name : string) : result string :=
  check_sha CredentialError ("invalid_" +:+ name) value.

Definition _protocol (value : json) : result string :=
  match value with
  | JStr s =>
      _ ← credential_if (negb (String.eqb (py_lower s) "https")) "credential_destination_requires_https";
      Ok "https"
  | _ => fail CredentialError "credential_destination_requires_https"
  end.

Definition _domain (value : json) : result string :=
  match value with
  | JStr s =>
      let domain := py_lower s in
      _ ← credential_if (contains_char "*" domain || negb (re_domain domain)) "invalid_domain";
      Ok domain
  | _ => fail CredentialError "invalid_domain"
  end.

Definition _port (value : json) : result Z :=
  match value with
  | JInt n => _ ← credential_if (negb ((1 <=? n) && (n <=? 65535))) "invalid_port"; Ok n
  | _ => fail CredentialError "invalid_port"
  end.

(** [_HEADER = ^[A-Za-z0-9!#$%&'*+.^_`|~-]{1,128}$] *)
Definition header_char (c : ascii) : bool :=
  is_alnum c || existsb (Ascii.eqb c)
    ["!"; "#"; "$"; "%"; "&"; "'"; "*"; "+"; "."; "^"; "_"; "`"; "|"; "~"; "-"]%char.

Definition header_match (s : string) : bool :=
  str_all header_char s && (1 <=? String.length s)%nat && (String.length s <=? 128)%nat.

(** [value.split(":", 1)[1]] of a value that starts with [http_header:]. *)
Definition header_of (value : string) : string :=
  String.substring 12 (String.length value - 12) value.

Definition _target (value : json) : result string :=
  match value with
  | JStr s =>
      _ ← credential_if (negb (String.prefix "http_header:" s)) "invalid_injection_target";
      _ ← credential_if (negb (header_match (header_of s))) "invalid_injection_target";
      Ok ("http_header:" +:+ py_lower (header_of s))
  | _ => fail CredentialError "invalid_injection_target"
  end.

Definition _time (value : json) : result Z :=
  match value with
  | JInt n => _ ← credential_if (n <? 0) "invalid_time"; Ok n
  | _ => fail CredentialError "invalid_time"
  end.

(** ** Data *)
Record CredentialBinding := {
  kb_binding_id : string;
  kb_credential_id : string;
  kb_purpose : string;
  kb_protocol : string;
  kb_domain : string;
  kb_port : Z;
  kb_injection_target : string;
  kb_binding_sha256 : string
}.

Definition CredentialBinding_body (b : CredentialBinding) : dict :=
  [("schema", JStr BINDING_SCHEMA); ("binding_id", JStr (kb_binding_id b));
   ("credential_id", JStr (kb_credential_id b)); ("purpose", JStr (kb_purpose b));
   ("protocol", JStr (kb_protocol b)); ("domain", JStr (kb_domain b)); ("port", JInt (kb_port b));
   ("injection_target", JStr (kb_injection_target b)); ("authority", JObj AUTHORITY)].

Definition CredentialBinding_as_document (b : CredentialBinding) : dict :=
  dict_set (CredentialBinding_body b) "binding_sha256" (JStr (kb_binding_sha256 b)).

Record CredentialUseRequest := {
  kq_call_id : string;
  kq_subject_id : string;
  kq_policy_sha256 : string;
  kq_credential_id : string;
  kq_purpose : string;
  kq_protocol : string;
  kq_domain : string;
  kq_port : Z;
  kq_injection_target : string;
  kq_at_unix : Z
}.

Definition normalized (r : CredentialUseRequest) : result CredentialUseRequest :=
  call_id ← _ident (JStr (kq_call_id r)) "call_id";
  subject_id ← _ident (JStr (kq_subject_id r)) "subject_id";
  policy_sha256 ← _sha (JStr (kq_policy_sha256 r)) "policy_sha256";
  credential_id ← _ident (JStr (kq_credential_id r)) "credential_id";
  purpose ← _ident (JStr (kq_purpose r)) "purpose";
  protocol ← _protocol (JStr (kq_protocol r));
  domain ← _domain (JStr (kq_domain r));
  port ← _port (JInt (kq_port r));
  injection_target ← _target (JStr (kq_injection_target r));
  at_unix ← _time (JInt (kq_at_unix r));
  Ok {| kq_call_id := call_id; kq_subject_id := subject_id; kq_policy_sha256 := policy_sha256;
        kq_credential_id := credential_id; kq_purpose := purpose; kq_protocol := protocol;
        kq_domain := domain; kq_port := port; kq_injection_target := injection_target;
        kq_at_unix := at_unix |}.

Definition CredentialUseRequest_body (r : CredentialUseRequest) : result dict :=
  r ← normalized r;
  Ok [("call_id", JStr (kq_call_id r)); ("subject_id", JStr (kq_subject_id r));
      ("policy_sha256", JStr (kq_policy_sha256 r)); ("credential_id", JStr (kq_credential_id r));
      ("purpose", JStr (kq_purpose r)); ("protocol", JStr (kq_protocol r));
      ("domain", JStr (kq_domain r)); ("port", JInt (kq_port r));
      ("injection_target", JStr (kq_injection_target r)); ("at_unix", JInt (kq_at_unix r))].

Record CredentialAuthorizationReceipt := {
  kr_authorization_id : string;
  kr_call_id : string;
  kr_subject_id : string;
  kr_credential_ref_sha256 : string;
  kr_request_sha256 : string;
  kr_binding_sha256 : string;
  kr_capability_receipt_sha256 : string;
  kr_decision : string;
  kr_reason_codes : list string;
  kr_lease_id : option string;
  kr_lease_expires_at_unix : option Z;
  kr_request_declared_at_unix : Z;
  kr_decision_at_unix : Z;
  kr_receipt_sha256 : string
}.

Definition CredentialAuthorizationReceipt_body (r : CredentialAuthorizationReceipt) : dict :=
  [("schema", JStr AUTH_SCHEMA); ("authorization_id", JStr (kr_authorization_id r));
   ("call_id", JStr (kr_call_id r)); ("subject_id", JStr (kr_subject_id r));
   ("credential_ref_sha256", JStr (kr_credential_ref_sha256 r));
   ("request_sha256", JStr (kr_request_sha256 r)); ("binding_sha256", JStr (kr_binding_sha256 r));
   ("capability_receipt_sha256", JStr (kr_capability_receipt_sha256 r));
   ("decision", JStr (kr_decision r)); ("reason_codes", jstrs (kr_reason_codes r));
   ("lease_id", jopt (kr_lease_id r));
   ("lease_expires_at_unix", jopt_int (kr_lease_expires_at_unix r));
   ("request_declared_at_unix", JInt (kr_request_declared_at_unix r));
   ("decision_at_unix", JInt (kr_decision_at_unix r)); ("authority", JObj AUTHORITY)].

Definition CredentialAuthorizationReceipt_as_document (r : CredentialAuthorizationReceipt) : dict :=
  dict_set (CredentialAuthorizationReceipt_body r) "receipt_sha256" (JStr (kr_receipt_sha256 r)).

Record _Lease := {
  kl_lease_id : string;
  kl_request : CredentialUseRequest;
  kl_binding : CredentialBinding;
  kl_capability_id : string;
  kl_authorization_receipt_sha256 : string;
  kl_issued_at_unix : Z;
  kl_expires_at_unix : Z;
  kl_consumed : bool
}.

Record TrustedCredentialReference := {
  kt_lease_id : string;
  kt_credential_id : string;
  kt_purpose : string;
  kt_protocol : string;
  kt_domain : string;
  kt_port : Z;
  kt_injection_target : string;
  kt_authorization_receipt_sha256 : string;
  kt_binding_sha256 : string
}.

(** [lease.consumed = True] *)
Definition burn (l : _Lease) : _Lease := {|
  kl_lease_id := kl_lease_id l; kl_request := kl_request l; kl_binding := kl_binding l;
  kl_capability_id := kl_capability_id l;
  kl_authorization_receipt_sha256 := kl_authorization_receipt_sha256 l;
  kl_issued_at_unix := kl_issued_at_unix l; kl_expires_at_unix := kl_expires_at_unix l;
  kl_consumed := true |}.

Definition reference_of (l : _Lease) : TrustedCredentialReference := {|
  kt_lease_id := kl_lease_id l; kt_credential_id := kq_credential_id (kl_request l);
  kt_purpose := kq_purpose (kl_request l); kt_protocol := kq_protocol (kl_request l);
  kt_domain := kq_domain (kl_request l); kt_port := kq_port (kl_request l);
  kt_injection_target := kq_injection_target (kl_request l);
  kt_authorization_receipt_sha256 := kl_authorization_receipt_sha256 l;
  kt_binding_sha256 := kb_binding_sha256 (kl_binding l) |}.

(** ** The broker *)
Record CredentialBroker := {
  kk_capability_broker : CapabilityBroker;
  kk_bindings : gmap string CredentialBinding;
  kk_adapter_token_sha256 : string;
  kk_lease_ttl_seconds : Z;
  kk_leases : gmap string _Lease;
  kk_seen_call_ids : gset string;
  kk_receipts : list CredentialAuthorizationReceipt;
  kk_contained : bool;
  kk_containment_evidence_sha256 : string
}.

Section broker_fields.
Implicit Types b : CredentialBroker.

Definition set_capability_broker (c : CapabilityBroker) b : CredentialBroker := {|
  kk_capability_broker := c; kk_bindings := kk_bindings b;
  kk_adapter_token_sha256 := kk_adapter_token_sha256 b; kk_lease_ttl_seconds := kk_lease_ttl_seconds b;
  kk_leases := kk_leases b; kk_seen_call_ids := kk_seen_call_ids b; kk_receipts := kk_receipts b;
  kk_contained := kk_contained b; kk_containment_evidence_sha256 := kk_containment_evidence_sha256 b |}.

Definition set_leases (m : gmap string _Lease) b : CredentialBroker := {|
  kk_capability_broker := kk_capability_broker b; kk_bindings := kk_bindings b;
  kk_adapter_token_sha256 := kk_adapter_token_sha256 b; kk_lease_ttl_seconds := kk_lease_ttl_seconds b;
  kk_leases := m; kk_seen_call_ids := kk_seen_call_ids b; kk_receipts := kk_receipts b;
  kk_contained := kk_contained b; kk_containment_evidence_sha256 := kk_containment_evidence_sha256 b |}.

Definition see_call (call_id : string) b : CredentialBroker := {|
  kk_capability_broker := kk_capability_broker b; kk_bindings := kk_bindings b;
  kk_adapter_token_sha256 := kk_adapter_token_sha256 b; kk_lease_ttl_seconds := kk_lease_ttl_seconds b;
  kk_leases := kk_leases b; kk_seen_call_ids := {[call_id]} ∪ kk_seen_call_ids b;
  kk_receipts := kk_receipts b; kk_contained := kk_contained b;
  kk_containment_evidence_sha256 := kk_containment_evidence_sha256 b |}.

Definition push_receipt (r : CredentialAuthorizationReceipt) b : CredentialBroker := {|
  kk_capability_broker := kk_capability_broker b; kk_bindings := kk_bindings b;
  kk_adapter_token_sha256 := kk_adapter_token_sha256 b; kk_lease_ttl_seconds := kk_lease_ttl_seconds b;
  kk_leases := kk_leases b; kk_seen_call_ids := kk_seen_call_ids b;
  kk_receipts := kk_receipts b ++ [r]; kk_contained := kk_contained b;
  kk_containment_evidence_sha256 := kk_containment_evidence_sha256 b |}.

Definition set_containment (flag : bool) (evidence : string) b : CredentialBroker := {|
  kk_capability_broker := kk_capability_broker b; kk_bindings := kk_bindings b;
  kk_adapter_token_sha256 := kk_adapter_token_sha256 b; kk_lease_ttl_seconds := kk_lease_ttl_seconds b;
  kk_leases := kk_leases b; kk_seen_call_ids := kk_seen_call_ids b; kk_receipts := kk_receipts b;
  kk_contained := flag; kk_containment_evidence_sha256 := evidence |}.

Definition receipts b : list dict := map CredentialAuthorizationReceipt_as_document (kk_receipts b).

(** [self._match_binding(req)] *)
Definition binding_matches (req : CredentialUseRequest) (binding : CredentialBinding) : bool :=
  String.eqb (kb_credential_id binding) (kq_credential_id req)
  && String.eqb (kb_purpose binding) (kq_purpose req)
  && String.eqb (kb_protocol binding) (kq_protocol req)
  && String.eqb (kb_domain binding) (kq_domain req)
  && (kb_port binding =? kq_port req)
  && String.eqb (kb_injection_target binding) (kq_injection_target req).

Definition _match_binding (req : CredentialUseRequest) b : option CredentialBinding :=
  match List.filter (binding_matches req) (map snd (map_to_list (kk_bindings b))) with
  | [binding] => Some binding
  | _ => None
  end.
End broker_fields.

Section credential.
Context {hash : Digest}.

Definition seal_binding (b : CredentialBinding) : CredentialBinding := {|
  kb_binding_id := kb_binding_id b; kb_credential_id := kb_credential_id b;
  kb_purpose := kb_purpose b; kb_protocol := kb_protocol b; kb_domain := kb_domain b;
  kb_port := kb_port b; kb_injection_target := kb_injection_target b;
  kb_binding_sha256 := canonical_sha256 (JObj (CredentialBinding_body b)) |}.

Definition CredentialBinding_build (binding_id credential_id purpose protocol domain : string) (port : Z)
    (injection_target : string) : result CredentialBinding :=
  binding_id ← _ident (JStr binding_id) "binding_id";
  credential_id ← _ident (JStr credential_id) "credential_id";
  purpose ← _ident (JStr purpose) "purpose";
  protocol ← _protocol (JStr protocol);
  domain ← _domain (JStr domain);
  port ← _port (JInt port);
  injection_target ← _target (JStr injection_target);
  Ok (seal_binding {| kb_binding_id := binding_id; kb_credential_id := credential_id;
    kb_purpose := purpose; kb_protocol := protocol; kb_domain := domain; kb_port := port;
    kb_injection_target := injection_target; kb_binding_sha256 := "" |}).

Definition binding_keys : list string :=
  ["schema"; "binding_id"; "credential_id"; "purpose"; "protocol"; "domain"; "port";
   "injection_target"; "authority"; "binding_sha256"].

Definition CredentialBinding_from_document (raw : dict) : result CredentialBinding :=
  _ ← credential_if (negb (keys_are raw binding_keys)
                     || negb (is_str (dict_get_none raw "schema") BINDING_SCHEMA)
                     || negb (py_eq (dict_get_none raw "authority") (JObj AUTHORITY)))
        "binding_schema_mismatch";
  binding_id ← (v ← dict_item raw "binding_id"; _ident v "binding_id");
  credential_id ← (v ← dict_item raw "credential_id"; _ident v "credential_id");
  purpose ← (v ← dict_item raw "purpose"; _ident v "purpose");
  protocol ← (v ← dict_item raw "protocol"; _protocol v);
  domain ← (v ← dict_item raw "domain"; _domain v);
  port ← (v ← dict_item raw "port"; _port v);
  injection_target ← (v ← dict_item raw "injection_target"; _target v);
  sha ← (v ← dict_item raw "binding_sha256"; _sha v "binding_sha256");
  let item := {| kb_binding_id := binding_id; kb_credential_id := credential_id;
    kb_purpose := purpose; kb_protocol := protocol; kb_domain := domain; kb_port := port;
    kb_injection_target := injection_target; kb_binding_sha256 := sha |} in
  _ ← credential_if (negb (String.eqb (canonical_sha256 (JObj (CredentialBinding_body item))) sha))
        "binding_digest_mismatch";
  Ok item.

Definition seal_receipt (r : CredentialAuthorizationReceipt) : CredentialAuthorizationReceipt := {|
  kr_authorization_id := kr_authorization_id r; kr_call_id := kr_call_id r;
  kr_subject_id := kr_subject_id r; kr_credential_ref_sha256 := kr_credential_ref_sha256 r;
  kr_request_sha256 := kr_request_sha256 r; kr_binding_sha256 := kr_binding_sha256 r;
  kr_capability_receipt_sha256 := kr_capability_receipt_sha256 r; kr_decision := kr_decision r;
  kr_reason_codes := kr_reason_codes r; kr_lease_id := kr_lease_id r;
  kr_lease_expires_at_unix := kr_lease_expires_at_unix r;
  kr_request_declared_at_unix := kr_request_declared_at_unix r;
  kr_decision_at_unix := kr_decision_at_unix r;
  kr_receipt_sha256 := canonical_sha256 (JObj (CredentialAuthorizationReceipt_body r)) |}.

(** One iteration of the loop of [__init__]. *)
Definition add_binding (binding_map : gmap string CredentialBinding) (document : dict)
    : result (gmap string CredentialBinding) :=
  binding ← CredentialBinding_from_document document;
  _ ← credential_if (match binding_map !! kb_binding_id binding with
                     | Some existing => negb (String.eqb (kb_binding_sha256 existing) (kb_binding_sha256 binding))
                     | None => false
                     end) "duplicate_binding_id";
  Ok (<[kb_binding_id binding := binding]> binding_map).

Definition CredentialBroker_init (capability_broker : CapabilityBroker) (bindings : list dict)
    (adapter_token : string) (lease_ttl_seconds : Z) : result CredentialBroker :=
  _ ← credential_if (negb ((1 <=? lease_ttl_seconds) && (lease_ttl_seconds <=? MAX_LEASE_TTL_SECONDS)))
        "invalid_lease_ttl";
  _ ← credential_if ((py_len adapter_token <? 32) || contains_char "000" adapter_token)
        "invalid_adapter_token";
  binding_map ← fold_r add_binding ∅ bindings;
  _ ← credential_if (bool_decide (binding_map = ∅)) "bindings_required";
  Ok {| kk_capability_broker := capability_broker; kk_bindings := binding_map;
        kk_adapter_token_sha256 := sha256_hex adapter_token; kk_lease_ttl_seconds := lease_ttl_seconds;
        kk_leases := ∅; kk_seen_call_ids := ∅; kk_receipts := []; kk_contained := false;
        kk_containment_evidence_sha256 := ZERO_SHA256 |}.

Definition enter_containment (incident_receipt_sha256 : string) : M CredentialBroker unit :=
  evidence ← lift (_sha (JStr incident_receipt_sha256) "incident_receipt_sha256");
  modify (set_containment true evidence).

Definition exit_containment (human_release_receipt_sha256 : string) : M CredentialBroker unit :=
  evidence ← lift (_sha (JStr human_release_receipt_sha256) "human_release_receipt_sha256");
  modify (set_containment false evidence).

(** [self._now()] when the clock answers [clock]. *)
Definition _now (clock : result Z) : result Z :=
  value ← clock;
  _ ← credential_if (value <? 0) "trusted_clock_invalid";
  Ok value.

Definition _capability_still_active (capability_id : string) (at_unix : Z) (self : CredentialBroker)
    : result bool := still_active (kk_capability_broker self) capability_id at_unix.

Definition _adapter_authenticated (adapter_token : string) (self : CredentialBroker) : bool :=
  String.eqb (sha256_hex adapter_token) (kk_adapter_token_sha256 self).

(** The receipt [_receipt] appends. *)
Definition receipt_of (count : nat) (req : CredentialUseRequest) (decision_at : Z)
    (credential_ref_sha request_sha binding_sha capability_receipt_sha decision : string)
    (reasons : list string) (lease_id : option string) (lease_expires : option Z)
    : CredentialAuthorizationReceipt :=
  seal_receipt {|
    kr_authorization_id := "credential-auth:" +:+ pretty (Z.of_nat count + 1);
    kr_call_id := kq_call_id req; kr_subject_id := kq_subject_id req;
    kr_credential_ref_sha256 := credential_ref_sha; kr_request_sha256 := request_sha;
    kr_binding_sha256 := binding_sha; kr_capability_receipt_sha256 := capability_receipt_sha;
    kr_decision := decision; kr_reason_codes := sorted_set reasons; kr_lease_id := lease_id;
    kr_lease_expires_at_unix := lease_expires; kr_request_declared_at_unix := kq_at_unix req;
    kr_decision_at_unix := decision_at; kr_receipt_sha256 := "" |}.

Definition _receipt (req : CredentialUseRequest) (decision_at : Z)
    (credential_ref_sha request_sha binding_sha capability_receipt_sha decision : string)
    (reasons : list string) (lease_id : option string) (lease_expires : option Z)
    : M CredentialBroker dict :=
  self ← get_state;
  let receipt := receipt_of (length (kk_receipts self)) req decision_at credential_ref_sha request_sha
    binding_sha capability_receipt_sha decision reasons lease_id lease_expires in
  _ ← modify (push_receipt receipt);
  mret (CredentialAuthorizationReceipt_as_document receipt).

(** The [requested_scope] and the [action] of the capability decision. *)
Definition use_scope (req : CredentialUseRequest) : dict :=
  [("credential_ids", jstrs [kq_credential_id req]); ("purpose", JStr (kq_purpose req))].

Definition use_action (req : CredentialUseRequest) (request_sha : string) (binding : CredentialBinding)
    : dict :=
  [("operation", JStr "credential_use"); ("call_id", JStr (kq_call_id req));
   ("request_sha256", JStr request_sha); ("binding_sha256", JStr (kb_binding_sha256 binding));
   ("destination_sha256", JStr (canonical_sha256 (JObj
      [("protocol", JStr (kq_protocol req)); ("domain", JStr (kq_domain req));
       ("port", JInt (kq_port req))])));
   ("injection_target_sha256", JStr (canonical_sha256 (JStr (kq_injection_target req))))].

Definition lease_id_of (count : nat) (call_id binding_sha : string) (now : Z) : string :=
  "credential-lease:" +:+ pretty (Z.of_nat count + 1) +:+ ":"
  +:+ str_take 16 (canonical_sha256 (JObj
        [("call_id", JStr call_id); ("binding", JStr binding_sha); ("decision_at", JInt now)])).

(** [credential_ref_sha] of [authorize]. *)
Definition credential_ref (req : CredentialUseRequest) : string :=
  canonical_sha256 (JObj [("credential_id", JStr (kq_credential_id req))]).

(** The end of [authorize], after the capability was admitted. *)
Definition issue_lease (req : CredentialUseRequest) (request_sha : string) (binding : CredentialBinding)
    (capability : dict) (now : Z) : M CredentialBroker dict :=
  self ← get_state;
  let lease_id := lease_id_of (size (kk_leases self)) (kq_call_id req) (kb_binding_sha256 binding) now in
  let expires := now + kk_lease_ttl_seconds self in
  capability_sha ← lift (str_item capability "receipt_sha256");
  authorization ← _receipt req now (credential_ref req) request_sha (kb_binding_sha256 binding)
    capability_sha "ALLOW" ["binding_match"; "credential_capability_admitted"; "opaque_lease_issued"]
    (Some lease_id) (Some expires);
  capability_id ← lift (str_item capability "capability_id");
  authorization_sha ← lift (str_item authorization "receipt_sha256");
  _ ← modify (fun b => set_leases (<[lease_id := {|
    kl_lease_id := lease_id; kl_request := req; kl_binding := binding;
    kl_capability_id := capability_id; kl_authorization_receipt_sha256 := authorization_sha;
    kl_issued_at_unix := now; kl_expires_at_unix := expires; kl_consumed := false |}]> (kk_leases b)) b);
  mret authorization.

(** The part of [authorize] that asks the capability broker. *)
Definition ask_capability (req : CredentialUseRequest) (request_sha : string)
    (binding : CredentialBinding) (now : Z) : M CredentialBroker dict :=
  capability ← zoom kk_capability_broker set_capability_broker
    (CapabilityBroker.authorize (kq_subject_id req) "credential.access" (kq_policy_sha256 req)
       (use_scope req) (use_action req request_sha binding) now None None);
  decision ← lift (dict_item capability "decision");
  if negb (is_str decision "ALLOW") then
    capability_sha ← lift (str_item capability "receipt_sha256");
    codes ← lift (codes_item capability "reason_codes");
    _receipt req now (credential_ref req) request_sha (kb_binding_sha256 binding) capability_sha "BLOCK"
      codes None None
  else issue_lease req request_sha binding capability now.

Definition authorize (clock : result Z) (request : CredentialUseRequest) : M CredentialBroker dict :=
  req ← lift (normalized request);
  body ← lift (CredentialUseRequest_body req);
  let request_sha := canonical_sha256 (JObj body) in
  now ← lift (_now clock);
  self ← get_state;
  let block reason :=
    _receipt req now (credential_ref req) request_sha ZERO_SHA256 ZERO_SHA256 "BLOCK" [reason] None None in
  if bool_decide (kq_call_id req ∈ kk_seen_call_ids self) then block "replayed_call_id"
  else
    _ ← modify (see_call (kq_call_id req));
    if kk_contained self then block "containment_active"
    else
      match _match_binding req self with
      | None => block "binding_mismatch"
      | Some binding => ask_capability req request_sha binding now
      end.

(** The checks of [consume_for_trusted_adapter]; the lease that may be used. *)
Definition check_lease (clock : result Z) (lease_id adapter_token : string) (self : CredentialBroker)
    : result _Lease :=
  _ ← credential_if (negb (_adapter_authenticated adapter_token self)) "trusted_adapter_auth_failed";
  now ← _now clock;
  _ ← credential_if (kk_contained self) "containment_active";
  lease ← match kk_leases self !! lease_id with
          | Some lease => Ok lease
          | None => fail CredentialError "unknown_lease"
          end;
  _ ← credential_if (kl_consumed lease) "lease_replayed";
  _ ← credential_if (kl_expires_at_unix lease <=? now) "lease_expired";
  _ ← credential_if (now <? kl_issued_at_unix lease) "trusted_clock_regression";
  active ← _capability_still_active (kl_capability_id lease) now self;
  _ ← credential_if (negb active) "source_capability_inactive";
  Ok lease.

Definition consume_for_trusted_adapter (clock : result Z) (lease_id adapter_token : string)
    : M CredentialBroker TrustedCredentialReference :=
  self ← get_state;
  lease ← lift (check_lease clock lease_id adapter_token self);
  _ ← modify (set_leases (<[lease_id := burn lease]> (kk_leases self)));
  mret (reference_of lease).

Definition _AUTH_RECEIPT_KEYS : list string :=
  ["schema"; "authorization_id"; "call_id"; "subject_id"; "credential_ref_sha256"; "request_sha256";
   "binding_sha256"; "capability_receipt_sha256"; "decision"; "reason_codes"; "lease_id";
   "lease_expires_at_unix"; "request_declared_at_unix"; "decision_at_unix"; "authority"; "receipt_sha256"].

Definition verify_authorization_receipt (document : dict) : result dict :=
  _ ← credential_if (negb (keys_are document _AUTH_RECEIPT_KEYS)) "authorization_schema_mismatch";
  receipt_sha ← dict_item document "receipt_sha256";
  let raw := dict_del document "receipt_sha256" in
  _ ← credential_if (negb (is_str (dict_get_none raw "schema") AUTH_SCHEMA)
                     || negb (py_eq (dict_get_none raw "authority") (JObj AUTHORITY)))
        "authorization_schema_mismatch";
  _ ← credential_if (negb (is_str receipt_sha (canonical_sha256 (JObj raw))))
        "authorization_digest_mismatch";
  Ok document.
End credential.

(** ** Lemmas *)

(** *** Requests *)
Lemma ident_accepted s name s' : _ident (JStr s) name = Ok s' <-> s' = s /\ re_ident s = true.
Proof.
  unfold _ident, credential_if. rewrite raise_if_bind, negb_false_iff.
  split; [by intros [? [= <-]]|by intros [-> ?]].
Qed.

Lemma sha_accepted s name s' : _sha (JStr s) name = Ok s' <-> s' = s /\ re_sha s = true.
Proof. apply check_sha_str_ok. Qed.

Lemma protocol_accepted s p : _protocol (JStr s) = Ok p -> p = "https".
Proof. unfold _protocol, credential_if. rewrite raise_if_bind. by intros [_ [= <-]]. Qed.

Lemma domain_accepted s d : _domain (JStr s) = Ok d -> re_domain d = true /\ _domain (JStr d) = Ok d.
Proof.
  unfold _domain, credential_if. cbv zeta. rewrite raise_if_bind, orb_false_iff, negb_false_iff.
  intros [[Hc Hd] [= <-]]. split; [done|].
  rewrite py_lower_idemp by by apply re_domain_solid. by rewrite Hc, Hd.
Qed.

Lemma port_accepted n p : _port (JInt n) = Ok p <-> p = n /\ 1 <= n <= 65535.
Proof.
  unfold _port, credential_if. rewrite raise_if_bind, negb_false_iff, andb_true_iff, !Z.leb_le.
  split; [by intros [? [= <-]]|by intros [-> ?]].
Qed.

Lemma time_accepted n t : _time (JInt n) = Ok t <-> t = n /\ 0 <= n.
Proof.
  unfold _time, credential_if. rewrite raise_if_bind, Z.ltb_ge.
  split; [by intros [? [= <-]]|by intros [-> ?]].
Qed.

Lemma header_lower s : str_all header_char s = true ->
  str_all header_char (py_lower s) = true /\ String.length (py_lower s) = String.length s.
Proof.
  induction s as [|a s IH]; [done|]. cbn [str_all]. intros [Ha Hs]%andb_true_iff.
  destruct (IH Hs) as [IH1 IH2].
  assert (header_char (lower_char a) = true) as Hl by (revert Ha; clear; by destruct a as [[][][][][][][][]]).
  assert (forall b c, kelvin_sign a b c = false) as Hk.
  { intros b c. revert Ha. unfold kelvin_sign. destruct (N.eqb_spec (code a) 226) as [E|]; [|done].
    clear - E. destruct a as [[][][][][][][][]]; done. }
  cbn [py_lower]. destruct s as [|b [|c s]]; [..|rewrite Hk]; cbn [str_all String.length]; by rewrite Hl, IH1, IH2.
Qed.

Lemma header_solid s : str_all header_char s = true -> str_all solid_char s = true.
Proof. apply str_all_impl. intros c. by destruct c as [[][][][][][][][]]. Qed.

Lemma header_of_built h : header_of ("http_header:" +:+ h) = h.
Proof.
  unfold header_of. change (String.length ("http_header:" +:+ h)) with (12 + String.length h)%nat.
  replace (12 + String.length h - 12)%nat with (String.length h) by lia.
  change (String.substring 12 (String.length h) ("http_header:" +:+ h))
    with (String.substring 0 (String.length h) h).
  clear. induction h as [|c h IH]; [done|]. cbn. by rewrite IH.
Qed.

Lemma prefix_app p s : String.prefix p (p +:+ s) = true.
Proof.
  induction p as [|a p IH]; [by destruct s|]. rewrite str_cons_app.
  change (String.prefix (String a p) (String a (p +:+ s)))
    with (if ascii_dec a a then String.prefix p (p +:+ s) else false). by destruct (ascii_dec a a).
Qed.

Lemma target_accepted s t : _target (JStr s) = Ok t -> _target (JStr t) = Ok t.
Proof.
  unfold _target, credential_if. rewrite !raise_if_bind, !negb_false_iff.
  intros (_ & Hh & [= <-]). rewrite header_of_built.
  split; [apply prefix_app|]. unfold header_match in *. apply andb_true_iff in Hh as [[Hc H1]%andb_true_iff H2].
  destruct (header_lower _ Hc) as [Hc' Hl]. rewrite Hc', Hl, H1, H2. split; [done|].
  by rewrite py_lower_idemp by by apply header_solid.
Qed.

(** A request in normal form. *)
Record request_ok (r : CredentialUseRequest) : Prop := {
  rq_normal : normalized r = Ok r;
  rq_call : re_ident (kq_call_id r) = true;
  rq_protocol : kq_protocol r = "https";
  rq_domain : re_domain (kq_domain r) = true;
  rq_port : 1 <= kq_port r <= 65535
}.

Lemma normalized_normal r r' : normalized r = Ok r' -> request_ok r'.
Proof.
  intros H. unfold normalized in H. py_inv.
  repeat match goal with
  | Hi : _ident (JStr _) _ = Ok _ |- _ => apply ident_accepted in Hi as [-> ?]
  | Hi : _sha _ _ = Ok _ |- _ => apply sha_accepted in Hi as [-> ?]
  | Hi : _protocol _ = Ok _ |- _ => apply protocol_accepted in Hi as ->
  | Hi : _port _ = Ok _ |- _ => apply port_accepted in Hi as [-> ?]
  | Hi : _time _ = Ok _ |- _ => apply time_accepted in Hi as [-> ?]
  end.
  match goal with Hi : _domain _ = Ok _ |- _ => apply domain_accepted in Hi as [? ?] end.
  match goal with Hi : _target _ = Ok _ |- _ => apply target_accepted in Hi end.
  constructor; try done. unfold normalized. cbn [kq_call_id kq_subject_id kq_policy_sha256 kq_credential_id
    kq_purpose kq_protocol kq_domain kq_port kq_injection_target kq_at_unix].
  repeat match goal with
  | |- context [_ident (JStr ?s) ?n] => rewrite (proj2 (ident_accepted s n s)) by done
  | |- context [_sha (JStr ?s) ?n] => rewrite (proj2 (sha_accepted s n s)) by done
  | |- context [_port (JInt ?s)] => rewrite (proj2 (port_accepted s s)) by done
  | |- context [_time (JInt ?s)] => rewrite (proj2 (time_accepted s s)) by done
  | H : _domain _ = Ok _ |- _ => rewrite H; clear H
  | H : _target _ = Ok _ |- _ => rewrite H; clear H
  end. done.
Qed.

Lemma now_accepts clock now : _now clock = Ok now <-> clock = Ok now /\ 0 <= now.
Proof.
  unfold _now, credential_if. destruct clock as [v|e]; [|by split; [|intros []]].
  rewrite bind_Ok, raise_if_bind, Z.ltb_ge. split; [by intros [? [= <-]]|]. by intros [[= ->] ?].
Qed.

(** The binding [_match_binding] picks is on the host's list, matches, and is the only one. *)
Lemma match_binding_unique req b bd : _match_binding req b = Some bd ->
  exists id, kk_bindings b !! id = Some bd /\ binding_matches req bd = true
    /\ forall id' bd', kk_bindings b !! id' = Some bd' -> binding_matches req bd' = true -> bd' = bd.
Proof.
  unfold _match_binding. destruct (List.filter _ _) as [|bd1 [|? ?]] eqn:E; try done. intros [= <-].
  assert (forall x, binding_matches req x = true /\ x ∈ map snd (map_to_list (kk_bindings b)) <-> x = bd1) as Hf.
  { intros x. rewrite list_elem_of_In. pose proof (filter_In (binding_matches req) x (map snd (map_to_list (kk_bindings b)))) as H.
    rewrite E in H. cbn in H. naive_solver. }
  destruct (proj2 (Hf bd1) eq_refl) as [Hm Hin].
  apply list_elem_of_fmap in Hin as ([id bd] & -> & Hin). apply elem_of_map_to_list in Hin.
  exists id. split; [done|]. split; [done|]. intros id' bd' Hl Hm'. apply Hf. split; [done|].
  apply list_elem_of_fmap. exists (id', bd'). split; [done|]. by apply elem_of_map_to_list.
Qed.

(** *** What backs a lease *)
Section invariant.
Context {hash : Digest}.
Implicit Types b : CredentialBroker.

Lemma use_scope_valid req scope : validate_scope "credential.access" (JObj (use_scope req)) = Ok scope ->
  scope = use_scope req.
Proof.
  intros H. apply plain_scope in H; [done|]. repeat constructor; eexists; [by right|by left].
Qed.

(** The digest of the request a lease was issued for. *)
Definition request_digest (r : CredentialUseRequest) : string :=
  canonical_sha256 (JObj (from_ok [] (CredentialUseRequest_body r))).

(** The authorization receipt of a lease. *)
Record authorizes (r : CredentialAuthorizationReceipt) (l : _Lease) : Prop := {
  au_decision : kr_decision r = "ALLOW";
  au_lease : kr_lease_id r = Some (kl_lease_id l);
  au_expires : kr_lease_expires_at_unix r = Some (kl_expires_at_unix l);
  au_at : kr_decision_at_unix r = kl_issued_at_unix l;
  au_call : kr_call_id r = kq_call_id (kl_request l);
  au_subject : kr_subject_id r = kq_subject_id (kl_request l);
  au_credential : kr_credential_ref_sha256 r = credential_ref (kl_request l);
  au_request : kr_request_sha256 r = request_digest (kl_request l);
  au_binding : kr_binding_sha256 r = kb_binding_sha256 (kl_binding l);
  au_digest : kr_receipt_sha256 r = kl_authorization_receipt_sha256 l
}.

(** The only binding of the host for the request. *)
Definition bound (bindings : gmap string CredentialBinding) (req : CredentialUseRequest)
    (bd : CredentialBinding) : Prop :=
  (exists id, bindings !! id = Some bd) /\ binding_matches req bd = true
  /\ forall id bd', bindings !! id = Some bd' -> binding_matches req bd' = true -> bd' = bd.

(** What backs a lease, given the lifetime and the bindings the host configured. *)
Record lease_ok (ttl : Z) (bindings : gmap string CredentialBinding)
    (k : LeaseBook _Lease CredentialAuthorizationReceipt) (id : string) (l : _Lease) : Prop := {
  lo_id : kl_lease_id l = id;
  lo_request : request_ok (kl_request l);
  lo_seen : kq_call_id (kl_request l) ∈ bk_seen k;
  lo_binding : bound bindings (kl_request l) (kl_binding l);
  lo_expires : kl_expires_at_unix l = kl_issued_at_unix l + ttl;
  lo_receipt : exists r, r ∈ bk_receipts k /\ authorizes r l
    /\ admitted (bk_capabilities k) (kq_subject_id (kl_request l)) "credential.access"
         (kq_policy_sha256 (kl_request l)) (use_scope (kl_request l))
         (use_action (kl_request l) (request_digest (kl_request l)) (kl_binding l))
         (kl_issued_at_unix l) (kl_capability_id l) (kr_capability_receipt_sha256 r)
}.

Definition receipt_sealed (r : CredentialAuthorizationReceipt) : Prop :=
  kr_receipt_sha256 r = canonical_sha256 (JObj (CredentialAuthorizationReceipt_body r)).

#[local] Obligation Tactic := idtac.

#[export] Program Instance credential_leases (ttl : Z) (bindings : gmap string CredentialBinding) :
    LeaseTheory _Lease CredentialAuthorizationReceipt := {
  lt_kind := "credential-lease:"; lt_call l := kq_call_id (kl_request l); lt_used := kl_consumed;
  lt_burn := burn; lt_sealed := receipt_sealed; lt_backed := lease_ok ttl bindings }.
Next Obligation. done. Qed.
Next Obligation. done. Qed.
Next Obligation.
  intros ttl bindings k id l [H1 H2 H3 H4 H5 (r & Hr & [] & Ha)]. constructor; try done. by exists r.
Qed.
Next Obligation. intros ttl bindings k id l. apply lo_seen. Qed.
Next Obligation.
  intros ttl bindings k k' id l [Hbr _ Hs [rs Hrs]] [H1 H2 H3 H4 H5 (r & Hr & Hau & Ha)].
  constructor; try done; [set_solver|]. exists r. split; [rewrite Hrs; apply elem_of_app; by left|].
  split; [done|]. by eapply admitted_later.
Qed.

Definition book_of b : LeaseBook _Lease CredentialAuthorizationReceipt := {|
  bk_capabilities := kk_capability_broker b; bk_leases := kk_leases b; bk_seen := kk_seen_call_ids b;
  bk_receipts := kk_receipts b |}.

(** What the host configured is fixed. *)
Definition configuration b : Z * string * gmap string CredentialBinding :=
  (kk_lease_ttl_seconds b, kk_adapter_token_sha256 b, kk_bindings b).

Definition theory_of b : LeaseTheory _Lease CredentialAuthorizationReceipt :=
  credential_leases (kk_lease_ttl_seconds b) (kk_bindings b).

(** A binding the host supplied: its digest is that of its body. *)
Definition binding_ok (id : string) (bd : CredentialBinding) : Prop :=
  kb_binding_id bd = id /\ kb_binding_sha256 bd = canonical_sha256 (JObj (CredentialBinding_body bd)).

Record credential_inv b : Prop := {
  ci_ttl : 1 <= kk_lease_ttl_seconds b <= MAX_LEASE_TTL_SECONDS;
  ci_bindings : map_Forall binding_ok (kk_bindings b);
  ci_book : book_sound (T := theory_of b) (book_of b)
}.

(** The steps keep the configuration and the soundness of the book. *)
Definition credential_ok b b' : Prop :=
  configuration b' = configuration b /\ book_kept (T := theory_of b) (book_of b) (book_of b').

#[export] Instance credential_ok_preorder : PreOrder credential_ok.
Proof.
  split; [by intros b|]. intros b1 b2 b3 [E1 H1] [E2 H2]. split; [congruence|].
  unfold theory_of in *. injection E1 as Et _ Eb. rewrite Et, Eb in H2. by etrans.
Qed.

Lemma credential_ok_inv b b' : credential_ok b b' -> credential_inv b ->
  credential_inv b' /\ book_grows kl_consumed burn (book_of b) (book_of b').
Proof.
  intros [E Hk] [Ht Hbd Hb]. destruct (Hk Hb) as [Hb' Hg]. split; [|exact Hg].
  injection E as Et _ Eb. constructor; rewrite ?Et, ?Eb; [done|done|]. unfold theory_of. by rewrite Et, Eb.
Qed.

Lemma push_ok b r : receipt_sealed r -> credential_ok b (push_receipt r b).
Proof. intros Hr. split; [done|]. by apply (book_push (T := theory_of b)). Qed.

Lemma see_ok b call_id : credential_ok b (see_call call_id b).
Proof. split; [done|]. apply (book_see (T := theory_of b)). Qed.

Lemma contained_ok b flag evidence : credential_ok b (set_containment flag evidence b).
Proof. by split. Qed.

Lemma capability_ok b c : broker_ok (kk_capability_broker b) c -> credential_ok b (set_capability_broker c b).
Proof. intros Hc. split; [done|]. by apply (book_capabilities (T := theory_of b)). Qed.

Lemma burn_ok b id l : kk_leases b !! id = Some l -> kl_consumed l = false ->
  credential_ok b (set_leases (<[id := burn l]> (kk_leases b)) b).
Proof. intros Hl Hu. split; [done|]. by apply (book_burned (T := theory_of b)). Qed.

(** *** Authorization *)
Lemma credential_receipt_run req now csha rsha bsha asha dec rs lid exp b :
  let r := receipt_of (length (kk_receipts b)) req now csha rsha bsha asha dec rs lid exp in
  _receipt req now csha rsha bsha asha dec rs lid exp b
  = (Ok (CredentialAuthorizationReceipt_as_document r), push_receipt r b).
Proof. reflexivity. Qed.

Lemma receipt_ok req now csha rsha bsha asha dec rs lid exp b :
  credential_ok b (snd (_receipt req now csha rsha bsha asha dec rs lid exp b)).
Proof. rewrite credential_receipt_run. by apply push_ok. Qed.

(** The receipt and the lease [issue_lease] makes. *)
Definition grant_for b (req : CredentialUseRequest) (bd : CredentialBinding) (asha : string) (now : Z)
    : CredentialAuthorizationReceipt :=
  receipt_of (length (kk_receipts b)) req now (credential_ref req) (request_digest req)
    (kb_binding_sha256 bd) asha "ALLOW"
    ["binding_match"; "credential_capability_admitted"; "opaque_lease_issued"]
    (Some (lease_id_of (size (kk_leases b)) (kq_call_id req) (kb_binding_sha256 bd) now))
    (Some (now + kk_lease_ttl_seconds b)).

Definition lease_for b (req : CredentialUseRequest) (bd : CredentialBinding) (id : string) (now : Z)
    (r : CredentialAuthorizationReceipt) : _Lease := {|
  kl_lease_id := lease_id_of (size (kk_leases b)) (kq_call_id req) (kb_binding_sha256 bd) now;
  kl_request := req; kl_binding := bd; kl_capability_id := id;
  kl_authorization_receipt_sha256 := kr_receipt_sha256 r; kl_issued_at_unix := now;
  kl_expires_at_unix := now + kk_lease_ttl_seconds b; kl_consumed := false |}.

Definition add_lease (l : _Lease) b : CredentialBroker :=
  set_leases (<[kl_lease_id l := l]> (kk_leases b)) b.

Lemma issue_run req bd doc now b id asha :
  dict_get doc "capability_id" = Some (JStr id) -> dict_get doc "receipt_sha256" = Some (JStr asha) ->
  let r := grant_for b req bd asha now in
  issue_lease req (request_digest req) bd doc now b
  = (Ok (CredentialAuthorizationReceipt_as_document r),
     add_lease (lease_for b req bd id now r) (push_receipt r b)).
Proof.
  intros Hid Hsha. unfold issue_lease. M_go.
  rewrite (str_item_get _ _ _ Hid), (str_item_get _ _ _ Hsha). M_go. rewrite M_bind_eq, credential_receipt_run. M_go.
  change (str_item (CredentialAuthorizationReceipt_as_document ?r) "receipt_sha256")
    with (Ok (kr_receipt_sha256 r)). by M_go.
Qed.

Lemma add_lease_ok b l rest :
  lease_ok (kk_lease_ttl_seconds b) (kk_bindings b) (book_of b) (kl_lease_id l) l ->
  kl_lease_id l = "credential-lease:" +:+ pretty (Z.of_nat (size (kk_leases b)) + 1) +:+ ":" +:+ rest ->
  (forall id l', kk_leases b !! id = Some l' -> kq_call_id (kl_request l') <> kq_call_id (kl_request l)) ->
  credential_ok b (add_lease l b).
Proof.
  intros Hl Hid Hcall. split; [done|]. unfold add_lease. rewrite Hid in *.
  by apply (book_added (T := theory_of b) (book_of b) l rest).
Qed.

Lemma ask_ok req bd now b : credential_inv b -> request_ok req -> kq_call_id req ∈ kk_seen_call_ids b ->
  bound (kk_bindings b) req bd ->
  (forall id l, kk_leases b !! id = Some l -> kq_call_id (kl_request l) <> kq_call_id req) ->
  credential_ok b (snd (ask_capability req (request_digest req) bd now b)).
Proof.
  intros Hb Hreq Hseen Hbind Hcall. unfold ask_capability. rewrite M_bind_eq. unfold zoom.
  pose proof (authorize_ok (kq_subject_id req) "credential.access" (kq_policy_sha256 req) (use_scope req)
    (use_action req (request_digest req) bd) now None None (kk_capability_broker b)) as Hauth.
  destruct (CapabilityBroker.authorize _ _ _ _ _ _ _ _ _) as [[doc|e] c] eqn:Ha; cbn [snd] in Hauth;
    apply capability_ok in Hauth; [|exact Hauth].
  set (b1 := set_capability_broker c b) in *. rewrite M_lift.
  destruct (dict_item doc "decision") as [d|e] eqn:Hd; [|exact Hauth].
  destruct (is_str d "ALLOW") eqn:Hdec; cbn [negb].
  - destruct (authorize_admits _ _ _ _ _ _ _ _ _ _ _ (bs_capabilities _ (ci_book b Hb)) Ha
      (decision_item _ _ _ Hd Hdec)) as (scope & id & asha & Hscope & Hid & Hsha & Hadm).
    apply use_scope_valid in Hscope as ->. rewrite (issue_run _ _ _ _ _ id asha Hid Hsha). cbn [snd].
    set (r := grant_for b1 req bd asha now). etrans; [exact Hauth|]. etrans; [by apply (push_ok b1 r)|].
    eapply add_lease_ok; [|reflexivity|done]. constructor; try done.
    exists r. split; [apply elem_of_app; right; by left|]. split; [by constructor|done].
  - rewrite M_lift. destruct (str_item _ _); [|exact Hauth]. rewrite M_lift.
    destruct (codes_item _ _); [|exact Hauth]. etrans; [exact Hauth|]. apply receipt_ok.
Qed.

Lemma body_of_request req : request_ok req ->
  CredentialUseRequest_body req = Ok (from_ok [] (CredentialUseRequest_body req)).
Proof. intros [Hr _ _ _ _]. unfold CredentialUseRequest_body. by rewrite Hr. Qed.

Lemma credential_authorize_ok clock request b : credential_inv b ->
  credential_ok b (snd (authorize clock request b)).
Proof.
  intros Hinv. unfold authorize. M_go. destruct (normalized request) as [req|e] eqn:Hn; [|reflexivity]. M_go.
  apply normalized_normal in Hn. rewrite (body_of_request req Hn). M_go.
  destruct (_now clock) as [now|e]; [|reflexivity]. M_go.
  case_bool_decide as Hseen; [apply receipt_ok|]. M_go.
  destruct (kk_contained b); [etrans; [apply see_ok|apply receipt_ok]|].
  destruct (_match_binding req b) as [bd|] eqn:Hb; [|etrans; [apply see_ok|apply receipt_ok]].
  etrans; [apply see_ok|]. apply ask_ok; try done.
  - exact (proj1 (credential_ok_inv _ _ (see_ok b _) Hinv)).
  - cbn. set_solver.
  - destruct (match_binding_unique _ _ _ Hb) as (id & Hid & Hm & Hu). split; [by exists id|done].
  - exact (fresh_call (T := theory_of b) (book_of b) _ (ci_book b Hinv) Hseen).
Qed.
(** *** Consumption *)

(** What [check_lease] requires. *)
Record usable (clock : result Z) (lease_id adapter_token : string) b (now : Z) (l : _Lease) : Prop := {
  us_adapter : sha256_hex adapter_token = kk_adapter_token_sha256 b;
  us_clock : clock = Ok now /\ 0 <= now;
  us_free : kk_contained b = false;
  us_known : kk_leases b !! lease_id = Some l;
  us_unused : kl_consumed l = false;
  us_time : kl_issued_at_unix l <= now < kl_expires_at_unix l;
  us_source : exists s, cb_states (kk_capability_broker b) !! kl_capability_id l = Some s
    /\ cs_status s = Active /\ now < cc_expires_at_unix (cs_contract s)
}.

Lemma check_lease_exact clock lease_id token b l :
  check_lease clock lease_id token b = Ok l <-> exists now, usable clock lease_id token b now l.
Proof.
  unfold check_lease, _adapter_authenticated, _capability_still_active, credential_if. split.
  - intros H. py_inv.
    match goal with Hx : _now _ = Ok _ |- _ => apply now_accepts in Hx end.
    match goal with Hx : still_active _ _ _ = Ok _ |- _ =>
      rewrite still_active_exact in Hx; injection Hx as Hx end.
    repeat match goal with Hx : negb _ = false |- _ => apply negb_false_iff in Hx
                      | Hx : (_ <? _) = false |- _ => apply Z.ltb_ge in Hx
                      | Hx : (_ <=? _) = false |- _ => apply Z.leb_gt in Hx
                      | Hx : String.eqb _ _ = true |- _ => apply String.eqb_eq in Hx end.
    destruct (kk_leases b !! lease_id) as [l'|] eqn:Hl; [|done].
    match goal with Hx : Ok _ = Ok _ |- _ => injection Hx as <- end.
    eexists. constructor; try done. apply active_exact. congruence.
  - intros (now & [Hd Hc Hf Hl Hu Htime Hs]). apply now_accepts in Hc. apply active_exact in Hs.
    rewrite Hd, String.eqb_refl. cbn [negb raise_if]. rewrite bind_Ok, Hc, bind_Ok, Hf. cbn [raise_if].
    rewrite bind_Ok, Hl, bind_Ok, Hu, still_active_exact, Hs.
    rewrite (proj2 (Z.leb_gt _ _) (proj2 Htime)), (proj2 (Z.ltb_ge _ _) (proj1 Htime)). done.
Qed.

Lemma consume_run clock lease_id token b :
  consume_for_trusted_adapter clock lease_id token b =
  match check_lease clock lease_id token b with
  | Ok l => (Ok (reference_of l), set_leases (<[lease_id := burn l]> (kk_leases b)) b)
  | Err e => (Err e, b)
  end.
Proof. unfold consume_for_trusted_adapter. M_go. by destruct (check_lease _ _ _ _). Qed.

Lemma credential_consume_ok clock lease_id token b :
  credential_ok b (snd (consume_for_trusted_adapter clock lease_id token b)).
Proof.
  rewrite consume_run. destruct (check_lease clock lease_id token b) as [l|e] eqn:Hc; [|reflexivity].
  apply check_lease_exact in Hc as [now []]. by apply burn_ok.
Qed.

(** *** Reachable states *)

(** One call of the interface, returning or raising, or a step of the capability broker,
    which the host shares with other components. *)
Inductive credential_step b : CredentialBroker -> Prop :=
  | credential_step_authorize clock request : credential_step b (snd (authorize clock request b))
  | credential_step_consume clock lease_id token :
      credential_step b (snd (consume_for_trusted_adapter clock lease_id token b))
  | credential_step_enter sha : credential_step b (snd (enter_containment sha b))
  | credential_step_exit sha : credential_step b (snd (exit_containment sha b))
  | credential_step_capability c : broker_step (kk_capability_broker b) c ->
      credential_step b (set_capability_broker c b).

Lemma credential_step_ok b b' : credential_inv b -> credential_step b b' -> credential_ok b b'.
Proof.
  intros Hb. destruct 1.
  - by apply credential_authorize_ok.
  - apply credential_consume_ok.
  - unfold enter_containment. M_go. destruct (_sha _ _); [apply contained_ok|reflexivity].
  - unfold exit_containment. M_go. destruct (_sha _ _); [apply contained_ok|reflexivity].
  - by apply capability_ok, broker_step_ok.
Qed.

Lemma credential_steps_ok b b' : credential_inv b -> star credential_step b b' -> credential_ok b b'.
Proof.
  intros Hb. induction 1 as [|b1 b2 b3 H12 IH H23]; [reflexivity|]. specialize (IH Hb).
  etrans; [exact IH|]. apply credential_step_ok; [|done]. by apply (credential_ok_inv b1 b2).
Qed.

Lemma add_binding_ok m doc m' : map_Forall binding_ok m -> add_binding m doc = Ok m' ->
  map_Forall binding_ok m'.
Proof.
  intros Hm H. unfold add_binding in H. py_inv. apply map_Forall_insert_2; [|done]. split; [done|].
  match goal with Hx : CredentialBinding_from_document _ = Ok _ |- _ =>
    unfold CredentialBinding_from_document in Hx end.
  py_inv. match goal with Hx : credential_if (negb (String.eqb _ _)) _ = Ok _ |- _ =>
    apply raise_if_ok, negb_false_iff, String.eqb_eq in Hx; by rewrite Hx end.
Qed.

Lemma credential_init_inv cap bindings token ttl b : broker_inv cap ->
  CredentialBroker_init cap bindings token ttl = Ok b ->
  credential_inv b /\ kk_adapter_token_sha256 b = sha256_hex token.
Proof.
  intros Hcap H. unfold CredentialBroker_init in H. py_inv. split; [|done].
  match goal with Hx : credential_if _ "invalid_lease_ttl" = Ok _ |- _ =>
    apply raise_if_ok, negb_false_iff, andb_true_iff in Hx as [?%Z.leb_le ?%Z.leb_le] end.
  constructor; [done| |by apply (book_empty (T := credential_leases _ _))]. cbn [kk_bindings].
  match goal with Hx : fold_r _ ∅ _ = Ok _ |- _ => revert Hx end.
  generalize (map_Forall_empty binding_ok : map_Forall binding_ok ∅). generalize (∅ : gmap string CredentialBinding).
  induction bindings as [|doc docs IH]; intros m Hm Hf; cbn in Hf; [by py_inv|]. py_inv.
  eapply IH; [|done]. by eapply add_binding_ok.
Qed.

Lemma credential_reachable_inv broker_id c0 cap bindings token ttl b0 b :
  CapabilityBroker_init broker_id = Ok c0 -> star broker_step c0 cap ->
  CredentialBroker_init cap bindings token ttl = Ok b0 -> star credential_step b0 b ->
  credential_inv b /\ kk_adapter_token_sha256 b = sha256_hex token.
Proof.
  intros Hc Hr Hi Hs. pose proof (reachable_inv _ _ _ Hc Hr) as Hcap.
  destruct (credential_init_inv _ _ _ _ _ Hcap Hi) as (Hinv & <-).
  pose proof (credential_steps_ok _ _ Hinv Hs) as Hok. split; [by apply (credential_ok_inv b0 b)|].
  by destruct Hok as [[= _ -> _] _].
Qed.

Lemma sealed_verifies r : receipt_sealed r ->
  verify_authorization_receipt (CredentialAuthorizationReceipt_as_document r)
  = Ok (CredentialAuthorizationReceipt_as_document r).
Proof.
  intros Hr. unfold verify_authorization_receipt, credential_if.
  change (keys_are (CredentialAuthorizationReceipt_as_document r) _AUTH_RECEIPT_KEYS) with true.
  change (dict_item (CredentialAuthorizationReceipt_as_document r) "receipt_sha256")
    with (Ok (JStr (kr_receipt_sha256 r))).
  change (dict_del (CredentialAuthorizationReceipt_as_document r) "receipt_sha256")
    with (CredentialAuthorizationReceipt_body r).
  cbn [negb raise_if]. rewrite !bind_Ok. cbv zeta.
  replace (negb (is_str (dict_get_none (CredentialAuthorizationReceipt_body r) "schema") AUTH_SCHEMA)
           || _) with false by (by vm_compute).
  cbn [raise_if]. rewrite bind_Ok, Hr. cbn [is_str]. by rewrite String.eqb_refl.
Qed.

(** *** What a release rests on *)

(** The credential and the purpose are what the capability grants. *)
Lemma credential_granted req scope : scope_within "credential.access" (use_scope req) scope ->
  dict_get scope "purpose" = Some (JStr (kq_purpose req))
  /\ exists ids, dict_get scope "credential_ids" = Some (JList ids) /\ JStr (kq_credential_id req) ∈ ids.
Proof.
  intros [_ H]. split.
  - destruct (H "purpose" (JStr (kq_purpose req))) as (w & Hw & Heq); [by right; left|].
    destruct w; try done. cbn in Heq. by subst.
  - destruct (H "credential_ids" (jstrs [kq_credential_id req])) as (w & Hw & Hin); [by left|].
    destruct w as [| | | |ids|]; try done. exists ids. split; [done|]. apply Hin. by left.
Qed.

(** The specification of a release: what the adapter is given, and what it rests on. *)
Record released (clock : result Z) (lease_id adapter_token : string) b
    (reference : TrustedCredentialReference) (now : Z) (l : _Lease) : Prop := {
  rl_usable : usable clock lease_id adapter_token b now l;
  rl_reference : reference = reference_of l;
  rl_lifetime : kl_expires_at_unix l <= kl_issued_at_unix l + MAX_LEASE_TTL_SECONDS;
  rl_bound : bound (kk_bindings b) (kl_request l) (kl_binding l)
    /\ kt_binding_sha256 reference = canonical_sha256 (JObj (CredentialBinding_body (kl_binding l)));
  rl_destination : kt_credential_id reference = kb_credential_id (kl_binding l)
    /\ kt_purpose reference = kb_purpose (kl_binding l) /\ kt_protocol reference = "https"
    /\ kt_domain reference = kb_domain (kl_binding l) /\ kt_port reference = kb_port (kl_binding l)
    /\ kt_injection_target reference = kb_injection_target (kl_binding l);
  rl_receipt : exists r d, r ∈ kk_receipts b /\ authorizes r l
    /\ verify_authorization_receipt (CredentialAuthorizationReceipt_as_document r)
       = Ok (CredentialAuthorizationReceipt_as_document r)
    /\ d ∈ cb_receipts (kk_capability_broker b) /\ dr_decision d = "ALLOW"
    /\ dr_subject_id d = kq_subject_id (kl_request l) /\ dr_requested_scope d = use_scope (kl_request l)
    /\ dr_receipt_sha256 d = kr_capability_receipt_sha256 r /\ dr_at_unix d = kl_issued_at_unix l;
  rl_granted : exists s ids, cb_states (kk_capability_broker b) !! kl_capability_id l = Some s
    /\ cs_status s = Active /\ now < cc_expires_at_unix (cs_contract s)
    /\ cc_subject_id (cs_contract s) = kq_subject_id (kl_request l)
    /\ cc_capability_type (cs_contract s) = "credential.access"
    /\ dict_get (cc_scope (cs_contract s)) "purpose" = Some (JStr (kt_purpose reference))
    /\ dict_get (cc_scope (cs_contract s)) "credential_ids" = Some (JList ids)
    /\ JStr (kt_credential_id reference) ∈ ids
}.

Lemma usable_released clock lease_id token b now l :
  credential_inv b -> usable clock lease_id token b now l ->
  released clock lease_id token b (reference_of l) now l.
Proof.
  intros Hinv Hu. pose proof Hu as [_ _ _ Hl _ _ (s & Hs & Ha & Ht)].
  destruct (bs_leases _ (ci_book b Hinv) lease_id l Hl) as
    [Hid Hreq Hseen Hbound Hexp (r & Hr & Hau & (d & Hd & Hdec & _ & Hsub & _ & _ & Hsc & _ & Hat & Hsha)
      & (s' & Hs' & Hsub' & Hty & Hpol & Hsw))].
  cbn in Hs'. rewrite Hs in Hs'. injection Hs' as <-. pose proof Hbound as ((id & Hbd) & Hm & _).
  destruct (ci_bindings b Hinv id _ Hbd) as [_ Hdig].
  unfold binding_matches in Hm. rewrite !andb_true_iff, !String.eqb_eq, Z.eqb_eq in Hm.
  destruct Hm as (((((M1 & M2) & M3) & M4) & M5) & M6). constructor; try done.
  - rewrite Hexp. pose proof (ci_ttl b Hinv). lia.
  - split_and!; try done. apply Hreq.
  - exists r, d. split_and!; try done. apply sealed_verifies.
    pose proof (bs_receipts _ (ci_book b Hinv)) as Hall. rewrite Forall_forall in Hall. by apply Hall.
  - apply credential_granted in Hsw as (Hp & ids & Hids & Hin). by exists s, ids.
Qed.

(** A burned lease is refused for ever. *)
Lemma burned_refused b b' lease_id l : star credential_step b b' -> credential_inv b ->
  kk_leases b !! lease_id = Some l -> kl_consumed l = true ->
  forall clock token, exists e, consume_for_trusted_adapter clock lease_id token b' = (Err e, b').
Proof.
  intros Hs Hinv Hl Hu clock token.
  destruct (credential_ok_inv _ _ (credential_steps_ok _ _ Hinv Hs) Hinv) as [_ Hg].
  pose proof (book_used _ _ _ _ _ _ (bg_leases _ _ _ _ Hg) Hl Hu) as Hl'. cbn in Hl'.
  rewrite consume_run. destruct (check_lease clock lease_id token b') as [l'|e] eqn:Hc; [|by exists e].
  apply check_lease_exact in Hc as (now & [_ _ _ Hk Hn _ _]). congruence.
Qed.
End invariant.

(** ** Examples *)
Definition example_binding : CredentialBinding :=
  @seal_binding checksum_digest {| kb_binding_id := "binding:api"; kb_credential_id := "cred:api";
    kb_purpose := "publish"; kb_protocol := "https"; kb_domain := "api.example.com"; kb_port := 443;
    kb_injection_target := "http_header:authorization"; kb_binding_sha256 := "" |}.

Definition example_capabilities : CapabilityBroker :=
  use_broker "credential.access" [("credential_ids", jstrs ["cred:api"]); ("purpose", JStr "publish")].

Definition example_token : string := "an adapter token of at least 32 characters".

Definition example_credential_broker : CredentialBroker :=
  from_ok {| kk_capability_broker := fresh_broker ""; kk_bindings := ∅; kk_adapter_token_sha256 := "";
             kk_lease_ttl_seconds := 0; kk_leases := ∅; kk_seen_call_ids := ∅; kk_receipts := [];
             kk_contained := false; kk_containment_evidence_sha256 := "" |}
    (@CredentialBroker_init checksum_digest example_capabilities
       [CredentialBinding_as_document example_binding] example_token 10).

Definition example_request : CredentialUseRequest := {|
  kq_call_id := "call:1"; kq_subject_id := "agent:1"; kq_policy_sha256 := ZERO_SHA256;
  kq_credential_id := "cred:api"; kq_purpose := "publish"; kq_protocol := "HTTPS";
  kq_domain := "API.example.com"; kq_port := 443; kq_injection_target := "http_header:Authorization";
  kq_at_unix := 7 |}.

Definition example_authorized : result dict * CredentialBroker :=
  @authorize checksum_digest (Ok 150) example_request example_credential_broker.

Definition example_lease : string :=
  @lease_id_of checksum_digest 0 "call:1" (kb_binding_sha256 example_binding) 150.

Definition example_released : result TrustedCredentialReference * CredentialBroker :=
  @consume_for_trusted_adapter checksum_digest (Ok 155) example_lease example_token (snd example_authorized).

Example credential_released :
  (fun r => (kt_domain r, kt_injection_target r)) <$> fst example_released
  = Ok ("api.example.com", "http_header:authorization").
Proof. vm_compute. reflexivity. Qed.

Example credential_expires :
  fst (@consume_for_trusted_adapter checksum_digest (Ok 160) example_lease example_token
         (snd example_authorized)) = fail CredentialError "lease_expired".
Proof. vm_compute. reflexivity. Qed.

Lemma example_credential_init :
  @CredentialBroker_init checksum_digest example_capabilities
    [CredentialBinding_as_document example_binding] example_token 10 = Ok example_credential_broker.
Proof. vm_compute. reflexivity. Qed.

Lemma example_credential_reachable :
  star (@credential_step checksum_digest) example_credential_broker (snd example_authorized).
Proof. eapply star_step; [apply star_refl|]. exact (credential_step_authorize _ (Ok 150) example_request). Qed.

Lemma example_credential_run :
  @consume_for_trusted_adapter checksum_digest (Ok 155) example_lease example_token (snd example_authorized)
  = example_released.
Proof.
  exact (@eq_refl _ (@consume_for_trusted_adapter checksum_digest (Ok 155) example_lease example_token
                       (snd example_authorized))).
Qed.

(** ** Properties *)

(** C15: from any state that calls of the broker and of its capability broker can reach, a
    credential reference is released to an adapter only for an unused lease strictly
    within its time, with the broker not contained and the adapter authenticated. The
    reference is exactly the one host binding that matches the normalized request: same
    credential, purpose, https destination and injection target. An authorization receipt
    that verifies and an ALLOW decision of the capability broker for that credential and
    purpose are on record, and the capability behind it is still active, not expired and
    grants both. Afterwards the lease is refused for ever, with the broker unchanged. *)
Theorem released_credential_was_admitted `{hash : Digest} (broker_id : string)
    (c0 cap : CapabilityBroker) (bindings : list dict) (token : string) (ttl : Z)
    (b0 b1 b2 : CredentialBroker) (clock : result Z) (lease_id adapter_token : string)
    (reference : TrustedCredentialReference)
    (Hcap : CapabilityBroker_init broker_id = Ok c0) (Hshared : star broker_step c0 cap)
    (Hinit : CredentialBroker_init cap bindings token ttl = Ok b0)
    (Hreach : star credential_step b0 b1)
    (Hrelease : consume_for_trusted_adapter clock lease_id adapter_token b1 = (Ok reference, b2)) :
  (exists now l, released clock lease_id adapter_token b1 reference now l)
  /\ sha256_hex adapter_token = sha256_hex token
  /\ forall b3, star credential_step b2 b3 -> forall clock' token',
     exists e, consume_for_trusted_adapter clock' lease_id token' b3 = (Err e, b3).
Proof.
  destruct (credential_reachable_inv _ _ _ _ _ _ _ _ Hcap Hshared Hinit Hreach) as [Hinv Htok].
  destruct (credential_ok_inv _ _ (credential_consume_ok clock lease_id adapter_token b1) Hinv) as [Hinv2 _].
  rewrite Hrelease in Hinv2. cbn [snd] in Hinv2.
  rewrite consume_run in Hrelease. destruct (check_lease _ _ _ _) as [l|e] eqn:Hc; [|done].
  injection Hrelease as <- <-. apply check_lease_exact in Hc as (now & Hu). split; [|split].
  - exists now, l. by apply usable_released.
  - rewrite <- Htok. apply Hu.
  - intros b3 Hs clock' token'. eapply (burned_refused _ b3 lease_id (burn l)); try done.
    apply lookup_insert_eq.
Qed.

Lemma released_credential_was_admitted_witness :
  exists reference b2, example_released = (Ok reference, b2)
  /\ (exists now l, @released checksum_digest (Ok 155) example_lease example_token (snd example_authorized)
                      reference now l)
  /\ @sha256_hex checksum_digest example_token = @sha256_hex checksum_digest example_token
  /\ forall b3, star (@credential_step checksum_digest) b2 b3 -> forall clock' token',
     exists e, @consume_for_trusted_adapter checksum_digest clock' example_lease token' b3 = (Err e, b3).
Proof.
  assert (is_ok (fst example_released) = true) as Hok by (vm_compute; reflexivity).
  destruct example_released as [[reference|e] b2] eqn:E; [|discriminate Hok].
  exists reference, b2. split; [reflexivity|]. pose proof example_credential_run as Hrun. rewrite E in Hrun.
  apply (@released_credential_was_admitted checksum_digest "broker:test" (fresh_broker "broker:test")
    example_capabilities [CredentialBinding_as_document example_binding] example_token 10
    example_credential_broker (snd example_authorized) b2 (Ok 155) example_lease example_token reference).
  - exact (proj1 (use_broker_reachable "" [])).
  - exact (proj2 (use_broker_reachable _ _)).
  - exact example_credential_init.
  - exact example_credential_reachable.
  - exact Hrun.
Defined.
