(* ===== verification/PackageInstall.v ===== *)
(** * Package installation (sdk/liminal_package_install_broker/__init__.py)

    The broker that matches a request against one host-staged workspace binding, asks for
    the [package.install] capability and then hands a fixed installer plan to the isolated
    execution broker, which needs the [process.execute] capability of its own. The two
    brokers it holds are components of the host state; they may share a capability broker. *)
From stdpp Require Import gmap.
From Stdlib Require Import Ascii.
From S2P Require Import Prelude PyStr Json Digest Contracts CapabilityBroker BrokerInterface Escalation Mediation IsolatedExecution CapabilityUse.
#[local] Open Scope Z_scope.

(** ** Constants *)
Definition SCHEMA : string := "liminal-package-install-receipt-v0.1".
Definition BINDING_SCHEMA : string := "liminal-package-workspace-binding-v0.1".
Definition INSTALLER_EXECUTABLE : string := "/usr/local/bin/liminal-pkg-installer".
Definition ARGUMENT_PROFILE : string := "bound-package-install-v0.1".
Definition INSTALL_TARGET : string := "/tmp/liminal-site-packages".
Definition MAX_DEPENDENCIES : Z := 256.

Definition AUTHORITY : dict :=
  [("mode", JStr "bound_offline_package_install_governance");
   ("host_staged_plan_required", JBool true); ("package_capability_required", JBool true);
   ("isolated_process_capability_required", JBool true);
   ("immutable_installer_image_required", JBool true);
   ("staged_artifact_digest_required", JBool true); ("dependency_plan_digest_required", JBool true);
   ("registry_provenance_only", JBool true); ("live_registry_fetch", JBool false);
   ("direct_network_access", JBool false); ("direct_package_manager_access", JBool false);
   ("direct_docker_access", JBool false); ("direct_host_filesystem_mutation", JBool false);
   ("persistent_environment_mutation", JBool false); ("ephemeral_tmpfs_materialization", JBool true);
   ("installed_package_execution", JBool false); ("supply_chain_authenticity_oracle", JBool false)].

(** ** Checks *)

(** [if b: raise PackageInstallError(msg)] *)
Definition install_if (b : bool) (msg : string) : result unit := raise_if b PackageInstallError msg.

Definition _ident (value name : string) : result string :=
  _ ← install_if (String.eqb (py_strip value) "" || negb (String.eqb value (py_strip value))
                  || contains_char "000" value) ("invalid_" +:+ name);
  _ ← install_if (negb (re_ident value)) ("invalid_" +:+ name);
  Ok value.

Definition _sha (value name : string) : result string :=
  check_sha_str PackageInstallError ("invalid_" +:+ name) value.

Definition is_separator (c : ascii) : bool := existsb (Ascii.eqb c) ["-"; "_"; "."]%char.

(** [re.sub(r"[-_.]+", "-", s)]; [inside]: the previous character was a separator. *)
Fixpoint collapse_separators (inside : bool) (s : string) : string :=
  match s with
  | EmptyString => ""
  | String c s' =>
      if is_separator c then
        if inside then collapse_separators true s' else String "-" (collapse_separators true s')
      else String c (collapse_separators false s')
  end.

Definition lower_alnum (c : ascii) : bool := is_lower c || is_digit c.

(** [_PACKAGE = ^[a-z0-9]+(?:-[a-z0-9]+)*$] *)
Definition package_match (s : string) : bool :=
  forallb (fun w => str_all lower_alnum w && negb (String.eqb w "")) (split_on "-" s).

Definition _package (value : string) : result string :=
  let normalized := collapse_separators false (py_lower value) in
  _ ← install_if (negb (package_match normalized)) "invalid_package_name";
  Ok normalized.

(** [_VERSION = ^[0-9][A-Za-z0-9._+!-]{0,127}$] *)
Definition version_match (s : string) : bool :=
  match s with
  | EmptyString => false
  | String c rest => is_digit c
      && str_all (fun x => is_alnum x || existsb (Ascii.eqb x) ["."; "_"; "+"; "!"; "-"]%char) rest
      && (String.length rest <=? 127)%nat
  end.

Definition _version (value : string) : result string :=
  _ ← install_if (negb (version_match value)) "invalid_version"; Ok value.

(** [_REGISTRY = ^[a-z0-9](?:[a-z0-9.-]{0,189}[a-z0-9])?$] *)
Definition registry_match (s : string) : bool :=
  match s, last_char s with
  | String c _, Some z => lower_alnum c && lower_alnum z
      && str_all (fun x => lower_alnum x || Ascii.eqb x "." || Ascii.eqb x "-") s
      && (String.length s <=? 191)%nat
  | _, _ => false
  end.

Definition _registry (value : string) : result string :=
  let normalized := py_lower value in
  _ ← install_if (negb (registry_match normalized) || negb (contains_char "." normalized))
        "invalid_registry";
  Ok normalized.

Definition _bounded_int (value : Z) (name : string) (minimum maximum : Z) : result Z :=
  _ ← install_if (negb ((minimum <=? value) && (value <=? maximum))) ("invalid_" +:+ name);
  Ok value.

(** ** Data *)
Record PackageWorkspaceBinding := {
  pw_binding_id : string;
  pw_host_workspace : string;
  pw_registry : string;
  pw_package_name : string;
  pw_version : string;
  pw_artifact_sha256 : string;
  pw_dependency_plan_sha256 : string;
  pw_staged_manifest_sha256 : string;
  pw_dependency_count : Z;
  pw_installer_image_id : string;
  pw_binding_sha256 : string
}.

(** [binding.package_coordinate] *)
Definition binding_coordinate (b : PackageWorkspaceBinding) : string :=
  pw_package_name b +:+ "==" +:+ pw_version b.

Record PackageInstallRequest := {
  pq_call_id : string;
  pq_subject_id : string;
  pq_policy_sha256 : string;
  pq_workspace_binding_id : string;
  pq_registry : string;
  pq_package_name : string;
  pq_version : string;
  pq_artifact_sha256 : string;
  pq_dependency_plan_sha256 : string;
  pq_staged_manifest_sha256 : string;
  pq_dependency_count : Z
}.

Definition normalized (r : PackageInstallRequest) : result PackageInstallRequest :=
  call_id ← _ident (pq_call_id r) "call_id";
  subject_id ← _ident (pq_subject_id r) "subject_id";
  policy_sha256 ← _sha (pq_policy_sha256 r) "policy_sha256";
  workspace_binding_id ← _ident (pq_workspace_binding_id r) "workspace_binding_id";
  registry ← _registry (pq_registry r);
  package_name ← _package (pq_package_name r);
  version ← _version (pq_version r);
  artifact ← _sha (pq_artifact_sha256 r) "artifact_sha256";
  dependency_plan ← _sha (pq_dependency_plan_sha256 r) "dependency_plan_sha256";
  staged_manifest ← _sha (pq_staged_manifest_sha256 r) "staged_manifest_sha256";
  dependency_count ← _bounded_int (pq_dependency_count r) "dependency_count" 0 MAX_DEPENDENCIES;
  Ok {| pq_call_id := call_id; pq_subject_id := subject_id; pq_policy_sha256 := policy_sha256;
        pq_workspace_binding_id := workspace_binding_id; pq_registry := registry;
        pq_package_name := package_name; pq_version := version; pq_artifact_sha256 := artifact;
        pq_dependency_plan_sha256 := dependency_plan; pq_staged_manifest_sha256 := staged_manifest;
        pq_dependency_count := dependency_count |}.

Definition request_coordinate (r : PackageInstallRequest) : string :=
  pq_package_name r +:+ "==" +:+ pq_version r.

Definition safe_body (r : PackageInstallRequest) : result dict :=
  r ← normalized r;
  Ok [("call_id", JStr (pq_call_id r)); ("subject_id", JStr (pq_subject_id r));
      ("policy_sha256", JStr (pq_policy_sha256 r));
      ("workspace_binding_id", JStr (pq_workspace_binding_id r)); ("registry", JStr (pq_registry r));
      ("package_coordinate", JStr (request_coordinate r));
      ("artifact_sha256", JStr (pq_artifact_sha256 r));
      ("dependency_plan_sha256", JStr (pq_dependency_plan_sha256 r));
      ("staged_manifest_sha256", JStr (pq_staged_manifest_sha256 r));
      ("dependency_count", JInt (pq_dependency_count r)); ("install_target", JStr INSTALL_TARGET);
      ("argument_profile", JStr ARGUMENT_PROFILE)].

Record PackageInstallReceipt := {
  pr_receipt_id : string;
  pr_call_id : string;
  pr_subject_id : string;
  pr_request_sha256 : string;
  pr_workspace_binding_sha256 : string;
  pr_package_plan_sha256 : string;
  pr_package_capability_receipt_sha256 : string;
  pr_package_decision : string;
  pr_isolated_execution_receipt_sha256 : string;
  pr_process_admission_decision : string;
  pr_execution_outcome : string;
  pr_installer_image_id : string;
  pr_artifact_sha256 : string;
  pr_dependency_plan_sha256 : string;
  pr_staged_manifest_sha256 : string;
  pr_dependency_count : Z;
  pr_reason_codes : list string;
  pr_at_unix : Z;
  pr_receipt_sha256 : string
}.

Definition PackageInstallReceipt_body (r : PackageInstallReceipt) : dict :=
  [("schema", JStr SCHEMA); ("receipt_id", JStr (pr_receipt_id r)); ("call_id", JStr (pr_call_id r));
   ("subject_id", JStr (pr_subject_id r)); ("request_sha256", JStr (pr_request_sha256 r));
   ("workspace_binding_sha256", JStr (pr_workspace_binding_sha256 r));
   ("package_plan_sha256", JStr (pr_package_plan_sha256 r));
   ("package_capability_receipt_sha256", JStr (pr_package_capability_receipt_sha256 r));
   ("package_decision", JStr (pr_package_decision r));
   ("isolated_execution_receipt_sha256", JStr (pr_isolated_execution_receipt_sha256 r));
   ("process_admission_decision", JStr (pr_process_admission_decision r));
   ("execution_outcome", JStr (pr_execution_outcome r));
   ("installer_image_id", JStr (pr_installer_image_id r));
   ("artifact_sha256", JStr (pr_artifact_sha256 r));
   ("dependency_plan_sha256", JStr (pr_dependency_plan_sha256 r));
   ("staged_manifest_sha256", JStr (pr_staged_manifest_sha256 r));
   ("dependency_count", JInt (pr_dependency_count r)); ("reason_codes", jstrs (pr_reason_codes r));
   ("at_unix", JInt (pr_at_unix r)); ("authority", JObj AUTHORITY)].

Definition PackageInstallReceipt_as_document (r : PackageInstallReceipt) : dict :=
  dict_set (PackageInstallReceipt_body r) "receipt_sha256" (JStr (pr_receipt_sha256 r)).

(** ** The broker *)
Record PackageInstallBroker := {
  pi_bindings : gmap string PackageWorkspaceBinding;
  pi_seen_call_ids : gset string;
  pi_receipts : list PackageInstallReceipt
}.

Section broker_fields.
Implicit Types b : PackageInstallBroker.

Definition see_call (call_id : string) b : PackageInstallBroker := {|
  pi_bindings := pi_bindings b; pi_seen_call_ids := {[call_id]} ∪ pi_seen_call_ids b;
  pi_receipts := pi_receipts b |}.

Definition push_receipt (r : PackageInstallReceipt) b : PackageInstallBroker := {|
  pi_bindings := pi_bindings b; pi_seen_call_ids := pi_seen_call_ids b;
  pi_receipts := pi_receipts b ++ [r] |}.

Definition receipts b : list dict := map PackageInstallReceipt_as_document (pi_receipts b).
End broker_fields.

(** The reasons [install] collects when the request differs from its binding. *)
Definition mismatch_reasons (req : PackageInstallRequest) (binding : PackageWorkspaceBinding)
    : list string :=
  (if negb (String.eqb (pq_registry req) (pw_registry binding)) then ["registry_binding_mismatch"] else [])
  ++ (if negb (String.eqb (request_coordinate req) (binding_coordinate binding))
      then ["package_coordinate_binding_mismatch"] else [])
  ++ (if negb (String.eqb (pq_artifact_sha256 req) (pw_artifact_sha256 binding))
      then ["artifact_binding_mismatch"] else [])
  ++ (if negb (String.eqb (pq_dependency_plan_sha256 req) (pw_dependency_plan_sha256 binding))
      then ["dependency_plan_binding_mismatch"] else [])
  ++ (if negb (String.eqb (pq_staged_manifest_sha256 req) (pw_staged_manifest_sha256 binding))
      then ["staged_manifest_mismatch"] else [])
  ++ (if negb (pq_dependency_count req =? pw_dependency_count binding)
      then ["dependency_count_binding_mismatch"] else []).

Definition _installer_argv (binding : PackageWorkspaceBinding) : list string :=
  [INSTALLER_EXECUTABLE; "--offline"; "--manifest-sha256"; pw_staged_manifest_sha256 binding;
   "--registry-provenance"; pw_registry binding; "--package"; pw_package_name binding;
   "--version"; pw_version binding; "--artifact-sha256"; pw_artifact_sha256 binding;
   "--dependency-plan-sha256"; pw_dependency_plan_sha256 binding;
   "--dependency-count"; pretty (pw_dependency_count binding); "--target"; INSTALL_TARGET;
   "--no-execute-installed-code"].

(** [self._now()] when the clock answers [clock]. *)
Definition _now (clock : result Z) : result Z :=
  value ← clock;
  _ ← install_if (value <? 0) "invalid_host_clock";
  Ok value.

(** The [requested_scope] of the package capability. *)
Definition package_scope (binding : PackageWorkspaceBinding) : dict :=
  [("registries", jstrs [pw_registry binding]); ("packages", jstrs [binding_coordinate binding])].

Section package_install.
Context {hash : Digest}.

Definition PackageWorkspaceBinding_body (b : PackageWorkspaceBinding) : dict :=
  [("schema", JStr BINDING_SCHEMA); ("binding_id", JStr (pw_binding_id b));
   ("host_workspace_sha256", JStr (canonical_sha256 (JStr (pw_host_workspace b))));
   ("registry", JStr (pw_registry b)); ("package_coordinate", JStr (binding_coordinate b));
   ("artifact_sha256", JStr (pw_artifact_sha256 b));
   ("dependency_plan_sha256", JStr (pw_dependency_plan_sha256 b));
   ("staged_manifest_sha256", JStr (pw_staged_manifest_sha256 b));
   ("dependency_count", JInt (pw_dependency_count b));
   ("installer_image_id", JStr (pw_installer_image_id b)); ("authority", JObj AUTHORITY)].

Definition PackageWorkspaceBinding_as_document (b : PackageWorkspaceBinding) : dict :=
  dict_set (PackageWorkspaceBinding_body b) "binding_sha256" (JStr (pw_binding_sha256 b)).

Definition seal_binding (b : PackageWorkspaceBinding) : PackageWorkspaceBinding := {|
  pw_binding_id := pw_binding_id b; pw_host_workspace := pw_host_workspace b;
  pw_registry := pw_registry b; pw_package_name := pw_package_name b; pw_version := pw_version b;
  pw_artifact_sha256 := pw_artifact_sha256 b;
  pw_dependency_plan_sha256 := pw_dependency_plan_sha256 b;
  pw_staged_manifest_sha256 := pw_staged_manifest_sha256 b;
  pw_dependency_count := pw_dependency_count b; pw_installer_image_id := pw_installer_image_id b;
  pw_binding_sha256 := canonical_sha256 (JObj (PackageWorkspaceBinding_body b)) |}.

(** [PackageWorkspaceBinding.build(...)] of the fields of [item]. *)
Definition PackageWorkspaceBinding_build (item : PackageWorkspaceBinding)
    : result PackageWorkspaceBinding :=
  binding_id ← _ident (pw_binding_id item) "binding_id";
  _ ← install_if (negb (String.prefix "/" (pw_host_workspace item))) "host_workspace_must_be_absolute";
  _ ← install_if (contains_char "000" (pw_host_workspace item) || contains_char "," (pw_host_workspace item)
                  || (4096 <? py_len (pw_host_workspace item))) "invalid_host_workspace";
  registry ← _registry (pw_registry item);
  package_name ← _package (pw_package_name item);
  version ← _version (pw_version item);
  artifact ← _sha (pw_artifact_sha256 item) "artifact_sha256";
  dependency_plan ← _sha (pw_dependency_plan_sha256 item) "dependency_plan_sha256";
  staged_manifest ← _sha (pw_staged_manifest_sha256 item) "staged_manifest_sha256";
  dependency_count ← _bounded_int (pw_dependency_count item) "dependency_count" 0 MAX_DEPENDENCIES;
  _ ← install_if (negb (image_match (pw_installer_image_id item)))
        "installer_image_must_be_immutable_digest";
  Ok (seal_binding {|
    pw_binding_id := binding_id; pw_host_workspace := pw_host_workspace item; pw_registry := registry;
    pw_package_name := package_name; pw_version := version; pw_artifact_sha256 := artifact;
    pw_dependency_plan_sha256 := dependency_plan; pw_staged_manifest_sha256 := staged_manifest;
    pw_dependency_count := dependency_count; pw_installer_image_id := pw_installer_image_id item;
    pw_binding_sha256 := "" |}).

(** One iteration of the loop of [__init__]. *)
Definition add_workspace (bindings : gmap string PackageWorkspaceBinding) (item : PackageWorkspaceBinding)
    : result (gmap string PackageWorkspaceBinding) :=
  rebuilt ← PackageWorkspaceBinding_build item;
  _ ← install_if (negb (String.eqb (pw_binding_sha256 rebuilt) (pw_binding_sha256 item)))
        "workspace_binding_digest_mismatch";
  _ ← install_if (is_Some_b (bindings !! pw_binding_id rebuilt)) "duplicate_workspace_binding";
  Ok (<[pw_binding_id rebuilt := rebuilt]> bindings).

Definition PackageInstallBroker_init (workspace_bindings : list PackageWorkspaceBinding)
    : result PackageInstallBroker :=
  bindings ← fold_r add_workspace ∅ workspace_bindings;
  _ ← install_if (bool_decide (bindings = ∅)) "workspace_binding_required";
  Ok {| pi_bindings := bindings; pi_seen_call_ids := ∅; pi_receipts := [] |}.

Definition seal_install (r : PackageInstallReceipt) : PackageInstallReceipt := {|
  pr_receipt_id := pr_receipt_id r; pr_call_id := pr_call_id r; pr_subject_id := pr_subject_id r;
  pr_request_sha256 := pr_request_sha256 r;
  pr_workspace_binding_sha256 := pr_workspace_binding_sha256 r;
  pr_package_plan_sha256 := pr_package_plan_sha256 r;
  pr_package_capability_receipt_sha256 := pr_package_capability_receipt_sha256 r;
  pr_package_decision := pr_package_decision r;
  pr_isolated_execution_receipt_sha256 := pr_isolated_execution_receipt_sha256 r;
  pr_process_admission_decision := pr_process_admission_decision r;
  pr_execution_outcome := pr_execution_outcome r; pr_installer_image_id := pr_installer_image_id r;
  pr_artifact_sha256 := pr_artifact_sha256 r;
  pr_dependency_plan_sha256 := pr_dependency_plan_sha256 r;
  pr_staged_manifest_sha256 := pr_staged_manifest_sha256 r;
  pr_dependency_count := pr_dependency_count r; pr_reason_codes := pr_reason_codes r;
  pr_at_unix := pr_at_unix r;
  pr_receipt_sha256 := canonical_sha256 (JObj (PackageInstallReceipt_body r)) |}.

(** The receipt [_finish] appends. *)
Definition receipt_of (count : nat) (req : PackageInstallRequest) (request_sha : string)
    (binding : option PackageWorkspaceBinding)
    (package_plan_sha capability_receipt_sha package_decision isolated_receipt_sha process_admission
     execution_outcome : string) (reasons : list string) (now : Z) : PackageInstallReceipt :=
  seal_install {|
    pr_receipt_id := "package-install-receipt:" +:+ pretty (Z.of_nat count + 1);
    pr_call_id := pq_call_id req; pr_subject_id := pq_subject_id req; pr_request_sha256 := request_sha;
    pr_workspace_binding_sha256 := match binding with Some b => pw_binding_sha256 b | None => ZERO_SHA256 end;
    pr_package_plan_sha256 := package_plan_sha;
    pr_package_capability_receipt_sha256 := capability_receipt_sha;
    pr_package_decision := package_decision;
    pr_isolated_execution_receipt_sha256 := isolated_receipt_sha;
    pr_process_admission_decision := process_admission; pr_execution_outcome := execution_outcome;
    pr_installer_image_id := match binding with
                             | Some b => pw_installer_image_id b
                             | None => "sha256:" +:+ ZERO_SHA256
                             end;
    pr_artifact_sha256 := pq_artifact_sha256 req;
    pr_dependency_plan_sha256 := pq_dependency_plan_sha256 req;
    pr_staged_manifest_sha256 := pq_staged_manifest_sha256 req;
    pr_dependency_count := pq_dependency_count req; pr_reason_codes := sorted_set reasons;
    pr_at_unix := now; pr_receipt_sha256 := "" |}.

(** [package_plan_sha] and the [action] of the package capability. *)
Definition package_plan_sha (request_sha : string) (binding : PackageWorkspaceBinding) : string :=
  canonical_sha256 (JObj
    [("request_sha256", JStr request_sha); ("workspace_binding_sha256", JStr (pw_binding_sha256 binding));
     ("installer_image_id", JStr (pw_installer_image_id binding));
     ("installer_executable", JStr INSTALLER_EXECUTABLE); ("argument_profile", JStr ARGUMENT_PROFILE);
     ("install_target", JStr INSTALL_TARGET)]).

Definition package_action (req : PackageInstallRequest) (plan_sha : string)
    (binding : PackageWorkspaceBinding) : dict :=
  [("call_id", JStr (pq_call_id req)); ("workspace_binding_sha256", JStr (pw_binding_sha256 binding));
   ("package_plan_sha256", JStr plan_sha); ("artifact_sha256", JStr (pw_artifact_sha256 binding));
   ("dependency_plan_sha256", JStr (pw_dependency_plan_sha256 binding));
   ("staged_manifest_sha256", JStr (pw_staged_manifest_sha256 binding));
   ("dependency_count", JInt (pw_dependency_count binding))].

(** The isolated plan and the runtime operation that asks for it. *)
Definition installer_plan (req : PackageInstallRequest) (binding : PackageWorkspaceBinding)
    : result IsolatedExecutionPlan :=
  IsolatedExecutionPlan_build ("package-install:" +:+ pq_call_id req) (pw_installer_image_id binding)
    (_installer_argv binding) (pw_host_workspace binding) 60 None.

Definition installer_operation (req : PackageInstallRequest) (plan : IsolatedExecutionPlan) (now : Z)
    : result RuntimeOperation :=
  payload ← payload_sha256 plan;
  Ok {| ro_operation_id := ie_operation_id plan; ro_subject_id := pq_subject_id req;
        ro_policy_sha256 := pq_policy_sha256 req; ro_kind := "process.execute";
        ro_scope := [("executables", jstrs [INSTALLER_EXECUTABLE]);
                     ("working_directory", JStr "/workspace");
                     ("argument_profile", JStr ARGUMENT_PROFILE)];
        ro_payload_sha256 := payload; ro_at_unix := now; ro_privilege_level_before := 0;
        ro_privilege_level_after := 0 |}.

Section host.
Context {B G S : Type} {bops : BrokerOps B} {LP : Lens S PackageInstallBroker}.
Context {LC : Lens S CapabilityBroker} {LI : Lens S (IsolatedExecutionBroker B G)}.

Definition installer_broker : M S PackageInstallBroker := this (H := LP).

Definition _finish (req : PackageInstallRequest) (request_sha : string)
    (binding : option PackageWorkspaceBinding)
    (package_plan_sha capability_receipt_sha package_decision isolated_receipt_sha process_admission
     execution_outcome : string) (reasons : list string) (now : Z) : M S dict :=
  self ← installer_broker;
  let receipt := receipt_of (length (pi_receipts self)) req request_sha binding package_plan_sha
    capability_receipt_sha package_decision isolated_receipt_sha process_admission execution_outcome
    reasons now in
  _ ← set_this (H := LP) (push_receipt receipt);
  mret (PackageInstallReceipt_as_document receipt).

(** The part of [install] after the package capability was admitted. *)
Definition run_installer (backend : IsolatedExecutionPlan -> M S exec_result)
    (req : PackageInstallRequest) (request_sha : string) (binding : PackageWorkspaceBinding)
    (plan_sha capability_sha : string) (now : Z) : M S dict :=
  isolated_plan ← lift (installer_plan req binding);
  operation ← lift (installer_operation req isolated_plan now);
  isolated ← IsolatedExecution.execute (L := LI) backend operation isolated_plan;
  admission ← lift (str_item isolated "admission_decision");
  outcome ← lift (str_item isolated "execution_outcome");
  isolated_sha ← lift (str_item isolated "receipt_sha256");
  _finish req request_sha (Some binding) plan_sha capability_sha "ALLOW" isolated_sha admission outcome
    (["package_capability_admitted"; "host_staged_plan_matched"]
     ++ (if String.eqb admission "ALLOW" && String.eqb outcome "SUCCEEDED"
         then ["process_capability_admitted"; "isolated_install_succeeded"]
         else ["isolated_process_gate_blocked_or_failed"])) now.

(** The part of [install] that asks for the package capability. *)
Definition ask_package (backend : IsolatedExecutionPlan -> M S exec_result)
    (req : PackageInstallRequest) (request_sha : string) (binding : PackageWorkspaceBinding) (now : Z)
    : M S dict :=
  let plan_sha := package_plan_sha request_sha binding in
  capability ← on (H := LC) (CapabilityBroker.authorize (pq_subject_id req) "package.install"
    (pq_policy_sha256 req) (package_scope binding) (package_action req plan_sha binding) now None None);
  decision ← lift (dict_item capability "decision");
  capability_sha ← lift (str_item capability "receipt_sha256");
  if negb (is_str decision "ALLOW") then
    codes ← lift (codes_item capability "reason_codes");
    _finish req request_sha (Some binding) plan_sha capability_sha "BLOCK" ZERO_SHA256 "NOT_REQUESTED"
      "NOT_EXECUTED" codes now
  else run_installer backend req request_sha binding plan_sha capability_sha now.

Definition install (backend : IsolatedExecutionPlan -> M S exec_result) (clock : result Z)
    (request : PackageInstallRequest) : M S dict :=
  req ← lift (normalized request);
  now ← lift (_now clock);
  body ← lift (safe_body req);
  let request_sha := canonical_sha256 (JObj body) in
  let block binding reasons :=
    _finish req request_sha binding ZERO_SHA256 ZERO_SHA256 "BLOCK" ZERO_SHA256 "NOT_REQUESTED"
      "NOT_EXECUTED" reasons now in
  self ← installer_broker;
  if bool_decide (pq_call_id req ∈ pi_seen_call_ids self) then block None ["replayed_call_id"]
  else
    _ ← set_this (H := LP) (see_call (pq_call_id req));
    match pi_bindings self !! pq_workspace_binding_id req with
    | None => block None ["unknown_workspace_binding"]
    | Some binding =>
        match mismatch_reasons req binding with
        | [] => ask_package backend req request_sha binding now
        | reasons => block (Some binding) reasons
        end
    end.
End host.

Definition receipt_keys : list string :=
  ["schema"; "receipt_id"; "call_id"; "subject_id"; "request_sha256"; "workspace_binding_sha256";
   "package_plan_sha256"; "package_capability_receipt_sha256"; "package_decision";
   "isolated_execution_receipt_sha256"; "process_admission_decision"; "execution_outcome";
   "installer_image_id"; "artifact_sha256"; "dependency_plan_sha256"; "staged_manifest_sha256";
   "dependency_count"; "reason_codes"; "at_unix"; "authority"; "receipt_sha256"].

Definition verify_receipt (document : dict) : result dict :=
  _ ← install_if (negb (keys_are document receipt_keys)) "package_receipt_schema_mismatch";
  receipt_sha ← dict_item document "receipt_sha256";
  let raw := dict_del document "receipt_sha256" in
  _ ← install_if (negb (is_str (dict_get_none raw "schema") SCHEMA)
                  || negb (py_eq (dict_get_none raw "authority") (JObj AUTHORITY)))
        "package_receipt_schema_mismatch";
  _ ← install_if (negb (is_str receipt_sha (canonical_sha256 (JObj raw)))) "package_receipt_digest_mismatch";
  Ok document.
End package_install.

(** ** Lemmas *)

(** The two components are different objects: writing the first does not change the second. *)
Class Separate {S T U : Type} (L1 : Lens S T) (L2 : Lens S U) :=
  separate : forall (s : S) (t : T), lget (Lens := L2) (lput (Lens := L1) t s) = lget (Lens := L2) s.

(** Without a reason the request agrees with its binding in every bound field. *)
Record agrees (req : PackageInstallRequest) (binding : PackageWorkspaceBinding) : Prop := {
  ag_registry : pq_registry req = pw_registry binding;
  ag_coordinate : request_coordinate req = binding_coordinate binding;
  ag_artifact : pq_artifact_sha256 req = pw_artifact_sha256 binding;
  ag_dependencies : pq_dependency_plan_sha256 req = pw_dependency_plan_sha256 binding;
  ag_manifest : pq_staged_manifest_sha256 req = pw_staged_manifest_sha256 binding;
  ag_count : pq_dependency_count req = pw_dependency_count binding
}.

Lemma no_mismatch req binding : mismatch_reasons req binding = [] <-> agrees req binding.
Proof.
  unfold mismatch_reasons. split.
  - intros H. repeat (apply app_eq_nil in H as [?H H]).
    repeat match goal with Hx : (if negb ?b then _ else _) = [] |- _ =>
      destruct b eqn:?; cbn in Hx; [clear Hx|discriminate Hx] end.
    constructor; try (by apply String.eqb_eq); by apply Z.eqb_eq.
  - intros []. by rewrite ag_registry0, ag_coordinate0, ag_artifact0, ag_dependencies0, ag_manifest0,
      ag_count0, !String.eqb_refl, Z.eqb_refl.
Qed.

Lemma package_now clock now : _now clock = Ok now <-> clock = Ok now /\ 0 <= now.
Proof.
  unfold _now, install_if. destruct clock as [v|e]; [|by split; [|intros []]].
  rewrite bind_Ok, raise_if_bind, Z.ltb_ge. split; [by intros [? [= <-]]|]. by intros [[= ->] ?].
Qed.

Lemma sha_passes c msg x : re_sha x = true -> check_sha_str c msg x = Ok x.
Proof. intros H. by apply check_sha_str_ok. Qed.

Section lemmas.
Context {hash : Digest} {B G S : Type} {bops : BrokerOps B} {LP : Lens S PackageInstallBroker}.
Context {LC : Lens S CapabilityBroker} {LI : Lens S (IsolatedExecutionBroker B G)}.
Implicit Types (s : S) (backend : IsolatedExecutionPlan -> M S exec_result).

Definition installer s : PackageInstallBroker := lget (Lens := LP) s.
Definition capabilities s : CapabilityBroker := lget (Lens := LC) s.

(** The state in which the capability broker is asked: the call identifier is burned. *)
Definition seen_state (call_id : string) s : S := lput (Lens := LP) (see_call call_id (installer s)) s.

(** The outcome does not depend on the backend, and a receipt says that nothing ran. *)
Definition nothing_run (m : (IsolatedExecutionPlan -> M S exec_result) -> M S dict) s : Prop :=
  (forall backend backend', m backend s = m backend' s)
  /\ forall backend doc s', m backend s = (Ok doc, s') ->
     dict_get doc "package_decision" = Some (JStr "BLOCK")
     /\ dict_get doc "execution_outcome" = Some (JStr "NOT_EXECUTED")
     /\ verify_receipt doc = Ok doc.

Lemma install_sealed r : pr_receipt_sha256 r = canonical_sha256 (JObj (PackageInstallReceipt_body r)) ->
  verify_receipt (PackageInstallReceipt_as_document r) = Ok (PackageInstallReceipt_as_document r).
Proof.
  intros Hr. unfold verify_receipt, install_if.
  change (keys_are (PackageInstallReceipt_as_document r) receipt_keys) with true.
  change (dict_item (PackageInstallReceipt_as_document r) "receipt_sha256") with (Ok (JStr (pr_receipt_sha256 r))).
  change (dict_del (PackageInstallReceipt_as_document r) "receipt_sha256") with (PackageInstallReceipt_body r).
  cbn [negb raise_if]. rewrite !bind_Ok. cbv zeta.
  replace (negb (is_str (dict_get_none (PackageInstallReceipt_body r) "schema") SCHEMA) || _) with false
    by (by vm_compute).
  cbn [raise_if]. rewrite bind_Ok, Hr. cbn [is_str]. by rewrite String.eqb_refl.
Qed.

Lemma install_finish_run req rsha binding psha csha dec isha adm out rs now s :
  let r := receipt_of (length (pi_receipts (installer s))) req rsha binding psha csha dec isha adm out rs now in
  _finish req rsha binding psha csha dec isha adm out rs now s
  = (Ok (PackageInstallReceipt_as_document r), lput (Lens := LP) (push_receipt r (installer s)) s).
Proof. reflexivity. Qed.

Lemma error_nothing (m : (IsolatedExecutionPlan -> M S exec_result) -> M S dict) s e s1 :
  (forall backend, m backend s = (Err e, s1)) -> nothing_run m s.
Proof. intros H. split; [intros; by rewrite !H|]. intros backend doc s'. by rewrite H. Qed.

Lemma block_nothing (m : (IsolatedExecutionPlan -> M S exec_result) -> M S dict) s s1
    req rsha binding psha csha isha adm rs now :
  (forall backend, m backend s
   = _finish req rsha binding psha csha "BLOCK" isha adm "NOT_EXECUTED" rs now s1) -> nothing_run m s.
Proof.
  intros H. split; [intros; by rewrite !H|]. intros backend doc s'. rewrite H, install_finish_run. intros [= <- _].
  split; [done|]. split; [done|]. by apply install_sealed.
Qed.

(** What must hold for the isolated execution broker to be called, and with what. *)
Record goes_to_installer (clock : result Z) (request : PackageInstallRequest) s
    (req : PackageInstallRequest) (now : Z) (binding : PackageWorkspaceBinding) (capability : dict)
    (csha : string) (s1 : S) (plan : IsolatedExecutionPlan) (operation : RuntimeOperation) : Prop := {
  gi_request : normalized request = Ok req;
  gi_clock : clock = Ok now /\ 0 <= now;
  gi_fresh : pq_call_id req ∉ pi_seen_call_ids (installer s);
  gi_binding : pi_bindings (installer s) !! pq_workspace_binding_id req = Some binding;
  gi_agrees : agrees req binding;
  gi_capability : on (H := LC) (CapabilityBroker.authorize (pq_subject_id req) "package.install"
      (pq_policy_sha256 req) (package_scope binding)
      (package_action req (package_plan_sha (canonical_sha256 (JObj (from_ok [] (safe_body req)))) binding)
         binding) now None None) (seen_state (pq_call_id req) s) = (Ok capability, s1);
  gi_allowed : dict_get_none capability "decision" = JStr "ALLOW";
  gi_receipt : str_item capability "receipt_sha256" = Ok csha;
  gi_plan : installer_plan req binding = Ok plan;
  gi_operation : installer_operation req plan now = Ok operation
}.

(** The rest of [install], once the isolated execution broker has answered. *)
Definition record_install (req : PackageInstallRequest) (binding : PackageWorkspaceBinding) (csha : string)
    (now : Z) (isolated : dict) : M S dict :=
  let rsha := canonical_sha256 (JObj (from_ok [] (safe_body req))) in
  admission ← lift (str_item isolated "admission_decision");
  outcome ← lift (str_item isolated "execution_outcome");
  isolated_sha ← lift (str_item isolated "receipt_sha256");
  _finish req rsha (Some binding) (package_plan_sha rsha binding) csha "ALLOW" isolated_sha admission outcome
    (["package_capability_admitted"; "host_staged_plan_matched"]
     ++ (if String.eqb admission "ALLOW" && String.eqb outcome "SUCCEEDED"
         then ["process_capability_admitted"; "isolated_install_succeeded"]
         else ["isolated_process_gate_blocked_or_failed"])) now.

Lemma install_checks clock request s :
  nothing_run (fun backend => install backend clock request) s
  \/ exists req now binding, normalized request = Ok req /\ (clock = Ok now /\ 0 <= now)
     /\ pq_call_id req ∉ pi_seen_call_ids (installer s)
     /\ pi_bindings (installer s) !! pq_workspace_binding_id req = Some binding /\ agrees req binding
     /\ forall backend, install backend clock request s
        = ask_package backend req (canonical_sha256 (JObj (from_ok [] (safe_body req)))) binding now
            (seen_state (pq_call_id req) s).
Proof.
  destruct (normalized request) as [req|e] eqn:Hreq.
  2: { left. apply (error_nothing _ s e s). intros backend. unfold install. by M_go Hreq. }
  destruct (_now clock) as [now|e] eqn:Hnow.
  2: { left. apply (error_nothing _ s e s). intros backend. unfold install. M_go Hreq. by M_go Hnow. }
  destruct (safe_body req) as [body|e] eqn:Hbody.
  2: { left. apply (error_nothing _ s e s). intros backend. unfold install. M_go Hreq. M_go Hnow. by M_go Hbody. }
  assert (forall backend, install backend clock request s
    = (if bool_decide (pq_call_id req ∈ pi_seen_call_ids (installer s))
       then _finish req (canonical_sha256 (JObj body)) None ZERO_SHA256 ZERO_SHA256 "BLOCK" ZERO_SHA256
              "NOT_REQUESTED" "NOT_EXECUTED" ["replayed_call_id"] now s
       else match pi_bindings (installer s) !! pq_workspace_binding_id req with
            | None => _finish req (canonical_sha256 (JObj body)) None ZERO_SHA256 ZERO_SHA256 "BLOCK"
                ZERO_SHA256 "NOT_REQUESTED" "NOT_EXECUTED" ["unknown_workspace_binding"] now
                (seen_state (pq_call_id req) s)
            | Some binding =>
                match mismatch_reasons req binding with
                | [] => ask_package backend req (canonical_sha256 (JObj body)) binding now
                          (seen_state (pq_call_id req) s)
                | reasons => _finish req (canonical_sha256 (JObj body)) (Some binding) ZERO_SHA256
                    ZERO_SHA256 "BLOCK" ZERO_SHA256 "NOT_REQUESTED" "NOT_EXECUTED" reasons now
                    (seen_state (pq_call_id req) s)
                end
            end)) as Hrun.
  { intros backend. unfold install. M_go Hreq. M_go Hnow. M_go Hbody. unfold installer_broker. M_go.
    fold (installer s). destruct (bool_decide _); [done|]. M_go. fold (installer s).
    destruct (pi_bindings (installer s) !! _) as [binding|]; [|done]. by destruct (mismatch_reasons req binding). }
  destruct (bool_decide (pq_call_id req ∈ pi_seen_call_ids (installer s))) eqn:Hseen.
  { left. eapply block_nothing, Hrun. }
  destruct (pi_bindings (installer s) !! pq_workspace_binding_id req) as [binding|] eqn:Hb.
  2: { left. eapply block_nothing, Hrun. }
  destruct (mismatch_reasons req binding) as [|reason more] eqn:Hmis.
  2: { left. eapply block_nothing, Hrun. }
  right. exists req, now, binding. apply package_now in Hnow. apply bool_decide_eq_false in Hseen.
  apply no_mismatch in Hmis. by rewrite Hbody.
Qed.

Lemma install_cases clock request s :
  nothing_run (fun backend => install backend clock request) s
  \/ exists req now binding capability csha s1 plan operation,
       goes_to_installer clock request s req now binding capability csha s1 plan operation
       /\ forall backend, install backend clock request s
          = (IsolatedExecution.execute (L := LI) backend operation plan
             ≫= record_install req binding csha now) s1.
Proof.
  destruct (install_checks clock request s)
    as [H|(req & now & binding & Hreq & Hnow & Hseen & Hb & Hag & Hask)]; [by left|].
  set (rsha := canonical_sha256 (JObj (from_ok [] (safe_body req)))) in *.
  destruct (on (H := LC) (CapabilityBroker.authorize (pq_subject_id req) "package.install"
      (pq_policy_sha256 req) (package_scope binding)
      (package_action req (package_plan_sha rsha binding) binding) now None None)
      (seen_state (pq_call_id req) s)) as [[capability|e] s1] eqn:Hcap.
  2: { left. apply (error_nothing _ s e s1). intros backend. rewrite Hask. unfold ask_package.
       cbv zeta. by rewrite M_bind_eq, Hcap. }
  assert (forall backend, install backend clock request s
    = (decision ← lift (dict_item capability "decision");
       capability_sha ← lift (str_item capability "receipt_sha256");
       if negb (is_str decision "ALLOW") then
         codes ← lift (codes_item capability "reason_codes");
         _finish req rsha (Some binding) (package_plan_sha rsha binding) capability_sha "BLOCK" ZERO_SHA256
           "NOT_REQUESTED" "NOT_EXECUTED" codes now
       else run_installer backend req rsha binding (package_plan_sha rsha binding) capability_sha now) s1) as Hrun.
  { intros backend. rewrite Hask. unfold ask_package. cbv zeta. by rewrite M_bind_eq, Hcap. }
  destruct (dict_item capability "decision") as [decision|e] eqn:Hd.
  2: { left. apply (error_nothing _ s e s1). intros backend. by rewrite Hrun. }
  destruct (str_item capability "receipt_sha256") as [csha|e] eqn:Hsha.
  2: { left. apply (error_nothing _ s e s1). intros backend. by rewrite Hrun. }
  assert (forall backend, install backend clock request s
    = (if negb (is_str decision "ALLOW") then
         codes ← lift (codes_item capability "reason_codes");
         _finish req rsha (Some binding) (package_plan_sha rsha binding) csha "BLOCK" ZERO_SHA256
           "NOT_REQUESTED" "NOT_EXECUTED" codes now
       else run_installer backend req rsha binding (package_plan_sha rsha binding) csha now) s1) as Hdone
    by (intros backend; by rewrite Hrun).
  destruct (is_str decision "ALLOW") eqn:Hdec; cbn [negb] in Hdone.
  2: { left. destruct (codes_item capability "reason_codes") as [codes|e].
       - eapply block_nothing. exact Hdone.
       - apply (error_nothing _ s e s1). exact Hdone. }
  destruct (installer_plan req binding) as [plan|e] eqn:Hplan.
  2: { left. apply (error_nothing _ s e s1). intros backend. rewrite Hdone. unfold run_installer. by M_go Hplan. }
  destruct (installer_operation req plan now) as [operation|e] eqn:Hop.
  2: { left. apply (error_nothing _ s e s1). intros backend. rewrite Hdone. unfold run_installer. M_go Hplan.
       by M_go Hop. }
  right. exists req, now, binding, capability, csha, s1, plan, operation. split.
  - constructor; try done. by eapply decision_item.
  - intros backend. rewrite Hdone. unfold run_installer. M_go Hplan. M_go Hop. done.
Qed.
(** *** The plan handed to the isolated execution broker *)
Lemma plan_built req binding plan : installer_plan req binding = Ok plan ->
  plan_ok plan /\ plan = {| ie_operation_id := "package-install:" +:+ pq_call_id req;
    ie_image_id := pw_installer_image_id binding; ie_argv := _installer_argv binding;
    ie_host_workspace := pw_host_workspace binding; ie_timeout_seconds := 60;
    ie_profile := default_profile |}.
Proof.
  unfold installer_plan, IsolatedExecutionPlan_build. cbv zeta. cbn [default].
  destruct (IsolatedExecutionPlan_validate _) as [[]|e] eqn:Hv; [|done].
  rewrite bind_Ok. intros [= <-]. split; [|done]. by apply plan_accepted.
Qed.

(** A workspace that is not a normal path is refused after the capability was charged. *)
Lemma unnormalized_plan req binding : ~ normal_path (pw_host_workspace binding) ->
  exists e, installer_plan req binding = Err e.
Proof.
  intros Hn. destruct (installer_plan req binding) as [plan|e] eqn:Hp; [|by exists e].
  apply plan_built in Hp as [Hok ->]. by destruct Hn, Hok.
Qed.

Lemma ident_fields req r : normalized r = Ok req ->
  re_ident (pq_call_id req) = true /\ re_ident (pq_subject_id req) = true
  /\ re_sha (pq_policy_sha256 req) = true.
Proof.
  intros H. unfold normalized in H. py_inv. cbn.
  repeat match goal with Hi : _ident _ _ = Ok _ |- _ => unfold _ident in Hi; py_inv end.
  repeat match goal with Hi : install_if (negb (re_ident _)) _ = Ok _ |- _ =>
    apply raise_if_ok, negb_false_iff in Hi end.
  match goal with Hi : _sha _ "policy_sha256" = Ok _ |- _ => apply check_sha_str_ok in Hi as [-> ?] end. done.
Qed.

Lemma installer_bound r req binding plan now operation : normalized r = Ok req -> 0 <= now ->
  installer_plan req binding = Ok plan -> installer_operation req plan now = Ok operation ->
  check_bound operation plan = Ok tt.
Proof.
  intros (Hcall & Hsub & Hpol)%ident_fields Hnow [Hok Hplan]%plan_built Hop.
  unfold installer_operation in Hop. destruct (payload_sha256 plan) as [payload|e] eqn:Hpay; [|done].
  rewrite bind_Ok in Hop. injection Hop as <-.
  assert (re_sha payload = true) as Hsha.
  { unfold payload_sha256 in Hpay. destruct (plan_sha256 plan); [|done].
    rewrite bind_Ok in Hpay. injection Hpay as <-. apply canonical_sha256_sha. }
  assert (exists scope, validate_scope "process.execute" (JObj [("executables", jstrs [INSTALLER_EXECUTABLE]);
    ("working_directory", JStr "/workspace"); ("argument_profile", JStr ARGUMENT_PROFILE)]) = Ok scope
    /\ is_str (dict_get_none scope "working_directory") "/workspace" = true
    /\ executable_in_scope scope INSTALLER_EXECUTABLE = Ok true) as (scope & Hscope & Hwd & Hexe).
  { eexists. split; [vm_compute; reflexivity|]. split; vm_compute; reflexivity. }
  unfold check_bound, RuntimeOperation_validate, isolation_if, Mediation._sha.
  assert (forall op, ro_kind op = "process.execute" -> ro_scope op = [("executables", jstrs [INSTALLER_EXECUTABLE]);
    ("working_directory", JStr "/workspace"); ("argument_profile", JStr ARGUMENT_PROFILE)] ->
    normalized_scope op = Ok scope) as Hnorm.
  { intros op Hk Hs. unfold normalized_scope. rewrite Hk, Hs.
    change (List.find (fun p => String.eqb (fst p) "process.execute") OPERATION_TO_CAPABILITY)
      with (Some ("process.execute", "process.execute")). cbn [snd]. by rewrite Hscope. }
  match goal with |- context [normalized_scope ?op] => rewrite !(Hnorm op eq_refl eq_refl) end.
  rewrite (proj2 (plan_accepted plan) Hok), Hpay. cbn [ro_operation_id ro_subject_id
    ro_policy_sha256 ro_kind ro_payload_sha256 ro_at_unix ro_privilege_level_before ro_privilege_level_after].
  destruct (re_ident_solid _ Hsub) as [Hs1 Hs2]. rewrite (py_strip_solid _ Hs1).
  rewrite (proj2 (String.eqb_neq _ _) Hs2), !sha_passes by done.
  pose proof (pk_operation _ Hok) as [Hid _]. apply String.eqb_neq in Hid. rewrite Hid.
  rewrite (proj2 (Z.ltb_ge _ _) Hnow), !String.eqb_refl.
  change (negb ((0 <=? 0) && (0 <=? 10))) with false. cbn [raise_if negb]. rewrite !bind_Ok, Hwd.
  assert (exists rest, ie_argv plan = INSTALLER_EXECUTABLE :: rest) as [rest ->] by (rewrite Hplan; by eexists).
  cbn [raise_if negb]. rewrite bind_Ok, Hexe, bind_Ok. cbn [raise_if negb].
  by rewrite !bind_Ok, String.eqb_refl.
Qed.
(** *** The two gates *)
Lemma on_ok {A} (m : M CapabilityBroker A) s a s1 : on (H := LC) m s = (Ok a, s1) ->
  m (capabilities s) = (Ok a, capabilities s1).
Proof.
  rewrite on_run. unfold capabilities. destruct (m (lget s)) as [r c] eqn:E.
  intros [= -> <-]. by rewrite lget_lput.
Qed.

(** What the isolated execution broker is asked, in terms of the host's binding. *)
Record installs (req : PackageInstallRequest) (binding : PackageWorkspaceBinding) (now : Z) (csha : string)
    (s1 : S) (plan : IsolatedExecutionPlan) (operation : RuntimeOperation) : Prop := {
  in_admitted : exists id, CapabilityUse.admitted (capabilities s1) (pq_subject_id req) "package.install"
    (pq_policy_sha256 req) (sorted_on fst (package_scope binding))
    (package_action req (package_plan_sha (canonical_sha256 (JObj (from_ok [] (safe_body req)))) binding)
       binding) now id csha;
  in_plan : plan_ok plan /\ ie_argv plan = _installer_argv binding
    /\ ie_host_workspace plan = pw_host_workspace binding
    /\ ie_image_id plan = pw_installer_image_id binding /\ ie_profile plan = default_profile;
  in_bound : bound_to operation plan /\ ro_subject_id operation = pq_subject_id req
    /\ ro_policy_sha256 operation = pq_policy_sha256 req /\ ro_at_unix operation = now
}.

Lemma installer_installs clock request s req now binding capability csha s1 plan operation
    `{Hsep : !Separate LP LC} : broker_inv (capabilities s) ->
  goes_to_installer clock request s req now binding capability csha s1 plan operation ->
  installs req binding now csha s1 plan operation.
Proof.
  intros Hinv [Hreq [_ Hnow] _ _ _ Hcap Hdec Hsha Hplan Hop].
  pose proof (check_bound_ok _ _ (installer_bound _ _ _ _ _ _ Hreq Hnow Hplan Hop)) as Hbound.
  apply on_ok in Hcap. unfold capabilities, seen_state in Hcap. rewrite separate in Hcap.
  destruct (authorize_admits _ _ _ _ _ _ _ _ _ _ _ Hinv Hcap Hdec) as (scope & id & sha & Hsc & _ & Hsha' & Hadm).
  rewrite (str_item_get _ _ _ Hsha') in Hsha. injection Hsha as ->.
  apply plain_scope in Hsc as ->; [|repeat constructor; eexists; by right].
  apply plan_built in Hplan as [Hok ->]. constructor; [by exists id|done|]. split; [done|].
  unfold installer_operation in Hop. destruct (payload_sha256 _); [|done]. rewrite bind_Ok in Hop.
  by injection Hop as <-.
Qed.

Lemma record_not_run req binding csha now iso s doc s' :
  dict_get iso "admission_decision" = Some (JStr "BLOCK") ->
  dict_get iso "execution_outcome" = Some (JStr "NOT_EXECUTED") ->
  record_install req binding csha now iso s = (Ok doc, s') ->
  dict_get doc "process_admission_decision" = Some (JStr "BLOCK")
  /\ dict_get doc "execution_outcome" = Some (JStr "NOT_EXECUTED").
Proof.
  intros Ha Ho. unfold record_install. cbv zeta. rewrite M_lift, (str_item_get _ _ _ Ha).
  rewrite M_lift, (str_item_get _ _ _ Ho). rewrite M_lift. destruct (str_item iso "receipt_sha256"); [|done].
  rewrite install_finish_run. by intros [= <- _].
Qed.
End lemmas.

(** ** Examples *)
#[local] Existing Instance checksum_digest.

Definition example_binding : PackageWorkspaceBinding :=
  seal_binding {| pw_binding_id := "workspace:1"; pw_host_workspace := "/srv/stage";
    pw_registry := "pypi.org"; pw_package_name := "demo-pkg"; pw_version := "1.2.0";
    pw_artifact_sha256 := ZERO_SHA256; pw_dependency_plan_sha256 := ZERO_SHA256;
    pw_staged_manifest_sha256 := ZERO_SHA256; pw_dependency_count := 2;
    pw_installer_image_id := "sha256:" +:+ ZERO_SHA256; pw_binding_sha256 := "" |}.

Definition example_request : PackageInstallRequest := {|
  pq_call_id := "call:1"; pq_subject_id := "agent:1"; pq_policy_sha256 := ZERO_SHA256;
  pq_workspace_binding_id := "workspace:1"; pq_registry := "PyPI.org"; pq_package_name := "Demo__Pkg";
  pq_version := "1.2.0"; pq_artifact_sha256 := ZERO_SHA256; pq_dependency_plan_sha256 := ZERO_SHA256;
  pq_staged_manifest_sha256 := ZERO_SHA256; pq_dependency_count := 2 |}.

(** One capability broker behind both gates. *)
Definition both_capabilities : CapabilityBroker :=
  snd (CapabilityBroker.admit_contract
         (use_document "cap:2" "process.execute"
            [("argument_profile", JStr ARGUMENT_PROFILE); ("executables", jstrs [INSTALLER_EXECUTABLE]);
             ("working_directory", JStr "/workspace")]) 100
         (use_broker "package.install"
            [("packages", jstrs ["demo-pkg==1.2.0"]); ("registries", jstrs ["pypi.org"])])).

Definition PackageHost : Type := PackageInstallBroker * IsolatedExecutionBroker CapabilityBroker unit.

#[local] Program Instance package_lens : Lens PackageHost PackageInstallBroker :=
  {| lget := fst; lput b s := (b, snd s) |}.
Next Obligation. done. Qed.
Next Obligation. by intros []. Qed.
Next Obligation. done. Qed.

#[local] Program Instance isolated_lens :
    Lens PackageHost (IsolatedExecutionBroker CapabilityBroker unit) :=
  {| lget := snd; lput b s := (fst s, b) |}.
Next Obligation. done. Qed.
Next Obligation. by intros []. Qed.
Next Obligation. done. Qed.

Program Definition mediator_broker : Lens (RuntimeMediator CapabilityBroker unit) CapabilityBroker :=
  {| lget := rm_broker; lput := set_broker |}.
Next Obligation. done. Qed.
Next Obligation. by intros []. Qed.
Next Obligation. done. Qed.

Definition shared_lens : Lens PackageHost CapabilityBroker :=
  lens_comp (lens_comp isolated_lens mediator_field) mediator_broker.

#[local] Instance package_separate : Separate package_lens shared_lens.
Proof. by intros [b i] t. Qed.

Definition package_host : PackageHost :=
  (from_ok {| pi_bindings := ∅; pi_seen_call_ids := ∅; pi_receipts := [] |}
     (PackageInstallBroker_init [example_binding]),
   IsolatedExecutionBroker_init (RuntimeMediator_init both_capabilities None)).

Definition good_installer (_ : IsolatedExecutionPlan) : M PackageHost exec_result :=
  mret (Observed (ExecutionObservation_success [])).

Definition installed : result dict * PackageHost :=
  install (LP := package_lens) (LC := shared_lens) (LI := isolated_lens) good_installer (Ok 150)
    example_request package_host.

Example install_succeeds :
  (doc ← fst installed; dict_item doc "execution_outcome") = Ok (JStr "SUCCEEDED")
  /\ (doc ← fst installed; dict_item doc "process_admission_decision") = Ok (JStr "ALLOW").
Proof. vm_compute. split; reflexivity. Qed.

(** A binding that [PackageWorkspaceBinding.build] accepts although its workspace is not a
    normal path: every matching request charges the package capability, burns its call
    identifier and then raises from [IsolatedExecutionPlan.build], without a receipt. *)
Definition crooked_binding : PackageWorkspaceBinding :=
  from_ok example_binding (PackageWorkspaceBinding_build {| pw_binding_id := "workspace:1";
    pw_host_workspace := "/srv/../stage"; pw_registry := "pypi.org"; pw_package_name := "demo-pkg";
    pw_version := "1.2.0"; pw_artifact_sha256 := ZERO_SHA256; pw_dependency_plan_sha256 := ZERO_SHA256;
    pw_staged_manifest_sha256 := ZERO_SHA256; pw_dependency_count := 2;
    pw_installer_image_id := "sha256:" +:+ ZERO_SHA256; pw_binding_sha256 := "" |}).

Definition crooked_host : PackageHost :=
  (from_ok {| pi_bindings := ∅; pi_seen_call_ids := ∅; pi_receipts := [] |}
     (PackageInstallBroker_init [crooked_binding]),
   IsolatedExecutionBroker_init (RuntimeMediator_init both_capabilities None)).

Definition crooked_install : result dict * PackageHost :=
  install (LP := package_lens) (LC := shared_lens) (LI := isolated_lens) good_installer (Ok 150)
    example_request crooked_host.

Theorem crooked_workspace_charges_and_raises :
  fst crooked_install
  = fail IsolationError "host_workspace must not contain dot, parent or redundant path segments"
  /\ (cs_use_count <$> cb_states (capabilities (LC := shared_lens) crooked_host) !! "cap:1") = Some 0
  /\ (cs_use_count <$> cb_states (capabilities (LC := shared_lens) (snd crooked_install)) !! "cap:1") = Some 1
  /\ pi_receipts (fst (snd crooked_install)) = []
  /\ "call:1" ∈ pi_seen_call_ids (fst (snd crooked_install)).
Proof.
  split; [vm_compute; reflexivity|]. split; [vm_compute; reflexivity|].
  split; [vm_compute; reflexivity|]. split; [vm_compute; reflexivity|].
  assert (bool_decide ("call:1" ∈ pi_seen_call_ids (fst (snd crooked_install))) = true) as H
    by (vm_compute; reflexivity).
  exact (bool_decide_eq_true_1 _ H).
Qed.

Lemma installed_run :
  install (LP := package_lens) (LC := shared_lens) (LI := isolated_lens) good_installer (Ok 150)
    example_request package_host = installed.
Proof.
  exact (@eq_refl _ (install (LP := package_lens) (LC := shared_lens) (LI := isolated_lens) good_installer
                       (Ok 150) example_request package_host)).
Qed.

Lemma installed_result : exists doc s', installed = (Ok doc, s')
  /\ dict_get doc "execution_outcome" = Some (JStr "SUCCEEDED").
Proof.
  assert (match fst installed with
          | Ok doc => is_str (dict_get_none doc "execution_outcome") "SUCCEEDED"
          | Err _ => false
          end = true) as Hs by (vm_compute; reflexivity).
  destruct installed as [[doc|e] s']; [|discriminate Hs]. exists doc, s'. split; [reflexivity|].
  by apply is_str_get.
Qed.

Lemma both_capabilities_reachable :
  star broker_step (fresh_broker "broker:test") both_capabilities.
Proof.
  eapply star_step; [|apply step_admit]. apply use_broker_reachable.
Qed.

(** ** Properties *)

(** C16: nothing is installed unless both gates open. For any request, either the backend is
    irrelevant and any receipt says BLOCK and NOT_EXECUTED and verifies, or all of this
    holds: the request is valid and its call identifier fresh, it agrees in every bound
    field with a workspace binding the host staged, the capability broker has admitted
    exactly that registry and package (on record, for the plan's digest), and the call is
    the mediated run of the backend on the installer plan of that binding, a valid plan
    the operation is bound to. Then, if the process capability is not admitted, the backend
    is irrelevant again, and a receipt says so. *)
Theorem installer_needs_both_capabilities `{hash : Digest} {B G S : Type} `{bops : BrokerOps B}
    `{LP : Lens S PackageInstallBroker} `{LC : Lens S CapabilityBroker}
    `{LI : Lens S (IsolatedExecutionBroker B G)} (broker_id : string) (c0 : CapabilityBroker)
    (clock : result Z) (request : PackageInstallRequest) (s : S) (Hseparate : Separate LP LC)
    (Hinit : CapabilityBroker_init broker_id = Ok c0)
    (Hreach : star broker_step c0 (capabilities (LC := LC) s)) :
  nothing_run (fun backend => install backend clock request) s
  \/ exists req now binding capability csha s1 plan operation,
       goes_to_installer clock request s req now binding capability csha s1 plan operation
       /\ installs req binding now csha s1 plan operation
       /\ (forall backend, install backend clock request s
           = ((mediate (L := mediator_in (L := LI)) operation (fun _ => backend plan)
               ≫= record_execution operation plan) ≫= record_install req binding csha now) s1)
       /\ (~ Mediation.admitted (L := mediator_in (L := LI)) operation s1 ->
           (forall backend backend', install backend clock request s = install backend' clock request s)
           /\ forall backend doc s', install backend clock request s = (Ok doc, s') ->
              dict_get doc "process_admission_decision" = Some (JStr "BLOCK")
              /\ dict_get doc "execution_outcome" = Some (JStr "NOT_EXECUTED")).
Proof.
  pose proof (reachable_inv _ _ _ Hinit Hreach) as Hinv.
  destruct (install_cases (LP := LP) (LC := LC) (LI := LI) clock request s)
    as [H|(req & now & binding & capability & csha & s1 & plan & operation & Hgo & Hrun)]; [by left|right].
  pose proof (installer_installs _ _ _ _ _ _ _ _ _ _ _ Hinv Hgo) as Hin.
  exists req, now, binding, capability, csha, s1, plan, operation. split_and!; [done|done| |].
  - intros backend. destruct Hgo as [Hreq [_ Hnow] _ _ _ _ _ _ Hplan Hop].
    rewrite Hrun, M_bind_eq. unfold IsolatedExecution.execute.
    by rewrite M_lift, (installer_bound _ _ _ _ _ _ Hreq Hnow Hplan Hop), (M_bind_eq (_ ≫= _)).
  - intros Hno. destruct (execute_blocked (L := LI) operation plan s1 Hno) as [Hsame Hblock]. split.
    + intros backend backend'. by rewrite !Hrun, !M_bind_eq, (Hsame backend backend').
    + intros backend doc s'. rewrite Hrun, M_bind_eq.
      destruct (IsolatedExecution.execute backend operation plan s1) as [[iso|e] s2] eqn:He; [|done].
      destruct (Hblock _ _ _ He) as (Ha & Ho & _). by apply record_not_run.
Qed.

Lemma installer_needs_both_capabilities_witness :
  let run backend := install (LP := package_lens) (LC := shared_lens) (LI := isolated_lens) backend (Ok 150)
    example_request in
  exists req now binding capability csha s1 plan operation,
    goes_to_installer (LP := package_lens) (LC := shared_lens) (Ok 150) example_request package_host
      req now binding capability csha s1 plan operation
    /\ installs (LC := shared_lens) req binding now csha s1 plan operation
    /\ forall backend, run backend package_host
        = ((mediate (L := mediator_in (L := isolated_lens)) operation (fun _ => backend plan)
            ≫= record_execution operation plan) ≫= record_install (LP := package_lens) req binding csha now) s1.
Proof.
  cbv zeta.
  destruct (@installer_needs_both_capabilities checksum_digest CapabilityBroker unit PackageHost
    capability_broker_ops package_lens shared_lens isolated_lens "broker:test" (fresh_broker "broker:test")
    (Ok 150) example_request package_host package_separate (proj1 (use_broker_reachable "" []))
    both_capabilities_reachable) as [[_ H]|H].
  - exfalso. destruct installed_result as (doc & s' & Hrun & Hout).
    destruct (H good_installer doc s' (eq_trans installed_run Hrun)) as (_ & Hn & _). congruence.
  - destruct H as (req & now & binding & capability & csha & s1 & plan & operation & H1 & H2 & H3 & _).
    exists req, now, binding, capability, csha, s1, plan, operation. split; [exact H1|]. split; [exact H2|exact H3].
Defined.
