(* ===== verification/Trcp.v ===== *)
(** * The TRCP simulator (sdk/liminal_trcp/__init__.py)

    The state machine that keeps an authorization and a scope over a change of provider:
    authorization, the primary run, the failover decision, the fallback run, the
    verification of a finding, each on a hash-chained trace. Fields have their annotated
    types; tasks, findings and metadata are dictionaries. *)
From stdpp Require Import sets.
From S2P Require Import Prelude PyStr Json Digest.
From Stdlib Require Import Ascii.
#[local] Open Scope Z_scope.

(** ** Constants *)
Definition SCHEMA : string := "liminal-trcp-simulator-v0.1".
Definition REPORT_SCHEMA : string := "liminal-trcp-simulator-report-v0.1".

Definition FAILOVER_OUTCOMES : list string :=
  ["REFUSED"; "ACCESS_RESTRICTED"; "RATE_LIMITED"; "PROVIDER_ERROR"; "TIMEOUT"].
Definition PROVIDER_OUTCOMES : list string := FAILOVER_OUTCOMES ++ ["COMPLETED"; "ABORTED_BY_OPERATOR"].

Definition AUTHORITY : dict :=
  [("mode", JStr "local_deterministic_simulation_only"); ("external_network", JBool false);
   ("live_targets", JBool false); ("credential_access", JBool false); ("exploit_execution", JBool false);
   ("provider_api_calls", JBool false); ("automatic_disclosure", JBool false);
   ("data_handling_class", JStr "SYNTHETIC_ONLY")].

Definition _ALLOWED_TRANSITIONS : list (string * list string) :=
  [("NEW", ["AUTHORIZED"]);
   ("AUTHORIZED", ["ACTIVE"; "AUTH_EXPIRED"; "SCOPE_INVALID"]);
   ("ACTIVE", ["VERIFYING"; "DEGRADED"; "ABORTED"]);
   ("DEGRADED", ["FAILOVER_PENDING"]);
   ("FAILOVER_PENDING",
      ["ACTIVE_ON_FALLBACK"; "AUTH_EXPIRED"; "SCOPE_INVALID"; "HUMAN_REVIEW_REQUIRED"; "ABORTED"]);
   ("ACTIVE_ON_FALLBACK", ["VERIFYING"; "AUTH_EXPIRED"; "SCOPE_INVALID"; "ABORTED"]);
   ("VERIFYING", ["CLOSED"]);
   ("AUTH_EXPIRED", []); ("SCOPE_INVALID", []); ("HUMAN_REVIEW_REQUIRED", []); ("ABORTED", []);
   ("CLOSED", [])].

(** [TABLE.get(state, frozenset())]. *)
Fixpoint table_get (table : list (string * list string)) (state : string) : list string :=
  match table with
  | [] => []
  | (k, l) :: table' => if String.eqb k state then l else table_get table' state
  end.

(** [raise TRCPError(msg)] when [b]. *)
Definition trcp_if (b : bool) (msg : string) : result unit := raise_if b TRCPError msg.

(** ** Authorizations and scopes *)
Record AuthorizationRecord := {
  au_authorization_id : string;
  au_subject_id : string;
  au_asset_id : string;
  au_valid_from : Z;
  au_valid_until : Z;
  au_allowed_activity_classes : list string;
  au_authority_source : string;
  au_owner_or_authorizer : string;
  au_proof_reference : string;
  au_created_at : Z
}.

Definition AuthorizationRecord_validate (a : AuthorizationRecord) (now_unix : Z) : result unit :=
  _ ← trcp_if (String.eqb (au_authorization_id a) "" || String.eqb (au_subject_id a) ""
               || String.eqb (au_asset_id a) "") "authorization identity fields must be non-empty";
  _ ← trcp_if (au_valid_until a <? au_valid_from a) "authorization validity window is inverted";
  _ ← trcp_if (negb ((au_valid_from a <=? now_unix) && (now_unix <=? au_valid_until a)))
        "authorization is not currently valid";
  trcp_if (bool_decide (au_allowed_activity_classes a = []))
    "authorization must allow at least one activity class".

Definition AuthorizationRecord_as_dict (a : AuthorizationRecord) : dict :=
  [("authorization_id", JStr (au_authorization_id a)); ("subject_id", JStr (au_subject_id a));
   ("asset_id", JStr (au_asset_id a)); ("authority_source", JStr (au_authority_source a));
   ("valid_from", JInt (au_valid_from a)); ("valid_until", JInt (au_valid_until a));
   ("allowed_activity_classes", jstrs (au_allowed_activity_classes a));
   ("owner_or_authorizer", JStr (au_owner_or_authorizer a));
   ("proof_reference", JStr (au_proof_reference a)); ("created_at", JInt (au_created_at a))].

Record ScopeEnvelope := {
  sc_scope_id : string;
  sc_authorization_id : string;
  sc_allowed_targets : list string;
  sc_allowed_actions : list string;
  sc_allowed_environments : list string;
  sc_prohibited_actions : list string;
  sc_data_handling_class : string;
  sc_network_mode : string;
  sc_expires_at : Z
}.

(** [set(a) & set(b)], as a list. *)
Definition common (a b : list string) : list string := List.filter (fun x => mem x b) a.

Definition subset (a b : list string) : bool := forallb (fun x => mem x b) a.

Definition ScopeEnvelope_validate (s : ScopeEnvelope) (authorization : AuthorizationRecord) (now_unix : Z)
    : result unit :=
  _ ← trcp_if (negb (String.eqb (sc_authorization_id s) (au_authorization_id authorization)))
        "scope authorization_id does not match authorization";
  _ ← trcp_if (negb (mem (au_asset_id authorization) (sc_allowed_targets s)))
        "authorized asset is not inside scope";
  _ ← trcp_if (negb (String.eqb (sc_network_mode s) "LOCAL_ONLY"))
        "TRCP v0.1 requires LOCAL_ONLY network mode";
  _ ← trcp_if (negb (String.eqb (sc_data_handling_class s) "SYNTHETIC_ONLY"))
        "TRCP v0.1 requires SYNTHETIC_ONLY data handling";
  _ ← trcp_if (bool_decide (sc_allowed_environments s = [])
               || existsb (fun env => negb (String.eqb env "LOCAL_FIXTURE")) (sc_allowed_environments s))
        "TRCP v0.1 requires LOCAL_FIXTURE environments";
  _ ← trcp_if (sc_expires_at s <? now_unix) "scope has expired";
  _ ← trcp_if (bool_decide (sc_allowed_actions s = [])) "scope must allow at least one action";
  trcp_if (negb (bool_decide (common (sc_allowed_actions s) (sc_prohibited_actions s) = [])))
    "scope cannot both allow and prohibit the same action".

Definition ScopeEnvelope_permission_view (s : ScopeEnvelope) : dict :=
  [("authorization_id", JStr (sc_authorization_id s));
   ("allowed_targets", jstrs (sorted_str (sc_allowed_targets s)));
   ("allowed_environments", jstrs (sorted_str (sc_allowed_environments s)));
   ("allowed_actions", jstrs (sorted_str (sc_allowed_actions s)));
   ("prohibited_actions", jstrs (sorted_str (sc_prohibited_actions s)));
   ("data_handling_class", JStr (sc_data_handling_class s)); ("network_mode", JStr (sc_network_mode s));
   ("expires_at", JInt (sc_expires_at s))].

Definition is_equal_or_narrower_than (s parent : ScopeEnvelope) : bool :=
  String.eqb (sc_authorization_id s) (sc_authorization_id parent)
  && subset (sc_allowed_targets s) (sc_allowed_targets parent)
  && subset (sc_allowed_actions s) (sc_allowed_actions parent)
  && subset (sc_allowed_environments s) (sc_allowed_environments parent)
  && subset (sc_prohibited_actions parent) (sc_prohibited_actions s)
  && String.eqb (sc_data_handling_class s) (sc_data_handling_class parent)
  && (String.eqb (sc_network_mode s) (sc_network_mode parent)
      && String.eqb (sc_network_mode parent) "LOCAL_ONLY")
  && (sc_expires_at s <=? sc_expires_at parent).

Definition ScopeEnvelope_as_dict (s : ScopeEnvelope) : dict :=
  [("scope_id", JStr (sc_scope_id s)); ("authorization_id", JStr (sc_authorization_id s));
   ("allowed_targets", jstrs (sc_allowed_targets s));
   ("allowed_environments", jstrs (sc_allowed_environments s));
   ("allowed_actions", jstrs (sc_allowed_actions s));
   ("prohibited_actions", jstrs (sc_prohibited_actions s));
   ("rate_limits", JObj [("fixture_runs", JInt 8)]);
   ("compute_limits", JObj [("synthetic_steps", JInt 32)]);
   ("data_handling_class", JStr (sc_data_handling_class s)); ("network_mode", JStr (sc_network_mode s));
   ("expires_at", JInt (sc_expires_at s))].

(** ** Providers *)
Record MockProvider := {
  mp_provider_id : string;
  mp_model_id : string;
  mp_outcome : string;
  mp_synthetic_finding : option dict;
  mp_provider_metadata : option dict
}.

Section simulator.
Context {hash : Digest}.

(** [dict(value or {})]. *)
Definition or_empty (value : option dict) : dict := match value with Some d => d | None => [] end.

Definition MockProvider_run (p : MockProvider) (normalized_task_hash : string) : result dict :=
  _ ← trcp_if (negb (mem (mp_outcome p) PROVIDER_OUTCOMES)) "unsupported mock provider outcome";
  Ok (seal "provider_output_sha256"
    [("provider_id", JStr (mp_provider_id p)); ("model_id", JStr (mp_model_id p));
     ("outcome", JStr (mp_outcome p)); ("normalized_task_hash", JStr normalized_task_hash);
     ("synthetic_finding", JObj (or_empty (mp_synthetic_finding p)));
     ("provider_metadata", JObj (or_empty (mp_provider_metadata p)))]).

(** ** The simulator *)
Record TRCPSimulator := {
  ts_authorization : AuthorizationRecord;
  ts_initial_scope : ScopeEnvelope;
  ts_scope : ScopeEnvelope;
  ts_now_unix : Z;
  ts_state : string;
  ts_trace : list dict;
  ts_provider_runs : list dict;
  ts_failover_record : option dict;
  ts_finding : option dict;
  ts_verification : option dict
}.

Definition set_scope (scope : ScopeEnvelope) (s : TRCPSimulator) : TRCPSimulator := {|
  ts_authorization := ts_authorization s; ts_initial_scope := ts_initial_scope s; ts_scope := scope;
  ts_now_unix := ts_now_unix s; ts_state := ts_state s; ts_trace := ts_trace s;
  ts_provider_runs := ts_provider_runs s; ts_failover_record := ts_failover_record s;
  ts_finding := ts_finding s; ts_verification := ts_verification s |}.

Definition set_now (now_unix : Z) (s : TRCPSimulator) : TRCPSimulator := {|
  ts_authorization := ts_authorization s; ts_initial_scope := ts_initial_scope s; ts_scope := ts_scope s;
  ts_now_unix := now_unix; ts_state := ts_state s; ts_trace := ts_trace s;
  ts_provider_runs := ts_provider_runs s; ts_failover_record := ts_failover_record s;
  ts_finding := ts_finding s; ts_verification := ts_verification s |}.

Definition set_state (state : string) (s : TRCPSimulator) : TRCPSimulator := {|
  ts_authorization := ts_authorization s; ts_initial_scope := ts_initial_scope s; ts_scope := ts_scope s;
  ts_now_unix := ts_now_unix s; ts_state := state; ts_trace := ts_trace s;
  ts_provider_runs := ts_provider_runs s; ts_failover_record := ts_failover_record s;
  ts_finding := ts_finding s; ts_verification := ts_verification s |}.

Definition push_event (event : dict) (s : TRCPSimulator) : TRCPSimulator := {|
  ts_authorization := ts_authorization s; ts_initial_scope := ts_initial_scope s; ts_scope := ts_scope s;
  ts_now_unix := ts_now_unix s; ts_state := ts_state s; ts_trace := ts_trace s ++ [event];
  ts_provider_runs := ts_provider_runs s; ts_failover_record := ts_failover_record s;
  ts_finding := ts_finding s; ts_verification := ts_verification s |}.

Definition push_run (run : dict) (s : TRCPSimulator) : TRCPSimulator := {|
  ts_authorization := ts_authorization s; ts_initial_scope := ts_initial_scope s; ts_scope := ts_scope s;
  ts_now_unix := ts_now_unix s; ts_state := ts_state s; ts_trace := ts_trace s;
  ts_provider_runs := ts_provider_runs s ++ [run]; ts_failover_record := ts_failover_record s;
  ts_finding := ts_finding s; ts_verification := ts_verification s |}.

Definition set_failover_record (record : dict) (s : TRCPSimulator) : TRCPSimulator := {|
  ts_authorization := ts_authorization s; ts_initial_scope := ts_initial_scope s; ts_scope := ts_scope s;
  ts_now_unix := ts_now_unix s; ts_state := ts_state s; ts_trace := ts_trace s;
  ts_provider_runs := ts_provider_runs s; ts_failover_record := Some record;
  ts_finding := ts_finding s; ts_verification := ts_verification s |}.

Definition set_finding (finding : dict) (s : TRCPSimulator) : TRCPSimulator := {|
  ts_authorization := ts_authorization s; ts_initial_scope := ts_initial_scope s; ts_scope := ts_scope s;
  ts_now_unix := ts_now_unix s; ts_state := ts_state s; ts_trace := ts_trace s;
  ts_provider_runs := ts_provider_runs s; ts_failover_record := ts_failover_record s;
  ts_finding := Some finding; ts_verification := ts_verification s |}.

Definition set_verification (verification : dict) (s : TRCPSimulator) : TRCPSimulator := {|
  ts_authorization := ts_authorization s; ts_initial_scope := ts_initial_scope s; ts_scope := ts_scope s;
  ts_now_unix := ts_now_unix s; ts_state := ts_state s; ts_trace := ts_trace s;
  ts_provider_runs := ts_provider_runs s; ts_failover_record := ts_failover_record s;
  ts_finding := ts_finding s; ts_verification := Some verification |}.

(** One event of the trace, as [_append] builds it. *)
Definition event_of (sequence now : Z) (kind state : string) (payload : dict) (previous : string) : dict :=
  seal "event_sha256"
    [("sequence", JInt sequence); ("observed_at_unix", JInt now); ("kind", JStr kind);
     ("state", JStr state); ("payload", JObj payload); ("previous_event_sha256", JStr previous)].

(** [self.trace[-1]["event_sha256"] if self.trace else "0" * 64]. *)
Definition last_event_sha256 (trace : list dict) : string :=
  match last trace with
  | Some event => match dict_get_none event "event_sha256" with JStr sha => sha | _ => "" end
  | None => ZERO_SHA256
  end.

Definition _append (kind : string) (payload : dict) : M TRCPSimulator unit :=
  self ← get_state;
  modify (push_event (event_of (Z.of_nat (length (ts_trace self)) + 1) (ts_now_unix self) kind
    (ts_state self) payload (last_event_sha256 (ts_trace self)))).

Definition _transition (new_state reason : string) : M TRCPSimulator unit :=
  self ← get_state;
  _ ← lift (trcp_if (negb (mem new_state (table_get _ALLOWED_TRANSITIONS (ts_state self))))
              ("invalid TRCP transition: " +:+ ts_state self +:+ " -> " +:+ new_state));
  _ ← modify (set_state new_state);
  _append "STATE_TRANSITION"
    [("from", JStr (ts_state self)); ("to", JStr new_state); ("reason", JStr reason)].

Definition _fail_failover {A} (new_state reason message : string) : M TRCPSimulator A :=
  _ ← _transition new_state reason;
  raise TRCPError message.

(** [try: r  except TRCPError as exc: self._fail_failover(new_state, reason, str(exc))]. *)
Definition checked {A} (r : result A) (new_state reason : string) : M TRCPSimulator A :=
  match r with
  | Ok a => mret a
  | Err e => match exn_cls e with
             | TRCPError => _fail_failover new_state reason (exn_msg e)
             | _ => lift (Err e)
             end
  end.

Definition new_simulator (authorization : AuthorizationRecord) (scope : ScopeEnvelope) (now_unix : Z)
    : TRCPSimulator := {|
  ts_authorization := authorization; ts_initial_scope := scope; ts_scope := scope;
  ts_now_unix := now_unix; ts_state := "NEW"; ts_trace := []; ts_provider_runs := [];
  ts_failover_record := None; ts_finding := None; ts_verification := None |}.

(** [TRCPSimulator(authorization, scope, now_unix=now_unix)]. *)
Definition TRCPSimulator_init (authorization : AuthorizationRecord) (scope : ScopeEnvelope) (now_unix : Z)
    : TRCPSimulator :=
  snd (_append "SIMULATOR_CREATED" [("state", JStr "NEW")] (new_simulator authorization scope now_unix)).

Definition advance_time (now_unix : Z) : M TRCPSimulator unit :=
  self ← get_state;
  _ ← lift (trcp_if (now_unix <? ts_now_unix self) "simulator clock cannot move backward");
  _ ← modify (set_now now_unix);
  _append "CLOCK_ADVANCED" [("now_unix", JInt now_unix)].

Definition authorize : M TRCPSimulator unit :=
  self ← get_state;
  _ ← lift (trcp_if (negb (String.eqb (ts_state self) "NEW")) "authorize is only valid from NEW");
  _ ← lift (AuthorizationRecord_validate (ts_authorization self) (ts_now_unix self));
  _ ← lift (ScopeEnvelope_validate (ts_scope self) (ts_authorization self) (ts_now_unix self));
  _transition "AUTHORIZED" "authorization_and_scope_valid".

(** [value in strings], for a value of any type. *)
Definition value_in (v : json) (strings : list string) : bool := existsb (is_str v) strings.

Definition task_keys : list string := ["task_id"; "asset_id"; "activity_class"; "action"; "fixture"].

Definition _validate_task (self : TRCPSimulator) (task : dict) (scope : ScopeEnvelope) : result string :=
  _ ← trcp_if (negb (keys_are task task_keys))
        "task must contain exactly task_id, asset_id, activity_class, action, fixture";
  asset ← dict_item task "asset_id";
  _ ← trcp_if (negb (is_str asset (au_asset_id (ts_authorization self)))) "task asset is outside authorization";
  _ ← trcp_if (negb (value_in asset (sc_allowed_targets scope))) "task asset is outside scope";
  activity ← dict_item task "activity_class";
  _ ← trcp_if (negb (value_in activity (au_allowed_activity_classes (ts_authorization self))))
        "task activity class is outside authorization";
  action ← dict_item task "action";
  _ ← trcp_if (value_in action (sc_prohibited_actions scope)) "task action is explicitly prohibited by scope";
  _ ← trcp_if (negb (value_in action (sc_allowed_actions scope))) "task action is outside scope";
  _ ← trcp_if (negb (String.eqb (sc_network_mode scope) "LOCAL_ONLY"))
        "task would leave local-only simulator";
  Ok (canonical_sha256 (JObj task)).

(** The record of a run; [output] is what the provider returned. *)
Definition _provider_run_record (self : TRCPSimulator) (provider : MockProvider)
    (normalized_task_hash : string) (output : dict) : result dict :=
  outcome ← dict_item output "outcome";
  output_sha ← str_item output "provider_output_sha256";
  let number := pretty (Z.of_nat (length (ts_provider_runs self)) + 1) in
  Ok (seal "record_sha256"
    ([("run_id", JStr ("run:" +:+ number)); ("scope_id", JStr (sc_scope_id (ts_scope self)));
      ("provider_id", JStr (mp_provider_id provider)); ("model_id", JStr (mp_model_id provider));
      ("started_at", JInt (ts_now_unix self)); ("ended_at", JInt (ts_now_unix self));
      ("normalized_task_hash", JStr normalized_task_hash);
      ("provider_request_reference", JStr ("mock://" +:+ mp_provider_id provider +:+ "/" +:+ number));
      ("outcome", outcome);
      ("output_artifact_reference", JStr ("sha256:" +:+ output_sha))]
     ++ match mp_provider_metadata provider with
        | Some (m :: metadata) => [("provider_metadata", JObj (m :: metadata))]
        | _ => []
        end)).

(** *** [_capture_finding] *)
Definition finding_fields : list string :=
  ["confidence_claim"; "finding_class"; "location_reference"; "severity_claim"; "summary"].

(** [{key: raw[key] for key in sorted(allowed) if key in raw}]. *)
Definition normalized_finding (raw : dict) : dict :=
  omap (fun key => (fun v => (key, v)) <$> dict_get raw key) finding_fields.

(** [allowed - {"confidence_claim"}]. *)
Definition required_fields : list string := tail finding_fields.

Definition finding_body (self : TRCPSimulator) (normalized : dict) (run_id : json) (output_sha : string)
    (status : string) : dict :=
  [("finding_id", JStr ("finding:" +:+ str_take 16 (canonical_sha256 (JObj normalized))));
   ("source_run_ids", JList [run_id]); ("asset_id", JStr (au_asset_id (ts_authorization self)))]
  ++ normalized
  ++ [("evidence_references", jstrs ["sha256:" +:+ output_sha]); ("status", JStr status);
      ("created_at", JInt (ts_now_unix self))].

Definition _capture_finding (output : dict) (run_id : json) : M TRCPSimulator unit :=
  self ← get_state;
  match dict_get_none output "synthetic_finding" with
  | JObj (kv :: raw) =>
      let normalized := normalized_finding (kv :: raw) in
      _ ← lift (trcp_if (negb (forallb (fun key => mem key (dict_keys normalized)) required_fields))
                  "synthetic finding is missing required normalized fields");
      output_sha ← lift (str_item output "provider_output_sha256");
      let finding := seal "record_sha256" (finding_body self normalized run_id output_sha "UNVERIFIED") in
      _ ← modify (set_finding finding);
      _append "FINDING_RECORDED" finding
  | _ => mret tt
  end.

(** [provider.run(...)] with its record, stored and put on the trace. *)
Definition run_provider (normalized_task_hash : string) (provider : MockProvider)
    : M TRCPSimulator (dict * dict) :=
  output ← lift (MockProvider_run provider normalized_task_hash);
  self ← get_state;
  run ← lift (_provider_run_record self provider normalized_task_hash output);
  _ ← modify (push_run run);
  _ ← _append "PROVIDER_RUN_RECORDED" run;
  mret (output, run).

Definition execute_primary (task : dict) (provider : MockProvider) : M TRCPSimulator dict :=
  self ← get_state;
  _ ← lift (trcp_if (negb (String.eqb (ts_state self) "AUTHORIZED"))
              "primary execution requires AUTHORIZED state");
  _ ← checked (AuthorizationRecord_validate (ts_authorization self) (ts_now_unix self))
        "AUTH_EXPIRED" "authorization_expired_before_primary";
  _ ← checked (ScopeEnvelope_validate (ts_scope self) (ts_authorization self) (ts_now_unix self))
        "SCOPE_INVALID" "scope_invalid_before_primary";
  normalized_task_hash ← checked (_validate_task self task (ts_scope self))
        "SCOPE_INVALID" "primary_task_outside_effective_scope";
  _ ← _transition "ACTIVE" "primary_provider_started";
  ran ← run_provider normalized_task_hash provider;
  let (output, run) := ran : dict * dict in
  outcome ← lift (str_item output "outcome");
  if mem outcome FAILOVER_OUTCOMES then
    _ ← _transition "DEGRADED" outcome;
    _ ← _transition "FAILOVER_PENDING" "provider_continuity_required";
    mret output
  else if String.eqb outcome "COMPLETED" then
    run_id ← lift (dict_item run "run_id");
    _ ← _capture_finding output run_id;
    _ ← _transition "VERIFYING" "primary_provider_completed";
    mret output
  else
    _ ← _transition "ABORTED" outcome;
    mret output.

(** The keyword arguments of [record_failover]. *)
Record FailoverOptions := {
  fo_fallback_scope : option ScopeEnvelope;
  fo_data_handling_approved : bool;
  fo_sensitive_artifacts_minimized : bool;
  fo_require_human_approval : bool;
  fo_human_approval_reference : option string
}.

Definition default_failover : FailoverOptions := {|
  fo_fallback_scope := None; fo_data_handling_approved := true;
  fo_sensitive_artifacts_minimized := true; fo_require_human_approval := false;
  fo_human_approval_reference := None |}.

(** The refusals of [record_failover], in their order. *)
Definition check_failover (self : TRCPSimulator) (candidate : ScopeEnvelope) (o : FailoverOptions)
    : M TRCPSimulator unit :=
  _ ← checked (AuthorizationRecord_validate (ts_authorization self) (ts_now_unix self))
        "AUTH_EXPIRED" "authorization_revalidation_failed";
  if negb (String.eqb (sc_network_mode candidate) "LOCAL_ONLY")
     || negb (String.eqb (sc_data_handling_class candidate) "SYNTHETIC_ONLY") then
    _fail_failover "HUMAN_REVIEW_REQUIRED" "fallback_outside_v0_1_data_boundary"
      "TRCP v0.1 failover supports only LOCAL_ONLY SYNTHETIC_ONLY data"
  else
    _ ← checked (ScopeEnvelope_validate candidate (ts_authorization self) (ts_now_unix self))
          "SCOPE_INVALID" "fallback_scope_revalidation_failed";
    if negb (is_equal_or_narrower_than candidate (ts_scope self)) then
      _fail_failover "SCOPE_INVALID" "fallback_scope_would_broaden_permissions"
        "fallback scope would broaden permissions"
    else if negb (fo_data_handling_approved o) then
      _fail_failover "HUMAN_REVIEW_REQUIRED" "data_handling_not_approved"
        "fallback data handling requires human review"
    else if negb (fo_sensitive_artifacts_minimized o) then
      _fail_failover "HUMAN_REVIEW_REQUIRED" "sensitive_artifacts_not_minimized"
        "sensitive artifacts must be minimized before failover"
    else if fo_require_human_approval o
            && match fo_human_approval_reference o with Some r => String.eqb r "" | None => true end then
      _fail_failover "HUMAN_REVIEW_REQUIRED" "required_human_approval_missing"
        "required human approval is missing"
    else mret tt.

(** The last run, for [self.provider_runs[-1]]. *)
Definition last_run (self : TRCPSimulator) : result dict :=
  match last (ts_provider_runs self) with
  | Some run => Ok run
  | None => fail (HostException "IndexError") "list index out of range"
  end.

Definition failover_record_of (self : TRCPSimulator) (candidate : ScopeEnvelope) (fallback : MockProvider)
    (o : FailoverOptions) (previous_run_id reason : json) : dict :=
  seal "record_sha256"
    [("failover_id", JStr ("failover:" +:+ pretty (Z.of_nat (length (ts_provider_runs self)))));
     ("previous_run_id", previous_run_id); ("scope_id", JStr (sc_scope_id candidate));
     ("reason", reason); ("scope_revalidated", JBool true);
     ("new_provider_id", JStr (mp_provider_id fallback)); ("new_model_id", JStr (mp_model_id fallback));
     ("permission_delta",
        JStr (if py_eq (JObj (ScopeEnvelope_permission_view candidate))
                   (JObj (ScopeEnvelope_permission_view (ts_scope self))) then "UNCHANGED" else "NARROWER"));
     ("data_handling_approved", JBool (fo_data_handling_approved o));
     ("sensitive_artifacts_minimized", JBool (fo_sensitive_artifacts_minimized o));
     ("human_approval_required", JBool (fo_require_human_approval o));
     ("human_approval_reference",
        if fo_require_human_approval o then jopt (fo_human_approval_reference o) else JNull);
     ("created_at", JInt (ts_now_unix self))].

Definition record_failover (fallback : MockProvider) (o : FailoverOptions) : M TRCPSimulator dict :=
  self ← get_state;
  _ ← lift (trcp_if (negb (String.eqb (ts_state self) "FAILOVER_PENDING"))
              "failover decision requires FAILOVER_PENDING state");
  let candidate := match fo_fallback_scope o with Some s => s | None => ts_scope self end in
  _ ← check_failover self candidate o;
  run ← lift (last_run self);
  previous_run_id ← lift (dict_item run "run_id");
  reason ← lift (dict_item run "outcome");
  let record := failover_record_of self candidate fallback o previous_run_id reason in
  _ ← modify (set_failover_record record);
  _ ← _append "FAILOVER_DECISION_RECORDED" record;
  _ ← modify (set_scope candidate);
  _ ← _append "EFFECTIVE_SCOPE_UPDATED" [("scope_id", JStr (sc_scope_id candidate))];
  mret record.

Definition execute_fallback (task : dict) (provider : MockProvider) : M TRCPSimulator dict :=
  self ← get_state;
  _ ← lift (trcp_if (negb (String.eqb (ts_state self) "FAILOVER_PENDING"))
              "fallback execution requires FAILOVER_PENDING state");
  record ← lift (match ts_failover_record self with
                 | Some record => Ok record
                 | None => fail TRCPError "fallback execution requires FailoverDecisionRecord"
                 end);
  new_provider_id ← lift (dict_item record "new_provider_id");
  new_model_id ← lift (dict_item record "new_model_id");
  _ ← (if negb (is_str new_provider_id (mp_provider_id provider))
          || negb (is_str new_model_id (mp_model_id provider)) then
         _fail_failover "ABORTED" "fallback_provider_mismatch"
           "fallback provider does not match FailoverDecisionRecord"
       else mret tt);
  _ ← checked (AuthorizationRecord_validate (ts_authorization self) (ts_now_unix self))
        "AUTH_EXPIRED" "authorization_expired_before_fallback";
  _ ← checked (ScopeEnvelope_validate (ts_scope self) (ts_authorization self) (ts_now_unix self))
        "SCOPE_INVALID" "effective_scope_invalid_before_fallback";
  normalized_task_hash ← checked (_validate_task self task (ts_scope self))
        "SCOPE_INVALID" "fallback_task_outside_effective_scope";
  previous ← lift (last_run self);
  previous_hash ← lift (dict_item previous "normalized_task_hash");
  _ ← (if negb (is_str previous_hash normalized_task_hash) then
         _fail_failover "SCOPE_INVALID" "fallback_task_changed"
           "fallback must execute the same normalized task"
       else mret tt);
  _ ← _transition "ACTIVE_ON_FALLBACK" "recorded_failover_started";
  ran ← run_provider normalized_task_hash provider;
  let (output, run) := ran : dict * dict in
  outcome ← lift (str_item output "outcome");
  if negb (String.eqb outcome "COMPLETED") then
    _ ← _transition "ABORTED" ("fallback_" +:+ py_lower outcome);
    mret output
  else
    run_id ← lift (dict_item run "run_id");
    _ ← _capture_finding output run_id;
    _ ← _transition "VERIFYING" "fallback_provider_completed";
    mret output.

(** *** Verification *)

(** The finding with another status, sealed again. *)
Definition with_status (finding : dict) (status : string) : dict :=
  seal "record_sha256" (dict_set (dict_del finding "record_sha256") "status" (JStr status)).

Definition verification_of (self : TRCPSimulator) (finding_id : json) (result : string) : dict :=
  seal "record_sha256"
    [("verification_id", JStr "verification:1"); ("finding_id", finding_id);
     ("method", JStr "DETERMINISTIC_FIXTURE"); ("verifier_type", JStr "LOCAL_SIMULATOR");
     ("verifier_reference", JStr "fixture://trcp-verifier-v1"); ("result", JStr result);
     ("evidence_references",
        jstrs ["sha256:" +:+ canonical_sha256
                 (JObj [("fixture", JStr "trcp-verifier-v1"); ("result", JStr result)])]);
     ("performed_at", JInt (ts_now_unix self))].

Definition verify (reproduced : bool) : M TRCPSimulator dict :=
  self ← get_state;
  _ ← lift (trcp_if (is_Some_b (ts_verification self)) "verification has already been recorded for this finding");
  _ ← lift (trcp_if (negb (String.eqb (ts_state self) "VERIFYING")) "verification requires VERIFYING state");
  match ts_finding self with
  | None =>
      _ ← _transition "CLOSED" "no_finding_to_verify";
      mret []
  | Some finding =>
      let result := if reproduced then "REPRODUCED" else "NOT_REPRODUCED" in
      finding_id ← lift (dict_item finding "finding_id");
      let verification := verification_of self finding_id result in
      _ ← modify (set_verification verification);
      _ ← modify (set_finding (with_status finding result));
      _ ← _append "VERIFICATION_RECORDED" verification;
      _ ← _append "FINDING_STATUS_UPDATED" [("finding_id", finding_id); ("status", JStr result)];
      _ ← (if negb reproduced then _transition "CLOSED" "finding_not_reproduced" else mret tt);
      mret verification
  end.

Definition confirm_finding : M TRCPSimulator unit :=
  self ← get_state;
  match ts_finding self with
  | None => raise TRCPError "no finding exists"
  | Some finding =>
      result ← lift (match ts_verification self with
                     | Some verification => dict_item verification "result"
                     | None => Ok JNull
                     end);
      _ ← lift (trcp_if (negb (is_str result "REPRODUCED"))
                  "finding cannot become CONFIRMED without reproduced verification");
      _ ← lift (trcp_if (negb (String.eqb (ts_state self) "VERIFYING"))
                  "finding confirmation requires VERIFYING state");
      finding_id ← lift (dict_item finding "finding_id");
      _ ← modify (set_finding (with_status finding "CONFIRMED"));
      _ ← _append "FINDING_STATUS_UPDATED" [("finding_id", finding_id); ("status", JStr "CONFIRMED")];
      _transition "CLOSED" "verified_finding_confirmed"
  end.

(** [value or None] as a document. *)
Definition jrecord (o : option dict) : json := match o with Some d => JObj d | None => JNull end.

Definition report (self : TRCPSimulator) : dict :=
  seal "report_sha256"
    [("schema", JStr REPORT_SCHEMA); ("protocol_schema", JStr SCHEMA); ("final_state", JStr (ts_state self));
     ("authorization", JObj (AuthorizationRecord_as_dict (ts_authorization self)));
     ("initial_scope", JObj (ScopeEnvelope_as_dict (ts_initial_scope self)));
     ("scope", JObj (ScopeEnvelope_as_dict (ts_scope self)));
     ("provider_runs", JList (map JObj (ts_provider_runs self)));
     ("failover_record", jrecord (ts_failover_record self)); ("finding", jrecord (ts_finding self));
     ("verification", jrecord (ts_verification self)); ("disclosure", JNull);
     ("trace", JList (map JObj (ts_trace self))); ("authority", JObj AUTHORITY)].

(** The calls a host makes of one simulator. *)
Inductive trcp_step : TRCPSimulator -> TRCPSimulator -> Prop :=
  | step_advance_time n s : trcp_step s (snd (advance_time n s))
  | step_authorize s : trcp_step s (snd (authorize s))
  | step_primary task p s : trcp_step s (snd (execute_primary task p s))
  | step_failover p o s : trcp_step s (snd (record_failover p o s))
  | step_fallback task p s : trcp_step s (snd (execute_fallback task p s))
  | step_verify reproduced s : trcp_step s (snd (verify reproduced s))
  | step_confirm s : trcp_step s (snd (confirm_finding s)).
End simulator.

(** ** The default scenario *)
Definition default_authorization : AuthorizationRecord := {|
  au_authorization_id := "auth:trcp-demo"; au_subject_id := "researcher:fixture";
  au_asset_id := "fixture:repo"; au_valid_from := 900; au_valid_until := 2000;
  au_allowed_activity_classes := ["STATIC_ANALYSIS"]; au_authority_source := "synthetic-fixture";
  au_owner_or_authorizer := "fixture-owner"; au_proof_reference := "fixture://authorization";
  au_created_at := 900 |}.

(** [ScopeEnvelope(...)] with the defaults of its other fields. *)
Definition scope_envelope (scope_id authorization_id : string) (targets actions : list string)
    : ScopeEnvelope := {|
  sc_scope_id := scope_id; sc_authorization_id := authorization_id; sc_allowed_targets := targets;
  sc_allowed_actions := actions; sc_allowed_environments := ["LOCAL_FIXTURE"];
  sc_prohibited_actions := ["LIVE_EXPLOIT"; "CREDENTIAL_ACCESS"; "PUBLIC_TARGET_SCAN"];
  sc_data_handling_class := "SYNTHETIC_ONLY"; sc_network_mode := "LOCAL_ONLY"; sc_expires_at := 2000 |}.

Definition default_scope : ScopeEnvelope :=
  scope_envelope "scope:trcp-demo" "auth:trcp-demo" ["fixture:repo"] ["ANALYZE_FIXTURE"].

Definition default_task : dict :=
  [("task_id", JStr "task:2"); ("asset_id", JStr "fixture:repo");
   ("activity_class", JStr "STATIC_ANALYSIS"); ("action", JStr "ANALYZE_FIXTURE");
   ("fixture", JStr "synthetic-safe-fixture-v1")].

Definition default_primary : MockProvider := {|
  mp_provider_id := "provider:A"; mp_model_id := "mock-model-a"; mp_outcome := "ACCESS_RESTRICTED";
  mp_synthetic_finding := None; mp_provider_metadata := None |}.

Definition default_fallback : MockProvider := {|
  mp_provider_id := "provider:B"; mp_model_id := "mock-model-b"; mp_outcome := "COMPLETED";
  mp_synthetic_finding := Some
    [("finding_class", JStr "SYNTHETIC_BOUNDARY_CHECK"); ("location_reference", JStr "fixture://sample#L1");
     ("summary", JStr "Synthetic fixture matches expected marker"); ("severity_claim", JStr "LOW");
     ("confidence_claim", JStr "FIXTURE")];
  mp_provider_metadata := None |}.

Definition run_default_scenario `{Digest} : M TRCPSimulator dict :=
  _ ← authorize;
  _ ← execute_primary default_task default_primary;
  _ ← record_failover default_fallback default_failover;
  _ ← execute_fallback default_task default_fallback;
  _ ← verify true;
  _ ← confirm_finding;
  self ← get_state;
  mret (report self).

(** ** Lemmas *)
Section lemmas.
Context {hash : Digest}.
Implicit Types s : TRCPSimulator.

(** *** The trace *)
Record Event := {
  ev_sequence : Z;
  ev_at : Z;
  ev_kind : string;
  ev_state : string;
  ev_payload : dict;
  ev_previous : string
}.

Definition event_core (e : Event) : dict :=
  [("sequence", JInt (ev_sequence e)); ("observed_at_unix", JInt (ev_at e)); ("kind", JStr (ev_kind e));
   ("state", JStr (ev_state e)); ("payload", JObj (ev_payload e));
   ("previous_event_sha256", JStr (ev_previous e))].

Definition event_sha (e : Event) : string := canonical_sha256 (JObj (event_core e)).

Definition event_document (e : Event) : dict := seal "event_sha256" (event_core e).

(** The transition an event records. *)
Definition move_of (e : Event) : option (string * string) :=
  if String.eqb (ev_kind e) "STATE_TRANSITION" then
    match dict_get_none (ev_payload e) "from", dict_get_none (ev_payload e) "to" with
    | JStr a, JStr b => Some (a, b)
    | _, _ => None
    end
  else None.

(** The events that record a run, a failover decision, a finding or a verification. *)
Definition marked (e : Event) : bool :=
  mem (ev_kind e)
    ["PROVIDER_RUN_RECORDED"; "FAILOVER_DECISION_RECORDED"; "FINDING_RECORDED"; "VERIFICATION_RECORDED"].

Definition mark_of (e : Event) : option (string * dict) :=
  if marked e then Some (ev_kind e, ev_payload e) else None.

(** A walk through the table of transitions. *)
Inductive walk : string -> list (string * string) -> string -> Prop :=
  | walk_nil a : walk a [] a
  | walk_snoc a l b c : walk a l b -> mem c (table_get _ALLOWED_TRANSITIONS b) = true ->
      walk a (l ++ [(b, c)]) c.

(** The trace of a simulator at time [now] in [state]. *)
Record trace_ok (evs : list Event) (now : Z) (state : string) : Prop := {
  tk_linked : linked ev_previous event_sha ZERO_SHA256 evs (last_event_sha256 (map event_document evs));
  tk_sequence : forall i e, evs !! i = Some e -> ev_sequence e = Z.of_nat i + 1;
  tk_times : StronglySorted Z.le (map ev_at evs);
  tk_now : Forall (fun e => ev_at e <= now) evs;
  tk_created : exists e evs', evs = e :: evs' /\ ev_kind e = "SIMULATOR_CREATED";
  tk_walk : walk "NEW" (omap move_of evs) state;
  tk_moves : forall e, e ∈ evs -> ev_kind e = "STATE_TRANSITION" -> is_Some (move_of e)
}.

Definition run_mark (r : dict) : string * dict := ("PROVIDER_RUN_RECORDED", r).
Definition failover_mark (r : dict) : string * dict := ("FAILOVER_DECISION_RECORDED", r).

Definition opt_mark (kind : string) (o : option dict) : list (string * dict) :=
  match o with Some d => [(kind, d)] | None => [] end.

(** The marks a simulator leaves: the first run, the failover decisions, the second run,
    the finding as it was recorded, its verification. *)
Definition marks (runs recs : list dict) (found verified : option dict) : list (string * dict) :=
  match runs with
  | [] => []
  | run :: rest => run_mark run :: map failover_mark recs ++ map run_mark rest
  end ++ opt_mark "FINDING_RECORDED" found ++ opt_mark "VERIFICATION_RECORDED" verified.

Definition text_field (d : dict) (key value : string) : Prop := dict_get d key = Some (JStr value).

(** The runs are numbered and are runs of one task. *)
Definition runs_ok (runs : list dict) : Prop :=
  (length runs <= 2)%nat /\ exists h, re_sha h = true /\ forall i r, runs !! i = Some r ->
    text_field r "run_id" ("run:" +:+ pretty (Z.of_nat i + 1)) /\ text_field r "normalized_task_hash" h.

(** The finding and its verification: a status is only what the verification allows. *)
Definition finding_ok (finding found verified : option dict) : Prop :=
  match finding, found with
  | None, None => verified = None
  | Some f, Some f0 => exists id status,
      text_field f "finding_id" id /\ text_field f0 "finding_id" id /\ text_field f "status" status
      /\ match verified with
         | None => status = "UNVERIFIED"
         | Some v => exists result, text_field v "finding_id" id /\ text_field v "verification_id" "verification:1"
             /\ text_field v "result" result /\ (status = result \/ status = "CONFIRMED" /\ result = "REPRODUCED")
             /\ mem result ["REPRODUCED"; "NOT_REPRODUCED"] = true
         end
  | _, _ => False
  end.

Record evidence_ok (runs recs : list dict) (failover finding found verified : option dict)
    (scope_id : string) : Prop := {
  ed_runs : runs_ok runs;
  ed_failover : match failover with
                | None => recs = [] /\ (length runs <= 1)%nat
                | Some r => last recs = Some r /\ runs <> [] /\ text_field r "previous_run_id" "run:1"
                            /\ text_field r "scope_id" scope_id
                end;
  ed_finding : finding_ok finding found verified;
  ed_started : runs = [] -> finding = None
}.

(** The scope is for the authorization and allows nothing it prohibits. *)
Definition scope_ok (a : AuthorizationRecord) (sc : ScopeEnvelope) : Prop :=
  sc_authorization_id sc = au_authorization_id a
  /\ common (sc_allowed_actions sc) (sc_prohibited_actions sc) = [].

Definition narrower (sc parent : ScopeEnvelope) : Prop := is_equal_or_narrower_than sc parent = true.

(** What is known of a simulator in [state]. *)
Record authority_ok (a : AuthorizationRecord) (initial scope : ScopeEnvelope) (state : string) : Prop := {
  ah_new : state = "NEW" -> scope = initial;
  ah_authorized : state <> "NEW" -> au_authorization_id a <> "" /\ scope_ok a initial /\ scope_ok a scope
                  /\ narrower scope initial
}.

(** Before the runs, and between the first and the second. *)
Definition phase_ok (state : string) (runs : list dict) (finding : option dict) : Prop :=
  (mem state ["NEW"; "AUTHORIZED"] = true -> runs = [])
  /\ (state = "FAILOVER_PENDING" -> length runs = 1%nat /\ finding = None).

Record sim_ok s (evs : list Event) (recs : list dict) (found : option dict) : Prop := {
  sm_documents : ts_trace s = map event_document evs;
  sm_trace : trace_ok evs (ts_now_unix s) (ts_state s);
  sm_marks : omap mark_of evs = marks (ts_provider_runs s) recs found (ts_verification s);
  sm_evidence : evidence_ok (ts_provider_runs s) recs (ts_failover_record s) (ts_finding s) found
                  (ts_verification s) (sc_scope_id (ts_scope s));
  sm_authority : authority_ok (ts_authorization s) (ts_initial_scope s) (ts_scope s) (ts_state s);
  sm_phase : phase_ok (ts_state s) (ts_provider_runs s) (ts_finding s)
}.

Lemma last_event_snoc evs e : last_event_sha256 (map event_document (evs ++ [e])) = event_sha e.
Proof. unfold last_event_sha256. rewrite map_app. cbn [map]. by rewrite last_snoc. Qed.

Lemma trace_snoc evs now st e st' : trace_ok evs now st ->
  ev_sequence e = Z.of_nat (length evs) + 1 -> ev_at e = now ->
  ev_previous e = last_event_sha256 (map event_document evs) ->
  (ev_kind e <> "STATE_TRANSITION" /\ st' = st
   \/ move_of e = Some (st, st') /\ mem st' (table_get _ALLOWED_TRANSITIONS st) = true) ->
  trace_ok (evs ++ [e]) now st'.
Proof.
  intros [Hl Hs Ht Hn (c & evs' & -> & Hc) Hw Hm] Hseq Hat Hprev Hkind. constructor.
  - rewrite last_event_snoc. by eapply linked_snoc.
  - intros i x [[_ Hx]|[-> <-]]%lookup_snoc_Some; [by apply Hs|done].
  - rewrite map_app. apply StronglySorted_app. split_and!; [|done|repeat constructor].
    intros x y Hx Hy%list_elem_of_singleton. subst y. apply list_elem_of_fmap in Hx as (e' & -> & He').
    rewrite Forall_forall in Hn. rewrite Hat. by apply Hn.
  - apply Forall_app. split; [done|]. constructor; [lia|constructor].
  - by exists c, (evs' ++ [e]).
  - rewrite omap_app. destruct Hkind as [[Hk ->]|[Hk Hal]].
    + assert (move_of e = None) as Hno by (unfold move_of; by rewrite (proj2 (String.eqb_neq _ _) Hk)).
      cbn [omap list_omap]. by rewrite Hno, app_nil_r.
    + cbn [omap list_omap]. rewrite Hk. by apply walk_snoc.
  - intros x Hx Hx'. apply elem_of_app in Hx as [Hx|Hx]; [by apply Hm|].
    apply list_elem_of_singleton in Hx as ->. destruct Hkind as [[Hk _]|[-> _]]; [done|]. by eexists.
Qed.

Lemma trace_later evs now now' st : trace_ok evs now st -> now <= now' -> trace_ok evs now' st.
Proof.
  intros [] Hle. constructor; try done. eapply Forall_impl; [done|]. cbn. intros. lia.
Qed.

(** *** The steps *)

(** [_append] and [_transition] as functions. *)
Definition appended (kind : string) (payload : dict) s : TRCPSimulator :=
  push_event (event_of (Z.of_nat (length (ts_trace s)) + 1) (ts_now_unix s) kind (ts_state s) payload
    (last_event_sha256 (ts_trace s))) s.

Definition moved (new_state reason : string) s : TRCPSimulator :=
  appended "STATE_TRANSITION"
    [("from", JStr (ts_state s)); ("to", JStr new_state); ("reason", JStr reason)] (set_state new_state s).

Lemma trcp_append_run kind payload s : _append kind payload s = (Ok tt, appended kind payload s).
Proof. done. Qed.

Lemma transition_run new_state reason s :
  mem new_state (table_get _ALLOWED_TRANSITIONS (ts_state s)) = true ->
  _transition new_state reason s = (Ok tt, moved new_state reason s).
Proof. intros H. unfold _transition, trcp_if, raise_if. M_go. by rewrite H. Qed.

Lemma fail_run {A} new_state reason message s :
  mem new_state (table_get _ALLOWED_TRANSITIONS (ts_state s)) = true ->
  _fail_failover (A := A) new_state reason message s
  = (fail TRCPError message, moved new_state reason s).
Proof. intros H. unfold _fail_failover. by rewrite M_bind_eq, transition_run. Qed.

(** The event [appended] adds, as a record. *)
Definition next_event (kind : string) (payload : dict) s : Event := {|
  ev_sequence := Z.of_nat (length (ts_trace s)) + 1; ev_at := ts_now_unix s; ev_kind := kind;
  ev_state := ts_state s; ev_payload := payload; ev_previous := last_event_sha256 (ts_trace s) |}.

Lemma appended_trace kind payload s evs st st' :
  ts_trace s = map event_document evs -> trace_ok evs (ts_now_unix s) st ->
  (kind <> "STATE_TRANSITION" /\ st' = st
   \/ kind = "STATE_TRANSITION" /\ dict_get_none payload "from" = JStr st
      /\ dict_get_none payload "to" = JStr st' /\ mem st' (table_get _ALLOWED_TRANSITIONS st) = true) ->
  ts_trace (appended kind payload s) = map event_document (evs ++ [next_event kind payload s])
  /\ trace_ok (evs ++ [next_event kind payload s]) (ts_now_unix s) st'.
Proof.
  intros Htr Hok Hk. split.
  - rewrite map_app, <- Htr. done.
  - eapply trace_snoc; [done| |done| |]; cbn.
    + by rewrite Htr, length_map.
    + by rewrite Htr.
    + destruct Hk as [Hk|(-> & Hf & Ht & Ha)]; [by left|right]. split; [|done].
      unfold move_of. cbn. by rewrite Hf, Ht.
Qed.

(** A simulator with some of its fields replaced, on a longer trace. *)
Lemma sim_appended kind payload s s0 evs recs recs' found found' :
  sim_ok s evs recs found ->
  ts_trace s0 = ts_trace s -> ts_now_unix s0 = ts_now_unix s ->
  (kind <> "STATE_TRANSITION" /\ ts_state s0 = ts_state s
   \/ kind = "STATE_TRANSITION" /\ dict_get_none payload "from" = JStr (ts_state s)
      /\ dict_get_none payload "to" = JStr (ts_state s0)
      /\ mem (ts_state s0) (table_get _ALLOWED_TRANSITIONS (ts_state s)) = true) ->
  marks (ts_provider_runs s0) recs' found' (ts_verification s0)
  = marks (ts_provider_runs s) recs found (ts_verification s)
    ++ omap mark_of [next_event kind payload s0] ->
  evidence_ok (ts_provider_runs s0) recs' (ts_failover_record s0) (ts_finding s0) found'
    (ts_verification s0) (sc_scope_id (ts_scope s0)) ->
  authority_ok (ts_authorization s0) (ts_initial_scope s0) (ts_scope s0) (ts_state s0) ->
  phase_ok (ts_state s0) (ts_provider_runs s0) (ts_finding s0) ->
  sim_ok (appended kind payload s0) (evs ++ [next_event kind payload s0]) recs' found'.
Proof.
  intros [Hd Ht Hm He Ha Hp] Etr Enow Hk Emarks Hed Hah Hph.
  destruct (appended_trace kind payload s0 evs (ts_state s) (ts_state s0)) as [H1 H2]; [|by rewrite Enow|done|].
  { by rewrite Etr. }
  constructor; try done. rewrite omap_app, Hm. symmetry. exact Emarks.
Qed.

(** A step that neither moves the state nor leaves a mark. *)
Lemma sim_noted kind payload s evs recs found : sim_ok s evs recs found ->
  mem kind ["STATE_TRANSITION"; "PROVIDER_RUN_RECORDED"; "FAILOVER_DECISION_RECORDED"; "FINDING_RECORDED";
            "VERIFICATION_RECORDED"] = false ->
  sim_ok (appended kind payload s) (evs ++ [next_event kind payload s]) recs found.
Proof.
  intros Hs Hk. apply mem_false in Hk. pose proof Hs as [].
  eapply sim_appended; try done.
  - left. split; [set_solver|done].
  - cbn [omap list_omap]. unfold mark_of, marked. cbn [ev_kind next_event].
    assert (mem kind ["PROVIDER_RUN_RECORDED"; "FAILOVER_DECISION_RECORDED"; "FINDING_RECORDED";
      "VERIFICATION_RECORDED"] = false) as -> by (apply mem_false; set_solver).
    by rewrite app_nil_r.
Qed.

Lemma move_no_mark new reason s :
  omap mark_of [next_event "STATE_TRANSITION"
    [("from", JStr (ts_state s)); ("to", JStr new); ("reason", JStr reason)] (set_state new s)] = [].
Proof. done. Qed.

(** A transition. *)
Lemma sim_moved new reason s evs recs found : sim_ok s evs recs found ->
  mem new (table_get _ALLOWED_TRANSITIONS (ts_state s)) = true ->
  authority_ok (ts_authorization s) (ts_initial_scope s) (ts_scope s) new ->
  phase_ok new (ts_provider_runs s) (ts_finding s) ->
  exists evs', sim_ok (moved new reason s) evs' recs found.
Proof.
  intros Hs Hal Hah Hph. pose proof Hs as []. eexists. eapply sim_appended; try done.
  - by right.
  - cbn [marks]. rewrite move_no_mark, app_nil_r. done.
Qed.

(** A transition of an authorized simulator. *)
Lemma sim_moved_on new reason s evs recs found : sim_ok s evs recs found ->
  ts_state s <> "NEW" -> mem new (table_get _ALLOWED_TRANSITIONS (ts_state s)) = true -> new <> "NEW" ->
  phase_ok new (ts_provider_runs s) (ts_finding s) ->
  exists evs', sim_ok (moved new reason s) evs' recs found.
Proof.
  intros Hs Hst Hal Hnew Hph. eapply sim_moved; try done. pose proof (sm_authority _ _ _ _ Hs) as [H1 H2].
  constructor; [done|]. intros _. by apply H2.
Qed.

(** A state none of the phases is about. *)
Lemma phase_other new runs finding :
  mem new ["NEW"; "AUTHORIZED"; "FAILOVER_PENDING"] = false -> phase_ok new runs finding.
Proof.
  intros H%mem_false. split.
  - intros H'%mem_true. exfalso. apply H. set_solver.
  - intros ->. exfalso. apply H. set_solver.
Qed.

Definition simulated s : Prop := exists evs recs found, sim_ok s evs recs found.

Lemma validate_scope_ok sc a now : ScopeEnvelope_validate sc a now = Ok tt ->
  scope_ok a sc /\ sc_network_mode sc = "LOCAL_ONLY".
Proof.
  unfold ScopeEnvelope_validate, trcp_if. rewrite !raise_if_bind, raise_if_ok.
  intros (H1 & _ & H2 & _ & _ & _ & _ & H3).
  apply negb_false_iff, String.eqb_eq in H1, H2. apply negb_false_iff, bool_decide_eq_true in H3. done.
Qed.

Lemma subset_spec a b : subset a b = true <-> a ⊆ b.
Proof.
  unfold subset. rewrite forallb_forall. split.
  - intros H x Hx%list_elem_of_In. by apply mem_true, H.
  - intros H x Hx. apply mem_true, H. by apply list_elem_of_In.
Qed.

Lemma narrower_spec sc parent : narrower sc parent <->
  sc_authorization_id sc = sc_authorization_id parent
  /\ sc_allowed_targets sc ⊆ sc_allowed_targets parent
  /\ sc_allowed_actions sc ⊆ sc_allowed_actions parent
  /\ sc_allowed_environments sc ⊆ sc_allowed_environments parent
  /\ sc_prohibited_actions parent ⊆ sc_prohibited_actions sc
  /\ sc_data_handling_class sc = sc_data_handling_class parent
  /\ sc_network_mode sc = "LOCAL_ONLY" /\ sc_network_mode parent = "LOCAL_ONLY"
  /\ sc_expires_at sc <= sc_expires_at parent.
Proof.
  unfold narrower, is_equal_or_narrower_than.
  rewrite !andb_true_iff, !subset_spec, !String.eqb_eq, Z.leb_le. intuition congruence.
Qed.

Lemma narrower_refl sc : sc_network_mode sc = "LOCAL_ONLY" -> narrower sc sc.
Proof. intros H. apply narrower_spec. split_and!; done || lia. Qed.

Lemma narrower_trans a b c : narrower a b -> narrower b c -> narrower a c.
Proof.
  rewrite !narrower_spec. intros (? & ? & ? & ? & ? & ? & ? & ? & ?) (? & ? & ? & ? & ? & ? & ? & ? & ?).
  split_and!; try congruence; try (etrans; eassumption).
Qed.

Lemma sim_later n s : simulated s -> ts_now_unix s <= n -> simulated (set_now n s).
Proof.
  intros (evs & recs & found & []) Hn. exists evs, recs, found. constructor; try done.
  by eapply trace_later.
Qed.

Lemma sim_noted' kind payload s : simulated s ->
  mem kind ["STATE_TRANSITION"; "PROVIDER_RUN_RECORDED"; "FAILOVER_DECISION_RECORDED"; "FINDING_RECORDED";
            "VERIFICATION_RECORDED"] = false -> simulated (appended kind payload s).
Proof. intros (evs & recs & found & H) Hk. do 3 eexists. by apply sim_noted. Qed.

Lemma sim_moved_on' new reason s : simulated s -> ts_state s <> "NEW" ->
  mem new (table_get _ALLOWED_TRANSITIONS (ts_state s)) = true -> new <> "NEW" ->
  phase_ok new (ts_provider_runs s) (ts_finding s) -> simulated (moved new reason s).
Proof.
  intros (evs & recs & found & H) ? ? ? ?. destruct (sim_moved_on new reason s evs recs found) as [evs' ?]; try done.
  by exists evs', recs, found.
Qed.

(** *** The methods *)
Lemma advance_simulated n s : simulated s -> simulated (snd (advance_time n s)).
Proof.
  intros Hs. unfold advance_time, trcp_if, raise_if. M_go. destruct (n <? ts_now_unix s) eqn:Hn; [done|].
  M_go. rewrite trcp_append_run. cbn [snd]. apply sim_noted'; [|done]. apply sim_later; [done|lia].
Qed.

Lemma validated_id a now : AuthorizationRecord_validate a now = Ok tt -> au_authorization_id a <> "".
Proof.
  unfold AuthorizationRecord_validate, trcp_if. rewrite !raise_if_bind.
  intros (H & _). apply orb_false_iff in H as [H _]. apply orb_false_iff in H as [H _].
  by apply String.eqb_neq.
Qed.

Lemma authorize_simulated s : simulated s -> simulated (snd (authorize s)).
Proof.
  intros Hsim. pose proof Hsim as (evs & recs & found & Hs). unfold authorize, trcp_if, raise_if. M_go.
  destruct (String.eqb (ts_state s) "NEW") eqn:Hst; [|done]. apply String.eqb_eq in Hst. cbn [negb]. M_go.
  destruct (AuthorizationRecord_validate _ _) as [[]|e] eqn:Ha; [|done]. M_go.
  destruct (ScopeEnvelope_validate _ _ _) as [[]|e] eqn:Hsc; [|done].
  rewrite transition_run by (by rewrite Hst). cbn [snd].
  pose proof (sm_authority _ _ _ _ Hs) as [Hnew _]. specialize (Hnew Hst).
  apply validate_scope_ok in Hsc as [Hok Hnet].
  destruct (sim_moved "AUTHORIZED" "authorization_and_scope_valid" s evs recs found) as [evs' Hs']; [done| | | |].
  - by rewrite Hst.
  - constructor; [done|]. intros _. rewrite Hnew in Hok, Hnet |- *. split; [by eapply validated_id|].
    split; [done|]. split; [done|]. by apply narrower_refl.
  - pose proof (sm_phase _ _ _ _ Hs) as [Hp _]. split; [|done]. intros _. apply Hp. by rewrite Hst.
  - by exists evs', recs, found.
Qed.

(** A refusal moves the simulator to a state none of the phases is about. *)
Definition refusal (new_state : string) s : Prop :=
  mem new_state (table_get _ALLOWED_TRANSITIONS (ts_state s)) = true
  /\ mem new_state ["NEW"; "AUTHORIZED"; "FAILOVER_PENDING"] = false.

Lemma refused_simulated new reason s : simulated s -> ts_state s <> "NEW" -> refusal new s ->
  simulated (moved new reason s).
Proof.
  intros Hs Hst [H1 H2]. apply sim_moved_on'; try done; [|by apply phase_other].
  intros ->. apply mem_false in H2. set_solver.
Qed.

Lemma checked_run {A} (r : result A) new reason s : simulated s -> ts_state s <> "NEW" -> refusal new s ->
  (exists a, r = Ok a /\ checked r new reason s = (Ok a, s))
  \/ exists e s', checked r new reason s = (Err e, s') /\ simulated s'.
Proof.
  intros Hs Hst Hr. destruct r as [a|e]; [left; by exists a|right]. unfold checked.
  destruct (exn_cls e) eqn:He; try (by exists e, s).
  rewrite fail_run by apply Hr. do 2 eexists. split; [done|]. by apply refused_simulated.
Qed.

(** What a provider returns. *)
Record output_ok (p : MockProvider) (output : dict) : Prop := {
  ot_outcome : str_item output "outcome" = Ok (mp_outcome p);
  ot_listed : mem (mp_outcome p) PROVIDER_OUTCOMES = true;
  ot_finding : dict_get_none output "synthetic_finding" = JObj (or_empty (mp_synthetic_finding p));
  ot_sha : exists sha, str_item output "provider_output_sha256" = Ok sha
}.

(** The record of run number [i + 1] of the task with hash [h]. *)
Record run_ok (h : string) (i : nat) (run : dict) : Prop := {
  rn_id : text_field run "run_id" ("run:" +:+ pretty (Z.of_nat i + 1));
  rn_task : text_field run "normalized_task_hash" h;
  rn_outcome : exists outcome, text_field run "outcome" outcome
}.

Lemma provider_output p h output : MockProvider_run p h = Ok output -> output_ok p output.
Proof.
  unfold MockProvider_run, trcp_if. rewrite raise_if_bind. intros [Hm%negb_false_iff [= <-]].
  constructor; [done|done|done|by eexists].
Qed.

Lemma run_record p h output s : output_ok p output ->
  exists run, _provider_run_record s p h output = Ok run /\ run_ok h (length (ts_provider_runs s)) run.
Proof.
  intros [Ho _ _ [sha Hs]]. unfold _provider_run_record. unfold str_item in Ho.
  destruct (dict_item output "outcome") as [[]|]; try done. injection Ho as ->.
  rewrite bind_Ok, Hs, bind_Ok. eexists. split; [reflexivity|]. constructor; [done|done|by eexists].
Qed.

Lemma run_provider_cases h p s :
  (exists e, run_provider h p s = (Err e, s))
  \/ exists output run, run_provider h p s
       = (Ok (output, run), appended "PROVIDER_RUN_RECORDED" run (push_run run s))
     /\ output_ok p output /\ run_ok h (length (ts_provider_runs s)) run.
Proof.
  unfold run_provider. M_go. destruct (MockProvider_run p h) as [output|e] eqn:Ho; [right|left; by eexists].
  apply provider_output in Ho. destruct (run_record p h output s Ho) as (run & Hr & Hok).
  exists output, run. M_go Hr. M_go. by rewrite M_bind_eq, trcp_append_run.
Qed.

Lemma runs_snoc runs h i run : runs_ok runs -> (length runs <= 1)%nat -> re_sha h = true ->
  (forall r, r ∈ runs -> text_field r "normalized_task_hash" h) ->
  i = length runs -> run_ok h i run -> runs_ok (runs ++ [run]).
Proof.
  intros [_ (h' & _ & Hr)] Hl Hh Hsame -> [Hid Ht _]. split; [rewrite length_app; cbn; lia|].
  exists h. split; [done|]. intros i r [[_ Hi]|[-> <-]]%lookup_snoc_Some; [|done].
  split; [by apply (Hr i)|]. apply Hsame. by eapply list_elem_of_lookup_2.
Qed.

(** A run is recorded. *)
Lemma sim_ran h run s : simulated s -> (length (ts_provider_runs s) <= 1)%nat -> ts_finding s = None ->
  mem (ts_state s) ["NEW"; "AUTHORIZED"; "FAILOVER_PENDING"] = false -> re_sha h = true ->
  (forall r, r ∈ ts_provider_runs s -> text_field r "normalized_task_hash" h) ->
  (ts_provider_runs s <> [] -> is_Some (ts_failover_record s)) ->
  run_ok h (length (ts_provider_runs s)) run ->
  simulated (appended "PROVIDER_RUN_RECORDED" run (push_run run s)).
Proof.
  intros (evs & recs & found & Hs) Hl Hf Hst Hh Hsame Hfo Hrun. pose proof Hs as [_ _ _ [Hr Hfail Hfi Hstart] _ _].
  assert (found = None /\ ts_verification s = None) as [-> Hv].
  { rewrite Hf in Hfi. destruct found; [done|]. done. }
  eexists _, recs, None. eapply sim_appended; [exact Hs|done|done|by left| | |by apply Hs|by apply phase_other].
  - cbn [ts_provider_runs ts_verification push_run]. rewrite Hv.
    destruct (ts_provider_runs s) as [|r rest] eqn:Hruns.
    + destruct (ts_failover_record s); [by destruct Hfail as (_ & ? & _)|]. by destruct Hfail as [-> _].
    + unfold marks. cbn [app opt_mark]. rewrite map_app, !app_nil_r. cbn. by rewrite app_assoc.
  - cbn [ts_provider_runs ts_verification ts_failover_record ts_finding ts_scope push_run]. constructor.
    + by eapply runs_snoc.
    + destruct (ts_failover_record s) as [rec|].
      * destruct Hfail as (? & ? & ? & ?). split_and!; [done|by destruct (ts_provider_runs s)|done|done].
      * destruct Hfail as [? _]. split; [done|]. destruct (ts_provider_runs s); [cbn; lia|].
        destruct Hfo; done.
    + done.
    + intros ?%app_nil. naive_solver.
Qed.

(** A finding is recorded. *)
Lemma sim_found id f s : simulated s -> ts_provider_runs s <> [] -> ts_finding s = None ->
  mem (ts_state s) ["NEW"; "AUTHORIZED"; "FAILOVER_PENDING"] = false ->
  text_field f "finding_id" id -> text_field f "status" "UNVERIFIED" ->
  simulated (appended "FINDING_RECORDED" f (set_finding f s)).
Proof.
  intros (evs & recs & found & Hs) Hl Hf Hst Hid Hun. pose proof Hs as [_ _ _ [Hr Hfail Hfi Hstart] _ _].
  assert (found = None /\ ts_verification s = None) as [-> Hv].
  { rewrite Hf in Hfi. destruct found; [done|]. done. }
  eexists _, recs, (Some f).
  eapply sim_appended; [exact Hs|done|done|by left| | |by apply Hs|by apply phase_other].
  - cbn [ts_provider_runs ts_verification set_finding]. rewrite Hv. unfold marks. cbn [opt_mark].
    by rewrite !app_nil_r.
  - cbn [ts_provider_runs ts_verification ts_failover_record ts_finding ts_scope set_finding].
    constructor; [done|done| |done]. exists id, "UNVERIFIED". by rewrite Hv.
Qed.

Lemma dict_get_app d d' k : dict_get (d ++ d') k = match dict_get d k with Some v => Some v | None => dict_get d' k end.
Proof. induction d as [|[k' v] d IH]; [done|]. cbn. by destruct (String.eqb k' k). Qed.

Lemma normalized_keys raw k v : dict_get (normalized_finding raw) k = Some v -> k ∈ finding_fields.
Proof.
  intros Hv%dict_get_elem. apply list_elem_of_omap in Hv as (k' & Hk & He).
  destruct (dict_get raw k'); [|done]. by injection He as -> _.
Qed.

Lemma finding_body_fields s normalized run_id sha raw : normalized = normalized_finding raw ->
  let f := seal "record_sha256" (finding_body s normalized run_id sha "UNVERIFIED") in
  (exists id, text_field f "finding_id" id) /\ text_field f "status" "UNVERIFIED".
Proof.
  intros ->. cbv zeta. split; [by eexists|]. unfold text_field, seal. rewrite dict_get_set_ne by done.
  unfold finding_body. rewrite !dict_get_app. cbn [dict_get String.eqb Ascii.eqb Bool.eqb].
  destruct (dict_get (normalized_finding raw) "status") as [v|] eqn:Hv; [|done].
  apply normalized_keys in Hv. set_solver.
Qed.

Lemma capture_cases p output run_id s : output_ok p output ->
  (exists e, _capture_finding output run_id s = (Err e, s))
  \/ _capture_finding output run_id s = (Ok tt, s)
  \/ exists f id, _capture_finding output run_id s = (Ok tt, appended "FINDING_RECORDED" f (set_finding f s))
     /\ text_field f "finding_id" id /\ text_field f "status" "UNVERIFIED".
Proof.
  intros [_ _ Hf [sha Hs]]. unfold _capture_finding. M_go. rewrite Hf.
  destruct (or_empty _) as [|kv raw]; [by right; left|]. cbv zeta. unfold trcp_if at 1, raise_if.
  destruct (negb _); [left; by eexists|]. M_go. rewrite Hs. M_go. rewrite trcp_append_run.
  destruct (finding_body_fields s _ run_id sha (kv :: raw) eq_refl) as [[id Hid] Hst].
  right. right. by exists (seal "record_sha256"
    (finding_body s (normalized_finding (kv :: raw)) run_id sha "UNVERIFIED")), id.
Qed.

Definition busy s : Prop := mem (ts_state s) ["NEW"; "AUTHORIZED"; "FAILOVER_PENDING"] = false.

Lemma busy_started s : busy s -> ts_state s <> "NEW".
Proof. intros H E. unfold busy in H. by rewrite E in H. Qed.

(** Capturing a finding keeps the state of the simulator. *)
Lemma capture_simulated p output run_id s r s' : output_ok p output -> simulated s ->
  ts_provider_runs s <> [] -> ts_finding s = None -> busy s ->
  _capture_finding output run_id s = (r, s') ->
  simulated s' /\ ts_state s' = ts_state s.
Proof.
  intros Ho Hs Hr Hf Hb. destruct (capture_cases p output run_id s Ho) as [[e ->]|[->|(f & id & -> & Hid & Hst)]];
    intros [= <- <-]; [done|done|]. split; [|done]. by eapply sim_found.
Qed.

(** A run that completed: its finding is captured and verification comes next. *)
Lemma completed_simulated {B} p output run_id reason (b : B) s : output_ok p output -> simulated s ->
  ts_provider_runs s <> [] -> ts_finding s = None ->
  mem (ts_state s) ["ACTIVE"; "ACTIVE_ON_FALLBACK"] = true ->
  simulated (snd ((_ ← _capture_finding output run_id; _ ← _transition "VERIFYING" reason; mret b) s)).
Proof.
  intros Ho Hs Hr Hf Hst.
  assert (busy s /\ mem "VERIFYING" (table_get _ALLOWED_TRANSITIONS (ts_state s)) = true) as [Hb Hal].
  { apply mem_true in Hst. unfold busy.
    apply elem_of_cons in Hst as [->|Hst]; [done|]. by apply list_elem_of_singleton in Hst as ->. }
  rewrite M_bind_eq. destruct (_capture_finding output run_id s) as [res s'] eqn:Hc.
  destruct (capture_simulated _ _ _ _ _ _ Ho Hs Hr Hf Hb Hc) as [Hs' Est]. destruct res as [[]|e]; [|done].
  rewrite M_bind_eq, transition_run by (by rewrite Est). cbn [snd mret M_ret].
  apply sim_moved_on'; try done; rewrite Est; [by apply busy_started|done].
Qed.

Lemma fail_simulated {A} new reason message s : simulated s -> ts_state s <> "NEW" -> refusal new s ->
  simulated (snd (_fail_failover (A := A) new reason message s)).
Proof. intros Hs Hst Hr. rewrite fail_run by apply Hr. cbn [snd]. by apply refused_simulated. Qed.

(** [x ← checked r new reason; f x] keeps a simulator sound if [f x] does. *)
Lemma checked_simulated {A B} (r : result A) new reason (f : A -> M TRCPSimulator B) s :
  simulated s -> ts_state s <> "NEW" -> refusal new s ->
  (forall a, r = Ok a -> simulated (snd (f a s))) -> simulated (snd ((checked r new reason ≫= f) s)).
Proof.
  intros Hs Hst Hr Hf. rewrite M_bind_eq.
  destruct (checked_run r new reason s Hs Hst Hr) as [(a & -> & ->)|(e & s' & -> & Hs')]; [by apply Hf|done].
Qed.

Lemma lift_simulated {A B} (r : result A) (f : A -> M TRCPSimulator B) s : simulated s ->
  (forall a, r = Ok a -> simulated (snd (f a s))) -> simulated (snd ((lift r ≫= f) s)).
Proof. intros Hs Hf. rewrite M_lift. destruct r; [by apply Hf|done]. Qed.

Lemma validated_task s task sc h : _validate_task s task sc = Ok h -> h = canonical_sha256 (JObj task).
Proof. unfold _validate_task, trcp_if. intros H. py_inv. done. Qed.

(** Before the first run nothing is on record. *)
Lemma unstarted s : simulated s -> ts_provider_runs s = [] -> ts_finding s = None /\ ts_failover_record s = None.
Proof.
  intros (evs & recs & found & [_ _ _ [_ Hfo _ Hst] _ _]) Hr. split; [by apply Hst|].
  destruct (ts_failover_record s); [|done]. by destruct Hfo as (_ & ? & _).
Qed.

(** What a run's outcome leads to, after the first run. *)
Lemma primary_outcome task p output run (s : TRCPSimulator) : output_ok p output ->
  run_ok (canonical_sha256 (JObj task)) 0 run -> simulated s -> ts_state s = "ACTIVE" ->
  ts_provider_runs s = [run] -> ts_finding s = None ->
  simulated (snd ((outcome ← lift (str_item output "outcome");
    if mem outcome FAILOVER_OUTCOMES then
      _ ← _transition "DEGRADED" outcome;
      _ ← _transition "FAILOVER_PENDING" "provider_continuity_required";
      mret output
    else if String.eqb outcome "COMPLETED" then
      run_id ← lift (dict_item run "run_id");
      _ ← _capture_finding output run_id;
      _ ← _transition "VERIFYING" "primary_provider_completed";
      mret output
    else
      _ ← _transition "ABORTED" outcome;
      mret output) s)).
Proof.
  intros Ho Hrun Hs Hst Hruns Hfi. M_go (ot_outcome _ _ Ho).
  destruct (mem (mp_outcome p) FAILOVER_OUTCOMES); [|destruct (String.eqb _ _)].
  - rewrite M_bind_eq, transition_run by by rewrite Hst. rewrite M_bind_eq, transition_run by done. cbn [snd mret M_ret].
    apply sim_moved_on'; [|done|done|done|].
    + apply sim_moved_on'; [done|by rewrite Hst|by rewrite Hst|done|by apply phase_other].
    + split; [done|]. intros _. cbn. by rewrite Hruns.
  - apply lift_simulated; [done|]. intros id _.
    eapply completed_simulated; [exact Ho|done|by rewrite Hruns|done|by rewrite Hst].
  - rewrite M_bind_eq, transition_run by by rewrite Hst. cbn [snd mret M_ret].
    apply sim_moved_on'; [done|by rewrite Hst|by rewrite Hst|done|by apply phase_other].
Qed.

Lemma primary_simulated task p s : simulated s -> simulated (snd (execute_primary task p s)).
Proof.
  intros Hs. unfold execute_primary. M_go. unfold trcp_if at 1, raise_if.
  destruct (String.eqb (ts_state s) "AUTHORIZED") eqn:Hst; [|done]. apply String.eqb_eq in Hst. M_go.
  assert (ts_provider_runs s = []) as Hruns.
  { destruct Hs as (evs & recs & found & [_ _ _ _ _ [Hp _]]). apply Hp. by rewrite Hst. }
  destruct (unstarted s Hs Hruns) as [Hfi Hfo].
  assert (ts_state s <> "NEW") as Hnew by by rewrite Hst.
  assert (forall new, mem new ["AUTH_EXPIRED"; "SCOPE_INVALID"] = true -> refusal new s) as Href.
  { intros new H%mem_true. unfold refusal. rewrite Hst.
    apply elem_of_cons in H as [->|H]; [done|]. by apply list_elem_of_singleton in H as ->. }
  apply checked_simulated; [done|done|by apply Href|intros [] _].
  apply checked_simulated; [done|done|by apply Href|intros [] _].
  apply checked_simulated; [done|done|by apply Href|intros h Hh].
  apply validated_task in Hh as ->.
  rewrite M_bind_eq, transition_run by by rewrite Hst.
  set (s1 := moved "ACTIVE" _ s).
  assert (simulated s1) as Hs1.
  { apply sim_moved_on'; [done|done|by rewrite Hst|done|by apply phase_other]. }
  rewrite M_bind_eq. destruct (run_provider_cases (canonical_sha256 (JObj task)) p s1)
    as [[e ->]|(output & run & -> & Ho & Hrun)]; [done|].
  change (ts_provider_runs s1) with (ts_provider_runs s) in Hrun. rewrite Hruns in Hrun.
  apply (primary_outcome task p); try done.
  - apply sim_ran with (canonical_sha256 (JObj task)); cbn; rewrite ?Hruns; try done; try lia; auto with py.
    intros r Hr. by apply elem_of_nil in Hr.
  - cbn. by rewrite Hruns.
Qed.

Lemma check_failover_cases o candidate s : simulated s -> ts_state s = "FAILOVER_PENDING" ->
  (exists e s', check_failover s candidate o s = (Err e, s') /\ simulated s')
  \/ check_failover s candidate o s = (Ok tt, s)
     /\ scope_ok (ts_authorization s) candidate /\ narrower candidate (ts_scope s).
Proof.
  intros Hs Hst. assert (ts_state s <> "NEW") as Hnew by by rewrite Hst.
  assert (forall new, mem new ["AUTH_EXPIRED"; "SCOPE_INVALID"; "HUMAN_REVIEW_REQUIRED"] = true ->
    refusal new s) as Href.
  { intros new H%mem_true. unfold refusal. rewrite Hst. apply elem_of_cons in H as [->|H]; [done|].
    apply elem_of_cons in H as [->|H]; [done|]. by apply list_elem_of_singleton in H as ->. }
  assert (forall new reason message, mem new ["AUTH_EXPIRED"; "SCOPE_INVALID"; "HUMAN_REVIEW_REQUIRED"] = true ->
    exists e s', _fail_failover (A := unit) new reason message s = (Err e, s') /\ simulated s') as Hfail.
  { intros new reason message H. rewrite fail_run by by apply Href. do 2 eexists. split; [done|].
    apply refused_simulated; [done|done|by apply Href]. }
  unfold check_failover.
  destruct (checked_run (AuthorizationRecord_validate (ts_authorization s) (ts_now_unix s)) "AUTH_EXPIRED"
    "authorization_revalidation_failed" s Hs Hnew (Href "AUTH_EXPIRED" eq_refl)) as [([] & _ & E)|(e & s' & E & Hs')];
    rewrite M_bind_eq, E; [|left; by exists e, s'].
  destruct (_ || _); [left; by apply Hfail|].
  destruct (checked_run (ScopeEnvelope_validate candidate (ts_authorization s) (ts_now_unix s)) "SCOPE_INVALID"
    "fallback_scope_revalidation_failed" s Hs Hnew (Href "SCOPE_INVALID" eq_refl)) as [([] & Hv & E')|(e & s' & E' & Hs')];
    rewrite M_bind_eq, E'; [|left; by exists e, s'].
  destruct (negb (is_equal_or_narrower_than _ _)) eqn:Hn; [left; by apply Hfail|].
  destruct (negb (fo_data_handling_approved o)); [left; by apply Hfail|].
  destruct (negb (fo_sensitive_artifacts_minimized o)); [left; by apply Hfail|].
  destruct (_ && _); [left; by apply Hfail|]. right. split; [done|]. apply validate_scope_ok in Hv as [Hv _].
  split; [done|]. by apply negb_false_iff.
Qed.

(** A failover decision with the scope it sets. *)
Lemma sim_failover record candidate s : simulated s -> ts_state s = "FAILOVER_PENDING" ->
  scope_ok (ts_authorization s) candidate -> narrower candidate (ts_scope s) ->
  text_field record "previous_run_id" "run:1" -> text_field record "scope_id" (sc_scope_id candidate) ->
  simulated (appended "FAILOVER_DECISION_RECORDED" record (set_scope candidate (set_failover_record record s))).
Proof.
  intros (evs & recs & found & Hs) Hst Hok Hn Hprev Hid.
  pose proof Hs as [_ _ _ [Hr Hfail Hfi Hstart] [_ Hauth] [_ Hph]].
  destruct (Hph Hst) as [Hlen Hf]. destruct (ts_provider_runs s) as [|run [|]] eqn:Hruns; try done.
  assert (found = None /\ ts_verification s = None) as [-> Hv].
  { rewrite Hf in Hfi. destruct found; [done|]. done. }
  destruct Hauth as (Ha1 & Ha2 & Ha3 & Ha4); [by rewrite Hst|].
  eexists _, (recs ++ [record]), None. eapply sim_appended; [exact Hs|done|done|by left| | | |].
  - cbn [ts_provider_runs ts_verification set_scope set_failover_record]. rewrite Hv, Hruns.
    unfold marks. cbn [opt_mark map]. rewrite map_app, !app_nil_r. done.
  - cbn [ts_provider_runs ts_verification ts_failover_record ts_finding ts_scope set_scope set_failover_record].
    rewrite Hruns, Hv. constructor; [done| |by rewrite Hv in Hfi|done]. split; [by apply last_snoc|done].
  - constructor; [by cbn; rewrite Hst|]. intros _. cbn. split_and!; [done|done|exact Hok|].
    by eapply narrower_trans.
  - split; [by cbn; rewrite Hst|]. intros _. cbn. by rewrite Hruns.
Qed.

Lemma failover_simulated p o s : simulated s -> simulated (snd (record_failover p o s)).
Proof.
  intros Hs. unfold record_failover. M_go. unfold trcp_if at 1, raise_if.
  destruct (String.eqb (ts_state s) "FAILOVER_PENDING") eqn:Hst; [|done]. apply String.eqb_eq in Hst. M_go.
  set (candidate := match fo_fallback_scope o with Some sc => sc | None => ts_scope s end).
  rewrite M_bind_eq. destruct (check_failover_cases o candidate s Hs Hst) as [(e & s' & -> & Hs')|(-> & Hok & Hn)]; [done|].
  pose proof Hs as (evs & recs & found & [_ _ _ [[_ (h & _ & Hr)] _ _ _] _ [_ Hph]]).
  destruct (Hph Hst) as [Hlen _]. unfold last_run. destruct (ts_provider_runs s) as [|run [|]]; try done.
  destruct (Hr 0%nat run eq_refl) as [Hid _]. cbn [last]. M_go.
  rewrite (proj2 (dict_item_ok _ _ _) Hid). M_go. destruct (dict_item run "outcome") as [reason|e]; [|done]. M_go.
  rewrite M_bind_eq, trcp_append_run. M_go. rewrite M_bind_eq, trcp_append_run. cbn [snd mret M_ret].
  apply sim_noted'; [|done]. by apply (sim_failover _ candidate s).
Qed.

Lemma fallback_outcome p output run (s : TRCPSimulator) : output_ok p output ->
  simulated s -> ts_state s = "ACTIVE_ON_FALLBACK" ->
  ts_provider_runs s <> [] -> ts_finding s = None ->
  simulated (snd ((outcome ← lift (str_item output "outcome");
    if negb (String.eqb outcome "COMPLETED") then
      _ ← _transition "ABORTED" ("fallback_" +:+ py_lower outcome);
      mret output
    else
      run_id ← lift (dict_item run "run_id");
      _ ← _capture_finding output run_id;
      _ ← _transition "VERIFYING" "fallback_provider_completed";
      mret output) s)).
Proof.
  intros Ho Hs Hst Hruns Hfi. M_go (ot_outcome _ _ Ho). destruct (negb _).
  - rewrite M_bind_eq, transition_run by by rewrite Hst. cbn [snd mret M_ret].
    apply sim_moved_on'; [done|by rewrite Hst|by rewrite Hst|done|by apply phase_other].
  - apply lift_simulated; [done|]. intros id _.
    eapply completed_simulated; [exact Ho|done|done|done|by rewrite Hst].
Qed.

Lemma fallback_simulated task p s : simulated s -> simulated (snd (execute_fallback task p s)).
Proof.
  intros Hs. unfold execute_fallback. M_go. unfold trcp_if at 1, raise_if.
  destruct (String.eqb (ts_state s) "FAILOVER_PENDING") eqn:Hst; [|done]. apply String.eqb_eq in Hst. M_go.
  assert (ts_state s <> "NEW") as Hnew by by rewrite Hst.
  assert (forall new, mem new ["ABORTED"; "AUTH_EXPIRED"; "SCOPE_INVALID"] = true -> refusal new s) as Href.
  { intros new H%mem_true. unfold refusal. rewrite Hst. apply elem_of_cons in H as [->|H]; [done|].
    apply elem_of_cons in H as [->|H]; [done|]. by apply list_elem_of_singleton in H as ->. }
  destruct (ts_failover_record s) as [record|] eqn:Hrec; [|done]. cbn [negb]. M_go.
  destruct (dict_item record "new_provider_id") as [id|]; [|done].
  apply lift_simulated; [done|intros model _].
  destruct (_ || _).
  { rewrite M_bind_eq, fail_run by by apply Href. apply refused_simulated; [done|done|by apply Href]. }
  rewrite M_bind_eq. cbn [mret M_ret].
  apply checked_simulated; [done|done|by apply Href|intros [] _].
  apply checked_simulated; [done|done|by apply Href|intros [] _].
  apply checked_simulated; [done|done|by apply Href|intros h Hh].
  apply validated_task in Hh as ->. set (h := canonical_sha256 (JObj task)).
  apply lift_simulated; [done|intros previous Hprev]. apply lift_simulated; [done|intros previous_hash Hph].
  destruct (is_str previous_hash h) eqn:Hsame; cbn [negb].
  2:{ rewrite M_bind_eq, fail_run by by apply Href. apply refused_simulated; [done|done|by apply Href]. }
  rewrite M_bind_eq. cbn [mret M_ret]. rewrite M_bind_eq, transition_run by by rewrite Hst.
  pose proof Hs as (evs & recs & found & [_ _ _ _ _ [_ Hphase]]). destruct (Hphase Hst) as [Hlen Hfi].
  destruct (ts_provider_runs s) as [|run1 [|]] eqn:Hruns; try done.
  unfold last_run in Hprev. rewrite Hruns in Hprev. injection Hprev as <-.
  assert (text_field run1 "normalized_task_hash" h) as Hh1.
  { apply dict_item_ok in Hph. destruct previous_hash; try done. cbn in Hsame. apply String.eqb_eq in Hsame.
    by rewrite Hsame in Hph. }
  set (s1 := moved "ACTIVE_ON_FALLBACK" _ s).
  assert (simulated s1) as Hs1.
  { apply sim_moved_on'; [done|done|by rewrite Hst|done|by apply phase_other]. }
  rewrite M_bind_eq. destruct (run_provider_cases h p s1) as [[e ->]|(output & run & -> & Ho & Hrun)]; [done|].
  apply (fallback_outcome p); [done| |done| |done].
  - apply sim_ran with h; try done.
    + cbn. rewrite Hruns. cbn. lia.
    + subst h. auto with py.
    + cbn. rewrite Hruns. by intros r ->%list_elem_of_singleton.
  - cbn. by rewrite Hruns.
Qed.

(** *** Verification *)
Lemma dict_get_del_ne d k k' : k <> k' -> dict_get (dict_del d k) k' = dict_get d k'.
Proof.
  intros Hne. induction d as [|[k0 v] d IH]; [done|]. cbn. destruct (String.eqb k0 k) eqn:E.
  - apply String.eqb_eq in E as ->. by rewrite (proj2 (String.eqb_neq _ _) Hne).
  - cbn. by rewrite IH.
Qed.

Lemma with_status_fields f id status : text_field f "finding_id" id ->
  text_field (with_status f status) "finding_id" id /\ text_field (with_status f status) "status" status.
Proof.
  intros H. unfold text_field, with_status, seal. rewrite !dict_get_set_ne by done. split.
  - by rewrite dict_get_del_ne.
  - by rewrite dict_get_set.
Qed.

(** Changes of the finding and its verification, with the mark of a verification. *)
Lemma sim_verified v f id result s : simulated s -> ts_state s = "VERIFYING" ->
  ts_finding s = Some f -> ts_verification s = None -> text_field f "finding_id" id ->
  mem result ["REPRODUCED"; "NOT_REPRODUCED"] = true ->
  text_field v "finding_id" id -> text_field v "verification_id" "verification:1" -> text_field v "result" result ->
  simulated (appended "VERIFICATION_RECORDED" v (set_finding (with_status f result) (set_verification v s))).
Proof.
  intros (evs & recs & found & Hs) Hst Hf Hv Hid Hres Hv1 Hv2 Hv3.
  pose proof Hs as [_ _ _ [Hr Hfail Hfi Hstart] Hah _]. rewrite Hf, Hv in Hfi.
  destruct found as [f0|]; [|done]. destruct Hfi as (id' & status & Hid' & Hid0 & _ & _).
  unfold text_field in Hid, Hid'. rewrite Hid in Hid'. injection Hid' as <-.
  eexists _, recs, (Some f0). eapply sim_appended; [exact Hs|done|done|by left| | |done|by apply phase_other; cbn; rewrite Hst].
  - cbn [ts_provider_runs ts_verification set_finding set_verification]. rewrite Hv. unfold marks. cbn [opt_mark].
    rewrite app_nil_r, <- !app_assoc. done.
  - cbn [ts_provider_runs ts_verification ts_failover_record ts_finding ts_scope set_finding set_verification].
    destruct (with_status_fields f id result Hid) as [? ?].
    constructor; [done|done| |intros Hn; apply Hstart in Hn; congruence].
    exists id, result. split_and!; try done. exists result. split_and!; try done. by left.
Qed.

Lemma sim_confirmed f v id s : simulated s -> ts_state s = "VERIFYING" -> ts_finding s = Some f ->
  ts_verification s = Some v -> text_field v "result" "REPRODUCED" -> text_field f "finding_id" id ->
  simulated (set_finding (with_status f "CONFIRMED") s).
Proof.
  intros (evs & recs & found & Hs) Hst Hf Hv Hres Hid.
  pose proof Hs as [Hd Ht Hm [Hr Hfail Hfi Hstart] Hah Hph]. rewrite Hf, Hv in Hfi.
  destruct found as [f0|]; [|done]. destruct Hfi as (id' & status & Hid' & Hid0 & _ & result & ? & ? & Hres' & _ & _).
  unfold text_field in Hid, Hid', Hres, Hres'. rewrite Hid in Hid'. injection Hid' as <-.
  exists evs, recs, (Some f0). constructor; try done.
  - destruct (with_status_fields f id "CONFIRMED" Hid) as [? ?].
    constructor; [done|done| |intros Hn; apply Hstart in Hn; congruence]. cbn. rewrite Hv.
    exists id, "CONFIRMED". split_and!; try done. exists "REPRODUCED". split_and!; try done. by right.
  - apply phase_other. cbn. by rewrite Hst.
Qed.

(** The identifier of a finding on record. *)
Lemma finding_id s f : simulated s -> ts_finding s = Some f -> exists id, text_field f "finding_id" id.
Proof.
  intros (evs & recs & found & [_ _ _ [_ _ Hfi _] _ _]) Hf. rewrite Hf in Hfi.
  destruct found; [|done]. destruct Hfi as (id & _ & Hid & _). by exists id.
Qed.

Lemma verify_simulated reproduced s : simulated s -> simulated (snd (verify reproduced s)).
Proof.
  intros Hs. unfold verify. M_go. unfold trcp_if, raise_if.
  destruct (ts_verification s) eqn:Hv; [done|]. cbn [is_Some_b]. M_go.
  destruct (String.eqb (ts_state s) "VERIFYING") eqn:Hst; [|done]. apply String.eqb_eq in Hst. cbn [negb]. M_go.
  destruct (ts_finding s) as [f|] eqn:Hf.
  - destruct (finding_id s f Hs Hf) as [id Hid]. rewrite M_lift, (proj2 (dict_item_ok _ _ _) Hid). M_go.
    set (result := if reproduced then _ else _). set (v := verification_of s _ result).
    rewrite M_bind_eq, trcp_append_run. rewrite M_bind_eq, trcp_append_run.
    set (s2 := appended "FINDING_STATUS_UPDATED" _ _).
    assert (simulated s2 /\ ts_state s2 = "VERIFYING") as [Hs2 Hst2].
    { split; [|exact Hst]. apply sim_noted'; [|done].
      apply (sim_verified v f id result s); try done. by destruct reproduced. }
    destruct reproduced; cbn [negb]; [done|].
    rewrite M_bind_eq, transition_run by by rewrite Hst2. cbn [snd mret M_ret].
    apply sim_moved_on'; [done|by rewrite Hst2|by rewrite Hst2|done|by apply phase_other].
  - rewrite M_bind_eq, transition_run by by rewrite Hst. cbn [snd mret M_ret].
    apply sim_moved_on'; [done|by rewrite Hst|by rewrite Hst|done|by apply phase_other].
Qed.

Lemma confirm_simulated s : simulated s -> simulated (snd (confirm_finding s)).
Proof.
  intros Hs. unfold confirm_finding. M_go. destruct (ts_finding s) as [f|] eqn:Hf; [|done].
  apply lift_simulated; [done|intros result Hres]. unfold trcp_if, raise_if.
  destruct (is_str result "REPRODUCED") eqn:Hr; [|done]. cbn [negb]. M_go.
  destruct (String.eqb (ts_state s) "VERIFYING") eqn:Hst; [|done]. apply String.eqb_eq in Hst. cbn [negb]. M_go.
  destruct (ts_verification s) as [v|] eqn:Hv; [|by injection Hres as <-].
  apply dict_item_ok in Hres. destruct result as [| | |result| |]; try done. apply String.eqb_eq in Hr as ->.
  destruct (finding_id s f Hs Hf) as [id Hid]. rewrite (proj2 (dict_item_ok _ _ _) Hid). M_go.
  rewrite M_bind_eq, trcp_append_run. set (s2 := appended "FINDING_STATUS_UPDATED" _ _).
  assert (simulated s2 /\ ts_state s2 = "VERIFYING") as [Hs2 Hst2].
  { split; [|exact Hst]. apply sim_noted'; [|done]. by apply (sim_confirmed f v id). }
  rewrite transition_run by by rewrite Hst2. cbn [snd].
  apply sim_moved_on'; [done|by rewrite Hst2|by rewrite Hst2|done|by apply phase_other].
Qed.

(** *** Reachable simulators *)
Lemma step_simulated s s' : trcp_step s s' -> simulated s -> simulated s'.
Proof.
  intros [] Hs; auto using advance_simulated, authorize_simulated, primary_simulated, failover_simulated,
    fallback_simulated, verify_simulated, confirm_simulated.
Qed.

Lemma init_simulated authorization scope now : simulated (TRCPSimulator_init authorization scope now).
Proof.
  exists [next_event "SIMULATOR_CREATED" [("state", JStr "NEW")] (new_simulator authorization scope now)], [], None.
  constructor; try done.
  - constructor; [done| |repeat constructor|apply Forall_singleton, Z.le_refl|by eexists _, _| |].
    + by intros i e [-> <-]%list_lookup_singleton_Some.
    + apply walk_nil.
    + by intros e ->%list_elem_of_singleton.
  - constructor; [|split; [done|apply Nat.le_0_l]|done|done]. split; [apply Nat.le_0_l|]. exists ZERO_SHA256. split; [auto with py|done].
Qed.

Lemma reachable_simulated authorization scope now s :
  star trcp_step (TRCPSimulator_init authorization scope now) s -> simulated s.
Proof.
  intros H. assert (simulated (TRCPSimulator_init authorization scope now)) as Hi by apply init_simulated.
  induction H as [|s1 s2 s3 _ IH Hstep]; [done|]. eapply step_simulated; [done|]. by apply IH.
Qed.

(** *** What the host authorized is fixed *)
Definition same_grant s s' : Prop :=
  ts_initial_scope s' = ts_initial_scope s /\ ts_authorization s' = ts_authorization s.

#[local] Instance same_grant_preorder : PreOrder same_grant.
Proof. split; [by intros s|]. intros s1 s2 s3 [] []. split; congruence. Qed.

Ltac grant_go :=
  repeat first
    [ progress intros
    | apply evolves_bind; [typeclasses eauto| |]
    | apply evolves_ret; typeclasses eauto
    | apply evolves_lift; typeclasses eauto
    | apply evolves_raise; typeclasses eauto
    | apply evolves_get; typeclasses eauto
    | apply evolves_modify; by split
    | match goal with |- evolves _ (match ?x with _ => _ end) => destruct x end
    | progress unfold _append, _transition, checked, _fail_failover, check_failover, run_provider,
        _capture_finding, advance_time, authorize, execute_primary, record_failover, execute_fallback,
        verify, confirm_finding ].

Lemma step_same_grant s s' : trcp_step s s' -> same_grant s s'.
Proof.
  assert (forall A (m : M TRCPSimulator A) s0, evolves same_grant m -> same_grant s0 (snd (m s0))) as Hm
    by (intros A m s0 H; apply H).
  intros []; apply Hm; grant_go.
Qed.

Lemma same_grant_steps s s' : star trcp_step s s' -> same_grant s s'.
Proof.
  induction 1 as [|s1 s2 s3 _ IH Hstep]; [reflexivity|]. etrans; [exact IH|by apply step_same_grant].
Qed.

(** *** States that nothing leaves *)
Definition idle (state : string) : Prop :=
  mem state ["NEW"; "AUTHORIZED"; "FAILOVER_PENDING"; "VERIFYING"] = false.

Lemma idle_not state st : idle state -> mem st ["NEW"; "AUTHORIZED"; "FAILOVER_PENDING"; "VERIFYING"] = true ->
  String.eqb state st = false.
Proof. intros Hi Hm. apply String.eqb_neq. intros ->. unfold idle in Hi. congruence. Qed.

(** In such a state only the clock moves on. *)
Lemma idle_step s s' : idle (ts_state s) -> trcp_step s s' -> s' = s \/ exists n, s' = snd (advance_time n s).
Proof.
  intros Hi Hstep. revert Hi. destruct Hstep as [n s|s|task p s|p o s|task p s|r s|s]; intros Hi;
    [by right; eexists|..]; left.
  - unfold authorize. M_go. by rewrite (idle_not _ "NEW" Hi eq_refl).
  - unfold execute_primary. M_go. by rewrite (idle_not _ "AUTHORIZED" Hi eq_refl).
  - unfold record_failover. M_go. by rewrite (idle_not _ "FAILOVER_PENDING" Hi eq_refl).
  - unfold execute_fallback. M_go. by rewrite (idle_not _ "FAILOVER_PENDING" Hi eq_refl).
  - unfold verify. M_go. destruct (ts_verification s); [done|]. cbn [is_Some_b trcp_if raise_if]. M_go.
    by rewrite (idle_not _ "VERIFYING" Hi eq_refl).
  - unfold confirm_finding. M_go. destruct (ts_finding s); [|done]. rewrite M_lift.
    destruct (match ts_verification s with Some v => _ | None => _ end) as [result|]; [|done].
    unfold trcp_if, raise_if. destruct (is_str result "REPRODUCED"); [|done]. cbn [negb]. M_go.
    by rewrite (idle_not _ "VERIFYING" Hi eq_refl).
Qed.

(** What the calls of a simulator in such a state leave as it is. *)
Record same_record s s' : Prop := {
  sr_state : ts_state s' = ts_state s;
  sr_scope : ts_scope s' = ts_scope s;
  sr_runs : ts_provider_runs s' = ts_provider_runs s;
  sr_failover : ts_failover_record s' = ts_failover_record s;
  sr_finding : ts_finding s' = ts_finding s;
  sr_verification : ts_verification s' = ts_verification s
}.

Lemma idle_steps s s' : star trcp_step s s' -> idle (ts_state s) -> same_record s s'.
Proof.
  intros H Hi. induction H as [s|s1 s2 s3 _ IH Hstep]; [by constructor|]. specialize (IH Hi).
  destruct IH as [E1 E2 E3 E4 E5 E6]. destruct (idle_step s2 s3) as [->|(n & ->)]; [by rewrite E1|done|by constructor|].
  unfold advance_time, trcp_if, raise_if. M_go. destruct (n <? _); [by constructor|]. M_go. rewrite trcp_append_run.
  by constructor.
Qed.

(** *** Order on the trace *)
Lemma omap_split {A B} (f : A -> option B) l a y b : omap f l = a ++ y :: b ->
  exists l1 x l2, l = l1 ++ x :: l2 /\ f x = Some y /\ omap f l1 = a /\ omap f l2 = b.
Proof.
  revert a. induction l as [|x l IH]; intros a; cbn [omap list_omap]; [by destruct a|].
  destruct (f x) as [y'|] eqn:Hx.
  - destruct a as [|y0 a]; cbn; intros [= <- H].
    + by exists [], x, l.
    + destruct (IH a H) as (l1 & x' & l2 & -> & ? & <- & ?). exists (x :: l1), x', l2. cbn. by rewrite Hx.
  - intros H. destruct (IH a H) as (l1 & x' & l2 & -> & ? & <- & ?). exists (x :: l1), x', l2. cbn. by rewrite Hx.
Qed.

(** [d'] is on the trace, and [d] before it. *)
Definition recorded_before (trace : list dict) (kind : string) (d : dict) (kind' : string) (d' : dict) : Prop :=
  exists i j e e', (i < j)%nat /\ trace !! i = Some e /\ trace !! j = Some e'
    /\ text_field e "kind" kind /\ dict_get e "payload" = Some (JObj d)
    /\ text_field e' "kind" kind' /\ dict_get e' "payload" = Some (JObj d').

Lemma mark_document e kind d : mark_of e = Some (kind, d) ->
  text_field (event_document e) "kind" kind /\ dict_get (event_document e) "payload" = Some (JObj d).
Proof. unfold mark_of. destruct (marked e); [|done]. by intros [= <- <-]. Qed.

Lemma marks_before s evs recs found kind d kind' d' a b c : sim_ok s evs recs found ->
  marks (ts_provider_runs s) recs found (ts_verification s) = a ++ (kind, d) :: b ++ (kind', d') :: c ->
  recorded_before (ts_trace s) kind d kind' d'.
Proof.
  intros [Hd _ Hm _ _ _] E. rewrite E in Hm.
  destruct (omap_split _ _ _ _ _ Hm) as (l1 & e & l2 & -> & He & _ & Hb).
  destruct (omap_split _ _ _ _ _ Hb) as (l3 & e' & l4 & -> & He' & _ & _).
  destruct (mark_document _ _ _ He) as [? ?], (mark_document _ _ _ He') as [? ?].
  exists (length l1), (length l1 + S (length l3))%nat, (event_document e), (event_document e').
  rewrite Hd. split; [lia|]. rewrite !list_lookup_fmap. split_and!; try done.
  - by rewrite list_lookup_middle.
  - rewrite lookup_app_r by lia. replace (length l1 + S (length l3) - length l1)%nat with (S (length l3)) by lia.
    by rewrite (list_lookup_middle (e :: l3) l4 e').
Qed.

(** The scope grants nothing beyond what [parent] grants, field by field. *)
Record scope_inside (sc parent : ScopeEnvelope) : Prop := {
  si_authorization : sc_authorization_id sc = sc_authorization_id parent;
  si_targets x : x ∈ sc_allowed_targets sc -> x ∈ sc_allowed_targets parent;
  si_actions x : x ∈ sc_allowed_actions sc -> x ∈ sc_allowed_actions parent;
  si_environments x : x ∈ sc_allowed_environments sc -> x ∈ sc_allowed_environments parent;
  si_prohibited x : x ∈ sc_prohibited_actions parent -> x ∈ sc_prohibited_actions sc;
  si_data : sc_data_handling_class sc = sc_data_handling_class parent;
  si_network : sc_network_mode sc = "LOCAL_ONLY" /\ sc_network_mode parent = "LOCAL_ONLY";
  si_expires : sc_expires_at sc <= sc_expires_at parent
}.

Lemma narrower_inside sc parent : narrower sc parent -> scope_inside sc parent.
Proof. intros (? & ? & ? & ? & ? & ? & ? & ? & ?)%narrower_spec. by constructor. Qed.

Lemma common_nil a b x : common a b = [] -> x ∈ a -> x ∉ b.
Proof.
  intros H Ha Hb. assert (x ∈ common a b) as Hx; [|rewrite H in Hx; by apply not_elem_of_nil in Hx].
  unfold common. apply list_elem_of_In, List.filter_In. split; [by apply list_elem_of_In|by apply mem_true].
Qed.

(** What a provider change may not touch. *)
Record continuity s : Prop := {
  cn_scope : scope_inside (ts_scope s) (ts_initial_scope s);
  cn_authorization : sc_authorization_id (ts_scope s) = au_authorization_id (ts_authorization s);
  cn_allowed x : x ∈ sc_allowed_actions (ts_scope s) -> x ∉ sc_prohibited_actions (ts_scope s);
  cn_runs : exists h, forall r, r ∈ ts_provider_runs s -> text_field r "normalized_task_hash" h;
  cn_fallback : forall r1 r2 rest, ts_provider_runs s = r1 :: r2 :: rest -> rest = [] /\ exists record,
    ts_failover_record s = Some record /\ text_field record "previous_run_id" "run:1"
    /\ text_field record "scope_id" (sc_scope_id (ts_scope s))
    /\ recorded_before (ts_trace s) "FAILOVER_DECISION_RECORDED" record "PROVIDER_RUN_RECORDED" r2;
  cn_confirmed : forall f, ts_finding s = Some f -> text_field f "status" "CONFIRMED" -> exists v f0 id,
    ts_verification s = Some v /\ text_field v "result" "REPRODUCED" /\ text_field v "finding_id" id
    /\ text_field f "finding_id" id /\ text_field f0 "finding_id" id
    /\ recorded_before (ts_trace s) "FINDING_RECORDED" f0 "VERIFICATION_RECORDED" v
}.

Lemma simulated_continuity s : simulated s -> ts_state s <> "NEW" -> continuity s.
Proof.
  intros (evs & recs & found & Hs) Hst. pose proof Hs as [_ _ _ [[Hl (h & _ & Hr)] Hfo Hfi _] [_ Ha] _].
  destruct (Ha Hst) as (_ & _ & [Hida Hok] & Hn).
  constructor; [by apply narrower_inside|done|intros x; by apply common_nil| | |].
  - exists h. intros r Hin. apply list_elem_of_lookup in Hin as [i Hi]. by apply (Hr i).
  - intros r1 r2 rest Hruns. rewrite Hruns in Hl, Hfo. destruct rest; [|cbn in Hl; lia]. split; [done|].
    destruct (ts_failover_record s) as [record|]; [|cbn in Hfo; lia]. exists record.
    destruct Hfo as (Hlast & _ & Hp & Hid). split_and!; try done.
    apply last_Some in Hlast as [recs' ->].
    eapply (marks_before s evs _ found _ _ _ _ (run_mark r1 :: map failover_mark recs') []); [done|].
    rewrite Hruns. unfold marks. cbn [map]. rewrite map_app. cbn. by rewrite <- !app_assoc.
  - intros f Hf Hc. rewrite Hf in Hfi. destruct found as [f0|]; [|done].
    destruct Hfi as (id & status & Hid & Hid0 & Hstat & Hv).
    unfold text_field in Hc, Hstat. rewrite Hc in Hstat. injection Hstat as <-.
    destruct (ts_verification s) as [v|] eqn:Ev; [|done]. destruct Hv as (result & Hvid & _ & Hres & Hor & Hmem).
    assert (result = "REPRODUCED") as ->.
    { by destruct Hor as [<-|[_ ?]]. }
    exists v, f0, id. split_and!; try done.
    eapply (marks_before s evs recs (Some f0) _ _ _ _ _ []); [done|]. rewrite Ev. unfold marks. cbn [opt_mark app]. reflexivity.
Qed.
End lemmas.

(** ** Examples *)
#[local] Existing Instance checksum_digest.

Definition default_simulator : TRCPSimulator := TRCPSimulator_init default_authorization default_scope 1000.

Definition after_primary : TRCPSimulator :=
  snd (execute_primary default_task default_primary (snd (authorize default_simulator))).

Definition after_fallback : TRCPSimulator :=
  snd (execute_fallback default_task default_fallback
    (snd (record_failover default_fallback default_failover after_primary))).

Definition default_confirmed : TRCPSimulator := snd (confirm_finding (snd (verify true after_fallback))).

Example default_states :
  (ts_state after_primary, ts_state after_fallback, ts_state default_confirmed)
  = ("FAILOVER_PENDING", "VERIFYING", "CLOSED").
Proof. vm_compute. reflexivity. Qed.

Lemma default_reachable : star trcp_step default_simulator default_confirmed.
Proof.
  eapply star_step; [|apply (step_confirm (snd (verify true after_fallback)))].
  eapply star_step; [|apply (step_verify true after_fallback)].
  unfold after_fallback. eapply star_step; [|apply (step_fallback default_task default_fallback
    (snd (record_failover default_fallback default_failover after_primary)))].
  eapply star_step; [|apply (step_failover default_fallback default_failover after_primary)].
  unfold after_primary. eapply star_step; [|apply (step_primary default_task default_primary (snd (authorize default_simulator)))].
  eapply star_step; [|apply (step_authorize default_simulator)]. apply star_refl.
Qed.

(** A provider whose finding lacks a required field. *)
Definition careless_primary : MockProvider := {|
  mp_provider_id := "provider:A"; mp_model_id := "mock-model-a"; mp_outcome := "COMPLETED";
  mp_synthetic_finding := Some [("summary", JStr "no class, no location")]; mp_provider_metadata := None |}.

Definition stranded : result dict * TRCPSimulator :=
  execute_primary default_task careless_primary (snd (authorize default_simulator)).

(** The run of that provider raises with the simulator in ACTIVE, and nothing ever leaves
    it there: not even the transition to ABORTED that the table allows. *)
Theorem careless_provider_strands :
  fst stranded = fail TRCPError "synthetic finding is missing required normalized fields"
  /\ forall s, star trcp_step (snd stranded) s -> ts_state s = "ACTIVE".
Proof.
  split; [vm_compute; reflexivity|]. intros s Hs.
  assert (ts_state (snd stranded) = "ACTIVE") as Hst by (vm_compute; reflexivity).
  destruct (idle_steps _ _ Hs) as [-> _ _ _ _ _]; [by rewrite Hst|done].
Qed.

(** ** Properties *)

(** C17: a change of provider keeps the authority it started with. In every state a host can
    bring an authorized simulator to, the authorization and the initial scope are the ones
    the simulator was made with; the effective scope is for that authorization, allows no
    action it prohibits, lists no target, action or environment that the initial scope does
    not, keeps every prohibition, the data class and local-only mode, and ends no later; all
    runs are of one task; a second run is the last
    and was preceded on the trace by a failover decision that names the first run and the
    effective scope; a finding is CONFIRMED only with a verification on record that
    reproduced that finding, after it was recorded. *)
Theorem trcp_authority_kept `{hash : Digest} (authorization : AuthorizationRecord) (scope : ScopeEnvelope)
    (now : Z) (s : TRCPSimulator)
    (Hreach : star trcp_step (TRCPSimulator_init authorization scope now) s)
    (Hstarted : ts_state s <> "NEW") :
  continuity s /\ ts_initial_scope s = scope /\ ts_authorization s = authorization.
Proof.
  split; [apply simulated_continuity; [by eapply reachable_simulated|done]|].
  by destruct (same_grant_steps _ _ Hreach) as [-> ->].
Qed.

Lemma trcp_authority_kept_witness :
  star trcp_step default_simulator default_confirmed /\ ts_state default_confirmed = "CLOSED"
  /\ continuity default_confirmed /\ ts_initial_scope default_confirmed = default_scope
  /\ ts_authorization default_confirmed = default_authorization.
Proof.
  assert (ts_state default_confirmed = "CLOSED") as Hst by (vm_compute; reflexivity).
  split; [exact default_reachable|]. split; [exact Hst|].
  apply (@trcp_authority_kept checksum_digest default_authorization default_scope 1000 default_confirmed
    default_reachable). rewrite Hst. discriminate.
Defined.
