(* ===== verification/TrcpReplay.v ===== *)
(** * TRCP evidence and replay (sdk/liminal_trcp/evidence.py and replay.py)

    The evidence bundle built from a report and the verifier that checks a bundle without
    the simulator. Both read untrusted documents with [.get] on whatever value they find,
    so the dynamic operations of Python on JSON values come first, with their errors; only
    documents with floats are outside the model.

    Three groups of theorems: the receipt is a function of the fourteen checks and fails
    closed; a PASS says what the document shows; and the bundle of a reachable simulator
    passes every check but those on its end and on the workload. *)
From S2P Require Import Prelude PyStr Json Digest Contracts Trcp.
From Stdlib Require Import Ascii.
#[local] Open Scope Z_scope.

(** ** Dynamic operations *)

(** The texts Python leaves to the interpreter: [repr] and [str] of an exception. *)
Class PyText := { py_repr : json -> string; exc_text : exn -> string }.

Definition type_name (v : json) : string :=
  match v with
  | JNull => "NoneType" | JBool _ => "bool" | JInt _ => "int" | JStr _ => "str"
  | JList _ => "list" | JObj _ => "dict"
  end.

(** [f"{v}"]. *)
Definition py_str `{PyText} (v : json) : string :=
  match v with
  | JStr s => s
  | JInt n => pretty n
  | JNull => "None"
  | JBool b => if b then "True" else "False"
  | v => py_repr v
  end.

(** [bool(v)]. *)
Definition truthy (v : json) : bool :=
  match v with
  | JNull => false
  | JBool b => b
  | JInt n => negb (n =? 0)
  | JStr s => negb (String.eqb s "")
  | JList l => negb (bool_decide (length l = 0)%nat)
  | JObj d => negb (bool_decide (length d = 0)%nat)
  end.

(** [v or default]. *)
Definition py_or (v default : json) : json := if truthy v then v else default.

(** [v.get(key, default)]. *)
Definition attr_get (v : json) (key : string) (default : json) : result json :=
  match v with
  | JObj d => Ok (dict_get_or d key default)
  | v => fail AttributeError ("'" +:+ type_name v +:+ "' object has no attribute 'get'")
  end.

(** [iter(v)]. *)
Definition py_iter (v : json) : result (list json) :=
  match v with
  | JList l => Ok l
  | JStr s => Ok (map JStr (py_chars s))
  | JObj d => Ok (map JStr (dict_keys d))
  | v => fail TypeError ("'" +:+ type_name v +:+ "' object is not iterable")
  end.

(** [len(v)]. *)
Definition py_length (v : json) : result Z :=
  match v with
  | JList l => Ok (Z.of_nat (length l))
  | JStr s => Ok (py_len s)
  | JObj d => Ok (Z.of_nat (length d))
  | v => fail TypeError ("object of type '" +:+ type_name v +:+ "' has no len()")
  end.

(** A list or string as a sequence; subscripting anything else raises. *)
Definition py_sequence (v : json) : result (list json) :=
  match v with
  | JList l => Ok l
  | JStr s => Ok (map JStr (py_chars s))
  | JObj _ => fail KeyError "subscript"
  | v => fail TypeError ("'" +:+ type_name v +:+ "' object is not subscriptable")
  end.

(** [v[0]] and [v[-1]]. *)
Definition py_first (v : json) : result json :=
  l ← py_sequence v;
  match l with x :: _ => Ok x | [] => fail (HostException "IndexError") "list index out of range" end.

Definition py_last (v : json) : result json :=
  l ← py_sequence v;
  match last l with Some x => Ok x | None => fail (HostException "IndexError") "list index out of range" end.

(** The elements of [v[1:]]. *)
Definition py_rest (v : json) : result (list json) := l ← py_sequence v; Ok (tail l).

(** [hash(v)]. *)
Definition py_hash (v : json) : result unit :=
  match v with
  | JList _ | JObj _ => fail TypeError ("unhashable type: '" +:+ type_name v +:+ "'")
  | _ => Ok tt
  end.

Definition py_in (v : json) (l : list json) : bool := existsb (py_eq v) l.

(** [v in s] for a set [s]. *)
Definition in_set (v : json) (s : list json) : result bool := _ ← py_hash v; Ok (py_in v s).

(** [v in s] for a set of strings. *)
Definition in_strings (v : json) (s : list string) : result bool := _ ← py_hash v; Ok (value_in v s).

(** The elements of [l] that equal none before them, nor one of [seen]. *)
Fixpoint dedup (seen l : list json) : list json :=
  match l with
  | [] => []
  | x :: l' => if py_in x seen then dedup seen l' else x :: dedup (x :: seen) l'
  end.

(** [set(l)]. *)
Definition py_set (l : list json) : result (list json) := _ ← map_r py_hash l; Ok (dedup [] l).

Definition is_number (v : json) : bool := match v with JInt _ | JBool _ => true | _ => false end.

Definition is_dict (v : json) : bool := match v with JObj _ => true | _ => false end.

Definition is_none (v : json) : bool := match v with JNull => true | _ => false end.

(** [any(p(x) for x in l)], stopping at the first hit. *)
Fixpoint any_r {A} (p : A -> result bool) (l : list A) : result bool :=
  match l with
  | [] => Ok false
  | x :: l' => b ← p x; if b : bool then Ok true else any_r p l'
  end.

(** [d.get(key) or default] of the bundle itself. *)
Definition field_or (d : dict) (key : string) (default : json) : json :=
  py_or (dict_get_none d key) default.

(** ** The evidence bundle *)
Definition BUNDLE_SCHEMA : string := "liminal-trcp-evidence-v0.2".

(** The edges so far and [last_node]. *)
Record Lineage := { li_edges : list json; li_last : option string }.

Definition _stable_edge_id (from_node to_node : string) (seq : Z) : string :=
  "edge:" +:+ pretty seq +:+ ":" +:+ from_node +:+ "->" +:+ to_node.

Definition add_edge (from_node to_node relation evidence_ref : string) (l : Lineage) : Lineage := {|
  li_edges := li_edges l ++
    [JObj [("edge_id", JStr (_stable_edge_id from_node to_node (Z.of_nat (length (li_edges l)) + 1)));
           ("from", JStr from_node); ("to", JStr to_node); ("relation", JStr relation);
           ("evidence_ref", JStr evidence_ref)]];
  li_last := Some to_node |}.

(** [last_node == node]. *)
Definition last_is (l : Lineage) (node : string) : bool :=
  match li_last l with Some n => String.eqb n node | None => false end.

Section replay.
Context {hash : Digest} {text : PyText}.

Definition _build_causal_lineage (report : dict) : result (list json) :=
  auth ← dict_item report "authorization";
  auth_ref ← attr_get auth "authorization_id" (JStr "unknown");
  let l := add_edge "AUTHORIZATION" "PRIMARY_RUN" "AUTHORIZES" ("ref:" +:+ py_str auth_ref)
             {| li_edges := []; li_last := None |} in
  let provider_runs := field_or report "provider_runs" (JList []) in
  let failover := dict_get_none report "failover_decision" in
  l ← (if truthy provider_runs && negb (is_none failover) then
         primary ← py_first provider_runs;
         primary_ref ← attr_get primary "record_sha256" (JStr "unknown");
         Ok (add_edge "PRIMARY_RUN" "PROVIDER_FAILURE" "CAUSES" ("sha256:" +:+ py_str primary_ref) l)
       else Ok l);
  l ← (if negb (is_none failover) && last_is l "PROVIDER_FAILURE" then
         failover_ref ← attr_get failover "record_sha256" (JStr "unknown");
         scope_id ← attr_get failover "scope_id" (JStr "unknown");
         Ok (add_edge "FAILOVER_DECISION" "EFFECTIVE_SCOPE" "CONSTRAINS" ("ref:" +:+ py_str scope_id)
               (add_edge "PROVIDER_FAILURE" "FAILOVER_DECISION" "CAUSES" ("sha256:" +:+ py_str failover_ref) l))
       else Ok l);
  l ← (if negb (is_none failover) then
         n ← py_length provider_runs;
         if 2 <=? n then
           fallback ← py_last provider_runs;
           fallback_ref ← attr_get fallback "record_sha256" (JStr "unknown");
           Ok (add_edge "EFFECTIVE_SCOPE" "FALLBACK_RUN" "AUTHORIZES" ("sha256:" +:+ py_str fallback_ref) l)
         else Ok l
       else Ok l);
  let finding := dict_get_none report "finding" in
  l ← (match li_last l with
       | Some node =>
           if negb (is_none finding) then
             finding_ref ← attr_get finding "record_sha256" (JStr "unknown");
             Ok (add_edge node "FINDING" "CAUSES" ("sha256:" +:+ py_str finding_ref) l)
           else Ok l
       | None => Ok l
       end);
  let verification := dict_get_none report "verification" in
  if negb (is_none verification) && last_is l "FINDING" then
    verification_ref ← attr_get verification "record_sha256" (JStr "unknown");
    Ok (li_edges
      (add_edge "VERIFICATION" "CLOSED" "VERIFIES" ("sha256:" +:+ py_str verification_ref)
        (add_edge "FINDING" "VERIFICATION" "CAUSES" ("sha256:" +:+ py_str verification_ref) l)))
  else if negb (is_none finding) && last_is l "FINDING" then
    Ok (li_edges (add_edge "FINDING" "CLOSED" "CAUSES" "ref:no-verification" l))
  else
    Ok (match li_last l with
        | Some node => li_edges (add_edge node "CLOSED" "CAUSES" "ref:terminus" l)
        | None => li_edges l
        end).

(** The body of the bundle before its lineage is known. *)
Definition bundle_body (report : dict) (consumer_evidence : option dict) : dict :=
  [("schema", JStr BUNDLE_SCHEMA);
   ("source_report_sha256", dict_get_or report "report_sha256" (JStr ""));
   ("authorization", field_or report "authorization" (JObj []));
   ("initial_scope", field_or report "initial_scope" (JObj []));
   ("effective_scope", field_or report "scope" (JObj []));
   ("provider_runs", field_or report "provider_runs" (JList []));
   ("failover_decision", dict_get_none report "failover_record");
   ("finding", dict_get_none report "finding");
   ("verification", dict_get_none report "verification");
   ("trace", field_or report "trace" (JList [])); ("causal_lineage", JList [])]
  ++ match consumer_evidence with Some e => [("consumer_evidence", JObj e)] | None => [] end.

Definition build_evidence_bundle (report : dict) (consumer_evidence : option dict) : result dict :=
  let body := bundle_body report consumer_evidence in
  lineage ← _build_causal_lineage body;
  Ok (seal "bundle_sha256" (dict_set body "causal_lineage" (JList lineage))).

(** ** The checks *)
Definition RECEIPT_SCHEMA : string := "liminal-trcp-replay-receipt-v0.2".

Definition ALLOWED_TRANSITIONS : list (string * list string) :=
  [("NEW", ["AUTHORIZED"]);
   ("AUTHORIZED", ["ACTIVE"; "AUTH_EXPIRED"; "SCOPE_INVALID"]);
   ("ACTIVE", ["VERIFYING"; "DEGRADED"; "ABORTED"]);
   ("DEGRADED", ["FAILOVER_PENDING"]);
   ("FAILOVER_PENDING",
      ["ACTIVE_ON_FALLBACK"; "AUTH_EXPIRED"; "SCOPE_INVALID"; "HUMAN_REVIEW_REQUIRED"; "ABORTED"]);
   ("ACTIVE_ON_FALLBACK", ["VERIFYING"; "AUTH_EXPIRED"; "SCOPE_INVALID"; "ABORTED"]);
   ("VERIFYING", ["CLOSED"]);
   ("AUTH_EXPIRED", []); ("SCOPE_INVALID", []); ("HUMAN_REVIEW_REQUIRED", []); ("ABORTED", []);
   ("CLOSED", [])].

Definition TERMINAL_STATES : list string :=
  ["AUTH_EXPIRED"; "SCOPE_INVALID"; "HUMAN_REVIEW_REQUIRED"; "ABORTED"; "CLOSED"].

Record CheckResult := { ck_check_id : string; ck_result : string; ck_detail : string }.

Definition CheckResult_as_dict (c : CheckResult) : dict :=
  [("id", JStr (ck_check_id c)); ("result", JStr (ck_result c))]
  ++ (if String.eqb (ck_detail c) "" then [] else [("detail", JStr (ck_detail c))]).

Definition passed (check_id detail : string) : result CheckResult :=
  Ok {| ck_check_id := check_id; ck_result := "PASS"; ck_detail := detail |}.
Definition failed (check_id detail : string) : result CheckResult :=
  Ok {| ck_check_id := check_id; ck_result := "FAIL"; ck_detail := detail |}.

(** [for idx, x in enumerate(l, start=idx)] over checks: the first failure ends the loop. *)
Fixpoint check_each {A} (check : Z -> A -> json -> result (CheckResult + A)) (idx : Z) (acc : A)
    (l : list json) : result (CheckResult + A) :=
  match l with
  | [] => Ok (inr acc)
  | x :: l' =>
      r ← check idx acc x;
      match r with inl c => Ok (inl c) | inr acc' => check_each check (idx + 1) acc' l' end
  end.

(** The result of such a loop, [detail] if it ended well. *)
Definition concluded {A} (check_id detail : string) (r : CheckResult + A) : result CheckResult :=
  match r with inl c => Ok c | inr _ => passed check_id detail end.

(** [return CheckResult(check_id, "FAIL", detail)] inside a loop. *)
Definition stop {A} (check_id detail : string) : result (CheckResult + A) :=
  Ok (inl {| ck_check_id := check_id; ck_result := "FAIL"; ck_detail := detail |}).

Definition _get_primary_run_id (bundle : dict) : result json :=
  let provider_runs := field_or bundle "provider_runs" (JList []) in
  if truthy provider_runs then
    primary ← py_first provider_runs;
    attr_get primary "run_id" JNull
  else Ok JNull.

Definition _check_bundle_integrity (bundle : dict) : result CheckResult :=
  let expected := dict_get_or bundle "bundle_sha256" (JStr "") in
  let actual := canonical_sha256 (JObj (dict_del bundle "bundle_sha256")) in
  if is_str expected actual then passed "BUNDLE_INTEGRITY" ""
  else failed "BUNDLE_INTEGRITY"
         ("bundle_sha256 mismatch: expected=" +:+ actual +:+ ", got=" +:+ py_str expected).

Definition chain_event (idx : Z) (previous event : json) : result (CheckResult + json) :=
  let failed_at detail := stop "TRACE_HASH_CHAIN" ("event " +:+ pretty idx +:+ ": " +:+ detail) in
  claimed_prev ← attr_get event "previous_event_sha256" (JStr "");
  if negb (py_eq claimed_prev previous) then failed_at "previous_event_sha256 mismatch"
  else
    event_hash ← attr_get event "event_sha256" (JStr "");
    let core := match event with JObj d => dict_del d "event_sha256" | _ => [] end in
    if negb (is_str event_hash (canonical_sha256 (JObj core))) then
      failed_at "event_sha256 does not match canonical hash"
    else
      claimed_sequence ← attr_get event "sequence" (JInt (-1));
      if negb (py_eq claimed_sequence (JInt idx)) then
        failed_at ("sequence discontinuity (got " +:+ py_str claimed_sequence +:+ ")")
      else Ok (inr event_hash).

Definition _check_trace_hash_chain (bundle : dict) : result CheckResult :=
  trace ← py_iter (field_or bundle "trace" (JList []));
  r ← check_each chain_event 1 (JStr ZERO_SHA256) trace;
  concluded "TRACE_HASH_CHAIN" "" r.

(** The transitions of the trace, as pairs of [from] and [to]. *)
Fixpoint transitions_of (trace : list json) : result (list (json * json)) :=
  match trace with
  | [] => Ok []
  | event :: trace' =>
      kind ← attr_get event "kind" JNull;
      if is_str kind "STATE_TRANSITION" then
        payload ← attr_get event "payload" JNull;
        let payload := py_or payload (JObj []) in
        from_state ← attr_get payload "from" (JStr "");
        to_state ← attr_get payload "to" (JStr "");
        rest ← transitions_of trace';
        Ok ((from_state, to_state) :: rest)
      else transitions_of trace'
  end.

Definition _extract_transition_sequence (bundle : dict) : result (list (json * json)) :=
  trace ← py_iter (field_or bundle "trace" (JList []));
  transitions_of trace.

(** [ALLOWED_TRANSITIONS.get(state, frozenset())]. *)
Definition allowed_from (state : json) : result (list string) :=
  _ ← py_hash state;
  Ok (match state with JStr s => table_get ALLOWED_TRANSITIONS s | _ => [] end).

Fixpoint check_path (prev_to : option json) (transitions : list (json * json)) : result CheckResult :=
  match transitions with
  | [] => passed "STATE_TRANSITION" ""
  | (from_s, to_s) :: rest =>
      if match prev_to with Some p => negb (py_eq from_s p) | None => false end then
        failed "STATE_TRANSITION" ("disconnected state chain: expected from="
          +:+ py_str (match prev_to with Some p => p | None => JNull end)
          +:+ ", got from=" +:+ py_str from_s)
      else
        allowed ← allowed_from from_s;
        legal ← in_strings to_s allowed;
        if negb legal then
          failed "STATE_TRANSITION" ("illegal transition: " +:+ py_str from_s +:+ " -> " +:+ py_str to_s)
        else check_path (Some to_s) rest
  end.

Definition _check_state_transitions (bundle : dict) : result CheckResult :=
  transitions ← _extract_transition_sequence bundle;
  match transitions with
  | [] => passed "STATE_TRANSITION" "no transitions in bundle"
  | (first_from, _) :: _ =>
      if negb (is_str first_from "NEW") then
        failed "STATE_TRANSITION" ("first transition must start from NEW, got " +:+ py_str first_from)
      else check_path None transitions
  end.

(** *** Order in the trace *)

(** [result.setdefault(kind, []).append(seq)]. *)
Fixpoint group_add (kind seq : json) (groups : list (json * list json)) : list (json * list json) :=
  match groups with
  | [] => [(kind, [seq])]
  | (k, l) :: rest => if py_eq kind k then (k, l ++ [seq]) :: rest else (k, l) :: group_add kind seq rest
  end.

(** [groups.get(kind, [])] for a constant. *)
Fixpoint group_get (groups : list (json * list json)) (kind : string) : list json :=
  match groups with
  | [] => []
  | (k, l) :: rest => if is_str k kind then l else group_get rest kind
  end.

Definition _get_trace_event_sequences (trace : list json) : result (list (json * list json)) :=
  fold_r (fun groups event =>
    kind ← attr_get event "kind" (JStr "");
    seq ← attr_get event "sequence" (JInt 0);
    _ ← py_hash kind;
    Ok (group_add kind seq groups)) [] trace.

(** [a[0] > b[0]] if both are not empty. *)
Definition first_after (a b : list json) : result bool :=
  match a, b with x :: _, y :: _ => py_lt y x | _, _ => Ok false end.

(** [{run.get("run_id") for run in provider_runs[1:]}]. *)
Definition fallback_run_ids (bundle : dict) : result (list json) :=
  runs ← py_rest (field_or bundle "provider_runs" (JList []));
  ids ← map_r (fun run => id ← attr_get run "run_id" JNull; _ ← py_hash id; Ok id) runs;
  Ok (dedup [] ids).

(** The run of a [PROVIDER_RUN_RECORDED] event is one of the fallback runs. *)
Definition records_fallback (primary_run_id : json) (fallback_ids : list json) (event : json) : result bool :=
  payload ← attr_get event "payload" JNull;
  run_id ← attr_get (py_or payload (JObj [])) "run_id" (JStr "");
  if truthy run_id && negb (py_eq run_id primary_run_id) then in_set run_id fallback_ids else Ok false.

(** [fallback_run_seqs] of [_check_causal_order]. *)
Fixpoint fallback_run_seqs (primary_run_id : json) (fallback_ids : list json) (trace : list json)
    : result (list json) :=
  match trace with
  | [] => Ok []
  | event :: trace' =>
      kind ← attr_get event "kind" JNull;
      here ← (if is_str kind "PROVIDER_RUN_RECORDED" then
                records_fallback primary_run_id fallback_ids event
              else Ok false);
      if here : bool then
        seq ← attr_get event "sequence" (JInt 0);
        rest ← fallback_run_seqs primary_run_id fallback_ids trace';
        Ok (seq :: rest)
      else fallback_run_seqs primary_run_id fallback_ids trace'
  end.

Definition _check_causal_order (bundle : dict) : result CheckResult :=
  trace ← py_iter (field_or bundle "trace" (JList []));
  event_seqs ← _get_trace_event_sequences trace;
  late ← first_after (group_get event_seqs "SIMULATOR_CREATED") (group_get event_seqs "STATE_TRANSITION");
  if late : bool then failed "CAUSAL_ORDER" "SIMULATOR_CREATED after first STATE_TRANSITION"
  else
    primary_run_id ← _get_primary_run_id bundle;
    fallback_ids ← fallback_run_ids bundle;
    fallback_seqs ← fallback_run_seqs primary_run_id fallback_ids trace;
    late ← first_after (group_get event_seqs "FAILOVER_DECISION_RECORDED") fallback_seqs;
    if late : bool then
      failed "CAUSAL_ORDER" "FAILOVER_DECISION_RECORDED after fallback PROVIDER_RUN_RECORDED"
    else
      late ← first_after (group_get event_seqs "FINDING_RECORDED")
               (group_get event_seqs "VERIFICATION_RECORDED");
      if late : bool then failed "CAUSAL_ORDER" "FINDING_RECORDED after VERIFICATION_RECORDED"
      else passed "CAUSAL_ORDER" "".

Definition timed_event (idx : Z) (prev_ts event : json) : result (CheckResult + json) :=
  let failed_at detail := stop "TEMPORAL_ORDER" ("event " +:+ pretty idx +:+ ": " +:+ detail) in
  ts ← attr_get event "observed_at_unix" JNull;
  if is_none ts then failed_at "missing observed_at_unix"
  else if negb (is_number ts) then failed_at ("non-numeric observed_at_unix (" +:+ py_repr ts +:+ ")")
  else
    back ← (if is_none prev_ts then Ok false else py_lt ts prev_ts);
    if back : bool then
      failed_at ("timestamp non-monotonic (" +:+ py_str prev_ts +:+ " -> " +:+ py_str ts +:+ ")")
    else Ok (inr ts).

Definition _check_temporal_order (bundle : dict) : result CheckResult :=
  trace ← py_iter (field_or bundle "trace" (JList []));
  r ← check_each timed_event 1 JNull trace;
  concluded "TEMPORAL_ORDER" "" r.

(** *** Authorization and scope *)
Definition _check_authorization_continuity (bundle : dict) : result CheckResult :=
  let id := "AUTHORIZATION_CONTINUITY" in
  auth_id ← attr_get (field_or bundle "authorization" (JObj [])) "authorization_id" (JStr "");
  if negb (truthy auth_id) then failed id "missing authorization_id"
  else
    let initial_scope := field_or bundle "initial_scope" (JObj []) in
    let effective_scope := field_or bundle "effective_scope" (JObj []) in
    initial_auth ← attr_get initial_scope "authorization_id" (JStr "");
    if negb (py_eq initial_auth auth_id) then failed id "initial_scope.authorization_id mismatch"
    else
      effective_auth ← attr_get effective_scope "authorization_id" (JStr "");
      if negb (py_eq effective_auth auth_id) then failed id "effective_scope.authorization_id mismatch"
      else
        let failover := dict_get_none bundle "failover_decision" in
        if is_none failover then passed id ""
        else
          failover_scope_id ← attr_get failover "scope_id" (JStr "");
          scope_id ← attr_get effective_scope "scope_id" (JStr "");
          if negb (py_eq scope_id failover_scope_id) then
            failed id "failover scope_id does not match effective scope_id"
          else passed id "".

(** [set(scope.get(key) or [])]. *)
Definition set_field (scope : json) (key : string) : result (list json) :=
  v ← attr_get scope key JNull;
  items ← py_iter (py_or v (JList []));
  py_set items.

Record PermissionSet := {
  pm_targets : list json;
  pm_actions : list json;
  pm_environments : list json;
  pm_prohibited : list json
}.

(** The caller has looked at the scope before: it is not empty, and [None] is never returned. *)
Definition _scope_permission_set (scope : json) : result PermissionSet :=
  targets ← set_field scope "allowed_targets";
  actions ← set_field scope "allowed_actions";
  environments ← set_field scope "allowed_environments";
  prohibited ← set_field scope "prohibited_actions";
  Ok {| pm_targets := targets; pm_actions := actions; pm_environments := environments;
        pm_prohibited := prohibited |}.

Definition within (a b : list json) : bool := forallb (fun x => py_in x b) a.

(** [f"{sorted(a - b)}"]. *)
Definition sorted_diff (a b : list json) : result string :=
  diff ← sorted_json (List.filter (fun x => negb (py_in x b)) a);
  Ok (py_repr (JList diff)).

(** The sets that may only shrink, each with its message. *)
Definition check_sets (initial effective : PermissionSet) : result (option string) :=
  if negb (within (pm_targets effective) (pm_targets initial)) then
    diff ← sorted_diff (pm_targets effective) (pm_targets initial);
    Ok (Some ("effective scope broadened targets: " +:+ diff))
  else if negb (within (pm_actions effective) (pm_actions initial)) then
    diff ← sorted_diff (pm_actions effective) (pm_actions initial);
    Ok (Some ("effective scope broadened actions: " +:+ diff))
  else if negb (within (pm_environments effective) (pm_environments initial)) then
    diff ← sorted_diff (pm_environments effective) (pm_environments initial);
    Ok (Some ("effective scope broadened environments: " +:+ diff))
  else if negb (within (pm_prohibited initial) (pm_prohibited effective)) then
    diff ← sorted_diff (pm_prohibited initial) (pm_prohibited effective);
    Ok (Some ("effective scope narrowed prohibitions: " +:+ diff))
  else Ok None.

(** The value of a mode may not leave [fixed]. *)
Definition check_mode (name fixed : string) (initial effective : json) : result (option string) :=
  initial_mode ← attr_get initial name (JStr "");
  effective_mode ← attr_get effective name (JStr "");
  Ok (if is_str initial_mode fixed && negb (is_str effective_mode fixed) then
        Some (name +:+ " broadened: " +:+ py_str initial_mode +:+ " -> " +:+ py_str effective_mode)
      else None).

Definition _check_scope_monotonicity (bundle : dict) : result CheckResult :=
  let id := "SCOPE_MONOTONICITY" in
  let initial := field_or bundle "initial_scope" (JObj []) in
  let effective := field_or bundle "effective_scope" (JObj []) in
  if negb (truthy initial) || negb (truthy effective) then passed id "no scope comparison needed"
  else
    initial_perm ← _scope_permission_set initial;
    effective_perm ← _scope_permission_set effective;
    broadened ← check_sets initial_perm effective_perm;
    match broadened with
    | Some detail => failed id detail
    | None =>
        network ← check_mode "network_mode" "LOCAL_ONLY" initial effective;
        match network with
        | Some detail => failed id detail
        | None =>
            data ← check_mode "data_handling_class" "SYNTHETIC_ONLY" initial effective;
            match data with
            | Some detail => failed id detail
            | None =>
                initial_expiry ← attr_get initial "expires_at" (JInt 0);
                effective_expiry ← attr_get effective "expires_at" (JInt 0);
                if negb (is_number initial_expiry) || negb (is_number effective_expiry) then
                  failed id ("non-numeric expiry: initial=" +:+ py_repr initial_expiry
                             +:+ " effective=" +:+ py_repr effective_expiry)
                else
                  extended ← py_lt initial_expiry effective_expiry;
                  if extended : bool then
                    failed id ("effective scope expiry extended: " +:+ py_str initial_expiry
                               +:+ " -> " +:+ py_str effective_expiry)
                  else passed id ""
            end
        end
    end.

Definition _check_scope_overlap (scope : json) (scope_name : string) : result (option CheckResult) :=
  allowed ← set_field scope "allowed_actions";
  prohibited ← set_field scope "prohibited_actions";
  match List.filter (fun x => py_in x prohibited) allowed with
  | [] => Ok None
  | overlap =>
      shown ← sorted_json overlap;
      Ok (Some {| ck_check_id := "PROHIBITED_ACTION"; ck_result := "FAIL";
        ck_detail := scope_name +:+ " scope has allowed and prohibited overlap: " +:+ py_repr (JList shown) |})
  end.

Definition _check_prohibited_actions (bundle : dict) : result CheckResult :=
  initial ← _check_scope_overlap (field_or bundle "initial_scope" (JObj [])) "initial";
  match initial with
  | Some c => Ok c
  | None =>
      effective ← _check_scope_overlap (field_or bundle "effective_scope" (JObj [])) "effective";
      match effective with
      | Some c => Ok c
      | None => passed "PROHIBITED_ACTION" ""
      end
  end.

(** *** Failover and tasks *)

(** [failover_event_seq] and [fallback_run_seq]: the first of each. *)
Fixpoint failover_seqs (primary_run_id : json) (fallback_ids : list json) (found : json * json)
    (trace : list json) : result (json * json) :=
  match trace with
  | [] => Ok found
  | event :: trace' =>
      kind ← attr_get event "kind" (JStr "");
      seq ← attr_get event "sequence" (JInt 0);
      let failover_seq :=
        if is_str kind "FAILOVER_DECISION_RECORDED" && is_none (fst found) then seq else fst found in
      here ← (if is_str kind "PROVIDER_RUN_RECORDED" then
                records_fallback primary_run_id fallback_ids event
              else Ok false);
      let run_seq := if (here : bool) && is_none (snd found) then seq else snd found in
      failover_seqs primary_run_id fallback_ids (failover_seq, run_seq) trace'
  end.

Definition _check_failover_decision (bundle : dict) : result CheckResult :=
  let id := "FAILOVER_DECISION_REQUIRED" in
  let provider_runs := field_or bundle "provider_runs" (JList []) in
  let failover := dict_get_none bundle "failover_decision" in
  n ← py_length provider_runs;
  if is_none failover then
    if 2 <=? n then failed id "multiple provider runs but failover decision is missing"
    else passed id "no failover in bundle"
  else if n <? 2 then failed id "failover decision exists but no fallback provider run found"
  else
    primary_run_id ← _get_primary_run_id bundle;
    if negb (truthy primary_run_id) then failed id "primary provider run has no run_id"
    else
      previous ← attr_get failover "previous_run_id" (JStr "");
      if negb (py_eq previous primary_run_id) then
        failed id "failover decision previous_run_id does not match primary run"
      else
        fallback_ids ← fallback_run_ids bundle;
        trace ← py_iter (field_or bundle "trace" (JList []));
        found ← failover_seqs primary_run_id fallback_ids (JNull, JNull) trace;
        if is_none (fst found) then
          failed id "failover decision exists but FAILOVER_DECISION_RECORDED is missing from trace"
        else if is_none (snd found) then
          failed id "failover decision exists but no identified fallback provider run in trace"
        else
          late ← py_lt (snd found) (fst found);
          if late : bool then failed id "failover decision recorded after fallback execution"
          else passed id "".

Definition same_task (primary_hash : json) (idx : Z) (_ : unit) (run : json) : result (CheckResult + unit) :=
  task_hash ← attr_get run "normalized_task_hash" (JStr "");
  if negb (py_eq task_hash primary_hash) then
    stop "TASK_IDENTITY" ("provider run " +:+ pretty idx +:+ " normalized_task_hash differs from primary")
  else Ok (inr tt).

Definition _check_task_identity (bundle : dict) : result CheckResult :=
  let provider_runs := field_or bundle "provider_runs" (JList []) in
  n ← py_length provider_runs;
  if n <? 2 then passed "TASK_IDENTITY" "single provider run"
  else
    primary ← py_first provider_runs;
    primary_hash ← attr_get primary "normalized_task_hash" (JStr "");
    if negb (truthy primary_hash) then
      failed "TASK_IDENTITY" "primary provider run has empty normalized_task_hash"
    else
      rest ← py_rest provider_runs;
      r ← check_each (same_task primary_hash) 2 tt rest;
      concluded "TASK_IDENTITY" "" r.

(** *** Findings and verification *)
Definition _check_verification_closure (bundle : dict) : result CheckResult :=
  let id := "VERIFICATION_CLOSURE" in
  let finding := dict_get_none bundle "finding" in
  let verification := dict_get_none bundle "verification" in
  if is_none finding then passed id "no finding"
  else
    status ← attr_get finding "status" (JStr "");
    if is_str status "CONFIRMED" then
      if is_none verification then failed id "finding is CONFIRMED but no verification exists"
      else
        result ← attr_get verification "result" JNull;
        if negb (is_str result "REPRODUCED") then
          failed id ("finding is CONFIRMED but verification result is " +:+ py_str result)
        else passed id ""
    else passed id "".

(** [any(e.get("kind") == kind for e in trace)]. *)
Definition any_kind (kind : string) (trace : list json) : result bool :=
  any_r (fun e => k ← attr_get e "kind" JNull; Ok (is_str k kind)) trace.

(** [next((e.get("payload") or {}) for e in trace if e.get("kind") == kind)]. *)
Fixpoint next_payload (kind : string) (trace : list json) : result json :=
  match trace with
  | [] => fail (HostException "StopIteration") ""
  | e :: trace' =>
      k ← attr_get e "kind" JNull;
      if is_str k kind then
        payload ← attr_get e "payload" JNull;
        Ok (py_or payload (JObj []))
      else next_payload kind trace'
  end.

(** [a.get(key, "") != b.get(key, "")]. *)
Definition differ (a b : json) (key : string) : result bool :=
  x ← attr_get a key (JStr "");
  y ← attr_get b key (JStr "");
  Ok (negb (py_eq x y)).

(** The event of [kind] on the trace tells the same keys as the record, if there is one. *)
Fixpoint payload_agrees (payload record : json) (details : list (string * string)) : result (option string) :=
  match details with
  | [] => Ok None
  | (key, detail) :: rest =>
      d ← differ payload record key;
      if d : bool then Ok (Some detail) else payload_agrees payload record rest
  end.

Definition record_on_trace (kind : string) (record : json) (trace : list json)
    (details : list (string * string)) : result (option string) :=
  if is_none record then Ok None
  else
    payload ← next_payload kind trace;
    if truthy payload then payload_agrees payload record details else Ok None.

Definition _check_verification_consistency (bundle : dict) : result CheckResult :=
  let id := "VERIFICATION_CONSISTENCY" in
  let verification := dict_get_none bundle "verification" in
  let finding := dict_get_none bundle "finding" in
  trace ← py_iter (field_or bundle "trace" (JList []));
  trace_has_finding ← any_kind "FINDING_RECORDED" trace;
  trace_has_verification ← any_kind "VERIFICATION_RECORDED" trace;
  if is_none finding && (trace_has_finding : bool) then
    failed id "FINDING_RECORDED in trace but finding record is missing"
  else if is_none verification && (trace_has_verification : bool) then
    failed id "VERIFICATION_RECORDED in trace but verification record is missing"
  else
    finding_differs ← record_on_trace "FINDING_RECORDED" finding trace
      [("finding_id", "FINDING_RECORDED finding_id does not match finding record")];
    match finding_differs with
    | Some detail => failed id detail
    | None =>
        verification_differs ← record_on_trace "VERIFICATION_RECORDED" verification trace
          [("finding_id", "VERIFICATION_RECORDED finding_id does not match verification record");
           ("verification_id", "VERIFICATION_RECORDED verification_id does not match verification record")];
        match verification_differs with
        | Some detail => failed id detail
        | None =>
            if is_none verification && is_none finding then passed id "no verification or finding"
            else if is_none finding then failed id "verification exists but no finding"
            else if is_none verification then passed id ""
            else
              d ← differ verification finding "finding_id";
              if d : bool then failed id "verification finding_id does not match finding"
              else passed id ""
        end
    end.

Definition _check_final_state (bundle : dict) : result CheckResult :=
  transitions ← _extract_transition_sequence bundle;
  match last transitions with
  | None => passed "FINAL_STATE" "no transitions"
  | Some (_, last_to_state) =>
      terminal ← in_strings last_to_state TERMINAL_STATES;
      if negb terminal then
        failed "FINAL_STATE" ("final state " +:+ py_str last_to_state +:+ " is not terminal")
      else passed "FINAL_STATE" ""
  end.

(** *** Consumer workloads *)
Definition WORKLOAD_EVIDENCE_SCHEMA : string := "contract-workload-evidence-v0.1".
Definition GENERIC_WORKLOAD_EVIDENCE_SCHEMA : string := "generic-workload-evidence-v0.1".

Definition WORKLOAD_EVIDENCE_SCHEMAS (schema : string) : option (list string) :=
  if String.eqb schema WORKLOAD_EVIDENCE_SCHEMA then Some ["schema"; "requested_path"; "actor"; "result"]
  else if String.eqb schema GENERIC_WORKLOAD_EVIDENCE_SCHEMA then
    Some ["schema"; "consumer_type"; "requested_operation"; "actor"; "input"; "result"]
  else None.

(** [WORKLOAD_EVIDENCE_SCHEMAS.get(schema)]. *)
Definition binding_fields (schema : json) : result (option (list string)) :=
  _ ← py_hash schema;
  Ok (match schema with JStr s => WORKLOAD_EVIDENCE_SCHEMAS s | _ => None end).

(** The digest at the end of [_TASK_FIXTURE_PATTERN]. *)
Definition task_fixture_sha (s : string) : option string :=
  let n := String.length s in
  let head := String.substring 0 (n - 72) s in
  let digest := String.substring (n - 64) 64 s in
  if (72 <? n)%nat && String.eqb (String.substring (n - 72) 8 s) "@sha256:" && re_sha digest
     && negb (contains_char "010" head)
  then Some digest else None.

(** The [workload_sha256] a run claims in its metadata. *)
Definition claimed_workload (run : json) : result json :=
  metadata ← attr_get run "provider_metadata" JNull;
  match py_or metadata (JObj []) with
  | JObj d => Ok (dict_get_none d "workload_sha256")
  | _ => Ok JNull
  end.

Definition is_sha_value (v : json) : bool := match v with JStr s => re_sha s | _ => false end.

Definition _declares_consumer_workload (bundle : dict) : result bool :=
  if is_dict (dict_get_none bundle "consumer_evidence") then Ok true
  else
    runs ← py_iter (field_or bundle "provider_runs" (JList []));
    any_r (fun run => claimed ← claimed_workload run; Ok (is_sha_value claimed)) runs.

(** The loop over the runs; [matched] is [matched_run]. *)
Definition run_binds (expected_task_sha256 claimed : string) (_ : Z) (matched : bool) (run : json)
    : result (CheckResult + bool) :=
  task_hash ← attr_get run "normalized_task_hash" JNull;
  if negb (is_str task_hash expected_task_sha256) then
    stop "WORKLOAD_EVIDENCE_BINDING" "provider run does not bind to the consumer workload task"
  else
    workload ← claimed_workload run;
    Ok (inr (matched || is_str workload claimed)).

(** The runs against the task of the evidence. *)
Definition check_workload_runs (bundle task : dict) (claimed : string) : result CheckResult :=
  let id := "WORKLOAD_EVIDENCE_BINDING" in
  let provider_runs := field_or bundle "provider_runs" (JList []) in
  if negb (truthy provider_runs) then failed id "consumer_evidence present but no provider runs"
  else
    runs ← py_iter provider_runs;
    r ← check_each (run_binds (canonical_sha256 (JObj task)) claimed) 1 false runs;
    match r with
    | inl c => Ok c
    | inr false => failed id "no provider run carries the consumer workload_sha256"
    | inr true => passed id "consumer workload bound to evidence chain"
    end.

(** The reference of the task to the artifact. *)
Definition check_task_reference (bundle evidence : dict) (claimed : string) : result CheckResult :=
  let id := "WORKLOAD_EVIDENCE_BINDING" in
  match dict_get_none evidence "task_fixture" with
  | JStr task_fixture =>
      match task_fixture_sha task_fixture with
      | None => failed id "task_fixture does not carry a sha256 reference"
      | Some digest =>
          if negb (String.eqb digest claimed) then
            failed id "task_fixture sha256 does not match consumer_evidence workload_sha256"
          else
            match dict_get_none evidence "task" with
            | JObj task =>
                if negb (is_str (dict_get_none task "fixture") task_fixture) then
                  failed id "consumer_evidence task fixture does not match task_fixture reference"
                else check_workload_runs bundle task claimed
            | _ => failed id "consumer_evidence is missing the task record"
            end
      end
  | _ => failed id "consumer_evidence is missing task_fixture"
  end.

(** [{field: evidence[field] for field in required}], or the first field that is missing. *)
Fixpoint project (required : list string) (evidence : dict) : string + dict :=
  match required with
  | [] => inr []
  | field :: rest =>
      match dict_get evidence field with
      | None => inl field
      | Some v => match project rest evidence with inl f => inl f | inr d => inr ((field, v) :: d) end
      end
  end.

Definition _check_workload_evidence_binding (bundle : dict) : result CheckResult :=
  let id := "WORKLOAD_EVIDENCE_BINDING" in
  match dict_get_none bundle "consumer_evidence" with
  | JNull =>
      declared ← _declares_consumer_workload bundle;
      if declared : bool then failed id "consumer workload declared but consumer_evidence is missing"
      else Ok {| ck_check_id := id; ck_result := "SKIP";
                 ck_detail := "not applicable: no consumer workload declared" |}
  | JObj evidence =>
      required ← binding_fields (dict_get_none evidence "schema");
      match required with
      | None => failed id "consumer_evidence uses an unrecognized schema"
      | Some required =>
          match project required evidence with
          | inl field => failed id ("consumer_evidence missing required field: " +:+ field)
          | inr body =>
              match dict_get_none evidence "workload_sha256" with
              | JStr claimed =>
                  if negb (String.eqb claimed (canonical_sha256 (JObj body))) then
                    failed id "consumer_evidence workload_sha256 does not match artifact content"
                  else check_task_reference bundle evidence claimed
              | _ => failed id "consumer_evidence workload_sha256 does not match artifact content"
              end
          end
      end
  | _ => failed id "consumer_evidence must be a JSON object"
  end.

(** ** The verifier *)
Definition CHECK_FUNCTIONS : list (string * (dict -> result CheckResult)) :=
  [("BUNDLE_INTEGRITY", _check_bundle_integrity); ("TRACE_HASH_CHAIN", _check_trace_hash_chain);
   ("TEMPORAL_ORDER", _check_temporal_order); ("STATE_TRANSITION", _check_state_transitions);
   ("CAUSAL_ORDER", _check_causal_order);
   ("AUTHORIZATION_CONTINUITY", _check_authorization_continuity);
   ("SCOPE_MONOTONICITY", _check_scope_monotonicity); ("PROHIBITED_ACTION", _check_prohibited_actions);
   ("FAILOVER_DECISION_REQUIRED", _check_failover_decision); ("TASK_IDENTITY", _check_task_identity);
   ("VERIFICATION_CLOSURE", _check_verification_closure);
   ("VERIFICATION_CONSISTENCY", _check_verification_consistency); ("FINAL_STATE", _check_final_state);
   ("WORKLOAD_EVIDENCE_BINDING", _check_workload_evidence_binding)].

Definition CHECK_ORDER : list string :=
  ["BUNDLE_INTEGRITY"; "TRACE_HASH_CHAIN"; "TEMPORAL_ORDER"; "STATE_TRANSITION"; "CAUSAL_ORDER";
   "AUTHORIZATION_CONTINUITY"; "SCOPE_MONOTONICITY"; "PROHIBITED_ACTION"; "FAILOVER_DECISION_REQUIRED";
   "TASK_IDENTITY"; "VERIFICATION_CLOSURE"; "VERIFICATION_CONSISTENCY"; "FINAL_STATE";
   "WORKLOAD_EVIDENCE_BINDING"].

(** [CHECK_FUNCTIONS[check_id]]. *)
Definition check_function (check_id : string) : result (dict -> result CheckResult) :=
  match List.find (fun p => String.eqb (fst p) check_id) CHECK_FUNCTIONS with
  | Some p => Ok (snd p)
  | None => fail KeyError check_id
  end.

(** [check_fn(bundle)], where an exception is a failure. *)
Definition run_check (bundle : dict) (check : string * (dict -> result CheckResult)) : CheckResult :=
  match snd check bundle with
  | Ok c => c
  | Err e => {| ck_check_id := fst check; ck_result := "FAIL";
                ck_detail := "verifier error: " +:+ exc_text e |}
  end.

Definition check_failed (c : CheckResult) : bool := String.eqb (ck_result c) "FAIL".

(** One round of the loop: [check_id] and its result. *)
Definition check_one (bundle : dict) (check_id : string) : result (string * CheckResult) :=
  check_fn ← check_function check_id;
  Ok (check_id, run_check bundle (check_id, check_fn)).

(** The receipt of the rounds, whose first failure is [failed_check_id]. *)
Definition receipt_body (bundle : dict) (rounds : list (string * CheckResult)) : dict :=
  let checks := JList (map (fun c => JObj (CheckResult_as_dict (snd c))) rounds) in
  match List.find (fun c => check_failed (snd c)) rounds with
  | Some (failed_check_id, c) =>
      [("schema", JStr RECEIPT_SCHEMA); ("result", JStr "FAIL");
       ("source_bundle_sha256", dict_get_or bundle "bundle_sha256" (JStr "")); ("checks", checks);
       ("failed_check", JStr failed_check_id)]
      ++ (if String.eqb (ck_detail c) "" then [] else [("failure_detail", JStr (ck_detail c))])
  | None =>
      [("schema", JStr RECEIPT_SCHEMA); ("result", JStr "PASS");
       ("source_bundle_sha256", dict_get_or bundle "bundle_sha256" (JStr "")); ("checks", checks)]
  end.

Definition verify_evidence_bundle (bundle : dict) : result dict :=
  rounds ← map_r (check_one bundle) CHECK_ORDER;
  Ok (seal "receipt_sha256" (receipt_body bundle rounds)).
End replay.

(** ** Lemmas *)
Section lemmas.
Context {hash : Digest} {text : PyText}.

(** *** The bundle of a simulator *)
Record bundle_of (s : TRCPSimulator) (evidence : option dict) (b : dict) : Prop := {
  bo_sealed : exists body, b = seal "bundle_sha256" body /\ dict_get body "bundle_sha256" = None;
  bo_authorization : field_or b "authorization" (JObj []) = JObj (AuthorizationRecord_as_dict (ts_authorization s));
  bo_initial : field_or b "initial_scope" (JObj []) = JObj (ScopeEnvelope_as_dict (ts_initial_scope s));
  bo_effective : field_or b "effective_scope" (JObj []) = JObj (ScopeEnvelope_as_dict (ts_scope s));
  bo_runs : field_or b "provider_runs" (JList []) = JList (map JObj (ts_provider_runs s));
  bo_failover : dict_get_none b "failover_decision" = jrecord (ts_failover_record s);
  bo_finding : dict_get_none b "finding" = jrecord (ts_finding s);
  bo_verification : dict_get_none b "verification" = jrecord (ts_verification s);
  bo_trace : field_or b "trace" (JList []) = JList (map JObj (ts_trace s));
  bo_evidence : dict_get_none b "consumer_evidence" = jrecord evidence
}.

Lemma py_or_list (l : list json) : py_or (JList l) (JList []) = JList l.
Proof. by destruct l. Qed.

Lemma ok_bind {A B} (m : result A) (f : A -> result B) : (exists a, m = Ok a) ->
  (forall a, exists b, f a = Ok b) -> exists b, (m ≫= f) = Ok b.
Proof. intros [a ->] Hf. apply Hf. Qed.

Lemma attr_get_ok d key default : exists v, attr_get (JObj d) key default = Ok v.
Proof. by eexists. Qed.

Lemma attr_obj d key default : attr_get (JObj d) key default = Ok (dict_get_or d key default).
Proof. done. Qed.

Lemma last_map_obj (l : list dict) : last (map JObj l) = JObj <$> last l.
Proof. induction l as [|x [|y l] IH]; [done|done|]. exact IH. Qed.

Lemma py_last_obj (l : list dict) : l <> [] -> exists d, py_last (JList (map JObj l)) = Ok (JObj d).
Proof.
  intros Hl. unfold py_last. cbn [py_sequence]. rewrite bind_Ok, last_map_obj.
  destruct (last l) as [d|] eqn:E; [by exists d|]. by apply last_None in E.
Qed.

Lemma lineage_built s evidence : exists lineage,
  _build_causal_lineage (bundle_body (report s) evidence) = Ok lineage.
Proof.
  unfold _build_causal_lineage.
  change (dict_item (bundle_body (report s) evidence) "authorization")
    with (Ok (JObj (AuthorizationRecord_as_dict (ts_authorization s)))).
  rewrite bind_Ok. apply ok_bind; [apply attr_get_ok|intros ref]. cbv zeta.
  change (field_or (bundle_body (report s) evidence) "provider_runs" (JList []))
    with (py_or (py_or (JList (map JObj (ts_provider_runs s))) (JList [])) (JList [])).
  change (dict_get_none (bundle_body (report s) evidence) "failover_decision") with (jrecord (ts_failover_record s)).
  change (dict_get_none (bundle_body (report s) evidence) "finding") with (jrecord (ts_finding s)).
  change (dict_get_none (bundle_body (report s) evidence) "verification") with (jrecord (ts_verification s)).
  rewrite !py_or_list.
  apply ok_bind; [|intros l1].
  { destruct (ts_provider_runs s) as [|r rest]; [by eexists|]. destruct (negb _); cbn [truthy andb]; by eexists. }
  apply ok_bind; [|intros l2].
  { destruct (ts_failover_record s) as [record|]; [|by eexists]. destruct (last_is _ _); by eexists. }
  apply ok_bind; [|intros l3].
  { destruct (negb _); [|by eexists]. cbn [py_length]. rewrite bind_Ok. destruct (2 <=? _) eqn:Hn; [|by eexists].
    destruct (py_last_obj (ts_provider_runs s)) as [d ->]; [|by eexists]. intros E. by rewrite E in Hn. }
  apply ok_bind; [|intros l4].
  { destruct (li_last l3); [|by eexists]. destruct (ts_finding s); by eexists. }
  destruct (ts_verification s), (last_is l4 "FINDING"), (ts_finding s);
    cbn [jrecord is_none negb andb]; try by eexists.
Qed.

Lemma bundle_built s evidence : exists b,
  build_evidence_bundle (report s) evidence = Ok b /\ bundle_of s evidence b.
Proof.
  destruct (lineage_built s evidence) as [lineage E]. unfold build_evidence_bundle. rewrite E, bind_Ok.
  eexists. split; [reflexivity|]. constructor; try done.
  - eexists. split; [reflexivity|]. rewrite dict_get_set_ne by done. by destruct evidence.
  - transitivity (py_or (py_or (JList (map JObj (ts_provider_runs s))) (JList [])) (JList [])); [done|].
    by rewrite !py_or_list.
  - transitivity (py_or (py_or (JList (map JObj (ts_trace s))) (JList [])) (JList [])); [done|].
    by rewrite !py_or_list.
  - by destruct evidence.
Qed.

(** *** The outcome of a check *)
Definition verdict (f : dict -> result CheckResult) (b : dict) (good : bool) : Prop :=
  exists c, f b = Ok c /\ check_failed c = negb good.

Lemma passed_ok f b id detail : f b = passed id detail -> verdict f b true.
Proof. intros E. unfold verdict. rewrite E. by eexists. Qed.

Lemma dict_del_set d k v : dict_get d k = None -> dict_del (dict_set d k v) k = d.
Proof.
  induction d as [|[k' v'] d IH]; cbn; [by rewrite String.eqb_refl|].
  destruct (String.eqb k' k) eqn:E; [done|]. intros H. cbn. by rewrite E, IH.
Qed.

Lemma is_str_refl s : is_str (JStr s) s = true.
Proof. apply String.eqb_refl. Qed.

Lemma py_eq_str s s' : py_eq (JStr s) (JStr s') = String.eqb s s'.
Proof. done. Qed.

Lemma integrity_passes s evidence b : bundle_of s evidence b -> verdict _check_bundle_integrity b true.
Proof.
  intros Hb. destruct (bo_sealed _ _ _ Hb) as (body & -> & Hbody). unfold _check_bundle_integrity, seal.
  apply (passed_ok _ _ "BUNDLE_INTEGRITY" ""). rewrite dict_del_set by done.
  unfold dict_get_or. by rewrite dict_get_set, is_str_refl.
Qed.

(** The documents of events. *)
Definition documents (evs : list Event) : list json := map JObj (map event_document evs).

Lemma event_fields e :
  dict_del (event_document e) "event_sha256" = event_core e
  /\ (forall v, dict_get_or (event_document e) "previous_event_sha256" v = JStr (ev_previous e))
  /\ (forall v, dict_get_or (event_document e) "event_sha256" v = JStr (event_sha e))
  /\ (forall v, dict_get_or (event_document e) "sequence" v = JInt (ev_sequence e))
  /\ (forall v, dict_get_or (event_document e) "observed_at_unix" v = JInt (ev_at e))
  /\ (forall v, dict_get_or (event_document e) "kind" v = JStr (ev_kind e))
  /\ (forall v, dict_get_or (event_document e) "payload" v = JObj (ev_payload e)).
Proof. done. Qed.

Lemma chain_checked evs h h' i : linked ev_previous event_sha h evs h' ->
  (forall j e, evs !! j = Some e -> ev_sequence e = i + Z.of_nat j) ->
  check_each chain_event i (JStr h) (documents evs) = Ok (inr (JStr h')).
Proof.
  revert h i. induction evs as [|e evs IH]; intros h i; [by intros <-|]. intros [Hp Hl] Hs.
  destruct (event_fields e) as (E1 & E2 & E3 & E4 & _).
  cbn [documents map check_each]. unfold chain_event, attr_get.
  rewrite bind_Ok, E2, Hp, py_eq_str, String.eqb_refl. cbn [negb].
  rewrite bind_Ok, E3, E1. fold (event_sha e). rewrite is_str_refl. cbn [negb].
  rewrite bind_Ok, E4. assert (ev_sequence e = i) as -> by (rewrite (Hs 0%nat e) by done; lia).
  cbn [py_eq]. rewrite Z.eqb_refl. cbn [negb]. rewrite bind_Ok. cbv beta iota. apply IH; [done|].
  intros j x Hx. rewrite (Hs (S j) x) by done. lia.
Qed.

Lemma trace_items s evidence b evs : bundle_of s evidence b -> ts_trace s = map event_document evs ->
  field_or b "trace" (JList []) = JList (documents evs).
Proof. intros Hb E. by rewrite (bo_trace _ _ _ Hb), E. Qed.

Lemma chain_passes s evidence b evs : bundle_of s evidence b -> ts_trace s = map event_document evs ->
  trace_ok evs (ts_now_unix s) (ts_state s) -> verdict _check_trace_hash_chain b true.
Proof.
  intros Hb Hd Ht. apply (passed_ok _ _ "TRACE_HASH_CHAIN" ""). unfold _check_trace_hash_chain.
  rewrite (trace_items _ _ _ _ Hb Hd). cbn [py_iter]. rewrite bind_Ok.
  rewrite (chain_checked _ _ _ _ (tk_linked _ _ _ Ht)); [done|].
  intros j e He. rewrite (tk_sequence _ _ _ Ht j e He). lia.
Qed.

Lemma times_checked evs i p : StronglySorted Z.le (map ev_at evs) ->
  (forall e, e ∈ evs -> match p with Some t => t <= ev_at e | None => True end) ->
  exists v, check_each timed_event i (match p with Some t => JInt t | None => JNull end) (documents evs)
            = Ok (inr v).
Proof.
  revert i p. induction evs as [|e evs IH]; intros i p; [by eexists|]. cbn [map].
  intros [Hall Hs]%StronglySorted_cons Hp.
  destruct (event_fields e) as (_ & _ & _ & _ & E & _).
  cbn [documents map check_each]. unfold timed_event, attr_get.
  rewrite bind_Ok, E. cbn [is_none is_number negb].
  assert ((if is_none (match p with Some t => JInt t | None => JNull end) then Ok false
           else py_lt (JInt (ev_at e)) (match p with Some t => JInt t | None => JNull end)) = Ok false) as ->.
  { destruct p as [t|]; [|done]. cbn. do 2 f_equal. apply Z.ltb_ge. apply (Hp e). by left. }
  rewrite !bind_Ok. cbv beta iota. apply (IH (i + 1) (Some (ev_at e))); [done|].
  intros x Hx. rewrite Forall_forall in Hall. apply Hall, list_elem_of_fmap. by exists x.
Qed.

Lemma times_pass s evidence b evs : bundle_of s evidence b -> ts_trace s = map event_document evs ->
  trace_ok evs (ts_now_unix s) (ts_state s) -> verdict _check_temporal_order b true.
Proof.
  intros Hb Hd Ht. apply (passed_ok _ _ "TEMPORAL_ORDER" ""). unfold _check_temporal_order.
  rewrite (trace_items _ _ _ _ Hb Hd). cbn [py_iter]. rewrite bind_Ok.
  by destruct (times_checked evs 1 None (tk_times _ _ _ Ht)) as [v ->].
Qed.

(** *** Transitions *)
Lemma py_or_obj d : py_or (JObj d) (JObj []) = JObj d.
Proof. by destruct d. Qed.

Lemma get_none_str d k s v : dict_get_none d k = JStr s -> dict_get_or d k v = JStr s.
Proof. unfold dict_get_none, dict_get_or. by destruct (dict_get d k). Qed.

Definition values (m : string * string) : json * json := (JStr (fst m), JStr (snd m)).

Lemma transitions_read evs :
  (forall e, e ∈ evs -> ev_kind e = "STATE_TRANSITION" -> is_Some (move_of e)) ->
  transitions_of (documents evs) = Ok (map values (omap move_of evs)).
Proof.
  induction evs as [|e evs IH]; intros Hm; [done|]. destruct (event_fields e) as (_ & _ & _ & _ & _ & Ek & Ep).
  cbn [documents map transitions_of omap list_omap]. unfold attr_get. rewrite bind_Ok, Ek, Ep.
  assert (Hm' : forall x, x ∈ evs -> ev_kind x = "STATE_TRANSITION" -> is_Some (move_of x)).
  { intros x Hx. apply Hm. by right. }
  specialize (IH Hm'). fold (documents evs). cbn [is_str].
  destruct (String.eqb (ev_kind e) "STATE_TRANSITION") eqn:E.
  - destruct (Hm e) as [[a b] Hab]; [by left|by apply String.eqb_eq|]. rewrite Hab.
    unfold move_of in Hab. rewrite E in Hab. rewrite bind_Ok, py_or_obj, !bind_Ok, IH.
    destruct (dict_get_none (ev_payload e) "from") eqn:Ef; try done.
    destruct (dict_get_none (ev_payload e) "to") eqn:Et; try done. injection Hab as -> ->.
    rewrite (get_none_str _ _ _ _ Ef), (get_none_str _ _ _ _ Et). done.
  - unfold move_of at 1. by rewrite E, IH.
Qed.

Lemma read_transitions s evidence b evs : bundle_of s evidence b -> ts_trace s = map event_document evs ->
  trace_ok evs (ts_now_unix s) (ts_state s) ->
  _extract_transition_sequence b = Ok (map values (omap move_of evs)).
Proof.
  intros Hb Hd Ht. unfold _extract_transition_sequence. rewrite (trace_items _ _ _ _ Hb Hd). cbn [py_iter].
  rewrite bind_Ok. apply transitions_read, (tk_moves _ _ _ Ht).
Qed.

(** The table of the verifier allows what the table of the simulator allows. *)
Lemma tables_agree : ALLOWED_TRANSITIONS = _ALLOWED_TRANSITIONS.
Proof. done. Qed.

(** A path through the table, from its first state. *)
Fixpoint path (a : string) (moves : list (string * string)) : Prop :=
  match moves with
  | [] => True
  | (x, y) :: rest => x = a /\ mem y (table_get ALLOWED_TRANSITIONS a) = true /\ path y rest
  end.

Definition ends (a : string) (moves : list (string * string)) : string :=
  match last moves with Some (_, y) => y | None => a end.

Lemma path_snoc a moves c : path a moves -> mem c (table_get ALLOWED_TRANSITIONS (ends a moves)) = true ->
  path a (moves ++ [(ends a moves, c)]).
Proof.
  revert a. induction moves as [|[x y] moves IH]; intros a; [done|]. cbn [path app]. intros (-> & Hm & Hp) Hc.
  split; [done|]. split; [done|].
  assert (ends a ((a, y) :: moves) = ends y moves) as E by (unfold ends; rewrite last_cons; by destruct (last moves) as [[? ?]|]).
  rewrite E in Hc |- *. by apply IH.
Qed.

Lemma walk_path a moves b : walk a moves b -> path a moves /\ ends a moves = b.
Proof.
  intros H. induction H as [a|a l b c _ [Hp <-] Hc]; [done|]. rewrite <- tables_agree in Hc.
  split; [by apply path_snoc|]. unfold ends. by rewrite last_snoc.
Qed.

Lemma value_in_mem s l : value_in (JStr s) l = mem s l.
Proof. done. Qed.

Lemma path_checked a moves prev : path a moves -> (prev = None \/ prev = Some (JStr a)) ->
  check_path prev (map values moves) = passed "STATE_TRANSITION" "".
Proof.
  revert a prev. induction moves as [|[x y] moves IH]; intros a prev; [done|]. cbn [path]. intros (-> & Hm & Hp) Hprev.
  cbn [map check_path values fst snd].
  assert (match prev with Some p => negb (py_eq (JStr a) p) | None => false end = false) as ->.
  { destruct Hprev as [->| ->]; [done|]. by rewrite py_eq_str, String.eqb_refl. }
  unfold allowed_from. cbn [py_hash]. rewrite !bind_Ok. unfold in_strings. cbn [py_hash]. rewrite !bind_Ok.
  rewrite value_in_mem, Hm. cbn [negb]. apply (IH y); [done|by right].
Qed.

Lemma transitions_pass s evidence b evs : bundle_of s evidence b -> ts_trace s = map event_document evs ->
  trace_ok evs (ts_now_unix s) (ts_state s) -> verdict _check_state_transitions b true.
Proof.
  intros Hb Hd Ht. unfold verdict, _check_state_transitions. rewrite (read_transitions _ _ _ _ Hb Hd Ht), bind_Ok.
  destruct (walk_path _ _ _ (tk_walk _ _ _ Ht)) as [Hp _].
  destruct (omap move_of evs) as [|[x y] moves] eqn:E; [by eexists|].
  assert (x = "NEW") as -> by apply Hp. cbn [map values fst snd]. rewrite is_str_refl. cbn [negb].
  assert (check_path None (map values (("NEW", y) :: moves)) = passed "STATE_TRANSITION" "") as Hc.
  { apply (path_checked "NEW"); [done|by left]. }
  cbn [map values fst snd] in Hc. rewrite Hc. by eexists.
Qed.

Lemma final_state s evidence b evs : bundle_of s evidence b -> ts_trace s = map event_document evs ->
  trace_ok evs (ts_now_unix s) (ts_state s) -> ts_state s <> "NEW" ->
  verdict _check_final_state b (mem (ts_state s) TERMINAL_STATES).
Proof.
  intros Hb Hd Ht Hst. unfold verdict, _check_final_state. rewrite (read_transitions _ _ _ _ Hb Hd Ht), bind_Ok.
  destruct (walk_path _ _ _ (tk_walk _ _ _ Ht)) as [_ He]. unfold ends in He.
  rewrite (fmap_last values (omap move_of evs) : last (map values _) = _).
  destruct (last (omap move_of evs)) as [[x y]|]; [|done]. subst y.
  cbn [fmap option_fmap option_map values fst snd]. unfold in_strings. cbn [py_hash]. rewrite !bind_Ok, value_in_mem.
  destruct (mem _ TERMINAL_STATES); by eexists.
Qed.

(** *** Order on the trace *)
Definition selected (p : Event -> bool) (evs : list Event) : list json :=
  map (fun e => JInt (ev_sequence e)) (List.filter p evs).

Definition is_kind (kind : string) (e : Event) : bool := String.eqb (ev_kind e) kind.

Lemma selected_app p l l' : selected p (l ++ l') = selected p l ++ selected p l'.
Proof. unfold selected. by rewrite List.filter_app, map_app. Qed.

Lemma selected_none p evs : (forall e, e ∈ evs -> p e = false) -> selected p evs = [].
Proof.
  intros H. unfold selected. induction evs as [|e evs IH]; [done|]. cbn [List.filter]. rewrite H by by left.
  apply IH. intros x Hx. apply H. by right.
Qed.

Lemma selected_here p e evs : p e = true -> selected p (e :: evs) = JInt (ev_sequence e) :: selected p evs.
Proof. intros H. unfold selected. cbn [List.filter]. by rewrite H. Qed.

Lemma selected_in p evs v : v ∈ selected p evs -> exists e, e ∈ evs /\ p e = true /\ v = JInt (ev_sequence e).
Proof.
  unfold selected. intros (e & -> & He)%list_elem_of_fmap. apply list_elem_of_In, filter_In in He as [He Hp].
  exists e. split; [by apply list_elem_of_In|done].
Qed.

Lemma first_none b : first_after b [] = Ok false.
Proof. by destruct b. Qed.

Lemma sequence_sorted evs now st l1 e l2 : trace_ok evs now st -> evs = l1 ++ e :: l2 ->
  (forall x, x ∈ l1 -> ev_sequence x <= ev_sequence e) /\ (forall x, x ∈ l2 -> ev_sequence e <= ev_sequence x).
Proof.
  intros [_ Hs _ _ _ _ _] ->.
  assert (ev_sequence e = Z.of_nat (length l1) + 1) as Ee by (apply Hs, list_lookup_middle; lia).
  split; intros x [i Hi]%list_elem_of_lookup_1.
  - rewrite (Hs i x); [apply lookup_lt_Some in Hi; lia|]. rewrite lookup_app_l; [done|by eapply lookup_lt_Some].
  - rewrite (Hs (length l1 + S i)%nat x); [lia|]. rewrite lookup_app_r by lia.
    by replace (length l1 + S i - length l1)%nat with (S i) by lia.
Qed.

(** Nothing of [q] comes before the first of [p]. *)
Lemma ordered evs now st p q l1 e l2 : trace_ok evs now st -> evs = l1 ++ e :: l2 -> p e = true ->
  q e = false -> (forall x, x ∈ l1 -> q x = false) -> first_after (selected p evs) (selected q evs) = Ok false.
Proof.
  intros Ht E Hp Hq Hl. destruct (sequence_sorted _ _ _ _ _ _ Ht E) as [Hb Ha]. rewrite E, !selected_app.
  rewrite (selected_none q l1) by done. cbn [app].
  assert (selected q (e :: l2) = selected q l2) as -> by (unfold selected; cbn [List.filter]; by rewrite Hq).
  rewrite (selected_here p e l2) by done.
  destruct (selected q l2) as [|y ys] eqn:Ey; [by rewrite first_none|].
  assert (exists n, y = JInt n /\ ev_sequence e <= n) as (n & -> & Hn).
  { destruct (selected_in q l2 y) as (x & Hx & _ & ->); [rewrite Ey; by left|]. eexists. split; [done|]. by apply Ha. }
  assert (exists m rest, selected p l1 ++ JInt (ev_sequence e) :: selected p l2 = JInt m :: rest /\ m <= ev_sequence e)
    as (m & rest & -> & Hm).
  { destruct (selected p l1) as [|v vs] eqn:Ev; [by eexists _, _|].
    destruct (selected_in p l1 v) as (x & Hx & _ & ->); [rewrite Ev; by left|].
    do 2 eexists. split; [done|]. by apply Hb. }
  cbn. do 2 f_equal. apply Z.ltb_ge. lia.
Qed.

(** The events of each kind, as the verifier groups them. *)
Lemma group_get_add groups k v k' :
  group_get (group_add (JStr k) v groups) k'
  = group_get groups k' ++ (if String.eqb k k' then [v] else []).
Proof.
  induction groups as [|[x l] groups IH]; cbn; [by destruct (String.eqb k k')|].
  destruct x; cbn; try done.
  destruct (String.eqb k s) eqn:E; cbn.
  - apply String.eqb_eq in E as <-. destruct (String.eqb k k'); [done|]. by rewrite app_nil_r.
  - destruct (String.eqb s k') eqn:E'; [|done]. apply String.eqb_eq in E' as <-. rewrite E. by rewrite app_nil_r.
Qed.

Lemma groups_read evs : exists groups, _get_trace_event_sequences (documents evs) = Ok groups
  /\ forall kind, group_get groups kind = selected (is_kind kind) evs.
Proof.
  unfold _get_trace_event_sequences.
  enough (forall acc, exists groups,
    fold_r (fun groups event =>
      kind ← attr_get event "kind" (JStr ""); seq ← attr_get event "sequence" (JInt 0);
      _ ← py_hash kind; Ok (group_add kind seq groups)) acc (documents evs) = Ok groups
    /\ forall kind, group_get groups kind = group_get acc kind ++ selected (is_kind kind) evs) as H
    by (destruct (H []) as (groups & -> & Hg); by exists groups).
  induction evs as [|e evs IH]; intros acc.
  - exists acc. split; [done|]. intros kind. by rewrite app_nil_r.
  - destruct (event_fields e) as (_ & _ & _ & Es & _ & Ek & _). cbn [documents map fold_r].
    assert (forall k, (kind ← attr_get (JObj (event_document e)) "kind" (JStr "");
      seq ← attr_get (JObj (event_document e)) "sequence" (JInt 0); _ ← py_hash kind; Ok (k kind seq))
      = Ok (k (JStr (ev_kind e)) (JInt (ev_sequence e)) : list (json * list json))) as -> by done.
    rewrite bind_Ok.
    destruct (IH (group_add (JStr (ev_kind e)) (JInt (ev_sequence e)) acc)) as (groups & Hf & Hg).
    exists groups. split; [exact Hf|]. intros kind. rewrite Hg, group_get_add, <- app_assoc. f_equal.
    unfold selected, is_kind. cbn [List.filter]. by destruct (String.eqb (ev_kind e) kind).
Qed.

(** *** The fallback run on the trace *)
Definition is_fallback (e : Event) : bool :=
  is_kind "PROVIDER_RUN_RECORDED" e && is_str (dict_get_none (ev_payload e) "run_id") "run:2".

Record run_of (h id : string) (r : dict) : Prop := {
  rf_id : text_field r "run_id" id;
  rf_task : text_field r "normalized_task_hash" h
}.

(** A simulator has no run, a first run, or a first and a second. *)
Lemma runs_cases runs : runs_ok runs -> exists h, re_sha h = true /\
  (runs = [] \/ (exists r1, runs = [r1] /\ run_of h "run:1" r1)
   \/ exists r1 r2, runs = [r1; r2] /\ run_of h "run:1" r1 /\ run_of h "run:2" r2).
Proof.
  intros (Hl & h & Hh & Hr). exists h. split; [done|].
  destruct runs as [|r1 [|r2 [|r3 runs]]]; [by left|right; left|right; right|cbn in Hl; lia].
  - exists r1. split; [done|]. by destruct (Hr 0%nat r1 eq_refl).
  - exists r1, r2. split; [done|]. by split; [destruct (Hr 0%nat r1 eq_refl)|destruct (Hr 1%nat r2 eq_refl)].
Qed.

Lemma field_value d k s v : text_field d k s -> dict_get_or d k v = JStr s.
Proof. unfold text_field, dict_get_or. by intros ->. Qed.

(** A marked event is one of the marks. *)
Lemma marked_in (evs : list Event) e : e ∈ evs -> marked e = true -> (ev_kind e, ev_payload e) ∈ omap mark_of evs.
Proof. intros He Hm. apply list_elem_of_omap. exists e. split; [done|]. unfold mark_of. by rewrite Hm. Qed.

Lemma mark_runs runs recs found verified d :
  ("PROVIDER_RUN_RECORDED", d) ∈ marks runs recs found verified -> d ∈ runs.
Proof.
  unfold marks. intros H. apply elem_of_app in H as [H|H].
  - destruct runs as [|r runs]; [by apply not_elem_of_nil in H|].
    apply elem_of_cons in H as [[= ->]|H]; [by left|right].
    apply elem_of_app in H as [(x & [=] & _)%list_elem_of_fmap|(x & [= ->] & Hx)%list_elem_of_fmap]. done.
  - exfalso. apply elem_of_app in H as [H|H]; destruct found, verified; cbn in H;
      repeat (apply elem_of_cons in H as [[=]|H]); by apply not_elem_of_nil in H.
Qed.

(** What the checks take for the first run and for the fallback runs. *)
Definition first_id (runs : list dict) : json := match runs with [] => JNull | _ => JStr "run:1" end.
Definition second_ids (runs : list dict) : list json := match runs with [_; _] => [JStr "run:2"] | _ => [] end.

Lemma primary_id s evidence b : bundle_of s evidence b -> runs_ok (ts_provider_runs s) ->
  _get_primary_run_id b = Ok (first_id (ts_provider_runs s)).
Proof.
  intros Hb Hr. unfold _get_primary_run_id. rewrite (bo_runs _ _ _ Hb).
  destruct (runs_cases _ Hr) as (h & _ & [->|[(r1 & -> & [H1 _])|(r1 & r2 & -> & [H1 _] & _)]]); [done|..];
    cbn [map truthy]; rewrite attr_obj || cbn; by rewrite (field_value _ _ _ JNull H1).
Qed.

Lemma fallback_ids s evidence b : bundle_of s evidence b -> runs_ok (ts_provider_runs s) ->
  fallback_run_ids b = Ok (second_ids (ts_provider_runs s)).
Proof.
  intros Hb Hr. unfold fallback_run_ids. rewrite (bo_runs _ _ _ Hb).
  destruct (runs_cases _ Hr) as (h & _ & [->|[(r1 & -> & [H1 _])|(r1 & r2 & -> & [H1 _] & [H2 _])]]); [done|done|].
  cbn. by rewrite (field_value _ _ _ JNull H2).
Qed.

(** The verifier finds the fallback runs on the trace. *)
Definition recognised (runs : list dict) (evs : list Event) : Prop :=
  forall e, e ∈ evs -> is_kind "PROVIDER_RUN_RECORDED" e = true ->
    records_fallback (first_id runs) (second_ids runs) (JObj (event_document e)) = Ok (is_fallback e).

Lemma sim_recognised s evs recs found : sim_ok s evs recs found -> recognised (ts_provider_runs s) evs.
Proof.
  intros Hs e He Hk. assert (ev_payload e ∈ ts_provider_runs s) as Hin.
  { apply (mark_runs _ recs found (ts_verification s)). rewrite <- (sm_marks _ _ _ _ Hs).
    apply String.eqb_eq in Hk as Hk'. rewrite <- Hk'. apply marked_in; [done|]. unfold marked. by rewrite Hk'. }
  destruct (event_fields e) as (_ & _ & _ & _ & _ & _ & Ep).
  unfold records_fallback, is_fallback. rewrite attr_obj, bind_Ok, Ep, py_or_obj, attr_obj, bind_Ok, Hk.
  destruct (runs_cases _ (ed_runs _ _ _ _ _ _ _ (sm_evidence _ _ _ _ Hs))) as
    (h & _ & [E|[(r1 & E & [H1 _])|(r1 & r2 & E & [H1 _] & [H2 _])]]); rewrite E in Hin |- *.
  - by apply not_elem_of_nil in Hin.
  - apply list_elem_of_singleton in Hin as ->. unfold dict_get_none. by rewrite !(field_value _ _ _ _ H1).
  - apply elem_of_cons in Hin as [->|Hin%list_elem_of_singleton]; [|subst r2]; unfold dict_get_none.
    + by rewrite !(field_value _ _ _ _ H1).
    + by rewrite !(field_value _ _ _ _ H2).
Qed.

Lemma recognised_tail runs e evs : recognised runs (e :: evs) -> recognised runs evs.
Proof. intros H x Hx. apply H. by right. Qed.

Lemma fallback_seqs_read runs evs : recognised runs evs ->
  fallback_run_seqs (first_id runs) (second_ids runs) (documents evs) = Ok (selected is_fallback evs).
Proof.
  induction evs as [|e evs IH]; intros Hr; [done|]. specialize (IH (recognised_tail _ _ _ Hr)).
  destruct (event_fields e) as (_ & _ & _ & Es & _ & Ek & _).
  cbn [documents map fallback_run_seqs]. rewrite !attr_obj, bind_Ok, Ek. cbn [is_str]. fold (documents evs).
  fold (is_kind "PROVIDER_RUN_RECORDED" e). destruct (is_kind "PROVIDER_RUN_RECORDED" e) eqn:E.
  - rewrite (Hr e) by (done || by left). rewrite bind_Ok, IH. destruct (is_fallback e) eqn:F.
    + rewrite !bind_Ok, Es. by rewrite selected_here.
    + unfold selected. cbn [List.filter]. by rewrite F.
  - rewrite bind_Ok, IH. unfold selected. cbn [List.filter]. unfold is_fallback at 2. by rewrite E.
Qed.

(** The first of [l], unless one was found before. *)
Definition or_first (found : json) (l : list json) : json :=
  if is_none found then match l with v :: _ => v | [] => found end else found.

Lemma failover_seqs_read runs evs f r : recognised runs evs ->
  failover_seqs (first_id runs) (second_ids runs) (f, r) (documents evs)
  = Ok (or_first f (selected (is_kind "FAILOVER_DECISION_RECORDED") evs), or_first r (selected is_fallback evs)).
Proof.
  revert f r. induction evs as [|e evs IH]; intros f r Hr.
  { unfold or_first. by destruct (is_none f), (is_none r). }
  specialize (fun f r => IH f r (recognised_tail _ _ _ Hr)).
  destruct (event_fields e) as (_ & _ & _ & Es & _ & Ek & _).
  cbn [documents map failover_seqs]. rewrite !attr_obj, !bind_Ok, Ek, Es. cbn [is_str fst snd].
  fold (documents evs) (is_kind "PROVIDER_RUN_RECORDED" e) (is_kind "FAILOVER_DECISION_RECORDED" e).
  assert ((if is_kind "PROVIDER_RUN_RECORDED" e
           then records_fallback (first_id runs) (second_ids runs) (JObj (event_document e)) else Ok false)
          = Ok (is_fallback e)) as ->.
  { destruct (is_kind "PROVIDER_RUN_RECORDED" e) eqn:E; [apply Hr; [by left|done]|]. unfold is_fallback. by rewrite E. }
  rewrite bind_Ok, IH. unfold selected, or_first. cbn [List.filter].
  destruct (is_kind "FAILOVER_DECISION_RECORDED" e), (is_fallback e), (is_none f) eqn:Ef, (is_none r) eqn:Er;
    cbn [andb is_none map]; by rewrite ?Ef, ?Er.
Qed.

Lemma mark_event (evs : list Event) kind d : (kind, d) ∈ omap mark_of evs ->
  exists e, e ∈ evs /\ ev_kind e = kind /\ ev_payload e = d.
Proof.
  intros (e & He & Hm)%list_elem_of_omap. exists e. unfold mark_of in Hm. destruct (marked e); [|done].
  by injection Hm as <- <-.
Qed.

Lemma selected_some (p : Event -> bool) (evs : list Event) e : e ∈ evs -> p e = true ->
  exists n rest, selected p evs = JInt n :: rest.
Proof.
  intros He Hp. destruct (selected p evs) as [|v rest] eqn:E.
  - assert (JInt (ev_sequence e) ∈ selected p evs) as H.
    { unfold selected. apply list_elem_of_fmap. exists e. split; [done|].
      apply list_elem_of_In, filter_In. split; [by apply list_elem_of_In|done]. }
    rewrite E in H. by apply not_elem_of_nil in H.
  - destruct (selected_in p evs v) as (x & _ & _ & ->); [rewrite E; by left|]. by eexists _, _.
Qed.

Lemma fallback_payload e : is_fallback e = true ->
  ev_kind e = "PROVIDER_RUN_RECORDED" /\ text_field (ev_payload e) "run_id" "run:2".
Proof. intros [H1%String.eqb_eq H2]%andb_true_iff. split; [done|]. by apply is_str_get. Qed.

Lemma first_not_second h r : run_of h "run:1" r -> ~ text_field r "run_id" "run:2".
Proof. intros [H _] H'. unfold text_field in H, H'. by rewrite H in H'. Qed.

Section simulator_bundle.
Variables (s : TRCPSimulator) (evs : list Event) (recs : list dict) (found : option dict).
Hypothesis Hs : sim_ok s evs recs found.
Variables (evidence : option dict) (b : dict).
Hypothesis Hb : bundle_of s evidence b.

Lemma bundle_trace : trace_ok evs (ts_now_unix s) (ts_state s).
Proof. apply Hs. Qed.

Lemma bundle_runs : runs_ok (ts_provider_runs s).
Proof. apply (sm_evidence _ _ _ _ Hs). Qed.

Lemma bundle_items : field_or b "trace" (JList []) = JList (documents evs).
Proof. apply (trace_items _ _ _ _ Hb), Hs. Qed.

Lemma sim_mark e : e ∈ evs -> marked e = true ->
  (ev_kind e, ev_payload e) ∈ marks (ts_provider_runs s) recs found (ts_verification s).
Proof. intros He Hm. rewrite <- (sm_marks _ _ _ _ Hs). by apply marked_in. Qed.

Lemma fallback_recorded e : e ∈ evs -> is_fallback e = true -> ev_payload e ∈ ts_provider_runs s.
Proof.
  intros He [Hk _]%fallback_payload. apply (mark_runs _ recs found (ts_verification s)). rewrite <- Hk.
  apply sim_mark; [done|]. unfold marked. by rewrite Hk.
Qed.

(** The decision comes before the second run, and both are on the trace. *)
Lemma failover_first :
  first_after (selected (is_kind "FAILOVER_DECISION_RECORDED") evs) (selected is_fallback evs) = Ok false
  /\ (length (ts_provider_runs s) = 2%nat -> exists m n rest rest',
        selected (is_kind "FAILOVER_DECISION_RECORDED") evs = JInt m :: rest
        /\ selected is_fallback evs = JInt n :: rest').
Proof.
  pose proof (sm_marks _ _ _ _ Hs) as Hm. pose proof fallback_recorded as Hin. pose proof bundle_trace as Ht.
  pose proof (ed_failover _ _ _ _ _ _ _ (sm_evidence _ _ _ _ Hs)) as Hfo.
  destruct (runs_cases _ bundle_runs) as (h & _ & [E|[(r1 & E & H1)|(r1 & r2 & E & H1 & H2)]]); rewrite E in *.
  1,2: rewrite (selected_none is_fallback), first_none; [done|]; intros e He; apply not_true_is_false; intros Hf;
    specialize (Hin e He Hf).
  - by apply not_elem_of_nil in Hin.
  - apply list_elem_of_singleton in Hin. subst r1. by apply (first_not_second _ _ H1), fallback_payload.
  - destruct (ts_failover_record s) as [record|]; [|cbn in Hfo; lia]. destruct Hfo as (Hlast & _).
    destruct recs as [|d recs']; [done|].
    destruct (omap_split mark_of evs [run_mark r1] (failover_mark d)
      (map failover_mark recs' ++ [run_mark r2] ++ opt_mark "FINDING_RECORDED" found
       ++ opt_mark "VERIFICATION_RECORDED" (ts_verification s))) as (l1 & e & l2 & El & He & Hl1 & _).
    { rewrite Hm. cbn. by rewrite <- app_assoc. }
    assert (ev_kind e = "FAILOVER_DECISION_RECORDED") as Hk.
    { unfold mark_of in He. destruct (marked e); [|done]. by injection He. }
    split.
    + apply (ordered evs _ _ _ _ l1 e l2 Ht El); [unfold is_kind; by rewrite Hk| |].
      { unfold is_fallback, is_kind. by rewrite Hk. }
      intros x Hx. apply not_true_is_false. intros [Hxk Hxf]%fallback_payload.
      assert ((ev_kind x, ev_payload x) ∈ omap mark_of l1) as Hin1.
      { apply marked_in; [done|]. unfold marked. by rewrite Hxk. }
      rewrite Hl1 in Hin1. apply list_elem_of_singleton in Hin1. injection Hin1 as _ Hp. rewrite Hp in Hxf.
      by apply (first_not_second _ _ H1).
    + intros _. destruct (mark_event evs "PROVIDER_RUN_RECORDED" r2) as (x & Hx & Hxk & Hxp).
      { rewrite Hm. cbn. right. right. apply elem_of_app. left. apply elem_of_app. right. by left. }
      destruct (selected_some (is_kind "FAILOVER_DECISION_RECORDED") evs e) as (m & rest & ->).
      { rewrite El. apply elem_of_app. right. by left. } { unfold is_kind. by rewrite Hk. }
      destruct (selected_some is_fallback evs x) as (n & rest' & ->); [done| |by eexists _, _, _, _].
      unfold is_fallback, is_kind. rewrite Hxk, Hxp. unfold dict_get_none.
      by rewrite (field_value _ _ _ _ (rf_id _ _ _ H2)).
Qed.

Lemma created_first :
  first_after (selected (is_kind "SIMULATOR_CREATED") evs) (selected (is_kind "STATE_TRANSITION") evs) = Ok false.
Proof.
  destruct (tk_created _ _ _ bundle_trace) as (e & evs' & E & Hk).
  apply (ordered evs _ _ _ _ [] e evs' bundle_trace E); [by unfold is_kind; rewrite Hk..|].
  intros x Hx. by apply not_elem_of_nil in Hx.
Qed.

(** The marks before those of the finding and its verification. *)
Definition run_marks : list (string * dict) := marks (ts_provider_runs s) recs None None.

Lemma marks_split : marks (ts_provider_runs s) recs found (ts_verification s)
  = run_marks ++ opt_mark "FINDING_RECORDED" found ++ opt_mark "VERIFICATION_RECORDED" (ts_verification s).
Proof. unfold run_marks, marks. cbn [opt_mark app]. by rewrite app_nil_r. Qed.

Lemma run_marks_kind kind d : (kind, d) ∈ run_marks ->
  mem kind ["PROVIDER_RUN_RECORDED"; "FAILOVER_DECISION_RECORDED"] = true.
Proof.
  unfold run_marks, marks. cbn [opt_mark app]. rewrite app_nil_r.
  destruct (ts_provider_runs s) as [|r rest]; intros H; [by apply not_elem_of_nil in H|].
  apply elem_of_cons in H as [[= -> ->]|H]; [done|].
  by apply elem_of_app in H as [(x & [= -> ->] & _)%list_elem_of_fmap|(x & [= -> ->] & _)%list_elem_of_fmap].
Qed.

(** An event of a finding or a verification tells the one on record. *)
Lemma mark_on_record e : e ∈ evs ->
  (ev_kind e = "FINDING_RECORDED" -> found = Some (ev_payload e))
  /\ (ev_kind e = "VERIFICATION_RECORDED" -> ts_verification s = Some (ev_payload e)).
Proof.
  intros He. split; intros Hk.
  all: assert (Hm : marked e = true) by (unfold marked; by rewrite Hk).
  all: pose proof (sim_mark e He Hm) as Hin; rewrite marks_split, Hk in Hin.
  all: apply elem_of_app in Hin as [Hin%run_marks_kind|Hin]; [done|].
  all: destruct found, (ts_verification s); cbn in Hin;
    repeat (apply elem_of_cons in Hin as [Hin|Hin]; [by injection Hin as ->|]); by apply not_elem_of_nil in Hin.
Qed.

Lemma finding_first :
  first_after (selected (is_kind "FINDING_RECORDED") evs) (selected (is_kind "VERIFICATION_RECORDED") evs) = Ok false.
Proof.
  pose proof (sm_marks _ _ _ _ Hs) as Hm. rewrite marks_split in Hm. pose proof bundle_trace as Ht.
  pose proof run_marks_kind as Hrun. pose proof mark_on_record as Hrec.
  pose proof (ed_finding _ _ _ _ _ _ _ (sm_evidence _ _ _ _ Hs)) as Hf.
  destruct (ts_verification s) as [v|] eqn:Ev.
  - destruct (ts_finding s), found as [f0|]; try done.
    destruct (omap_split mark_of evs run_marks ("FINDING_RECORDED", f0) _ Hm) as (l1 & e & l2 & El & He & Hl1 & _).
    assert (ev_kind e = "FINDING_RECORDED") as Hk.
    { unfold mark_of in He. destruct (marked e); [|done]. by injection He. }
    apply (ordered evs _ _ _ _ l1 e l2 Ht El); [by unfold is_kind; rewrite Hk..|].
    intros x Hx. apply not_true_is_false. intros Hxk%String.eqb_eq.
    assert ((ev_kind x, ev_payload x) ∈ omap mark_of l1) as Hin.
    { apply marked_in; [done|]. unfold marked. by rewrite Hxk. }
    rewrite Hl1, Hxk in Hin. by apply Hrun in Hin.
  - rewrite (selected_none (is_kind "VERIFICATION_RECORDED")); [apply first_none|].
    intros e He. apply not_true_is_false. intros Hk%String.eqb_eq.
    apply (proj2 (Hrec e He)) in Hk. congruence.
Qed.

Lemma causal_order_passes : verdict _check_causal_order b true.
Proof.
  apply (passed_ok _ _ "CAUSAL_ORDER" ""). unfold _check_causal_order. rewrite bundle_items. cbn [py_iter].
  destruct (groups_read evs) as (groups & E & Hg).
  rewrite bind_Ok, E, bind_Ok, !Hg, created_first, bind_Ok, (primary_id _ _ _ Hb bundle_runs), bind_Ok,
    (fallback_ids _ _ _ Hb bundle_runs), bind_Ok, (fallback_seqs_read _ _ (sim_recognised _ _ _ _ Hs)), bind_Ok,
    (proj1 failover_first), bind_Ok, finding_first. done.
Qed.

(** *** Failover and tasks *)
Lemma runs_length : (length (ts_provider_runs s) <= 2)%nat.
Proof. apply bundle_runs. Qed.

Lemma failover_checked : verdict _check_failover_decision b
  (negb (is_Some_b (ts_failover_record s)) || (length (ts_provider_runs s) =? 2)%nat).
Proof.
  unfold verdict, _check_failover_decision. rewrite (bo_runs _ _ _ Hb), (bo_failover _ _ _ Hb).
  cbn [py_length]. rewrite length_map, bind_Ok. pose proof runs_length as Hl.
  pose proof (ed_failover _ _ _ _ _ _ _ (sm_evidence _ _ _ _ Hs)) as Hfo.
  destruct (ts_failover_record s) as [record|]; cbn [jrecord is_none is_Some_b negb orb].
  - destruct Hfo as (_ & _ & Hp & _). destruct (length (ts_provider_runs s) =? 2)%nat eqn:En.
    + apply Nat.eqb_eq in En. rewrite (proj2 (Z.ltb_ge _ _)) by lia.
      rewrite (primary_id _ _ _ Hb bundle_runs), bind_Ok.
      assert (first_id (ts_provider_runs s) = JStr "run:1") as Ef by (by destruct (ts_provider_runs s)).
      pose proof (failover_seqs_read _ _ JNull JNull (sim_recognised _ _ _ _ Hs)) as Hq. rewrite Ef in Hq |- *.
      cbn [truthy negb]. rewrite attr_obj, bind_Ok, (field_value _ _ _ _ Hp), py_eq_str. cbn [String.eqb].
      rewrite (fallback_ids _ _ _ Hb bundle_runs), bind_Ok, bundle_items. cbn [py_iter]. rewrite bind_Ok.
      destruct failover_first as [Hle Hex]. destruct (Hex En) as (m & n & rest & rest' & E1 & E2).
      rewrite E1, E2 in Hle. rewrite Hq, E1, E2, bind_Ok. cbn [or_first is_none fst snd first_after] in Hle |- *.
      rewrite Hle, bind_Ok. by eexists.
    + apply Nat.eqb_neq in En. rewrite (proj2 (Z.ltb_lt _ _)) by lia. by eexists.
  - rewrite (proj2 (Z.leb_gt _ _)) by lia. by eexists.
Qed.

Lemma task_passes : verdict _check_task_identity b true.
Proof.
  unfold verdict, _check_task_identity. rewrite (bo_runs _ _ _ Hb).
  destruct (runs_cases _ bundle_runs) as (h & Hh & [->|[(r1 & -> & _)|(r1 & r2 & -> & [_ H1] & [_ H2])]]);
    [by eexists..|].
  destruct h as [|c h]; [done|].
  cbn. rewrite (field_value _ _ _ _ H1), (field_value _ _ _ _ H2). cbn.
  rewrite Ascii.eqb_refl, String.eqb_refl. by eexists.
Qed.

(** *** The finding and its verification *)
Lemma closure_passes : verdict _check_verification_closure b true.
Proof.
  unfold verdict, _check_verification_closure. rewrite (bo_finding _ _ _ Hb), (bo_verification _ _ _ Hb).
  pose proof (ed_finding _ _ _ _ _ _ _ (sm_evidence _ _ _ _ Hs)) as Hf.
  destruct (ts_finding s) as [f|]; [|by eexists]. destruct found as [f0|]; [|done].
  destruct Hf as (id & status & _ & _ & Hst & Hv). cbn [jrecord is_none].
  rewrite attr_obj, bind_Ok, (field_value _ _ _ _ Hst). cbn [is_str].
  destruct (String.eqb status "CONFIRMED") eqn:E; [|by eexists]. apply String.eqb_eq in E as ->.
  destruct (ts_verification s) as [v|]; [|done]. cbn [jrecord is_none].
  destruct Hv as (result & _ & _ & Hr & Hor & Hm). rewrite attr_obj, bind_Ok, (field_value _ _ _ _ Hr). cbn [is_str].
  assert (result = "REPRODUCED") as -> by (by destruct Hor as [<-|[_ ?]]). by eexists.
Qed.

Lemma any_kind_read kind l : any_kind kind (documents l) = Ok (existsb (is_kind kind) l).
Proof.
  unfold any_kind. induction l as [|e l IH]; [done|]. destruct (event_fields e) as (_ & _ & _ & _ & _ & Ek & _).
  cbn [documents map any_r existsb]. rewrite !attr_obj, !bind_Ok, Ek. cbn [is_str]. fold (is_kind kind e).
  by destruct (is_kind kind e).
Qed.

Lemma next_payload_read kind l e : e ∈ l -> is_kind kind e = true ->
  exists x, x ∈ l /\ is_kind kind x = true /\ next_payload kind (documents l) = Ok (JObj (ev_payload x)).
Proof.
  induction l as [|y l IH]; intros He Hk; [by apply not_elem_of_nil in He|].
  destruct (event_fields y) as (_ & _ & _ & _ & _ & Ek & Ep).
  cbn [documents map next_payload]. rewrite !attr_obj, !bind_Ok, Ek, Ep, py_or_obj. cbn [is_str]. fold (is_kind kind y).
  destruct (is_kind kind y) eqn:E; [exists y; split_and!; [by left|done|done]|].
  apply elem_of_cons in He as [->|He]; [congruence|]. destruct (IH He Hk) as (x & Hx & ? & ?).
  exists x. split_and!; [by right|done|done].
Qed.

(** A record of which the trace tells the same. *)
Lemma record_agrees kind (record : option dict) d details :
  record = None \/ (exists e, e ∈ evs /\ is_kind kind e = true)
    /\ (forall e, e ∈ evs -> is_kind kind e = true -> ev_payload e = d)
    /\ (forall r key detail, record = Some r -> (key, detail) ∈ details ->
          exists v, text_field d key v /\ text_field r key v) ->
  record_on_trace kind (jrecord record) (documents evs) details = Ok None.
Proof.
  intros [->|((e & He & Hk) & Hp & Hd)]; [done|]. destruct record as [r|]; [|done].
  unfold record_on_trace. cbn [jrecord is_none].
  destruct (next_payload_read kind evs e He Hk) as (x & Hx & Hxk & ->). rewrite bind_Ok, (Hp x Hx Hxk).
  destruct (truthy (JObj d)); [|done].
  assert (forall key detail, (key, detail) ∈ details -> exists v, text_field d key v /\ text_field r key v) as Hf by eauto.
  clear Hd. induction details as [|[key detail] details IH]; [done|]. cbn [payload_agrees].
  destruct (Hf key detail) as (v & H1 & H2); [by left|].
  unfold differ. rewrite !attr_obj, !bind_Ok, (field_value _ _ _ _ H1), (field_value _ _ _ _ H2), py_eq_str,
    String.eqb_refl. cbn [negb]. apply IH. intros k' d' Hin. apply (Hf k' d'). by right.
Qed.

(** The events of the finding and of its verification. *)
Lemma no_events kind : (forall e, e ∈ evs -> ev_kind e <> kind) -> existsb (is_kind kind) evs = false.
Proof.
  intros H. apply not_true_is_false. intros (e & He & Hk%String.eqb_eq)%existsb_exists.
  apply list_elem_of_In in He. by apply (H e).
Qed.

Lemma consistency_passes : verdict _check_verification_consistency b true.
Proof.
  unfold verdict, _check_verification_consistency.
  rewrite (bo_finding _ _ _ Hb), (bo_verification _ _ _ Hb), bundle_items. cbn [py_iter].
  rewrite bind_Ok, !any_kind_read, !bind_Ok. pose proof mark_on_record as Hrec.
  pose proof (sm_marks _ _ _ _ Hs) as Hm. rewrite marks_split in Hm.
  pose proof (ed_finding _ _ _ _ _ _ _ (sm_evidence _ _ _ _ Hs)) as Hf.
  assert (forall kind d, (kind, d) ∈ opt_mark "FINDING_RECORDED" found
    ++ opt_mark "VERIFICATION_RECORDED" (ts_verification s) -> exists e, e ∈ evs /\ is_kind kind e = true) as Hev.
  { intros kind d Hin. destruct (mark_event evs kind d) as (e & He & <- & _).
    - rewrite Hm. apply elem_of_app. by right.
    - exists e. split; [done|]. apply String.eqb_refl. }
  destruct (ts_finding s) as [f|], found as [f0|]; try done.
  - destruct Hf as (id & status & Hid & Hid0 & _ & Hv). cbn [jrecord is_none andb].
    rewrite (record_agrees "FINDING_RECORDED" (Some f) f0), bind_Ok.
    2:{ right. split_and!; [by apply (Hev _ f0); left| |].
        - intros e He Hk%String.eqb_eq. by injection (proj1 (Hrec e He) Hk).
        - intros r key detail [= <-] [= -> ->]%list_elem_of_singleton. by exists id. }
    destruct (ts_verification s) as [v|] eqn:Ev; cbn [jrecord is_none andb].
    + destruct Hv as (result & Hvid & Hvv & _).
      rewrite (record_agrees "VERIFICATION_RECORDED" (Some v) v), bind_Ok.
      2:{ right. split_and!; [by apply (Hev _ v); right; left| |].
          - intros e He Hk%String.eqb_eq. by injection (proj2 (Hrec e He) Hk).
          - intros r key detail [= <-] Hin.
            apply elem_of_cons in Hin as [[= -> ->]|[= -> ->]%list_elem_of_singleton]; by eexists. }
      cbn [negb]. unfold differ. rewrite !attr_obj, !bind_Ok, (field_value _ _ _ _ Hid), (field_value _ _ _ _ Hvid), py_eq_str,
        String.eqb_refl. by eexists.
    + rewrite no_events by (intros e He Hk; specialize (proj2 (Hrec e He) Hk); congruence). by eexists.
  - rewrite Hf in *. cbn [jrecord is_none andb].
    rewrite !no_events by (intros e He Hk; first [specialize (proj2 (Hrec e He) Hk)|specialize (proj1 (Hrec e He) Hk)]; congruence).
    by eexists.
Qed.

(** *** Authorization and scope *)
Hypothesis Hstarted : ts_state s <> "NEW".

Lemma scopes_narrow : narrower (ts_scope s) (ts_initial_scope s)
  /\ scope_ok (ts_authorization s) (ts_initial_scope s) /\ scope_ok (ts_authorization s) (ts_scope s)
  /\ au_authorization_id (ts_authorization s) <> "".
Proof. destruct (sm_authority _ _ _ _ Hs) as [_ H]. destruct (H Hstarted) as (? & ? & ? & ?). done. Qed.

Lemma authorization_passes : verdict _check_authorization_continuity b true.
Proof.
  unfold verdict, _check_authorization_continuity.
  rewrite (bo_authorization _ _ _ Hb), (bo_initial _ _ _ Hb), (bo_effective _ _ _ Hb), (bo_failover _ _ _ Hb).
  destruct scopes_narrow as (_ & [Hi _] & [He _] & Hid).
  pose proof (ed_failover _ _ _ _ _ _ _ (sm_evidence _ _ _ _ Hs)) as Hfo.
  rewrite !attr_obj, !bind_Ok.
  change (dict_get_or (AuthorizationRecord_as_dict _) "authorization_id" _)
    with (JStr (au_authorization_id (ts_authorization s))).
  change (dict_get_or (ScopeEnvelope_as_dict (ts_initial_scope s)) "authorization_id" _)
    with (JStr (sc_authorization_id (ts_initial_scope s))).
  change (dict_get_or (ScopeEnvelope_as_dict (ts_scope s)) "authorization_id" _)
    with (JStr (sc_authorization_id (ts_scope s))).
  change (dict_get_or (ScopeEnvelope_as_dict (ts_scope s)) "scope_id" _)
    with (JStr (sc_scope_id (ts_scope s))).
  cbn [truthy]. rewrite (proj2 (String.eqb_neq _ _) Hid), Hi, He, !py_eq_str, String.eqb_refl. cbn [negb].
  destruct (ts_failover_record s) as [record|]; cbn [jrecord is_none]; [|by eexists].
  destruct Hfo as (_ & _ & _ & Hsc). rewrite attr_obj, bind_Ok, (field_value _ _ _ _ Hsc), bind_Ok, py_eq_str, String.eqb_refl.
  by eexists.
Qed.
End simulator_bundle.

Lemma py_in_dedup x seen l : py_in x (dedup seen l) = true -> py_in x l = true.
Proof.
  unfold py_in. rewrite !existsb_exists. intros (y & Hy & Hxy). exists y. split; [|done].
  revert seen Hy. induction l as [|z l IH]; intros seen; [done|]. cbn [dedup].
  destruct (py_in z seen); [intros Hy; right; by eapply IH|]. intros [->|Hy]; [by left|right; by eapply IH].
Qed.

Lemma py_in_strings x l : py_in (JStr x) (map JStr l) = mem x l.
Proof.
  unfold py_in, mem. induction l as [|y l IH]; [done|]. cbn [map existsb]. by rewrite IH.
Qed.

Lemma dedup_strings x seen l : mem x l = true -> mem x seen = true \/
  py_in (JStr x) (dedup (map JStr seen) (map JStr l)) = true.
Proof.
  revert seen. induction l as [|y l IH]; intros seen; [done|]. intros [->|H]%mem_true%elem_of_cons; cbn [map dedup].
  - rewrite py_in_strings. destruct (mem y seen); [by left|right]. cbn. by rewrite String.eqb_refl.
  - apply mem_true in H. rewrite py_in_strings. destruct (mem y seen) eqn:E; [by apply IH|].
    destruct (IH (y :: seen) H) as [Hx|Hx].
    + apply mem_true, elem_of_cons in Hx as [->|Hx]; [right; cbn; by rewrite String.eqb_refl|left; by apply mem_true].
    + right. apply orb_true_iff. right. exact Hx.
Qed.

(** The set of a list of strings. *)
Definition string_set (l : list string) : list json := dedup [] (map JStr l).

Lemma string_set_in x l : py_in (JStr x) (string_set l) = mem x l.
Proof.
  destruct (mem x l) eqn:E.
  - by destruct (dedup_strings x [] l E).
  - apply not_true_is_false. intros H%py_in_dedup. rewrite py_in_strings in H. congruence.
Qed.

Lemma string_set_elements v l : v ∈ string_set l -> exists x, v = JStr x /\ mem x l = true.
Proof.
  intros H. assert (v ∈ map JStr l) as (x & -> & Hx)%list_elem_of_fmap.
  { revert H. unfold string_set. generalize (@nil json). generalize (map JStr l). clear l.
    induction l as [|y l IH]; intros seen; [done|]. cbn [dedup].
    destruct (py_in y seen); [intros Hv; right; by eapply IH|].
    intros [->|Hv]%elem_of_cons; [by left|right; by eapply IH]. }
  exists x. split; [done|]. by apply mem_true.
Qed.

Lemma string_set_within a l : a ⊆ l -> within (string_set a) (string_set l) = true.
Proof.
  intros Hal. apply forallb_forall. intros v Hv%list_elem_of_In.
  apply string_set_elements in Hv as (x & -> & Hx). rewrite string_set_in. by apply mem_true, Hal, mem_true.
Qed.

Lemma py_or_jstrs l : py_or (jstrs l) (JList []) = jstrs l.
Proof. unfold jstrs. by destruct l. Qed.

Lemma set_field_strings d key l : dict_get_or d key JNull = jstrs l ->
  set_field (JObj d) key = Ok (string_set l).
Proof.
  intros H. unfold set_field. rewrite attr_obj, bind_Ok, H, py_or_jstrs. cbn [jstrs py_iter]. rewrite bind_Ok.
  unfold py_set. assert (exists u, map_r py_hash (map JStr l) = Ok u) as [u ->]; [|done].
  clear H. induction l as [|x l [u IH]]; [by eexists|]. cbn [map map_r py_hash]. rewrite bind_Ok, IH. by eexists.
Qed.

Lemma scope_sets sc : _scope_permission_set (JObj (ScopeEnvelope_as_dict sc)) = Ok {|
  pm_targets := string_set (sc_allowed_targets sc); pm_actions := string_set (sc_allowed_actions sc);
  pm_environments := string_set (sc_allowed_environments sc);
  pm_prohibited := string_set (sc_prohibited_actions sc) |}.
Proof.
  unfold _scope_permission_set.
  by rewrite (set_field_strings _ "allowed_targets" (sc_allowed_targets sc)),
    (set_field_strings _ "allowed_actions" (sc_allowed_actions sc)),
    (set_field_strings _ "allowed_environments" (sc_allowed_environments sc)),
    (set_field_strings _ "prohibited_actions" (sc_prohibited_actions sc)) by done.
Qed.

Lemma monotonicity_passes s evidence b : bundle_of s evidence b -> narrower (ts_scope s) (ts_initial_scope s) ->
  verdict _check_scope_monotonicity b true.
Proof.
  intros Hb (_ & Ht & Ha & He & Hp & Hd & Hn & Hn' & Hx)%narrower_spec.
  unfold verdict, _check_scope_monotonicity. rewrite (bo_initial _ _ _ Hb), (bo_effective _ _ _ Hb).
  change (negb (truthy (JObj (ScopeEnvelope_as_dict (ts_initial_scope s))))
          || negb (truthy (JObj (ScopeEnvelope_as_dict (ts_scope s))))) with false.
  rewrite !scope_sets, !bind_Ok. unfold check_sets.
  cbn [pm_targets pm_actions pm_environments pm_prohibited].
  rewrite !string_set_within by done. cbn [negb]. rewrite bind_Ok.
  assert (forall name fixed v initial effective, dict_get_or initial name (JStr "") = JStr v ->
    dict_get_or effective name (JStr "") = JStr v ->
    check_mode name fixed (JObj initial) (JObj effective) = Ok None) as Hmode.
  { intros name fixed v initial effective E1 E2. unfold check_mode.
    rewrite !attr_obj, !bind_Ok, E1, E2. cbn [is_str]. by destruct (String.eqb v fixed). }
  rewrite (Hmode "network_mode" _ "LOCAL_ONLY") by (cbn; by rewrite ?Hn, ?Hn'). rewrite bind_Ok.
  rewrite (Hmode "data_handling_class" _ (sc_data_handling_class (ts_scope s))) by (cbn; by rewrite ?Hd).
  rewrite bind_Ok.
  rewrite !attr_obj, !bind_Ok.
  change (dict_get_or (ScopeEnvelope_as_dict (ts_initial_scope s)) "expires_at" _)
    with (JInt (sc_expires_at (ts_initial_scope s))).
  change (dict_get_or (ScopeEnvelope_as_dict (ts_scope s)) "expires_at" _)
    with (JInt (sc_expires_at (ts_scope s))).
  cbn [is_number negb orb py_lt]. rewrite (proj2 (Z.ltb_ge _ _)) by lia. by eexists.
Qed.

Lemma no_overlap sc name : common (sc_allowed_actions sc) (sc_prohibited_actions sc) = [] ->
  _check_scope_overlap (JObj (ScopeEnvelope_as_dict sc)) name = Ok None.
Proof.
  intros Hc. unfold _check_scope_overlap.
  rewrite (set_field_strings _ "allowed_actions" (sc_allowed_actions sc)), bind_Ok,
    (set_field_strings _ "prohibited_actions" (sc_prohibited_actions sc)), bind_Ok by done.
  destruct (List.filter _ _) as [|v rest] eqn:E; [done|].
  assert (In v (v :: rest)) as Hv by by left. rewrite <- E in Hv. apply filter_In in Hv as [Hv Hp].
  apply list_elem_of_In, string_set_elements in Hv as (x & -> & Hx). rewrite string_set_in in Hp.
  assert (In x (common (sc_allowed_actions sc) (sc_prohibited_actions sc))) as Hin.
  { apply filter_In. split; [by apply list_elem_of_In, mem_true|done]. }
  by rewrite Hc in Hin.
Qed.

Lemma prohibited_passes s evidence b : bundle_of s evidence b ->
  scope_ok (ts_authorization s) (ts_initial_scope s) -> scope_ok (ts_authorization s) (ts_scope s) ->
  verdict _check_prohibited_actions b true.
Proof.
  intros Hb [_ Hi] [_ He]. apply (passed_ok _ _ "PROHIBITED_ACTION" ""). unfold _check_prohibited_actions.
  rewrite (bo_initial _ _ _ Hb), (bo_effective _ _ _ Hb), !no_overlap by done. done.
Qed.

(** *** The receipt *)
Definition checks_of (b : dict) : list CheckResult := map (run_check b) CHECK_FUNCTIONS.

Lemma verdict_run id f b good : verdict f b good -> check_failed (run_check b (id, f)) = negb good.
Proof. intros (c & E & Hc). unfold run_check. cbn [snd]. by rewrite E. Qed.

Lemma find_existsb {A} (p : A -> bool) l :
  existsb p l = match List.find p l with Some _ => true | None => false end.
Proof. induction l as [|x l IH]; [done|]. cbn. by destruct (p x). Qed.

Lemma existsb_snd {A B} (p : B -> bool) (l : list (A * B)) :
  existsb p (map snd l) = existsb (fun c => p (snd c)) l.
Proof. induction l as [|x l IH]; [done|]. cbn. by rewrite IH. Qed.

(** Every name of the order has its function. *)
Definition rounds_of (b : dict) : list (string * CheckResult) :=
  map (fun check => (fst check, run_check b check)) CHECK_FUNCTIONS.

Lemma verify_run b :
  verify_evidence_bundle b = Ok (seal "receipt_sha256" (receipt_body b (rounds_of b))).
Proof. reflexivity. Qed.

Lemma rounds_checks b : map snd (rounds_of b) = checks_of b.
Proof. unfold rounds_of, checks_of. by rewrite map_map. Qed.

(** The verifier says [verdict] of the document. *)
Definition says (b : dict) (verdict : string) : Prop :=
  exists receipt, verify_evidence_bundle b = Ok receipt /\ text_field receipt "result" verdict.

Lemma receipt_result b :
  text_field (seal "receipt_sha256" (receipt_body b (rounds_of b))) "result"
    (if existsb check_failed (checks_of b) then "FAIL" else "PASS").
Proof.
  rewrite <- rounds_checks, existsb_snd, find_existsb. unfold receipt_body.
  destruct (List.find _ (rounds_of b)) as [[id c]|]; unfold seal, text_field; by rewrite dict_get_set_ne.
Qed.

Lemma says_exact b verdict :
  says b verdict <-> verdict = if existsb check_failed (checks_of b) then "FAIL" else "PASS".
Proof.
  unfold says. rewrite verify_run. pose proof (receipt_result b) as H. unfold text_field in *. split.
  - intros (receipt & [= <-] & Hr). rewrite H in Hr. by injection Hr as <-.
  - intros ->. by eexists.
Qed.

(** The workload check of a bundle fails. *)
Definition workload_fails (b : dict) : bool :=
  check_failed (run_check b ("WORKLOAD_EVIDENCE_BINDING", _check_workload_evidence_binding)).

(** A simulator that has come to an end, with no failover left undone. *)
Definition ended s : bool :=
  mem (ts_state s) TERMINAL_STATES
  && (negb (is_Some_b (ts_failover_record s)) || (length (ts_provider_runs s) =? 2)%nat).

Lemma simulator_checks s evidence b : simulated s -> ts_state s <> "NEW" -> bundle_of s evidence b ->
  existsb check_failed (checks_of b) = negb (ended s && negb (workload_fails b)).
Proof.
  intros (evs & recs & found & Hs) Hst Hb. pose proof (sm_documents _ _ _ _ Hs) as Hd.
  pose proof (sm_trace _ _ _ _ Hs) as Ht. destruct (scopes_narrow _ _ _ _ Hs Hst) as (Hn & Hi & He & _).
  unfold checks_of, CHECK_FUNCTIONS. cbn [map existsb].
  rewrite (verdict_run _ _ _ _ (integrity_passes _ _ _ Hb)), (verdict_run _ _ _ _ (chain_passes _ _ _ _ Hb Hd Ht)),
    (verdict_run _ _ _ _ (times_pass _ _ _ _ Hb Hd Ht)), (verdict_run _ _ _ _ (transitions_pass _ _ _ _ Hb Hd Ht)),
    (verdict_run _ _ _ _ (causal_order_passes _ _ _ _ Hs _ _ Hb)),
    (verdict_run _ _ _ _ (authorization_passes _ _ _ _ Hs _ _ Hb Hst)),
    (verdict_run _ _ _ _ (monotonicity_passes _ _ _ Hb Hn)), (verdict_run _ _ _ _ (prohibited_passes _ _ _ Hb Hi He)),
    (verdict_run _ _ _ _ (failover_checked _ _ _ _ Hs _ _ Hb)), (verdict_run _ _ _ _ (task_passes _ _ _ _ Hs _ _ Hb)),
    (verdict_run _ _ _ _ (closure_passes _ _ _ _ Hs _ _ Hb)),
    (verdict_run _ _ _ _ (consistency_passes _ _ _ _ Hs _ _ Hb)),
    (verdict_run _ _ _ _ (final_state _ _ _ _ Hb Hd Ht Hst)).
  fold (workload_fails b). unfold ended.
  destruct (mem _ TERMINAL_STATES), (negb (is_Some_b _) || _), (workload_fails b); done.
Qed.

(** *** What the checks are called *)
Definition named {A} (id : string) (name : A -> option CheckResult) (m : result A) : Prop :=
  forall a c, m = Ok a -> name a = Some c ->
    ck_check_id c = id /\ mem (ck_result c) ["PASS"; "FAIL"; "SKIP"] = true.

Definition is_check (id : string) (m : result CheckResult) : Prop := named id Some m.
Definition stops {A} (id : string) (m : result (CheckResult + A)) : Prop :=
  named id (fun r => match r with inl c => Some c | inr _ => None end) m.

Lemma named_bind {A B} id (name : B -> option CheckResult) (m : result A) (f : A -> result B) :
  (forall a, named id name (f a)) -> named id name (m ≫= f).
Proof. intros H b c E Hb. destruct m as [a|e]; [by apply (H a b c)|done]. Qed.

Lemma named_err {A} id (name : A -> option CheckResult) cls msg : named id name (fail cls msg).
Proof. done. Qed.

Lemma named_passed id detail : is_check id (passed id detail).
Proof. intros a c [= <-] [= <-]. done. Qed.

Lemma named_failed id detail : is_check id (failed id detail).
Proof. intros a c [= <-] [= <-]. done. Qed.

Lemma named_stop {A} id detail : stops (A := A) id (stop id detail).
Proof. intros a c [= <-] [= <-]. done. Qed.

Lemma named_on {A} id (a : A) : stops id (Ok (inr a)).
Proof. by intros r c [= <-]. Qed.

Lemma named_each {A} id (check : Z -> A -> json -> result (CheckResult + A)) idx acc l :
  (forall i a x, stops id (check i a x)) -> stops id (check_each check idx acc l).
Proof.
  intros H. revert idx acc. induction l as [|x l IH]; intros idx acc; [apply named_on|]. cbn [check_each].
  intros r c E Hr. destruct (check idx acc x) as [[c'|acc']|e] eqn:Ec; [|by apply (IH (idx + 1) acc' r c)|done].
  injection E as <-. by apply (H idx acc x (inl c') c).
Qed.

(** The end of a loop. *)
Lemma named_concluded {A} id detail (m : result (CheckResult + A)) : stops id m ->
  is_check id (m ≫= concluded id detail).
Proof.
  intros H a c E Ha. destruct m as [[c'|x]|e]; [|by apply (named_passed id detail a c)|done].
  injection E as <-. by apply (H (inl c') c).
Qed.

Lemma named_through {A B} id (name : A -> option CheckResult) (name' : B -> option CheckResult) m
    (f : A -> result B) : named id name m ->
  (forall a, named id name (Ok a) -> named id name' (f a)) -> named id name' (m ≫= f).
Proof. intros Hm Hf b c E Hb. destruct m as [a|e]; [by apply (Hf a Hm b c)|done]. Qed.

Ltac named_go := repeat first
  [ apply named_passed | apply named_failed | apply named_err | apply named_stop | apply named_on
  | apply named_concluded, named_each; intros ? ? ?
  | apply named_bind; intros ?
  | case_match ].

Lemma overlap_named scope name : named "PROHIBITED_ACTION" id (_check_scope_overlap scope name).
Proof.
  unfold _check_scope_overlap. do 2 (apply named_bind; intros ?). destruct (List.filter _ _); [by intros ? ? [= <-]|].
  apply named_bind. intros shown r c [= <-] [= <-]. done.
Qed.

Lemma path_named prev l : is_check "STATE_TRANSITION" (check_path prev l).
Proof. revert prev. induction l as [|[x y] l IH]; intros prev; cbn [check_path]; named_go; apply IH. Qed.

Lemma runs_named b task claimed : is_check "WORKLOAD_EVIDENCE_BINDING" (check_workload_runs b task claimed).
Proof.
  unfold check_workload_runs. case_match; [apply named_failed|]. apply named_bind. intros runs.
  eapply named_through.
  - apply (named_each "WORKLOAD_EVIDENCE_BINDING"). intros i a x. unfold run_binds. named_go.
  - intros [c|[]] Hc; [|apply named_passed|apply named_failed]. intros ? ? [= <-] [= <-]. by apply (Hc (inl c) c).
Qed.

(** Each check answers under its own name, with one of the three results. *)
Lemma checks_named check b c : check ∈ CHECK_FUNCTIONS -> snd check b = Ok c ->
  ck_check_id c = fst check /\ mem (ck_result c) ["PASS"; "FAIL"; "SKIP"] = true.
Proof.
  intros H E. revert c E. enough (is_check (fst check) (snd check b)) as Hn by (intros c E; by apply (Hn c c)).
  revert H. unfold CHECK_FUNCTIONS. rewrite !elem_of_cons.
  intros [->|[->|[->|[->|[->|[->|[->|[->|[->|[->|[->|[->|[->|[->|[]%not_elem_of_nil]]]]]]]]]]]]]]; cbn [fst snd].
  - unfold _check_bundle_integrity. named_go.
  - unfold _check_trace_hash_chain, chain_event. named_go.
  - unfold _check_temporal_order, timed_event. named_go.
  - unfold _check_state_transitions. named_go. apply path_named.
  - unfold _check_causal_order. named_go.
  - unfold _check_authorization_continuity. named_go.
  - unfold _check_scope_monotonicity. named_go.
  - unfold _check_prohibited_actions.
    eapply named_through; [apply overlap_named|]. intros [c|] H1; [intros ? ? [= <-] [= <-]; by apply (H1 (Some c))|].
    eapply named_through; [apply overlap_named|]. intros [c|] H2; [intros ? ? [= <-] [= <-]; by apply (H2 (Some c))|].
    apply named_passed.
  - unfold _check_failover_decision. named_go.
  - unfold _check_task_identity, same_task. named_go.
  - unfold _check_verification_closure. named_go.
  - unfold _check_verification_consistency. named_go.
  - unfold _check_final_state. named_go.
  - unfold _check_workload_evidence_binding, check_task_reference. named_go; [|apply runs_named].
    intros ? ? [= <-] [= <-]. done.
Qed.

Lemma run_named check b : check ∈ CHECK_FUNCTIONS ->
  ck_check_id (run_check b check) = fst check /\ mem (ck_result (run_check b check)) ["PASS"; "FAIL"; "SKIP"] = true.
Proof.
  intros H. unfold run_check. destruct (snd check b) as [c|e] eqn:E; [by eapply checks_named|done].
Qed.

Lemma checks_in_order b : map ck_check_id (checks_of b) = CHECK_ORDER.
Proof.
  transitivity (map fst CHECK_FUNCTIONS); [|done].
  unfold checks_of. rewrite map_map. apply map_ext_in. intros check H.
  apply run_named. by apply list_elem_of_In.
Qed.

(** The name of the round and the name in its result are the same. *)
Lemma first_failure b : fst <$> List.find (fun c => check_failed (snd c)) (rounds_of b)
  = ck_check_id <$> List.find check_failed (checks_of b).
Proof.
  unfold rounds_of, checks_of. assert (forall check, check ∈ CHECK_FUNCTIONS -> ck_check_id (run_check b check) = fst check) as H.
  { intros check Hin. by apply run_named. }
  revert H. induction CHECK_FUNCTIONS as [|check l IH]; intros H; [done|]. cbn [map List.find snd].
  destruct (check_failed _); [|by apply IH; intros x Hx; apply H; right].
  cbn. by rewrite H by by left.
Qed.

(** *** What a receipt with PASS stands for *)
Definition good (m : result CheckResult) : Prop := exists c, m = Ok c /\ check_failed c = false.

Lemma good_failed id detail : ~ good (failed id detail).
Proof. by intros (c & [= <-] & H). Qed.

Lemma good_bind {A} (m : result A) f : good (m ≫= f) -> exists a, m = Ok a /\ good (f a).
Proof. intros (c & H & Hc). destruct m as [a|e]; [|done]. exists a. split; [done|by exists c]. Qed.

Lemma good_guard (bad : bool) id detail m : good (if bad then failed id detail else m) -> bad = false /\ good m.
Proof. destruct bad; [by intros H%good_failed|done]. Qed.

Lemma pass_good b check : says b "PASS" -> check ∈ CHECK_FUNCTIONS -> good (snd check b).
Proof.
  rewrite says_exact. destruct (existsb check_failed (checks_of b)) eqn:E; [done|]. intros _ Hin.
  assert (check_failed (run_check b check) = false) as Hf.
  { apply not_true_is_false. intros Ht. rewrite (proj2 (existsb_exists _ _)) in E; [done|].
    exists (run_check b check). split; [|done]. unfold checks_of. apply in_map. by apply list_elem_of_In. }
  unfold run_check in Hf. destruct (snd check b) as [c|e] eqn:Ec; [by exists c|done].
Qed.

Lemma attr_get_inv v key default x : attr_get v key default = Ok x ->
  exists d, v = JObj d /\ x = dict_get_or d key default.
Proof. destruct v as [| | | | |d]; [done..|]. intros [= <-]. by exists d. Qed.

Lemma py_eq_str_inv v x : py_eq v (JStr x) = true -> v = JStr x.
Proof. destruct v; try done. by intros ->%String.eqb_eq. Qed.

Lemma is_str_inv v x : is_str v x = true -> v = JStr x.
Proof. destruct v; try done. by intros ->%String.eqb_eq. Qed.

Lemma field_present d key x : dict_get_or d key (JStr "") = JStr x -> x <> "" -> text_field d key x.
Proof. unfold dict_get_or, text_field. destruct (dict_get d key) as [v|]; [by intros ->|]. by intros [= <-]. Qed.

(** The hash chain of a trace, from the digest [previous] and the number [i]. *)
Fixpoint chained (previous : string) (i : Z) (trace : list json) : Prop :=
  match trace with
  | [] => True
  | event :: rest => exists d, event = JObj d /\ text_field d "previous_event_sha256" previous
      /\ text_field d "event_sha256" (canonical_sha256 (JObj (dict_del d "event_sha256")))
      /\ py_eq (dict_get_none d "sequence") (JInt i) = true
      /\ chained (canonical_sha256 (JObj (dict_del d "event_sha256"))) (i + 1) rest
  end.

Lemma digest_nonempty v : canonical_sha256 v <> "".
Proof. intros E. pose proof (sha256_hex_sha (canonical_json v)) as H. unfold canonical_sha256 in E. by rewrite E in H. Qed.

Lemma chain_event_inv i previous event r : 0 < i -> previous <> "" ->
  chain_event i (JStr previous) event = Ok (inr r) ->
  exists d, event = JObj d /\ text_field d "previous_event_sha256" previous
    /\ text_field d "event_sha256" (canonical_sha256 (JObj (dict_del d "event_sha256")))
    /\ py_eq (dict_get_none d "sequence") (JInt i) = true
    /\ r = JStr (canonical_sha256 (JObj (dict_del d "event_sha256"))).
Proof.
  intros Hi Hp. unfold chain_event. intros (p & (d & -> & ->)%attr_get_inv & H)%bind_ok. exists d. split; [done|].
  destruct (py_eq _ (JStr previous)) eqn:E1; [|done]. apply py_eq_str_inv in E1. cbn [negb] in H.
  apply bind_ok in H as (? & (? & [= <-] & ->)%attr_get_inv & H). destruct (is_str _ _) eqn:E2; [|done]. apply is_str_inv in E2. cbn [negb] in H.
  apply bind_ok in H as (? & (? & [= <-] & ->)%attr_get_inv & H). destruct (py_eq _ (JInt i)) eqn:E3; [|done]. cbn [negb] in H.
  injection H as <-. split_and!; [by apply field_present|apply field_present; [done|apply digest_nonempty]| |done].
  unfold dict_get_none, dict_get_or in E3 |- *. destruct (dict_get d "sequence"); [done|]. apply (Z.eqb_eq (-1) i) in E3. lia.
Qed.

Lemma chain_each_inv i previous trace r : 0 < i -> previous <> "" ->
  check_each chain_event i (JStr previous) trace = Ok (inr r) -> chained previous i trace.
Proof.
  revert i previous. induction trace as [|x trace IH]; intros i previous Hi Hp; [done|]. cbn [check_each].
  intros ([c|a] & Hx & H)%bind_ok; [done|].
  destruct (chain_event_inv _ _ _ _ Hi Hp Hx) as (d & -> & H1 & H2 & H3 & ->). exists d. split_and!; try done.
  apply IH; [lia|apply digest_nonempty|done].
Qed.

(** A loop ends early only with a failure. *)
Definition only_fails {A} (m : result (CheckResult + A)) : Prop :=
  forall c, m = Ok (inl c) -> check_failed c = true.

Lemma fails_bind {A B} (m : result A) (f : A -> result (CheckResult + B)) :
  (forall a, only_fails (f a)) -> only_fails (m ≫= f).
Proof. intros H c E. destruct m as [a|e]; [by apply (H a)|done]. Qed.

Lemma fails_stop {A} id detail : only_fails (A := A) (stop id detail).
Proof. by intros c [= <-]. Qed.

Lemma fails_on {A} (a : A) : only_fails (Ok (inr a)).
Proof. done. Qed.

Ltac fails_go := repeat first [apply fails_stop | apply fails_on | apply fails_bind; intros ? | case_match].

Lemma loop_good {A} id detail (check : Z -> A -> json -> result (CheckResult + A)) i acc l :
  (forall i a x, only_fails (check i a x)) -> good (check_each check i acc l ≫= concluded id detail) ->
  exists r, check_each check i acc l = Ok (inr r).
Proof.
  intros Hf (r & E & (c' & Hc & H))%good_bind. rewrite E. destruct r as [c|a]; [|by eexists]. exfalso.
  injection Hc as ->. revert i acc E. induction l as [|x l IH]; intros i acc; [done|]. cbn [check_each].
  intros ([c|a] & Hx & E)%bind_ok; [|by apply (IH (i + 1) a)]. injection E as ->.
  apply Hf in Hx. congruence.
Qed.

(** *** What a PASS stands for, read off the document

    The following does not use the readers of the verifier, only plain lookups. *)

(** The trace of the document, as a list of events. *)
Definition trace_is (b : dict) (events : list dict) : Prop :=
  dict_get b "trace" = Some (JList (map JObj events))
  \/ events = [] /\ forall v, dict_get b "trace" = Some v -> truthy v = false.

(** The moves that the events record, in their order. *)
Fixpoint records_moves (events : list dict) (moves : list (string * string)) : Prop :=
  match events with
  | [] => moves = []
  | event :: rest =>
      ~ text_field event "kind" "STATE_TRANSITION" /\ records_moves rest moves
      \/ text_field event "kind" "STATE_TRANSITION"
         /\ exists payload x y moves', dict_get event "payload" = Some (JObj payload)
              /\ text_field payload "from" x /\ text_field payload "to" y
              /\ moves = (x, y) :: moves' /\ records_moves rest moves'
  end.

(** The moves of the protocol. *)
Definition protocol_moves : list (string * string) :=
  [("NEW", "AUTHORIZED"); ("AUTHORIZED", "ACTIVE"); ("AUTHORIZED", "AUTH_EXPIRED");
   ("AUTHORIZED", "SCOPE_INVALID"); ("ACTIVE", "VERIFYING"); ("ACTIVE", "DEGRADED"); ("ACTIVE", "ABORTED");
   ("DEGRADED", "FAILOVER_PENDING"); ("FAILOVER_PENDING", "ACTIVE_ON_FALLBACK");
   ("FAILOVER_PENDING", "AUTH_EXPIRED"); ("FAILOVER_PENDING", "SCOPE_INVALID");
   ("FAILOVER_PENDING", "HUMAN_REVIEW_REQUIRED"); ("FAILOVER_PENDING", "ABORTED");
   ("ACTIVE_ON_FALLBACK", "VERIFYING"); ("ACTIVE_ON_FALLBACK", "AUTH_EXPIRED");
   ("ACTIVE_ON_FALLBACK", "SCOPE_INVALID"); ("ACTIVE_ON_FALLBACK", "ABORTED"); ("VERIFYING", "CLOSED")].

(** They lead from one state to another. *)
Fixpoint leads (a : string) (moves : list (string * string)) (c : string) : Prop :=
  match moves with
  | [] => a = c
  | (x, y) :: rest => x = a /\ (x, y) ∈ protocol_moves /\ leads y rest c
  end.

(** [v] is among the values that a scope lists under [key]: the elements of a list, the
    characters of a string or the keys of an object. *)
Definition listed (scope : dict) (key : string) (v : json) : Prop :=
  match dict_get scope key with
  | Some (JList l) => v ∈ l
  | Some (JStr s) => exists c, v = JStr c /\ c ∈ py_chars s
  | Some (JObj d) => exists k, v = JStr k /\ k ∈ dict_keys d
  | _ => False
  end.

(** Every value listed in the one scope equals a value listed in the other. *)
Definition lists_within (key : string) (small large : dict) : Prop :=
  forall v, listed small key v -> exists w, listed large key w /\ py_eq v w = true.

Definition no_conflict (scope : dict) : Prop :=
  forall v w, listed scope "allowed_actions" v -> listed scope "prohibited_actions" w -> py_eq v w = false.

(** The scope stays in a mode, and ends no later, if it says when. *)
Definition mode_kept (i e : dict) (key fixed : string) : Prop := text_field i key fixed -> text_field e key fixed.

Definition ends_by (i e : dict) : Prop :=
  forall x y, dict_get i "expires_at" = Some (JInt x) -> dict_get e "expires_at" = Some (JInt y) -> y <= x.

(** The documents tell equal values, an absent one as the empty string. *)
Definition agree_on (d d' : dict) (key key' : string) : Prop :=
  py_eq (dict_get_or d key (JStr "")) (dict_get_or d' key' (JStr "")) = true.

(** A scope of the document, for the authorization [id]. *)
Definition scope_for (b : dict) (key : string) (id : json) (scope : dict) : Prop :=
  dict_get b key = Some (JObj scope)
  /\ exists v, dict_get scope "authorization_id" = Some v /\ py_eq v id = true.

Record proven (b : dict) : Prop := {
  pv_digest : text_field b "bundle_sha256" (canonical_sha256 (JObj (dict_del b "bundle_sha256")));
  pv_trace : exists events, trace_is b events /\ chained ZERO_SHA256 1 (map JObj events)
    /\ exists moves final, records_moves events moves /\ leads "NEW" moves final
       /\ (moves <> [] ->
           final ∈ ["AUTH_EXPIRED"; "SCOPE_INVALID"; "HUMAN_REVIEW_REQUIRED"; "ABORTED"; "CLOSED"]);
  pv_scopes : exists a id i e,
    dict_get b "authorization" = Some (JObj a) /\ dict_get a "authorization_id" = Some id /\ truthy id = true
    /\ scope_for b "initial_scope" id i /\ scope_for b "effective_scope" id e
    /\ lists_within "allowed_targets" e i /\ lists_within "allowed_actions" e i
    /\ lists_within "allowed_environments" e i /\ lists_within "prohibited_actions" i e
    /\ no_conflict i /\ no_conflict e
    /\ mode_kept i e "network_mode" "LOCAL_ONLY" /\ mode_kept i e "data_handling_class" "SYNTHETIC_ONLY"
    /\ ends_by i e
    /\ (forall f, dict_get b "failover_decision" = Some (JObj f) -> agree_on e f "scope_id" "scope_id");
  pv_runs : forall first second rest, dict_get b "provider_runs" = Some (JList (first :: second :: rest)) ->
    exists d f h, first = JObj d
    /\ dict_get b "failover_decision" = Some (JObj f) /\ agree_on f d "previous_run_id" "run_id"
    /\ dict_get d "normalized_task_hash" = Some h /\ truthy h = true
    /\ forall r, r ∈ second :: rest -> exists d' h', r = JObj d'
            /\ dict_get d' "normalized_task_hash" = Some h' /\ py_eq h' h = true;
  pv_confirmed : forall f, dict_get b "finding" = Some (JObj f) -> text_field f "status" "CONFIRMED" ->
    exists v, dict_get b "verification" = Some (JObj v) /\ text_field v "result" "REPRODUCED"
}.

(** *** The checks that passed *)
Lemma integrity_sound b : good (_check_bundle_integrity b) ->
  text_field b "bundle_sha256" (canonical_sha256 (JObj (dict_del b "bundle_sha256"))).
Proof.
  unfold _check_bundle_integrity. destruct (is_str _ _) eqn:E; [|by intros H%good_failed]. intros _.
  apply is_str_inv in E. apply field_present; [done|apply digest_nonempty].
Qed.

Lemma chain_sound b : good (_check_trace_hash_chain b) -> exists trace,
  py_iter (field_or b "trace" (JList [])) = Ok trace /\ chained ZERO_SHA256 1 trace.
Proof.
  unfold _check_trace_hash_chain. intros (trace & E & H)%good_bind. exists trace. split; [done|].
  apply loop_good in H as [r H]; [by eapply chain_each_inv|]. intros i a x. unfold chain_event. fails_go.
Qed.

Lemma path_sound prev a l : good (check_path prev l) -> (prev = Some (JStr a) \/ exists y rest, prev = None /\ l = (JStr a, y) :: rest) ->
  exists moves, l = map values moves /\ path a moves.
Proof.
  revert prev a. induction l as [|[x y] l IH]; intros prev a; [by exists []|]. cbn [check_path]. intros [Hp H]%good_guard Hprev.
  assert (x = JStr a) as ->.
  { destruct Hprev as [->|(y' & rest & -> & [= -> -> ->])]; [|done].
    apply negb_false_iff in Hp. by apply py_eq_str_inv. }
  unfold allowed_from in H. cbn [py_hash] in H. rewrite !bind_Ok in H.
  apply good_bind in H as (legal & Hl & [Hg H]%good_guard). apply negb_false_iff in Hg as ->.
  unfold in_strings in Hl. apply bind_ok in Hl as ([] & _ & [= Hv]).
  apply existsb_exists in Hv as (z & Hz & ->%is_str_inv).
  destruct (IH (Some (JStr z)) z) as (moves & -> & Hm); [done|by left|].
  exists ((a, z) :: moves). split; [done|]. split; [done|]. split; [|done]. by apply mem_true, list_elem_of_In.
Qed.

Lemma transitions_sound b : good (_check_state_transitions b) -> good (_check_final_state b) -> exists moves,
  _extract_transition_sequence b = Ok (map values moves) /\ path "NEW" moves
  /\ (moves <> [] -> mem (ends "NEW" moves) TERMINAL_STATES = true).
Proof.
  unfold _check_state_transitions, _check_final_state. intros (l & -> & H)%good_bind. rewrite bind_Ok.
  destruct l as [|[x y] l]; [by exists []|]. apply good_guard in H as [Hx H]. apply negb_false_iff, is_str_inv in Hx as ->.
  destruct (path_sound None "NEW" _ H) as (moves & E & Hp); [right; by eexists _, _|]. rewrite E.
  rewrite (fmap_last values moves : last (map values _) = _). intros Hf. exists moves. split_and!; [done|done|].
  intros Hne. unfold ends. destruct (last moves) as [[u v]|] eqn:El; [|by apply last_None in El].
  cbn [fmap option_fmap option_map values fst snd] in Hf. apply good_bind in Hf as (t & Ht & [Hg _]%good_guard).
  apply negb_false_iff in Hg as ->. unfold in_strings in Ht. cbn [py_hash] in Ht. rewrite bind_Ok in Ht.
  by injection Ht.
Qed.

(** The scopes are for the authorization of the bundle. *)
Lemma authorization_sound b : good (_check_authorization_continuity b) -> exists a i e id,
  field_or b "authorization" (JObj []) = JObj a /\ dict_get a "authorization_id" = Some id /\ truthy id = true
  /\ field_or b "initial_scope" (JObj []) = JObj i /\ py_eq (dict_get_or i "authorization_id" (JStr "")) id = true
  /\ field_or b "effective_scope" (JObj []) = JObj e /\ py_eq (dict_get_or e "authorization_id" (JStr "")) id = true
  /\ (forall f, dict_get_none b "failover_decision" = JObj f ->
       py_eq (dict_get_or e "scope_id" (JStr "")) (dict_get_or f "scope_id" (JStr "")) = true).
Proof.
  unfold _check_authorization_continuity. intros (id & (a & -> & ->)%attr_get_inv & [Ht H]%good_guard)%good_bind.
  apply negb_false_iff in Ht. apply good_bind in H as (v & (i & -> & ->)%attr_get_inv & [Hi H]%good_guard).
  apply good_bind in H as (w & (e & -> & ->)%attr_get_inv & [He H]%good_guard).
  apply negb_false_iff in Hi, He.
  assert (forall f, dict_get_none b "failover_decision" = JObj f ->
    py_eq (dict_get_or e "scope_id" (JStr "")) (dict_get_or f "scope_id" (JStr "")) = true) as Hf.
  { intros f Ef. rewrite Ef in H. cbn [is_none] in H.
    apply good_bind in H as (x & (f' & [= <-] & ->)%attr_get_inv & H).
    apply good_bind in H as (y & (e' & [= <-] & ->)%attr_get_inv & [Hs _]%good_guard). by apply negb_false_iff. }
  exists a, i, e. revert Ht Hi He. unfold dict_get_or at 1 3 5.
  destruct (dict_get a "authorization_id") as [id|]; [|done]. intros. by exists id.
Qed.

Lemma mode_sound key fixed i e : fixed <> "" -> check_mode key fixed (JObj i) (JObj e) = Ok None -> mode_kept i e key fixed.
Proof.
  unfold check_mode, mode_kept. cbn [attr_get]. rewrite !bind_Ok. intros Hne H Hi.
  rewrite (field_value _ _ _ _ Hi) in H. cbn [is_str] in H. rewrite String.eqb_refl in H. cbn [andb] in H.
  destruct (is_str _ fixed) eqn:E; [|done]. apply is_str_inv in E. by apply field_present.
Qed.

(** The permissions did not grow, and no scope allows what it prohibits. *)
Lemma monotonicity_sound b i e : field_or b "initial_scope" (JObj []) = JObj i -> i <> [] ->
  field_or b "effective_scope" (JObj []) = JObj e -> e <> [] -> good (_check_scope_monotonicity b) ->
  exists pi pe, _scope_permission_set (JObj i) = Ok pi /\ _scope_permission_set (JObj e) = Ok pe
    /\ within (pm_targets pe) (pm_targets pi) = true /\ within (pm_actions pe) (pm_actions pi) = true
    /\ within (pm_environments pe) (pm_environments pi) = true
    /\ within (pm_prohibited pi) (pm_prohibited pe) = true
    /\ mode_kept i e "network_mode" "LOCAL_ONLY" /\ mode_kept i e "data_handling_class" "SYNTHETIC_ONLY"
    /\ ends_by i e.
Proof.
  intros Ei Hi Ee He. unfold _check_scope_monotonicity. rewrite Ei, Ee.
  destruct i as [|kv i]; [done|]. destruct e as [|kv' e]; [done|]. cbn [truthy negb orb length bool_decide decide].
  change (bool_decide (S (length i) = 0%nat)) with false. change (bool_decide (S (length e) = 0%nat)) with false.
  cbn [negb orb]. intros (pi & -> & (pe & -> & (d & Hd & H)%good_bind)%good_bind)%good_bind. exists pi, pe.
  split; [done|]. split; [done|]. destruct d as [d|]; [by apply good_failed in H|].
  apply good_bind in H as ([m|] & Hnet & H); [by apply good_failed in H|]. apply mode_sound in Hnet; [|done].
  apply good_bind in H as ([m|] & Hdata & H); [by apply good_failed in H|]. apply mode_sound in Hdata; [|done].
  assert (ends_by (kv :: i) (kv' :: e)) as Hends.
  { intros x y Hx Hy. apply good_bind in H as (x' & (i' & [= <-] & ->)%attr_get_inv & H).
    apply good_bind in H as (y' & (e' & [= <-] & ->)%attr_get_inv & H).
    unfold dict_get_or in H. rewrite Hx, Hy in H. cbn [is_number negb orb py_lt] in H.
    rewrite bind_Ok in H. apply good_guard in H as [H _]. by apply Z.ltb_ge. }
  clear H. enough (within (pm_targets pe) (pm_targets pi) = true /\ within (pm_actions pe) (pm_actions pi) = true
    /\ within (pm_environments pe) (pm_environments pi) = true
    /\ within (pm_prohibited pi) (pm_prohibited pe) = true) as (? & ? & ? & ?) by done.
  revert Hd. unfold check_sets.
  destruct (within (pm_targets pe) _), (within (pm_actions pe) _), (within (pm_environments pe) _), (within (pm_prohibited pi) _);
    cbn [negb]; try done; by intros (x & _ & [=])%bind_ok.
Qed.

Lemma overlap_sound scope name : _check_scope_overlap scope name = Ok None -> exists allowed prohibited,
  set_field scope "allowed_actions" = Ok allowed /\ set_field scope "prohibited_actions" = Ok prohibited
  /\ forall v, v ∈ allowed -> py_in v prohibited = false.
Proof.
  unfold _check_scope_overlap. intros (allowed & -> & (prohibited & -> & H)%bind_ok)%bind_ok.
  exists allowed, prohibited. split_and!; [done..|]. intros v Hv. apply not_true_is_false. intros Hp.
  assert (In v (List.filter (fun x => py_in x prohibited) allowed)) as Hin.
  { apply filter_In. split; [by apply list_elem_of_In|done]. }
  destruct (List.filter _ _); [done|]. by apply bind_ok in H as (x & _ & [=]).
Qed.

Lemma prohibited_sound b : good (_check_prohibited_actions b) ->
  _check_scope_overlap (field_or b "initial_scope" (JObj [])) "initial" = Ok None
  /\ _check_scope_overlap (field_or b "effective_scope" (JObj [])) "effective" = Ok None.
Proof.
  assert (forall scope name c, _check_scope_overlap scope name = Ok (Some c) -> check_failed c = true) as Hf.
  { intros scope name c. unfold _check_scope_overlap.
    intros (allowed & _ & (prohibited & _ & H)%bind_ok)%bind_ok. destruct (List.filter _ _); [done|].
    by apply bind_ok in H as (x & _ & [= <-]). }
  unfold _check_prohibited_actions. intros ([c|] & E & H)%good_bind.
  - destruct H as (c' & [= ->] & Hc). apply Hf in E. congruence.
  - split; [done|]. apply good_bind in H as ([c|] & E' & H); [|done].
    destruct H as (c' & [= ->] & Hc). apply Hf in E'. congruence.
Qed.

(** A second run needs a decision, and is a run of the task of the first. *)
Lemma failover_sound b d second rest : field_or b "provider_runs" (JList []) = JList (JObj d :: second :: rest) ->
  good (_check_failover_decision b) -> exists f, dict_get_none b "failover_decision" = JObj f
    /\ py_eq (dict_get_or f "previous_run_id" (JStr "")) (dict_get_or d "run_id" (JStr "")) = true.
Proof.
  intros E. unfold _check_failover_decision, _get_primary_run_id. rewrite E. cbn [py_length truthy]. rewrite bind_Ok.
  assert ((2 <=? Z.of_nat (length (JObj d :: second :: rest))) = true) as -> by (apply Z.leb_le; cbn [length]; lia).
  destruct (is_none _); [by intros H%good_failed|]. intros [_ H]%good_guard.
  change (negb (bool_decide (length (JObj d :: second :: rest) = 0)%nat)) with true in H.
  apply good_bind in H as (id & (x & [= <-] & (d' & [= <-] & ->)%attr_get_inv)%bind_ok & [Ht H]%good_guard).
  apply good_bind in H as (prev & (f & -> & ->)%attr_get_inv & [Hp _]%good_guard). exists f. split; [done|].
  apply negb_false_iff in Hp, Ht. revert Hp Ht. unfold dict_get_or. by destruct (dict_get d "run_id").
Qed.

Lemma tasks_sound b first rest : field_or b "provider_runs" (JList []) = JList (first :: rest) ->
  good (_check_task_identity b) -> rest <> [] -> exists d h,
    first = JObj d /\ dict_get_none d "normalized_task_hash" = h /\ truthy h = true
    /\ forall r, r ∈ rest -> exists d', r = JObj d' /\ py_eq (dict_get_or d' "normalized_task_hash" (JStr "")) h = true.
Proof.
  intros E. unfold _check_task_identity. rewrite E. cbn [py_length]. rewrite bind_Ok. intros H Hr.
  rewrite (proj2 (Z.ltb_ge _ _)) in H by (destruct rest; [done|]; cbn [length]; lia).
  apply good_bind in H as (primary & [= <-] & H). apply good_bind in H as (h & (d & -> & ->)%attr_get_inv & [Ht H]%good_guard). apply negb_false_iff in Ht.
  apply good_bind in H as (l & [= <-] & H).
  apply loop_good in H as [u H]; [|intros i a x; unfold same_task; fails_go].
  exists d, (dict_get_or d "normalized_task_hash" (JStr "")). split_and!; [done| |done|].
  { revert Ht. unfold dict_get_none, dict_get_or. by destruct (dict_get d _). }
  clear E Hr. revert H. generalize 2. generalize tt. induction rest as [|x rest IH]; intros a i H r Hr;
    [by apply not_elem_of_nil in Hr|]. cbn [check_each] in H. apply bind_ok in H as ([c|a'] & Hx & H); [done|].
  apply elem_of_cons in Hr as [->|Hr]; [|by apply (IH a' (i + 1))].
  unfold same_task in Hx. apply bind_ok in Hx as (v & (d' & -> & ->)%attr_get_inv & Hx). exists d'. split; [done|].
  by destruct (py_eq _ _).
Qed.

(** Only a reproduced finding is confirmed. *)
Lemma closure_sound b f : dict_get_none b "finding" = JObj f -> text_field f "status" "CONFIRMED" ->
  good (_check_verification_closure b) -> exists v,
    dict_get_none b "verification" = JObj v /\ text_field v "result" "REPRODUCED".
Proof.
  intros Ef Hst. unfold _check_verification_closure. rewrite Ef. cbn [is_none].
  intros (st & [= <-] & H)%good_bind. rewrite (field_value _ _ _ _ Hst) in H. cbn [is_str String.eqb] in H.
  apply good_guard in H as [_ H]. apply good_bind in H as (res & (v & Ev & ->)%attr_get_inv & [Hr _]%good_guard).
  exists v. split; [done|]. by apply is_str_get, negb_false_iff.
Qed.

(** *** From the readers to the document *)
Lemma field_or_obj b key d : field_or b key (JObj []) = JObj d -> d <> [] -> dict_get b key = Some (JObj d).
Proof.
  unfold field_or, py_or, dict_get_none, dict_get_or. destruct (dict_get b key) as [v|]; cbn.
  - destruct (truthy v); [by intros ->|]. by intros [= <-].
  - by intros [= <-].
Qed.

Lemma field_or_list b key l : dict_get b key = Some (JList l) -> l <> [] -> field_or b key (JList []) = JList l.
Proof. intros H Hl. unfold field_or, py_or, dict_get_none, dict_get_or. rewrite H. by destruct l. Qed.

Lemma get_none_found d key v : dict_get_none d key = v -> v <> JNull -> dict_get d key = Some v.
Proof. unfold dict_get_none, dict_get_or. destruct (dict_get d key); congruence. Qed.

Lemma chained_objects previous i trace : chained previous i trace -> exists events, trace = map JObj events.
Proof.
  revert previous i. induction trace as [|x trace IH]; intros previous i; [by exists []|].
  intros (d & -> & _ & _ & _ & H). destruct (IH _ _ H) as [events ->]. by exists (d :: events).
Qed.

Lemma py_chars_some s : s <> "" -> exists x l, py_chars s = x :: l.
Proof. destruct s as [|c s]; [done|]. intros _. cbn. destruct (py_chars s) as [|[|d t] l]; [eauto..|]. case_match; eauto. Qed.

Lemma trace_read b events : py_iter (field_or b "trace" (JList [])) = Ok (map JObj events) -> trace_is b events.
Proof.
  unfold field_or, py_or, dict_get_none, dict_get_or, trace_is. destruct (dict_get b "trace") as [v|]; cbn.
  - destruct (truthy v) eqn:Ht.
    + destruct v as [| | |s|l|d]; try done; cbn [py_iter].
      * intros [= H]. destruct events as [|e events]; [|by destruct (py_chars s)].
        destruct (py_chars_some s) as (x & l & E); [by intros ->|]. by rewrite E in H.
      * intros [= ->]. by left.
      * intros [= H]. destruct d as [|[k v] d]; [done|]. by destruct events.
    + intros [= H]. right. destruct events; [|done]. split; [done|]. by intros w [= <-].
  - intros [= H]. right. by destruct events.
Qed.

Lemma moves_read events moves : (forall m, m ∈ moves -> fst m <> "" /\ snd m <> "") ->
  transitions_of (map JObj events) = Ok (map values moves) -> records_moves events moves.
Proof.
  revert moves. induction events as [|event events IH]; intros moves Hm; cbn [map transitions_of records_moves].
  { destruct moves; [done|]. by intros [= H]. }
  cbn [attr_get]. rewrite bind_Ok. destruct (is_str (dict_get_or event "kind" JNull) "STATE_TRANSITION") eqn:Ek.
  - rewrite bind_Ok. intros (x & (payload & Ep & ->)%attr_get_inv & (y & (payload' & Ep' & ->)%attr_get_inv &
      (rest & Hrest & [= H])%bind_ok)%bind_ok)%bind_ok.
    rewrite Ep in Ep'. injection Ep' as <-. destruct moves as [|[u v] moves]; [done|].
    injection H as Hu Hv Hr. destruct (Hm (u, v)) as [Hu0 Hv0]; [by left|]. right.
    split; [by apply is_str_get|]. exists payload, u, v, moves. split_and!.
    + revert Ep. unfold py_or, dict_get_or. destruct (dict_get event "payload") as [w|]; cbn.
      * destruct (truthy w); [by intros ->|]. intros [= <-]. by injection Hu as <-.
      * intros [= <-]. by injection Hu as <-.
    + by apply field_present.
    + by apply field_present.
    + done.
    + apply IH; [by intros m Hin; apply Hm; right|]. by rewrite Hrest, Hr.
  - intros H. left. split; [|by apply IH]. intros Hk. unfold text_field in Hk. unfold dict_get_or in Ek.
    by rewrite Hk in Ek.
Qed.

(** The table of the verifier, move by move. *)
Lemma table_moves x y : mem y (table_get ALLOWED_TRANSITIONS x) = true -> (x, y) ∈ protocol_moves.
Proof.
  assert (forallb (fun row => forallb (fun z => bool_decide ((fst row, z) ∈ protocol_moves)) (snd row))
            ALLOWED_TRANSITIONS = true) as H by (vm_compute; reflexivity).
  revert H. induction ALLOWED_TRANSITIONS as [|[k l] table IH]; [done|]. cbn [forallb table_get fst snd].
  intros [Hl Ht]%andb_true_iff. destruct (String.eqb_spec k x) as [->|_]; [|by apply IH].
  intros Hy%mem_true%list_elem_of_In. rewrite forallb_forall in Hl. by apply Hl, bool_decide_eq_true in Hy.
Qed.

Lemma path_leads a moves : path a moves -> leads a moves (ends a moves).
Proof.
  revert a. induction moves as [|[x y] moves IH]; intros a; [done|]. intros (-> & Hm & Hp). cbn [leads].
  split; [done|]. split; [by apply table_moves|]. specialize (IH y Hp).
  replace (ends a ((a, y) :: moves)) with (ends y moves); [done|]. unfold ends.
  destruct moves as [|m moves] using rev_ind; [done|]. rewrite app_comm_cons, !last_snoc. done.
Qed.

Lemma protocol_named m : m ∈ protocol_moves -> fst m <> "" /\ snd m <> "".
Proof.
  revert m. apply Forall_forall. repeat constructor; done.
Qed.

Lemma leads_named a moves c : leads a moves c -> forall m, m ∈ moves -> fst m <> "" /\ snd m <> "".
Proof.
  revert a. induction moves as [|[x y] moves IH]; intros a H m Hm; [by apply not_elem_of_nil in Hm|].
  destruct H as (_ & Hin & H). apply elem_of_cons in Hm as [->|Hm]; [by apply protocol_named|by eapply IH].
Qed.

(** Equality of values that can be in a set. *)
Lemma hashed_eq_sym x y : py_hash x = Ok tt -> py_eq x y = true -> py_eq y x = true.
Proof.
  destruct x, y; try done; cbn; intros _; rewrite ?Z.eqb_eq, ?String.eqb_eq, ?eqb_true_iff; try done; lia.
Qed.

Lemma hashed_eq_trans x y z : py_hash x = Ok tt ->
  py_eq x y = true -> py_eq y z = true -> py_eq x z = true.
Proof.
  destruct x as [|b|n|s| |], y as [|b'|n'|s'| |], z as [|b''|n''|s''| |]; try done; cbn; intros _;
    rewrite ?Z.eqb_eq, ?String.eqb_eq, ?eqb_true_iff; try congruence; try lia;
    repeat match goal with v : bool |- _ => destruct v end; cbn; intros; subst; done || lia.
Qed.

Lemma py_in_spec v l : py_in v l = true <-> exists w, w ∈ l /\ py_eq v w = true.
Proof.
  unfold py_in. rewrite existsb_exists. by setoid_rewrite <- list_elem_of_In.
Qed.

(** The set keeps a representative of every element. *)
Lemma dedup_in seen l x : (forall y, y ∈ l -> py_hash y = Ok tt) -> (forall y, y ∈ seen -> py_hash y = Ok tt) ->
  x ∈ l -> exists y, (y ∈ seen \/ y ∈ dedup seen l) /\ py_eq x y = true.
Proof.
  revert seen. induction l as [|z l IH]; intros seen Hl Hs Hx; [by apply not_elem_of_nil in Hx|]. cbn [dedup].
  destruct (py_in z seen) eqn:Ez.
  - apply elem_of_cons in Hx as [->|Hx].
    + apply py_in_spec in Ez as (w & Hw & E). exists w. split; [by left|done].
    + apply IH; [by intros y Hy; apply Hl; right|done|done].
  - apply elem_of_cons in Hx as [->|Hx].
    + exists z. split; [right; by left|]. specialize (Hl z ltac:(by left)).
      destruct z as [|[]| | | |]; try done; cbn; [apply Z.eqb_refl|apply String.eqb_refl].
    + destruct (IH (z :: seen)) as (y & Hy & E); [by intros y Hy; apply Hl; right| |done|].
      { intros y [->|Hy]%elem_of_cons; [apply Hl; by left|by apply Hs]. }
      exists y. split; [|done]. rewrite elem_of_cons. destruct Hy as [[->|Hy]%elem_of_cons|Hy]; tauto.
Qed.

Lemma dedup_sub seen l x : x ∈ dedup seen l -> x ∈ l.
Proof.
  revert seen. induction l as [|z l IH]; intros seen; [done|]. cbn [dedup]. destruct (py_in z seen).
  - intros H%IH. by right.
  - intros [->|H%IH]%elem_of_cons; [by left|by right].
Qed.

Lemma strings_listed v l : (exists c, v = JStr c /\ c ∈ l) <-> v ∈ map JStr l.
Proof. change (map JStr l) with (JStr <$> l). by rewrite list_elem_of_fmap. Qed.

Lemma set_field_listed d key s : set_field (JObj d) key = Ok s ->
  (forall x, x ∈ s -> listed d key x)
  /\ (forall v, listed d key v -> py_hash v = Ok tt /\ exists x, x ∈ s /\ py_eq v x = true).
Proof.
  unfold set_field, py_set. cbn [attr_get]. rewrite bind_Ok.
  intros (items & Hi & (us & Hus & [= <-])%bind_ok)%bind_ok.
  assert (forall v, listed d key v <-> v ∈ items) as Hlisted.
  { intros v. revert Hi. unfold py_or, dict_get_or, listed.
    destruct (dict_get d key) as [w|]; [|by intros [= <-]; rewrite elem_of_nil].
    destruct w as [|[]|n|s|l|o]; cbn [truthy py_iter]; try done.
    - by intros [= <-]; rewrite elem_of_nil.
    - by intros [= <-]; rewrite elem_of_nil.
    - destruct (negb (n =? 0)); [done|]. by intros [= <-]; rewrite elem_of_nil.
    - destruct (String.eqb_spec s "") as [->|]; cbn [negb py_iter]; intros [= <-].
      + split; [by intros (c & _ & Hc%not_elem_of_nil)|by intros Hc%not_elem_of_nil].
      + apply strings_listed.
    - destruct l; by intros [= <-].
    - destruct o as [|p o]; cbn -[dict_keys map]; intros [= <-].
      + split; [by intros (c & _ & Hc%not_elem_of_nil)|by intros Hc%not_elem_of_nil].
      + apply strings_listed. }
  assert (forall y, y ∈ items -> py_hash y = Ok tt) as Hh by by apply (map_r_unit py_hash _ us).
  split.
  - intros x Hx%dedup_sub. by apply Hlisted.
  - intros v Hv%Hlisted. split; [by apply Hh|].
    destruct (dedup_in [] items v) as (y & [Hy%not_elem_of_nil|Hy] & E); try done; [|by exists y].
    by intros y Hy%not_elem_of_nil.
Qed.

Lemma within_listed key small large s l : set_field (JObj small) key = Ok s -> set_field (JObj large) key = Ok l ->
  within s l = true -> lists_within key small large.
Proof.
  intros [_ Hs]%set_field_listed [Hl _]%set_field_listed H v Hv.
  destruct (Hs v Hv) as (Hh & x & Hx & E). unfold within in H. rewrite forallb_forall in H.
  apply list_elem_of_In, H, py_in_spec in Hx as (w & Hw & E'). exists w. split; [by apply Hl|].
  by eapply hashed_eq_trans.
Qed.

Lemma conflict_listed scope name : _check_scope_overlap (JObj scope) name = Ok None -> no_conflict scope.
Proof.
  intros (allowed & prohibited & [Ha0 Ha]%set_field_listed & [_ Hp]%set_field_listed & Hno)%overlap_sound v w Hv Hw.
  destruct (Ha v Hv) as (Hhv & x & Hx & Ex). destruct (Hp w Hw) as (Hhw & y & Hy & Ey).
  apply not_true_is_false. intros E. specialize (Hno x Hx). rewrite (proj2 (py_in_spec _ _)) in Hno; [done|].
  exists y. split; [done|]. apply (hashed_eq_trans x v y); [by apply Ha, Ha0|by apply hashed_eq_sym|].
  by apply (hashed_eq_trans v w y).
Qed.

Lemma truthy_id d id : py_eq (dict_get_or d "authorization_id" (JStr "")) id = true -> truthy id = true ->
  d <> [] /\ exists v, dict_get d "authorization_id" = Some v /\ py_eq v id = true.
Proof.
  unfold dict_get_or. destruct (dict_get d "authorization_id") as [v|] eqn:E.
  - intros H _. split; [by intros ->|by exists v].
  - intros H Ht. destruct id as [| | |s| |]; try done. cbn in H. by destruct s.
Qed.

Lemma trace_sound b : good (_check_trace_hash_chain b) -> good (_check_state_transitions b) ->
  good (_check_final_state b) -> exists events, trace_is b events /\ chained ZERO_SHA256 1 (map JObj events)
    /\ exists moves final, records_moves events moves /\ leads "NEW" moves final
       /\ (moves <> [] ->
           final ∈ ["AUTH_EXPIRED"; "SCOPE_INVALID"; "HUMAN_REVIEW_REQUIRED"; "ABORTED"; "CLOSED"]).
Proof.
  intros (trace & Et & Hc)%chain_sound H1 H2. destruct (transitions_sound b H1 H2) as (moves & Em & Hp & Hf).
  destruct (chained_objects _ _ _ Hc) as [events ->]. exists events.
  split; [by apply trace_read|]. split; [done|]. exists moves, (ends "NEW" moves).
  pose proof (path_leads _ _ Hp) as Hl. split; [|split; [done|]].
  - apply moves_read; [by eapply leads_named|]. unfold _extract_transition_sequence in Em. by rewrite Et in Em.
  - intros Hne. by apply mem_true, Hf.
Qed.

Lemma scopes_sound b : good (_check_authorization_continuity b) -> good (_check_scope_monotonicity b) ->
  good (_check_prohibited_actions b) -> exists a id i e,
    dict_get b "authorization" = Some (JObj a) /\ dict_get a "authorization_id" = Some id /\ truthy id = true
    /\ scope_for b "initial_scope" id i /\ scope_for b "effective_scope" id e
    /\ lists_within "allowed_targets" e i /\ lists_within "allowed_actions" e i
    /\ lists_within "allowed_environments" e i /\ lists_within "prohibited_actions" i e
    /\ no_conflict i /\ no_conflict e
    /\ mode_kept i e "network_mode" "LOCAL_ONLY" /\ mode_kept i e "data_handling_class" "SYNTHETIC_ONLY"
    /\ ends_by i e
    /\ (forall f, dict_get b "failover_decision" = Some (JObj f) -> agree_on e f "scope_id" "scope_id").
Proof.
  intros (a & i & e & id & Ea & Eid & Ht & Ei & Hi & Ee & He & Hfo)%authorization_sound Hm [Ho1 Ho2]%prohibited_sound.
  destruct (truthy_id _ _ Hi Ht) as [Hni Hi']. destruct (truthy_id _ _ He Ht) as [Hne He'].
  destruct (monotonicity_sound b i e) as (pi & pe & Epi & Epe & H1 & H2 & H3 & H4 & H5 & H6 & H7); try done.
  exists a, id, i, e. rewrite Ei in Ho1. rewrite Ee in Ho2.
  apply conflict_listed in Ho1. apply conflict_listed in Ho2.
  unfold _scope_permission_set in Epi, Epe.
  apply bind_ok in Epi as (ti & Eti & (ai & Eai & (ei & Eei & (ri & Eri & [= <-])%bind_ok)%bind_ok)%bind_ok).
  apply bind_ok in Epe as (te & Ete & (ae & Eae & (ee & Eee & (re & Ere & [= <-])%bind_ok)%bind_ok)%bind_ok).
  cbn [pm_targets pm_actions pm_environments pm_prohibited] in *.
  split; [apply field_or_obj; [done|by intros ->]|]. split; [done|]. split; [done|].
  split; [split; [by apply field_or_obj|done]|]. split; [split; [by apply field_or_obj|done]|].
  split_and!; try done; try (by eapply within_listed).
  intros f Ef. apply Hfo. unfold dict_get_none, dict_get_or. by rewrite Ef.
Qed.

Lemma runs_sound b first second rest : dict_get b "provider_runs" = Some (JList (first :: second :: rest)) ->
  good (_check_failover_decision b) -> good (_check_task_identity b) ->
  exists d f h, first = JObj d
  /\ dict_get b "failover_decision" = Some (JObj f) /\ agree_on f d "previous_run_id" "run_id"
  /\ dict_get d "normalized_task_hash" = Some h /\ truthy h = true
  /\ forall r, r ∈ second :: rest -> exists d' h', r = JObj d'
       /\ dict_get d' "normalized_task_hash" = Some h' /\ py_eq h' h = true.
Proof.
  intros E%field_or_list Hf Ht; [|done].
  destruct (tasks_sound _ _ _ E Ht) as (d & h & -> & Hh & Htr & Hall); [done|].
  destruct (failover_sound b d second rest) as (f & Ef & Hid); [done..|]. exists d, f, h. split; [done|].
  split; [by apply get_none_found|]. split; [done|].
  split; [apply get_none_found; [done|by intros ->]|]. split; [done|]. intros r Hr.
  destruct (Hall r Hr) as (d' & -> & He). unfold dict_get_or in He.
  destruct (dict_get d' "normalized_task_hash") as [h'|] eqn:Eh; [by exists d', h'|].
  destruct h as [| | |s| |]; try done. cbn in He. by destruct s.
Qed.

Lemma pass_proven b : says b "PASS" -> proven b.
Proof.
  intros H. pose proof (fun check Hin => pass_good b check H Hin) as Hg. clear H.
  unfold CHECK_FUNCTIONS in Hg. setoid_rewrite list_elem_of_In in Hg.
  pose proof (fun id f Hin => Hg (id, f) Hin) as Hf. cbn [snd] in Hf. clear Hg.
  constructor.
  - apply integrity_sound, (Hf "BUNDLE_INTEGRITY"). cbn. tauto.
  - apply trace_sound; [apply (Hf "TRACE_HASH_CHAIN")|apply (Hf "STATE_TRANSITION")|apply (Hf "FINAL_STATE")];
      cbn; tauto.
  - apply scopes_sound; [apply (Hf "AUTHORIZATION_CONTINUITY")|apply (Hf "SCOPE_MONOTONICITY")|
      apply (Hf "PROHIBITED_ACTION")]; cbn; tauto.
  - intros first second rest E.
    apply (runs_sound b first second rest E); [apply (Hf "FAILOVER_DECISION_REQUIRED")|apply (Hf "TASK_IDENTITY")];
      cbn; tauto.
  - intros f Ef Hst. destruct (closure_sound b f) as (v & Ev & Hr); [|done| |].
    + unfold dict_get_none, dict_get_or. by rewrite Ef.
    + apply (Hf "VERIFICATION_CLOSURE"). cbn. tauto.
    + exists v. split; [by apply get_none_found|done].
Qed.

(** The row of the receipt for a check: its name, its result and its detail, if there is one. *)
Definition row_of (c : CheckResult) (row : dict) : Prop :=
  text_field row "id" (ck_check_id c) /\ text_field row "result" (ck_result c)
  /\ dict_get row "detail" = if String.eqb (ck_detail c) "" then None else Some (JStr (ck_detail c)).

Lemma checks_rows checks : Forall2 row_of checks (map CheckResult_as_dict checks).
Proof.
  induction checks as [|c checks IH]; constructor; [|exact IH]. unfold row_of, CheckResult_as_dict.
  by destruct (String.eqb (ck_detail c) "").
Qed.

(** Without evidence, and with no run that claims a workload, the workload check is skipped. *)
Lemma no_workload s b : bundle_of s None b ->
  (forall r, r ∈ ts_provider_runs s -> dict_get r "provider_metadata" = None) -> workload_fails b = false.
Proof.
  intros Hb Hr. unfold workload_fails, run_check. cbn [snd]. unfold _check_workload_evidence_binding,
    _declares_consumer_workload. rewrite (bo_evidence _ _ _ Hb), (bo_runs _ _ _ Hb). cbn [jrecord is_dict py_iter].
  rewrite bind_Ok.
  assert (any_r (fun run => claimed ← claimed_workload run; Ok (is_sha_value claimed))
    (map JObj (ts_provider_runs s)) = Ok false) as ->; [|done].
  induction (ts_provider_runs s) as [|r runs IH]; [done|]. cbn [map any_r].
  assert (claimed_workload (JObj r) = Ok JNull) as ->.
  { unfold claimed_workload. cbn [attr_get]. rewrite bind_Ok. unfold dict_get_or. by rewrite (Hr r) by by left. }
  rewrite !bind_Ok. apply IH. intros x Hx. apply Hr. by right.
Qed.
End lemmas.

(** ** Examples *)
#[local] Existing Instance checksum_digest.

#[local] Instance plain_text : PyText := {|
  py_repr := fun v => canonical_json v; exc_text := fun e => exn_msg e |}.

Definition bundle_from (s : TRCPSimulator) : dict :=
  match build_evidence_bundle (report s) None with Ok b => b | Err _ => [] end.

Lemma bundle_from_of s : build_evidence_bundle (report s) None = Ok (bundle_from s)
  /\ bundle_of s None (bundle_from s).
Proof. destruct (bundle_built s None) as (b & E & Hb). unfold bundle_from. by rewrite E. Qed.

Lemma no_metadata s : forallb (fun r => negb (is_Some_b (dict_get r "provider_metadata"))) (ts_provider_runs s) = true ->
  forall r, r ∈ ts_provider_runs s -> dict_get r "provider_metadata" = None.
Proof.
  intros H r Hr%list_elem_of_In. apply forallb_forall with (x := r) in H; [|done]. by destruct (dict_get r _).
Qed.

(** The receipt of a bundle without a workload. *)
Lemma plain_result s : simulated s -> ts_state s <> "NEW" ->
  forallb (fun r => negb (is_Some_b (dict_get r "provider_metadata"))) (ts_provider_runs s) = true ->
  says (bundle_from s) (if ended s then "PASS" else "FAIL").
Proof.
  intros Hs Hst Hr. destruct (bundle_from_of s) as [_ Hb]. rewrite says_exact, (simulator_checks s None) by done.
  rewrite (no_workload s) by (done || by apply no_metadata). by destruct (ended s).
Qed.

Lemma default_passes :
  says (bundle_from default_confirmed) "PASS".
Proof.
  assert (ended default_confirmed = true) as He by (vm_compute; reflexivity).
  assert (ts_state default_confirmed = "CLOSED") as Hst by (vm_compute; reflexivity).
  pose proof (plain_result default_confirmed) as H. rewrite He in H.
  apply H; [by eapply reachable_simulated, default_reachable|by rewrite Hst|vm_compute; reflexivity].
Qed.

(** A failover that was decided but came too late: the authorization expires first. *)
Definition abandoned : TRCPSimulator :=
  snd (execute_fallback default_task default_fallback
    (snd (advance_time 2001 (snd (record_failover default_fallback default_failover after_primary))))).

Lemma abandoned_reachable : star trcp_step default_simulator abandoned.
Proof.
  unfold abandoned.
  eapply star_step; [|apply (step_fallback default_task default_fallback
    (snd (advance_time 2001 (snd (record_failover default_fallback default_failover after_primary)))))].
  eapply star_step; [|apply (step_advance_time 2001 (snd (record_failover default_fallback default_failover after_primary)))].
  eapply star_step; [|apply (step_failover default_fallback default_failover after_primary)].
  unfold after_primary. eapply star_step; [|apply (step_primary default_task default_primary (snd (authorize default_simulator)))].
  eapply star_step; [|apply (step_authorize default_simulator)]. apply star_refl.
Qed.

(** The simulator refuses the fallback and ends as its table says; its bundle fails all the same,
    since the verifier wants a second run for every decision. *)
Theorem abandoned_failover_fails :
  ts_state abandoned = "AUTH_EXPIRED" /\ mem "AUTH_EXPIRED" TERMINAL_STATES = true
  /\ says (bundle_from abandoned) "FAIL".
Proof.
  assert (ts_state abandoned = "AUTH_EXPIRED") as Hst by (vm_compute; reflexivity).
  assert (ended abandoned = false) as He by (vm_compute; reflexivity).
  split; [done|]. split; [done|].
  pose proof (plain_result abandoned) as H. rewrite He in H.
  apply H; [by eapply reachable_simulated, abandoned_reachable|by rewrite Hst|vm_compute; reflexivity].
Qed.

(** ** Properties *)

(** C18: the verifier agrees with the simulator. For every state a host can bring an
    authorized simulator to, and any consumer evidence, the bundle is built, and its receipt
    says PASS exactly when the simulator has come to a terminal state, a decided failover
    was carried out, and the check of the consumer workload does not fail: all the other
    checks pass. *)
Theorem replay_of_simulator `{hash : Digest} `{text : PyText} (authorization : AuthorizationRecord)
    (scope : ScopeEnvelope) (now : Z) (s : TRCPSimulator) (evidence : option dict)
    (Hreach : star trcp_step (TRCPSimulator_init authorization scope now) s)
    (Hstarted : ts_state s <> "NEW") :
  exists b receipt, build_evidence_bundle (report s) evidence = Ok b
  /\ verify_evidence_bundle b = Ok receipt
  /\ dict_get receipt "result"
     = Some (JStr (if ended s && negb (workload_fails b) then "PASS" else "FAIL")).
Proof.
  destruct (bundle_built s evidence) as (b & E & Hb). exists b.
  assert (says b (if ended s && negb (workload_fails b) then "PASS" else "FAIL")) as (receipt & Hv & Hr);
    [|by exists receipt].
  rewrite says_exact, (simulator_checks s evidence) by (done || by eapply reachable_simulated).
  by destruct (ended s && _).
Qed.

Lemma replay_of_simulator_witness :
  star trcp_step default_simulator default_confirmed /\ ts_state default_confirmed = "CLOSED"
  /\ exists b receipt, build_evidence_bundle (report default_confirmed) None = Ok b
     /\ verify_evidence_bundle b = Ok receipt
     /\ dict_get receipt "result"
        = Some (JStr (if ended default_confirmed && negb (workload_fails b) then "PASS" else "FAIL")).
Proof.
  assert (ts_state default_confirmed = "CLOSED") as Hst by (vm_compute; reflexivity).
  split; [exact default_reachable|]. split; [exact Hst|].
  apply (@replay_of_simulator checksum_digest plain_text default_authorization default_scope 1000 default_confirmed
    None default_reachable). rewrite Hst. discriminate.
Defined.



(** C20: any document gets a sealed receipt: no name is missing from the table of checks. The
    fourteen checks are listed in the order below, each under its name with PASS, FAIL or
    SKIP and with what its function answered; a check that raises counts as failed; the
    result is FAIL exactly when a check failed, and then [failed_check] names the first. *)
Theorem replay_verdict_exact `{hash : Digest} `{text : PyText} (b : dict) :
  exists receipt checks rows, verify_evidence_bundle b = Ok receipt
  /\ dict_get receipt "checks" = Some (JList (map JObj rows)) /\ Forall2 row_of checks rows
  /\ map ck_check_id checks =
      ["BUNDLE_INTEGRITY"; "TRACE_HASH_CHAIN"; "TEMPORAL_ORDER"; "STATE_TRANSITION"; "CAUSAL_ORDER";
       "AUTHORIZATION_CONTINUITY"; "SCOPE_MONOTONICITY"; "PROHIBITED_ACTION"; "FAILOVER_DECISION_REQUIRED";
       "TASK_IDENTITY"; "VERIFICATION_CLOSURE"; "VERIFICATION_CONSISTENCY"; "FINAL_STATE";
       "WORKLOAD_EVIDENCE_BINDING"]
  /\ Forall (fun c => mem (ck_result c) ["PASS"; "FAIL"; "SKIP"] = true) checks
  /\ (forall id check, (id, check) ∈ CHECK_FUNCTIONS -> exists c, c ∈ checks /\ ck_check_id c = id
        /\ match check b with Ok answer => c = answer | Err _ => ck_result c = "FAIL" end)
  /\ dict_get receipt "result"
     = Some (JStr (if existsb (fun c => String.eqb (ck_result c) "FAIL") checks then "FAIL" else "PASS"))
  /\ dict_get receipt "failed_check"
     = JStr <$> (ck_check_id <$> List.find (fun c => String.eqb (ck_result c) "FAIL") checks)
  /\ dict_get receipt "receipt_sha256" = Some (JStr (canonical_sha256 (JObj (dict_del receipt "receipt_sha256")))).
Proof.
  eexists _, (checks_of b), (map CheckResult_as_dict (checks_of b)). split; [apply verify_run|]. split_and!.
  - unfold receipt_body. rewrite <- rounds_checks, !map_map.
    destruct (List.find _ _) as [[id c]|]; unfold seal; by rewrite dict_get_set_ne.
  - apply checks_rows.
  - apply checks_in_order.
  - apply Forall_forall. intros c (check & -> & Hc)%list_elem_of_fmap. by apply run_named.
  - intros id check Hin. exists (run_check b (id, check)). split; [by apply list_elem_of_fmap_2|].
    split; [by apply (run_named (id, check))|]. unfold run_check. cbn [snd]. by destruct (check b).
  - apply receipt_result.
  - rewrite <- first_failure. unfold receipt_body. destruct (List.find _ _) as [[id c]|]; unfold seal;
      rewrite dict_get_set_ne by done; [|done]. by destruct (String.eqb (ck_detail c) "").
  - unfold seal. rewrite dict_get_set, dict_del_set; [done|]. unfold receipt_body.
    destruct (List.find _ _) as [[id c]|]; [|done]. by destruct (String.eqb (ck_detail c) "").
Qed.
